(* ===== verification/_CoqProject ===== *)
-Q . S2P
Prelude.v
Replay.v
Primitives.v
Transport.v
Handshake.v
Text.v
Auth.v
Media.v
Frame.v
Evented.v
ControlLane.v
Video.v
Net.v
Stun.v
Clock.v
Budget.v
SlotBits.v
VoiceRelay.v
VoiceInvariant.v
VoiceSend.v
VoiceRun.v
Agent.v
AgentInvariant.v
Traversal.v
Usernames.v
Identity.v
History.v
Resident.v
RoomLog.v
RoomState.v
RoomStore.v
RoomIds.v
RoomDurability.v
RoomPaging.v
ServerState.v
ServerCascade.v
ServerOps.v
ServerConns.v
ServerAuth.v
ServerVideo.v
ServerLoop.v
ServerInvariant.v
ServerTeardown.v
ServerNames.v
ServerKept.v
ServerConnsInv.v
ServerSends.v
ServerVideoInv.v
ServerAuthInv.v
ServerLoopInv.v
ServerRun.v
ServerClaims.v
