(* ===== verification/Prelude.v ===== *)
(** * Verification of the Chatt core

    Chatt (src/) is a chat, voice and screen-sharing system: a server
    (src/crates/server), clients (src/src) and the crates they share.  This
    library models the parts everything else stands on: the session protocol
    between client and server (src/crates/rpc), the framing of its TCP lanes and
    UDP datagrams, the peer-to-peer traversal (src/crates/p2p) and the server's
    identities, rooms and logs (src/crates/server), and proves what makes them
    correct.  Each definition is a translation of the named function; every one
    is executable.

    ** How the program's parts fit, and where each is modelled

    A client opens a TCP connection and runs a handshake ([Handshake]): hellos
    with nonces and ephemeral keys, a server signature over the transcript, and
    keys derived for each direction.  The session's control lane is a byte stream
    of length-prefixed frames ([Frame]), each a sealed record ([Transport]), read
    and written by event-driven pumps ([Evented]) and taken apart by the server's
    connection step ([ControlLane]).  Video runs over its own lane of records
    ([Video]).  Voice runs over UDP datagrams ([Media]) that carry a counter
    guarded by a sliding window ([Replay]).  Two clients look for a direct path
    with STUN packets ([Stun]) sent by a traversal agent ([Agent]) over pairs of
    candidates ([Net]).  Identifiers, tokens and proofs are text and MACs ([Text],
    [Auth]).  The server knows its users by the records of a store ([Identity])
    and by names held in a registry with a log ([Usernames]).  A room's messages
    are records ([History]) held in memory ([Resident]) and written to a log by a
    worker thread ([RoomLog]); the room store ([RoomStore]) hands out message ids
    reserved in a database ([RoomState]), appends, and serves pages of history
    from memory or, through a reader thread, from the log.  A relay thread
    ([VoiceRelay]) passes voice between the sessions of a room, over UDP or over
    TCP lanes the control loop hands it.

    - [Prelude]: results, machine-width integers, bytes, slices, the fixed-width
      little- and big-endian integers of the wire formats, and the tactics and
      hints the other files share.
    - [Replay]: [AntiReplay] of rpc/src/crypto.rs, a 2048-bit ring of 64-bit
      words, against the specification [Window] that remembers every accepted
      counter.  The model is the 64-bit build (32 words of 64 bits).
    - [Primitives]: the interface to the cryptographic library (AEAD, X25519,
      Ed25519, HKDF, SHA-256, HMAC), which is not part of the sources: a class of
      functions and a class of the laws the code relies on, with the instance
      [Toy] that shows the laws can hold.
    - [Transport]: [TransportCipher], [RecordProtection] and the sealing and
      opening functions of rpc/src/crypto.rs.
    - [Handshake]: the hello messages of rpc/src/control.rs and the handshake,
      key-derivation and hello-MAC functions of rpc/src/crypto.rs.
    - [Text]: hexadecimal of rpc/src/crypto.rs, [ServerId] of ids/src/lib.rs and
      Crockford base32 of rpc/src/base32.rs.
    - [Auth]: dynamic tokens, derived user ids, STUN integrity and auth proofs of
      rpc/src/crypto.rs.  The jsony codec of the token claims is the class
      [ClaimsCodec].
    - [Media]: rpc/src/media.rs, the payload codec and the sealing and opening of
      datagrams in both transport modes, copying and in place.
    - [Frame]: rpc/src/frame.rs.  [Evented]: rpc/src/recv.rs and
      rpc/src/evented.rs; a socket is an instance of the class [StreamSocket] or
      [StreamWriter], which may deliver or accept any part, block, be
      interrupted or fail.
    - [ControlLane]: [control_conn_step] of server/src/lib.rs.
    - [Video]: video/src/video.rs and rpc/src/video.rs (frames, records, the
      incremental reader and its pump, the video hello and proof).
    - [Net]: p2p/src/candidate.rs, nat.rs and restart.rs.  [Stun]: p2p/src/stun.rs.
    - [Clock]: what the agent uses of [std::time], with [Duration::mul_f64]
      computed in binary64.  [Agent]: p2p/src/agent.rs.  [AgentInvariant]: its
      invariant, preserved by every operation.  [Traversal]: the properties of
      agents and of pairs of agents.
    - [Budget], [SlotBits], [VoiceRelay]: server/src/voice_relay.rs, its token
      buckets, its bit sets of slots and the relay itself.  [VoiceInvariant]: that
      its tables agree with each other, kept by the operations on sessions, rooms
      and lanes.  [VoiceSend]: the same for what it sends, and who gets what.
      [VoiceRun]: the same for what it receives and the turns of its loop.
    - [Usernames]: rpc/src/username.rs and server/src/username_registry.rs, with
      the bytes of the log.  The width and the lowercase of a character are the
      class [Unicode]; nothing is assumed of them.
    - [Identity]: server/src/user_store.rs, the user records and secret hashes of
      server/src/config.rs and [install_explicit_username] of server/src/lib.rs.
      The file users.toml is the list of its records.
    - [History]: rpc/src/history.rs with the message types of rpc/src/control.rs,
      and the round trips of records and chunks.
    - [Resident]: the resident window of server/src/room_store.rs, byte buffer and
      entries, against the list of records it stands for ([resident]), and the
      chunks a page is cut into.
    - [RoomLog]: the log files and worker of server/src/room_store.rs and the disk
      reader of server/src/history_reader.rs.  A directory has names and inodes,
      so a handle survives the rename of a rotation, and each system call of a
      turn may fail.
    - [RoomState]: server/src/room_state.rs.  The database engine is not part of
      the sources: tables are finite maps and a transaction commits whole or not.
    - [RoomStore]: the room store itself.  [RoomIds]: its message ids while the
      state writer lags and the server crashes.  [RoomDurability]: the logs over
      any sequence of appends, failures, crashes and restarts.  [RoomPaging]: the
      server as store, worker and disk, interleaved, and the history requests it
      answers.

    State is passed explicitly: a method on [&mut self] returns the new state
    beside its result, a fallible function returns [result] with the source's
    error type, and a function that can panic returns an [option].  Integers are
    [Z] with the wrap-around of their width written out; indices and lengths are
    [nat].  A [String] is its UTF-8 bytes.

    ** What the theorems show

    - Replay (C1, C2): the ring answers exactly like the unbounded specification,
      and no counter is ever accepted twice.
    - Record lanes (C3 to C5): sealed runs open in order to the same plaintexts;
      any other order is refused; nonces never repeat.
    - Voice relay (C7, C11, C21, C29): its tables agree and nothing panics over
      every sequence of commands, packets and turns; a voice packet reaches
      exactly the others in the room, each once; a session is not admitted beyond
      its budget, and one within it always is; only an authenticated packet moves
      a session's address, and only once.
    - Rooms (C6, C14, C16, C40): a client that pages back gets every message of a
      durable room once, in order, and learns where the history starts; each
      request is answered exactly; a room reopened after crashes and failures
      holds the newest messages of its log, none invented; message ids only grow
      over all lives of the server while the state writer keeps up.
    - Handshake (C8 to C10): honest ends agree on a session; a client accepts only
      what the trusted key signed; the transcript determines what it covers.
    - Text and tokens (C12, C13): base32 round trips; issued tokens verify.
    - Media (C15, C17 to C20, C22): the payload codec is a bijection with its wire
      form; datagrams round trip; refused datagrams change nothing; accepted ones
      cannot be replayed; the in-place path equals the copying path; an address
      claim needs its proof.
    - Lanes (C23 to C28): the pumps lose, invent and reorder no byte whatever the
      socket does and always end; the control lane delivers messages exactly once
      in order however TCP splits them; the incremental video reader agrees with
      cutting the whole stream.
    - STUN messages (C30) round trip; C31 shows what STUN verification does not
      cover.
    - Traversal (C32 to C37): pair ranking is common to both ends; the agent never
      panics and keeps its invariant on every sequence of events; it sends only
      with consent; checks complete; role conflicts resolve; keepalives are due
      before consent can expire.
    - Identities (C38, C39): every change of users and names that was
      acknowledged is there after a restart, and no two users share a name, in
      any case.

    ** Fuel and bounds

    A loop over a buffer takes the length of the buffer (or one more) as fuel,
    and each turn consumes at least one byte, so it never runs out; the theorems
    about the pumps prove that the stated fuel gives a result.  The retry loop on
    interrupted calls takes a number of tries, assumed larger than the number of
    interruptions the socket still delivers ([patience]).  Times are unbounded
    integers of nanoseconds: the overflow of an [Instant] or of the sum of two
    durations, beyond 2^63 seconds, is not modelled.

    ** Not modelled

    The cryptographic algorithms, the jsony serialisation, operating-system
    sockets and files, and logging are outside the sources or pure input and
    output.  Of the sources, the TOML text of users.toml, the interleaving of a
    history delivery with the trims of its room, the start, stop and scheduling
    priority of the relay thread, the MLS group layer (src/crates/mls), the
    client application, its audio pipeline and user interface, the local RPC and
    the message formatter are not modelled yet; the server's dispatch and the
    audio jitter buffer are next. *)

From Stdlib Require Export ZArith Lia Bool.
From Stdlib Require Import Strings.Byte.
From stdpp Require Export base tactics option list numbers strings gmap.
#[global] Open Scope Z_scope.

(** ** Rust's [Result], as a monad of stdpp *)

Inductive result (E A : Type) : Type :=
| Ok (a : A)
| Err (e : E).
Arguments Ok {E A} a.
Arguments Err {E A} e.

#[export] Instance result_ret E : MRet (result E) := fun A a => Ok a.
#[export] Instance result_bind E : MBind (result E) :=
  fun A B f r => match r with Ok a => f a | Err e => Err e end.
#[export] Instance result_fmap E : FMap (result E) :=
  fun A B f r => match r with Ok a => Ok (f a) | Err e => Err e end.

#[export] Instance result_eq_dec {E A} `{EqDecision E, EqDecision A} : EqDecision (result E A).
Proof. solve_decision. Defined.

#[export] Instance ok_inj E A : Inj (=) (=) (@Ok E A).
Proof. by intros a b [=]. Qed.

(** [Result::map_err]. *)
Definition map_err {E F A} (f : E -> F) (r : result E A) : result F A :=
  match r with Ok a => Ok a | Err e => Err (f e) end.

(** [Option::ok_or]. *)
Definition ok_or {E A} (e : E) (o : option A) : result E A :=
  match o with Some a => Ok a | None => Err e end.

(** One reduction step of the monad, unfolding nothing else. *)
Ltac run_result := cbn [mbind result_bind fmap result_fmap ok_or map_err].
Tactic Notation "run_result" "in" hyp(H) :=
  cbn [mbind result_bind fmap result_fmap ok_or map_err] in H.

(** ** Machine integers

    An unsigned [w]-bit integer is a [Z] in [0, 2^w); the wrap-around of a
    wrapping operation is written out with [wrap]. *)

Definition umax (w : Z) : Z := 2 ^ w - 1.
Definition is_u (w z : Z) : Prop := 0 <= z < 2 ^ w.
Abbreviation is_u8 := (is_u 8).
Abbreviation is_u16 := (is_u 16).
Abbreviation is_u32 := (is_u 32).
Abbreviation is_u64 := (is_u 64).
Definition wrap (w z : Z) : Z := z mod 2 ^ w.
(** [checked_add]. *)
Definition checked_add (w a b : Z) : option Z :=
  if decide (a + b < 2 ^ w) then Some (a + b) else None.
(** [saturating_add] and [saturating_sub]. *)
Definition saturating_add (w a b : Z) : Z := Z.min (a + b) (umax w).
Definition saturating_sub (a b : Z) : Z := Z.max 0 (a - b).

Lemma is_u_wrap w z : 0 <= w -> is_u w (wrap w z).
Proof. intros. unfold is_u, wrap. apply Z.mod_pos_bound, Z.pow_pos_nonneg; lia. Qed.

Lemma wrap_small w z : is_u w z -> wrap w z = z.
Proof. intros. unfold wrap. apply Z.mod_small. exact H. Qed.

Lemma is_u_mod w z : 0 <= w -> is_u w z <-> z mod 2 ^ w = z.
Proof.
  intros. pose proof (Z.pow_pos_nonneg 2 w ltac:(lia) ltac:(lia)). split.
  - apply wrap_small.
  - intros <-. apply (is_u_wrap w z). lia.
Qed.

(** Bit operations stay inside the width. *)
Lemma is_u_lxor w a b : 0 <= w -> is_u w a -> is_u w b -> is_u w (Z.lxor a b).
Proof.
  intros Hw Ha Hb. apply is_u_mod in Ha, Hb; [|done..]. apply is_u_mod; [done|].
  rewrite <- Z.land_ones in * by done. apply Z.bits_inj'. intros n Hn.
  assert (Z.testbit a n = Z.testbit a n && Z.testbit (Z.ones w) n) by (rewrite <- Z.land_spec; by rewrite Ha).
  assert (Z.testbit b n = Z.testbit b n && Z.testbit (Z.ones w) n) by (rewrite <- Z.land_spec; by rewrite Hb).
  rewrite Z.land_spec, !Z.lxor_spec.
  by destruct (Z.testbit a n), (Z.testbit b n), (Z.testbit (Z.ones w) n).
Qed.

Lemma lxor_twice a b : Z.lxor (Z.lxor a b) b = a.
Proof. by rewrite Z.lxor_assoc, Z.lxor_nilpotent, Z.lxor_0_r. Qed.

#[export] Instance is_u_dec w z : Decision (is_u w z).
Proof. unfold is_u. apply _. Defined.

(** ** Bytes *)

Abbreviation byte := Corelib.Init.Byte.byte.
Abbreviation bytes := (list byte).

#[export] Instance byte_eq_decision : EqDecision byte := Byte.byte_eq_dec.

#[export] Instance byte_inhabited : Inhabited byte := populate Byte.x00.

(** The value of a byte, and the [as u8] truncation. *)
Definition u8 (b : byte) : Z := Z.of_N (Byte.to_N b).
Definition of_u8 (z : Z) : byte :=
  match Byte.of_N (Z.to_N (z mod 256)) with Some b => b | None => Byte.x00 end.

#[export] Instance byte_countable : Countable byte.
Proof.
  apply (inj_countable Byte.to_N Byte.of_N). apply Byte.of_to_N.
Defined.

Lemma u8_range b : 0 <= u8 b < 256.
Proof.
  unfold u8. pose proof (Byte.to_N_bounded b). lia.
Qed.

Lemma of_u8_u8 b : of_u8 (u8 b) = b.
Proof.
  unfold of_u8. pose proof (u8_range b).
  rewrite Z.mod_small by lia. unfold u8. rewrite N2Z.id, Byte.of_to_N. done.
Qed.

Lemma u8_of_u8 z : u8 (of_u8 z) = z mod 256.
Proof.
  unfold of_u8. pose proof (Z.mod_pos_bound z 256 ltac:(lia)).
  destruct (Byte.of_N (Z.to_N (z mod 256))) as [b|] eqn:E.
  - apply Byte.to_of_N in E. unfold u8. rewrite E. lia.
  - exfalso. apply Byte.of_N_None_iff in E. lia.
Qed.

#[export] Instance u8_inj : Inj (=) (=) u8.
Proof. intros a b H. rewrite <- (of_u8_u8 a), <- (of_u8_u8 b). by f_equal. Qed.

(** A decidable property of every byte, checked by evaluation. *)
Lemma byte_forall (P : byte -> Prop) `{forall b, Decision (P b)} :
  forallb (fun z => bool_decide (P (of_u8 z))) (seqZ 0 256) = true -> forall b, P b.
Proof.
  intros Hall b. rewrite forallb_forall in Hall.
  rewrite <- (of_u8_u8 b). apply (bool_decide_unpack _), Is_true_true, Hall.
  apply list_elem_of_In, elem_of_seqZ. pose proof (u8_range b). lia.
Qed.

(** [b'...'] literals: the bytes of an ASCII string. *)
Definition ascii_bytes (s : string) : bytes := String.list_byte_of_string s.

(** ** Lengths and slices *)

Definition len {A} (l : list A) : Z := Z.of_nat (length l).

Lemma len_nonneg {A} (l : list A) : 0 <= len l.
Proof. unfold len. lia. Qed.

Lemma len_app {A} (l k : list A) : len (l ++ k) = len l + len k.
Proof. unfold len. rewrite length_app. lia. Qed.

Lemma len_cons {A} (x : A) (l : list A) : len (x :: l) = 1 + len l.
Proof. unfold len. simpl. lia. Qed.

(** [&l[a..b]] for a range known to be in bounds. *)
Definition slice {A} (l : list A) (a b : nat) : list A := take (b - a) (drop a l).

Lemma length_slice {A} (l : list A) a b :
  (a <= b <= length l)%nat -> length (slice l a b) = (b - a)%nat.
Proof. intros. unfold slice. rewrite length_take, length_drop. lia. Qed.

Lemma slice_mid {A} (l h k : list A) a b :
  a = length l -> b = (a + length h)%nat -> slice (l ++ h ++ k) a b = h.
Proof.
  intros -> ->. unfold slice. replace (_ - _)%nat with (length h) by lia.
  by rewrite drop_app_length, take_app_length.
Qed.

Lemma slice_front {A} (h k : list A) b : b = length h -> slice (h ++ k) 0 b = h.
Proof. intros ->. by apply (slice_mid [] h k). Qed.

Lemma filter_all {A} (P : A -> Prop) `{forall x, Decision (P x)} l : Forall P l -> filter P l = l.
Proof. induction 1; [done|]. rewrite filter_cons_True by done. by f_equal. Qed.

Lemma filter_none {A} (P : A -> Prop) `{forall x, Decision (P x)} l :
  Forall (fun x => ~ P x) l -> filter P l = [].
Proof. induction 1; [done|]. by rewrite filter_cons_False. Qed.

(** [l.get(a..b)]: [None] when the range is out of bounds. *)
Definition get_range {A} (l : list A) (a b : Z) : option (list A) :=
  if decide (0 <= a <= b /\ b <= len l)
  then Some (slice l (Z.to_nat a) (Z.to_nat b)) else None.

(** ** Little- and big-endian integers *)

Fixpoint le_bytes (n : nat) (z : Z) : bytes :=
  match n with
  | O => []
  | S n => of_u8 z :: le_bytes n (z / 256)
  end.

Fixpoint of_le (bs : bytes) : Z :=
  match bs with
  | [] => 0
  | b :: bs => u8 b + 256 * of_le bs
  end.

Definition be_bytes (n : nat) (z : Z) : bytes := reverse (le_bytes n z).
Definition of_be (bs : bytes) : Z := of_le (reverse bs).

Lemma length_le_bytes n z : length (le_bytes n z) = n.
Proof. revert z; induction n; intros; simpl; auto. Qed.

Lemma length_be_bytes n z : length (be_bytes n z) = n.
Proof. unfold be_bytes. by rewrite length_reverse, length_le_bytes. Qed.

Lemma of_le_bound bs : 0 <= of_le bs < 2 ^ (8 * len bs).
Proof.
  induction bs as [|b bs IH]; simpl; [unfold len; simpl; lia|].
  pose proof (u8_range b). rewrite len_cons.
  replace (8 * (1 + len bs)) with (8 + 8 * len bs) by lia.
  rewrite Z.pow_add_r by (pose proof (len_nonneg bs); lia).
  change (2 ^ 8) with 256. nia.
Qed.

Lemma of_be_bound bs : 0 <= of_be bs < 2 ^ (8 * len bs).
Proof.
  pose proof (of_le_bound (reverse bs)) as H.
  unfold len in *. rewrite length_reverse in H. exact H.
Qed.

Lemma of_le_le_bytes n z : is_u (8 * Z.of_nat n) z -> of_le (le_bytes n z) = z.
Proof.
  revert z; induction n as [|n IH]; intros z Hz; cbn [le_bytes of_le].
  - unfold is_u in Hz. simpl in Hz. lia.
  - rewrite u8_of_u8, IH.
    + pose proof (Z.div_mod z 256 ltac:(lia)). lia.
    + unfold is_u in *. replace (8 * Z.of_nat (S n)) with (8 + 8 * Z.of_nat n) in Hz by lia.
      rewrite Z.pow_add_r in Hz by lia. change (2 ^ 8) with 256 in Hz.
      split; [apply Z.div_pos; lia|apply Z.div_lt_upper_bound; lia].
Qed.

Lemma le_bytes_of_le n bs : length bs = n -> le_bytes n (of_le bs) = bs.
Proof.
  intros <-. induction bs as [|b bs IH]; cbn [le_bytes of_le length]; [done|].
  pose proof (u8_range b). f_equal.
  - rewrite <- (of_u8_u8 b) at 2. unfold of_u8.
    by rewrite Z.mul_comm, Z_mod_plus_full.
  - rewrite Z.mul_comm, Z.div_add, Z.div_small by lia. exact IH.
Qed.

Lemma of_be_be_bytes n z : is_u (8 * Z.of_nat n) z -> of_be (be_bytes n z) = z.
Proof. intros. unfold of_be, be_bytes. rewrite reverse_involutive. by apply of_le_le_bytes. Qed.

Lemma be_bytes_of_be n bs : length bs = n -> be_bytes n (of_be bs) = bs.
Proof.
  intros. unfold of_be, be_bytes. rewrite le_bytes_of_le; [apply reverse_involutive|].
  by rewrite length_reverse.
Qed.

Lemma le_bytes_app n m z : le_bytes (n + m) z = le_bytes n z ++ le_bytes m (z / 256 ^ Z.of_nat n).
Proof.
  revert z. induction n as [|n IH]; intros z; cbn [Nat.add le_bytes app].
  - by rewrite Z.div_1_r.
  - rewrite IH, Zdiv.Zdiv_Zdiv by lia.
    rewrite Nat2Z.inj_succ, Z.pow_succ_r by lia. done.
Qed.

Lemma of_u8_mod z : of_u8 (z mod 256) = of_u8 z.
Proof. unfold of_u8. by rewrite Z.mod_mod by lia. Qed.

Lemma le_bytes_mod n z : le_bytes n (z mod 256 ^ Z.of_nat n) = le_bytes n z.
Proof.
  revert z. induction n as [|n IH]; intros z; cbn [le_bytes]; [done|].
  pose proof (Z.pow_pos_nonneg 256 (Z.of_nat n)).
  rewrite Nat2Z.inj_succ, Z.pow_succ_r, Z.rem_mul_r by lia. f_equal.
  - rewrite <- of_u8_mod, Z.mul_comm, Z.mod_add, Z.mod_mod, of_u8_mod by lia. done.
  - rewrite Z.mul_comm, Z.div_add, Z.div_small by (pose proof (Z.mod_pos_bound z 256); lia).
    apply IH.
Qed.

(** The first byte of a big-endian integer, and the rest. *)
Lemma be_bytes_S n z : be_bytes (S n) z = of_u8 (z / 256 ^ Z.of_nat n) :: be_bytes n (z mod 256 ^ Z.of_nat n).
Proof.
  unfold be_bytes. rewrite le_bytes_mod. replace (S n) with (n + 1)%nat by lia.
  rewrite le_bytes_app, reverse_app. done.
Qed.

Lemma of_be_cons b bs : of_be (b :: bs) = u8 b * 256 ^ len bs + of_be bs.
Proof.
  assert (forall l k, of_le (l ++ k) = of_le l + 256 ^ len l * of_le k) as Happ.
  { induction l as [|x l IH]; intros k; cbn [app of_le]; [unfold len; simpl; lia|].
    rewrite IH, len_cons, Z.pow_add_r by (pose proof (len_nonneg l); lia). lia. }
  unfold of_be. rewrite reverse_cons, Happ. unfold len. rewrite length_reverse.
  cbn [of_le]. lia.
Qed.

Lemma le_bytes_inj n x y :
  is_u (8 * Z.of_nat n) x -> is_u (8 * Z.of_nat n) y -> le_bytes n x = le_bytes n y -> x = y.
Proof.
  intros Hx Hy H. rewrite <- (of_le_le_bytes n x), <- (of_le_le_bytes n y) by done.
  by rewrite H.
Qed.

(** The shapes the codecs use: a fixed-width field is a list of exactly that
    many bytes that reads back as the integer it was written from. *)

Lemma field2 z : exists a b, le_bytes 2 z = [a; b] /\ (is_u16 z -> of_le [a; b] = z).
Proof. eexists _, _. split; [reflexivity|]. apply (of_le_le_bytes 2). Qed.

Lemma field4 z :
  exists a b c d, le_bytes 4 z = [a; b; c; d] /\ (is_u32 z -> of_le [a; b; c; d] = z).
Proof. eexists _, _, _, _. split; [reflexivity|]. apply (of_le_le_bytes 4). Qed.

Lemma field8 z :
  exists a b c d e f g h, le_bytes 8 z = [a; b; c; d; e; f; g; h]
    /\ (is_u64 z -> of_le [a; b; c; d; e; f; g; h] = z).
Proof. eexists _, _, _, _, _, _, _, _. split; [reflexivity|]. apply (of_le_le_bytes 8). Qed.

Lemma unfield2 a b : le_bytes 2 (of_le [a; b]) = [a; b].
Proof. by apply le_bytes_of_le. Qed.
Lemma unfield4 a b c d : le_bytes 4 (of_le [a; b; c; d]) = [a; b; c; d].
Proof. by apply le_bytes_of_le. Qed.
Lemma unfield8 a b c d e f g h :
  le_bytes 8 (of_le [a; b; c; d; e; f; g; h]) = [a; b; c; d; e; f; g; h].
Proof. by apply le_bytes_of_le. Qed.

Lemma read1 a : is_u8 (u8 a).
Proof. pose proof (u8_range a). done. Qed.
Lemma read2 a b : is_u16 (of_le [a; b]).
Proof. apply (of_le_bound [a; b]). Qed.
Lemma read4 a b c d : is_u32 (of_le [a; b; c; d]).
Proof. apply (of_le_bound [a; b; c; d]). Qed.
Lemma read8 a b c d e f g h : is_u64 (of_le [a; b; c; d; e; f; g; h]).
Proof. apply (of_le_bound [a; b; c; d; e; f; g; h]). Qed.

Create HintDb wire.
#[export] Hint Resolve read1 read2 read4 read8 : wire.
#[export] Hint Rewrite unfield2 unfield4 unfield8 of_u8_u8 @app_nil_r : wire.
#[export] Hint Rewrite length_le_bytes length_be_bytes @length_app : wire.

#[global] Arguments le_bytes : simpl never.
#[global] Arguments of_le : simpl never.
#[global] Arguments be_bytes : simpl never.
#[global] Arguments of_be : simpl never.
#[global] Arguments u8 : simpl never.
#[global] Arguments of_u8 : simpl never.

(** Replaces every fixed-width field of the goal by its bytes, keeping the
    equation that reads it back. *)
Ltac expose_fields :=
  repeat match goal with
  | |- context [le_bytes 2 ?z] =>
      let H := fresh "Hf" in let R := fresh "Hr" in
      destruct (field2 z) as (? & ? & H & R); rewrite !H in *; clear H
  | |- context [le_bytes 4 ?z] =>
      let H := fresh "Hf" in let R := fresh "Hr" in
      destruct (field4 z) as (? & ? & ? & ? & H & R); rewrite !H in *; clear H
  | |- context [le_bytes 8 ?z] =>
      let H := fresh "Hf" in let R := fresh "Hr" in
      destruct (field8 z) as (? & ? & ? & ? & ? & ? & ? & ? & H & R); rewrite !H in *; clear H
  end.

(** Splits a list of known length (or of known lower bound) into its elements. *)
Ltac explode l n :=
  lazymatch n with
  | O => idtac
  | S ?m => destruct l as [|? l]; [exfalso; simpl in *; lia|]; explode l m
  end.

(** Evaluates slices of lists whose front is spelled out. *)
Ltac cut_slices :=
  unfold slice; cbn [app length take drop Nat.sub]; rewrite ?take_0, ?drop_0.
Tactic Notation "cut_slices" "in" hyp(H) :=
  unfold slice in H; cbn [app length take drop Nat.sub] in H; rewrite ?take_0, ?drop_0 in H.

(** ** Case analysis on the tests of the code *)

(** Settles the equality tests between constants. *)
Ltac settle_constants :=
  repeat match goal with
  | |- context [@decide (?a = ?b) _] =>
      first [ rewrite (decide_True (P := a = b)) by reflexivity
            | rewrite (decide_False (P := a = b)) by (vm_compute; discriminate) ]
  | |- context [@decide (?a <> ?b) _] =>
      first [ rewrite (decide_False (P := a <> b)) by (intros ?Hne; apply Hne; reflexivity)
            | rewrite (decide_True (P := a <> b)) by (vm_compute; discriminate) ]
  end.

Ltac split_ifs := repeat (case_decide || case_match); simplify_eq/=.

(** Settles a closed decidable goal by evaluating its decision procedure. *)
Ltac decide_closed := apply (bool_decide_unpack _); vm_compute; exact I.
