(* ===== verification/Replay.v ===== *)
(** * The anti-replay window of the media lane

    Models [AntiReplay] of src/crates/rpc/src/crypto.rs: a 2048-bit ring of
    64-bit words (the 64-bit [ReplayWord]) indexed by datagram counter.  The
    abstract specification remembers the set of every counter ever accepted;
    the refinement theorems say that the ring, which forgets, still answers
    like that set on its whole window. *)

From S2P Require Import Prelude.

Definition REPLAY_WORD_BITS : Z := 64.
Definition REPLAY_BITLEN : Z := 2048.
Definition REPLAY_LEN : Z := REPLAY_BITLEN / REPLAY_WORD_BITS.
Definition REPLAY_INDEX_MASK : Z := REPLAY_LEN - 1.
Definition REPLAY_LOC_MASK : Z := REPLAY_WORD_BITS - 1.
Definition REPLAY_WINDOW_SIZE : Z := REPLAY_BITLEN - REPLAY_WORD_BITS.

Record AntiReplay := mkAntiReplay {
  bitmap : list Z;
  last : Z;
}.

Module AntiReplay.

Definition new : AntiReplay :=
  {| bitmap := replicate (Z.to_nat REPLAY_LEN) 0; last := 0 |}.

Definition check (r : AntiReplay) (sequence : Z) : bool :=
  if decide (sequence > last r) then true
  else if decide (last r - sequence > REPLAY_WINDOW_SIZE) then false
  else
    let bit_location := Z.land sequence REPLAY_LOC_MASK in
    let index := Z.land (sequence / REPLAY_WORD_BITS) REPLAY_INDEX_MASK in
    bool_decide (Z.land (bitmap r !!! Z.to_nat index) (Z.shiftl 1 bit_location) = 0).

(** The clearing loop [for i in 0..diff]. *)
Definition clear_words (bm : list Z) (current_index diff : Z) : list Z :=
  foldl (fun bm i =>
    let real_index := Z.land (current_index + i + 1) REPLAY_INDEX_MASK in
    <[Z.to_nat real_index := 0]> bm) bm (seqZ 0 diff).

Definition update (r : AntiReplay) (sequence : Z) : bool * AntiReplay :=
  if check r sequence then
    let index := sequence / REPLAY_WORD_BITS in
    let r :=
      if decide (sequence > last r) then
        let current_index := last r / REPLAY_WORD_BITS in
        let diff := index - current_index in
        {| bitmap :=
             if decide (diff >= REPLAY_LEN) then replicate (Z.to_nat REPLAY_LEN) 0
             else clear_words (bitmap r) current_index diff;
           last := sequence |}
      else r in
    let wrapped_index := Z.to_nat (Z.land index REPLAY_INDEX_MASK) in
    let bit_location := Z.land sequence REPLAY_LOC_MASK in
    (true,
     {| bitmap := <[wrapped_index :=
          Z.lor (bitmap r !!! wrapped_index) (Z.shiftl 1 bit_location)]> (bitmap r);
        last := last r |})
  else (false, r).

(** Feeding a whole run of counters, keeping the answers in order. *)
Fixpoint update_all (r : AntiReplay) (seqs : list Z) : list bool * AntiReplay :=
  match seqs with
  | [] => ([], r)
  | s :: seqs =>
      let '(b, r) := update r s in
      let '(bs, r) := update_all r seqs in
      (b :: bs, r)
  end.

End AntiReplay.

(** ** The abstract window: the exact set of accepted counters *)

Module Window.

Record t := mk { seen : gset Z; newest : Z }.

Definition empty : t := {| seen := ∅; newest := 0 |}.

(** A counter is fresh when it was never accepted and is not too old. *)
Definition fresh (w : t) (sequence : Z) : Prop :=
  (sequence ∉ seen w) /\ newest w - sequence <= REPLAY_WINDOW_SIZE.

#[global] Instance fresh_dec w s : Decision (fresh w s).
Proof. unfold fresh. apply _. Defined.

Definition accept (w : t) (sequence : Z) : t :=
  {| seen := {[sequence]} ∪ seen w; newest := Z.max (newest w) sequence |}.

Definition step (w : t) (sequence : Z) : bool * t :=
  if decide (fresh w sequence) then (true, accept w sequence) else (false, w).

Fixpoint run (w : t) (seqs : list Z) : list bool * t :=
  match seqs with
  | [] => ([], w)
  | s :: seqs =>
      let '(b, w) := step w s in
      let '(bs, w) := run w seqs in
      (b :: bs, w)
  end.

End Window.

(** ** The ring at the level of words *)

Definition word_of (bm : list Z) (w : Z) : Z := bm !!! Z.to_nat (w mod REPLAY_LEN).

Lemma index_mask w : Z.land w REPLAY_INDEX_MASK = w mod REPLAY_LEN.
Proof. apply (Z.land_ones w 5). lia. Qed.

Lemma loc_mask s : Z.land s REPLAY_LOC_MASK = s mod 64.
Proof. apply (Z.land_ones s 6). lia. Qed.

Lemma ring_index w : (Z.to_nat (w mod REPLAY_LEN) < 32)%nat.
Proof. change REPLAY_LEN with 32. pose proof (Z.mod_pos_bound w 32). lia. Qed.

(** Two live words share a ring slot only when they are the same word. *)
Lemma ring_index_ne w v :
  w <> v -> Z.abs (w - v) < 32 ->
  Z.to_nat (w mod REPLAY_LEN) <> Z.to_nat (v mod REPLAY_LEN).
Proof.
  change REPLAY_LEN with 32. intros Hne Habs Heq.
  pose proof (Z.mod_pos_bound w 32). pose proof (Z.mod_pos_bound v 32).
  pose proof (Z.div_mod w 32). pose proof (Z.div_mod v 32).
  assert (w mod 32 = v mod 32) by lia. lia.
Qed.

Lemma word_of_insert_eq bm w x :
  length bm = 32%nat -> word_of (<[Z.to_nat (w mod REPLAY_LEN) := x]> bm) w = x.
Proof.
  intros. unfold word_of. apply list_lookup_total_insert_eq. pose proof (ring_index w). lia.
Qed.

Lemma word_of_insert_ne bm w v x :
  w <> v -> Z.abs (w - v) < 32 ->
  word_of (<[Z.to_nat (w mod REPLAY_LEN) := x]> bm) v = word_of bm v.
Proof.
  intros. unfold word_of. apply list_lookup_total_insert_ne. by apply ring_index_ne.
Qed.

Lemma clear_words_snoc bm cur n :
  AntiReplay.clear_words bm cur (Z.of_nat (S n)) =
  <[Z.to_nat ((cur + Z.of_nat n + 1) mod REPLAY_LEN) := 0]>
    (AntiReplay.clear_words bm cur (Z.of_nat n)).
Proof.
  unfold AntiReplay.clear_words.
  replace (Z.of_nat (S n)) with (Z.of_nat n + 1) by lia.
  rewrite seqZ_app by lia. rewrite foldl_app. simpl. by rewrite index_mask.
Qed.

Lemma length_clear_words bm cur n :
  length (AntiReplay.clear_words bm cur (Z.of_nat n)) = length bm.
Proof.
  induction n; [done|]. by rewrite clear_words_snoc, length_insert.
Qed.

(** Clearing the words after [cur] zeroes exactly those and keeps the others. *)
Lemma word_of_clear_words bm cur n w :
  length bm = 32%nat -> (n < 32)%nat ->
  cur + Z.of_nat n - 32 < w <= cur + Z.of_nat n ->
  word_of (AntiReplay.clear_words bm cur (Z.of_nat n)) w =
  if decide (cur < w) then 0 else word_of bm w.
Proof.
  intros Hlen. revert w. induction n as [|n IH]; intros w Hn Hw.
  - rewrite decide_False by lia. done.
  - rewrite clear_words_snoc. destruct (decide (w = cur + Z.of_nat n + 1)) as [->|].
    + rewrite word_of_insert_eq by (rewrite length_clear_words; done).
      rewrite decide_True by lia. done.
    + rewrite word_of_insert_ne by lia. apply IH; lia.
Qed.

Lemma word_of_zero w : word_of (replicate (Z.to_nat REPLAY_LEN) 0) w = 0.
Proof.
  unfold word_of. apply lookup_total_replicate_2. pose proof (ring_index w).
  change (Z.to_nat REPLAY_LEN) with 32%nat. lia.
Qed.

(** Testing one bit of a word by masking. *)
Lemma mask_bit z i :
  0 <= i -> bool_decide (Z.land z (Z.shiftl 1 i) = 0) = negb (Z.testbit z i).
Proof.
  intros Hi. destruct (Z.testbit z i) eqn:E; simpl.
  - apply bool_decide_eq_false. intros H.
    assert (Z.testbit (Z.land z (Z.shiftl 1 i)) i = false) as Hb by (rewrite H; apply Z.bits_0).
    rewrite Z.land_spec, E, Z.shiftl_spec, Z.sub_diag in Hb by lia. done.
  - apply bool_decide_eq_true. apply Z.bits_inj_0. intros n.
    rewrite Z.land_spec. destruct (decide (n = i)) as [->|]; [by rewrite E|].
    destruct (decide (n < 0)); [by rewrite !Z.testbit_neg_r by lia|].
    rewrite Z.shiftl_spec by lia.
    replace (Z.testbit 1 (n - i)) with false; [apply andb_false_r|].
    destruct (decide (n - i < 0)); [by rewrite Z.testbit_neg_r by lia|].
    symmetry. apply (Z.bits_above_log2 1); simpl; lia.
Qed.

Lemma testbit_set z i j :
  0 <= i -> 0 <= j ->
  Z.testbit (Z.lor z (Z.shiftl 1 i)) j = (bool_decide (i = j) || Z.testbit z j).
Proof.
  intros. rewrite Z.lor_spec, Z.shiftl_1_l, orb_comm. f_equal.
  rewrite Z.pow2_bits_eqb by lia. by destruct (Z.eqb_spec i j); case_bool_decide.
Qed.

(** ** Refinement *)

(** The words the ring still holds: the word of [last] and the 31 before it. *)
Definition live (last x : Z) : Prop := 0 <= x /\ last / 64 - 32 < x / 64 <= last / 64.

Definition bit_of (bm : list Z) (x : Z) : bool := Z.testbit (word_of bm (x / 64)) (x mod 64).

Record refines (r : AntiReplay) (w : Window.t) : Prop := {
  ref_len : length (bitmap r) = 32%nat;
  ref_last : last r = Window.newest w;
  ref_pos : 0 <= last r;
  ref_old : forall x, x ∈ Window.seen w -> 0 <= x <= last r;
  ref_bits : forall x, live (last r) x -> bit_of (bitmap r) x = bool_decide (x ∈ Window.seen w);
}.

Lemma refines_new : refines AntiReplay.new Window.empty.
Proof.
  split; simpl; try done.
  intros x _. unfold bit_of. rewrite word_of_zero, Z.bits_0.
  symmetry. apply bool_decide_eq_false. set_solver.
Qed.

Lemma live_window l s : 0 <= s <= l -> l - s <= REPLAY_WINDOW_SIZE -> live l s.
Proof.
  change REPLAY_WINDOW_SIZE with 1984. intros. split; [lia|].
  pose proof (Z.div_mod s 64). pose proof (Z.div_mod l 64).
  pose proof (Z.mod_pos_bound s 64). pose proof (Z.mod_pos_bound l 64). lia.
Qed.

Lemma live_self s : 0 <= s -> live s s.
Proof. intros. apply live_window; [lia|]. change REPLAY_WINDOW_SIZE with 1984. lia. Qed.

Lemma check_refines r w s :
  refines r w -> 0 <= s -> AntiReplay.check r s = bool_decide (Window.fresh w s).
Proof.
  intros [Hlen Hlast Hpos Hold Hbits] Hs. unfold AntiReplay.check. case_decide as Hnew.
  - symmetry. apply bool_decide_eq_true. split; [intros ?%Hold; lia|].
    change REPLAY_WINDOW_SIZE with 1984. lia.
  - case_decide as Hwin.
    + symmetry. apply bool_decide_eq_false. unfold Window.fresh. lia.
    + change REPLAY_WORD_BITS with 64. rewrite index_mask, loc_mask.
      rewrite mask_bit by (pose proof (Z.mod_pos_bound s 64); lia).
      change (Z.testbit _ _) with (bit_of (bitmap r) s). rewrite Hbits by (apply live_window; lia).
      rewrite <- bool_decide_not. apply bool_decide_ext. unfold Window.fresh. intuition lia.
Qed.

(** Setting the bit of [s] in a ring whose words agree with [P] on the live
    words makes them agree with [P] and [s]. *)
Lemma bit_of_set bm l s x (P : bool) :
  length bm = 32%nat -> live l s -> live l x ->
  bit_of bm x = P ->
  bit_of (<[Z.to_nat ((s / 64) mod REPLAY_LEN) :=
            Z.lor (word_of bm (s / 64)) (Z.shiftl 1 (s mod 64))]> bm) x
  = bool_decide (s = x) || P.
Proof.
  intros Hlen Hs Hx HP. unfold bit_of in *.
  pose proof (Z.mod_pos_bound s 64). pose proof (Z.mod_pos_bound x 64).
  pose proof (Z.div_mod s 64). pose proof (Z.div_mod x 64). destruct Hs, Hx.
  destruct (decide (s / 64 = x / 64)) as [E|Hne].
  - rewrite <- E in *. rewrite word_of_insert_eq by done.
    rewrite testbit_set, HP by lia. f_equal. apply bool_decide_ext. lia.
  - rewrite word_of_insert_ne by lia. rewrite HP, bool_decide_eq_false_2; [done|]. by intros ->.
Qed.

(** The ring after its words were moved up to the word of [s]. *)
Lemma bits_advanced r w s x :
  refines r w -> s > last r -> live s x ->
  let cur := last r / 64 in
  let diff := s / 64 - cur in
  let bm := if decide (diff >= REPLAY_LEN) then replicate (Z.to_nat REPLAY_LEN) 0
            else AntiReplay.clear_words (bitmap r) cur diff in
  length bm = 32%nat /\ bit_of bm x = bool_decide (x ∈ Window.seen w).
Proof.
  intros [Hlen Hlast Hpos Hold Hbits] Hs [Hx Hlive] cur diff bm. subst bm.
  assert (cur <= s / 64) by (apply Z.div_le_mono; lia).
  assert (Hfar : cur < x / 64 -> bool_decide (x ∈ Window.seen w) = false).
  { intros. apply bool_decide_eq_false. intros [_ ?]%Hold.
    assert (x / 64 <= last r / 64) by (apply Z.div_le_mono; lia). subst cur. lia. }
  destruct (decide (diff >= REPLAY_LEN)) as [Hd|Hd]; change REPLAY_LEN with 32 in Hd.
  - split; [reflexivity|]. unfold bit_of. rewrite word_of_zero, Z.bits_0. symmetry. apply Hfar. lia.
  - rewrite <- (Z2Nat.id diff) by lia. split; [by rewrite length_clear_words|].
    unfold bit_of. rewrite word_of_clear_words by lia. destruct (decide (cur < x / 64)) as [Hc|Hc].
    + rewrite Z.bits_0. symmetry. by apply Hfar.
    + apply Hbits. split; [lia|]. subst cur diff. lia.
Qed.

Lemma update_refines r w s :
  refines r w -> 0 <= s ->
  let '(b, r') := AntiReplay.update r s in
  let '(b', w') := Window.step w s in
  b = b' /\ refines r' w'.
Proof.
  intros Href Hs. unfold AntiReplay.update, Window.step.
  rewrite (check_refines r w s) by done.
  destruct (decide (Window.fresh w s)) as [Hf|Hf];
    [rewrite bool_decide_eq_true_2 by done|by rewrite bool_decide_eq_false_2].
  split; [done|]. pose proof Href as [Hlen Hlast Hpos Hold Hbits].
  rewrite index_mask, loc_mask. change REPLAY_WORD_BITS with 64.
  destruct (decide (s > last r)) as [Hn|Hn]; split; simpl; try lia.
  - destruct (bits_advanced r w s s Href Hn) as [HL _]; [by apply live_self|].
    by rewrite length_insert.
  - intros x [->%elem_of_singleton|?%Hold]%elem_of_union; lia.
  - intros x Hx. destruct (bits_advanced r w s x Href Hn Hx) as [HL HB].
    etrans; [apply (bit_of_set _ s s x _ HL (live_self s Hs) Hx HB)|].
    rewrite <- bool_decide_or. apply bool_decide_ext. set_solver.
  - by rewrite length_insert.
  - intros x [->%elem_of_singleton|?%Hold]%elem_of_union; lia.
  - intros x Hx. destruct Hf as [Hf1 Hf2].
    etrans; [apply (bit_of_set _ (last r) s x); [done|apply live_window; lia|done|by apply Hbits]|].
    rewrite <- bool_decide_or. apply bool_decide_ext. set_solver.
Qed.

(** A refused counter leaves the window as it was. *)
Lemma update_refused r s r' : AntiReplay.update r s = (false, r') -> r' = r.
Proof. unfold AntiReplay.update. destruct (AntiReplay.check r s); congruence. Qed.

Lemma update_accepts r s : AntiReplay.check r s = true -> (AntiReplay.update r s).1 = true.
Proof. unfold AntiReplay.update. by intros ->. Qed.

(** An accepted counter is refused from then on. *)
Lemma update_accepted r w s r' :
  refines r w -> 0 <= s -> AntiReplay.update r s = (true, r') ->
  AntiReplay.update r' s = (false, r') /\ exists w', refines r' w'.
Proof.
  intros Hr Hs E. pose proof (update_refines r w s Hr Hs) as H. rewrite E in H.
  destruct (Window.step w s) as [b w'] eqn:Ew. destruct H as [Hb H].
  split; [|eauto]. unfold AntiReplay.update. rewrite (check_refines r' w' s H Hs).
  rewrite bool_decide_eq_false_2; [done|]. unfold Window.step in Ew. subst b.
  case_decide; simplify_eq. unfold Window.fresh. set_solver.
Qed.

Lemma update_all_refines seqs r w :
  refines r w -> Forall is_u64 seqs ->
  (AntiReplay.update_all r seqs).1 = (Window.run w seqs).1 /\
  refines (AntiReplay.update_all r seqs).2 (Window.run w seqs).2.
Proof.
  revert r w. induction seqs as [|s seqs IH]; intros r w Hr Hs; simpl; [done|].
  apply Forall_cons in Hs as [[Hs _] Hss].
  pose proof (update_refines r w s Hr Hs) as H.
  destruct (AntiReplay.update r s) as [b r'], (Window.step w s) as [b' w'].
  destruct H as [-> H]. specialize (IH r' w' H Hss).
  destruct (AntiReplay.update_all r' seqs), (Window.run w' seqs). simpl in *.
  destruct IH as [-> ?]. done.
Qed.

(** C1: from the empty window, the ring buffer answers every run of 64-bit
    counters exactly like the specification that remembers every accepted
    counter: a counter is accepted iff it was never accepted before and is at
    most [REPLAY_WINDOW_SIZE] behind the newest accepted one. *)
Theorem anti_replay_refines_window (seqs : list Z) :
  Forall is_u64 seqs ->
  (AntiReplay.update_all AntiReplay.new seqs).1 = (Window.run Window.empty seqs).1.
Proof. intros H. apply (update_all_refines seqs _ _ refines_new H). Qed.

Lemma anti_replay_refines_window_witness :
  (AntiReplay.update_all AntiReplay.new [5; 5; 3000; 1016; 1015; 3000; 1017]).1 =
  [true; false; true; true; false; false; true].
Proof.
  rewrite (anti_replay_refines_window [5; 5; 3000; 1016; 1015; 3000; 1017]);
    [vm_compute; reflexivity|decide_closed].
Defined.

Lemma run_cons w s seqs :
  (Window.run w (s :: seqs)).1 = (Window.step w s).1 :: (Window.run (Window.step w s).2 seqs).1.
Proof. simpl. destruct (Window.step w s) as [b w']. simpl. by destruct (Window.run w' seqs). Qed.

Lemma step_true w s : (Window.step w s).1 = true -> s ∈ Window.seen (Window.step w s).2.
Proof. unfold Window.step. case_decide; simpl; [set_solver|done]. Qed.

Lemma step_seen w s x :
  x ∈ Window.seen w ->
  x ∈ Window.seen (Window.step w s).2 /\ (s = x -> (Window.step w s).1 = false).
Proof.
  intros Hx. unfold Window.step. case_decide as Hf; simpl; [|done].
  split; [set_solver|]. intros ->. by destruct Hf.
Qed.

(** A counter that was accepted is refused ever after. *)
Lemma run_seen seqs w x i :
  x ∈ Window.seen w -> seqs !! i = Some x -> (Window.run w seqs).1 !! i = Some false.
Proof.
  revert w i. induction seqs as [|s seqs IH]; intros w i Hx Hi; [done|].
  rewrite run_cons. destruct (step_seen w s x Hx) as [Hs He].
  destruct i as [|i]; simplify_eq/=; [by rewrite He|]. by apply IH.
Qed.

Lemma run_at_most_once seqs w x i j :
  seqs !! i = Some x -> seqs !! j = Some x ->
  (Window.run w seqs).1 !! i = Some true -> (Window.run w seqs).1 !! j = Some true ->
  (i < j)%nat -> False.
Proof.
  revert w i j. induction seqs as [|s seqs IH]; intros w i j Hi Hj; [done|].
  rewrite run_cons. destruct j as [|j]; [lia|]. destruct i as [|i]; simplify_eq/=.
  - intros Hb Ht _. injection Hb as Hb%step_true. pose proof (run_seen seqs _ _ j Hb Hj). congruence.
  - intros. eapply (IH _ i j); eauto. lia.
Qed.

(** C2: whatever run of counters an attacker feeds the receiver, no counter
    value is accepted at two different positions. *)
Theorem anti_replay_at_most_once (seqs : list Z) (i j : nat) (x : Z) :
  Forall is_u64 seqs ->
  seqs !! i = Some x -> seqs !! j = Some x ->
  (AntiReplay.update_all AntiReplay.new seqs).1 !! i = Some true ->
  (AntiReplay.update_all AntiReplay.new seqs).1 !! j = Some true ->
  i = j.
Proof.
  intros Hu Hi Hj. rewrite (proj1 (update_all_refines seqs _ _ refines_new Hu)). intros Hti Htj.
  destruct (lt_eq_lt_dec i j) as [[?|?]|?]; [exfalso|done|exfalso];
    eauto using run_at_most_once.
Qed.

Lemma anti_replay_at_most_once_witness :
  (AntiReplay.update_all AntiReplay.new [7; 2100; 7]).1 !! 0%nat = Some true /\ 0%nat = 0%nat.
Proof.
  split; [vm_compute; reflexivity|].
  apply (anti_replay_at_most_once [7; 2100; 7] 0 0 7);
    [decide_closed|reflexivity|reflexivity|vm_compute; reflexivity|vm_compute; reflexivity].
Defined.
