(* ===== verification/Primitives.v ===== *)
(** * The cryptographic primitives the transport is built on

    Chatt calls aws-lc-rs for ChaCha20-Poly1305, HMAC-SHA256, SHA-256,
    HKDF-SHA256, X25519 and Ed25519.  That library is not part of the
    repository: its operations are the fields of the class [Primitives], and
    what the protocol code relies on of their documented behaviour is the class
    [PrimitiveLaws].  Secrecy and unforgeability are no laws here: no theorem of
    the library needs them.  [Toy] is a small concrete instance (no security
    whatever) on which witnesses evaluate. *)

From S2P Require Import Prelude.

(** The largest plaintext ChaCha20-Poly1305 accepts (RFC 8439). *)
Definition AEAD_MAX : Z := 274877906880.

Class Primitives := {
  (** [UnboundKey::new(&CHACHA20_POLY1305, key)] succeeds. *)
  unbound_key : bytes -> bool;
  (** [seal_in_place_separate_tag key nonce aad plaintext]: ciphertext and tag. *)
  aead_seal : bytes -> bytes -> bytes -> bytes -> option (bytes * bytes);
  (** [open_in_place key nonce aad (ciphertext ++ tag)]: the plaintext. *)
  aead_open : bytes -> bytes -> bytes -> bytes -> option bytes;
  (** [hmac::sign key message]. *)
  hmac_sha256 : bytes -> bytes -> bytes;
  (** [hmac::verify key message tag], whole and in constant time. *)
  hmac_verify : bytes -> bytes -> bytes -> bool;
  (** [digest::digest message]. *)
  sha256 : bytes -> bytes;
  (** [Salt::new(salt).extract(secret).expand(info)], 32 bytes. *)
  hkdf_sha256 : bytes -> bytes -> bytes -> bytes;
  (** [EphemeralPrivateKey::compute_public_key] and [agree_ephemeral]. *)
  x25519_public : bytes -> option bytes;
  x25519_agree : bytes -> bytes -> option bytes;
  (** [Ed25519KeyPair::public_key], [sign] and [ED25519.verify_sig], the key
      pair being given by its seed. *)
  ed25519_public : bytes -> bytes;
  ed25519_sign : bytes -> bytes -> bytes;
  ed25519_verify : bytes -> bytes -> bytes -> bool;
}.

Class PrimitiveLaws `{Primitives} : Prop := {
  unbound_key_32 k : length k = 32%nat -> unbound_key k = true;
  aead_seal_total k n a p :
    unbound_key k = true -> length n = 12%nat -> len p <= AEAD_MAX ->
    is_Some (aead_seal k n a p);
  aead_seal_length k n a p c t :
    aead_seal k n a p = Some (c, t) -> length c = length p /\ length t = 16%nat;
  aead_open_seal k n a p c t :
    aead_seal k n a p = Some (c, t) -> aead_open k n a (c ++ t) = Some p;
  aead_open_length k n a b p :
    aead_open k n a b = Some p -> length b = (length p + 16)%nat;
  hmac_sha256_length k m : length (hmac_sha256 k m) = 32%nat;
  hmac_verify_iff k m t : hmac_verify k m t = true <-> t = hmac_sha256 k m;
  sha256_length m : length (sha256 m) = 32%nat;
  hkdf_sha256_length s i l : length (hkdf_sha256 s i l) = 32%nat;
  x25519_public_length a A : x25519_public a = Some A -> length A = 32%nat;
  x25519_agree_comm a b A B :
    x25519_public a = Some A -> x25519_public b = Some B ->
    x25519_agree a B = x25519_agree b A;
  ed25519_public_length s : length (ed25519_public s) = 32%nat;
  ed25519_sign_length s m : length (ed25519_sign s m) = 64%nat;
  ed25519_verify_sign s m : ed25519_verify (ed25519_public s) m (ed25519_sign s m) = true;
}.

(** ** A concrete instance for witnesses *)

Module Toy.

(** A polynomial checksum of the message, keyed by a prefix. *)
Definition digest (n : nat) (m : bytes) : bytes :=
  le_bytes n (foldl (fun acc b => (acc * 257 + u8 b + 1) mod 2 ^ 512) 7 m).

Definition seal (k n a p : bytes) : option (bytes * bytes) :=
  if decide (len p <= AEAD_MAX) then Some (p, digest 16 (k ++ n ++ a ++ p)) else None.

Definition open (k n a b : bytes) : option bytes :=
  if decide (16 <= length b)%nat then
    let p := take (length b - 16) b in
    if decide (drop (length b - 16) b = digest 16 (k ++ n ++ a ++ p)) then
      if decide (len p <= AEAD_MAX) then Some p else None
    else None
  else None.

Definition public (a : bytes) : option bytes := Some (le_bytes 32 (wrap 256 (3 * of_le a))).
Definition agree (a B : bytes) : option bytes := Some (le_bytes 32 (wrap 256 (of_le a * of_le B))).
Definition edpub (s : bytes) : bytes := take 32 (s ++ replicate 32 Byte.x00).

#[export] Instance toy : Primitives := {
  unbound_key k := bool_decide (length k = 32%nat);
  aead_seal := seal;
  aead_open := open;
  hmac_sha256 k m := digest 32 (k ++ m);
  hmac_verify k m t := bool_decide (t = digest 32 (k ++ m));
  sha256 m := digest 32 m;
  hkdf_sha256 s i l := digest 32 (s ++ i ++ l);
  x25519_public := public;
  x25519_agree := agree;
  ed25519_public := edpub;
  ed25519_sign s m := digest 64 (edpub s ++ m);
  ed25519_verify p m t := bool_decide (t = digest 64 (p ++ m));
}.

Lemma length_digest n m : length (digest n m) = n.
Proof. apply length_le_bytes. Qed.

Lemma open_seal k n a p c t : seal k n a p = Some (c, t) -> open k n a (c ++ t) = Some p.
Proof.
  unfold seal. case_decide; [|done]. intros [= <- <-]. unfold open.
  rewrite length_app, length_digest. rewrite decide_True by lia.
  replace (length p + 16 - 16)%nat with (length p) by lia.
  rewrite take_app_length, drop_app_length. by rewrite !decide_True.
Qed.

Lemma of_le_wrap z : of_le (le_bytes 32 (wrap 256 z)) = z mod 2 ^ 256.
Proof. apply (of_le_le_bytes 32). apply (is_u_wrap 256). lia. Qed.

Lemma agree_comm a b A B :
  public a = Some A -> public b = Some B -> agree a B = agree b A.
Proof.
  unfold public, agree. intros [= <-] [= <-]. do 2 f_equal. rewrite !of_le_wrap. unfold wrap.
  rewrite !Z.mul_mod_idemp_r by lia. f_equal. lia.
Qed.

#[export] Instance toy_laws : PrimitiveLaws.
Proof.
  split; simpl; intros.
  - by apply bool_decide_eq_true.
  - unfold seal. by rewrite decide_True.
  - unfold seal in *. case_decide; simplify_eq. by rewrite length_digest.
  - by apply open_seal.
  - unfold open in *. repeat case_decide; simplify_eq. rewrite length_take. lia.
  - done.
  - apply bool_decide_eq_true.
  - done.
  - done.
  - unfold public in *. by simplify_eq.
  - eapply agree_comm; eauto.
  - unfold edpub. rewrite length_take, length_app, length_replicate. lia.
  - done.
  - by apply bool_decide_eq_true.
Qed.

End Toy.
