(* ===== verification/Transport.v ===== *)
(** * Record protection of the control and video lanes

    Models the sealing half of src/crates/rpc/src/crypto.rs: key material, the
    counter-nonce AEAD frames, [TransportCipher] with its send and receive
    counters and [RecordProtection], which selects between sealed and plain
    records.  A function writing to [out: &mut Vec<u8>] returns the new buffer
    beside its result, so that its error paths say what they leave there. *)

From S2P Require Import Prelude Primitives.

Definition KEY_LEN : nat := 32.
Definition NONCE_LEN : nat := 32.
Definition X25519_PUBLIC_KEY_LEN : nat := 32.
Definition ED25519_PUBLIC_KEY_LEN : nat := 32.
Definition TAG_LEN : nat := 16.
Definition TRANSPORT_HEADER_LEN : nat := 12.
Definition CHANNEL_CONTROL : Z := 1.
Definition CHANNEL_MEDIA : Z := 2.
Definition CHANNEL_VIDEO : Z := 3.
Definition REJECT_AFTER_MESSAGES : Z := umax 64 - Z.shiftl 1 4.

Inductive CryptoError :=
| Random
| InvalidHandshake
| InvalidSignature
| InvalidKey
| InvalidEncoding
| UnsupportedVersion (version : Z)
| WrongKeyId
| CounterMismatch
| Replay
| CounterExhausted
| Cipher
| BindProofMismatch.

#[export] Instance CryptoError_eq_dec : EqDecision CryptoError.
Proof. solve_decision. Defined.

Record KeyMaterial := mkKey { key_id : Z; key_bytes : bytes }.

(** A [KeyMaterial] value as Rust's types allow it. *)
Definition key_wf (k : KeyMaterial) : Prop :=
  is_u32 (key_id k) /\ length (key_bytes k) = KEY_LEN.

Section transport.
Context `{Primitives}.

(** [nonce_from_counter]: four zero bytes, then the counter. *)
Definition nonce_from_counter (counter : Z) : bytes :=
  replicate 4 Byte.x00 ++ le_bytes 8 counter.

Definition transport_aad (channel : Z) (header : bytes) : bytes := of_u8 channel :: header.

Definition seal_with_key_into (key : KeyMaterial) (channel counter : Z) (plaintext out : bytes)
    : bytes * result CryptoError unit :=
  if decide (counter >= REJECT_AFTER_MESSAGES) then (out, Err CounterExhausted)
  else if unbound_key (key_bytes key) then
    let base := length out in
    let out := out ++ le_bytes 4 (key_id key) in
    let out := out ++ le_bytes 8 counter in
    let out := out ++ plaintext in
    let body_start := (base + TRANSPORT_HEADER_LEN)%nat in
    let aad := transport_aad channel (slice out base body_start) in
    match aead_seal (key_bytes key) (nonce_from_counter counter) aad (drop body_start out) with
    | Some (ciphertext, tag) => (take body_start out ++ ciphertext ++ tag, Ok tt)
    | None => (take base out, Err Cipher)
    end
  else (out, Err InvalidKey).

Definition seal_with_key (key : KeyMaterial) (channel counter : Z) (plaintext : bytes)
    : result CryptoError bytes :=
  let '(out, r) := seal_with_key_into key channel counter plaintext [] in
  (fun _ => out) <$> r.

(** Encrypts [out[cipher_start..]] in place and appends the tag. *)
Definition seal_in_place_append_tag (key : KeyMaterial) (counter : Z) (aad : bytes)
    (cipher_start : nat) (out : bytes) : result CryptoError bytes :=
  if decide (counter >= REJECT_AFTER_MESSAGES) then Err CounterExhausted
  else if unbound_key (key_bytes key) then
    match aead_seal (key_bytes key) (nonce_from_counter counter) aad (drop cipher_start out) with
    | Some (ciphertext, tag) => Ok (take cipher_start out ++ ciphertext ++ tag)
    | None => Err Cipher
    end
  else Err InvalidKey.

(** Opens [body] in place: the plaintext length, and the buffer whose front now
    holds the plaintext (the tag bytes behind it are never read). *)
Definition open_in_place_with_aad (key : KeyMaterial) (counter : Z) (aad body : bytes)
    : result CryptoError (nat * bytes) :=
  if decide (counter >= REJECT_AFTER_MESSAGES) then Err CounterExhausted
  else if unbound_key (key_bytes key) then
    match aead_open (key_bytes key) (nonce_from_counter counter) aad body with
    | Some plaintext => Ok (length plaintext, plaintext ++ drop (length plaintext) body)
    | None => Err Cipher
    end
  else Err InvalidKey.

(** Decrypts [body] against the 12-byte [header]: counter, plaintext length and
    the rewritten buffer. *)
Definition open_body_in_place (key : KeyMaterial) (channel : Z) (header body : bytes)
    : result CryptoError (Z * nat * bytes) :=
  let id := of_le (slice header 0 4) in
  if decide (id <> key_id key) then Err WrongKeyId
  else
    let counter := of_le (slice header 4 12) in
    if decide (counter >= REJECT_AFTER_MESSAGES) then Err CounterExhausted
    else
      let aad := transport_aad channel header in
      if unbound_key (key_bytes key) then
        match aead_open (key_bytes key) (nonce_from_counter counter) aad body with
        | Some plaintext =>
            Ok (counter, length plaintext, plaintext ++ drop (length plaintext) body)
        | None => Err Cipher
        end
      else Err InvalidKey.

Definition open_with_key (key : KeyMaterial) (channel : Z) (frame : bytes)
    : result CryptoError (Z * bytes) :=
  if decide (length frame < TRANSPORT_HEADER_LEN + TAG_LEN)%nat then Err Cipher
  else
    let header := take TRANSPORT_HEADER_LEN frame in
    let body := drop TRANSPORT_HEADER_LEN frame in
    '(counter, plaintext_len, body) ← open_body_in_place key channel header body;
    Ok (counter, take plaintext_len body).

(** In place: the counter, the plaintext length and the rewritten frame. *)
Definition open_with_key_in_place (key : KeyMaterial) (channel : Z) (frame : bytes)
    : result CryptoError (Z * nat * bytes) :=
  if decide (length frame < TRANSPORT_HEADER_LEN + TAG_LEN)%nat then Err Cipher
  else
    let header := take TRANSPORT_HEADER_LEN frame in
    let body := drop TRANSPORT_HEADER_LEN frame in
    '(counter, plaintext_len, body) ← open_body_in_place key channel header body;
    Ok (counter, plaintext_len, header ++ body).

End transport.

(** ** [TransportCipher] *)

Record TransportCipher := mkCipher {
  cipher_send : KeyMaterial;
  cipher_recv : KeyMaterial;
  next_send_counter : Z;
  next_recv_counter : Z;
}.

Module TransportCipher.
Section ops.
Context `{Primitives}.

Definition new (send recv : KeyMaterial) : TransportCipher :=
  {| cipher_send := send; cipher_recv := recv; next_send_counter := 0; next_recv_counter := 0 |}.

Definition seal_next_into (c : TransportCipher) (channel : Z) (plaintext out : bytes)
    : TransportCipher * bytes * result CryptoError unit :=
  let counter := next_send_counter c in
  if decide (counter >= REJECT_AFTER_MESSAGES) then (c, out, Err CounterExhausted)
  else match checked_add 64 (next_send_counter c) 1 with
  | None => (c, out, Err CounterExhausted)
  | Some next =>
      let c := {| cipher_send := cipher_send c; cipher_recv := cipher_recv c;
                  next_send_counter := next; next_recv_counter := next_recv_counter c |} in
      let '(out, r) := seal_with_key_into (cipher_send c) channel counter plaintext out in
      (c, out, r)
  end.

Definition seal_next (c : TransportCipher) (channel : Z) (plaintext : bytes)
    : TransportCipher * result CryptoError bytes :=
  let '(c, out, r) := seal_next_into c channel plaintext [] in
  (c, (fun _ => out) <$> r).

Definition check_recv_counter (c : TransportCipher) (counter : Z)
    : TransportCipher * result CryptoError unit :=
  if decide (counter <> next_recv_counter c) then (c, Err CounterMismatch)
  else match checked_add 64 (next_recv_counter c) 1 with
  | None => (c, Err CounterExhausted)
  | Some next =>
      ({| cipher_send := cipher_send c; cipher_recv := cipher_recv c;
          next_send_counter := next_send_counter c; next_recv_counter := next |}, Ok tt)
  end.

Definition open_next (c : TransportCipher) (channel : Z) (frame : bytes)
    : TransportCipher * result CryptoError bytes :=
  match open_with_key (cipher_recv c) channel frame with
  | Err e => (c, Err e)
  | Ok (counter, plaintext) =>
      let '(c, r) := check_recv_counter c counter in
      (c, (fun _ => plaintext) <$> r)
  end.

(** The returned slice is [frame[12..12 + plaintext_len]] of the rewritten frame. *)
Definition open_next_in_place (c : TransportCipher) (channel : Z) (frame : bytes)
    : TransportCipher * result CryptoError bytes :=
  match open_with_key_in_place (cipher_recv c) channel frame with
  | Err e => (c, Err e)
  | Ok (counter, plaintext_len, frame) =>
      let '(c, r) := check_recv_counter c counter in
      (c, (fun _ => slice frame TRANSPORT_HEADER_LEN (TRANSPORT_HEADER_LEN + plaintext_len)) <$> r)
  end.

End ops.
End TransportCipher.

(** ** [RecordProtection] *)

Inductive RecordProtection :=
| RecordAead (cipher : TransportCipher)
| RecordClear.

Module RecordProtection.
Section ops.
Context `{Primitives}.

Definition aead (send recv : KeyMaterial) : RecordProtection :=
  RecordAead (TransportCipher.new send recv).

Definition clear : RecordProtection := RecordClear.

Definition is_encrypted (p : RecordProtection) : bool :=
  match p with RecordAead _ => true | RecordClear => false end.

Definition seal_next (p : RecordProtection) (channel : Z) (plaintext : bytes)
    : RecordProtection * result CryptoError bytes :=
  match p with
  | RecordAead c =>
      let '(c, r) := TransportCipher.seal_next c channel plaintext in (RecordAead c, r)
  | RecordClear => (RecordClear, Ok plaintext)
  end.

Definition sealed_len (p : RecordProtection) (plaintext_len : nat) : nat :=
  match p with
  | RecordAead _ => TRANSPORT_HEADER_LEN + plaintext_len + TAG_LEN
  | RecordClear => plaintext_len
  end.

Definition seal_next_into (p : RecordProtection) (channel : Z) (plaintext out : bytes)
    : RecordProtection * bytes * result CryptoError unit :=
  match p with
  | RecordAead c =>
      let '(c, out, r) := TransportCipher.seal_next_into c channel plaintext out in
      (RecordAead c, out, r)
  | RecordClear => (RecordClear, out ++ plaintext, Ok tt)
  end.

Definition open_next (p : RecordProtection) (channel : Z) (frame : bytes)
    : RecordProtection * result CryptoError bytes :=
  match p with
  | RecordAead c =>
      let '(c, r) := TransportCipher.open_next c channel frame in (RecordAead c, r)
  | RecordClear => (RecordClear, Ok frame)
  end.

Definition open_next_in_place (p : RecordProtection) (channel : Z) (frame : bytes)
    : RecordProtection * result CryptoError bytes :=
  match p with
  | RecordAead c =>
      let '(c, r) := TransportCipher.open_next_in_place c channel frame in (RecordAead c, r)
  | RecordClear => (RecordClear, Ok frame)
  end.

(** Sealing and opening a run of records, stopping at the first error. *)
Fixpoint seal_all (p : RecordProtection) (channel : Z) (msgs : list bytes)
    : RecordProtection * result CryptoError (list bytes) :=
  match msgs with
  | [] => (p, Ok [])
  | m :: msgs =>
      match seal_next p channel m with
      | (p, Err e) => (p, Err e)
      | (p, Ok frame) =>
          let '(p, r) := seal_all p channel msgs in (p, cons frame <$> r)
      end
  end.

Fixpoint open_all (p : RecordProtection) (channel : Z) (frames : list bytes)
    : RecordProtection * result CryptoError (list bytes) :=
  match frames with
  | [] => (p, Ok [])
  | f :: frames =>
      match open_next p channel f with
      | (p, Err e) => (p, Err e)
      | (p, Ok m) =>
          let '(p, r) := open_all p channel frames in (p, cons m <$> r)
      end
  end.

End ops.
End RecordProtection.

(** ** Lemmas: what one sealed frame is *)

Definition frame_header (key : KeyMaterial) (counter : Z) : bytes :=
  le_bytes 4 (key_id key) ++ le_bytes 8 counter.

Lemma length_frame_header k n : length (frame_header k n) = 12%nat.
Proof. unfold frame_header. by rewrite length_app, !length_le_bytes. Qed.

Lemma length_nonce n : length (nonce_from_counter n) = 12%nat.
Proof. unfold nonce_from_counter. by rewrite length_app, length_le_bytes. Qed.

Lemma reject_bound : REJECT_AFTER_MESSAGES = 2 ^ 64 - 17.
Proof. reflexivity. Qed.

Lemma counter_u64 n : 0 <= n < REJECT_AFTER_MESSAGES -> is_u64 n.
Proof. rewrite reject_bound. unfold is_u. lia. Qed.

Section frames.
Context `{PrimitiveLaws}.

(** Every branch of sealing: the frame appended, or the buffer untouched. *)
Lemma seal_with_key_into_cases key ch n p out :
  let aad := transport_aad ch (frame_header key n) in
  (n < REJECT_AFTER_MESSAGES /\ exists c t,
     aead_seal (key_bytes key) (nonce_from_counter n) aad p = Some (c, t) /\
     seal_with_key_into key ch n p out = (out ++ frame_header key n ++ c ++ t, Ok tt))
  \/ (exists e, seal_with_key_into key ch n p out = (out, Err e)).
Proof.
  intros aad. unfold seal_with_key_into.
  destruct (decide (n >= REJECT_AFTER_MESSAGES)); [by right; eauto|].
  destruct (unbound_key (key_bytes key)); [|by right; eauto].
  replace (((out ++ le_bytes 4 (key_id key)) ++ le_bytes 8 n) ++ p)
    with (out ++ frame_header key n ++ p) by (unfold frame_header; by rewrite <- !(assoc_L (++))).
  pose proof (length_frame_header key n) as Hh. unfold TRANSPORT_HEADER_LEN.
  rewrite slice_mid by lia.
  rewrite (assoc_L (++) out), drop_app_length', take_app_length' by (rewrite length_app; lia).
  fold aad. destruct (aead_seal _ _ aad p) as [[c t]|] eqn:E.
  - left. split; [lia|]. exists c, t. by rewrite <- !(assoc_L (++)).
  - right. rewrite <- (assoc_L (++)), take_app_length. eauto.
Qed.

Lemma seal_with_key_into_ok key ch n p out :
  key_wf key -> 0 <= n < REJECT_AFTER_MESSAGES -> len p <= AEAD_MAX ->
  exists c t,
    aead_seal (key_bytes key) (nonce_from_counter n) (transport_aad ch (frame_header key n)) p
      = Some (c, t) /\
    seal_with_key_into key ch n p out = (out ++ frame_header key n ++ c ++ t, Ok tt).
Proof.
  intros [_ Hk] Hn Hp.
  destruct (seal_with_key_into_cases key ch n p out) as [(_ & c & t & ?)|[e He]]; [eauto|exfalso].
  unfold seal_with_key_into in He.
  rewrite decide_False, (unbound_key_32 _ Hk) in He by lia.
  match type of He with context [aead_seal ?k ?m ?a ?q] =>
    destruct (aead_seal_total k m a q) as [[c t] E]; [by apply unbound_key_32|apply length_nonce| |by rewrite E in He]
  end.
  rewrite drop_app_length'; [done|]. rewrite !length_app, !length_le_bytes.
  unfold TRANSPORT_HEADER_LEN. lia.
Qed.

(** Opening a frame that starts with the header of [key] at counter [n]. *)
Lemma open_body_header key ch n body :
  key_wf key -> 0 <= n < REJECT_AFTER_MESSAGES ->
  open_body_in_place key ch (frame_header key n) body =
  match aead_open (key_bytes key) (nonce_from_counter n) (transport_aad ch (frame_header key n)) body with
  | Some p => Ok (n, length p, p ++ drop (length p) body)
  | None => Err Cipher
  end.
Proof.
  intros [Hid Hk] Hn. unfold open_body_in_place.
  pose proof (counter_u64 n Hn).
  assert (slice (frame_header key n) 0 4 = le_bytes 4 (key_id key)) as ->
    by (apply slice_front; by rewrite length_le_bytes).
  assert (slice (frame_header key n) 4 12 = le_bytes 8 n) as ->.
  { unfold frame_header. rewrite <- (app_nil_r (le_bytes 8 n)) at 1.
    apply slice_mid; by rewrite length_le_bytes. }
  rewrite (of_le_le_bytes 4), (of_le_le_bytes 8), (unbound_key_32 _ Hk) by done.
  rewrite !decide_False by (lia || auto). done.
Qed.

Lemma open_with_key_frame key ch n p c t :
  key_wf key -> 0 <= n < REJECT_AFTER_MESSAGES ->
  aead_seal (key_bytes key) (nonce_from_counter n) (transport_aad ch (frame_header key n)) p
    = Some (c, t) ->
  open_with_key key ch (frame_header key n ++ c ++ t) = Ok (n, p).
Proof.
  intros Hk Hn Hs. pose proof (aead_seal_length _ _ _ _ _ _ Hs) as [Hc Ht].
  pose proof (length_frame_header key n) as Hh. unfold open_with_key.
  rewrite decide_False by (rewrite !length_app; unfold TRANSPORT_HEADER_LEN, TAG_LEN; lia).
  rewrite take_app_length', drop_app_length' by done.
  rewrite open_body_header by done. rewrite (aead_open_seal _ _ _ _ _ _ Hs). simpl.
  by rewrite take_app_length.
Qed.

End frames.

(** ** Two ends of one lane *)

(** The sender's key and counter are the receiver's. *)
Definition linked (s r : RecordProtection) : Prop :=
  match s, r with
  | RecordAead a, RecordAead b =>
      cipher_send a = cipher_recv b /\ key_wf (cipher_send a) /\
      next_send_counter a = next_recv_counter b /\ 0 <= next_send_counter a
  | RecordClear, RecordClear => True
  | _, _ => False
  end.

(** [k] more records can be sealed before the counter is exhausted. *)
Definition room (s : RecordProtection) (k : Z) : Prop :=
  match s with
  | RecordAead a => next_send_counter a + k <= REJECT_AFTER_MESSAGES
  | RecordClear => True
  end.

Definition sent (c : TransportCipher) (k : Z) : TransportCipher :=
  {| cipher_send := cipher_send c; cipher_recv := cipher_recv c;
     next_send_counter := next_send_counter c + k; next_recv_counter := next_recv_counter c |}.

Definition received (c : TransportCipher) (k : Z) : TransportCipher :=
  {| cipher_send := cipher_send c; cipher_recv := cipher_recv c;
     next_send_counter := next_send_counter c; next_recv_counter := next_recv_counter c + k |}.

Lemma checked_add_counter n : 0 <= n < REJECT_AFTER_MESSAGES -> checked_add 64 n 1 = Some (n + 1).
Proof. rewrite reject_bound. intros. unfold checked_add. rewrite decide_True; [done|lia]. Qed.

Section lanes.
Context `{PrimitiveLaws}.

(** The frame a cipher seals at counter [n]. *)
Definition is_frame (key : KeyMaterial) (ch n : Z) (p f : bytes) : Prop :=
  exists c t,
    aead_seal (key_bytes key) (nonce_from_counter n) (transport_aad ch (frame_header key n)) p
      = Some (c, t) /\ f = frame_header key n ++ c ++ t.

Lemma cipher_seal_next c ch p :
  key_wf (cipher_send c) -> 0 <= next_send_counter c < REJECT_AFTER_MESSAGES -> len p <= AEAD_MAX ->
  exists f, TransportCipher.seal_next c ch p = (sent c 1, Ok f) /\
            is_frame (cipher_send c) ch (next_send_counter c) p f.
Proof.
  intros Hk Hn Hp. unfold TransportCipher.seal_next, TransportCipher.seal_next_into.
  rewrite decide_False, checked_add_counter by lia. simpl.
  destruct (seal_with_key_into_ok (cipher_send c) ch (next_send_counter c) p [] Hk Hn Hp)
    as (x & t & Hs & ->). simpl. eexists. split; [done|]. by exists x, t.
Qed.

(** A successful seal always produced the frame of its counter. *)
Lemma cipher_seal_next_inv c ch p c' f :
  TransportCipher.seal_next c ch p = (c', Ok f) ->
  c' = sent c 1 /\ next_send_counter c < REJECT_AFTER_MESSAGES /\
  is_frame (cipher_send c) ch (next_send_counter c) p f.
Proof.
  unfold TransportCipher.seal_next, TransportCipher.seal_next_into.
  case_decide; [done|]. unfold checked_add. case_decide; [|done]. simpl.
  destruct (seal_with_key_into_cases (cipher_send c) ch (next_send_counter c) p [])
    as [(? & x & t & Hs & ->)|[e ->]]; simpl; intros; simplify_eq.
  split; [done|]. split; [done|]. by exists x, t.
Qed.

Lemma cipher_open_next c ch n p f :
  key_wf (cipher_recv c) -> 0 <= n < REJECT_AFTER_MESSAGES -> is_frame (cipher_recv c) ch n p f ->
  TransportCipher.open_next c ch f =
  if decide (n = next_recv_counter c) then (received c 1, Ok p) else (c, Err CounterMismatch).
Proof.
  intros Hk Hn (x & t & Hs & ->). unfold TransportCipher.open_next.
  rewrite (open_with_key_frame _ _ n p) by done. unfold TransportCipher.check_recv_counter.
  destruct (decide (n = next_recv_counter c)) as [->|].
  - by rewrite decide_False, checked_add_counter by (lia || auto).
  - by rewrite decide_True by done.
Qed.

Lemma seal_open_next s r ch p :
  linked s r -> room s 1 -> len p <= AEAD_MAX ->
  exists f s' r', RecordProtection.seal_next s ch p = (s', Ok f) /\
    RecordProtection.open_next r ch f = (r', Ok p) /\ linked s' r' /\
    (forall k, room s (1 + k) -> room s' k).
Proof.
  destruct s as [a|], r as [b|]; try done; simpl.
  - intros (Hab & Hk & Hc & Hpos) Hroom Hp.
    destruct (cipher_seal_next a ch p) as (f & Hf & Hfr); [done|lia|done|].
    exists f, (RecordAead (sent a 1)), (RecordAead (received b 1)). rewrite Hf.
    rewrite Hab in *. rewrite (cipher_open_next b ch (next_send_counter a) p f) by (done || lia).
    rewrite decide_True by done. split; [done|]. split; [done|]. simpl. split; [|intros; lia]. split; [exact Hab|]. split; [by rewrite Hab|]. lia.
  - intros _ _ _. by exists p, RecordClear, RecordClear.
Qed.

Lemma seal_open_all s r ch msgs :
  linked s r -> room s (len msgs) -> Forall (fun m => len m <= AEAD_MAX) msgs ->
  exists frames s' r', RecordProtection.seal_all s ch msgs = (s', Ok frames) /\
    RecordProtection.open_all r ch frames = (r', Ok msgs) /\ linked s' r'.
Proof.
  revert s r. induction msgs as [|m msgs IH]; intros s r Hl Hroom Hm; simpl.
  { exists [], s, r. done. }
  apply Forall_cons in Hm as [Hm Hms]. rewrite len_cons in Hroom. pose proof (len_nonneg msgs).
  destruct (seal_open_next s r ch m Hl) as (f & s' & r' & Hs & Ho & Hl' & Hr'); [|done|].
  { destruct s; simpl in *; [lia|done]. }
  destruct (IH s' r' Hl' (Hr' _ Hroom) Hms) as (fs & s'' & r'' & Hs' & Ho' & Hl'').
  exists (f :: fs), s'', r''. rewrite Hs, Hs'. simpl. by rewrite Ho, Ho'.
Qed.

Lemma seal_next_length p ch m p' f :
  RecordProtection.seal_next p ch m = (p', Ok f) ->
  length f = RecordProtection.sealed_len p (length m).
Proof.
  destruct p as [c|]; simpl; [|by intros [= <- <-]].
  destruct (TransportCipher.seal_next c ch m) as [c' r] eqn:E. intros [= <- ->].
  apply cipher_seal_next_inv in E as (_ & _ & x & t & Hs & ->). apply aead_seal_length in Hs as [? ?].
  rewrite !length_app, length_frame_header. unfold TRANSPORT_HEADER_LEN, TAG_LEN. lia.
Qed.

(** Frame [i] of a sealed run was sealed at the [i]-th counter. *)
Lemma seal_all_frames c ch msgs p' frames :
  RecordProtection.seal_all (RecordAead c) ch msgs = (p', Ok frames) ->
  length frames = length msgs /\
  forall i f, frames !! i = Some f ->
    next_send_counter c + Z.of_nat i < REJECT_AFTER_MESSAGES /\
    exists m, msgs !! i = Some m /\ is_frame (cipher_send c) ch (next_send_counter c + Z.of_nat i) m f.
Proof.
  revert c frames. induction msgs as [|m msgs IH]; intros c frames; simpl.
  { intros [= <- <-]. split; [done|]. intros i f. by rewrite lookup_nil. }
  destruct (TransportCipher.seal_next c ch m) as [c' [f|e]] eqn:E; [|done].
  apply cipher_seal_next_inv in E as (-> & Hn & Hf).
  destruct (RecordProtection.seal_all _ ch msgs) as [p'' [fs|e]] eqn:E2; simpl; [|done].
  intros [= <- <-]. apply IH in E2 as [HL HF]. split; [simpl; lia|].
  intros [|i] g; simpl; [intros [= <-]|intros Hg].
  - rewrite Z.add_0_r. split; [done|]. by exists m.
  - apply HF in Hg as [? Hg]. simpl in *.
    replace (next_send_counter c + Z.of_nat (S i)) with (next_send_counter c + 1 + Z.of_nat i) by lia.
    done.
Qed.

End lanes.

(** ** Properties of the record lanes *)

(** C3: a run of records sealed by one end is opened in order by the other end
    to the same plaintexts, and both ends stay in step, in both transport modes;
    sealing fails for no record as long as the 64-bit counter is not exhausted. *)
Theorem record_stream_roundtrip `{PrimitiveLaws} (s r : RecordProtection) (ch : Z) (msgs : list bytes) :
  linked s r -> room s (len msgs) -> Forall (fun m => len m <= AEAD_MAX) msgs ->
  exists frames s' r',
    RecordProtection.seal_all s ch msgs = (s', Ok frames) /\
    RecordProtection.open_all r ch frames = (r', Ok msgs) /\
    linked s' r'.
Proof. intros Hl Hr Hm. exact (seal_open_all s r ch msgs Hl Hr Hm). Qed.

Lemma open_all_counters `{PrimitiveLaws} b ch n frames r' ms :
  (forall i f, frames !! i = Some f -> n + Z.of_nat i < REJECT_AFTER_MESSAGES /\
     exists m, is_frame (cipher_recv b) ch (n + Z.of_nat i) m f) ->
  key_wf (cipher_recv b) -> 0 <= n -> next_recv_counter b = n ->
  RecordProtection.open_all (RecordAead b) ch frames = (r', Ok ms) ->
  r' = RecordAead (received b (len frames)).
Proof.
  revert b n ms. induction frames as [|f fs IH]; intros b n ms Hf Hk Hn Hb; simpl.
  { intros [= <- _]. unfold received, len. simpl. rewrite Z.add_0_r. by destruct b. }
  destruct (Hf 0%nat f eq_refl) as [Hlt [m Hm]]. rewrite Z.add_0_r in *.
  rewrite (cipher_open_next b ch n m f), decide_True by (done || lia).
  destruct (RecordProtection.open_all _ ch fs) as [r'' [ms'|]] eqn:E; simpl; [|done].
  intros [= <- _]. apply (IH _ (n + 1)) in E; simpl; try done; try lia.
  - rewrite E. unfold received, len. simpl. do 2 f_equal. lia.
  - intros i g Hi. specialize (Hf (S i) g Hi).
    by replace (n + 1 + Z.of_nat i) with (n + Z.of_nat (S i)) by lia.
Qed.

(** C4: a receiver that has opened the first [j] records of a sealed run refuses
    every other record of that run: a replayed, skipped-to or reordered record
    ends in [CounterMismatch] and leaves the receiver as it was. *)
Theorem out_of_order_record_refused `{PrimitiveLaws} (a b : TransportCipher) (ch : Z)
    (msgs frames ms : list bytes) (s' r' : RecordProtection) (i j : nat) (f : bytes) :
  linked (RecordAead a) (RecordAead b) ->
  RecordProtection.seal_all (RecordAead a) ch msgs = (s', Ok frames) ->
  RecordProtection.open_all (RecordAead b) ch (take j frames) = (r', Ok ms) ->
  frames !! i = Some f -> i <> j -> (j <= length frames)%nat ->
  RecordProtection.open_next r' ch f = (r', Err CounterMismatch).
Proof.
  intros (Hab & Hk & Hc & Hpos) Hs Ho Hi Hij Hj.
  apply seal_all_frames in Hs as [HL HF]. rewrite Hab in Hk.
  assert (HF' : forall i f, frames !! i = Some f ->
    next_recv_counter b + Z.of_nat i < REJECT_AFTER_MESSAGES /\
    exists m, is_frame (cipher_recv b) ch (next_recv_counter b + Z.of_nat i) m f)
    by (rewrite <- Hab, <- Hc; intros k g Hg; destruct (HF k g Hg) as [? (m & _ & ?)]; eauto).
  apply (open_all_counters b ch (next_recv_counter b)) in Ho as ->; try done; [|intros k g Hg|lia].
  2:{ apply HF'. by apply lookup_take_Some in Hg as [? _]. }
  destruct (HF' i f Hi) as [Hlt [m Hm]]. simpl.
  rewrite (cipher_open_next (received b _) ch (next_recv_counter b + Z.of_nat i) m f) by (done || lia).
  rewrite decide_False; [done|]. unfold len. simpl. rewrite length_take. lia.
Qed.

Lemma nonce_inj n m : is_u64 n -> is_u64 m -> nonce_from_counter n = nonce_from_counter m -> n = m.
Proof.
  intros Hn Hm E. apply (app_inv_head (replicate 4 Byte.x00)) in E. by apply (le_bytes_inj 8).
Qed.

(** C5: the records one [TransportCipher] seals never share a nonce, however many
    it seals before its counter runs out: there is a list of pairwise different
    nonces such that the frame of each message is its header followed by what the
    cipher makes of the message under the sending key and the nonce of that place,
    with the channel and the header authenticated. *)
Theorem nonces_never_reused `{PrimitiveLaws} (c : TransportCipher) (ch : Z)
    (msgs frames : list bytes) (p' : RecordProtection) :
  0 <= next_send_counter c ->
  RecordProtection.seal_all (RecordAead c) ch msgs = (p', Ok frames) ->
  exists nonces, length nonces = length frames /\ NoDup nonces /\
    forall i f, frames !! i = Some f ->
      exists nonce m header ciphertext tag, nonces !! i = Some nonce /\ msgs !! i = Some m /\
        aead_seal (key_bytes (cipher_send c)) nonce (transport_aad ch header) m = Some (ciphertext, tag) /\
        f = header ++ ciphertext ++ tag.
Proof.
  intros Hpos Hs. apply seal_all_frames in Hs as [Hlen HF].
  set (nonce i := nonce_from_counter (next_send_counter c + Z.of_nat i)).
  assert (forall i, (i < length frames)%nat -> is_u64 (next_send_counter c + Z.of_nat i)) as Hu.
  { intros i [f Hf]%lookup_lt_is_Some. apply HF in Hf as [? _]. apply counter_u64. lia. }
  exists (nonce <$> seq 0 (length frames)). split; [by rewrite length_fmap, length_seq|]. split.
  - apply NoDup_fmap_2_strong; [|apply NoDup_ListNoDup, seq_NoDup]. intros i j Hi%elem_of_seq Hj%elem_of_seq Eq.
    apply nonce_inj in Eq; [lia|apply Hu; lia|apply Hu; lia].
  - intros i f Hf. destruct (HF i f Hf) as [_ (m & Hm & ct & tag & Ha & ->)]. exists (nonce i), m, (frame_header (cipher_send c) (next_send_counter c + Z.of_nat i)), ct, tag.
    split_and!; try done. apply lookup_lt_Some in Hf. by rewrite list_lookup_fmap, lookup_seq_lt.
Qed.

(** Sealing onto the end of a buffer appends exactly [sealed_len] bytes, or
    fails and leaves the buffer as it was (the length prefix written before it
    is right in either case). *)
Lemma seal_next_into_appends `{PrimitiveLaws} (p p' : RecordProtection) (ch : Z) (m out out' : bytes)
    (r : result CryptoError unit) :
  RecordProtection.seal_next_into p ch m out = (p', out', r) ->
  match r with
  | Ok _ => exists tail, out' = out ++ tail /\
              length tail = RecordProtection.sealed_len p (length m)
  | Err _ => out' = out
  end.
Proof.
  destruct p as [c|]; simpl; [|intros [= <- <- <-]; by exists m].
  unfold TransportCipher.seal_next_into. case_decide; [by intros [= <- <- <-]|].
  unfold checked_add. case_decide; [|by intros [= <- <- <-]].
  cbn [cipher_send].
  destruct (seal_with_key_into_cases (cipher_send c) ch (next_send_counter c) m out)
    as [(_ & x & t & Hs & ->)|[e ->]]; intros [= <- <- <-]; [|done].
  apply aead_seal_length in Hs as [Hx Ht].
  exists (frame_header (cipher_send c) (next_send_counter c) ++ x ++ t). split; [done|].
  rewrite !length_app, length_frame_header. unfold TRANSPORT_HEADER_LEN, TAG_LEN. lia.
Qed.

Lemma record_open_in_place `{Primitives} p ch frame :
  RecordProtection.open_next_in_place p ch frame = RecordProtection.open_next p ch frame.
Proof.
  destruct p as [c|]; [|done]. simpl.
  unfold TransportCipher.open_next_in_place, TransportCipher.open_next,
    open_with_key_in_place, open_with_key.
  destruct (decide (length frame < TRANSPORT_HEADER_LEN + TAG_LEN)%nat) as [|Hlen]; [done|].
  set (h := take TRANSPORT_HEADER_LEN frame).
  assert (length h = TRANSPORT_HEADER_LEN) as Hh.
  { unfold h. rewrite length_take. unfold TRANSPORT_HEADER_LEN, TAG_LEN in *. lia. }
  destruct (open_body_in_place (cipher_recv c) ch h (drop TRANSPORT_HEADER_LEN frame))
    as [[[n k] body]|e] eqn:E; [|done]. cbn.
  destruct (TransportCipher.check_recv_counter c n) as [c' [[]|e]]; [|done]. cbn. do 2 f_equal.
  unfold slice. rewrite drop_app_length' by done. f_equal. lia.
Qed.

(** Decrypting a record inside the receive buffer gives the same plaintext,
    the same error and the same receiver state as decrypting a copy of it. *)
Lemma open_in_place_equiv `{Primitives} (p : RecordProtection) (ch : Z) (frame : bytes) :
  RecordProtection.open_next_in_place p ch frame = RecordProtection.open_next p ch frame.
Proof. apply record_open_in_place. Qed.

(** Witness data: one key, both ends of a lane over the toy primitives. *)
#[local] Existing Instance Toy.toy.
#[local] Existing Instance Toy.toy_laws.

Definition toy_key : KeyMaterial := {| key_id := 9; key_bytes := replicate 32 Byte.x07 |}.
Definition toy_lane : TransportCipher := TransportCipher.new toy_key toy_key.

Lemma record_stream_roundtrip_witness :
  exists frames s' r',
    RecordProtection.seal_all (RecordAead toy_lane) 1 [ascii_bytes "hi"; []] = (s', Ok frames) /\
    RecordProtection.open_all (RecordAead toy_lane) 1 frames = (r', Ok [ascii_bytes "hi"; []]) /\
    linked s' r'.
Proof.
  apply (record_stream_roundtrip (RecordAead toy_lane) (RecordAead toy_lane) 1).
  - repeat split; vm_compute; done.
  - vm_compute. discriminate.
  - decide_closed.
Defined.

Definition toy_frames : list bytes :=
  match RecordProtection.seal_all (RecordAead toy_lane) 1 [ascii_bytes "a"; ascii_bytes "b"] with
  | (_, Ok fs) => fs
  | _ => []
  end.

Lemma out_of_order_record_refused_witness :
  RecordProtection.open_next (RecordAead (received toy_lane 1)) 1 (default [] (toy_frames !! 0%nat))
  = (RecordAead (received toy_lane 1), Err CounterMismatch).
Proof.
  apply (out_of_order_record_refused toy_lane toy_lane 1 [ascii_bytes "a"; ascii_bytes "b"]
    toy_frames [ascii_bytes "a"] (RecordAead (sent toy_lane 2)) _ 0 1).
  - repeat split; vm_compute; done.
  - vm_compute. reflexivity.
  - vm_compute. reflexivity.
  - vm_compute. reflexivity.
  - lia.
  - vm_compute. lia.
Defined.

Lemma nonces_never_reused_witness : exists nonces, length nonces = length toy_frames /\ NoDup nonces /\
  forall i f, toy_frames !! i = Some f ->
    exists nonce m header ciphertext tag, nonces !! i = Some nonce /\ [ascii_bytes "a"; ascii_bytes "b"] !! i = Some m /\
      aead_seal (key_bytes (cipher_send toy_lane)) nonce (transport_aad 1 header) m = Some (ciphertext, tag) /\
      f = header ++ ciphertext ++ tag.
Proof.
  apply (nonces_never_reused toy_lane 1 [ascii_bytes "a"; ascii_bytes "b"] toy_frames
    (RecordAead (sent toy_lane 2))); [vm_compute; discriminate|vm_compute; reflexivity].
Defined.

Example open_in_place_equiv_ex :
  RecordProtection.open_next_in_place (RecordAead toy_lane) 1 (default [] (toy_frames !! 0%nat))
  = (RecordAead (received toy_lane 1), Ok (ascii_bytes "a")).
Proof. vm_compute. reflexivity. Qed.
