(* ===== verification/Handshake.v ===== *)
(** * The signed transport handshake

    Models the handshake half of src/crates/rpc/src/crypto.rs: the two hellos
    (src/crates/rpc/src/control.rs), the scan-resistance MAC, the server's
    response, the client's completion and the derivation of every session key.
    Random values ([rng.fill], ephemeral private keys) are arguments, [None]
    being a failed generation. *)

From S2P Require Import Prelude Primitives Transport.

Definition PROTOCOL_VERSION : Z := 27.
Definition HELLO_MAC_LEN : nat := 16.
Definition LABEL_MAC1 : bytes := ascii_bytes "chatt mac1 v1".

Inductive TransportMode := Encrypted | Plaintext.

#[export] Instance TransportMode_eq_dec : EqDecision TransportMode.
Proof. solve_decision. Defined.

Module TransportMode.

Definition wire_id (m : TransportMode) : Z :=
  match m with Encrypted => 1 | Plaintext => 2 end.

Definition from_wire_id (id : Z) : option TransportMode :=
  if decide (id = 1) then Some Encrypted
  else if decide (id = 2) then Some Plaintext
  else None.

Definition supported_wire_ids : list Z := [wire_id Encrypted; wire_id Plaintext].

End TransportMode.

Record SessionSecrets := mkSecrets {
  control_send : KeyMaterial;
  control_recv : KeyMaterial;
  media_send : KeyMaterial;
  media_recv : KeyMaterial;
}.

Record SessionTransport := mkSession {
  session_mode : TransportMode;
  secrets : SessionSecrets;
  route_id : Z;
  bind_key : bytes;
  video_auth_key : bytes;
}.

Definition control_record (t : SessionTransport) : RecordProtection :=
  match session_mode t with
  | Encrypted => RecordProtection.aead (control_send (secrets t)) (control_recv (secrets t))
  | Plaintext => RecordProtection.clear
  end.

(** [modes] holds bytes ([u8]) as integers. *)
Record ClientHello := mkClientHello {
  ch_version : Z;
  ch_modes : list Z;
  client_nonce : bytes;
  client_ephemeral : bytes;
  mac1 : bytes;
}.

Record ServerHello := mkServerHello {
  sh_version : Z;
  sh_mode : Z;
  server_nonce : bytes;
  server_ephemeral : bytes;
  server_public_key : bytes;
  sh_signature : bytes;
}.

Record ClientHandshake := mkClientHandshake { hs_private : bytes; hs_hello : ClientHello }.
Record ServerHandshake := mkServerHandshake { srv_hello : ServerHello; srv_transport : SessionTransport }.

Inductive Role := Client | Server.
Inductive VideoKeyRole := VideoClient | VideoServer.

(** [for (left, right) in a.iter().zip(b) { diff |= left ^ right }; diff == 0]. *)
Definition constant_time_eq (a b : bytes) : bool :=
  bool_decide (foldl (fun diff '(l, r) => Z.lor diff (Z.lxor (u8 l) (u8 r))) 0 (zip a b) = 0).

Section handshake.
Context `{Primitives}.

(** The bytes the hello MAC covers, in the order they are fed to it. *)
Definition mac1_message (hello : ClientHello) : bytes :=
  LABEL_MAC1 ++ le_bytes 2 (ch_version hello) ++
  le_bytes 4 (wrap 32 (len (ch_modes hello))) ++ (of_u8 <$> ch_modes hello) ++
  le_bytes 4 (wrap 32 (len (client_nonce hello))) ++ client_nonce hello ++
  le_bytes 4 (wrap 32 (len (client_ephemeral hello))) ++ client_ephemeral hello.

Definition client_hello_mac1 (server_public_key : bytes) (hello : ClientHello) : bytes :=
  let mac_key := sha256 (LABEL_MAC1 ++ server_public_key) in
  take HELLO_MAC_LEN (hmac_sha256 mac_key (mac1_message hello)).

Definition verify_client_hello_mac1 (server_public_key : bytes) (hello : ClientHello) : bool :=
  constant_time_eq (client_hello_mac1 server_public_key hello) (mac1 hello).

Definition generate_client_hello (private nonce : option bytes) (server_key : option bytes)
    : result CryptoError ClientHandshake :=
  private ← ok_or Random private;
  public ← ok_or Random (x25519_public private);
  nonce ← ok_or Random nonce;
  let hello := {| ch_version := PROTOCOL_VERSION; ch_modes := TransportMode.supported_wire_ids;
                  client_nonce := nonce; client_ephemeral := public;
                  mac1 := replicate HELLO_MAC_LEN Byte.x00 |} in
  let hello :=
    match server_key with
    | Some key =>
        {| ch_version := ch_version hello; ch_modes := ch_modes hello;
           client_nonce := client_nonce hello; client_ephemeral := client_ephemeral hello;
           mac1 := client_hello_mac1 key hello |}
    | None => hello
    end in
  Ok {| hs_private := private; hs_hello := hello |}.

Definition validate_client_hello (hello : ClientHello) : result CryptoError unit :=
  if decide (ch_version hello <> PROTOCOL_VERSION) then Err (UnsupportedVersion (ch_version hello))
  else if decide (length (client_nonce hello) <> NONCE_LEN \/
                  length (client_ephemeral hello) <> X25519_PUBLIC_KEY_LEN \/
                  ch_modes hello = []) then Err InvalidHandshake
  else Ok tt.

Definition validate_server_hello (hello : ServerHello) : result CryptoError unit :=
  if decide (sh_version hello <> PROTOCOL_VERSION) then Err (UnsupportedVersion (sh_version hello))
  else if decide (TransportMode.from_wire_id (sh_mode hello) = None \/
                  length (server_nonce hello) <> NONCE_LEN \/
                  length (server_ephemeral hello) <> X25519_PUBLIC_KEY_LEN \/
                  length (server_public_key hello) <> ED25519_PUBLIC_KEY_LEN \/
                  sh_signature hello = []) then Err InvalidHandshake
  else Ok tt.

Definition resolve_server_public_key (hello : ServerHello) (pinned : option bytes)
    : result CryptoError bytes :=
  let presented := server_public_key hello in
  if decide (length presented = ED25519_PUBLIC_KEY_LEN) then
    match pinned with
    | Some p => if decide (p <> presented) then Err InvalidSignature else Ok presented
    | None => Ok presented
    end
  else Err InvalidHandshake.

Definition server_transcript (client_hello : ClientHello) (server_version mode : Z)
    (server_nonce server_ephemeral server_public_key : bytes) : bytes :=
  ascii_bytes "chatt server hello v3" ++
  le_bytes 2 (ch_version client_hello) ++ le_bytes 2 server_version ++ [of_u8 mode] ++
  client_nonce client_hello ++ client_ephemeral client_hello ++
  server_nonce ++ server_ephemeral ++ server_public_key.

Definition full_transcript (client_hello : ClientHello) (server_hello : ServerHello)
    (server_public_key : bytes) : result CryptoError bytes :=
  _ ← validate_client_hello client_hello;
  _ ← validate_server_hello server_hello;
  let out := server_transcript client_hello (sh_version server_hello) (sh_mode server_hello)
               (server_nonce server_hello) (server_ephemeral server_hello) server_public_key in
  Ok (sha256 (out ++ sh_signature server_hello)).

Definition expand_key (salt secret : bytes) (label : string) : bytes :=
  hkdf_sha256 salt secret (ascii_bytes label).

(** [u32::from_le_bytes(ids[a..b]).max(1)]. *)
Definition nonzero_id (material : bytes) (a b : nat) : Z := Z.max (of_le (slice material a b)) 1.

Definition derive_session_transport (role : Role) (mode : TransportMode) (shared transcript_hash : bytes)
    : SessionTransport :=
  let expand := expand_key transcript_hash shared in
  let ids := expand "chatt transport key ids v1" in
  let client_control := {| key_id := nonzero_id ids 0 4; key_bytes := expand "chatt client control key v1" |} in
  let server_control := {| key_id := nonzero_id ids 4 8; key_bytes := expand "chatt server control key v1" |} in
  let client_media := {| key_id := nonzero_id ids 8 12; key_bytes := expand "chatt client media key v1" |} in
  let server_media := {| key_id := nonzero_id ids 12 16; key_bytes := expand "chatt server media key v1" |} in
  {| session_mode := mode;
     secrets :=
       match role with
       | Client => {| control_send := client_control; control_recv := server_control;
                      media_send := client_media; media_recv := server_media |}
       | Server => {| control_send := server_control; control_recv := client_control;
                      media_send := server_media; media_recv := client_media |}
       end;
     route_id := nonzero_id (expand "chatt media route id v1") 0 4;
     bind_key := expand "chatt media bind key v1";
     video_auth_key := expand "chatt video auth key v1" |}.

Definition respond_to_client_hello (private nonce : option bytes) (server_seed : bytes)
    (client_hello : ClientHello) (mode : TransportMode) : result CryptoError ServerHandshake :=
  _ ← validate_client_hello client_hello;
  if decide (TransportMode.wire_id mode ∉ ch_modes client_hello) then Err InvalidHandshake
  else
    private ← ok_or Random private;
    public ← ok_or Random (x25519_public private);
    nonce ← ok_or Random nonce;
    shared ← ok_or InvalidHandshake (x25519_agree private (client_ephemeral client_hello));
    let unsigned := server_transcript client_hello PROTOCOL_VERSION (TransportMode.wire_id mode)
                      nonce public (ed25519_public server_seed) in
    let signature := ed25519_sign server_seed unsigned in
    let hello := {| sh_version := PROTOCOL_VERSION; sh_mode := TransportMode.wire_id mode;
                    server_nonce := nonce; server_ephemeral := public;
                    server_public_key := ed25519_public server_seed;
                    sh_signature := signature |} in
    transcript ← full_transcript client_hello hello (ed25519_public server_seed);
    Ok {| srv_hello := hello;
          srv_transport := derive_session_transport Server mode shared transcript |}.

Definition complete_client_transport_handshake (handshake : ClientHandshake) (server_hello : ServerHello)
    (pinned : option bytes) : result CryptoError (SessionTransport * bytes) :=
  let hello := hs_hello handshake in
  _ ← validate_server_hello server_hello;
  mode ← ok_or InvalidHandshake (TransportMode.from_wire_id (sh_mode server_hello));
  if decide (sh_mode server_hello ∉ ch_modes hello) then Err InvalidHandshake
  else
    trusted ← resolve_server_public_key server_hello pinned;
    transcript ← full_transcript hello server_hello trusted;
    if ed25519_verify trusted
         (server_transcript hello (sh_version server_hello) (sh_mode server_hello)
            (server_nonce server_hello) (server_ephemeral server_hello) trusted)
         (sh_signature server_hello)
    then
      shared ← ok_or InvalidHandshake (x25519_agree (hs_private handshake) (server_ephemeral server_hello));
      Ok (derive_session_transport Client mode shared transcript, trusted)
    else Err InvalidSignature.

(** ** Keys of a dedicated video connection and of a device link *)

Definition derive_video_keys (secret : bytes) (role : VideoKeyRole) : KeyMaterial * KeyMaterial :=
  let expand := expand_key (ascii_bytes "chatt video keys v1") secret in
  let ids := expand "chatt video key ids v1" in
  let up := {| key_id := nonzero_id ids 0 4; key_bytes := expand "chatt video up key v1" |} in
  let down := {| key_id := nonzero_id ids 4 8; key_bytes := expand "chatt video down key v1" |} in
  match role with
  | VideoClient => (up, down)
  | VideoServer => (down, up)
  end.

Record DeviceLinkKeys := mkDeviceLinkKeys { redemption_secret : bytes; enrollment_key : bytes }.

Definition derive_device_link_keys (pairing_secret server_key : bytes)
    : result CryptoError DeviceLinkKeys :=
  if decide (length pairing_secret <> KEY_LEN \/ length server_key <> ED25519_PUBLIC_KEY_LEN)
  then Err InvalidKey
  else Ok {| redemption_secret := expand_key server_key pairing_secret "chatt device-link redemption v3";
             enrollment_key := expand_key server_key pairing_secret "chatt device-link enrollment key v3" |}.

End handshake.

(** ** Lemmas *)

Lemma lxor_u8_eq a b : Z.lxor (u8 a) (u8 b) = 0 <-> a = b.
Proof. rewrite Z.lxor_eq_0_iff. split; [apply u8_inj|by intros ->]. Qed.

Lemma constant_time_eq_acc a b d :
  length a = length b ->
  foldl (fun diff '(l, r) => Z.lor diff (Z.lxor (u8 l) (u8 r))) d (zip a b) = 0 <->
  d = 0 /\ a = b.
Proof.
  revert b d. induction a as [|x a IH]; intros [|y b] d Hl; simplify_eq/=; [naive_solver|].
  rewrite IH, Z.lor_eq_0_iff, lxor_u8_eq by done. naive_solver.
Qed.

(** The constant-time comparison decides equality of equally long slices. *)
Lemma constant_time_eq_iff a b : length a = length b -> constant_time_eq a b = true <-> a = b.
Proof. intros. unfold constant_time_eq. rewrite bool_decide_eq_true, constant_time_eq_acc by done. naive_solver. Qed.

Lemma from_wire_id_wire_id m : TransportMode.from_wire_id (TransportMode.wire_id m) = Some m.
Proof. by destruct m. Qed.

Lemma wire_id_from_wire_id z m : TransportMode.from_wire_id z = Some m -> TransportMode.wire_id m = z.
Proof. unfold TransportMode.from_wire_id. repeat case_decide; intros; by simplify_eq/=. Qed.

Lemma wire_id_supported m : TransportMode.wire_id m ∈ TransportMode.supported_wire_ids.
Proof. destruct m; decide_closed. Qed.

(** What the two ends of a session hold, seen from one of them. *)
Record mirrored (c s : SessionTransport) : Prop := {
  mir_mode : session_mode c = session_mode s;
  mir_control_up : control_send (secrets c) = control_recv (secrets s);
  mir_control_down : control_recv (secrets c) = control_send (secrets s);
  mir_media_up : media_send (secrets c) = media_recv (secrets s);
  mir_media_down : media_recv (secrets c) = media_send (secrets s);
  mir_route : route_id c = route_id s;
  mir_bind : bind_key c = bind_key s;
  mir_video : video_auth_key c = video_auth_key s;
}.

Definition session_keys_wf (t : SessionTransport) : Prop :=
  key_wf (control_send (secrets t)) /\ key_wf (control_recv (secrets t)) /\
  key_wf (media_send (secrets t)) /\ key_wf (media_recv (secrets t)) /\
  is_u32 (route_id t) /\ route_id t <> 0 /\ length (bind_key t) = KEY_LEN.

Section facts.
Context `{PrimitiveLaws}.

Lemma nonzero_id_u32 material a b :
  (b - a <= 4)%nat -> is_u32 (nonzero_id material a b) /\ nonzero_id material a b <> 0.
Proof.
  intros Hab. unfold nonzero_id. pose proof (of_le_bound (slice material a b)) as Hb.
  assert (len (slice material a b) <= 4) by (unfold len, slice; rewrite length_take; lia).
  pose proof (Z.pow_le_mono_r 2 (8 * len (slice material a b)) 32). unfold is_u. lia.
Qed.

Lemma derived_key_wf salt secret ids label a b :
  (b - a <= 4)%nat -> key_wf {| key_id := nonzero_id ids a b; key_bytes := expand_key salt secret label |}.
Proof. intros. split; [by apply nonzero_id_u32|apply hkdf_sha256_length]. Qed.

Lemma derived_session_wf role mode shared hash :
  session_keys_wf (derive_session_transport role mode shared hash).
Proof.
  assert (nonzero : forall m, is_u32 (nonzero_id m 0 4) /\ nonzero_id m 0 4 <> 0)
    by (intros; apply nonzero_id_u32; lia).
  unfold session_keys_wf. destruct role; simpl;
    repeat (split; [first [apply derived_key_wf; lia | apply nonzero]|]); apply hkdf_sha256_length.
Qed.

Lemma derived_mirrored mode shared hash :
  mirrored (derive_session_transport Client mode shared hash)
           (derive_session_transport Server mode shared hash).
Proof. by split. Qed.

Lemma mirrored_linked c s :
  mirrored c s -> session_keys_wf c ->
  linked (control_record c) (control_record s) /\ linked (control_record s) (control_record c).
Proof.
  intros [Hm Hu Hd _ _ _ _ _] (Hks & Hkr & _). unfold control_record. rewrite <- Hm.
  destruct (session_mode c); [|done]. simpl. rewrite <- Hu, <- Hd. naive_solver lia.
Qed.

Lemma validate_client_hello_ok h :
  validate_client_hello h = Ok tt <->
  ch_version h = PROTOCOL_VERSION /\ length (client_nonce h) = NONCE_LEN /\
  length (client_ephemeral h) = X25519_PUBLIC_KEY_LEN /\ ch_modes h <> [].
Proof.
  unfold validate_client_hello.
  case_decide as Hv; [split; [discriminate|tauto]|].
  case_decide as Hc; (split; [|tauto || done]); [discriminate|intros _].
  split_and!; first [tauto | apply dec_stable; tauto].
Qed.

Lemma validate_server_hello_ok h :
  validate_server_hello h = Ok tt <->
  sh_version h = PROTOCOL_VERSION /\ is_Some (TransportMode.from_wire_id (sh_mode h)) /\
  length (server_nonce h) = NONCE_LEN /\ length (server_ephemeral h) = X25519_PUBLIC_KEY_LEN /\
  length (server_public_key h) = ED25519_PUBLIC_KEY_LEN /\ sh_signature h <> [].
Proof.
  unfold validate_server_hello. rewrite <- not_eq_None_Some.
  case_decide as Hv; [split; [discriminate|tauto]|].
  case_decide as Hc; (split; [|tauto || done]); [discriminate|intros _].
  split_and!; first [tauto | apply dec_stable; tauto].
Qed.

Lemma unit_ok (r : result CryptoError unit) u : r = Ok u -> r = Ok tt.
Proof. by destruct u. Qed.

End facts.

(** ** Properties of the handshake *)

Section completeness.
Context `{PrimitiveLaws}.
Context (a b A B shared cn sn seed : bytes) (mode : TransportMode) (sk pinned : option bytes).
Context (HA : x25519_public a = Some A) (HB : x25519_public b = Some B).
Context (Hsh : x25519_agree b A = Some shared).
Context (Hcn : length cn = NONCE_LEN) (Hsn : length sn = NONCE_LEN).
Context (Hpin : pinned = None \/ pinned = Some (ed25519_public seed)).

Definition offered_hello : ClientHello :=
  let hello := {| ch_version := PROTOCOL_VERSION; ch_modes := TransportMode.supported_wire_ids;
                  client_nonce := cn; client_ephemeral := A;
                  mac1 := replicate HELLO_MAC_LEN Byte.x00 |} in
  match sk with
  | Some key => {| ch_version := PROTOCOL_VERSION; ch_modes := TransportMode.supported_wire_ids;
                   client_nonce := cn; client_ephemeral := A; mac1 := client_hello_mac1 key hello |}
  | None => hello
  end.

Lemma generated_hello :
  generate_client_hello (Some a) (Some cn) sk = Ok {| hs_private := a; hs_hello := offered_hello |}.
Proof. unfold generate_client_hello, offered_hello. simpl. rewrite HA. simpl. by destruct sk. Qed.

Lemma offered_hello_fields :
  ch_version offered_hello = PROTOCOL_VERSION /\ client_nonce offered_hello = cn /\
  client_ephemeral offered_hello = A /\ ch_modes offered_hello = TransportMode.supported_wire_ids.
Proof. unfold offered_hello. by destruct sk. Qed.

Lemma offered_hello_valid : validate_client_hello offered_hello = Ok tt.
Proof.
  apply validate_client_hello_ok. destruct offered_hello_fields as (-> & -> & -> & ->).
  by rewrite (x25519_public_length a A HA).
Qed.

Definition answered_hello : ServerHello :=
  {| sh_version := PROTOCOL_VERSION; sh_mode := TransportMode.wire_id mode;
     server_nonce := sn; server_ephemeral := B; server_public_key := ed25519_public seed;
     sh_signature := ed25519_sign seed
       (server_transcript offered_hello PROTOCOL_VERSION (TransportMode.wire_id mode) sn B
          (ed25519_public seed)) |}.

Definition answered_hash : bytes :=
  sha256 (server_transcript offered_hello PROTOCOL_VERSION (TransportMode.wire_id mode) sn B
            (ed25519_public seed) ++ sh_signature answered_hello).

Lemma answered_hello_valid : validate_server_hello answered_hello = Ok tt.
Proof.
  apply validate_server_hello_ok. simpl. rewrite from_wire_id_wire_id.
  rewrite (x25519_public_length b B HB), ed25519_public_length. repeat split; try done.
  intros E. apply (f_equal length) in E. by rewrite ed25519_sign_length in E.
Qed.

Lemma answered_transcript :
  full_transcript offered_hello answered_hello (ed25519_public seed) = Ok answered_hash.
Proof. unfold full_transcript. by rewrite offered_hello_valid, answered_hello_valid. Qed.

Lemma server_answers :
  respond_to_client_hello (Some b) (Some sn) seed offered_hello mode =
  Ok {| srv_hello := answered_hello;
        srv_transport := derive_session_transport Server mode shared answered_hash |}.
Proof.
  unfold respond_to_client_hello. rewrite offered_hello_valid. run_result.
  destruct offered_hello_fields as (_ & _ & He & Hm). rewrite Hm.
  rewrite decide_False by (intros E; apply E, wire_id_supported).
  run_result. rewrite HB. run_result. rewrite He, Hsh. run_result. fold answered_hello.
  by rewrite answered_transcript.
Qed.

Lemma client_completes :
  complete_client_transport_handshake {| hs_private := a; hs_hello := offered_hello |}
    answered_hello pinned =
  Ok (derive_session_transport Client mode shared answered_hash, ed25519_public seed).
Proof.
  unfold complete_client_transport_handshake. cbn [hs_hello hs_private].
  rewrite answered_hello_valid. run_result. cbn [sh_mode answered_hello]. rewrite from_wire_id_wire_id. run_result.
  destruct offered_hello_fields as (_ & _ & _ & Hm). rewrite Hm.
  rewrite decide_False by (intros E; apply E, wire_id_supported).
  assert (resolve_server_public_key answered_hello pinned = Ok (ed25519_public seed)) as ->.
  { unfold resolve_server_public_key. simpl. rewrite ed25519_public_length, decide_True by done.
    destruct Hpin as [->| ->]; [done|]. by rewrite decide_False by auto. }
  run_result. rewrite answered_transcript. run_result. cbn [sh_version sh_mode server_nonce server_ephemeral sh_signature answered_hello]. rewrite ed25519_verify_sign.
  by rewrite (x25519_agree_comm a b A B), Hsh.
Qed.

End completeness.

(** C8: when the primitives answer, a client that offers both modes and an
    honest server complete the handshake in the mode the server chose; both
    derive the same session, mirrored in direction, and the two control-lane
    codecs built from it are linked both ways. *)
Theorem handshake_agreement `{PrimitiveLaws} (a b A B shared cn sn seed : bytes)
    (mode : TransportMode) (sk pinned : option bytes) :
  x25519_public a = Some A -> x25519_public b = Some B -> x25519_agree b A = Some shared ->
  length cn = NONCE_LEN -> length sn = NONCE_LEN ->
  pinned = None \/ pinned = Some (ed25519_public seed) ->
  exists hs srv t,
    generate_client_hello (Some a) (Some cn) sk = Ok hs /\
    respond_to_client_hello (Some b) (Some sn) seed (hs_hello hs) mode = Ok srv /\
    complete_client_transport_handshake hs (srv_hello srv) pinned = Ok (t, ed25519_public seed) /\
    session_mode t = mode /\ mirrored t (srv_transport srv) /\
    linked (control_record t) (control_record (srv_transport srv)) /\
    linked (control_record (srv_transport srv)) (control_record t).
Proof.
  intros HA HB Hsh Hcn Hsn Hpin.
  pose (hash := answered_hash A B cn sn seed mode sk).
  exists {| hs_private := a; hs_hello := offered_hello A cn sk |},
    {| srv_hello := answered_hello A B cn sn seed mode sk;
       srv_transport := derive_session_transport Server mode shared hash |},
    (derive_session_transport Client mode shared hash).
  split; [by apply generated_hello|]. split; [by eapply server_answers|].
  split; [by eapply client_completes|]. split; [done|]. cbn [srv_transport].
  split; [apply derived_mirrored|].
  apply mirrored_linked; [apply derived_mirrored|apply derived_session_wf].
Qed.

(** C9: whatever a server hello says, a client that accepts it has checked that
    the selected mode is one it offered and is the mode of the session, that the
    key it trusts is the pinned one if it pinned one, and that this key signed
    the transcript of exactly these nonces, ephemerals and mode. *)
Theorem client_accepts_only_signed `{PrimitiveLaws} (hs : ClientHandshake) (sh : ServerHello)
    (pinned : option bytes) (t : SessionTransport) (trusted : bytes) :
  complete_client_transport_handshake hs sh pinned = Ok (t, trusted) ->
  TransportMode.wire_id (session_mode t) = sh_mode sh /\
  (sh_mode sh ∈ ch_modes (hs_hello hs)) /\
  trusted = server_public_key sh /\ (forall p, pinned = Some p -> trusted = p) /\
  validate_server_hello sh = Ok tt /\ validate_client_hello (hs_hello hs) = Ok tt /\
  ed25519_verify trusted
    (server_transcript (hs_hello hs) (sh_version sh) (sh_mode sh) (server_nonce sh)
       (server_ephemeral sh) trusted) (sh_signature sh) = true.
Proof.
  unfold complete_client_transport_handshake, full_transcript. intros Hok.
  destruct (validate_server_hello sh) as [u|] eqn:Ev; [|done]. run_result in Hok.
  destruct (TransportMode.from_wire_id (sh_mode sh)) as [m|] eqn:Em; [|done]. run_result in Hok.
  case_decide as Hmode; [done|].
  destruct (resolve_server_public_key sh pinned) as [k|] eqn:Ek; [|done]. run_result in Hok.
  destruct (validate_client_hello (hs_hello hs)) as [u'|] eqn:Ec; [|done]. run_result in Hok.
  case_match eqn:Esig; [|done].
  destruct (x25519_agree _ _) as [shd|]; [|done]. run_result in Hok. injection Hok as <- <-.
  destruct u, u'. assert (k = server_public_key sh /\ forall p, pinned = Some p -> k = p) as [-> Hp].
  { unfold resolve_server_public_key in Ek. case_decide; [|done].
    destruct pinned as [p|]; [case_decide as Hd; [done|]|]; simplify_eq; [|done].
    subst. naive_solver. }
  split; [by apply wire_id_from_wire_id|]. done.
Qed.

Lemma app_split {X} (l1 l2 k1 k2 : list X) :
  length l1 = length k1 -> l1 ++ l2 = k1 ++ k2 -> l1 = k1 /\ l2 = k2.
Proof. apply app_inj_1. Qed.

(** C10: the signed transcript determines what it covers: two validated
    exchanges with the same transcript agree on the mode and on both nonces,
    both ephemerals and the server key, so that a signature over one cannot be
    presented for another. *)
Theorem transcript_binds_fields (c1 c2 : ClientHello) (s1 s2 : ServerHello) (k1 k2 : bytes) :
  validate_client_hello c1 = Ok tt -> validate_client_hello c2 = Ok tt ->
  validate_server_hello s1 = Ok tt -> validate_server_hello s2 = Ok tt ->
  server_transcript c1 (sh_version s1) (sh_mode s1) (server_nonce s1) (server_ephemeral s1) k1 =
  server_transcript c2 (sh_version s2) (sh_mode s2) (server_nonce s2) (server_ephemeral s2) k2 ->
  client_nonce c1 = client_nonce c2 /\ client_ephemeral c1 = client_ephemeral c2 /\
  sh_mode s1 = sh_mode s2 /\ server_nonce s1 = server_nonce s2 /\
  server_ephemeral s1 = server_ephemeral s2 /\ k1 = k2.
Proof.
  intros (Hv1 & Hn1 & He1 & _)%validate_client_hello_ok (Hv2 & Hn2 & He2 & _)%validate_client_hello_ok.
  intros (Hw1 & [m1 Hm1] & Hsn1 & Hse1 & _)%validate_server_hello_ok.
  intros (Hw2 & [m2 Hm2] & Hsn2 & Hse2 & _)%validate_server_hello_ok.
  apply wire_id_from_wire_id in Hm1, Hm2. unfold server_transcript. rewrite Hv1, Hv2, Hw1, Hw2.
  intros E. do 3 apply app_inv_head in E.
  apply app_split in E as [Em E]; [|done].
  apply app_split in E as [En E]; [|congruence].
  apply app_split in E as [Ee E]; [|congruence].
  apply app_split in E as [Esn E]; [|congruence].
  apply app_split in E as [Ese E]; [|congruence].
  split_and!; try done. rewrite <- Hm1, <- Hm2 in *.
  by destruct m1, m2; vm_compute in Em; simplify_eq.
Qed.

(** A server that requires the hello MAC accepts the hello of every client
    that holds its public key, and accepts a hello only if it carries exactly
    the MAC over its fields under that key. *)
Lemma hello_mac_exact `{PrimitiveLaws} (key : bytes) (hello : ClientHello) :
  (forall a cn hs, generate_client_hello (Some a) (Some cn) (Some key) = Ok hs ->
     verify_client_hello_mac1 key (hs_hello hs) = true) /\
  (length (mac1 hello) = HELLO_MAC_LEN ->
   verify_client_hello_mac1 key hello = true <-> mac1 hello = client_hello_mac1 key hello).
Proof.
  assert (L : forall h, length (client_hello_mac1 key h) = HELLO_MAC_LEN).
  { intros h. unfold client_hello_mac1. rewrite length_take, hmac_sha256_length. done. }
  split.
  - intros a cn hs. unfold generate_client_hello. run_result.
    destruct (x25519_public a) as [A|]; [|done]. run_result. intros [= <-]. cbn [hs_hello].
    unfold verify_client_hello_mac1. apply constant_time_eq_iff; [|reflexivity].
    cbn [mac1]. by rewrite !L.
  - intros Hl. unfold verify_client_hello_mac1.
    rewrite constant_time_eq_iff by (by rewrite L). split; congruence.
Qed.

(** Witness data: one exchange over the toy primitives. *)
#[local] Existing Instance Toy.toy.
#[local] Existing Instance Toy.toy_laws.

Module Exchange.

Definition a : bytes := replicate 32 Byte.x05.
Definition b : bytes := replicate 32 Byte.x06.
Definition cn : bytes := replicate 32 Byte.x01.
Definition sn : bytes := replicate 32 Byte.x02.
Definition seed : bytes := replicate 32 Byte.x09.
Definition A : bytes := default [] (x25519_public a).
Definition B : bytes := default [] (x25519_public b).
Definition shared : bytes := default [] (x25519_agree b A).

Definition client : ClientHandshake :=
  {| hs_private := a; hs_hello := offered_hello A cn (Some (ed25519_public seed)) |}.
Definition reply : ServerHello :=
  answered_hello A B cn sn seed Plaintext (Some (ed25519_public seed)).

End Exchange.

Lemma handshake_agreement_witness :
  exists hs srv t,
    generate_client_hello (Some Exchange.a) (Some Exchange.cn)
      (Some (ed25519_public Exchange.seed)) = Ok hs /\
    respond_to_client_hello (Some Exchange.b) (Some Exchange.sn) Exchange.seed
      (hs_hello hs) Encrypted = Ok srv /\
    session_mode t = Encrypted /\ mirrored t (srv_transport srv).
Proof.
  destruct (handshake_agreement Exchange.a Exchange.b Exchange.A Exchange.B Exchange.shared
    Exchange.cn Exchange.sn Exchange.seed Encrypted (Some (ed25519_public Exchange.seed))
    (Some (ed25519_public Exchange.seed))) as (hs & srv & t & Hg & Hr & _ & Hm & Hmir & _);
    [vm_compute; reflexivity..|right; reflexivity|].
  exists hs, srv, t. auto.
Defined.

Lemma client_accepts_only_signed_witness :
  exists t k, complete_client_transport_handshake Exchange.client Exchange.reply None = Ok (t, k) /\
    TransportMode.wire_id (session_mode t) = sh_mode Exchange.reply.
Proof.
  assert (exists r, complete_client_transport_handshake Exchange.client Exchange.reply None = Ok r)
    as [[t k] E].
  { eexists. vm_compute. reflexivity. }
  exists t, k. split; [exact E|].
  exact (proj1 (client_accepts_only_signed Exchange.client Exchange.reply None t k E)).
Defined.

Lemma transcript_binds_fields_witness :
  client_nonce (hs_hello Exchange.client) = Exchange.cn.
Proof.
  apply (transcript_binds_fields (hs_hello Exchange.client) (hs_hello Exchange.client)
    Exchange.reply Exchange.reply Exchange.B Exchange.B); vm_compute; reflexivity.
Defined.
