(* ===== verification/Text.v ===== *)
(** * Textual encodings of bytes

    Models the hex codec of src/crates/rpc/src/crypto.rs, [ServerId]'s hex form
    of src/crates/ids/src/lib.rs and the Crockford base32 codec of
    src/crates/rpc/src/base32.rs.  A [&str] is the list of its UTF-8 bytes. *)

From S2P Require Import Prelude Transport.

(** ** [str::trim] *)

(** The UTF-8 encodings of the characters with the White_Space property. *)
Definition WHITE_SPACE : list bytes :=
  map (fun z => [of_u8 z]) [9; 10; 11; 12; 13; 32].
Definition WHITE_SPACE_WIDE : list bytes :=
  map (map of_u8) ([[194; 133]; [194; 160]; [225; 154; 128]; [226; 128; 168]; [226; 128; 169];
    [226; 128; 175]; [226; 129; 159]; [227; 128; 128]] ++
    map (fun z => [226; 128; z]) (seqZ 128 11)).

(** Drops leading encodings of [ws] as long as there are any. *)
Fixpoint strip_front (ws : list bytes) (fuel : nat) (s : bytes) : bytes :=
  match fuel with
  | O => s
  | S fuel =>
      match list_find (fun w => take (length w) s = w) ws with
      | Some (_, w) => strip_front ws fuel (drop (length w) s)
      | None => s
      end
  end.

Definition trim (s : bytes) : bytes :=
  let ws := WHITE_SPACE ++ WHITE_SPACE_WIDE in
  let s := strip_front ws (length s) s in
  reverse (strip_front (reverse <$> ws) (length s) (reverse s)).

(** ** [str::from_utf8]

    One character off the front: its length, by the table of well-formed byte
    sequences. *)

Definition continuation (b : byte) : bool := bool_decide (128 <= u8 b <= 191).

Definition utf8_first (s : bytes) : option nat :=
  match s with
  | [] => None
  | a :: s =>
      if decide (u8 a <= 127) then Some 1%nat
      else if decide (194 <= u8 a <= 223) then
        match s with
        | b :: _ => if continuation b then Some 2%nat else None
        | _ => None
        end
      else if decide (224 <= u8 a <= 239) then
        match s with
        | b :: c :: _ =>
            let lo := if decide (u8 a = 224) then 160 else 128 in
            let hi := if decide (u8 a = 237) then 159 else 191 in
            if bool_decide (lo <= u8 b <= hi) && continuation c then Some 3%nat else None
        | _ => None
        end
      else if decide (240 <= u8 a <= 244) then
        match s with
        | b :: c :: d :: _ =>
            let lo := if decide (u8 a = 240) then 144 else 128 in
            let hi := if decide (u8 a = 244) then 143 else 191 in
            if bool_decide (lo <= u8 b <= hi) && continuation c && continuation d then Some 4%nat else None
        | _ => None
        end
      else None
  end.

Fixpoint utf8_loop (fuel : nat) (s : bytes) : bool :=
  match s, fuel with
  | [], _ => true
  | _, O => false
  | _, S fuel => match utf8_first s with Some n => utf8_loop fuel (drop n s) | None => false end
  end.

(** Whether the bytes are the UTF-8 encoding of a string; every character takes
    at least one byte, so the length bounds the characters. *)
Definition utf8_valid (s : bytes) : bool := utf8_loop (length s) s.

(** ** Hex *)

Definition HEX : bytes := ascii_bytes "0123456789abcdef".

Definition encode_hex (bs : bytes) : bytes :=
  mjoin ((fun b => [HEX !!! Z.to_nat (Z.shiftr (u8 b) 4); HEX !!! Z.to_nat (Z.land (u8 b) 15)]) <$> bs).

Definition decode_hex_nibble (b : byte) : result CryptoError Z :=
  if decide (48 <= u8 b <= 57) then Ok (u8 b - 48)
  else if decide (97 <= u8 b <= 102) then Ok (u8 b - 97 + 10)
  else if decide (65 <= u8 b <= 70) then Ok (u8 b - 65 + 10)
  else Err InvalidEncoding.

(** The loop over [chunks_exact(2)]. *)
Fixpoint decode_hex_pairs (value : bytes) : result CryptoError bytes :=
  match value with
  | h :: l :: value =>
      high ← decode_hex_nibble h;
      low ← decode_hex_nibble l;
      out ← decode_hex_pairs value;
      Ok (of_u8 (Z.lor (wrap 8 (Z.shiftl high 4)) low) :: out)
  | _ => Ok []
  end.

Definition decode_hex (value : bytes) : result CryptoError bytes :=
  let value := trim value in
  if decide (len value mod 2 <> 0) then Err InvalidEncoding
  else decode_hex_pairs value.

Definition decode_fixed_hex (n : nat) (value : bytes) : result CryptoError bytes :=
  decoded ← decode_hex value;
  if decide (length decoded = n) then Ok decoded else Err InvalidEncoding.

Module ServerId.

Definition is_zero (id : bytes) : bool := bool_decide (id = replicate 16 Byte.x00).

(** [Display]: two lowercase digits per byte. *)
Definition to_hex (id : bytes) : bytes := encode_hex id.

Definition hex_nibble (b : byte) : option Z :=
  if decide (48 <= u8 b <= 57) then Some (u8 b - 48)
  else if decide (97 <= u8 b <= 102) then Some (u8 b - 97 + 10)
  else if decide (65 <= u8 b <= 70) then Some (u8 b - 65 + 10)
  else None.

Fixpoint pairs (text : bytes) : option bytes :=
  match text with
  | h :: l :: text =>
      hi ← hex_nibble h;
      lo ← hex_nibble l;
      out ← pairs text;
      Some (of_u8 (Z.lor (wrap 8 (Z.shiftl hi 4)) lo) :: out)
  | _ => Some []
  end.

Definition from_hex (text : bytes) : option bytes :=
  if decide (length text <> 32%nat) then None else pairs text.

End ServerId.

(** ** Crockford base32 *)

Module Base32.

Definition ALPHABET : bytes := ascii_bytes "0123456789abcdefghjkmnpqrstvwxyz".

Definition encode_value (value : Z) : byte := ALPHABET !!! Z.to_nat (Z.land value 31).

Definition to_ascii_lowercase (b : byte) : byte :=
  if decide (65 <= u8 b <= 90) then of_u8 (u8 b + 32) else b.

Definition decode_value (b : byte) : option Z :=
  let b := to_ascii_lowercase b in
  let b := if decide (u8 b = 105 \/ u8 b = 108) then of_u8 49
           else if decide (u8 b = 111) then of_u8 48 else b in
  (fun p => Z.of_nat p.1) <$> list_find (fun candidate => candidate = b) ALPHABET.

(** [while bits >= 5]: a byte leaves at most 12 pending bits, so three tests suffice. *)
Fixpoint emit (fuel : nat) (accumulator bits : Z) (output : bytes) : Z * bytes :=
  match fuel with
  | O => (bits, output)
  | S fuel =>
      if decide (bits >= 5) then
        let bits := bits - 5 in
        emit fuel accumulator bits (output ++ [encode_value (Z.land (Z.shiftr accumulator bits) 31)])
      else (bits, output)
  end.

Fixpoint encode_loop (bs : bytes) (accumulator bits : Z) (output : bytes) : bytes :=
  match bs with
  | [] =>
      if decide (bits > 0) then
        output ++ [encode_value (Z.land (wrap 32 (Z.shiftl accumulator (5 - bits))) 31)]
      else output
  | byte :: bs =>
      let accumulator := Z.lor (wrap 32 (Z.shiftl accumulator 8)) (u8 byte) in
      let '(bits, output) := emit 3 accumulator (bits + 8) output in
      encode_loop bs accumulator bits output
  end.

Definition encode (bs : bytes) : bytes := encode_loop bs 0 0 [].

Fixpoint decode_loop (value : bytes) (accumulator bits : Z) (output : bytes) : option bytes :=
  match value with
  | [] => if decide (bits > 0 /\ accumulator <> 0) then None else Some output
  | byte :: value =>
      v ← decode_value byte;
      let accumulator := Z.lor (wrap 32 (Z.shiftl accumulator 5)) v in
      let bits := bits + 5 in
      if decide (bits >= 8) then
        let bits := bits - 8 in
        decode_loop value (Z.land accumulator (wrap 32 (Z.shiftl 1 bits - 1))) bits
          (output ++ [of_u8 (Z.shiftr accumulator bits)])
      else decode_loop value accumulator bits output
  end.

Definition decode (value : bytes) : option bytes := decode_loop value 0 0 [].

End Base32.

Example base32_thing : Base32.decode (Base32.encode (ascii_bytes "thing")) = Some (ascii_bytes "thing").
Proof. vm_compute. reflexivity. Qed.
Example base32_padding : Base32.decode (ascii_bytes "03") = None.
Proof. vm_compute. reflexivity. Qed.
Example hex_trim : decode_hex (ascii_bytes " 0aF0 ") = Ok [of_u8 10; of_u8 240].
Proof. vm_compute. reflexivity. Qed.

(** ** Lemmas on hex *)

Definition graphic (b : byte) : Prop := 33 <= u8 b <= 126.

Lemma strip_front_id ws n s b s' :
  s = b :: s' -> Forall (fun w => exists x w', w = x :: w' /\ ~ graphic x) ws -> graphic b ->
  strip_front ws n s = s.
Proof.
  intros -> Hws Hb. destruct n as [|n]; [done|]. simpl.
  destruct (list_find _ ws) as [[i w]|] eqn:E; [|done]. exfalso.
  apply list_find_Some in E as (Hi & Ht & _).
  destruct (Forall_lookup_1 _ _ _ _ Hws Hi) as (x & w' & E & Hx). subst w.
  simpl in Ht. injection Ht as Ht _. by subst x.
Qed.

Lemma white_space_front :
  Forall (fun w => exists x w', w = x :: w' /\ ~ graphic x) (WHITE_SPACE ++ WHITE_SPACE_WIDE).
Proof.
  assert (Forall (fun w => match w with x :: _ => ~ graphic x | [] => False end)
    (WHITE_SPACE ++ WHITE_SPACE_WIDE)) as H.
  { unfold graphic. vm_compute. repeat constructor; vm_compute; intros [? ?]; congruence. }
  eapply Forall_impl; [exact H|]. intros [|x w] Hw; [done|]. eauto.
Qed.

Lemma white_space_back :
  Forall (fun w => exists x w', w = x :: w' /\ ~ graphic x)
    (reverse <$> (WHITE_SPACE ++ WHITE_SPACE_WIDE)).
Proof.
  assert (Forall (fun w => match w with x :: _ => ~ graphic x | [] => False end)
    (reverse <$> (WHITE_SPACE ++ WHITE_SPACE_WIDE))) as H.
  { unfold graphic. vm_compute. repeat constructor; vm_compute; intros [? ?]; congruence. }
  eapply Forall_impl; [exact H|]. intros [|x w] Hw; [done|]. eauto.
Qed.

(** Text without white space or controls is its own trimming. *)
Lemma trim_id s : Forall graphic s -> trim s = s.
Proof.
  intros Hs. unfold trim. destruct s as [|b s] using rev_ind; [done|]. clear IHs.
  assert (Hf : strip_front (WHITE_SPACE ++ WHITE_SPACE_WIDE) (length (s ++ [b])) (s ++ [b]) = s ++ [b]).
  { destruct (s ++ [b]) as [|c r] eqn:E; [done|]. apply Forall_cons in Hs as [Hc _].
    by eapply strip_front_id; [..|apply white_space_front|]. }
  rewrite Hf, reverse_snoc. apply Forall_app in Hs as [_ Hb]. apply Forall_cons in Hb as [Hb _].
  rewrite (strip_front_id _ _ (b :: reverse s) b (reverse s)) by (done || apply white_space_back).
  by rewrite reverse_cons, reverse_involutive.
Qed.

(** The two digits of a byte are graphic and read back as its halves. *)
Lemma hex_digits b :
  let h := HEX !!! Z.to_nat (Z.shiftr (u8 b) 4) in
  let l := HEX !!! Z.to_nat (Z.land (u8 b) 15) in
  graphic h /\ graphic l /\
  exists x y, decode_hex_nibble h = Ok x /\ decode_hex_nibble l = Ok y /\
    ServerId.hex_nibble h = Some x /\ ServerId.hex_nibble l = Some y /\
    of_u8 (Z.lor (wrap 8 (Z.shiftl x 4)) y) = b.
Proof.
  pose (value (r : result CryptoError Z) := match r with Ok x => x | Err _ => 0 end).
  intros h l. cut (graphic h /\ graphic l /\
    decode_hex_nibble h = Ok (value (decode_hex_nibble h)) /\
    decode_hex_nibble l = Ok (value (decode_hex_nibble l)) /\
    ServerId.hex_nibble h = Some (value (decode_hex_nibble h)) /\
    ServerId.hex_nibble l = Some (value (decode_hex_nibble l)) /\
    of_u8 (Z.lor (wrap 8 (Z.shiftl (value (decode_hex_nibble h)) 4)) (value (decode_hex_nibble l))) = b).
  { intros (? & ? & ? & ? & ? & ? & ?). eauto 10. }
  subst h l value. revert b. unfold graphic. apply (byte_forall _). vm_compute. reflexivity.
Qed.

Lemma encode_hex_cons b bs :
  encode_hex (b :: bs) =
  HEX !!! Z.to_nat (Z.shiftr (u8 b) 4) :: HEX !!! Z.to_nat (Z.land (u8 b) 15) :: encode_hex bs.
Proof. done. Qed.

Lemma encode_hex_graphic bs : Forall graphic (encode_hex bs).
Proof.
  induction bs as [|b bs IH]; [constructor|]. rewrite encode_hex_cons.
  destruct (hex_digits b) as (? & ? & _). auto.
Qed.

Lemma length_encode_hex bs : length (encode_hex bs) = (2 * length bs)%nat.
Proof. induction bs as [|b bs IH]; [done|]. rewrite encode_hex_cons. simpl. lia. Qed.

Lemma decode_hex_pairs_encode bs : decode_hex_pairs (encode_hex bs) = Ok bs.
Proof.
  induction bs as [|b bs IH]; [done|]. rewrite encode_hex_cons.
  destruct (hex_digits b) as (_ & _ & x & y & Hx & Hy & _ & _ & Hb).
  cbn [decode_hex_pairs]. rewrite Hx, Hy, IH. run_result. by rewrite Hb.
Qed.

Lemma server_id_pairs_encode bs : ServerId.pairs (encode_hex bs) = Some bs.
Proof.
  induction bs as [|b bs IH]; [done|]. rewrite encode_hex_cons.
  destruct (hex_digits b) as (_ & _ & x & y & _ & _ & Hx & Hy & Hb).
  cbn [ServerId.pairs]. rewrite Hx, Hy, IH. cbn. by rewrite Hb.
Qed.

Lemma decode_encode_hex bs : decode_hex (encode_hex bs) = Ok bs.
Proof.
  unfold decode_hex. rewrite trim_id by apply encode_hex_graphic.
  rewrite decide_False; [apply decode_hex_pairs_encode|]. unfold len. rewrite length_encode_hex.
  replace (Z.of_nat (2 * length bs)) with (Z.of_nat (length bs) * 2) by lia.
  rewrite Z_mod_mult. auto.
Qed.

Lemma decode_encode_fixed_hex n bs : length bs = n -> decode_fixed_hex n (encode_hex bs) = Ok bs.
Proof.
  intros. unfold decode_fixed_hex. rewrite decode_encode_hex. run_result. by rewrite decide_True.
Qed.

Lemma server_id_roundtrip id : length id = 16%nat -> ServerId.from_hex (ServerId.to_hex id) = Some id.
Proof.
  intros H. unfold ServerId.from_hex, ServerId.to_hex.
  rewrite decide_False by (rewrite length_encode_hex; lia). apply server_id_pairs_encode.
Qed.

(** ** Lemmas on base32

    Both loops are read as arithmetic: a run of symbols is the number it
    denotes in base 32, continued from a pending prefix [p]. *)

Definition symbols (p : Z) (vs : list Z) : Z := foldl (fun a v => a * 32 + v) p vs.

Definition symbol (v : Z) : Prop := 0 <= v < 32.

Lemma symbols_split p vs : symbols p vs = p * 32 ^ len vs + symbols 0 vs.
Proof.
  unfold symbols. revert p. induction vs as [|v vs IH] using rev_ind; intros p.
  - unfold len. simpl. lia.
  - rewrite !foldl_app, IH, len_app. cbn [foldl].
    rewrite Z.pow_add_r by (pose proof (len_nonneg vs); unfold len; simpl; lia).
    change (32 ^ len [v]) with 32. lia.
Qed.

Lemma symbols_bound vs : Forall symbol vs -> 0 <= symbols 0 vs < 32 ^ len vs.
Proof.
  induction vs as [|v vs IH]; intros Hvs; [unfold symbols, len; simpl; lia|].
  apply Forall_cons in Hvs as [[? ?] Hvs]. specialize (IH Hvs).
  change (symbols 0 (v :: vs)) with (symbols v vs). rewrite symbols_split, len_cons.
  rewrite Z.pow_add_r by (pose proof (len_nonneg vs); lia). change (32 ^ 1) with 32. nia.
Qed.

Lemma decode_encode_value v : symbol v -> Base32.decode_value (Base32.encode_value v) = Some v.
Proof.
  intros [? ?]. assert (v ∈ seqZ 0 32) as Hin by (apply elem_of_seqZ; lia).
  assert (Forall (fun v => Base32.decode_value (Base32.encode_value v) = Some v) (seqZ 0 32)) as HF
    by decide_closed.
  by rewrite Forall_forall in HF; apply HF.
Qed.

(** [acc << k | v] for a [v] of [k] bits, in 32 bits. *)
Lemma shift_in acc k v :
  0 <= k <= 32 -> 0 <= v < 2 ^ k ->
  Z.lor (wrap 32 (Z.shiftl acc k)) v = (acc * 2 ^ k) mod 2 ^ 32 + v.
Proof.
  intros Hk Hv. rewrite Z.shiftl_mul_pow2 by lia. unfold wrap.
  rewrite <- Z.add_lor_land. rewrite <- (Z.add_0_r (Z.lor _ _)) at 1. f_equal.
  symmetry. apply Z.bits_inj'. intros n Hn. rewrite Z.land_spec, Z.bits_0.
  destruct (decide (n < k)).
  - rewrite Z.mod_pow2_bits_low, Z.mul_pow2_bits_low by lia. done.
  - rewrite <- (Z.mod_small v (2 ^ k)) by lia. rewrite (Z.mod_pow2_bits_high v) by lia.
    apply andb_false_r.
Qed.

Lemma shift_in_small acc k v :
  0 <= acc -> 0 <= k <= 32 -> 0 <= v < 2 ^ k -> acc * 2 ^ k < 2 ^ 32 ->
  Z.lor (wrap 32 (Z.shiftl acc k)) v = acc * 2 ^ k + v.
Proof. intros. rewrite shift_in, Z.mod_small by nia. done. Qed.

Lemma low_bits bits acc :
  0 <= bits < 32 -> Z.land acc (wrap 32 (Z.shiftl 1 bits - 1)) = acc mod 2 ^ bits.
Proof.
  intros. assert (2 ^ bits <= 2 ^ 31) by (apply Z.pow_le_mono_r; lia).
  rewrite Z.shiftl_1_l, wrap_small by (unfold is_u; lia).
  rewrite <- Z.land_ones by lia. f_equal. rewrite Z.ones_equiv. lia.
Qed.

Lemma pow32 k : 0 <= k -> 32 ^ k = 2 ^ (5 * k).
Proof. intros. by rewrite Z.pow_mul_r by lia. Qed.

(** Cutting the first byte off the bits [h * 2^m + x]. *)
Lemma cut_byte h m x (q := m / 8) (r := m mod 8) :
  0 <= m -> 0 <= x < 2 ^ m -> 0 <= h < 256 ->
  (h * 2 ^ m + x) mod 2 ^ r = x mod 2 ^ r /\
  be_bytes (S (Z.to_nat q)) ((h * 2 ^ m + x) / 2 ^ r) = of_u8 h :: be_bytes (Z.to_nat q) (x / 2 ^ r).
Proof.
  intros Hm Hx Hh. assert (0 <= r < 8) by (apply Z.mod_pos_bound; lia).
  assert (0 <= q) by (apply Z.div_pos; lia).
  assert (2 ^ m = 256 ^ q * 2 ^ r) as E.
  { change 256 with (2 ^ 8). rewrite <- Z.pow_mul_r, <- Z.pow_add_r by lia. f_equal.
    subst q r. pose proof (Z.div_mod m 8). lia. }
  pose proof (Z.pow_pos_nonneg 2 r ltac:(lia) ltac:(lia)).
  assert (0 <= x / 2 ^ r < 256 ^ q).
  { split; [apply Z.div_pos; lia|apply Z.div_lt_upper_bound; lia]. }
  rewrite E. replace (h * (256 ^ q * 2 ^ r) + x) with (x + (h * 256 ^ q) * 2 ^ r) by lia.
  rewrite Z.mod_add, Z.div_add by lia. split; [done|].
  rewrite be_bytes_S, Z2Nat.id by done. f_equal; f_equal.
  - rewrite Z.div_add, Z.div_small by lia. lia.
  - rewrite Z.mod_add, Z.mod_small by lia. done.
Qed.

(** What the decoder does with a run of symbols from any state it can be in:
    the bits are cut into bytes, and the bits left over must be zero. *)
Lemma decode_loop_symbols vs acc bits out :
  Forall symbol vs -> 0 <= bits < 8 -> 0 <= acc < 2 ^ bits ->
  let n := bits + 5 * len vs in
  Base32.decode_loop (Base32.encode_value <$> vs) acc bits out =
  if decide (symbols acc vs mod 2 ^ (n mod 8) <> 0) then None
  else Some (out ++ be_bytes (Z.to_nat (n / 8)) (symbols acc vs / 2 ^ (n mod 8))).
Proof.
  revert acc bits out. induction vs as [|v vs IH]; intros acc bits out Hvs Hb Ha n; subst n.
  - unfold len, symbols. cbn [fmap list_fmap Base32.decode_loop foldl length].
    rewrite Z.mul_0_r, Z.add_0_r, (Z.mod_small bits), (Z.div_small bits) by lia.
    rewrite (Z.mod_small acc), (Z.div_small acc) by lia.
    change (be_bytes (Z.to_nat 0) 0) with (@nil byte). rewrite app_nil_r.
    destruct (decide (bits > 0 /\ acc <> 0)), (decide (acc <> 0)); try done; exfalso; [lia|].
    assert (bits = 0) as -> by lia. simpl in Ha. lia.
  - apply Forall_cons in Hvs as [Hv Hvs]. pose proof Hv as [Hv0 Hv1].
    cbn [fmap list_fmap Base32.decode_loop]. rewrite decode_encode_value by done. cbn [mbind option_bind].
    assert (2 ^ bits <= 2 ^ 7) by (apply Z.pow_le_mono_r; lia).
    rewrite (shift_in_small acc 5 v) by lia. change (2 ^ 5) with 32.
    rewrite len_cons. change (symbols acc (v :: vs)) with (symbols (acc * 32 + v) vs).
    assert (H5 : 2 ^ (bits + 5) = 2 ^ bits * 32) by (rewrite Z.pow_add_r by lia; done).
    destruct (decide (bits + 5 >= 8)).
    + rewrite low_bits by lia. pose proof (Z.pow_pos_nonneg 2 (bits + 5 - 8) ltac:(lia) ltac:(lia)).
      rewrite IH by (done || lia || apply Z.mod_pos_bound; lia).
      set (a := acc * 32 + v). set (b := bits + 5 - 8). pose proof (len_nonneg vs).
      set (m := b + 5 * len vs).
      replace (bits + 5 * (1 + len vs)) with (m + 1 * 8) by lia.
      rewrite Z.mod_add, Z.div_add by lia.
      assert (0 <= m / 8) by (apply Z.div_pos; lia).
      assert (Ha8 : 0 <= a < 2 ^ (b + 8)).
      { replace (b + 8) with (bits + 5) by lia. subst a. lia. }
      rewrite Z.pow_add_r in Ha8 by lia. change (2 ^ 8) with 256 in Ha8.
      pose proof (Z.div_mod a (2 ^ b) ltac:(lia)). pose proof (Z.mod_pos_bound a (2 ^ b) ltac:(lia)).
      assert (Hm : 2 ^ m = 2 ^ b * 32 ^ len vs).
      { unfold m. rewrite pow32, <- Z.pow_add_r by lia. done. }
      pose proof (symbols_bound vs Hvs).
      assert (Hs : symbols a vs = a / 2 ^ b * 2 ^ m + symbols (a mod 2 ^ b) vs).
      { rewrite (symbols_split a), (symbols_split (a mod 2 ^ b)), Hm. nia. }
      destruct (cut_byte (a / 2 ^ b) m (symbols (a mod 2 ^ b) vs)) as [Ec1 Ec2].
      { lia. }
      { rewrite symbols_split, Hm. nia. }
      { split; [apply Z.div_pos; lia|apply Z.div_lt_upper_bound; lia]. }
      rewrite Hs, Ec1. replace (Z.to_nat (m / 8 + 1)) with (S (Z.to_nat (m / 8))) by lia.
      rewrite Ec2, Z.shiftr_div_pow2, <- (assoc_L (++)) by lia. done.
    + rewrite IH by (done || lia). by replace (bits + 5 + 5 * len vs) with (bits + 5 * (1 + len vs)) by lia.
Qed.

Lemma emit_one acc bits (s := Z.land (Z.shiftr acc (bits - 5)) 31) :
  5 <= bits -> symbol s /\ acc mod 2 ^ bits = s * 2 ^ (bits - 5) + acc mod 2 ^ (bits - 5).
Proof.
  intros Hb. subst s. pose proof (Z.pow_pos_nonneg 2 (bits - 5) ltac:(lia) ltac:(lia)).
  rewrite Z.shiftr_div_pow2, (Z.land_ones _ 5) by lia. change (2 ^ 5) with 32.
  split; [apply Z.mod_pos_bound; lia|].
  replace (2 ^ bits) with (2 ^ (bits - 5) * 32)
    by (change 32 with (2 ^ 5); rewrite <- Z.pow_add_r by lia; f_equal; lia).
  rewrite Z.rem_mul_r by lia. lia.
Qed.

(** One turn of the inner loop of the encoder, and that its fuel suffices. *)
Lemma emit_symbols fuel acc bits out :
  0 <= bits < 5 * Z.of_nat fuel ->
  exists ws bits', Base32.emit fuel acc bits out = (bits', out ++ (Base32.encode_value <$> ws)) /\
    Forall symbol ws /\ 0 <= bits' < 5 /\ bits = 5 * len ws + bits' /\
    acc mod 2 ^ bits = symbols 0 ws * 2 ^ bits' + acc mod 2 ^ bits'.
Proof.
  revert bits out. induction fuel as [|fuel IH]; intros bits out Hb; [lia|]. cbn [Base32.emit].
  destruct (decide (bits >= 5)).
  - destruct (emit_one acc bits) as [Hs Hm]; [lia|].
    set (s := Z.land (Z.shiftr acc (bits - 5)) 31) in *.
    destruct (IH (bits - 5) (out ++ [Base32.encode_value s])) as (ws & b' & -> & Hws & Hb' & Hl & Hv); [lia|].
    exists (s :: ws), b'. rewrite <- (assoc_L (++)), len_cons. split_and!; try lia; [done|auto|].
    change (symbols 0 (s :: ws)) with (symbols s ws). pose proof (len_nonneg ws).
    rewrite symbols_split, Hm, Hv, pow32 by lia.
    replace (2 ^ (bits - 5)) with (2 ^ (5 * len ws) * 2 ^ b') by (rewrite <- Z.pow_add_r by lia; f_equal; lia).
    lia.
  - exists [], bits. cbn. rewrite app_nil_r. unfold len. simpl. split_and!; auto; lia.
Qed.

Lemma pow2_divide bits : 0 <= bits < 5 -> (256 * 2 ^ bits | 2 ^ 32).
Proof.
  intros. exists (2 ^ (24 - bits)). change 256 with (2 ^ 8).
  rewrite <- !Z.pow_add_r by lia. f_equal. lia.
Qed.

(** What the encoder writes: the pending bits and the bytes, padded with zero
    bits to whole symbols. *)
Lemma encode_loop_symbols bs acc bits out :
  0 <= bits < 5 ->
  exists vs pad, Base32.encode_loop bs acc bits out = out ++ (Base32.encode_value <$> vs) /\
    Forall symbol vs /\ 0 <= pad < 5 /\ 5 * len vs = bits + 8 * len bs + pad /\
    symbols 0 vs = (acc mod 2 ^ bits * 256 ^ len bs + of_be bs) * 2 ^ pad.
Proof.
  revert acc bits out. induction bs as [|b bs IH]; intros acc bits out Hb; cbn [Base32.encode_loop].
  - change (of_be []) with 0. change (len []) with 0. destruct (decide (bits > 0)).
    + pose proof (Z.pow_pos_nonneg 2 bits ltac:(lia) ltac:(lia)).
      pose proof (Z.pow_pos_nonneg 2 (5 - bits) ltac:(lia) ltac:(lia)).
      assert (H32 : 2 ^ bits * 2 ^ (5 - bits) = 32)
        by (rewrite <- Z.pow_add_r by lia; by replace (bits + (5 - bits)) with 5 by lia).
      set (s := Z.land (wrap 32 (Z.shiftl acc (5 - bits))) 31).
      assert (Hs : s = acc mod 2 ^ bits * 2 ^ (5 - bits)).
      { subst s. rewrite Z.shiftl_mul_pow2, (Z.land_ones _ 5) by lia. unfold wrap.
        change (2 ^ 5) with 32. rewrite Z.mod_mod_divide by (by exists (2 ^ 27)).
        rewrite <- H32, Z.mul_mod_distr_r by lia. done. }
      pose proof (Z.mod_pos_bound acc (2 ^ bits)).
      exists [s], (5 - bits). change (len [s]) with 1.
      split_and!; try lia; [done|constructor; [unfold symbol; nia|constructor]|].
      unfold symbols. simpl. lia.
    + assert (bits = 0) as -> by lia. exists [], 0. rewrite Z.mod_1_r. cbn.
      rewrite app_nil_r. split_and!; auto; lia.
  - pose proof (u8_range b). rewrite shift_in by lia. change (2 ^ 8) with 256.
    set (acc1 := (acc * 256) mod 2 ^ 32 + u8 b).
    assert (Hacc : acc1 mod 2 ^ (bits + 8) = acc mod 2 ^ bits * 256 + u8 b).
    { pose proof (Z.pow_pos_nonneg 2 bits ltac:(lia) ltac:(lia)).
      replace (2 ^ (bits + 8)) with (256 * 2 ^ bits) by (rewrite Z.pow_add_r by lia; lia).
      subst acc1. rewrite <- Z.add_mod_idemp_l by lia.
      rewrite Z.mod_mod_divide by (by apply pow2_divide).
      rewrite Z.add_mod_idemp_l, Z.rem_mul_r, (Z.add_comm (acc * 256)) by lia.
      rewrite Z.mod_add, Z.div_add by lia.
      rewrite (Z.mod_small (u8 b)), (Z.div_small (u8 b)), Z.add_0_l by lia. lia. }
    destruct (emit_symbols 3 acc1 (bits + 8) out) as (ws & b' & -> & Hws & Hb' & Hl & Hv); [lia|].
    destruct (IH acc1 b' (out ++ (Base32.encode_value <$> ws))) as (vs & pad & -> & Hvs & Hp & Hn & Hy); [lia|].
    exists (ws ++ vs), pad. pose proof (len_nonneg vs). pose proof (len_nonneg bs).
    rewrite fmap_app, (assoc_L (++)), len_app, len_cons, of_be_cons.
    split_and!; try lia; [done|by apply Forall_app|].
    assert (symbols 0 (ws ++ vs) = symbols 0 ws * 32 ^ len vs + symbols 0 vs) as ->.
    { unfold symbols at 1. rewrite foldl_app. apply symbols_split. }
    rewrite Hy, pow32 by lia.
    replace (2 ^ (5 * len vs)) with (2 ^ b' * 256 ^ len bs * 2 ^ pad).
    2:{ change 256 with (2 ^ 8). rewrite <- Z.pow_mul_r, <- !Z.pow_add_r by lia. f_equal. lia. }
    rewrite Z.pow_add_r by lia. change (256 ^ 1) with 256. nia.
Qed.

(** C12: any byte string written in Crockford base32 reads back as itself: the
    bit accumulators of the two loops never lose or invent a bit, and the
    padding check never refuses the encoder's own output. *)
Theorem base32_roundtrip (bs : bytes) : Base32.decode (Base32.encode bs) = Some bs.
Proof.
  unfold Base32.decode, Base32.encode.
  destruct (encode_loop_symbols bs 0 0 []) as (vs & pad & -> & Hvs & Hp & Hn & Hy); [lia|].
  simpl app. rewrite decode_loop_symbols by (done || lia).
  pose proof (len_nonneg bs). replace (0 + 5 * len vs) with (pad + len bs * 8) by lia.
  rewrite Z.mod_add, Z.div_add, (Z.mod_small pad), (Z.div_small pad) by lia.
  change (0 mod 2 ^ 0) with 0 in Hy. rewrite Z.mul_0_l, Z.add_0_l in Hy. rewrite Hy, Z.mod_mul, decide_False by (auto || lia).
  rewrite Z.div_mul, Z.add_0_l by lia. unfold len. rewrite Nat2Z.id.
  by rewrite be_bytes_of_be.
Qed.
