(* ===== verification/Auth.v ===== *)
(** * Bearer tokens and truncated MACs

    Models the token and proof functions of src/crates/rpc/src/crypto.rs: the
    dynamic-user tokens a server seals under a key derived from its seed, the
    user ids derived from recovery secrets, the STUN MAC and the 16-byte
    authentication proof of plaintext media and video.  The jsony binary codec
    is a third-party crate: it is the class [ClaimsCodec]. *)

From S2P Require Import Prelude Primitives Transport Handshake Text.

Definition DYNAMIC_TOKEN_PREFIX : bytes := ascii_bytes "tct1_".
Definition OPEN_PAIR_RECOVERY_PREFIX : bytes := ascii_bytes "tcr1_".
Definition TOKEN_CHANNEL : Z := 0.
Definition AUTH_PROOF_LEN : nat := 16.

Record DynamicTokenClaims := mkClaims { claim_user_id : Z; password_epoch : Z }.

(** [jsony::to_binary] and [jsony::from_binary] at [DynamicTokenClaims]. *)
Class ClaimsCodec := {
  claims_to_binary : DynamicTokenClaims -> bytes;
  claims_from_binary : bytes -> option DynamicTokenClaims;
}.

Definition claims_wf (c : DynamicTokenClaims) : Prop :=
  is_u64 (claim_user_id c) /\ is_u32 (password_epoch c).

Class ClaimsCodecLaws `{ClaimsCodec} : Prop := {
  claims_roundtrip c : claims_wf c -> claims_from_binary (claims_to_binary c) = Some c;
  claims_small c : len (claims_to_binary c) <= AEAD_MAX;
}.

(** [str::strip_prefix]. *)
Definition strip_prefix (prefix s : bytes) : option bytes :=
  if decide (take (length prefix) s = prefix) then Some (drop (length prefix) s) else None.

Section auth.
Context `{Primitives}.

Definition stun_integrity (key message_prefix : bytes) : bytes := hmac_sha256 key message_prefix.

Definition stun_verify (key message_prefix tag : bytes) : bool := hmac_verify key message_prefix tag.

Definition auth_proof (key message : bytes) : bytes :=
  take AUTH_PROOF_LEN (stun_integrity key message).

Definition auth_proof_verify (key message tag : bytes) : bool :=
  if decide (length tag <> AUTH_PROOF_LEN) then false
  else
    let expected := auth_proof key message in
    bool_decide (foldl (fun diff '(a, b) => Z.lor diff (Z.lxor (u8 a) (u8 b))) 0 (zip expected tag) = 0).

Definition dynamic_token_key (seed_hex : bytes) : result CryptoError KeyMaterial :=
  seed ← decode_fixed_hex KEY_LEN seed_hex;
  Ok {| key_id := 0;
        key_bytes := expand_key (ascii_bytes "chatt dynamic token salt v1") seed
                       "chatt dynamic token key v1" |}.

Context `{ClaimsCodec}.

(** [counter_bytes] are the random bytes, [None] when the generator failed. *)
Definition issue_dynamic_token (counter_bytes : option bytes) (seed_hex : bytes)
    (claims : DynamicTokenClaims) : result CryptoError bytes :=
  key ← dynamic_token_key seed_hex;
  let plaintext := claims_to_binary claims in
  counter_bytes ← ok_or Random counter_bytes;
  let counter := Z.land (of_le counter_bytes) 1152921504606846975 in
  frame ← seal_with_key key TOKEN_CHANNEL counter plaintext;
  Ok (DYNAMIC_TOKEN_PREFIX ++ encode_hex frame).

Definition verify_dynamic_token (seed_hex token : bytes) : result CryptoError DynamicTokenClaims :=
  hex ← ok_or InvalidEncoding (strip_prefix DYNAMIC_TOKEN_PREFIX token);
  frame ← decode_hex hex;
  key ← dynamic_token_key seed_hex;
  '(_, plaintext) ← open_with_key key TOKEN_CHANNEL frame;
  ok_or InvalidEncoding (claims_from_binary plaintext).

Definition dynamic_user_id_from_pairing_secret (seed_hex secret : bytes) : result CryptoError Z :=
  seed ← decode_fixed_hex KEY_LEN seed_hex;
  let input := ascii_bytes "chatt open-pair recovery id v1" ++ secret in
  let tag := hmac_sha256 seed input in
  Ok (Z.lor (of_le (take 8 tag)) (Z.shiftl 1 63)).

Definition dynamic_user_id_from_recovery_token (seed_hex token : bytes) : result CryptoError Z :=
  secret ← ok_or InvalidEncoding (strip_prefix OPEN_PAIR_RECOVERY_PREFIX token);
  secret ← decode_hex secret;
  if decide (length secret < KEY_LEN)%nat then Err InvalidEncoding
  else dynamic_user_id_from_pairing_secret seed_hex secret.

End auth.

(** ** Lemmas *)

Section facts.
Context `{PrimitiveLaws}.

Lemma length_auth_proof key m : length (auth_proof key m) = AUTH_PROOF_LEN.
Proof. unfold auth_proof, stun_integrity. rewrite length_take, hmac_sha256_length. done. Qed.

(** The proof check accepts exactly the proof. *)
Lemma auth_proof_verify_iff key m tag :
  auth_proof_verify key m tag = true <-> tag = auth_proof key m.
Proof.
  unfold auth_proof_verify. pose proof (length_auth_proof key m) as Hl.
  destruct (decide (length tag <> AUTH_PROOF_LEN)) as [Hn|Hn].
  - split; [done|]. intros ->. done.
  - apply dec_stable in Hn. rewrite bool_decide_eq_true, constant_time_eq_acc by lia. naive_solver.
Qed.

Lemma strip_prefix_app p s : strip_prefix p (p ++ s) = Some s.
Proof. unfold strip_prefix. by rewrite take_app_length, decide_True, drop_app_length. Qed.

(** Clearing the top four bits keeps a random counter below the limit. *)
Lemma token_counter_bound z : 0 <= z -> 0 <= Z.land z 1152921504606846975 < REJECT_AFTER_MESSAGES.
Proof.
  intros. change 1152921504606846975 with (Z.ones 60). rewrite Z.land_ones, reject_bound by lia.
  pose proof (Z.mod_pos_bound z (2 ^ 60)). lia.
Qed.

Lemma upper_half z : is_u64 z -> 2 ^ 63 <= Z.lor z (Z.shiftl 1 63) < 2 ^ 64.
Proof.
  intros [? ?]. rewrite Z.shiftl_1_l.
  assert (Z.log2 z <= 63) by (apply Z.lt_succ_r; destruct (decide (z = 0)) as [->|];
    [vm_compute; done|apply Z.log2_lt_pow2; lia]).
  assert (E : Z.log2 (Z.lor z (2 ^ 63)) = 63).
  { rewrite Z.log2_lor, Z.log2_pow2 by lia. lia. }
  assert (0 < Z.lor z (2 ^ 63)) as Hp.
  { assert (0 <= Z.lor z (2 ^ 63)) by (apply Z.lor_nonneg; lia).
    destruct (decide (Z.lor z (2 ^ 63) = 0)) as [E0|]; [|lia]. by rewrite E0 in E. }
  pose proof (Z.log2_spec _ Hp) as Hs. rewrite E in Hs. exact Hs.
Qed.

Lemma dynamic_token_key_wf seed_hex key : dynamic_token_key seed_hex = Ok key -> key_wf key.
Proof.
  unfold dynamic_token_key. destruct (decode_fixed_hex KEY_LEN seed_hex); [|done].
  run_result. intros [= <-]. split; [done|apply hkdf_sha256_length].
Qed.

End facts.

(** ** Properties *)

(** C13: every token a server issues is accepted by that server and gives back
    exactly the user id and password epoch it was issued for; issuing never
    fails once the random counter was drawn, because the cleared top bits keep
    it below the nonce limit. *)
Theorem dynamic_token_roundtrip `{PrimitiveLaws, ClaimsCodecLaws} (seed counter_bytes : bytes)
    (claims : DynamicTokenClaims) :
  length seed = KEY_LEN -> claims_wf claims ->
  exists token, issue_dynamic_token (Some counter_bytes) (encode_hex seed) claims = Ok token /\
    verify_dynamic_token (encode_hex seed) token = Ok claims.
Proof.
  intros Hseed Hc.
  assert (exists key, dynamic_token_key (encode_hex seed) = Ok key) as [key Hkey].
  { unfold dynamic_token_key. rewrite decode_encode_fixed_hex by done. run_result. eauto. }
  pose proof (dynamic_token_key_wf _ _ Hkey) as Hk.
  pose proof (token_counter_bound (of_le counter_bytes) ltac:(apply of_le_bound)) as Hn.
  destruct (seal_with_key_into_ok key TOKEN_CHANNEL _ (claims_to_binary claims) [] Hk Hn
    (claims_small claims)) as (c & t & Hs & Hf).
  rewrite app_nil_l in Hf.
  unfold issue_dynamic_token. rewrite Hkey. run_result. unfold seal_with_key. rewrite Hf.
  run_result. eexists. split; [done|]. unfold verify_dynamic_token.
  rewrite strip_prefix_app. run_result. rewrite decode_encode_hex. run_result. rewrite Hkey.
  run_result. rewrite (open_with_key_frame _ _ _ _ _ _ Hk Hn Hs). run_result.
  by rewrite claims_roundtrip.
Qed.

(** A derived dynamic user id is a 64-bit id of the upper half, so it never
    equals an id below [2^63]; and a recovery token is refused unless it carries
    the prefix and at least 32 bytes of hex. *)
Lemma derived_user_id_upper_half `{PrimitiveLaws} (seed_hex token : bytes) (id : Z) :
  dynamic_user_id_from_recovery_token seed_hex token = Ok id ->
  2 ^ 63 <= id < 2 ^ 64 /\
  exists hex secret, token = OPEN_PAIR_RECOVERY_PREFIX ++ hex /\ decode_hex hex = Ok secret /\
    (KEY_LEN <= length secret)%nat.
Proof.
  unfold dynamic_user_id_from_recovery_token, strip_prefix. case_decide as Hp; [|done]. run_result.
  destruct (decode_hex _) as [secret|] eqn:Ed; [|done]. run_result. case_decide as Hl; [done|].
  unfold dynamic_user_id_from_pairing_secret.
  destruct (decode_fixed_hex KEY_LEN seed_hex); [|done]. run_result. intros [= <-].
  split.
  - set (z := of_le _). assert (0 <= z < 2 ^ 64) as Hz.
    { subst z. pose proof (of_le_bound (take 8 (hmac_sha256 a
        (ascii_bytes "chatt open-pair recovery id v1" ++ secret)))) as Hb.
      unfold len in Hb. rewrite length_take, hmac_sha256_length in Hb. exact Hb. }
    by apply upper_half.
  - exists (drop (length OPEN_PAIR_RECOVERY_PREFIX) token), secret.
    rewrite <- Hp at 1. rewrite take_drop. split_and!; [done..|lia].
Qed.

(** Witness data: a codec of the claims, and the toy primitives. *)
Module ToyClaims.

#[export] Instance codec : ClaimsCodec := {
  claims_to_binary c := le_bytes 8 (claim_user_id c) ++ le_bytes 4 (password_epoch c);
  claims_from_binary b :=
    if decide (length b = 12%nat)
    then Some {| claim_user_id := of_le (take 8 b); password_epoch := of_le (drop 8 b) |} else None;
}.

#[export] Instance codec_laws : ClaimsCodecLaws.
Proof.
  split; cbn.
  - intros [u e] [Hu He]. cbn in *. rewrite take_app_length', drop_app_length' by (by rewrite length_le_bytes).
    by rewrite (of_le_le_bytes 8), (of_le_le_bytes 4).
  - intros c. unfold len. rewrite length_app, !length_le_bytes. vm_compute. done.
Qed.

End ToyClaims.

#[local] Existing Instance Toy.toy.
#[local] Existing Instance Toy.toy_laws.
#[local] Existing Instance ToyClaims.codec.
#[local] Existing Instance ToyClaims.codec_laws.

Lemma dynamic_token_roundtrip_witness :
  exists token,
    issue_dynamic_token (Some (replicate 8 Byte.xff)) (encode_hex (replicate 32 Byte.x41))
      {| claim_user_id := 77; password_epoch := 3 |} = Ok token /\
    verify_dynamic_token (encode_hex (replicate 32 Byte.x41)) token =
      Ok {| claim_user_id := 77; password_epoch := 3 |}.
Proof.
  apply (dynamic_token_roundtrip (replicate 32 Byte.x41) (replicate 8 Byte.xff)
    {| claim_user_id := 77; password_epoch := 3 |}); [reflexivity|split; decide_closed].
Defined.

