(* ===== verification/Media.v ===== *)
(** * The UDP media codec

    Models src/crates/rpc/src/media.rs: the payload kinds and their wire form,
    the datagram header, sealing and opening under a session's protection or
    under a raw peer key, with the anti-replay window threaded as state.  A
    borrowed payload ([MediaPayloadRef]) is its own type, as in the code; a
    borrowed slice is the list it points at. *)

From S2P Require Import Prelude Primitives Replay Transport Handshake Text Auth.

Definition UDP_VERSION : Z := 4.
Definition UDP_HEADER_LEN : nat := 14.
Definition SAFE_UDP_PAYLOAD_BYTES : nat := 1200.
Definition MAX_VOICE_PAYLOAD_BYTES : nat := 1024.
Definition MAX_SEALED_MEDIA_BYTES : nat := UDP_HEADER_LEN + SAFE_UDP_PAYLOAD_BYTES + TAG_LEN.
Definition VOICE_TCP_MAGIC : bytes := ascii_bytes "CHTVOI01".
Definition VOICE_TCP_MAX_FRAME_BYTES : nat := MAX_SEALED_MEDIA_BYTES.
Definition KIND_BIND : Z := 1.
Definition KIND_VOICE : Z := 2.
Definition KIND_PING : Z := 3.
Definition KIND_PONG : Z := 4.
Definition KIND_PEER_VOICE : Z := 5.
Definition KIND_NAT_PROBE : Z := 6.
Definition KIND_VOICE_FEEDBACK : Z := 7.
Definition KIND_PEER_VOICE_FEEDBACK : Z := 8.
Definition KIND_VOICE_FEEDBACK_FROM : Z := 9.
Definition VOICE_PAYLOAD_OPUS : Z := 0.
Definition VOICE_PAYLOAD_SILENCE : Z := 1.

Record UdpHeader := mkUdpHeader {
  hdr_version : Z;
  hdr_kind : Z;
  hdr_route_id : Z;
  hdr_counter : Z;
}.

Record VoiceFeedback := mkVoiceFeedback {
  highest_contiguous_sequence : Z;
  expected_packets : Z;
  lost_packets : Z;
  late_packets : Z;
  duplicate_packets : Z;
  reordered_packets : Z;
  window_ms : Z;
  max_output_ring_ms : Z;
  max_neteq_target_ms : Z;
  max_neteq_playout_delay_ms : Z;
  max_neteq_packet_buffer_ms : Z;
  max_interarrival_jitter_ms : Z;
}.

Module VoicePayload.

Inductive t := Opus (opus : bytes) | Silence.

Definition len (p : t) : nat := match p with Opus opus => length opus | Silence => 0 end.

Definition is_empty (p : t) : bool :=
  match p with Opus opus => bool_decide (opus = []) | Silence => true end.

End VoicePayload.

Module VoicePayloadRef.

Inductive t := Opus (opus : bytes) | Silence.

Definition len (p : t) : nat := match p with Opus opus => length opus | Silence => 0 end.

Definition is_empty (p : t) : bool :=
  match p with Opus opus => bool_decide (opus = []) | Silence => true end.

Definition into_owned (p : t) : VoicePayload.t :=
  match p with Opus opus => VoicePayload.Opus opus | Silence => VoicePayload.Silence end.

End VoicePayloadRef.

Module MediaPayloadRef.

Inductive t :=
| Bind
| NatProbe (probe_id : Z)
| Voice (stream_id sequence timestamp flags : Z) (payload : VoicePayloadRef.t)
| PeerVoice (connection_id stream_id sequence timestamp flags : Z) (payload : VoicePayloadRef.t)
| Feedback (stream_id : Z) (feedback : VoiceFeedback)
| PeerFeedback (connection_id stream_id : Z) (feedback : VoiceFeedback)
| FeedbackFrom (reporter stream_id : Z) (feedback : VoiceFeedback)
| Ping (nonce : Z) (observed_rtt_ms : option Z)
| Pong (nonce : Z).

Definition kind (p : t) : Z :=
  match p with
  | Bind => KIND_BIND
  | NatProbe _ => KIND_NAT_PROBE
  | Voice _ _ _ _ _ => KIND_VOICE
  | PeerVoice _ _ _ _ _ _ => KIND_PEER_VOICE
  | Feedback _ _ => KIND_VOICE_FEEDBACK
  | PeerFeedback _ _ _ => KIND_PEER_VOICE_FEEDBACK
  | FeedbackFrom _ _ _ => KIND_VOICE_FEEDBACK_FROM
  | Ping _ _ => KIND_PING
  | Pong _ => KIND_PONG
  end.

End MediaPayloadRef.

Module MediaPayload.

Inductive t :=
| Bind
| NatProbe (probe_id : Z)
| Voice (stream_id sequence timestamp flags : Z) (payload : VoicePayload.t)
| PeerVoice (connection_id stream_id sequence timestamp flags : Z) (payload : VoicePayload.t)
| Feedback (stream_id : Z) (feedback : VoiceFeedback)
| PeerFeedback (connection_id stream_id : Z) (feedback : VoiceFeedback)
| FeedbackFrom (reporter stream_id : Z) (feedback : VoiceFeedback)
| Ping (nonce : Z) (observed_rtt_ms : option Z)
| Pong (nonce : Z).

Definition kind (p : t) : Z :=
  match p with
  | Bind => KIND_BIND
  | NatProbe _ => KIND_NAT_PROBE
  | Voice _ _ _ _ _ => KIND_VOICE
  | PeerVoice _ _ _ _ _ _ => KIND_PEER_VOICE
  | Feedback _ _ => KIND_VOICE_FEEDBACK
  | PeerFeedback _ _ _ => KIND_PEER_VOICE_FEEDBACK
  | FeedbackFrom _ _ _ => KIND_VOICE_FEEDBACK_FROM
  | Ping _ _ => KIND_PING
  | Pong _ => KIND_PONG
  end.

Definition borrowed_voice (p : VoicePayload.t) : VoicePayloadRef.t :=
  match p with
  | VoicePayload.Opus opus => VoicePayloadRef.Opus opus
  | VoicePayload.Silence => VoicePayloadRef.Silence
  end.

Definition borrowed (p : t) : MediaPayloadRef.t :=
  match p with
  | Bind => MediaPayloadRef.Bind
  | NatProbe probe_id => MediaPayloadRef.NatProbe probe_id
  | Voice stream_id sequence timestamp flags payload =>
      MediaPayloadRef.Voice stream_id sequence timestamp flags (borrowed_voice payload)
  | PeerVoice connection_id stream_id sequence timestamp flags payload =>
      MediaPayloadRef.PeerVoice connection_id stream_id sequence timestamp flags (borrowed_voice payload)
  | Feedback stream_id feedback => MediaPayloadRef.Feedback stream_id feedback
  | PeerFeedback connection_id stream_id feedback =>
      MediaPayloadRef.PeerFeedback connection_id stream_id feedback
  | FeedbackFrom reporter stream_id feedback =>
      MediaPayloadRef.FeedbackFrom reporter stream_id feedback
  | Ping nonce observed_rtt_ms => MediaPayloadRef.Ping nonce observed_rtt_ms
  | Pong nonce => MediaPayloadRef.Pong nonce
  end.

(** [MediaPayloadRef::into_owned]. *)
Definition into_owned (p : MediaPayloadRef.t) : t :=
  match p with
  | MediaPayloadRef.Bind => Bind
  | MediaPayloadRef.NatProbe probe_id => NatProbe probe_id
  | MediaPayloadRef.Voice stream_id sequence timestamp flags payload =>
      Voice stream_id sequence timestamp flags (VoicePayloadRef.into_owned payload)
  | MediaPayloadRef.PeerVoice connection_id stream_id sequence timestamp flags payload =>
      PeerVoice connection_id stream_id sequence timestamp flags (VoicePayloadRef.into_owned payload)
  | MediaPayloadRef.Feedback stream_id feedback => Feedback stream_id feedback
  | MediaPayloadRef.PeerFeedback connection_id stream_id feedback =>
      PeerFeedback connection_id stream_id feedback
  | MediaPayloadRef.FeedbackFrom reporter stream_id feedback =>
      FeedbackFrom reporter stream_id feedback
  | MediaPayloadRef.Ping nonce observed_rtt_ms => Ping nonce observed_rtt_ms
  | MediaPayloadRef.Pong nonce => Pong nonce
  end.

End MediaPayload.

Inductive MediaError :=
| TooShort
| MediaUnsupportedVersion (version : Z)
| UnknownKind (kind : Z)
| PayloadTooLarge
| InvalidPayload
| MediaCrypto (e : CryptoError)
| MediaReplay.

Inductive MediaProtection :=
| MediaAead (route_id : Z) (send recv : KeyMaterial)
| MediaClear (route_id : Z) (bind_key : bytes).

Inductive AddressProof :=
| AuthenticatedDatagram
| AuthenticatedAddressClaim
| NoProof.

#[export] Instance KeyMaterial_dec : EqDecision KeyMaterial.
Proof. solve_decision. Defined.

#[export] Instance MediaProtection_dec : EqDecision MediaProtection.
Proof. solve_decision. Defined.

#[export] Instance AddressProof_dec : EqDecision AddressProof.
Proof. solve_decision. Defined.

Record OpenedMedia := mkOpened {
  opened_header : UdpHeader;
  opened_payload : MediaPayload.t;
  address_proof : AddressProof;
}.

Record OpenedMediaRef := mkOpenedRef {
  ref_header : UdpHeader;
  ref_payload : MediaPayloadRef.t;
  ref_address_proof : AddressProof;
}.

(** ** Payloads on the wire *)

Definition encode_voice_feedback (f : VoiceFeedback) (out : bytes) : bytes :=
  out ++ le_bytes 4 (highest_contiguous_sequence f) ++ le_bytes 2 (expected_packets f) ++
  le_bytes 2 (lost_packets f) ++ le_bytes 2 (late_packets f) ++ le_bytes 2 (duplicate_packets f) ++
  le_bytes 2 (reordered_packets f) ++ le_bytes 2 (window_ms f) ++ le_bytes 2 (max_output_ring_ms f) ++
  le_bytes 2 (max_neteq_target_ms f) ++ le_bytes 2 (max_neteq_playout_delay_ms f) ++
  le_bytes 2 (max_neteq_packet_buffer_ms f) ++ le_bytes 2 (max_interarrival_jitter_ms f).

(** The buffer after the call, and the result. *)
Definition encode_voice_payload (payload : VoicePayloadRef.t) (out : bytes)
    : bytes * result MediaError unit :=
  match payload with
  | VoicePayloadRef.Opus opus =>
      if decide (opus = [] \/ (MAX_VOICE_PAYLOAD_BYTES < length opus)%nat) then (out, Err PayloadTooLarge)
      else
        let out := out ++ [of_u8 VOICE_PAYLOAD_OPUS] in
        if decide (len opus < 2 ^ 16)
        then (out ++ le_bytes 2 (len opus) ++ opus, Ok tt)
        else (out, Err PayloadTooLarge)
  | VoicePayloadRef.Silence =>
      (out ++ [of_u8 VOICE_PAYLOAD_SILENCE] ++ le_bytes 2 0, Ok tt)
  end.

Definition encode_payload_ref_into (payload : MediaPayloadRef.t) (out : bytes)
    : bytes * result MediaError unit :=
  let out := out ++ [of_u8 (MediaPayloadRef.kind payload)] in
  match payload with
  | MediaPayloadRef.Bind => (out, Ok tt)
  | MediaPayloadRef.NatProbe probe_id => (out ++ [of_u8 probe_id], Ok tt)
  | MediaPayloadRef.Voice stream_id sequence timestamp flags payload =>
      encode_voice_payload payload
        (out ++ le_bytes 4 stream_id ++ le_bytes 4 sequence ++ le_bytes 4 timestamp ++ [of_u8 flags])
  | MediaPayloadRef.PeerVoice connection_id stream_id sequence timestamp flags payload =>
      encode_voice_payload payload
        (out ++ le_bytes 8 connection_id ++ le_bytes 4 stream_id ++ le_bytes 4 sequence ++
         le_bytes 4 timestamp ++ [of_u8 flags])
  | MediaPayloadRef.Feedback stream_id feedback =>
      (encode_voice_feedback feedback (out ++ le_bytes 4 stream_id), Ok tt)
  | MediaPayloadRef.PeerFeedback connection_id stream_id feedback =>
      (encode_voice_feedback feedback (out ++ le_bytes 8 connection_id ++ le_bytes 4 stream_id), Ok tt)
  | MediaPayloadRef.FeedbackFrom reporter stream_id feedback =>
      (encode_voice_feedback feedback (out ++ le_bytes 8 reporter ++ le_bytes 4 stream_id), Ok tt)
  | MediaPayloadRef.Ping nonce observed_rtt_ms =>
      let out := out ++ le_bytes 8 nonce in
      match observed_rtt_ms with
      | Some rtt_ms => (out ++ [of_u8 1] ++ le_bytes 2 rtt_ms, Ok tt)
      | None => (out ++ [of_u8 0], Ok tt)
      end
  | MediaPayloadRef.Pong nonce => (out ++ le_bytes 8 nonce, Ok tt)
  end.

Definition encode_payload_into (payload : MediaPayload.t) (out : bytes) : bytes * result MediaError unit :=
  encode_payload_ref_into (MediaPayload.borrowed payload) out.

Definition encode_payload (payload : MediaPayload.t) : result MediaError bytes :=
  let '(out, r) := encode_payload_into payload [] in
  (fun _ => out) <$> r.

Definition decode_voice_payload_ref (bs : bytes) : result MediaError VoicePayloadRef.t :=
  if decide (length bs < 3)%nat then Err InvalidPayload
  else
    let n := of_le (slice bs 1 3) in
    let tag := u8 (bs !!! 0%nat) in
    if decide (tag = VOICE_PAYLOAD_OPUS) then
      if decide (n = 0 \/ Z.of_nat MAX_VOICE_PAYLOAD_BYTES < n \/ len bs <> 3 + n) then Err InvalidPayload
      else Ok (VoicePayloadRef.Opus (drop 3 bs))
    else if decide (tag = VOICE_PAYLOAD_SILENCE) then
      if decide (n <> 0 \/ length bs <> 3%nat) then Err InvalidPayload
      else Ok VoicePayloadRef.Silence
    else Err InvalidPayload.

Definition decode_voice_feedback (bs : bytes) : result MediaError VoiceFeedback :=
  if decide (length bs <> 26%nat) then Err InvalidPayload
  else Ok {|
    highest_contiguous_sequence := of_le (slice bs 0 4);
    expected_packets := of_le (slice bs 4 6);
    lost_packets := of_le (slice bs 6 8);
    late_packets := of_le (slice bs 8 10);
    duplicate_packets := of_le (slice bs 10 12);
    reordered_packets := of_le (slice bs 12 14);
    window_ms := of_le (slice bs 14 16);
    max_output_ring_ms := of_le (slice bs 16 18);
    max_neteq_target_ms := of_le (slice bs 18 20);
    max_neteq_playout_delay_ms := of_le (slice bs 20 22);
    max_neteq_packet_buffer_ms := of_le (slice bs 22 24);
    max_interarrival_jitter_ms := of_le (slice bs 24 26) |}.

Definition decode_payload_ref (kind : Z) (bs : bytes) : result MediaError MediaPayloadRef.t :=
  match bs with
  | [] => Err InvalidPayload
  | payload_kind :: bs =>
    if decide (u8 payload_kind <> kind) then Err InvalidPayload
    else if decide (kind = KIND_BIND) then
      if decide (bs <> []) then Err InvalidPayload else Ok MediaPayloadRef.Bind
    else if decide (kind = KIND_NAT_PROBE) then
      if decide (length bs <> 1%nat) then Err InvalidPayload
      else Ok (MediaPayloadRef.NatProbe (u8 (bs !!! 0%nat)))
    else if decide (kind = KIND_VOICE) then
      if decide (length bs < 16)%nat then Err InvalidPayload
      else
        payload ← decode_voice_payload_ref (drop 13 bs);
        Ok (MediaPayloadRef.Voice (of_le (slice bs 0 4)) (of_le (slice bs 4 8))
              (of_le (slice bs 8 12)) (u8 (bs !!! 12%nat)) payload)
    else if decide (kind = KIND_PEER_VOICE) then
      if decide (length bs < 24)%nat then Err InvalidPayload
      else
        payload ← decode_voice_payload_ref (drop 21 bs);
        Ok (MediaPayloadRef.PeerVoice (of_le (slice bs 0 8)) (of_le (slice bs 8 12))
              (of_le (slice bs 12 16)) (of_le (slice bs 16 20)) (u8 (bs !!! 20%nat)) payload)
    else if decide (kind = KIND_VOICE_FEEDBACK) then
      if decide (length bs <> 30%nat) then Err InvalidPayload
      else
        feedback ← decode_voice_feedback (drop 4 bs);
        Ok (MediaPayloadRef.Feedback (of_le (slice bs 0 4)) feedback)
    else if decide (kind = KIND_PEER_VOICE_FEEDBACK) then
      if decide (length bs <> 38%nat) then Err InvalidPayload
      else
        feedback ← decode_voice_feedback (drop 12 bs);
        Ok (MediaPayloadRef.PeerFeedback (of_le (slice bs 0 8)) (of_le (slice bs 8 12)) feedback)
    else if decide (kind = KIND_VOICE_FEEDBACK_FROM) then
      if decide (length bs <> 38%nat) then Err InvalidPayload
      else
        feedback ← decode_voice_feedback (drop 12 bs);
        Ok (MediaPayloadRef.FeedbackFrom (of_le (slice bs 0 8)) (of_le (slice bs 8 12)) feedback)
    else if decide (kind = KIND_PING) then
      if decide (length bs <> 9%nat /\ length bs <> 11%nat) then Err InvalidPayload
      else
        let nonce := of_le (slice bs 0 8) in
        if decide (u8 (bs !!! 8%nat) = 0 /\ length bs = 9%nat) then Ok (MediaPayloadRef.Ping nonce None)
        else if decide (u8 (bs !!! 8%nat) = 1 /\ length bs = 11%nat)
        then Ok (MediaPayloadRef.Ping nonce (Some (of_le (slice bs 9 11))))
        else Err InvalidPayload
    else if decide (kind = KIND_PONG) then
      if decide (length bs <> 8%nat) then Err InvalidPayload
      else Ok (MediaPayloadRef.Pong (of_le bs))
    else Err (UnknownKind kind)
  end.

Definition decode_payload (kind : Z) (bs : bytes) : result MediaError MediaPayload.t :=
  MediaPayload.into_owned <$> decode_payload_ref kind bs.

Definition known_kinds : list Z :=
  [KIND_BIND; KIND_VOICE; KIND_PING; KIND_PONG; KIND_PEER_VOICE; KIND_NAT_PROBE;
   KIND_VOICE_FEEDBACK; KIND_PEER_VOICE_FEEDBACK; KIND_VOICE_FEEDBACK_FROM].

Definition parse_header (bs : bytes) : result MediaError (UdpHeader * bytes) :=
  if decide (length bs < UDP_HEADER_LEN)%nat then Err TooShort
  else
    let version := u8 (bs !!! 0%nat) in
    if decide (version <> UDP_VERSION) then Err (MediaUnsupportedVersion version)
    else
      let kind := u8 (bs !!! 1%nat) in
      if decide (kind ∈ known_kinds) then
        Ok ({| hdr_version := version; hdr_kind := kind;
               hdr_route_id := of_le (slice bs 2 6);
               hdr_counter := of_le (slice bs 6 14) |}, drop UDP_HEADER_LEN bs)
      else Err (UnknownKind kind).

(** ** Protection *)

Module MediaProtection.

Definition from_transport (t : SessionTransport) : MediaProtection :=
  match session_mode t with
  | Encrypted => MediaAead (Handshake.route_id t) (media_send (secrets t)) (media_recv (secrets t))
  | Plaintext => MediaClear (Handshake.route_id t) (bind_key t)
  end.

Definition route_id (p : MediaProtection) : Z :=
  match p with MediaAead route_id _ _ => route_id | MediaClear route_id _ => route_id end.

End MediaProtection.

Definition bind_proof_message (route_id kind counter : Z) : bytes :=
  ascii_bytes "chatt media bind proof v1" ++ le_bytes 4 route_id ++ [of_u8 kind] ++
  le_bytes 8 counter ++ [of_u8 (TransportMode.wire_id Plaintext)].

Section media.
Context `{Primitives}.

(** The header and plaintext of a datagram before protection, and its AAD. *)
Definition media_header (kind route_id counter : Z) : bytes :=
  [of_u8 UDP_VERSION; of_u8 kind] ++ le_bytes 4 route_id ++ le_bytes 8 counter.

Definition media_aad (packet : bytes) : bytes := of_u8 CHANNEL_MEDIA :: slice packet 2 UDP_HEADER_LEN.

(** [packet] and [scratch] are cleared first, so the call returns the new
    packet; what a failed call leaves in the buffers is not read. *)
Definition seal_media_ref_into (protection : MediaProtection) (counter : Z) (payload : MediaPayloadRef.t)
    : result MediaError bytes :=
  let kind := MediaPayloadRef.kind payload in
  let '(scratch, r) := encode_payload_ref_into payload [] in
  _ ← r;
  if decide (SAFE_UDP_PAYLOAD_BYTES < length scratch)%nat then Err PayloadTooLarge
  else
    let header := media_header kind (MediaProtection.route_id protection) counter in
    let cipher_start := length header in
    let packet := header ++ scratch in
    match protection with
    | MediaAead _ send _ =>
        map_err MediaCrypto
          (seal_in_place_append_tag send counter (media_aad packet) cipher_start packet)
    | MediaClear _ bind_key =>
        if decide (kind = KIND_BIND) then
          let message := bind_proof_message (MediaProtection.route_id protection) kind counter in
          Ok (packet ++ auth_proof bind_key message)
        else Ok packet
    end.

Definition seal_media (protection : MediaProtection) (counter : Z) (payload : MediaPayload.t)
    : result MediaError bytes :=
  seal_media_ref_into protection counter (MediaPayload.borrowed payload).

(** The window after the call, and the result. *)
Definition open_media (protection : MediaProtection) (replay : AntiReplay) (bs : bytes)
    : AntiReplay * result MediaError OpenedMedia :=
  match parse_header bs with
  | Err e => (replay, Err e)
  | Ok (header, body) =>
    if decide (hdr_route_id header <> MediaProtection.route_id protection)
    then (replay, Err (MediaCrypto WrongKeyId))
    else match protection with
    | MediaAead _ _ recv =>
        match open_in_place_with_aad recv (hdr_counter header) (media_aad bs) body with
        | Err e => (replay, Err (MediaCrypto e))
        | Ok (plaintext_len, buf) =>
            let buf := take plaintext_len buf in
            match decode_payload (hdr_kind header) buf with
            | Err e => (replay, Err e)
            | Ok payload =>
                let '(fresh, replay) := AntiReplay.update replay (hdr_counter header) in
                if negb fresh then (replay, Err MediaReplay)
                else (replay, Ok {| opened_header := header; opened_payload := payload;
                                    address_proof := AuthenticatedDatagram |})
            end
        end
    | MediaClear _ bind_key =>
        if decide (hdr_kind header = KIND_BIND) then
          if decide (length body < AUTH_PROOF_LEN)%nat then (replay, Err InvalidPayload)
          else
            let split := (length body - AUTH_PROOF_LEN)%nat in
            let payload_bytes := take split body in
            let proof := drop split body in
            let message := bind_proof_message (hdr_route_id header) (hdr_kind header) (hdr_counter header) in
            if negb (auth_proof_verify bind_key message proof)
            then (replay, Err (MediaCrypto BindProofMismatch))
            else match decode_payload (hdr_kind header) payload_bytes with
            | Err e => (replay, Err e)
            | Ok payload =>
                let '(fresh, replay) := AntiReplay.update replay (hdr_counter header) in
                if negb fresh then (replay, Err MediaReplay)
                else (replay, Ok {| opened_header := header; opened_payload := payload;
                                    address_proof := AuthenticatedAddressClaim |})
            end
        else
          (replay,
           payload ← decode_payload (hdr_kind header) body;
           Ok {| opened_header := header; opened_payload := payload; address_proof := NoProof |})
    end
  end.

Definition open_media_in_place (protection : MediaProtection) (replay : AntiReplay) (bs : bytes)
    : AntiReplay * result MediaError OpenedMediaRef :=
  match parse_header bs with
  | Err e => (replay, Err e)
  | Ok (header, _) =>
    if decide (hdr_route_id header <> MediaProtection.route_id protection)
    then (replay, Err (MediaCrypto WrongKeyId))
    else match protection with
    | MediaAead _ _ recv =>
        let body := drop UDP_HEADER_LEN bs in
        match open_in_place_with_aad recv (hdr_counter header) (media_aad bs) body with
        | Err e => (replay, Err (MediaCrypto e))
        | Ok (plaintext_len, body) =>
            match decode_payload_ref (hdr_kind header) (take plaintext_len body) with
            | Err e => (replay, Err e)
            | Ok payload =>
                let '(fresh, replay) := AntiReplay.update replay (hdr_counter header) in
                if negb fresh then (replay, Err MediaReplay)
                else (replay, Ok {| ref_header := header; ref_payload := payload;
                                    ref_address_proof := AuthenticatedDatagram |})
            end
        end
    | MediaClear _ bind_key =>
        let body := drop UDP_HEADER_LEN bs in
        if decide (hdr_kind header = KIND_BIND) then
          if decide (length body < AUTH_PROOF_LEN)%nat then (replay, Err InvalidPayload)
          else
            let split := (length body - AUTH_PROOF_LEN)%nat in
            let payload_bytes := take split body in
            let proof := drop split body in
            let message := bind_proof_message (hdr_route_id header) (hdr_kind header) (hdr_counter header) in
            if negb (auth_proof_verify bind_key message proof)
            then (replay, Err (MediaCrypto BindProofMismatch))
            else match decode_payload_ref (hdr_kind header) payload_bytes with
            | Err e => (replay, Err e)
            | Ok payload =>
                let '(fresh, replay) := AntiReplay.update replay (hdr_counter header) in
                if negb fresh then (replay, Err MediaReplay)
                else (replay, Ok {| ref_header := header; ref_payload := payload;
                                    ref_address_proof := AuthenticatedAddressClaim |})
            end
        else
          (replay,
           payload ← decode_payload_ref (hdr_kind header) body;
           Ok {| ref_header := header; ref_payload := payload; ref_address_proof := NoProof |})
    end
  end.

Definition seal_peer_media (key : KeyMaterial) (counter : Z) (payload : MediaPayload.t)
    : result MediaError bytes :=
  let kind := MediaPayload.kind payload in
  let '(scratch, r) := encode_payload_into payload [] in
  _ ← r;
  if decide (SAFE_UDP_PAYLOAD_BYTES < length scratch)%nat then Err PayloadTooLarge
  else
    let header := media_header kind (key_id key) counter in
    let cipher_start := length header in
    let packet := header ++ scratch in
    map_err MediaCrypto (seal_in_place_append_tag key counter (media_aad packet) cipher_start packet).

Definition open_peer_media (key : KeyMaterial) (replay : AntiReplay) (bs : bytes)
    : AntiReplay * result MediaError (UdpHeader * MediaPayload.t) :=
  match parse_header bs with
  | Err e => (replay, Err e)
  | Ok (header, body) =>
    if decide (hdr_route_id header <> key_id key) then (replay, Err (MediaCrypto WrongKeyId))
    else match open_in_place_with_aad key (hdr_counter header) (media_aad bs) body with
    | Err e => (replay, Err (MediaCrypto e))
    | Ok (plaintext_len, buf) =>
        let buf := take plaintext_len buf in
        match decode_payload (hdr_kind header) buf with
        | Err e => (replay, Err e)
        | Ok payload =>
            let '(fresh, replay) := AntiReplay.update replay (hdr_counter header) in
            if negb fresh then (replay, Err MediaReplay)
            else (replay, Ok (header, payload))
        end
    end
  end.

End media.

(** ** Lemmas: the payload codec *)

Definition feedback_wf (f : VoiceFeedback) : Prop :=
  is_u32 (highest_contiguous_sequence f) /\ is_u16 (expected_packets f) /\ is_u16 (lost_packets f) /\
  is_u16 (late_packets f) /\ is_u16 (duplicate_packets f) /\ is_u16 (reordered_packets f) /\
  is_u16 (window_ms f) /\ is_u16 (max_output_ring_ms f) /\ is_u16 (max_neteq_target_ms f) /\
  is_u16 (max_neteq_playout_delay_ms f) /\ is_u16 (max_neteq_packet_buffer_ms f) /\
  is_u16 (max_interarrival_jitter_ms f).

(** A voice payload the wire format can carry. *)
Definition voice_wf (p : VoicePayloadRef.t) : Prop :=
  match p with
  | VoicePayloadRef.Opus opus => opus <> [] /\ (length opus <= MAX_VOICE_PAYLOAD_BYTES)%nat
  | VoicePayloadRef.Silence => True
  end.

(** Every field in the range of its Rust type, and a carriable voice payload. *)
Definition payload_wf (p : MediaPayloadRef.t) : Prop :=
  match p with
  | MediaPayloadRef.Bind => True
  | MediaPayloadRef.NatProbe id => is_u8 id
  | MediaPayloadRef.Voice s q t f v => is_u32 s /\ is_u32 q /\ is_u32 t /\ is_u8 f /\ voice_wf v
  | MediaPayloadRef.PeerVoice c s q t f v =>
      is_u64 c /\ is_u32 s /\ is_u32 q /\ is_u32 t /\ is_u8 f /\ voice_wf v
  | MediaPayloadRef.Feedback s f => is_u32 s /\ feedback_wf f
  | MediaPayloadRef.PeerFeedback c s f => is_u64 c /\ is_u32 s /\ feedback_wf f
  | MediaPayloadRef.FeedbackFrom r s f => is_u64 r /\ is_u32 s /\ feedback_wf f
  | MediaPayloadRef.Ping n r => is_u64 n /\ match r with Some r => is_u16 r | None => True end
  | MediaPayloadRef.Pong n => is_u64 n
  end.

Lemma u8_of_u8_id z : is_u8 z -> u8 (of_u8 z) = z.
Proof. intros. rewrite u8_of_u8. by apply Z.mod_small. Qed.

Lemma encode_voice_feedback_out f out : encode_voice_feedback f out = out ++ encode_voice_feedback f [].
Proof. done. Qed.

Lemma decode_encode_feedback f : feedback_wf f -> decode_voice_feedback (encode_voice_feedback f []) = Ok f.
Proof.
  destruct f. unfold feedback_wf, encode_voice_feedback, decode_voice_feedback. cbn [
    highest_contiguous_sequence expected_packets lost_packets late_packets duplicate_packets
    reordered_packets window_ms max_output_ring_ms max_neteq_target_ms max_neteq_playout_delay_ms
    max_neteq_packet_buffer_ms max_interarrival_jitter_ms].
  intros (? & ? & ? & ? & ? & ? & ? & ? & ? & ? & ? & ?).
  expose_fields. rewrite decide_False by (intros E; by apply E).
  cut_slices. do 2 f_equal; auto.
Qed.

Lemma encode_decode_feedback bs f :
  decode_voice_feedback bs = Ok f -> feedback_wf f /\ encode_voice_feedback f [] = bs.
Proof.
  unfold decode_voice_feedback. case_decide as Hl; [done|].
  do 26 (destruct bs as [|? bs]; [done|]). destruct bs; [|done].
  intros [= <-]. cut_slices. split.
  - unfold feedback_wf. cbn. split_and!; auto with wire.
  - unfold encode_voice_feedback. cbn [
      highest_contiguous_sequence expected_packets lost_packets late_packets duplicate_packets
      reordered_packets window_ms max_output_ring_ms max_neteq_target_ms max_neteq_playout_delay_ms
      max_neteq_packet_buffer_ms max_interarrival_jitter_ms].
    by autorewrite with wire.
Qed.

(** The bytes of a voice payload. *)
Definition voice_wire (v : VoicePayloadRef.t) : bytes :=
  match v with
  | VoicePayloadRef.Opus opus => [of_u8 VOICE_PAYLOAD_OPUS] ++ le_bytes 2 (len opus) ++ opus
  | VoicePayloadRef.Silence => [of_u8 VOICE_PAYLOAD_SILENCE] ++ le_bytes 2 0
  end.

Lemma encode_voice_wf v out : voice_wf v -> encode_voice_payload v out = (out ++ voice_wire v, Ok tt).
Proof.
  destruct v as [opus|]; [|done]. intros [Hn Hl]. unfold encode_voice_payload, MAX_VOICE_PAYLOAD_BYTES in *.
  rewrite decide_False by (intros [?|?]; [done|lia]).
  rewrite decide_True by (unfold len; lia). unfold voice_wire. by rewrite <- (assoc_L (++)).
Qed.

Lemma encode_voice_inv v out out' :
  encode_voice_payload v out = (out', Ok tt) -> voice_wf v /\ out' = out ++ voice_wire v.
Proof.
  intros E. assert (voice_wf v) as Hv.
  { destruct v as [opus|]; [|done]. unfold encode_voice_payload in E. case_decide as Hd; [done|].
    split; [|lia]. intros ->. apply Hd. by left. }
  split; [done|]. rewrite encode_voice_wf in E by done. by simplify_eq.
Qed.

Lemma decode_voice_wire v : voice_wf v -> decode_voice_payload_ref (voice_wire v) = Ok v.
Proof.
  destruct v as [opus|]; [|intros _; vm_compute; reflexivity]. intros [Hn Hl].
  unfold MAX_VOICE_PAYLOAD_BYTES in *. unfold voice_wire.
  assert (Hu : is_u16 (len opus)) by (unfold is_u, len; lia).
  assert (0 < len opus) by (destruct opus; [done|unfold len; simpl; lia]).
  destruct (field2 (len opus)) as (a & b & -> & Hr). specialize (Hr Hu).
  unfold decode_voice_payload_ref. cut_slices.
  rewrite decide_False by lia. rewrite Hr. change (u8 _) with 0. rewrite decide_True by done.
  rewrite decide_False; [done|]. rewrite !len_cons. unfold MAX_VOICE_PAYLOAD_BYTES, len in *. lia.
Qed.

Lemma decode_voice_inv bs v : decode_voice_payload_ref bs = Ok v -> voice_wf v /\ voice_wire v = bs.
Proof.
  unfold decode_voice_payload_ref. destruct (decide (length bs < 3)%nat); [done|].
  explode bs 3%nat. rename b into tag, b0 into x, b1 into y.
  change ((tag :: x :: y :: bs) !!! 0%nat) with tag. cut_slices.
  destruct (decide (u8 tag = VOICE_PAYLOAD_OPUS)) as [Et|].
  - case_decide as Hc; [done|]. intros [= <-]. rewrite !len_cons in Hc.
    unfold MAX_VOICE_PAYLOAD_BYTES in *. split.
    + split; [|unfold MAX_VOICE_PAYLOAD_BYTES, len in *; lia]. intros ->. unfold len in Hc. simpl in Hc. lia.
    + unfold voice_wire. rewrite <- Et, of_u8_u8. replace (len bs) with (of_le [x; y]) by lia.
      by rewrite unfield2.
  - destruct (decide (u8 tag = VOICE_PAYLOAD_SILENCE)) as [Et|]; [|done].
    case_decide as Hc; [done|]. intros [= <-]. split; [done|].
    unfold voice_wire. rewrite <- Et, of_u8_u8.
    assert (of_le [x; y] = 0) as <- by lia. rewrite unfield2. destruct bs; [done|simpl in Hc; lia].
Qed.

(** The bytes of a payload. *)
Definition payload_wire (p : MediaPayloadRef.t) : bytes :=
  of_u8 (MediaPayloadRef.kind p) ::
  match p with
  | MediaPayloadRef.Bind => []
  | MediaPayloadRef.NatProbe id => [of_u8 id]
  | MediaPayloadRef.Voice s q t f v => le_bytes 4 s ++ le_bytes 4 q ++ le_bytes 4 t ++ of_u8 f :: voice_wire v
  | MediaPayloadRef.PeerVoice c s q t f v =>
      le_bytes 8 c ++ le_bytes 4 s ++ le_bytes 4 q ++ le_bytes 4 t ++ of_u8 f :: voice_wire v
  | MediaPayloadRef.Feedback s f => le_bytes 4 s ++ encode_voice_feedback f []
  | MediaPayloadRef.PeerFeedback c s f => le_bytes 8 c ++ le_bytes 4 s ++ encode_voice_feedback f []
  | MediaPayloadRef.FeedbackFrom r s f => le_bytes 8 r ++ le_bytes 4 s ++ encode_voice_feedback f []
  | MediaPayloadRef.Ping n (Some r) => le_bytes 8 n ++ of_u8 1 :: le_bytes 2 r
  | MediaPayloadRef.Ping n None => le_bytes 8 n ++ [of_u8 0]
  | MediaPayloadRef.Pong n => le_bytes 8 n
  end.

Lemma encode_payload_wf p out :
  payload_wf p -> encode_payload_ref_into p out = (out ++ payload_wire p, Ok tt).
Proof.
  unfold encode_payload_ref_into, payload_wire. destruct p as [| | | | | | |n [r|]|]; cbn [payload_wf];
    intros; rewrite ?encode_voice_wf, ?(encode_voice_feedback_out _ (_ ++ _)) by tauto;
    by rewrite <- ?(assoc_L (++)).
Qed.

Lemma encode_payload_inv p out out' :
  encode_payload_ref_into p out = (out', Ok tt) -> out' = out ++ payload_wire p.
Proof.
  unfold encode_payload_ref_into, payload_wire. destruct p as [| | | | | | |n [r|]|];
    intros E; try (apply encode_voice_inv in E as [_ ->]); simplify_eq;
    rewrite ?(encode_voice_feedback_out _ (_ ++ _)); by rewrite <- ?(assoc_L (++)).
Qed.

Lemma length_feedback f : length (encode_voice_feedback f []) = 26%nat.
Proof. unfold encode_voice_feedback. by autorewrite with wire. Qed.

Lemma length_voice_wire v :
  voice_wf v -> (3 <= length (voice_wire v) <= 3 + MAX_VOICE_PAYLOAD_BYTES)%nat.
Proof.
  destruct v as [opus|]; unfold voice_wire, MAX_VOICE_PAYLOAD_BYTES in *.
  - intros [? ?]. unfold MAX_VOICE_PAYLOAD_BYTES in *. rewrite !length_app, length_le_bytes. cbn [length]. lia.
  - intros _. vm_compute. lia.
Qed.

Lemma decode_payload_wire p :
  payload_wf p -> decode_payload_ref (MediaPayloadRef.kind p) (payload_wire p) = Ok p.
Proof.
  intros Hp. unfold decode_payload_ref, payload_wire.
  rewrite u8_of_u8_id by (destruct p; decide_closed). rewrite decide_False by auto.

  destruct p as [|id|s q t f v|c s q t f v|s f|c s f|c s f|n [r|]|n]; cbn [MediaPayloadRef.kind payload_wf] in *;
    settle_constants; expose_fields; cut_slices.
  - done.
  - cbn. by rewrite u8_of_u8_id.
  - destruct Hp as (? & ? & ? & ? & Hv). pose proof (length_voice_wire v Hv).
    rewrite decide_False by lia. rewrite decode_voice_wire by done. run_result.
    do 2 f_equal; auto. cbn. by apply u8_of_u8_id.
  - destruct Hp as (? & ? & ? & ? & ? & Hv). pose proof (length_voice_wire v Hv).
    rewrite decide_False by lia. rewrite decode_voice_wire by done. run_result.
    do 2 f_equal; auto. cbn. by apply u8_of_u8_id.
  - destruct Hp as [? ?]. rewrite decode_encode_feedback by done.
    run_result. do 2 f_equal; auto.
  - destruct Hp as (? & ? & ?). rewrite decode_encode_feedback by done.
    run_result. do 2 f_equal; auto.
  - destruct Hp as (? & ? & ?). rewrite decode_encode_feedback by done.
    run_result. do 2 f_equal; auto.
  - destruct Hp. rewrite decide_False by lia. cbn. do 3 f_equal; auto.
  - destruct Hp. rewrite decide_False by lia. cbn. do 3 f_equal; auto.
  - do 2 f_equal. auto.
Qed.

(** Closes the case of a payload of fixed fields: ranges, then the bytes. *)
Ltac fixed_fields :=
  cut_slices; cbn [payload_wf MediaPayloadRef.kind payload_wire];
  split; [repeat match goal with |- _ /\ _ => split end; auto with wire|]; split; [by symmetry|];
  unfold payload_wire; cbn [MediaPayloadRef.kind]; autorewrite with wire; cbn [app].

Lemma decode_payload_inv k bs p :
  decode_payload_ref (u8 k) (k :: bs) = Ok p ->
  payload_wf p /\ MediaPayloadRef.kind p = u8 k /\ payload_wire p = k :: bs.
Proof.
  unfold decode_payload_ref. rewrite decide_False by auto.
  destruct (decide (u8 k = KIND_BIND)) as [E|_].
  { case_decide; [done|]. subst bs. intros [= <-].
    split; [done|]. split; [done|]. unfold payload_wire. cbn. by rewrite <- E, of_u8_u8. }
  destruct (decide (u8 k = KIND_NAT_PROBE)) as [E|_].
  { case_decide; [done|]. explode bs 1%nat. destruct bs; [|done]. intros [= <-].
    fixed_fields. by rewrite <- E, of_u8_u8. }
  destruct (decide (u8 k = KIND_VOICE)) as [E|_].
  { destruct (decide _); [done|]. explode bs 13%nat. cut_slices.
    destruct (decode_voice_payload_ref bs) as [v|] eqn:Ev; [|done]. run_result. intros [= <-].
    apply decode_voice_inv in Ev as [Hv Hw]. fixed_fields. by rewrite <- E, of_u8_u8, Hw. }
  destruct (decide (u8 k = KIND_PEER_VOICE)) as [E|_].
  { destruct (decide _); [done|]. explode bs 21%nat. cut_slices.
    destruct (decode_voice_payload_ref bs) as [v|] eqn:Ev; [|done]. run_result. intros [= <-].
    apply decode_voice_inv in Ev as [Hv Hw]. fixed_fields. by rewrite <- E, of_u8_u8, Hw. }
  destruct (decide (u8 k = KIND_VOICE_FEEDBACK)) as [E|_].
  { case_decide; [done|]. explode bs 4%nat. cut_slices.
    destruct (decode_voice_feedback bs) as [f|] eqn:Ev; [|done]. run_result. intros [= <-].
    apply encode_decode_feedback in Ev as [Hv Hw]. fixed_fields. by rewrite <- E, of_u8_u8, Hw. }
  destruct (decide (u8 k = KIND_PEER_VOICE_FEEDBACK)) as [E|_].
  { case_decide; [done|]. explode bs 12%nat. cut_slices.
    destruct (decode_voice_feedback bs) as [f|] eqn:Ev; [|done]. run_result. intros [= <-].
    apply encode_decode_feedback in Ev as [Hv Hw]. fixed_fields. by rewrite <- E, of_u8_u8, Hw. }
  destruct (decide (u8 k = KIND_VOICE_FEEDBACK_FROM)) as [E|_].
  { case_decide; [done|]. explode bs 12%nat. cut_slices.
    destruct (decode_voice_feedback bs) as [f|] eqn:Ev; [|done]. run_result. intros [= <-].
    apply encode_decode_feedback in Ev as [Hv Hw]. fixed_fields. by rewrite <- E, of_u8_u8, Hw. }
  destruct (decide (u8 k = KIND_PING)) as [E|_].
  { destruct (decide _); [done|]. destruct (decide _) as [[E8 Hl]|_].
    - explode bs 9%nat. destruct bs; [|done]. cut_slices. intros [= <-]. fixed_fields.
      cbn in E8. by rewrite <- E, of_u8_u8, <- E8, of_u8_u8.
    - destruct (decide _) as [[E8 Hl]|_]; [|done].
      explode bs 11%nat. destruct bs; [|done]. cut_slices. intros [= <-]. fixed_fields.
      cbn in E8. by rewrite <- E, of_u8_u8, <- E8, of_u8_u8. }
  destruct (decide (u8 k = KIND_PONG)) as [E|_]; [|done].
  case_decide; [done|]. explode bs 8%nat. destruct bs; [|done]. intros [= <-].
  fixed_fields. by rewrite <- E, of_u8_u8.
Qed.

(** ** Lemmas: datagrams *)

Lemma owned_borrowed p : MediaPayload.into_owned (MediaPayload.borrowed p) = p.
Proof. by destruct p as [| |? ? ? ? []|? ? ? ? ? []| | | | |]. Qed.

Lemma borrowed_owned p : MediaPayload.borrowed (MediaPayload.into_owned p) = p.
Proof. by destruct p as [| |? ? ? ? []|? ? ? ? ? []| | | | |]. Qed.

Lemma kind_borrowed p : MediaPayloadRef.kind (MediaPayload.borrowed p) = MediaPayload.kind p.
Proof. by destruct p. Qed.

Lemma kind_known p : MediaPayloadRef.kind p ∈ known_kinds.
Proof. destruct p; decide_closed. Qed.

Lemma known_kind_u8 k : k ∈ known_kinds -> is_u8 k.
Proof.
  assert (Forall is_u8 known_kinds) as HF by decide_closed.
  rewrite Forall_forall in HF. apply HF.
Qed.

Lemma length_media_header k r c : length (media_header k r c) = UDP_HEADER_LEN.
Proof. unfold media_header. by autorewrite with wire. Qed.

Lemma media_aad_header k r c rest :
  media_aad (media_header k r c ++ rest) = of_u8 CHANNEL_MEDIA :: le_bytes 4 r ++ le_bytes 8 c.
Proof. reflexivity. Qed.

Lemma parse_media_header k r c rest :
  k ∈ known_kinds -> is_u32 r -> is_u64 c ->
  parse_header (media_header k r c ++ rest) =
  Ok ({| hdr_version := UDP_VERSION; hdr_kind := k; hdr_route_id := r; hdr_counter := c |}, rest).
Proof.
  intros Hk Hr Hc. unfold parse_header.
  rewrite drop_app_length' by (by rewrite length_media_header).
  rewrite decide_False by (rewrite length_app, length_media_header; lia).
  unfold media_header. expose_fields. cbn [app].
  change (u8 ((_ :: _) !!! 0%nat)) with UDP_VERSION. rewrite decide_False by auto.
  match goal with |- context [u8 ((?a :: of_u8 k :: ?l) !!! 1%nat)] =>
    change (u8 ((a :: of_u8 k :: l) !!! 1%nat)) with (u8 (of_u8 k)) end.
  rewrite u8_of_u8_id by by apply known_kind_u8. rewrite decide_True by done.
  cut_slices. do 3 f_equal; auto.
Qed.

(** Where the plaintext of a datagram starts, and what was parsed from it. *)
Lemma parse_header_inv bs h body :
  parse_header bs = Ok (h, body) ->
  hdr_version h = UDP_VERSION /\ (hdr_kind h ∈ known_kinds) /\ is_u32 (hdr_route_id h) /\
  is_u64 (hdr_counter h) /\ body = drop UDP_HEADER_LEN bs /\
  bs = media_header (hdr_kind h) (hdr_route_id h) (hdr_counter h) ++ body.
Proof.
  unfold parse_header. case_decide as Hl; [done|]. unfold UDP_HEADER_LEN in *.
  explode bs 14%nat. case_decide as Hv; [done|]. case_decide as Hk; [|done]. intros [= <- <-].
  cut_slices. cbn [hdr_version hdr_kind hdr_route_id hdr_counter].
  split; [exact Hv|]. split; [exact Hk|]. split; [auto with wire|]. split; [auto with wire|].
  split; [done|]. unfold media_header. cbn in Hv |- *. rewrite <- Hv, !of_u8_u8.
  by autorewrite with wire.
Qed.

Lemma payload_kind_bind p : MediaPayload.kind p = KIND_BIND -> p = MediaPayload.Bind.
Proof. by destruct p. Qed.

Lemma decode_kind k bs p : decode_payload_ref k bs = Ok p -> MediaPayloadRef.kind p = k.
Proof.
  destruct bs as [|b bs]; [done|]. intros E. assert (k = u8 b) as ->.
  { unfold decode_payload_ref in E. case_decide as Hk; [done|]. by symmetry. }
  by apply decode_payload_inv in E as (_ & ? & _).
Qed.

Section datagrams.
Context `{PrimitiveLaws}.

(** The sealed body of a datagram with header fields [k], [r], [c]. *)
Definition is_sealed (key : KeyMaterial) (k r c : Z) (p : MediaPayloadRef.t) (body : bytes) : Prop :=
  exists x t, body = x ++ t /\
    aead_seal (key_bytes key) (nonce_from_counter c)
      (of_u8 CHANNEL_MEDIA :: le_bytes 4 r ++ le_bytes 8 c) (payload_wire p) = Some (x, t).

Lemma payload_wire_length p out :
  encode_payload_ref_into p out = (out ++ payload_wire p, Ok tt) -> (length (payload_wire p) <= 1049)%nat.
Proof.
  intros E. destruct p as [| |s q t f v|c s q t f v| | | |n [r|]|]; unfold payload_wire.
  all: try (cbn [length]; rewrite ?length_app, ?length_feedback, ?length_le_bytes; cbn [length]; rewrite ?length_le_bytes; lia).
  - unfold encode_payload_ref_into in E. apply encode_voice_inv in E as [Hv _].
    apply length_voice_wire in Hv. unfold MAX_VOICE_PAYLOAD_BYTES in *.
    cbn [length]. rewrite !length_app, !length_le_bytes. cbn [length]. lia.
  - unfold encode_payload_ref_into in E. apply encode_voice_inv in E as [Hv _].
    apply length_voice_wire in Hv. unfold MAX_VOICE_PAYLOAD_BYTES in *.
    cbn [length]. rewrite !length_app, !length_le_bytes. cbn [length]. lia.
Qed.

Lemma seal_in_place_header key k r c p :
  key_wf key -> 0 <= c < REJECT_AFTER_MESSAGES -> (length (payload_wire p) <= 1049)%nat ->
  exists body, is_sealed key k r c p body /\
    seal_in_place_append_tag key c (media_aad (media_header k r c ++ payload_wire p))
      (length (media_header k r c)) (media_header k r c ++ payload_wire p) =
    Ok (media_header k r c ++ body).
Proof.
  intros [_ Hk] Hc Hl. unfold seal_in_place_append_tag.
  rewrite decide_False, (unbound_key_32 _ Hk), drop_app_length, take_app_length, media_aad_header by lia.
  edestruct (aead_seal_total (key_bytes key) (nonce_from_counter c)
    (of_u8 CHANNEL_MEDIA :: le_bytes 4 r ++ le_bytes 8 c) (payload_wire p)) as [[x t] E];
    [by apply unbound_key_32|apply length_nonce|unfold len, AEAD_MAX; lia|].
  rewrite E. exists (x ++ t). split; [by exists x, t|done].
Qed.

Lemma open_in_place_sealed key k r c p body :
  key_wf key -> 0 <= c < REJECT_AFTER_MESSAGES -> is_sealed key k r c p body ->
  exists buf, open_in_place_with_aad key c (media_aad (media_header k r c ++ body)) body =
    Ok (length (payload_wire p), payload_wire p ++ buf).
Proof.
  intros [_ Hk] Hc (x & t & -> & E). unfold open_in_place_with_aad.
  rewrite decide_False, (unbound_key_32 _ Hk), media_aad_header by lia.
  rewrite (aead_open_seal _ _ _ _ _ _ E). eauto.
Qed.

End datagrams.

(** The two ends of a media lane: what one seals the other opens. *)
Definition media_linked (s r : MediaProtection) : Prop :=
  match s, r with
  | MediaAead id send _, MediaAead id' _ recv => id = id' /\ is_u32 id /\ send = recv /\ key_wf send
  | MediaClear id key, MediaClear id' key' => id = id' /\ is_u32 id /\ key = key'
  | _, _ => False
  end.

Lemma mirrored_media c s :
  mirrored c s -> session_keys_wf c ->
  media_linked (MediaProtection.from_transport c) (MediaProtection.from_transport s) /\
  media_linked (MediaProtection.from_transport s) (MediaProtection.from_transport c).
Proof.
  intros [Hm _ _ Hu Hd Hr Hb _] (_ & _ & Hks & Hkr & Hid & _). unfold MediaProtection.from_transport.
  rewrite <- Hm. destruct (session_mode c); simpl; rewrite <- ?Hu, <- ?Hd, <- ?Hb, <- ?Hr; naive_solver.
Qed.

(** How far the receiver can trust a datagram it opened. *)
Definition proof_of (p : MediaProtection) (kind : Z) : AddressProof :=
  match p with
  | MediaAead _ _ _ => AuthenticatedDatagram
  | MediaClear _ _ => if decide (kind = KIND_BIND) then AuthenticatedAddressClaim else NoProof
  end.

(** The window after a datagram was accepted: authenticated ones use a counter. *)
Definition window_after (p : MediaProtection) (kind counter : Z) (r : AntiReplay) : AntiReplay :=
  match proof_of p kind with
  | NoProof => r
  | _ => (AntiReplay.update r counter).2
  end.

Section properties.
Context `{PrimitiveLaws}.

(** What sealing produces, by protection. *)
Lemma seal_media_cases p c payload packet (m := MediaPayload.borrowed payload) (k := MediaPayload.kind payload) :
  seal_media p c payload = Ok packet ->
  encode_payload_ref_into m [] = (payload_wire m, Ok tt) /\
  exists body, packet = media_header k (MediaProtection.route_id p) c ++ body /\
    match p with
    | MediaAead id send _ => length body = (length (payload_wire m) + TAG_LEN)%nat
    | MediaClear id key => body = payload_wire m ++
        (if decide (k = KIND_BIND) then auth_proof key (bind_proof_message id k c) else [])
    end.
Proof.
  unfold seal_media, seal_media_ref_into. fold m. rewrite (kind_borrowed payload : MediaPayloadRef.kind m = k).
  destruct (encode_payload_ref_into m []) as [scratch [[]|]] eqn:E; [|done]. run_result.
  pose proof E as Ew. apply encode_payload_inv in Ew. rewrite app_nil_l in Ew. subst scratch.
  case_decide; [done|]. destruct p as [id send recv|id key]; cbn [MediaProtection.route_id].
  - unfold seal_in_place_append_tag. case_decide; [done|]. case_match; [|done].
    rewrite drop_app_length, take_app_length. destruct (aead_seal _ _ _ _) as [[x t]|] eqn:Es; [|done].
    intros [= <-]. split; [done|]. exists (x ++ t). split; [done|].
    apply aead_seal_length in Es as [? ?]. rewrite length_app. unfold TAG_LEN. lia.
  - intros Hok. split; [done|]. case_decide; injection Hok as <-.
    + exists (payload_wire m ++ auth_proof key (bind_proof_message id k c)). by rewrite (assoc_L (++)).
    + exists (payload_wire m). by rewrite app_nil_r.
Qed.

(** A payload the types allow is encoded, and decoding the bytes under its
    own kind gives it back; every other kind byte refuses them. *)
Lemma payload_roundtrip (p : MediaPayload.t) (kind : Z) :
  payload_wf (MediaPayload.borrowed p) ->
  exists bs, encode_payload p = Ok bs /\
    decode_payload kind bs =
    if decide (kind = MediaPayload.kind p) then Ok p else Err InvalidPayload.
Proof.
  intros Hp. exists (payload_wire (MediaPayload.borrowed p)). split.
  - unfold encode_payload, encode_payload_into. by rewrite encode_payload_wf.
  - unfold decode_payload. destruct (decide (kind = MediaPayload.kind p)) as [->|Hk].
    + rewrite <- kind_borrowed, decode_payload_wire by done. run_result. by rewrite owned_borrowed.
    + unfold decode_payload_ref, payload_wire. rewrite decide_True; [done|].
      rewrite u8_of_u8_id by (apply known_kind_u8, kind_known). by rewrite kind_borrowed.
Qed.

(** Whatever bytes an attacker sends, decoding accepts them only if they
    are the one wire form of a well-formed payload of that kind: encoding the
    result gives the same bytes back, so no trailing or ambiguous byte is ever
    tolerated. *)
Lemma payload_canonical (kind : Z) (bs : bytes) (p : MediaPayload.t) :
  decode_payload kind bs = Ok p ->
  MediaPayload.kind p = kind /\ payload_wf (MediaPayload.borrowed p) /\ encode_payload p = Ok bs.
Proof.
  unfold decode_payload. destruct (decode_payload_ref kind bs) as [r|] eqn:E; [|done].
  run_result. intros [= <-]. destruct bs as [|k bs]; [done|].
  assert (kind = u8 k) as ->.
  { unfold decode_payload_ref in E. case_decide as Hk; [done|]. by symmetry. }
  apply decode_payload_inv in E as (Hwf & Hk & Hw).
  rewrite borrowed_owned, <- kind_borrowed, borrowed_owned. split; [done|]. split; [done|].
  unfold encode_payload, encode_payload_into. by rewrite borrowed_owned, encode_payload_wf, Hw.
Qed.

(** C15: the payload codec is a bijection between the payloads the types allow
    and the byte strings decoding accepts: bytes decode under a kind to a payload
    exactly when the payload is well formed, of that kind, and encodes to those
    bytes, so whatever an attacker sends no trailing or ambiguous byte is
    tolerated; and every well-formed payload encodes. *)
Theorem payload_codec (kind : Z) (bs : bytes) (p : MediaPayload.t) :
  (decode_payload kind bs = Ok p <->
   MediaPayload.kind p = kind /\ payload_wf (MediaPayload.borrowed p) /\ encode_payload p = Ok bs) /\
  (payload_wf (MediaPayload.borrowed p) -> exists bs, encode_payload p = Ok bs).
Proof.
  split.
  - split; [apply payload_canonical|]. intros (Hk & Hwf & He). destruct (payload_roundtrip p kind Hwf) as (bs' & He' & Hd).
    rewrite He' in He. injection He as ->. by rewrite decide_True in Hd.
  - intros Hwf. destruct (payload_roundtrip p kind Hwf) as (bs' & He & _). eauto.
Qed.

Lemma seal_open_media (s r : MediaProtection) (replay : AntiReplay) (c : Z) (p : MediaPayload.t)
    (kind := MediaPayload.kind p) :
  media_linked s r -> payload_wf (MediaPayload.borrowed p) -> 0 <= c < REJECT_AFTER_MESSAGES ->
  AntiReplay.check replay c = true ->
  exists packet, seal_media s c p = Ok packet /\
    open_media r replay packet =
    (window_after r kind c replay,
     Ok {| opened_header := {| hdr_version := UDP_VERSION; hdr_kind := kind;
                               hdr_route_id := MediaProtection.route_id s; hdr_counter := c |};
           opened_payload := p; address_proof := proof_of r kind |}).
Proof.
  intros Hl Hp Hc Hf. pose proof (counter_u64 c Hc) as Hu. subst kind.
  pose proof (kind_known (MediaPayload.borrowed p)) as Hk. rewrite kind_borrowed in Hk.
  pose proof (encode_payload_wf _ [] Hp) as Henc. pose proof (payload_wire_length _ _ Henc) as Hlen.
  rewrite app_nil_l in Henc. pose proof (decode_payload_wire _ Hp) as Hdec. rewrite kind_borrowed in Hdec.
  pose proof (update_accepts _ _ Hf) as Hup.
  unfold seal_media, seal_media_ref_into. rewrite Henc, kind_borrowed. run_result.
  rewrite decide_False by (unfold SAFE_UDP_PAYLOAD_BYTES; lia).
  unfold open_media, window_after. destruct s as [id ks kr|id ks], r as [id' ks' kr'|id' ks']; try done.
  - destruct Hl as (<- & Hid & <- & Hkey). cbn [MediaProtection.route_id proof_of].
    destruct (seal_in_place_header ks (MediaPayload.kind p) id c _ Hkey Hc Hlen) as (body & Hs & ->).
    run_result. eexists. split; [done|]. rewrite parse_media_header by done. cbn [hdr_route_id hdr_counter hdr_kind].
    rewrite decide_False by auto.
    destruct (open_in_place_sealed ks _ id c _ body Hkey Hc Hs) as [buf ->].
    rewrite take_app_length. unfold decode_payload. rewrite Hdec. run_result.
    destruct (AntiReplay.update replay c) as [b r']. simpl in Hup. subst b. cbn. by rewrite owned_borrowed.
  - destruct Hl as (<- & Hid & <-). cbn [MediaProtection.route_id proof_of].
    destruct (decide (MediaPayload.kind p = KIND_BIND)) as [Hb|Hb].
    + set (proof := auth_proof ks (bind_proof_message id (MediaPayload.kind p) c)).
      assert (length proof = AUTH_PROOF_LEN) as Hpl by apply length_auth_proof.
      eexists. split; [done|]. rewrite <- (assoc_L (++)), parse_media_header by done.
      cbn [hdr_route_id hdr_counter hdr_kind]. rewrite decide_False, decide_True by auto.
      rewrite length_app, Hpl, decide_False, Nat.add_sub, take_app_length, drop_app_length by lia.
      rewrite (proj2 (auth_proof_verify_iff ks _ proof) eq_refl). cbn [negb].
      unfold decode_payload. rewrite Hdec. run_result.
      destruct (AntiReplay.update replay c) as [b r']. simpl in Hup. subst b. cbn. by rewrite owned_borrowed.
    + eexists. split; [done|]. rewrite parse_media_header by done.
      cbn [hdr_route_id hdr_counter hdr_kind]. rewrite decide_False, decide_False by auto.
      unfold decode_payload. rewrite Hdec. run_result. by rewrite owned_borrowed.
Qed.

(** C17: a datagram sealed at one end of a session and opened at the other, in
    either transport mode, yields the same payload, kind, route and counter,
    with the address proof the mode promises; sealing succeeds for every
    well-formed payload until the counter is exhausted. *)
Theorem media_roundtrip (s r : MediaProtection) (replay : AntiReplay) (c : Z) (p : MediaPayload.t)
    (kind := MediaPayload.kind p) :
  media_linked s r -> payload_wf (MediaPayload.borrowed p) -> 0 <= c < REJECT_AFTER_MESSAGES ->
  AntiReplay.check replay c = true ->
  exists packet, seal_media s c p = Ok packet /\
    open_media r replay packet =
    (window_after r kind c replay,
     Ok {| opened_header := {| hdr_version := UDP_VERSION; hdr_kind := kind;
                               hdr_route_id := MediaProtection.route_id s; hdr_counter := c |};
           opened_payload := p; address_proof := proof_of r kind |}).
Proof. apply seal_open_media. Qed.

(** What a datagram says apart from the replay window: an error, a payload
    accepted without proof, or one whose counter the window decides about. *)
Lemma open_media_verdict p bs :
  exists v : result MediaError OpenedMedia,
    (forall o, v = Ok o -> is_u64 (hdr_counter (opened_header o))) /\
    forall r, open_media p r bs =
      match v with
      | Err e => (r, Err e)
      | Ok o =>
          if decide (address_proof o = NoProof) then (r, Ok o)
          else let '(fresh, r') := AntiReplay.update r (hdr_counter (opened_header o)) in
               (r', if fresh then Ok o else Err MediaReplay)
      end.
Proof.
  unfold open_media. destruct (parse_header bs) as [[h body]|e] eqn:Eh; [|by exists (Err e)].
  apply parse_header_inv in Eh as (_ & _ & _ & Hc & _).
  assert (forall (payload : MediaPayload.t) (proof : AddressProof) (o : OpenedMedia),
    Ok (mkOpened h payload proof) = Ok (E := MediaError) o -> is_u64 (hdr_counter (opened_header o))) as Hu
    by (by intros payload proof o [= <-]).
  case_decide; [by exists (Err (MediaCrypto WrongKeyId))|]. destruct p as [id ks kr|id key].
  - destruct (open_in_place_with_aad _ _ _ _) as [[n buf]|e]; [|by exists (Err (MediaCrypto e))].
    destruct (decode_payload _ _) as [payload|e]; [|by exists (Err e)].
    exists (Ok (mkOpened h payload AuthenticatedDatagram)). split; [apply Hu|].
    intros r. cbn. by destruct (AntiReplay.update r _) as [[] r2].
  - case_decide.
    2:{ destruct (decode_payload _ _) as [payload|e]; [|by exists (Err e)].
        by exists (Ok (mkOpened h payload NoProof)); split; [apply Hu|]. }
    case_decide; [by exists (Err InvalidPayload)|].
    destruct (auth_proof_verify _ _ _); [|by exists (Err (MediaCrypto BindProofMismatch))].
    destruct (decode_payload _ _) as [payload|e]; [|by exists (Err e)].
    exists (Ok (mkOpened h payload AuthenticatedAddressClaim)). split; [apply Hu|].
    intros r. cbn. by destruct (AntiReplay.update r _) as [[] r2].
Qed.

Lemma open_refused_window (p : MediaProtection) (r r' : AntiReplay) (bs : bytes) (e : MediaError) :
  open_media p r bs = (r', Err e) -> r' = r.
Proof.
  destruct (open_media_verdict p bs) as ([o|e'] & _ & ->); [|congruence]. case_decide; [congruence|].
  destruct (AntiReplay.update r _) as [[] r2] eqn:E; [congruence|]. apply update_refused in E. congruence.
Qed.

(** C18: a datagram that is refused, for whatever reason, leaves the replay
    window exactly as it was: no forged, malformed or replayed datagram uses up
    a counter slot of the session. *)
Theorem refused_media_keeps_window (p : MediaProtection) (r r' : AntiReplay) (bs : bytes) (e : MediaError) :
  open_media p r bs = (r', Err e) -> r' = r.
Proof. apply open_refused_window. Qed.

(** The window of counters accepted with proof, along one datagram: nothing is
    forgotten, a counter already there is never accepted again, and the bytes of
    an accepted datagram are accepted by no window that has seen its counter. *)
Lemma open_window p r w bs r' res :
  refines r w -> open_media p r bs = (r', res) ->
  exists w', refines r' w' /\ (Window.seen w ⊆ Window.seen w') /\
    forall o, res = Ok o -> address_proof o <> NoProof ->
      (hdr_counter (opened_header o) ∉ Window.seen w) /\ (hdr_counter (opened_header o) ∈ Window.seen w') /\
      forall r2 w2, refines r2 w2 -> hdr_counter (opened_header o) ∈ Window.seen w2 ->
        open_media p r2 bs = (r2, Err MediaReplay).
Proof.
  intros Hr. destruct (open_media_verdict p bs) as ([o|e] & Hu & Hv); rewrite Hv.
  2:{ intros [= <- <-]. by exists w. }
  case_decide as Hp; [intros [= <- <-]; exists w; split_and!; [done..|]; intros ? [= <-] ?; contradiction|].
  destruct (Hu o eq_refl) as [Hc _]. pose proof (update_refines r w _ Hr Hc) as Hup.
  destruct (AntiReplay.update r (hdr_counter (opened_header o))) as [fresh r1].
  pose proof (step_true w (hdr_counter (opened_header o))) as Hin.
  assert (forall x, x ∈ Window.seen w -> x ∈ Window.seen (Window.step w (hdr_counter (opened_header o))).2) as Hsub
    by (intros x Hx; by apply step_seen).
  assert (fresh = true -> hdr_counter (opened_header o) ∉ Window.seen w) as Hfresh.
  { intros -> Hx. destruct (step_seen w (hdr_counter (opened_header o)) _ Hx) as [_ Hno].
    destruct (Window.step w _) as [b w']. destruct Hup as [<- _]. by specialize (Hno eq_refl). }
  destruct (Window.step w (hdr_counter (opened_header o))) as [b w']. destruct Hup as [<- Hw'].
  intros [= <- <-]. exists w'. split; [done|]. split; [exact Hsub|]. intros o' Eo _. destruct fresh; [|done].
  injection Eo as <-. split; [by apply Hfresh|]. split; [by apply Hin|]. intros r2 w2 Hr2 Hs2. rewrite Hv.
  destruct (step_seen w2 (hdr_counter (opened_header o)) _ Hs2) as [_ Hno]. specialize (Hno eq_refl).
  pose proof (update_refines r2 w2 _ Hr2 Hc) as Hup2.
  destruct (AntiReplay.update r2 (hdr_counter (opened_header o))) as [f2 r3] eqn:E2.
  destruct (Window.step w2 _) as [b2 w3]. cbn in Hno. destruct Hup2 as [-> _]. subst b2.
  by apply update_refused in E2 as ->.
Qed.

(** Datagrams opened one after another with one window. *)
Fixpoint open_all (p : MediaProtection) (r : AntiReplay) (packets : list bytes)
    : AntiReplay * list (result MediaError OpenedMedia) :=
  match packets with
  | [] => (r, [])
  | bs :: packets =>
      let '(r, res) := open_media p r bs in
      let '(r, outcomes) := open_all p r packets in
      (r, res :: outcomes)
  end.

Lemma open_all_cons p r bs packets :
  (open_all p r (bs :: packets)).2 =
  (open_media p r bs).2 :: (open_all p (open_media p r bs).1 packets).2.
Proof. simpl. destruct (open_media p r bs) as [r' res]. simpl. by destruct (open_all p r' packets). Qed.

(** A counter the window has seen is accepted at no later place of a run. *)
Lemma open_all_seen p packets r w c j o :
  refines r w -> c ∈ Window.seen w -> (open_all p r packets).2 !! j = Some (Ok o) ->
  address_proof o <> NoProof -> hdr_counter (opened_header o) <> c.
Proof.
  revert r w j. induction packets as [|bs packets IH]; intros r w j Hr Hc; [done|].
  rewrite open_all_cons. destruct (open_media p r bs) as [r' res] eqn:E. cbn [fst snd].
  destruct (open_window _ _ _ _ _ _ Hr E) as (w' & Hw' & Hsub & Hres). destruct j as [|j]; simpl.
  - intros [= ->] Hp. destruct (Hres o eq_refl Hp) as [Hnot _]. intros <-. by apply Hnot.
  - intros Hj Hp. eapply IH; eauto.
Qed.

(** Bytes that every window having seen [c] refuses are refused at every later place. *)
Lemma open_all_replayed p packets r w c bs j :
  refines r w -> c ∈ Window.seen w ->
  (forall r2 w2, refines r2 w2 -> c ∈ Window.seen w2 -> open_media p r2 bs = (r2, Err MediaReplay)) ->
  packets !! j = Some bs -> (open_all p r packets).2 !! j = Some (Err MediaReplay).
Proof.
  intros Hr Hc Hrep. revert r w j Hr Hc. induction packets as [|b packets IH]; intros r w j Hr Hc; [done|].
  rewrite open_all_cons. destruct j as [|j]; simpl; [intros [= ->]; by rewrite (Hrep r w)|].
  destruct (open_media p r b) as [r' res] eqn:E. destruct (open_window _ _ _ _ _ _ Hr E) as (w' & Hw' & Hsub & _).
  cbn [fst]. intros Hj. eapply IH; eauto.
Qed.

(** C19: over any run of datagrams opened one after another with a session's
    window, whatever comes between them, an authenticated datagram is accepted
    at most once: the same bytes at any later place are refused as a replay, and
    no later datagram is accepted with the same authenticated counter. *)
Theorem accepted_media_not_replayable (p : MediaProtection) (packets : list bytes) (i j : nat) (o : OpenedMedia) :
  (open_all p AntiReplay.new packets).2 !! i = Some (Ok o) -> address_proof o <> NoProof -> (i < j)%nat ->
  (forall bs, packets !! i = Some bs -> packets !! j = Some bs ->
     (open_all p AntiReplay.new packets).2 !! j = Some (Err MediaReplay)) /\
  (forall o', (open_all p AntiReplay.new packets).2 !! j = Some (Ok o') -> address_proof o' <> NoProof ->
     hdr_counter (opened_header o') <> hdr_counter (opened_header o)).
Proof.
  intros Hi Hp. revert i j Hi. generalize refines_new. generalize Window.empty AntiReplay.new.
  induction packets as [|b packets IH]; intros w r Hr i j; [done|]. rewrite !open_all_cons.
  destruct (open_media p r b) as [r' res] eqn:E. destruct (open_window _ _ _ _ _ _ Hr E) as (w' & Hw' & _ & Hres).
  cbn [fst snd]. destruct j as [|j]; [lia|]. destruct i as [|i]; simpl; [|intros Hi Hij; apply (IH w' r'); auto; lia].
  intros [= ->] _. destruct (Hres o eq_refl Hp) as (_ & Hin & Hrep). split.
  - intros bs [= ->] Hj. by eapply open_all_replayed.
  - intros o' Ho' Hp'. by eapply open_all_seen.
Qed.

(** The result of the in-place path, made owned. *)
Definition opened_owned (o : OpenedMediaRef) : OpenedMedia :=
  {| opened_header := ref_header o; opened_payload := MediaPayload.into_owned (ref_payload o);
     address_proof := ref_address_proof o |}.

Lemma open_in_place_owned (p : MediaProtection) (r : AntiReplay) (bs : bytes) :
  let '(r1, o1) := open_media_in_place p r bs in
  open_media p r bs = (r1, opened_owned <$> o1).
Proof.
  unfold open_media, open_media_in_place, decode_payload.
  destruct (parse_header bs) as [[h body]|] eqn:Eh; [|done].
  apply parse_header_inv in Eh as (_ & _ & _ & _ & -> & _).
  case_decide; [done|]. destruct p as [id ks kr|id key].
  - destruct (open_in_place_with_aad _ _ _ _) as [[n buf]|]; [|done].
    destruct (decode_payload_ref _ _); [|done]. run_result.
    by destruct (AntiReplay.update r _) as [[] r2].
  - case_decide.
    + case_decide; [done|]. destruct (auth_proof_verify _ _ _); [|done].
      destruct (decode_payload_ref _ _); [|done]. run_result.
      by destruct (AntiReplay.update r _) as [[] r2].
    + by destruct (decode_payload_ref _ _).
Qed.

(** C20: the relay's in-place path, which decrypts inside the receive buffer
    and borrows the voice bytes, gives the payload, the error and the window of
    the copying path on every input. *)
Theorem open_media_in_place_equiv (p : MediaProtection) (r : AntiReplay) (bs : bytes) :
  let '(r1, o1) := open_media_in_place p r bs in
  open_media p r bs = (r1, opened_owned <$> o1).
Proof. apply open_in_place_owned. Qed.

(** The facts above, for the in-place path. *)
Lemma in_place_window p r w bs r' res :
  refines r w -> open_media_in_place p r bs = (r', res) ->
  exists w', refines r' w' /\ (Window.seen w ⊆ Window.seen w') /\
  match res with
  | Err _ => r' = r
  | Ok o => ref_address_proof o <> NoProof ->
      (hdr_counter (ref_header o) ∈ Window.seen w') /\
      forall r2 w2, refines r2 w2 -> hdr_counter (ref_header o) ∈ Window.seen w2 ->
        open_media_in_place p r2 bs = (r2, Err MediaReplay)
  end.
Proof.
  intros Hr E. pose proof (open_in_place_owned p r bs) as Ho. rewrite E in Ho.
  destruct (open_window _ _ _ _ _ _ Hr Ho) as (w' & Hw' & Hsub & Hres). exists w'. split; [done|]. split; [done|].
  destruct res as [o|e]; [|by eapply open_refused_window]. intros Hp.
  destruct (Hres (opened_owned o) eq_refl Hp) as (_ & Hin & Hrep). split; [exact Hin|].
  intros r2 w2 Hr2 Hin2. specialize (Hrep r2 w2 Hr2 Hin2).
  pose proof (open_in_place_owned p r2 bs) as Ho'. destruct (open_media_in_place p r2 bs) as [r3 o2].
  rewrite Hrep in Ho'. injection Ho' as <- Heq. destruct o2 as [o2|e2]; [discriminate|]. by injection Heq as <-.
Qed.

(** A sealed datagram never exceeds [MAX_SEALED_MEDIA_BYTES], the receive
    buffer and TCP frame cap, and sealing answers [PayloadTooLarge] exactly for
    an empty or oversized Opus payload. *)
Lemma sealed_media_size (p : MediaProtection) (c : Z) (payload : MediaPayload.t) :
  match seal_media p c payload with
  | Ok packet => (length packet <= MAX_SEALED_MEDIA_BYTES)%nat
  | Err PayloadTooLarge =>
      exists opus, (opus = [] \/ (MAX_VOICE_PAYLOAD_BYTES < length opus)%nat) /\
        match payload with
        | MediaPayload.Voice _ _ _ _ v | MediaPayload.PeerVoice _ _ _ _ _ v => v = VoicePayload.Opus opus
        | _ => False
        end
  | Err e => exists e', e = MediaCrypto e'
  end.
Proof.
  destruct (seal_media p c payload) as [packet|e] eqn:E.
  - apply seal_media_cases in E as (Henc & body & -> & Hb).
    pose proof (payload_wire_length _ [] Henc) as Hl. rewrite length_app, length_media_header.
    unfold MAX_SEALED_MEDIA_BYTES, SAFE_UDP_PAYLOAD_BYTES, UDP_HEADER_LEN, TAG_LEN in *.
    destruct p; [lia|]. rewrite Hb, length_app. case_decide; [rewrite length_auth_proof|];
      unfold AUTH_PROOF_LEN; cbn [length]; lia.
  - revert E. unfold seal_media, seal_media_ref_into.
    destruct (encode_payload_ref_into _ []) as [scratch [[]|e']] eqn:Ee; run_result.
    + pose proof Ee as Ew. apply encode_payload_inv in Ew. rewrite app_nil_l in Ew. subst scratch.
      pose proof (payload_wire_length _ [] Ee).
      rewrite decide_False by (unfold SAFE_UDP_PAYLOAD_BYTES; lia).
      destruct p as [id ks kr|id key]; [|by case_decide].
      destruct (seal_in_place_append_tag _ _ _ _ _); [done|]. cbn. intros [= <-]. eauto.
    + intros [= <-]. unfold encode_payload_ref_into in Ee.
      destruct payload as [| |s q t f [o|]|x s q t f [o|]| | | |n [rt|]|];
        cbn [MediaPayload.borrowed MediaPayload.borrowed_voice] in Ee; try discriminate;
        unfold encode_voice_payload in Ee;
        (destruct (decide (o = [] \/ (MAX_VOICE_PAYLOAD_BYTES < length o)%nat)) as [Ho|Ho];
         [injection Ee as _ <-; by exists o|]);
        (destruct (decide (len o < 2 ^ 16)) as [|Hbig]; [discriminate|]);
        exfalso; apply Hbig; unfold MAX_VOICE_PAYLOAD_BYTES, len in *; lia.
Qed.

(** The proven message determines the route, the kind and the counter. *)
Lemma bind_proof_message_inj r1 k1 c1 r2 k2 c2 :
  is_u32 r1 -> is_u8 k1 -> is_u64 c1 -> is_u32 r2 -> is_u8 k2 -> is_u64 c2 ->
  bind_proof_message r1 k1 c1 = bind_proof_message r2 k2 c2 -> r1 = r2 /\ k1 = k2 /\ c1 = c2.
Proof.
  intros Hr1 Hk1 Hc1 Hr2 Hk2 Hc2 Eq. apply app_inv_head in Eq.
  apply app_inj_1 in Eq as [Er Eq]; [|by rewrite !length_le_bytes].
  apply (app_inj_1 [of_u8 k1] [of_u8 k2]) in Eq as [Ek Eq]; [|done].
  apply app_inj_1 in Eq as [Ec _]; [|by rewrite !length_le_bytes].
  split; [by apply (le_bytes_inj 4)|]. split; [|by apply (le_bytes_inj 8)].
  injection Ek as Ek. rewrite <- (u8_of_u8_id k1), <- (u8_of_u8_id k2) by done. by rewrite Ek.
Qed.

(** C22: in plaintext mode, a datagram counts as an address claim only if it
    carries the HMAC proof, under the session's bind key, of its own route id,
    kind and counter, and the message proven is that of no other route id, kind
    or counter: a spoofed datagram cannot rebind a session, and a captured proof
    proves nothing of another session or counter. *)
Theorem address_claim_needs_proof (id : Z) (key : bytes) (r r' : AntiReplay) (bs : bytes) (o : OpenedMedia) :
  open_media (MediaClear id key) r bs = (r', Ok o) -> address_proof o <> NoProof ->
  address_proof o = AuthenticatedAddressClaim /\ opened_payload o = MediaPayload.Bind /\
  hdr_route_id (opened_header o) = id /\
  drop (length bs - AUTH_PROOF_LEN) bs =
    auth_proof key (bind_proof_message id KIND_BIND (hdr_counter (opened_header o))) /\
  (forall id' kind' counter', is_u32 id' -> is_u8 kind' -> is_u64 counter' ->
     bind_proof_message id' kind' counter' =
       bind_proof_message id KIND_BIND (hdr_counter (opened_header o)) ->
     id' = id /\ kind' = KIND_BIND /\ counter' = hdr_counter (opened_header o)).
Proof.
  unfold open_media. destruct (parse_header bs) as [[h body]|] eqn:Eh; [|congruence].
  apply parse_header_inv in Eh as (_ & _ & Hid32 & Hc64 & -> & Hbs). case_decide as Hid; [congruence|].
  cbn [MediaProtection.route_id] in Hid.
  destruct (decide (hdr_kind h = KIND_BIND)) as [Hk|].
  2:{ intros Hok Hn. destruct (decode_payload _ _); [|done]. injection Hok as <- <-. by destruct Hn. }
  case_decide as Hlen; [congruence|].
  destruct (auth_proof_verify _ _ _) eqn:Ev; cbn [negb]; [|congruence].
  destruct (decode_payload _ _) as [pl|] eqn:Ed; [|congruence].
  destruct (AntiReplay.update r _) as [[] r2]; cbn [negb]; [|congruence]. intros [= <- <-] _.
  cbn [opened_header opened_payload address_proof]. apply auth_proof_verify_iff in Ev. rewrite Hk, Hid in *.
  split; [done|]. split; [|split; [done|split]].
  - apply payload_kind_bind. unfold decode_payload in Ed.
    destruct (decode_payload_ref _ _) as [rp|] eqn:Er; [|done]. injection Ed as <-.
    rewrite <- kind_borrowed, borrowed_owned. by eapply decode_kind.
  - rewrite <- Ev, drop_drop. f_equal. rewrite length_drop in *. unfold UDP_HEADER_LEN, AUTH_PROOF_LEN in *. lia.
  - intros id' kind' counter' ? ? ?. apply bind_proof_message_inj; try done.
Qed.

End properties.

(** Witness data: a session in each mode over the toy primitives. *)
#[local] Existing Instance Toy.toy.
#[local] Existing Instance Toy.toy_laws.

Module Datagrams.

Definition key : KeyMaterial := {| key_id := 9; key_bytes := replicate 32 Byte.x07 |}.
Definition sealed_lane : MediaProtection := MediaAead 77 key key.
Definition clear_lane : MediaProtection := MediaClear 77 (replicate 32 Byte.x03).
Definition voice : MediaPayload.t :=
  MediaPayload.Voice 5 10 960 1 (VoicePayload.Opus (ascii_bytes "opus")).
Definition packet (p : MediaProtection) (c : Z) (m : MediaPayload.t) : bytes :=
  match seal_media p c m with Ok b => b | Err _ => [] end.

End Datagrams.

(** C15 at a pong, in both directions. *)
Lemma payload_codec_witness :
  decode_payload KIND_PONG (of_u8 4 :: le_bytes 8 513) = Ok (MediaPayload.Pong 513) /\
  encode_payload (MediaPayload.Pong 513) = Ok (of_u8 4 :: le_bytes 8 513) /\
  exists bs, encode_payload Datagrams.voice = Ok bs.
Proof.
  destruct (payload_codec KIND_PONG (of_u8 4 :: le_bytes 8 513) (MediaPayload.Pong 513)) as [[Hd He] _].
  assert (decode_payload KIND_PONG (of_u8 4 :: le_bytes 8 513) = Ok (MediaPayload.Pong 513)) as E by (vm_compute; reflexivity).
  split; [exact E|]. split; [apply (Hd E)|].
  apply (payload_codec KIND_VOICE [] Datagrams.voice). cbn. unfold is_u, MAX_VOICE_PAYLOAD_BYTES.
  split_and!; first [lia | discriminate].
Defined.

Lemma media_roundtrip_witness :
  exists packet, seal_media Datagrams.clear_lane 12 MediaPayload.Bind = Ok packet /\
    (open_media Datagrams.clear_lane AntiReplay.new packet).2 =
    Ok {| opened_header := {| hdr_version := 4; hdr_kind := 1; hdr_route_id := 77; hdr_counter := 12 |};
          opened_payload := MediaPayload.Bind; address_proof := AuthenticatedAddressClaim |}.
Proof.
  destruct (media_roundtrip Datagrams.clear_lane Datagrams.clear_lane AntiReplay.new 12 MediaPayload.Bind)
    as (packet & Hs & Ho).
  - split; [reflexivity|]. split; [decide_closed|reflexivity].
  - exact I.
  - rewrite reject_bound. lia.
  - vm_compute. reflexivity.
  - exists packet. split; [exact Hs|]. rewrite Ho. reflexivity.
Defined.

Lemma refused_media_keeps_window_witness :
  (open_media Datagrams.sealed_lane AntiReplay.new (ascii_bytes "junk")).1 = AntiReplay.new.
Proof.
  apply (refused_media_keeps_window Datagrams.sealed_lane AntiReplay.new
    (open_media Datagrams.sealed_lane AntiReplay.new (ascii_bytes "junk")).1 (ascii_bytes "junk") TooShort).
  vm_compute. reflexivity.
Defined.

Lemma accepted_media_not_replayable_witness :
  let voice c := Datagrams.packet Datagrams.sealed_lane c Datagrams.voice in
  let packets := [voice 3; voice 900; voice 900; voice 3] in
  (open_all Datagrams.sealed_lane AntiReplay.new packets).2 !! 3%nat = Some (Err MediaReplay).
Proof.
  intros voice packets.
  refine (proj1 (accepted_media_not_replayable Datagrams.sealed_lane packets 0 3
    {| opened_header := {| hdr_version := 4; hdr_kind := 2; hdr_route_id := 77; hdr_counter := 3 |};
       opened_payload := Datagrams.voice; address_proof := AuthenticatedDatagram |} _ _ _) (voice 3) _ _).
  - vm_compute. reflexivity.
  - discriminate.
  - lia.
  - reflexivity.
  - reflexivity.
Defined.

Lemma address_claim_needs_proof_witness :
  let bs := Datagrams.packet Datagrams.clear_lane 12 MediaPayload.Bind in
  drop (length bs - AUTH_PROOF_LEN) bs =
    auth_proof (replicate 32 Byte.x03) (bind_proof_message 77 KIND_BIND 12).
Proof.
  intros bs.
  refine (proj1 (proj2 (proj2 (proj2 (address_claim_needs_proof 77 (replicate 32 Byte.x03) AntiReplay.new
    (open_media Datagrams.clear_lane AntiReplay.new bs).1 bs
    {| opened_header := {| hdr_version := 4; hdr_kind := 1; hdr_route_id := 77; hdr_counter := 12 |};
       opened_payload := MediaPayload.Bind; address_proof := AuthenticatedAddressClaim |} _ _))))).
  - vm_compute. reflexivity.
  - discriminate.
Defined.
