(* ===== verification/Frame.v ===== *)
(** * Length-prefixed frames

    Models src/crates/rpc/src/frame.rs: the four-byte length prefix of the
    control and voice-fallback streams, with its size limit. *)

From S2P Require Import Prelude Media.

Definition MAX_FRAME_LEN : Z := 256 * 1024.
Definition LENGTH_PREFIX_LEN : nat := 4.

Inductive FrameError := Incomplete | TooLarge | LengthOverflow.

(** The buffer after the call, and the result. *)
Definition encode_frame (payload out : bytes) : bytes * result FrameError unit :=
  if decide (len payload > MAX_FRAME_LEN) then (out, Err TooLarge)
  else if decide (len payload < 2 ^ 32) then
    (out ++ le_bytes 4 (len payload) ++ payload, Ok tt)
  else (out, Err LengthOverflow).

Definition parse_frame_with_limit (buffer : bytes) (max_frame_len : Z)
    : result FrameError (option (bytes * Z)) :=
  match get_range buffer 0 (Z.of_nat LENGTH_PREFIX_LEN) with
  | None => Ok None
  | Some prefix =>
      let n := of_le prefix in
      if decide (n > max_frame_len) then Err TooLarge
      else
        let total := Z.of_nat LENGTH_PREFIX_LEN + n in
        match get_range buffer (Z.of_nat LENGTH_PREFIX_LEN) total with
        | None => Ok None
        | Some payload => Ok (Some (payload, total))
        end
  end.

Definition parse_frame (buffer : bytes) : result FrameError (option (bytes * Z)) :=
  parse_frame_with_limit buffer MAX_FRAME_LEN.

(** ** Lemmas *)

Lemma get_range_app {A} (l k : list A) a b x : get_range l a b = Some x -> get_range (l ++ k) a b = Some x.
Proof.
  unfold get_range. destruct (decide (0 <= a <= b /\ b <= len l)) as [[? ?]|]; [|done].
  intros [= <-]. rewrite decide_True by (rewrite len_app; pose proof (len_nonneg k); lia).
  unfold slice, len in *. f_equal. rewrite drop_app_le, take_app_le; [done| |lia].
  rewrite length_drop. lia.
Qed.

Lemma get_range_mid {A} (l h k : list A) a b :
  a = len l -> b = a + len h -> get_range (l ++ h ++ k) a b = Some h.
Proof.
  intros -> ->. pose proof (len_nonneg l). pose proof (len_nonneg h). pose proof (len_nonneg k).
  unfold get_range. rewrite decide_True by (rewrite !len_app; lia).
  f_equal. apply slice_mid; unfold len in *; lia.
Qed.

(** One frame's bytes. *)
Definition framed (payload : bytes) : bytes := le_bytes 4 (len payload) ++ payload.

Lemma len_framed p : len (framed p) = 4 + len p.
Proof. unfold framed, len. rewrite length_app, length_le_bytes. lia. Qed.

Lemma encode_frame_ok p out :
  len p <= MAX_FRAME_LEN -> encode_frame p out = (out ++ framed p, Ok tt).
Proof. intros. unfold encode_frame, MAX_FRAME_LEN in *. by rewrite decide_False, decide_True by lia. Qed.

Lemma parse_framed p rest limit :
  len p <= limit -> limit < 2 ^ 32 ->
  parse_frame_with_limit (framed p ++ rest) limit = Ok (Some (p, 4 + len p)).
Proof.
  intros Hp Hl. pose proof (len_nonneg p). unfold parse_frame_with_limit, framed, LENGTH_PREFIX_LEN.
  assert (len (le_bytes 4 (len p)) = 4) as L4 by (unfold len; by rewrite length_le_bytes).
  rewrite <- (assoc_L (++)).
  rewrite (get_range_mid [] (le_bytes 4 (len p)) (p ++ rest) 0 _ eq_refl) by lia.
  rewrite (of_le_le_bytes 4) by (unfold is_u; lia). rewrite decide_False by lia.
  by rewrite (get_range_mid (le_bytes 4 (len p)) p rest) by lia.
Qed.

(** What a successful parse says of the buffer. *)
Lemma parse_frame_some buffer limit p n :
  parse_frame_with_limit buffer limit = Ok (Some (p, n)) ->
  exists rest, buffer = framed p ++ rest /\ n = 4 + len p /\ len p <= limit.
Proof.
  unfold parse_frame_with_limit, get_range, LENGTH_PREFIX_LEN.
  destruct (decide (0 <= 0 <= Z.of_nat 4 /\ Z.of_nat 4 <= len buffer)) as [[_ H4]|]; [|done].
  assert (4 <= length buffer)%nat by (unfold len in H4; lia). explode buffer 4%nat.
  change (slice (b :: b0 :: b1 :: b2 :: buffer) (Z.to_nat 0) (Z.to_nat (Z.of_nat 4))) with
    [b; b0; b1; b2]. set (n0 := of_le [b; b0; b1; b2]).
  assert (0 <= n0) by apply (of_le_bound [b; b0; b1; b2]).
  destruct (decide (n0 > limit)); [done|].
  destruct (decide (0 <= Z.of_nat 4 <= Z.of_nat 4 + n0 /\ _)) as [[_ Hn]|]; [|done].
  intros [= <- <-]. rewrite !len_cons in Hn.
  replace (Z.to_nat (Z.of_nat 4)) with 4%nat by lia. unfold slice. cbn [drop].
  rewrite skipn_O. replace (Z.to_nat (Z.of_nat 4 + n0) - 4)%nat with (Z.to_nat n0) by lia.
  assert (len (take (Z.to_nat n0) buffer) = n0) as Hlt.
  { unfold len in *. rewrite length_take. lia. }
  exists (drop (Z.to_nat n0) buffer). rewrite Hlt. split; [|lia].
  unfold framed. rewrite Hlt. subst n0. rewrite unfield4, <- (assoc_L (++)), take_drop. done.
Qed.

(** An answer other than "not yet" is final: later bytes do not change it. *)
Lemma parse_frame_app buffer more limit r :
  parse_frame_with_limit buffer limit = r -> r <> Ok None ->
  parse_frame_with_limit (buffer ++ more) limit = r.
Proof.
  intros <- Hr. unfold parse_frame_with_limit in *.
  destruct (get_range buffer 0 _) as [prefix|] eqn:E1; [|done].
  rewrite (get_range_app _ more _ _ _ E1). case_decide; [done|].
  destruct (get_range buffer (Z.of_nat LENGTH_PREFIX_LEN) _) as [p|] eqn:E2; [|done].
  by rewrite (get_range_app _ more _ _ _ E2).
Qed.

(** The stream magics read as lengths above the control limit. *)
Lemma magic_is_no_frame x limit :
  limit <= MAX_FRAME_LEN -> parse_frame_with_limit (VOICE_TCP_MAGIC ++ x) limit = Err TooLarge.
Proof.
  intros Hl. apply (parse_frame_app _ x); [|done].
  unfold parse_frame_with_limit.
  change (get_range VOICE_TCP_MAGIC 0 (Z.of_nat LENGTH_PREFIX_LEN)) with (Some (take 4 VOICE_TCP_MAGIC)).
  cbv beta iota zeta. rewrite decide_True; [done|]. unfold MAX_FRAME_LEN in *.
  change (of_le (take 4 VOICE_TCP_MAGIC)) with 1448364099. lia.
Qed.
