(* ===== verification/Evented.v ===== *)
(** * Evented I/O: receive buffer, write queue and their pumps

    Models src/crates/rpc/src/recv.rs and src/crates/rpc/src/evented.rs.  The
    operating system's sockets are the classes [SocketSource] and [Write]; the
    classes [StreamSocket] and [StreamWriter] state what a byte stream promises
    (nothing lost, duplicated or reordered, no endless run of interruptions).
    [Script] is a concrete socket and writer for witnesses.  A [Vec]'s spare
    capacity is not modelled. *)

From S2P Require Import Prelude.

Inductive IoError := WouldBlock | Interrupted | InvalidData | OtherIo (code : Z).

#[export] Instance IoError_eq_dec : EqDecision IoError.
Proof. solve_decision. Defined.

(** ** Interfaces *)

(** [SocketSource::recv_into]: the bytes a call asking for at most [n] delivers. *)
Class SocketSource (Sock : Type) := {
  recv_into : Sock -> nat -> Sock * result IoError bytes;
}.

(** [std::io::Write::write]. *)
Class Write (W : Type) := {
  write : W -> bytes -> W * result IoError nat;
}.

Class StreamSocket (Sock : Type) `{SocketSource Sock} := {
  (** the bytes still to come *)
  incoming : Sock -> bytes;
  (** how many more calls can be interrupted *)
  patience : Sock -> nat;
  recv_ok s n s' bs : recv_into s n = (s', Ok bs) ->
    (length bs <= n)%nat /\ incoming s = bs ++ incoming s' /\ (patience s' <= patience s)%nat;
  recv_err s n s' e : recv_into s n = (s', Err e) ->
    incoming s' = incoming s /\ (patience s' <= patience s)%nat /\
    (e = Interrupted -> (patience s' < patience s)%nat);
}.

Class StreamWriter (W : Type) `{Write W} := {
  (** the bytes taken so far *)
  sent : W -> bytes;
  write_ok w bs w' n : write w bs = (w', Ok n) -> (n <= length bs)%nat /\ sent w' = sent w ++ take n bs;
  write_err w bs w' e : write w bs = (w', Err e) -> sent w' = sent w;
}.

(** ** [RecvBuffer] *)

Record RecvBuffer := mkRecv { rb_buf : bytes; rb_start : nat }.

Module RecvBuffer.

Definition new : RecvBuffer := {| rb_buf := []; rb_start := 0 |}.

Definition pending (b : RecvBuffer) : bytes := drop (rb_start b) (rb_buf b).

Definition len (b : RecvBuffer) : nat := length (rb_buf b) - rb_start b.

Definition is_empty (b : RecvBuffer) : bool := bool_decide (rb_start b = length (rb_buf b)).

Definition consume (b : RecvBuffer) (n : nat) : RecvBuffer :=
  let start := (rb_start b + n)%nat in
  if decide (start = length (rb_buf b)) then {| rb_buf := []; rb_start := 0 |}
  else {| rb_buf := rb_buf b; rb_start := start |}.

(** [receive] is the callback, [None] when it ran out of fuel. *)
Definition fill_with {Sock} (b : RecvBuffer) (max_read : nat)
    (receive : nat -> option (Sock * result IoError bytes)) : option (Sock * RecvBuffer * result IoError nat) :=
  let b := if decide (0 < rb_start b)%nat
           then {| rb_buf := drop (rb_start b) (rb_buf b); rb_start := 0 |} else b in
  '(s, r) ← receive max_read;
  match r with
  | Err e => Some (s, b, Err e)
  | Ok bs =>
      if decide (max_read < length bs)%nat then Some (s, b, Err InvalidData)
      else Some (s, {| rb_buf := rb_buf b ++ bs; rb_start := rb_start b |}, Ok (length bs))
  end.

(** The retry loop of [fill]. *)
Fixpoint recv_retry {Sock} `{SocketSource Sock} (fuel : nat) (s : Sock) (n : nat)
    : option (Sock * result IoError bytes) :=
  match fuel with
  | O => None
  | S fuel =>
      match recv_into s n with
      | (s, Err Interrupted) => recv_retry fuel s n
      | r => Some r
      end
  end.

Definition fill {Sock} `{SocketSource Sock} (fuel : nat) (s : Sock) (b : RecvBuffer) (max_read : nat)
    : option (Sock * RecvBuffer * result IoError nat) :=
  fill_with b max_read (recv_retry fuel s).

(** The detached bytes, and the emptied buffer. *)
Definition ship (b : RecvBuffer) (discard_front keep : nat) : bytes * RecvBuffer :=
  let buf := take (rb_start b + discard_front + keep) (rb_buf b) in
  (drop (rb_start b + discard_front) buf, {| rb_buf := []; rb_start := 0 |}).

(** The cursor stays inside the buffer. *)
Definition wf (b : RecvBuffer) : Prop := (rb_start b <= length (rb_buf b))%nat.

End RecvBuffer.

(** ** The read pump *)

Inductive ReadLimit := ByteBudget (n : nat) | MaxBuffered (n : nat).

Record ReadPumpOutcome := mkReadOutcome { bytes_read : nat; hit_limit : bool; disconnected : bool }.

Definition read_limit_allows_read (limit : ReadLimit) (b : RecvBuffer) (n : nat) : bool :=
  match limit with
  | ByteBudget k => bool_decide (n < k)%nat
  | MaxBuffered k => bool_decide (RecvBuffer.len b < k)%nat
  end.

Definition read_limit_remaining (limit : ReadLimit) (b : RecvBuffer) (n : nat) : nat :=
  match limit with
  | ByteBudget k => k - n
  | MaxBuffered k => k - RecvBuffer.len b
  end.

Definition read_limit_hit (limit : ReadLimit) (b : RecvBuffer) (n : nat) : bool :=
  negb (read_limit_allows_read limit b n).

Section read_pump.
Context {Sock : Type} `{SocketSource Sock}.
Context (tries max_read : nat) (limit : ReadLimit).

(** The [while] loop; [ready] is the [Readiness] flag. *)
Fixpoint read_loop (fuel : nat) (s : Sock) (b : RecvBuffer) (ready : bool) (o : ReadPumpOutcome)
    : option (Sock * RecvBuffer * bool * result IoError ReadPumpOutcome) :=
  match fuel with
  | O => None
  | S fuel =>
    if ready && read_limit_allows_read limit b (bytes_read o) then
      let read_bytes := Nat.min max_read (read_limit_remaining limit b (bytes_read o)) in
      match RecvBuffer.fill tries s b read_bytes with
      | None => None
      | Some (s, b, Ok O) =>
          Some (s, b, false, Ok {| bytes_read := bytes_read o; hit_limit := hit_limit o; disconnected := true |})
      | Some (s, b, Ok n) =>
          let total := (bytes_read o + n)%nat in
          if read_limit_hit limit b total
          then Some (s, b, ready, Ok {| bytes_read := total; hit_limit := true; disconnected := disconnected o |})
          else read_loop fuel s b ready
                 {| bytes_read := total; hit_limit := hit_limit o; disconnected := disconnected o |}
      | Some (s, b, Err WouldBlock) => Some (s, b, false, Ok o)
      | Some (s, b, Err e) => Some (s, b, ready, Err e)
      end
    else Some (s, b, ready, Ok o)
  end.

Definition read_into_buffer (fuel : nat) (s : Sock) (b : RecvBuffer) (ready : bool)
    : option (Sock * RecvBuffer * bool * result IoError ReadPumpOutcome) :=
  '(s, b, ready, r) ← read_loop fuel s b ready
                        {| bytes_read := 0; hit_limit := false; disconnected := false |};
  match r with
  | Err e => Some (s, b, ready, Err e)
  | Ok o =>
      let o := if ready && negb (read_limit_allows_read limit b (bytes_read o))
               then {| bytes_read := bytes_read o; hit_limit := true; disconnected := disconnected o |}
               else o in
      Some (s, b, ready, Ok o)
  end.

End read_pump.

(** ** [WriteQueue] *)

Definition WRITE_QUEUE_COMPACT_BYTES : Z := 64 * 1024.

Record WriteQueue := mkQueue { wq_buf : bytes; wq_start : nat }.

Module WriteQueue.

Definition new : WriteQueue := {| wq_buf := []; wq_start := 0 |}.

Definition pending (q : WriteQueue) : bytes := drop (wq_start q) (wq_buf q).

Definition len (q : WriteQueue) : nat := length (wq_buf q) - wq_start q.

Definition is_empty (q : WriteQueue) : bool := bool_decide (wq_start q = length (wq_buf q)).

(** Appending through [tail_mut]. *)
Definition append (q : WriteQueue) (bs : bytes) : WriteQueue :=
  {| wq_buf := wq_buf q ++ bs; wq_start := wq_start q |}.

Definition clear (q : WriteQueue) : WriteQueue := {| wq_buf := []; wq_start := 0 |}.

Definition consume (q : WriteQueue) (n : nat) : WriteQueue :=
  let q := {| wq_buf := wq_buf q; wq_start := wq_start q + n |} in
  if decide (wq_start q = length (wq_buf q)) then clear q
  else if decide (WRITE_QUEUE_COMPACT_BYTES <= Z.of_nat (wq_start q) /\ (len q <= wq_start q)%nat)
  then {| wq_buf := drop (wq_start q) (wq_buf q); wq_start := 0 |}
  else q.

Definition wf (q : WriteQueue) : Prop := (wq_start q <= length (wq_buf q))%nat.

End WriteQueue.

(** ** The write pump *)

Record WritePumpOutcome := mkWriteOutcome {
  bytes_written : nat;
  attempts : nat;
  write_hit_limit : bool;
  blocked : bool;
  wrote_zero : bool;
}.

Section write_pump.
Context {W : Type} `{Write W}.

(** The [while] loop: [remaining] attempts are left, so it needs no fuel of its own. *)
Fixpoint write_loop (remaining : nat) (w : W) (q : WriteQueue) (o : WritePumpOutcome)
    : W * WriteQueue * result IoError WritePumpOutcome :=
  match remaining with
  | O => (w, q, Ok o)
  | S remaining =>
    if WriteQueue.is_empty q then (w, q, Ok o)
    else
      let o := {| bytes_written := bytes_written o; attempts := attempts o + 1;
                  write_hit_limit := write_hit_limit o; blocked := blocked o;
                  wrote_zero := wrote_zero o |} in
      match write w (WriteQueue.pending q) with
      | (w, Ok O) =>
          (w, q, Ok {| bytes_written := bytes_written o; attempts := attempts o;
                       write_hit_limit := write_hit_limit o; blocked := blocked o; wrote_zero := true |})
      | (w, Ok n) =>
          write_loop remaining w (WriteQueue.consume q n)
            {| bytes_written := bytes_written o + n; attempts := attempts o;
               write_hit_limit := write_hit_limit o; blocked := blocked o; wrote_zero := wrote_zero o |}
      | (w, Err WouldBlock) =>
          (w, q, Ok {| bytes_written := bytes_written o; attempts := attempts o;
                       write_hit_limit := write_hit_limit o; blocked := true; wrote_zero := wrote_zero o |})
      | (w, Err Interrupted) => write_loop remaining w q o
      | (w, Err e) => (w, q, Err e)
      end
  end.

Definition write_queue_to (w : W) (q : WriteQueue) (max_attempts : nat)
    : W * WriteQueue * result IoError WritePumpOutcome :=
  let '(w, q, r) := write_loop max_attempts w q
    {| bytes_written := 0; attempts := 0; write_hit_limit := false; blocked := false; wrote_zero := false |} in
  match r with
  | Err e => (w, q, Err e)
  | Ok o =>
      (w, q, Ok {| bytes_written := bytes_written o; attempts := attempts o;
                   write_hit_limit := negb (WriteQueue.is_empty q) &&
                     bool_decide (attempts o = max_attempts) && negb (blocked o) && negb (wrote_zero o);
                   blocked := blocked o; wrote_zero := wrote_zero o |})
  end.

End write_pump.

(** ** Lemmas: both queues are queues of bytes *)

Lemma recv_len b : RecvBuffer.len b = length (RecvBuffer.pending b).
Proof. unfold RecvBuffer.len, RecvBuffer.pending. by rewrite length_drop. Qed.

Lemma recv_consume b n :
  RecvBuffer.wf b -> (n <= RecvBuffer.len b)%nat ->
  RecvBuffer.wf (RecvBuffer.consume b n) /\
  RecvBuffer.pending (RecvBuffer.consume b n) = drop n (RecvBuffer.pending b).
Proof.
  unfold RecvBuffer.wf, RecvBuffer.len, RecvBuffer.consume, RecvBuffer.pending. intros Hw Hn.
  case_decide as Hd; simpl.
  - split; [lia|]. rewrite drop_drop, drop_ge by lia. done.
  - split; [lia|]. by rewrite drop_drop.
Qed.

Lemma recv_ship b d k :
  RecvBuffer.wf b -> (d + k <= RecvBuffer.len b)%nat ->
  RecvBuffer.ship b d k = (slice (RecvBuffer.pending b) d (d + k), RecvBuffer.new).
Proof.
  intros Hw Hk. unfold RecvBuffer.ship, slice, RecvBuffer.pending. f_equal.
  rewrite drop_drop, skipn_firstn_comm. f_equal. lia.
Qed.

Lemma write_queue_len q : WriteQueue.len q = length (WriteQueue.pending q).
Proof. unfold WriteQueue.len, WriteQueue.pending. by rewrite length_drop. Qed.

Lemma write_queue_empty q : WriteQueue.wf q -> WriteQueue.is_empty q = bool_decide (WriteQueue.pending q = []).
Proof.
  intros Hw. apply bool_decide_ext. unfold WriteQueue.pending. split.
  - intros ->. by rewrite drop_all.
  - intros E. apply (f_equal length) in E. rewrite length_drop in E. unfold WriteQueue.wf in Hw. simpl in E. lia.
Qed.

Lemma write_queue_append q bs :
  WriteQueue.wf q -> WriteQueue.wf (WriteQueue.append q bs) /\
  WriteQueue.pending (WriteQueue.append q bs) = WriteQueue.pending q ++ bs.
Proof.
  unfold WriteQueue.wf, WriteQueue.append, WriteQueue.pending. simpl. intros Hw.
  rewrite length_app, drop_app_le by done. split; [lia|done].
Qed.

Lemma write_queue_consume q n :
  WriteQueue.wf q -> (n <= WriteQueue.len q)%nat ->
  WriteQueue.wf (WriteQueue.consume q n) /\
  WriteQueue.pending (WriteQueue.consume q n) = drop n (WriteQueue.pending q).
Proof.
  unfold WriteQueue.wf, WriteQueue.len, WriteQueue.consume, WriteQueue.pending. intros Hw Hn. cbn.
  case_decide as Hd; [|case_decide]; cbn [wq_start wq_buf WriteQueue.clear]; (split; [simpl; lia|]).
  - by rewrite drop_drop, (drop_ge (wq_buf q)) by lia.
  - by rewrite drop_0, drop_drop.
  - by rewrite drop_drop.
Qed.

(** ** Lemmas: the read pump *)

Section read_facts.
Context {Sock : Type} `{StreamSocket Sock}.

(** Enough fuel for the retry loop: it ends, and a byte stream loses nothing. *)
Lemma recv_retry_ok fuel s n :
  (patience s < fuel)%nat ->
  exists s' r, RecvBuffer.recv_retry fuel s n = Some (s', r) /\ (patience s' <= patience s)%nat /\
    match r with
    | Ok bs => (length bs <= n)%nat /\ incoming s = bs ++ incoming s'
    | Err e => incoming s' = incoming s /\ e <> Interrupted
    end.
Proof.
  revert s. induction fuel as [|fuel IH]; intros s Hf; [lia|]. cbn [RecvBuffer.recv_retry].
  destruct (recv_into s n) as [s1 [bs|e]] eqn:E.
  - apply recv_ok in E as (? & ? & ?). exists s1, (Ok bs). auto.
  - apply recv_err in E as (Hi & Hp & Hd). destruct (decide (e = Interrupted)) as [->|He].
    + destruct (IH s1) as (s2 & r & -> & ? & Hr); [specialize (Hd eq_refl); lia|].
      exists s2, r. split; [done|]. split; [lia|].
      destruct r; [by rewrite <- Hi|]. destruct Hr. split; [congruence|done].
    + exists s1, (Err e). by destruct e.
Qed.

Lemma fill_ok fuel s b n :
  (patience s < fuel)%nat -> RecvBuffer.wf b ->
  exists s' b' r, RecvBuffer.fill fuel s b n = Some (s', b', r) /\ (patience s' <= patience s)%nat /\
    RecvBuffer.wf b' /\ RecvBuffer.pending b' ++ incoming s' = RecvBuffer.pending b ++ incoming s /\
    match r with
    | Ok k => (k <= n)%nat /\ RecvBuffer.len b' = (RecvBuffer.len b + k)%nat
    | Err e => RecvBuffer.len b' = RecvBuffer.len b /\ e <> Interrupted
    end.
Proof.
  intros Hf Hb. unfold RecvBuffer.fill, RecvBuffer.fill_with.
  set (b0 := if decide _ then _ else b).
  assert (RecvBuffer.wf b0 /\ RecvBuffer.pending b0 = RecvBuffer.pending b) as [Hw0 Hp0].
  { subst b0. case_decide; [|done]. unfold RecvBuffer.wf, RecvBuffer.pending. simpl. split; [lia|].
    by rewrite drop_0. }
  destruct (recv_retry_ok fuel s n Hf) as (s1 & r & -> & Hpat & Hr). cbn [mbind option_bind].
  destruct r as [bs|e].
  - destruct Hr as [Hl Hin]. rewrite decide_False by lia. do 3 eexists. split; [done|].
    split; [done|]. assert (RecvBuffer.pending {| rb_buf := rb_buf b0 ++ bs; rb_start := rb_start b0 |}
      = RecvBuffer.pending b ++ bs) as Hpend.
    { rewrite <- Hp0. unfold RecvBuffer.pending. cbn. by rewrite drop_app_le. }
    split; [unfold RecvBuffer.wf in *; cbn; rewrite length_app; lia|].
    rewrite !recv_len, Hpend, Hin, <- (assoc_L (++)), length_app. split; [done|]. split; [lia|done].
  - do 3 eexists. split; [done|]. destruct Hr as [Hin He].
    rewrite !recv_len, Hp0, Hin. done.
Qed.

Context (tries max_read : nat) (limit : ReadLimit).

(** The bytes the limit still allows. *)
Definition budget (b : RecvBuffer) (o : ReadPumpOutcome) : nat :=
  read_limit_remaining limit b (bytes_read o).

(** What the limit promises about the buffer [b'] the pump leaves. *)
Definition limit_kept (b : RecvBuffer) (o : ReadPumpOutcome) (b' : RecvBuffer) (o' : ReadPumpOutcome) : Prop :=
  match limit with
  | ByteBudget k => (bytes_read o' <= Nat.max k (bytes_read o))%nat
  | MaxBuffered k => (RecvBuffer.len b' <= Nat.max k (RecvBuffer.len b))%nat
  end.

Lemma limit_kept_refl b o : limit_kept b o b o.
Proof. unfold limit_kept. destruct limit; lia. Qed.

Lemma allows_budget b o :
  read_limit_allows_read limit b (bytes_read o) = true <-> (0 < budget b o)%nat.
Proof.
  unfold budget. destruct limit; simpl; rewrite bool_decide_eq_true; lia.
Qed.

Lemma read_loop_ok fuel s b ready o :
  (patience s < tries)%nat -> RecvBuffer.wf b -> (budget b o < fuel)%nat -> (0 < max_read)%nat ->
  hit_limit o = false ->
  exists s' b' ready' r, read_loop tries max_read limit fuel s b ready o = Some (s', b', ready', r) /\
    RecvBuffer.wf b' /\ RecvBuffer.pending b' ++ incoming s' = RecvBuffer.pending b ++ incoming s /\
    match r with
    | Ok o' =>
        limit_kept b o b' o' /\
        (bytes_read o' + RecvBuffer.len b = bytes_read o + RecvBuffer.len b')%nat /\
        (ready' = true -> read_limit_allows_read limit b' (bytes_read o') = false) /\
        (hit_limit o' = true -> read_limit_allows_read limit b' (bytes_read o') = false)
    | Err e => e <> Interrupted /\ e <> WouldBlock
    end.
Proof.
  revert s b o. induction fuel as [|fuel IH]; intros s b o Hp Hb Hf Hm Ho; [lia|]. cbn [read_loop]. cbv zeta.
  destruct ready; cbn [andb].
  2:{ do 4 eexists. split; [done|]. split; [done|]. split; [done|]. split; [apply limit_kept_refl|].
      split; [lia|]. by rewrite Ho. }
  destruct (read_limit_allows_read limit b (bytes_read o)) eqn:Ea.
  2:{ do 4 eexists. split; [done|]. split; [done|]. split; [done|]. split; [apply limit_kept_refl|].
      split; [lia|]. auto. }
  apply allows_budget in Ea.
  destruct (fill_ok tries s b (Nat.min max_read (budget b o)) Hp Hb)
    as (s1 & b1 & r & Hfill & Hp1 & Hb1 & Hs1 & Hr). unfold budget in Hfill. rewrite Hfill.
  destruct r as [[|k]|e].
  - do 4 eexists. split; [done|]. split; [done|]. split; [done|]. destruct Hr as [_ Hl]. cbn.
    rewrite Hl, Nat.add_0_r. split; [|split; [done|split; [done|by rewrite Ho]]].
    unfold limit_kept. destruct limit; simpl; lia.
  - destruct Hr as [Hk Hl]. set (o1 := {| bytes_read := bytes_read o + S k; hit_limit := hit_limit o;
      disconnected := disconnected o |}).
    assert (Hw : limit_kept b o b1 o1).
    { unfold limit_kept, budget in *. subst o1. destruct limit; simpl in *; lia. }
    assert (Hlt : (budget b1 o1 < budget b o)%nat).
    { unfold budget in *. subst o1. destruct limit; simpl in *; lia. }
    unfold read_limit_hit. destruct (read_limit_allows_read limit b1 (bytes_read o + S k)) eqn:Ea1; cbn [negb].
    + destruct (IH s1 b1 o1) as (s2 & b2 & rd & r & Hloop & Hb2 & Hs2 & Hr2); [lia|done|lia|done|done|].
      rewrite Hloop. do 4 eexists. split; [done|]. split; [done|].
      split; [congruence|]. destruct r; [|done]. destruct Hr2 as (Hw2 & Hn & Hrest).
      split; [unfold limit_kept in *; subst o1; destruct limit; cbn in *; lia|].
      split; [unfold o1 in Hn; cbn in Hn; lia|done].
    + do 4 eexists. split; [done|]. split; [done|]. split; [done|].
      split; [exact Hw|]. cbn. split; [lia|done].
  - destruct Hr as [Hl He]. destruct (decide (e = WouldBlock)) as [->|Hw].
    + do 4 eexists. split; [done|]. split; [done|]. split; [done|]. split; [|split; [lia|split; [done|by rewrite Ho]]].
      unfold limit_kept. destruct limit; lia.
    + destruct e; try done; do 4 eexists; (split; [done|]); done.
Qed.

(** Reading does not make a socket less patient. *)
Lemma recv_retry_patience fuel n : forall s s' r,
  RecvBuffer.recv_retry fuel s n = Some (s', r) -> (patience s' <= patience s)%nat.
Proof.
  induction fuel as [|fuel IH]; intros s s' r; [done|]. cbn [RecvBuffer.recv_retry].
  destruct (recv_into s n) as [s1 [bs|e]] eqn:E.
  - intros [= <- _]. by apply recv_ok in E as (_ & _ & ?).
  - apply recv_err in E as (_ & Hp & _). destruct e; try (intros [= <- _]; done). intros Hl. apply IH in Hl. lia.
Qed.

Lemma fill_patience fuel s b n s' b' r :
  RecvBuffer.fill fuel s b n = Some (s', b', r) -> (patience s' <= patience s)%nat.
Proof.
  unfold RecvBuffer.fill, RecvBuffer.fill_with. set (b0 := if decide _ then _ else b). clearbody b0.
  destruct (RecvBuffer.recv_retry fuel s n) as [[s1 [bs|e]]|] eqn:E; cbn [mbind option_bind]; [| |done];
    apply recv_retry_patience in E; [case_decide|]; by intros [= <- _ _].
Qed.

Lemma read_loop_patience fuel : forall s b ready o s' b' ready' r,
  read_loop tries max_read limit fuel s b ready o = Some (s', b', ready', r) -> (patience s' <= patience s)%nat.
Proof.
  induction fuel as [|fuel IH]; intros s b ready o s' b' ready' r; [done|]. cbn [read_loop]. cbv zeta.
  destruct (ready && _); [|by intros [= <- _ _ _]].
  destruct (RecvBuffer.fill tries s b _) as [[[s1 b1] [[|k]|e]]|] eqn:E; [| | |done]; apply fill_patience in E.
  - by intros [= <- _ _ _].
  - destruct (read_limit_hit _ _ _); [by intros [= <- _ _ _]|]. intros Hl. apply IH in Hl. lia.
  - destruct e; by intros [= <- _ _ _].
Qed.

Lemma read_into_buffer_patience fuel s b ready s' b' ready' r :
  read_into_buffer tries max_read limit fuel s b ready = Some (s', b', ready', r) -> (patience s' <= patience s)%nat.
Proof.
  unfold read_into_buffer. destruct (read_loop _ _ _ _ _ _ _ _) as [[[[s1 b1] rd] [o|e]]|] eqn:E; cbn [mbind option_bind]; [| |done];
    apply read_loop_patience in E; by intros [= <- _ _ _].
Qed.

(** What a read reports is what the last call on the socket said. *)
Lemma recv_retry_last fuel n : forall s s' r,
  RecvBuffer.recv_retry fuel s n = Some (s', r) -> exists s0, recv_into s0 n = (s', r).
Proof.
  induction fuel as [|fuel IH]; intros s s' r; [done|]. cbn [RecvBuffer.recv_retry].
  destruct (recv_into s n) as [s1 [bs|e]] eqn:E; [intros [= <- <-]; eauto|].
  destruct e; try (intros [= <- <-]; eauto; fail). apply IH.
Qed.

Lemma fill_last fuel s b n s' b' r :
  RecvBuffer.fill fuel s b n = Some (s', b', r) ->
  match r with
  | Ok k => exists s0 bs, recv_into s0 n = (s', Ok bs) /\ length bs = k
  | Err e => e <> InvalidData -> exists s0, recv_into s0 n = (s', Err e)
  end.
Proof.
  unfold RecvBuffer.fill, RecvBuffer.fill_with. set (b0 := if decide _ then _ else b). clearbody b0.
  destruct (RecvBuffer.recv_retry fuel s n) as [[s1 [bs|e]]|] eqn:E; cbn [mbind option_bind]; [| |done];
    apply recv_retry_last in E as [s0 E].
  - case_decide; intros [= <- <- <-]; [done|]. eauto.
  - intros [= <- <- <-]. eauto.
Qed.

(** Why the loop stopped: the limit is reached with the socket still marked
    readable, or the last call on the socket reported the end of the stream or
    that it would block. *)
Lemma read_loop_stops fuel : forall s b ready o s' b' ready' r,
  (0 < max_read)%nat -> hit_limit o = false -> disconnected o = false ->
  read_loop tries max_read limit fuel s b ready o = Some (s', b', ready', r) ->
  if ready then
    match r with
    | Ok o' =>
        if ready' then read_limit_hit limit b' (bytes_read o') = true /\ disconnected o' = false
        else hit_limit o' = false /\ exists s0 n, (0 < n)%nat /\
          recv_into s0 n = (s', if disconnected o' then Ok [] else Err WouldBlock)
    | Err _ => ready' = true
    end
  else s' = s /\ b' = b /\ ready' = false /\ r = Ok o.
Proof.
  induction fuel as [|fuel IH]; intros s b ready o s' b' ready' r Hm Hh Hd; [done|]. cbn [read_loop]. cbv zeta.
  destruct ready; cbn [andb]; [|by intros [= <- <- <- <-]].
  destruct (read_limit_allows_read limit b (bytes_read o)) eqn:Ea.
  2:{ intros [= <- <- <- <-]. unfold read_limit_hit. by rewrite Ea. }
  assert (0 < Nat.min max_read (read_limit_remaining limit b (bytes_read o)))%nat as Hn.
  { unfold read_limit_allows_read, read_limit_remaining in *. destruct limit; apply bool_decide_eq_true in Ea; lia. }
  destruct (RecvBuffer.fill tries s b _) as [[[s1 b1] [[|k]|e]]|] eqn:E; [| | |done]; apply fill_last in E.
  - intros [= <- <- <- <-]. cbn. split; [done|]. destruct E as (s0 & bs & E & Hbs). apply nil_length_inv in Hbs as ->. eauto.
  - destruct (read_limit_hit limit b1 (bytes_read o + S k)) eqn:El; [by intros [= <- <- <- <-]|]. intros Hl.
    apply IH in Hl; done.
  - destruct e; intros [= <- <- <- <-]; try done. split; [done|]. rewrite Hd. destruct E as [s0 E]; [done|]. eauto.
Qed.

End read_facts.

(** ** Lemmas: the write pump *)

Section write_facts.
Context {W : Type} `{StreamWriter W}.

Lemma write_loop_ok remaining w q o :
  WriteQueue.wf q -> blocked o = false -> wrote_zero o = false ->
  let '(w', q', r) := write_loop remaining w q o in
  WriteQueue.wf q' /\ sent w' ++ WriteQueue.pending q' = sent w ++ WriteQueue.pending q /\
  match r with
  | Ok o' =>
      length (sent w') = (length (sent w) + bytes_written o' - bytes_written o)%nat /\
      (bytes_written o <= bytes_written o')%nat /\
      (attempts o <= attempts o' <= attempts o + remaining)%nat /\
      (WriteQueue.pending q' <> [] -> blocked o' = false -> wrote_zero o' = false ->
       attempts o' = (attempts o + remaining)%nat)
  | Err e => e <> Interrupted /\ e <> WouldBlock
  end.
Proof.
  revert w q o. induction remaining as [|m IH]; intros w q o Hq Hb Hz; cbn [write_loop].
  { split; [done|]. split; [done|]. split; [lia|]. split; [lia|]. split; lia. }
  rewrite write_queue_empty by done. case_bool_decide as He.
  { split; [done|]. split; [done|]. split; [lia|]. split; [lia|]. split; [lia|]. done. }
  destruct (write w (WriteQueue.pending q)) as [w1 [[|n]|e]] eqn:Ew; cbn.
  - apply write_ok in Ew as [_ Es]. rewrite take_0, app_nil_r in Es. rewrite Es.
    split; [done|]. split; [done|]. split; [lia|]. split; [lia|]. split; [lia|done].
  - apply write_ok in Ew as [Hn Es].
    destruct (write_queue_consume q (S n) Hq) as [Hq1 Hp1]; [by rewrite write_queue_len|].
    match goal with |- context [write_loop m w1 ?q1 ?o1] => specialize (IH w1 q1 o1 Hq1 Hb Hz);
      destruct (write_loop m w1 q1 o1) as [[w2 q2] r] end.
    destruct IH as (Hq2 & Hs2 & Hr). split; [done|]. rewrite Hs2, Hp1, Es.
    split; [by rewrite <- (assoc_L (++)), take_drop|].
    destruct r as [o'|]; [|done]. cbn in Hr. rewrite Es, length_app, length_take in Hr.
    destruct Hr as (? & ? & ? & Hr). split; [lia|]. split; [lia|]. split; [lia|].
    intros. rewrite Hr by done. lia.
  - apply write_err in Ew as Es. destruct (decide (e = Interrupted)) as [->|Hi].
    + match goal with |- context [write_loop m w1 ?q1 ?o1] => specialize (IH w1 q1 o1 Hq Hb Hz);
        destruct (write_loop m w1 q1 o1) as [[w2 q2] r] end.
      destruct IH as (Hq2 & Hs2 & Hr). rewrite Es in *. split; [done|]. split; [done|].
      destruct r as [o'|]; [|done]. cbn in Hr. destruct Hr as (? & ? & ? & Hr).
      split; [lia|]. split; [lia|]. split; [lia|]. intros. rewrite Hr by done. lia.
    + rewrite <- Es. destruct e; try done; cbn; (split; [done|]); (split; [done|]); [|done..].
      split; [lia|]. split; [lia|]. split; [lia|done].
Qed.

End write_facts.

(** ** Properties *)

Lemma read_into_buffer_ok {Sock : Type} `{StreamSocket Sock} (tries max_read fuel : nat)
    (limit : ReadLimit) (s : Sock) (b : RecvBuffer) (ready : bool) :
  (patience s < tries)%nat -> (0 < max_read)%nat -> RecvBuffer.wf b ->
  (read_limit_remaining limit b 0 < fuel)%nat ->
  exists s' b' ready' r,
    read_into_buffer tries max_read limit fuel s b ready = Some (s', b', ready', r) /\
    RecvBuffer.wf b' /\ RecvBuffer.pending b' ++ incoming s' = RecvBuffer.pending b ++ incoming s /\
    match r with
    | Ok o =>
        (RecvBuffer.len b' = RecvBuffer.len b + bytes_read o)%nat /\
        match limit with
        | ByteBudget k => (bytes_read o <= k)%nat
        | MaxBuffered k => (RecvBuffer.len b' <= Nat.max k (RecvBuffer.len b))%nat
        end /\
        (ready' = true -> hit_limit o = true)
    | Err e => e <> Interrupted /\ e <> WouldBlock
    end.
Proof.
  intros Hp Hm Hb Hf. unfold read_into_buffer.
  set (o0 := {| bytes_read := 0; hit_limit := false; disconnected := false |}).
  destruct (read_loop_ok tries max_read limit fuel s b ready o0) as
    (s' & b' & rd & r & -> & Hb' & Hs & Hr); [done|done|done|done|done|]. cbn [mbind option_bind].
  destruct r as [o|e]; [|do 4 eexists; by split].
  destruct Hr as (Hw & Hn & Hrd & Hh). cbn in Hn.
  do 4 eexists. split; [done|]. split; [done|]. split; [done|].
  assert (RecvBuffer.len b' = RecvBuffer.len b + bytes_read o)%nat by lia.
  assert (Hlim : match limit with
    | ByteBudget k => (bytes_read o <= k)%nat
    | MaxBuffered k => (RecvBuffer.len b' <= Nat.max k (RecvBuffer.len b))%nat end).
  { unfold limit_kept in Hw. destruct limit as [k|k]; cbn in *; lia. }
  destruct rd; cbn [andb negb].
  - rewrite Hrd by done. cbn [negb]. done.
  - done.
Qed.

(** Why the pump stopped. *)
Lemma read_into_buffer_stops {Sock : Type} `{StreamSocket Sock} (tries max_read fuel : nat)
    (limit : ReadLimit) (s s' : Sock) (b b' : RecvBuffer) (ready ready' : bool) (r : result IoError ReadPumpOutcome) :
  (0 < max_read)%nat -> read_into_buffer tries max_read limit fuel s b ready = Some (s', b', ready', r) ->
  if ready then
    match r with
    | Ok o =>
        hit_limit o = ready' /\
        if ready' then read_limit_hit limit b' (bytes_read o) = true /\ disconnected o = false
        else exists s0 n, (0 < n)%nat /\ recv_into s0 n = (s', if disconnected o then Ok [] else Err WouldBlock)
    | Err _ => ready' = true
    end
  else s' = s /\ b' = b /\ ready' = false /\
       r = Ok {| bytes_read := 0; hit_limit := false; disconnected := false |}.
Proof.
  intros Hm. unfold read_into_buffer.
  destruct (read_loop _ _ _ _ _ _ _ _) as [[[[s1 b1] rd] r1]|] eqn:E; cbn [mbind option_bind]; [|done].
  apply read_loop_stops in E; [|done|done|done]. destruct r1 as [o|e]; intros [= <- <- <- <-]; [|done].
  destruct ready; [|destruct E as (-> & -> & -> & [= ->]); done].
  unfold read_limit_hit in *. destruct rd; cbn [andb].
  - destruct E as [El Ed]. rewrite El. cbn. by rewrite El, Ed.
  - destruct E as [-> E]. done.
Qed.

(** C23: reading a socket into the receive buffer always ends; whatever the
    sizes in which bytes arrive, however often calls are interrupted and
    wherever the pump stops (also on an error), the unconsumed bytes followed by
    the bytes still in the socket are unchanged, and the limit is respected.  A
    pump started on a readable socket reads until it must stop: either its limit
    is reached, and then the socket stays marked readable and the outcome says
    so, so that no readiness edge is lost; or the last call on the socket said
    that it would block, or that the stream has ended, which the outcome tells
    apart, and only then the mark is cleared.  A socket that is not marked is not
    touched. *)
Theorem read_pump_preserves_stream {Sock : Type} `{StreamSocket Sock} (tries max_read fuel : nat)
    (limit : ReadLimit) (s : Sock) (b : RecvBuffer) (ready : bool) :
  (patience s < tries)%nat -> (0 < max_read)%nat -> RecvBuffer.wf b ->
  (read_limit_remaining limit b 0 < fuel)%nat ->
  exists s' b' ready' r,
    read_into_buffer tries max_read limit fuel s b ready = Some (s', b', ready', r) /\
    RecvBuffer.wf b' /\ RecvBuffer.pending b' ++ incoming s' = RecvBuffer.pending b ++ incoming s /\
    match r with
    | Ok o =>
        (RecvBuffer.len b' = RecvBuffer.len b + bytes_read o)%nat /\
        match limit with
        | ByteBudget k => (bytes_read o <= k)%nat
        | MaxBuffered k => (RecvBuffer.len b' <= Nat.max k (RecvBuffer.len b))%nat
        end
    | Err e => e <> Interrupted /\ e <> WouldBlock
    end /\
    if ready then
      match r with
      | Ok o =>
          hit_limit o = ready' /\
          if ready' then read_limit_hit limit b' (bytes_read o) = true /\ disconnected o = false
          else exists s0 n, (0 < n)%nat /\ recv_into s0 n = (s', if disconnected o then Ok [] else Err WouldBlock)
      | Err _ => ready' = true
      end
    else s' = s /\ b' = b /\ ready' = false /\
         r = Ok {| bytes_read := 0; hit_limit := false; disconnected := false |}.
Proof.
  intros Hp Hm Hb Hf. destruct (read_into_buffer_ok tries max_read fuel limit s b ready Hp Hm Hb Hf) as (s' & b' & rd & r & He & Hw & Hs & Hr).
  exists s', b', rd, r. split; [done|]. split; [done|]. split; [done|]. split; [by destruct r as [o|e]; [destruct Hr as (? & ? & _)|]|].
  by eapply read_into_buffer_stops.
Qed.

Lemma write_queue_to_ok {W : Type} `{StreamWriter W} (w : W) (q : WriteQueue) (max_attempts : nat) :
  WriteQueue.wf q ->
  let '(w', q', r) := write_queue_to w q max_attempts in
  WriteQueue.wf q' /\ sent w' ++ WriteQueue.pending q' = sent w ++ WriteQueue.pending q /\
  match r with
  | Ok o =>
      length (sent w') = (length (sent w) + bytes_written o)%nat /\ (attempts o <= max_attempts)%nat /\
      (WriteQueue.pending q' <> [] ->
       blocked o = true \/ wrote_zero o = true \/ write_hit_limit o = true)
  | Err e => e <> Interrupted /\ e <> WouldBlock
  end.
Proof.
  intros Hq. unfold write_queue_to.
  set (o0 := {| bytes_written := 0; attempts := 0; write_hit_limit := false; blocked := false;
    wrote_zero := false |}).
  pose proof (write_loop_ok max_attempts w q o0 Hq eq_refl eq_refl) as Hl.
  destruct (write_loop max_attempts w q o0) as [[w' q'] [o|e]]; [|done].
  destruct Hl as (Hq' & Hs & Hn & _ & Ha & Hend). cbn in *. split; [done|]. split; [done|].
  split; [lia|]. split; [lia|]. intros Hne.
  destruct (blocked o) eqn:Eb; [by left|]. destruct (wrote_zero o) eqn:Ez; [by right; left|].
  right; right. rewrite write_queue_empty by done.
  by rewrite bool_decide_eq_false_2, bool_decide_eq_true_2 by auto.
Qed.

(** C24: draining the write queue into a writer that takes any part of what it
    is offered sends exactly the queued bytes in order: what was sent followed
    by what is still queued never changes, also across compaction, partial
    writes, interruptions and errors; the attempts are bounded, and a queue left
    non-empty is reported as blocked, zero-written or limited. *)
Theorem write_pump_preserves_stream {W : Type} `{StreamWriter W} (w : W) (q : WriteQueue) (max_attempts : nat) :
  WriteQueue.wf q ->
  let '(w', q', r) := write_queue_to w q max_attempts in
  WriteQueue.wf q' /\ sent w' ++ WriteQueue.pending q' = sent w ++ WriteQueue.pending q /\
  match r with
  | Ok o =>
      length (sent w') = (length (sent w) + bytes_written o)%nat /\ (attempts o <= max_attempts)%nat /\
      (WriteQueue.pending q' <> [] ->
       blocked o = true \/ wrote_zero o = true \/ write_hit_limit o = true)
  | Err e => e <> Interrupted /\ e <> WouldBlock
  end.
Proof. apply write_queue_to_ok. Qed.

(** ** A scripted socket and sink *)

Module Script.

(** Each entry is one delivery; [None] is an interrupted call. *)
Definition recv (s : list (option bytes)) (n : nat) : list (option bytes) * result IoError bytes :=
  match s with
  | [] => ([], Err WouldBlock)
  | None :: s => (s, Err Interrupted)
  | Some bs :: s =>
      if decide (length bs <= n)%nat then (s, Ok bs) else (Some (drop n bs) :: s, Ok (take n bs))
  end.

#[export] Instance source : SocketSource (list (option bytes)) := {| recv_into := recv |}.

#[export] Instance stream : StreamSocket (list (option bytes)).
Proof.
  refine {| incoming s := mjoin (default [] <$> s); patience s := length s |}.
  - intros [|[bs|] s] n s' bs'; cbn; try done. case_decide; intros [= <- <-]; cbn.
    + auto.
    + rewrite length_take, (assoc_L (++)), take_drop. split; [lia|]. split; [done|lia].
  - intros [|[bs|] s] n s' e; cbn; [intros [= <- <-]; done| |intros [= <- <-]; cbn; auto with lia].
    by case_decide.
Defined.

(** A sink that follows a plan of how much each call takes. *)
Record sink := mkSink { sunk : bytes; plan : list (result IoError nat) }.

Definition put (w : sink) (bs : bytes) : sink * result IoError nat :=
  match plan w with
  | [] => ({| sunk := sunk w ++ bs; plan := [] |}, Ok (length bs))
  | Ok k :: p => let k := Nat.min k (length bs) in
                 ({| sunk := sunk w ++ take k bs; plan := p |}, Ok k)
  | Err e :: p => ({| sunk := sunk w; plan := p |}, Err e)
  end.

#[export] Instance writer : Write sink := {| write := put |}.

#[export] Instance stream_writer : StreamWriter sink.
Proof.
  refine {| sent := sunk |}.
  - intros [u [|[k|e] p]] bs w' n; cbn; unfold put; cbn; intros [= <- <-]; cbn.
    + by rewrite firstn_all.
    + split; [lia|done].
  - intros [u [|[k|e'] p]] bs w' e; cbn; unfold put; cbn; intros [= <- <-]; done.
Defined.

End Script.

#[local] Existing Instances Script.source Script.stream Script.writer Script.stream_writer.

Lemma read_pump_preserves_stream_witness :
  exists s' b' o,
    read_into_buffer 8 4 (ByteBudget 6) 9 [Some (ascii_bytes "abc"); None; Some (ascii_bytes "defgh")]
      RecvBuffer.new true = Some (s', b', true, Ok o) /\
    RecvBuffer.pending b' ++ incoming s' = ascii_bytes "abcdefgh" /\
    hit_limit o = true /\ read_limit_hit (ByteBudget 6) b' (bytes_read o) = true.
Proof.
  destruct (read_pump_preserves_stream 8 4 9 (ByteBudget 6)
    [Some (ascii_bytes "abc"); None; Some (ascii_bytes "defgh")] RecvBuffer.new true)
    as (s' & b' & rd & r & He & _ & Hs & _ & Hstop).
  - vm_compute. lia.
  - lia.
  - vm_compute. lia.
  - vm_compute. lia.
  - pose proof He as Hc. vm_compute in Hc. injection Hc as <- <- <- <-.
    eexists _, _, _. split; [exact He|]. split; [exact Hs|]. split; [apply Hstop|apply Hstop].
Defined.

Lemma write_pump_preserves_stream_witness :
  let q := {| wq_buf := ascii_bytes "hello"; wq_start := 0 |} in
  let '(w', q', _) := write_queue_to {| Script.sunk := []; Script.plan := [Ok 2%nat; Err Interrupted; Err WouldBlock] |} q 5 in
  sent w' ++ WriteQueue.pending q' = ascii_bytes "hello".
Proof.
  intros q. pose proof (write_pump_preserves_stream
    {| Script.sunk := []; Script.plan := [Ok 2%nat; Err Interrupted; Err WouldBlock] |} q 5) as Hw.
  destruct (write_queue_to _ q 5) as [[w' q'] r].
  destruct Hw as (_ & Hs & _); [vm_compute; lia|]. exact Hs.
Defined.
