(* ===== verification/ControlLane.v ===== *)
(** * The server's control connection, one frame at a time

    Models [control_conn_step] of src/crates/server/src/lib.rs, which ties the
    receive buffer, the frame parser and the record protection together, and the
    sender's side of the same lane (a sealed record in a frame).  The decoders
    of the jsony payloads are arguments.  A failed step tears the connection
    down, so it returns no state; the bytes a successful step decrypts in place
    are consumed with their frame and are not written back. *)

From S2P Require Import Prelude Primitives Transport Handshake Frame Evented.

Inductive ConnState := AwaitClientHello | AwaitAuth | Ready.

#[export] Instance ConnState_eq_dec : EqDecision ConnState.
Proof. solve_decision. Defined.

(** The fields of [ClientConn] a step reads or writes. *)
Record ClientConn := mkConn {
  conn_state : ConnState;
  read_buf : RecvBuffer;
  control : option RecordProtection;
}.

Inductive ControlStep (H C : Type) :=
| StepHello (hello : H)
| StepControl (c : C).
Arguments StepHello {H C} hello.
Arguments StepControl {H C} c.

Inductive StepError :=
| InvalidFrame (e : FrameError)
| MissingCipher
| RecordError (e : CryptoError)
| DecodeError.

Section step.
Context `{Primitives} {C : Type}.
Context (decode_client_hello : bytes -> option ClientHello).
Context (decode_client_control : bytes -> option C).

Definition control_conn_step (client : ClientConn)
    : result StepError (ClientConn * option (ControlStep ClientHello C)) :=
  match parse_frame (RecvBuffer.pending (read_buf client)) with
  | Err e => Err (InvalidFrame e)
  | Ok None => Ok (client, None)
  | Ok (Some (_, total)) =>
      let total := Z.to_nat total in
      let frame := slice (RecvBuffer.pending (read_buf client)) LENGTH_PREFIX_LEN total in
      match conn_state client with
      | AwaitClientHello =>
          hello ← ok_or DecodeError (decode_client_hello frame);
          Ok ({| conn_state := conn_state client;
                 read_buf := RecvBuffer.consume (read_buf client) total;
                 control := control client |}, Some (StepHello hello))
      | AwaitAuth | Ready =>
          transport ← ok_or MissingCipher (control client);
          let '(transport, r) := RecordProtection.open_next_in_place transport CHANNEL_CONTROL frame in
          plaintext ← map_err RecordError r;
          c ← ok_or DecodeError (decode_client_control plaintext);
          Ok ({| conn_state := conn_state client;
                 read_buf := RecvBuffer.consume (read_buf client) total;
                 control := Some transport |}, Some (StepControl c))
      end
  end.

(** Stepping until no whole frame is buffered; [fuel] bounds the number of frames.
    The read loop of the server does this between two of its pauses: it also stops
    for a connection that closes, clogs or waits for a reply, and goes on later
    ([ServerLoop.control_loop] is that loop). *)
Fixpoint control_drain (fuel : nat) (client : ClientConn)
    : result StepError (ClientConn * list (ControlStep ClientHello C)) :=
  match fuel with
  | O => Ok (client, [])
  | S fuel =>
      '(client, step) ← control_conn_step client;
      match step with
      | None => Ok (client, [])
      | Some step =>
          '(client, steps) ← control_drain fuel client;
          Ok (client, step :: steps)
      end
  end.

(** ** Lemmas *)

Context `{!PrimitiveLaws}.

Lemma step_frame client p rest :
  RecvBuffer.wf (read_buf client) -> len p <= MAX_FRAME_LEN ->
  RecvBuffer.pending (read_buf client) = framed p ++ rest ->
  let b := RecvBuffer.consume (read_buf client) (Z.to_nat (4 + len p)) in
  RecvBuffer.wf b /\ RecvBuffer.pending b = rest /\
  slice (RecvBuffer.pending (read_buf client)) LENGTH_PREFIX_LEN (Z.to_nat (4 + len p)) = p /\
  parse_frame (RecvBuffer.pending (read_buf client)) = Ok (Some (p, 4 + len p)).
Proof.
  intros Hw Hp Hpend b. pose proof (len_framed p) as Hl. pose proof (len_nonneg p).
  destruct (recv_consume (read_buf client) (Z.to_nat (4 + len p)) Hw) as [Hwf Hd].
  { rewrite recv_len, Hpend, length_app. unfold len in *. lia. }
  split; [done|]. split; [|split].
  - unfold b. rewrite Hd, Hpend, drop_app_length'; [done|]. unfold len in *. lia.
  - rewrite Hpend. unfold framed. rewrite <- (assoc_L (++)).
    apply slice_mid; [by rewrite length_le_bytes|]. unfold len, LENGTH_PREFIX_LEN. lia.
  - rewrite Hpend. unfold parse_frame. apply parse_framed; [done|]. unfold MAX_FRAME_LEN. lia.
Qed.

(** One buffered sealed record is one step. *)
Lemma step_record client r p rest r' m c :
  RecvBuffer.wf (read_buf client) -> len p <= MAX_FRAME_LEN ->
  RecvBuffer.pending (read_buf client) = framed p ++ rest ->
  conn_state client <> AwaitClientHello -> control client = Some r ->
  RecordProtection.open_next r CHANNEL_CONTROL p = (r', Ok m) -> decode_client_control m = Some c ->
  exists client', control_conn_step client = Ok (client', Some (StepControl c)) /\
    RecvBuffer.wf (read_buf client') /\ RecvBuffer.pending (read_buf client') = rest /\
    conn_state client' = conn_state client /\ control client' = Some r'.
Proof.
  intros Hw Hp Hpend Hst Hr Ho Hc.
  destruct (step_frame client p rest Hw Hp Hpend) as (Hwf & Hrest & Hsl & Hparse).
  unfold control_conn_step. rewrite Hparse, Hsl, Hr. run_result.
  replace (RecordProtection.open_next_in_place r CHANNEL_CONTROL p) with (r', Ok (E := CryptoError) m).
  2:{ rewrite <- Ho. symmetry. apply record_open_in_place. }
  run_result. rewrite Hc. run_result. destruct (conn_state client) eqn:E; [done|..];
    (eexists; split; [done|]; cbn; rewrite ?E; done).
Qed.

(** Bytes arriving on the socket: what a fill of the receive buffer does. *)
Definition deliver (client : ClientConn) (bs : bytes) : ClientConn :=
  {| conn_state := conn_state client;
     read_buf := {| rb_buf := rb_buf (read_buf client) ++ bs; rb_start := rb_start (read_buf client) |};
     control := control client |}.

(** Two connections the protocol cannot tell apart: the cursor of the receive
    buffer may differ. *)
Record conn_equiv (a b : ClientConn) : Prop := {
  eq_state : conn_state a = conn_state b;
  eq_control : control a = control b;
  eq_pending : RecvBuffer.pending (read_buf a) = RecvBuffer.pending (read_buf b);
  eq_wf_l : RecvBuffer.wf (read_buf a);
  eq_wf_r : RecvBuffer.wf (read_buf b);
}.

Lemma deliver_pending client bs :
  RecvBuffer.wf (read_buf client) ->
  RecvBuffer.wf (read_buf (deliver client bs)) /\
  RecvBuffer.pending (read_buf (deliver client bs)) = RecvBuffer.pending (read_buf client) ++ bs.
Proof.
  unfold RecvBuffer.wf, RecvBuffer.pending, deliver. cbn. intros Hw.
  rewrite length_app, drop_app_le by done. split; [lia|done].
Qed.

(** The step on a buffer of which the first one is a prefix. *)
Lemma step_extend a b more a' st :
  RecvBuffer.wf (read_buf a) -> conn_equiv (deliver a more) b ->
  control_conn_step a = Ok (a', Some st) ->
  exists b', control_conn_step b = Ok (b', Some st) /\ conn_equiv (deliver a' more) b' /\
    RecvBuffer.wf (read_buf a').
Proof.
  intros Hw [Es Ec Ep Hwa Hwb]. destruct (deliver_pending a more Hw) as [_ Hd].
  rewrite Hd in Ep. cbn in Es, Ec. unfold control_conn_step.
  destruct (parse_frame (RecvBuffer.pending (read_buf a))) as [[[p n]|]|] eqn:Epf; [|done|done].
  unfold parse_frame in *. pose proof Epf as Epb.
  apply (parse_frame_app _ more) in Epb; [|done]. rewrite Ep in Epb. rewrite Epb.
  apply parse_frame_some in Epf as (rest & Hrest & -> & Hlen).
  destruct (step_frame a p rest Hw Hlen Hrest) as (Hwa' & Hpa' & Hsa & _).
  destruct (step_frame b p (rest ++ more) Hwb Hlen) as (Hwb' & Hpb' & Hsb & _).
  { by rewrite <- Ep, Hrest, (assoc_L (++)). }
  rewrite Hsa, Hsb, <- Es, <- Ec.
  assert (Heq : forall tr, conn_equiv
    (deliver {| conn_state := conn_state a; read_buf := RecvBuffer.consume (read_buf a) (Z.to_nat (4 + len p));
                control := tr |} more)
    {| conn_state := conn_state a; read_buf := RecvBuffer.consume (read_buf b) (Z.to_nat (4 + len p));
       control := tr |}).
  { intros tr. set (a1 := {| conn_state := conn_state a; read_buf := _; control := tr |}).
    destruct (deliver_pending a1 more) as [? Hda]; [done|]. split; try done.
    trans (rest ++ more); [rewrite Hda; f_equal; exact Hpa'|symmetry; exact Hpb']. }
  destruct (conn_state a).
  - destruct (decode_client_hello p); [|done]. run_result. intros [= <- <-]. eauto 6.
  - destruct (control a) as [tr|]; [|done]. run_result.
    destruct (RecordProtection.open_next_in_place tr CHANNEL_CONTROL p) as [tr' [m|]]; [|done].
    run_result. destruct (decode_client_control m); [|done]. run_result. intros [= <- <-]. eauto 6.
  - destruct (control a) as [tr|]; [|done]. run_result.
    destruct (RecordProtection.open_next_in_place tr CHANNEL_CONTROL p) as [tr' [m|]]; [|done].
    run_result. destruct (decode_client_control m); [|done]. run_result. intros [= <- <-]. eauto 6.
Qed.

Lemma deliver_nil a : RecvBuffer.wf (read_buf a) -> conn_equiv (deliver a []) a.
Proof.
  intros Hw. destruct (deliver_pending a [] Hw) as [? Hp]. split; try done. by rewrite Hp, app_nil_r.
Qed.

Lemma conn_equiv_trans a b c : conn_equiv a b -> conn_equiv b c -> conn_equiv a c.
Proof. intros [] []. split; congruence. Qed.

Lemma conn_equiv_sym a b : conn_equiv a b -> conn_equiv b a.
Proof. intros []. by split. Qed.

(** A step without a result found no whole frame and changed nothing. *)
Lemma step_none a a' :
  control_conn_step a = Ok (a', None) ->
  a' = a /\ parse_frame (RecvBuffer.pending (read_buf a)) = Ok None.
Proof.
  unfold control_conn_step. destruct (parse_frame _) as [[[p n]|]|]; [|by intros [= <-]|done].
  intros Ha. exfalso. destruct (conn_state a); [destruct (decode_client_hello _); done|..];
    (destruct (control a) as [tr|]; [|done]; run_result in Ha;
     destruct (RecordProtection.open_next_in_place tr _ _) as [tr' [m|]]; [|done]; run_result in Ha;
     by destruct (decode_client_control m)).
Qed.

(** The step, and hence the loop, respects the equivalence. *)
Lemma step_equiv a b a' st :
  conn_equiv a b -> control_conn_step a = Ok (a', st) ->
  exists b', control_conn_step b = Ok (b', st) /\ conn_equiv a' b'.
Proof.
  intros Hab Ha. pose proof (eq_wf_l _ _ Hab) as Hw. destruct st as [st|].
  - destruct (step_extend a b [] a' st Hw) as (b' & Hb & He & Hw').
    + eapply conn_equiv_trans; [by apply deliver_nil|done].
    + done.
    + exists b'. split; [done|]. eapply conn_equiv_trans; [|exact He]. by apply conn_equiv_sym, deliver_nil.
  - apply step_none in Ha as [-> Hp]. exists b. split; [|done].
    unfold control_conn_step. by rewrite <- (eq_pending _ _ Hab), Hp.
Qed.

Lemma drain_equiv n a b a' sts :
  conn_equiv a b -> control_drain n a = Ok (a', sts) ->
  exists b', control_drain n b = Ok (b', sts) /\ conn_equiv a' b'.
Proof.
  revert a b a' sts. induction n as [|n IH]; intros a b a' sts Hab; cbn [control_drain].
  { intros [= <- <-]. by exists b. }
  destruct (control_conn_step a) as [[a1 st]|] eqn:E; [|done]. run_result.
  destruct (step_equiv a b a1 st Hab E) as (b1 & -> & H1). run_result.
  destruct st as [st|]; [|intros [= <- <-]; by exists b1].
  destruct (control_drain n a1) as [[a2 sts']|] eqn:E2; [|done]. run_result. intros [= <- <-].
  destruct (IH a1 b1 a2 sts' H1 E2) as (b2 & -> & H2). run_result. by exists b2.
Qed.

Lemma drain_wf n a a' sts :
  RecvBuffer.wf (read_buf a) -> control_drain n a = Ok (a', sts) -> conn_equiv a' a'.
Proof.
  intros Hw Hd. destruct (drain_equiv n a a a' sts) as (b & Hb & He); [by split|done|].
  rewrite Hd in Hb. by injection Hb as <-.
Qed.

(** More fuel changes nothing once a drain has stopped by itself. *)
Lemma drain_more n k a a' sts :
  control_drain n a = Ok (a', sts) -> (length sts < n)%nat -> control_drain (k + n) a = Ok (a', sts).
Proof.
  revert a a' sts. induction n as [|n IH]; intros a a' sts; [simpl; lia|].
  replace (k + S n)%nat with (S (k + n)) by lia. cbn [control_drain].
  destruct (control_conn_step a) as [[a1 [st|]]|]; run_result; [|done|done].
  destruct (control_drain n a1) as [[a2 sts']|] eqn:E2; [|done]. run_result.
  intros [= <- <-] Hl. simpl in Hl. rewrite (IH a1 a2 sts') by (done || lia). done.
Qed.

End step.

(** ** Properties *)

(** C25: the control messages a client seals and frames are delivered by the
    server's connection loop exactly once, in order, and nothing else is: with
    any incomplete frame behind them left unread in the buffer, and with both
    ends of the lane still in step.  (The loop is the plain one, which does not
    pause between frames.) *)
Theorem control_lane_delivers `{PrimitiveLaws} {C : Type} (decode_hello : bytes -> option ClientHello)
    (decode : bytes -> option C) (s r : RecordProtection) (msgs : list bytes) (cs : list C) :
  linked s r -> room s (len msgs) ->
  Forall (fun m => len m + 28 <= MAX_FRAME_LEN) msgs -> Forall2 (fun m c => decode m = Some c) msgs cs ->
  exists s' frames, RecordProtection.seal_all s CHANNEL_CONTROL msgs = (s', Ok frames) /\
    forall (client : ClientConn) (partial : bytes),
      RecvBuffer.wf (read_buf client) -> conn_state client <> AwaitClientHello ->
      control client = Some r ->
      RecvBuffer.pending (read_buf client) = mjoin (framed <$> frames) ++ partial ->
      parse_frame partial = Ok None ->
      exists client' r', control_drain decode_hello decode (S (length msgs)) client =
          Ok (client', StepControl <$> cs) /\
        RecvBuffer.pending (read_buf client') = partial /\ control client' = Some r' /\ linked s' r'.
Proof.
  intros Hl Hroom Hm Hdec. revert s r Hl Hroom. induction Hdec as [|m c msgs cs Hd Hdec IH]; intros s r Hl Hroom.
  { exists s, []. split; [done|]. intros client partial Hw Hst Hc Hp Hnone. cbn in Hp.
    exists client, r. cbn [length control_drain]. unfold control_conn_step. rewrite Hp, Hnone. done. }
  apply Forall_cons in Hm as [Hm Hms]. rewrite len_cons in Hroom. pose proof (len_nonneg msgs).
  destruct (seal_open_next s r CHANNEL_CONTROL m Hl) as (f & s1 & r1 & Hs & Ho & Hl1 & Hr1).
  { destruct s; simpl in *; [lia|done]. }
  { unfold MAX_FRAME_LEN in Hm. unfold AEAD_MAX. lia. }
  destruct (IH Hms s1 r1 Hl1 (Hr1 _ Hroom)) as (s2 & frames & Hseal & Hdrain).
  exists s2, (f :: frames). split; [cbn; by rewrite Hs, Hseal|].
  intros client partial Hw Hst Hc Hp Hnone. cbn [fmap list_fmap mjoin list_join] in Hp.
  rewrite <- (assoc_L (++)) in Hp.
  assert (Hfl : len f <= MAX_FRAME_LEN).
  { apply seal_next_length in Hs. unfold len in *. rewrite Hs. destruct s; simpl;
      unfold TRANSPORT_HEADER_LEN, TAG_LEN; lia. }
  destruct (step_record decode_hello decode client r f _ r1 m c Hw Hfl Hp Hst Hc Ho Hd)
    as (client1 & Hstep & Hw1 & Hp1 & Hst1 & Hc1).
  destruct (Hdrain client1 partial Hw1) as (client2 & r2 & Hd2 & Hp2 & Hc2 & Hl2);
    [by rewrite Hst1|done|done|done|].
  exists client2, r2. cbn [length control_drain] in Hd2 |- *. rewrite Hstep. run_result.
  rewrite Hd2. run_result. done.
Qed.

(** C26: how TCP splits the bytes does not matter: draining what has arrived
    and then draining again after more bytes yields the same steps, and an
    indistinguishable connection, as draining once after all bytes arrived.  (The
    loop is the plain one, which does not pause between frames.) *)
Theorem control_drain_chunking `{PrimitiveLaws} {C : Type} (decode_hello : bytes -> option ClientHello)
    (decode : bytes -> option C) (client client1 client2 : ClientConn) (more : bytes) (n m : nat)
    (steps1 steps2 : list (ControlStep ClientHello C)) :
  RecvBuffer.wf (read_buf client) ->
  control_drain decode_hello decode n client = Ok (client1, steps1) -> (length steps1 < n)%nat ->
  control_drain decode_hello decode m (deliver client1 more) = Ok (client2, steps2) -> (length steps2 < m)%nat ->
  exists client2', control_drain decode_hello decode (n + m) (deliver client more) =
      Ok (client2', steps1 ++ steps2) /\ conn_equiv client2 client2'.
Proof.
  revert client client1 steps1. induction n as [|n IH]; intros client client1 steps1 Hw; cbn [control_drain Nat.add].
  { simpl. lia. }
  destruct (control_conn_step decode_hello decode client) as [[c1 [st|]]|] eqn:E; run_result; [| |done].
  - destruct (control_drain decode_hello decode n c1) as [[c2 sts]|] eqn:E2; [|done]. run_result.
    intros [= <- <-] Hn Hm Hlm. simpl in Hn.
    destruct (deliver_pending client more Hw) as [Hwd _].
    destruct (step_extend decode_hello decode client (deliver client more) more c1 st Hw) as (b' & -> & He & Hw1); [by split|done|].
    run_result. destruct (IH c1 c2 sts Hw1 E2) as (c3 & Hd3 & He3); [lia|done|done|].
    destruct (drain_equiv decode_hello decode (n + m) _ b' _ _ He Hd3) as (c4 & -> & He4). run_result.
    exists c4. split; [done|]. by eapply conn_equiv_trans.
  - intros [= <- <-] _ Hm Hlm.
    apply step_none in E as [-> _].
    pose proof (drain_more decode_hello decode m (S n) _ _ _ Hm Hlm) as Hmore.
    cbn [Nat.add control_drain] in Hmore. rewrite Hmore. exists client2. split; [done|].
    eapply drain_wf; [|exact Hm]. by destruct (deliver_pending client more Hw).
Qed.


(** Witness data: one lane over the toy primitives, payloads decoded to themselves. *)
#[local] Existing Instance Toy.toy.
#[local] Existing Instance Toy.toy_laws.

Definition toy_conn (r : RecordProtection) (bs : bytes) : ClientConn :=
  {| conn_state := Ready; read_buf := {| rb_buf := bs; rb_start := 0 |}; control := Some r |}.

Lemma control_lane_delivers_witness :
  exists frames client',
    control_drain (fun _ => None) Some 2
      (toy_conn (RecordAead toy_lane) (mjoin (framed <$> frames) ++ [Byte.x01])) =
    Ok (client', [StepControl (ascii_bytes "hi")]).
Proof.
  destruct (control_lane_delivers (fun _ => None) Some (RecordAead toy_lane) (RecordAead toy_lane)
    [ascii_bytes "hi"] [ascii_bytes "hi"]) as (s' & frames & _ & Hd).
  - repeat split; vm_compute; done.
  - vm_compute. discriminate.
  - decide_closed.
  - repeat constructor.
  - destruct (Hd (toy_conn (RecordAead toy_lane) (mjoin (framed <$> frames) ++ [Byte.x01])) [Byte.x01])
      as (client' & r' & Hdrain & _).
    + unfold RecvBuffer.wf. simpl. lia.
    + discriminate.
    + reflexivity.
    + unfold RecvBuffer.pending. apply drop_0.
    + reflexivity.
    + exists frames, client'. exact Hdrain.
Defined.

Lemma control_drain_chunking_witness :
  let first := framed (ascii_bytes "a") ++ take 3 (framed (ascii_bytes "bc")) in
  let rest := drop 3 (framed (ascii_bytes "bc")) in
  exists client2,
    control_drain (fun _ => None) Some 4 (deliver (toy_conn RecordClear first) rest) =
    Ok (client2, [StepControl (ascii_bytes "a"); StepControl (ascii_bytes "bc")]).
Proof.
  intros first rest.
  destruct (control_drain_chunking (fun _ => None) Some (toy_conn RecordClear first)
    (match control_drain (fun _ => None) Some 2 (toy_conn RecordClear first) with
     | Ok (c, _) => c | Err _ => toy_conn RecordClear [] end)
    (toy_conn RecordClear []) rest 2 2 [StepControl (ascii_bytes "a")] [StepControl (ascii_bytes "bc")])
    as (c & Hc & _).
  - unfold RecvBuffer.wf. simpl. lia.
  - vm_compute. reflexivity.
  - simpl. lia.
  - vm_compute. reflexivity.
  - simpl. lia.
  - exists c. exact Hc.
Defined.
