(* ===== verification/Video.v ===== *)
(** * The screen-share video connection

    Models src/crates/video/src/video.rs (the plaintext frame header) and
    src/crates/rpc/src/video.rs (auth proof, outer records, the incremental
    record reader and its pump, shared frames).  A [Vec] whose capacity the code
    inspects is its bytes with that capacity. *)

From S2P Require Import Prelude Primitives Transport Handshake Auth Frame Evented.

(** ** Plaintext frames *)

Definition VIDEO_FRAME_HEADER_LEN : nat := 17.
Definition VIDEO_FRAME_FLAG_KEY : Z := 1.
Definition VIDEO_FRAME_FLAG_BOOTSTRAP_END : Z := 2.
Definition MAX_VIDEO_RECORD_LEN : Z := 8 * 1024 * 1024.
Definition MAX_RECORD_OVERHEAD : Z := 32.
Definition MAX_VIDEO_FRAME_LEN : Z := MAX_VIDEO_RECORD_LEN - MAX_RECORD_OVERHEAD.

Record VideoFrameHeader := mkVideoHeader {
  vh_size : Z;
  vh_ts_ms : Z;
  vh_is_key : bool;
  vh_bootstrap_end : bool;
  vh_stream_id : Z;
}.

Record VideoFrame := mkVideoFrame {
  vf_ts_ms : Z;
  vf_is_key : bool;
  vf_bootstrap_end : bool;
  vf_stream_id : Z;
  vf_data : bytes;
}.

Inductive VideoFrameError := VideoTooLarge | VideoLengthOverflow | BadHeader.

(** Two's complement [i64]. *)
Definition is_i64 (z : Z) : Prop := - 2 ^ 63 <= z < 2 ^ 63.
Definition i64_to_le_bytes (z : Z) : bytes := le_bytes 8 (wrap 64 z).
Definition i64_from_le_bytes (bs : bytes) : Z :=
  let z := of_le bs in if decide (z < 2 ^ 63) then z else z - 2 ^ 64.

Definition write_video_frame (out : bytes) (ts_ms : Z) (is_key : bool) (stream_id : Z) (body : bytes) : bytes :=
  let size := wrap 32 (len body + Z.of_nat VIDEO_FRAME_HEADER_LEN) in
  out ++ le_bytes 4 size ++ i64_to_le_bytes ts_ms ++
  [of_u8 (if is_key then VIDEO_FRAME_FLAG_KEY else 0)] ++ le_bytes 4 stream_id ++ body.

Definition write_video_bootstrap_end (out : bytes) (stream_id : Z) : bytes :=
  out ++ le_bytes 4 (Z.of_nat VIDEO_FRAME_HEADER_LEN) ++ i64_to_le_bytes 0 ++
  [of_u8 VIDEO_FRAME_FLAG_BOOTSTRAP_END] ++ le_bytes 4 stream_id.

Definition encode_video_bootstrap_end (stream_id : Z) : bytes := write_video_bootstrap_end [] stream_id.

Definition encode_video_frame (ts_ms : Z) (is_key : bool) (stream_id : Z) (body : bytes) : bytes :=
  write_video_frame [] ts_ms is_key stream_id body.

Definition parse_video_frame_header (buffer : bytes) : result VideoFrameError (option VideoFrameHeader) :=
  if decide (length buffer < VIDEO_FRAME_HEADER_LEN)%nat then Ok None
  else
    let size := of_le (slice buffer 0 4) in
    if decide (size < Z.of_nat VIDEO_FRAME_HEADER_LEN) then Err BadHeader
    else if decide (size > MAX_VIDEO_FRAME_LEN) then Err VideoTooLarge
    else
      let flags := u8 (buffer !!! 12%nat) in
      '(is_key, bootstrap_end) ←
        (if decide (flags = 0) then Ok (false, false)
         else if decide (flags = VIDEO_FRAME_FLAG_KEY) then Ok (true, false)
         else if decide (flags = VIDEO_FRAME_FLAG_BOOTSTRAP_END /\ size = Z.of_nat VIDEO_FRAME_HEADER_LEN)
         then Ok (false, true)
         else Err BadHeader);
      Ok (Some {| vh_size := size; vh_ts_ms := i64_from_le_bytes (slice buffer 4 12);
                  vh_is_key := is_key; vh_bootstrap_end := bootstrap_end;
                  vh_stream_id := of_le (slice buffer 13 17) |}).

Definition parse_video_frame (buffer : bytes) : result VideoFrameError (option (VideoFrame * Z)) :=
  header ← parse_video_frame_header buffer;
  match header with
  | None => Ok None
  | Some header =>
      if decide (len buffer < vh_size header) then Ok None
      else Ok (Some ({| vf_ts_ms := vh_ts_ms header; vf_is_key := vh_is_key header;
                        vf_bootstrap_end := vh_bootstrap_end header; vf_stream_id := vh_stream_id header;
                        vf_data := slice buffer VIDEO_FRAME_HEADER_LEN (Z.to_nat (vh_size header)) |},
                     vh_size header))
  end.

(** ** Authentication of a video connection *)

Definition VIDEO_MAGIC : bytes := ascii_bytes "CHTVID01".
Definition VIDEO_LENGTH_PREFIX_LEN : nat := 4.
Definition MAX_VIDEO_HELLO_BYTES : nat := 4 * 1024.

Inductive VideoRole := Publisher | Subscriber.

Definition proof_byte (r : VideoRole) : Z := match r with Publisher => 0 | Subscriber => 1 end.

Definition video_auth_message (session_id stream_id : Z) (role : VideoRole) (mode : TransportMode) : bytes :=
  ascii_bytes "chatt video auth proof v1" ++ le_bytes 8 session_id ++ le_bytes 4 stream_id ++
  [of_u8 (proof_byte role); of_u8 (TransportMode.wire_id mode)].

Definition video_auth_proof `{Primitives} (key : bytes) (session_id stream_id : Z) (role : VideoRole)
    (mode : TransportMode) : bytes :=
  auth_proof key (video_auth_message session_id stream_id role mode).

Definition video_auth_proof_verify `{Primitives} (key : bytes) (session_id stream_id : Z) (role : VideoRole)
    (mode : TransportMode) (tag : bytes) : bool :=
  auth_proof_verify key (video_auth_message session_id stream_id role mode) tag.

(** [VideoHello] and [VideoAck] are jsony payloads behind a size guard. *)
Record VideoHello := mkVideoHello {
  hello_version : Z;
  hello_session_id : Z;
  hello_stream_id : Z;
  hello_role : VideoRole;
}.

Inductive VideoAck := AckOk | AckRejected.

Definition decode_video_hello (from_binary : bytes -> option VideoHello) (bs : bytes) : option VideoHello :=
  if decide (MAX_VIDEO_HELLO_BYTES < length bs)%nat then None else from_binary bs.

Definition decode_video_ack (from_binary : bytes -> option VideoAck) (bs : bytes) : option VideoAck :=
  if decide (MAX_VIDEO_HELLO_BYTES < length bs)%nat then None else from_binary bs.

(** ** Shared frames *)

Record vec := mkVec { vec_data : bytes; vec_cap : nat }.

Record SharedVideoFrame := mkShared { sf_buf : vec; sf_off : nat; sf_len : nat }.

Module SharedVideoFrame.

Definition as_slice (f : SharedVideoFrame) : bytes :=
  slice (vec_data (sf_buf f)) (sf_off f) (sf_off f + sf_len f).

Definition len (f : SharedVideoFrame) : nat := sf_len f.

Definition is_empty (f : SharedVideoFrame) : bool := bool_decide (sf_len f = 0%nat).

Definition retained_bytes (f : SharedVideoFrame) : nat := vec_cap (sf_buf f).

Definition from_vec (buf : vec) : SharedVideoFrame :=
  {| sf_buf := buf; sf_off := 0; sf_len := length (vec_data buf) |}.

Section alloc.
(** The capacity [Vec::with_capacity n] gives. *)
Context (with_capacity : nat -> nat).

Definition copy_from_slice (slice : bytes) : SharedVideoFrame :=
  from_vec {| vec_data := slice; vec_cap := with_capacity (length slice) |}.

(** [None] is the assertion failure; beside the frame, whether it was copied. *)
Definition from_record (buf : vec) (off n : nat) : option (SharedVideoFrame * bool) :=
  if decide (off + n <= length (vec_data buf))%nat then
    let exact := bool_decide (vec_cap buf = length (vec_data buf)) in
    let overhead_bounded := bool_decide (length (vec_data buf) <= n + TRANSPORT_HEADER_LEN + TAG_LEN)%nat in
    if exact && overhead_bounded then Some ({| sf_buf := buf; sf_off := off; sf_len := n |}, false)
    else Some (copy_from_slice (slice (vec_data buf) off (off + n)), true)
  else None.

End alloc.
End SharedVideoFrame.

(** ** Outer records *)

Definition write_record (out payload : bytes) : bytes * result VideoFrameError unit :=
  if decide (len payload > MAX_VIDEO_RECORD_LEN) then (out, Err VideoTooLarge)
  else if decide (len payload < 2 ^ 32) then (out ++ le_bytes 4 (len payload) ++ payload, Ok tt)
  else (out, Err VideoLengthOverflow).

Definition parse_record (buffer : bytes) : result VideoFrameError (option (bytes * Z)) :=
  match get_range buffer 0 (Z.of_nat VIDEO_LENGTH_PREFIX_LEN) with
  | None => Ok None
  | Some prefix =>
      let n := of_le prefix in
      if decide (n > MAX_VIDEO_RECORD_LEN) then Err VideoTooLarge
      else
        let total := Z.of_nat VIDEO_LENGTH_PREFIX_LEN + n in
        match get_range buffer (Z.of_nat VIDEO_LENGTH_PREFIX_LEN) total with
        | None => Ok None
        | Some payload => Ok (Some (payload, total))
        end
  end.

Record VideoRecordReader := mkReader {
  prefix : bytes;
  prefix_len : nat;
  body : bytes;
  target : option Z;
}.

Module VideoRecordReader.

Definition new : VideoRecordReader :=
  {| prefix := replicate VIDEO_LENGTH_PREFIX_LEN Byte.x00; prefix_len := 0; body := []; target := None |}.

Definition record_ready (r : VideoRecordReader) : bool :=
  match target r with Some t => bool_decide (len (body r) = t) | None => false end.

Definition take_record (r : VideoRecordReader) : VideoRecordReader * option bytes :=
  if negb (record_ready r) then (r, None)
  else ({| prefix := prefix r; prefix_len := 0; body := []; target := None |}, Some (body r)).

Definition begin_body (r : VideoRecordReader) : VideoRecordReader * result VideoFrameError unit :=
  let n := of_le (prefix r) in
  if decide (n > MAX_VIDEO_RECORD_LEN) then (r, Err VideoTooLarge)
  else ({| prefix := prefix r; prefix_len := prefix_len r; body := body r; target := Some n |}, Ok tt).

(** Bytes landing in the prefix array at the cursor. *)
Definition put_prefix (r : VideoRecordReader) (bs : bytes) : VideoRecordReader :=
  {| prefix := take (prefix_len r) (prefix r) ++ bs ++ drop (prefix_len r + length bs) (prefix r);
     prefix_len := prefix_len r + length bs; body := body r; target := target r |}.

Definition put_body (r : VideoRecordReader) (bs : bytes) : VideoRecordReader :=
  {| prefix := prefix r; prefix_len := prefix_len r; body := body r ++ bs; target := target r |}.

(** The end of both prefix branches: start the body once the prefix is whole. *)
Definition after_prefix (r : VideoRecordReader) (n : nat) : VideoRecordReader * result VideoFrameError nat :=
  if decide (prefix_len r = VIDEO_LENGTH_PREFIX_LEN)
  then let '(r, e) := begin_body r in (r, (fun _ => n) <$> e)
  else (r, Ok n).

(** How much of the body is missing; [target] is set once the prefix is whole. *)
Definition missing (r : VideoRecordReader) : nat :=
  match target r with Some t => Z.to_nat (t - len (body r)) | None => 0 end.

Definition accept (r : VideoRecordReader) (input : bytes) : VideoRecordReader * result VideoFrameError nat :=
  if record_ready r || bool_decide (input = []) then (r, Ok 0%nat)
  else if decide (prefix_len r < VIDEO_LENGTH_PREFIX_LEN)%nat then
    let n := Nat.min (length input) (VIDEO_LENGTH_PREFIX_LEN - prefix_len r) in
    after_prefix (put_prefix r (take n input)) n
  else
    let n := Nat.min (length input) (missing r) in
    (put_body r (take n input), Ok n).

(** [read_fd] is the retry loop of [RecvBuffer]. *)
Definition fill {Sock} `{SocketSource Sock} (fuel : nat) (s : Sock) (r : VideoRecordReader) (max_read : nat)
    : option (Sock * VideoRecordReader * result IoError nat) :=
  if decide (prefix_len r < VIDEO_LENGTH_PREFIX_LEN)%nat then
    let want := Nat.min (VIDEO_LENGTH_PREFIX_LEN - prefix_len r) max_read in
    '(s, res) ← RecvBuffer.recv_retry fuel s want;
    match res with
    | Err e => Some (s, r, Err e)
    | Ok bs => let '(r, e) := after_prefix (put_prefix r bs) (length bs) in
               Some (s, r, map_err (fun _ => InvalidData) e)
    end
  else
    let want := Nat.min (missing r) max_read in
    '(s, res) ← RecvBuffer.recv_retry fuel s want;
    match res with
    | Err e => Some (s, r, Err e)
    | Ok bs => Some (s, put_body r bs, Ok (length bs))
    end.

End VideoRecordReader.

Section video_pump.
Context {Sock : Type} `{SocketSource Sock}.
Context (tries byte_budget : nat).

Fixpoint video_read_loop (fuel : nat) (s : Sock) (r : VideoRecordReader) (ready : bool) (o : ReadPumpOutcome)
    : option (Sock * VideoRecordReader * bool * result IoError ReadPumpOutcome) :=
  match fuel with
  | O => None
  | S fuel =>
    if ready && negb (VideoRecordReader.record_ready r) && bool_decide (bytes_read o < byte_budget)%nat then
      match VideoRecordReader.fill tries s r (byte_budget - bytes_read o) with
      | None => None
      | Some (s, r, Ok O) =>
          Some (s, r, false, Ok {| bytes_read := bytes_read o; hit_limit := hit_limit o; disconnected := true |})
      | Some (s, r, Ok n) =>
          video_read_loop fuel s r ready
            {| bytes_read := bytes_read o + n; hit_limit := hit_limit o; disconnected := disconnected o |}
      | Some (s, r, Err WouldBlock) => Some (s, r, false, Ok o)
      | Some (s, r, Err e) => Some (s, r, ready, Err e)
      end
    else Some (s, r, ready, Ok o)
  end.

Definition read_video_record (fuel : nat) (s : Sock) (r : VideoRecordReader) (ready : bool)
    : option (Sock * VideoRecordReader * bool * result IoError ReadPumpOutcome) :=
  '(s, r, ready, res) ← video_read_loop fuel s r ready
                          {| bytes_read := 0; hit_limit := false; disconnected := false |};
  match res with
  | Err e => Some (s, r, ready, Err e)
  | Ok o =>
      let o := if ready && negb (VideoRecordReader.record_ready r) && bool_decide (byte_budget <= bytes_read o)%nat
               then {| bytes_read := bytes_read o; hit_limit := true; disconnected := disconnected o |} else o in
      Some (s, r, ready, Ok o)
  end.

End video_pump.

(** Handing buffered bytes over to the reader and taking each record as it
    completes, as the server does with bytes read before the reader attached:
    the records, and the reader with the bytes not looked at when fuel ran out. *)
Fixpoint feed (fuel : nat) (r : VideoRecordReader) (input : bytes) (out : list bytes)
    : list bytes * result VideoFrameError (VideoRecordReader * bytes) :=
  match fuel with
  | O => (out, Ok (r, input))
  | S fuel =>
    match VideoRecordReader.take_record r with
    | (r, Some record) => feed fuel r input (out ++ [record])
    | (r, None) =>
        if decide (input = []) then (out, Ok (r, []))
        else match VideoRecordReader.accept r input with
        | (r, Err e) => (out, Err e)
        | (r, Ok n) => feed fuel r (drop n input) out
        end
    end
  end.

(** The reference: cut whole records off the front of the stream. *)
Fixpoint split_records (fuel : nat) (stream : bytes) (out : list bytes)
    : list bytes * result VideoFrameError bytes :=
  match fuel with
  | O => (out, Ok stream)
  | S fuel =>
    match parse_record stream with
    | Err e => (out, Err e)
    | Ok None => (out, Ok stream)
    | Ok (Some (record, n)) => split_records fuel (drop (Z.to_nat n) stream) (out ++ [record])
    end
  end.

(** ** Lemmas: records *)

Lemma max_record : MAX_VIDEO_RECORD_LEN = 8388608.
Proof. reflexivity. Qed.

(** The outer record is the frame codec with another limit and error type. *)
Lemma parse_record_frame b :
  parse_record b = map_err (fun _ => VideoTooLarge) (parse_frame_with_limit b MAX_VIDEO_RECORD_LEN).
Proof.
  unfold parse_record, parse_frame_with_limit, VIDEO_LENGTH_PREFIX_LEN, LENGTH_PREFIX_LEN.
  destruct (get_range b 0 _) as [p|]; [|done]. case_decide; [done|].
  by destruct (get_range b (Z.of_nat 4) _).
Qed.

Lemma parse_record_framed p rest :
  len p <= MAX_VIDEO_RECORD_LEN -> parse_record (framed p ++ rest) = Ok (Some (p, 4 + len p)).
Proof. intros. rewrite parse_record_frame, parse_framed; [done|done|rewrite max_record; lia]. Qed.

Definition buffered (r : VideoRecordReader) : bytes := take (prefix_len r) (prefix r) ++ body r.

(** The reader between two records, inside a prefix or inside a body. *)
Definition reader_wf (r : VideoRecordReader) : Prop :=
  length (prefix r) = 4%nat /\
  match target r with
  | None => (prefix_len r < 4)%nat /\ body r = []
  | Some t => prefix_len r = 4%nat /\ t = of_le (prefix r) /\ t <= MAX_VIDEO_RECORD_LEN /\ len (body r) <= t
  end.

Lemma reader_new_wf : reader_wf VideoRecordReader.new.
Proof. split; [done|]. simpl. split; [lia|done]. Qed.

Lemma length_buffered r : reader_wf r -> length (buffered r) = (prefix_len r + length (body r))%nat.
Proof.
  intros [Hp Ht]. unfold buffered. rewrite length_app, length_take, Hp.
  destruct (target r); [lia|]. destruct Ht as [? ->]. simpl. lia.
Qed.

Lemma ready_framed r :
  reader_wf r -> VideoRecordReader.record_ready r = true ->
  buffered r = framed (body r) /\ len (body r) <= MAX_VIDEO_RECORD_LEN.
Proof.
  intros [Hp Ht]. unfold VideoRecordReader.record_ready. destruct (target r) as [t|]; [|done].
  destruct Ht as (Hl & Ht & Hmax & _). rewrite bool_decide_eq_true. intros Hr. split; [|lia].
  unfold buffered, framed. rewrite Hr, Ht, Hl, (le_bytes_of_le 4) by done.
  by rewrite firstn_all2 by lia.
Qed.

Lemma not_ready_incomplete r :
  reader_wf r -> VideoRecordReader.record_ready r = false -> parse_record (buffered r) = Ok None.
Proof.
  intros Hw. pose proof (length_buffered r Hw) as Hlen. destruct Hw as [Hp Ht].
  unfold VideoRecordReader.record_ready, parse_record, get_range, VIDEO_LENGTH_PREFIX_LEN.
  destruct (target r) as [t|].
  - destruct Ht as (Hl & Ht & Hmax & Hb). rewrite bool_decide_eq_false. intros Hr.
    rewrite decide_True by (unfold len; lia).
    assert (slice (buffered r) (Z.to_nat 0) (Z.to_nat (Z.of_nat 4)) = prefix r) as ->.
    { unfold buffered. rewrite Hl, firstn_all2 by lia. by apply slice_front. }
    rewrite <- Ht. rewrite decide_False by lia. rewrite decide_False; [done|]. unfold len in *. lia.
  - intros _. destruct Ht as [Hl Hb]. rewrite decide_False; [done|].
    rewrite Hb in Hlen. simpl in Hlen. unfold len. lia.
Qed.

(** Prefix bytes land behind the ones already there. *)
Lemma put_prefix_ok r bs :
  reader_wf r -> (prefix_len r + length bs <= 4)%nat -> target r = None ->
  let r' := VideoRecordReader.put_prefix r bs in
  length (prefix r') = 4%nat /\ prefix_len r' = (prefix_len r + length bs)%nat /\
  buffered r' = buffered r ++ bs /\ target r' = None /\ body r' = [].
Proof.
  intros [Hp Ht] Hn E. rewrite E in Ht. destruct Ht as [Hl Hb]. cbn.
  assert (length (take (prefix_len r) (prefix r)) = prefix_len r) as Ht4 by (rewrite length_take; lia).
  split; [rewrite !length_app, length_drop, Ht4; lia|]. split; [done|]. split; [|done].
  unfold buffered. cbn. rewrite Hb, !app_nil_r, (assoc_L (++)).
  rewrite take_app_length'; [done|]. rewrite length_app, Ht4. done.
Qed.

(** What both prefix branches end with: either the reader moved on, or the
    length is over the limit, in which case so it is for the whole stream. *)
Lemma after_prefix_ok r bs n more :
  reader_wf r -> (0 < length bs)%nat -> (prefix_len r + length bs <= 4)%nat -> target r = None ->
  match VideoRecordReader.after_prefix (VideoRecordReader.put_prefix r bs) n with
  | (r', Ok k) => k = n /\ reader_wf r' /\ buffered r' = buffered r ++ bs
  | (r', Err e) => e = VideoTooLarge /\ buffered r' = buffered r ++ bs /\
      parse_record (buffered r ++ bs ++ more) = Err VideoTooLarge
  end.
Proof.
  intros Hw Hpos Hn Ht. destruct (put_prefix_ok r bs Hw Hn Ht) as (Hp & Hl & Hb & Ht' & Hbd).
  unfold VideoRecordReader.after_prefix. set (r1 := VideoRecordReader.put_prefix r bs) in *. clearbody r1.
  destruct (decide (prefix_len r1 = VIDEO_LENGTH_PREFIX_LEN)) as [H4|H4]; unfold VIDEO_LENGTH_PREFIX_LEN in H4.
  - unfold VideoRecordReader.begin_body.
    assert (buffered r1 = prefix r1) as Hpre.
    { unfold buffered. by rewrite Hbd, app_nil_r, H4, firstn_all2 by lia. }
    destruct (decide (of_le (prefix r1) > MAX_VIDEO_RECORD_LEN)) as [Hbig|Hok]; cbn.
    + split; [done|]. split; [done|]. rewrite (assoc_L (++)), <- Hb, Hpre.
      unfold parse_record, VIDEO_LENGTH_PREFIX_LEN.
      rewrite (get_range_mid [] (prefix r1) more 0 _ eq_refl) by (unfold len; lia). by rewrite decide_True.
    + split; [done|]. split; [|exact Hb]. split; [done|]. cbn. split; [done|]. split; [done|].
      split; [lia|]. rewrite Hbd. unfold len. simpl.
      pose proof (of_le_bound (prefix r1)). lia.
  - cbn. split; [done|]. split; [|done]. split; [done|]. rewrite Ht'. split; [lia|done].
Qed.

Lemma accept_ok r input :
  reader_wf r -> VideoRecordReader.record_ready r = false -> input <> [] ->
  match VideoRecordReader.accept r input with
  | (r', Ok k) => (0 < k <= length input)%nat /\ reader_wf r' /\ buffered r' = buffered r ++ take k input
  | (r', Err e) => e = VideoTooLarge /\ parse_record (buffered r ++ input) = Err VideoTooLarge
  end.
Proof.
  intros Hw Hr Hi. unfold VideoRecordReader.accept. rewrite Hr, bool_decide_eq_false_2 by done. cbn [orb].
  assert (0 < length input)%nat by (destruct input; [done|simpl; lia]).
  pose proof Hw as [Hp Ht]. destruct (target r) as [t|] eqn:Et.
  - destruct Ht as (Hl & Ht & Hmax & Hb). rewrite decide_False by (unfold VIDEO_LENGTH_PREFIX_LEN; lia).
    unfold VideoRecordReader.record_ready in Hr. rewrite Et in Hr. apply bool_decide_eq_false in Hr.
    unfold VideoRecordReader.missing. rewrite Et. set (n := Nat.min _ _).
    assert (0 < n <= length input)%nat by (unfold len in *; lia).
    split; [done|]. unfold VideoRecordReader.put_body. split.
    + split; [done|]. cbn. rewrite Et. split; [done|]. split; [done|]. split; [done|].
      rewrite len_app. unfold len in *. rewrite length_take. lia.
    + unfold buffered. cbn. by rewrite (assoc_L (++)).
  - destruct Ht as [Hl Hb]. rewrite decide_True by (unfold VIDEO_LENGTH_PREFIX_LEN; lia).
    unfold VIDEO_LENGTH_PREFIX_LEN. set (n := Nat.min _ _).
    assert (length (take n input) = n) as Hln by (rewrite length_take; lia).
    pose proof (after_prefix_ok r (take n input) n (drop n input) Hw) as Hap.
    rewrite Hln, take_drop in Hap. specialize (Hap ltac:(lia) ltac:(lia) Et).
    destruct (VideoRecordReader.after_prefix _ n) as [r' [k|e]].
    + destruct Hap as (-> & ? & ?). split; [lia|done].
    + destruct Hap as (? & _ & ?). done.
Qed.

Lemma split_framed fuel p rest out :
  len p <= MAX_VIDEO_RECORD_LEN ->
  split_records (S fuel) (framed p ++ rest) out = split_records fuel rest (out ++ [p]).
Proof.
  intros. cbn [split_records]. rewrite parse_record_framed by done. f_equal.
  rewrite drop_app_length'; [done|]. pose proof (len_framed p). pose proof (len_nonneg p). unfold len in *. lia.
Qed.

(** A stopped split does not depend on the fuel. *)
Lemma split_more fuel k stream out :
  (length stream < 4 * fuel)%nat -> split_records (k + fuel) stream out = split_records fuel stream out.
Proof.
  revert stream out. induction fuel as [|fuel IH]; intros stream out Hf; [lia|].
  replace (k + S fuel)%nat with (S (k + fuel)) by lia. cbn [split_records].
  destruct (parse_record stream) as [[[p n]|]|] eqn:E; try done.
  rewrite parse_record_frame in E. destruct (parse_frame_with_limit stream _) as [o|] eqn:Ef; [|done].
  injection E as ->. apply parse_frame_some in Ef as (rest & -> & -> & _).
  rewrite length_app in Hf. pose proof (len_framed p). pose proof (len_nonneg p).
  rewrite drop_app_length' by (unfold len in *; lia). apply IH. unfold len in *. lia.
Qed.

Lemma feed_split fuel r input out n :
  reader_wf r -> (2 * length input + length (buffered r) < fuel)%nat ->
  (length (buffered r) + length input < 4 * n)%nat ->
  match feed fuel r input out with
  | (recs, Ok (r', rest)) =>
      rest = [] /\ reader_wf r' /\ VideoRecordReader.record_ready r' = false /\
      split_records n (buffered r ++ input) out = (recs, Ok (buffered r'))
  | (recs, Err e) => split_records n (buffered r ++ input) out = (recs, Err e)
  end.
Proof.
  revert r input out n. induction fuel as [|fuel IH]; intros r input out n Hw Hf Hn; [lia|].
  cbn [feed]. unfold VideoRecordReader.take_record.
  destruct n as [|n]; [lia|]. destruct (VideoRecordReader.record_ready r) eqn:Er; cbn [negb].
  - destruct (ready_framed r Hw Er) as [Hb Hm]. set (r1 := {| prefix := prefix r; prefix_len := 0;
      body := []; target := None |}).
    assert (Hw1 : reader_wf r1) by (destruct Hw as [Hp _]; split; [done|simpl; split; [lia|done]]).
    pose proof (len_framed (body r)) as Hl. pose proof (len_nonneg (body r)). rewrite Hb in *.
    specialize (IH r1 input (out ++ [body r]) n Hw1). change (buffered r1) with (@nil byte) in IH.
    rewrite split_framed by done. rewrite app_nil_l in IH. apply IH; unfold len in *; simpl; lia.
  - destruct (decide (input = [])) as [->|Hi].
    + rewrite app_nil_r. cbn [split_records]. by rewrite (not_ready_incomplete r Hw Er).
    + pose proof (accept_ok r input Hw Er Hi) as Ha.
      destruct (VideoRecordReader.accept r input) as [r' [k|e]].
      * destruct Ha as (Hk & Hw' & Hb').
        assert (buffered r ++ input = buffered r' ++ drop k input) as ->
          by (rewrite Hb', <- (assoc_L (++)), take_drop; done).
        assert (length (buffered r') = length (buffered r) + k)%nat
          by (rewrite Hb', length_app, length_take; lia).
        apply IH; [done|rewrite length_drop; lia|rewrite length_drop; lia].
      * destruct Ha as [-> Hp]. cbn [split_records]. by rewrite Hp.
Qed.

(** ** Lemmas: the record pump *)

Section video_facts.
Context {Sock : Type} `{StreamSocket Sock}.

Lemma reader_fill_ok fuel s r n :
  (patience s < fuel)%nat -> reader_wf r -> (0 < n)%nat -> VideoRecordReader.record_ready r = false ->
  exists s' r' res, VideoRecordReader.fill fuel s r n = Some (s', r', res) /\ (patience s' <= patience s)%nat /\
    buffered r' ++ incoming s' = buffered r ++ incoming s /\
    match res with
    | Ok k => (k <= n)%nat /\ reader_wf r' /\ length (buffered r') = (length (buffered r) + k)%nat
    | Err e => e <> Interrupted /\ (e = WouldBlock -> reader_wf r' /\ buffered r' = buffered r)
    end.
Proof.
  intros Hf Hw Hn Hr. unfold VideoRecordReader.fill. pose proof Hw as [Hp Ht].
  destruct (decide (prefix_len r < VIDEO_LENGTH_PREFIX_LEN)%nat) as [Hlt|Hge]; unfold VIDEO_LENGTH_PREFIX_LEN in *.
  - assert (target r = None) as Et by (destruct (target r); [lia|done]).
    set (want := Nat.min _ n). destruct (recv_retry_ok fuel s want Hf) as (s1 & res & -> & Hpat & Hres).
    cbn [mbind option_bind]. destruct res as [bs|e].
    + destruct Hres as [Hl Hin]. destruct (decide (bs = [])) as [->|Hne].
      * unfold VideoRecordReader.after_prefix. cbn [VideoRecordReader.put_prefix prefix_len length].
        rewrite decide_False by (unfold VIDEO_LENGTH_PREFIX_LEN; lia). cbn [map_err].
        assert (buffered (VideoRecordReader.put_prefix r []) = buffered r ++ []) as Hb.
        { apply put_prefix_ok; [done|simpl; lia|done]. }
        do 3 eexists. split; [done|]. split; [done|]. rewrite Hb, Hin, app_nil_r. split; [done|].
        split; [simpl; lia|]. split; [|simpl; lia].
        destruct (put_prefix_ok r [] Hw) as (? & Hl2 & _ & Ht2 & Hb2); [simpl; lia|done|].
        split; [done|]. rewrite Ht2. simpl in Hl2. split; [simpl; lia|done].
      * assert (0 < length bs)%nat by (destruct bs; [done|simpl; lia]).
        pose proof (after_prefix_ok r bs (length bs) [] Hw ltac:(lia) ltac:(lia) Et) as Hap.
        destruct (VideoRecordReader.after_prefix _ _) as [r' [k|e]].
        -- destruct Hap as (-> & Hw' & Hb'). do 3 eexists. split; [done|]. split; [done|].
           rewrite Hb', Hin, <- (assoc_L (++)), length_app. split; [done|]. cbn. split; [lia|done].
        -- destruct Hap as (-> & Hb' & _). do 3 eexists. split; [done|]. split; [done|].
           rewrite Hb', Hin, <- (assoc_L (++)). done.
    + destruct Hres as [Hin He]. do 3 eexists. split; [done|]. split; [done|]. rewrite Hin. done.
  - destruct (target r) as [t|] eqn:Et; [|lia]. destruct Ht as (Hl & Ht & Hmax & Hb).
    assert (VideoRecordReader.missing r = Z.to_nat (t - len (body r))) as ->
      by (unfold VideoRecordReader.missing; by rewrite Et).
    set (want := Nat.min _ n). destruct (recv_retry_ok fuel s want Hf) as (s1 & res & -> & Hpat & Hres).
    cbn [mbind option_bind]. destruct res as [bs|e].
    + destruct Hres as [Hlb Hin]. do 3 eexists. split; [done|]. split; [done|].
      assert (buffered (VideoRecordReader.put_body r bs) = buffered r ++ bs) as Hbb
        by (unfold buffered; cbn; by rewrite (assoc_L (++))).
      rewrite Hbb, Hin, <- (assoc_L (++)), length_app. split; [done|]. split; [lia|]. split; [|done].
      split; [done|]. cbn. rewrite Et. split; [done|]. split; [done|]. split; [done|].
      rewrite len_app. unfold len in *. lia.
    + destruct Hres as [Hin He]. do 3 eexists. split; [done|]. split; [done|]. rewrite Hin. done.
Qed.

Lemma video_read_loop_ok tries budget fuel s r ready o :
  (patience s < tries)%nat -> reader_wf r -> (budget - bytes_read o < fuel)%nat -> hit_limit o = false ->
  exists s' r' ready' res,
    video_read_loop tries budget fuel s r ready o = Some (s', r', ready', res) /\
    buffered r' ++ incoming s' = buffered r ++ incoming s /\
    match res with
    | Ok o' => reader_wf r' /\ (bytes_read o' <= Nat.max budget (bytes_read o))%nat /\
        hit_limit o' = false /\
        (ready' = true -> VideoRecordReader.record_ready r' = true \/ (budget <= bytes_read o')%nat)
    | Err e => e <> Interrupted /\ e <> WouldBlock
    end.
Proof.
  revert s r o. induction fuel as [|fuel IH]; intros s r o Hp Hw Hf Ho; [lia|]. cbn [video_read_loop].
  destruct ready; cbn [andb].
  2:{ do 4 eexists. split; [done|]. split; [done|]. split; [done|]. split; [lia|]. by split. }
  destruct (VideoRecordReader.record_ready r) eqn:Er; cbn [negb andb].
  { do 4 eexists. split; [done|]. split; [done|]. split; [done|]. split; [lia|]. auto. }
  case_bool_decide as Hb.
  2:{ do 4 eexists. split; [done|]. split; [done|]. split; [done|]. split; [lia|]. split; [done|]. right. lia. }
  destruct (reader_fill_ok tries s r (budget - bytes_read o) Hp Hw ltac:(lia) Er)
    as (s1 & r1 & res & -> & Hp1 & Hs1 & Hres).
  destruct res as [[|k]|e].
  - do 4 eexists. split; [done|]. split; [done|]. destruct Hres as (_ & Hw1 & _). split; [done|]. cbn. split; [lia|]. by split.
  - destruct Hres as (Hk & Hw1 & _). set (o1 := {| bytes_read := bytes_read o + S k; hit_limit := hit_limit o; disconnected := disconnected o |}).
    destruct (IH s1 r1 o1) as (s2 & r2 & rd & res & -> & Hs2 & Hres2); [lia|done|cbn; lia|done|].
    do 4 eexists. split; [done|]. split; [congruence|]. destruct res; [|done].
    destruct Hres2 as (? & Hle & ? & ?). cbn in Hle. split; [done|]. split; [lia|done].
  - destruct Hres as [Hi Hwb]. destruct (decide (e = WouldBlock)) as [->|Hne].
    + destruct (Hwb eq_refl) as [Hw1 _]. do 4 eexists. split; [done|]. split; [done|]. split; [done|]. split; [lia|]. by split.
    + destruct e; try done; do 4 eexists; (split; [done|]); done.
Qed.

End video_facts.

(** ** Lemmas: frames *)

Lemma i64_roundtrip z : is_i64 z -> i64_from_le_bytes (i64_to_le_bytes z) = z.
Proof.
  intros [? ?]. unfold i64_from_le_bytes, i64_to_le_bytes.
  rewrite (of_le_le_bytes 8) by (apply (is_u_wrap 64); lia). unfold wrap.
  destruct (decide (z < 0)).
  - rewrite <- (Z.mod_add z 1), Z.mod_small by lia. rewrite decide_False by lia. lia.
  - rewrite Z.mod_small by lia. rewrite decide_True by lia. done.
Qed.

Lemma i64_unread a b c d e f g h (bs := [a; b; c; d; e; f; g; h]) :
  is_i64 (i64_from_le_bytes bs) /\ i64_to_le_bytes (i64_from_le_bytes bs) = bs.
Proof.
  pose proof (read8 a b c d e f g h) as [? ?]. subst bs. unfold i64_from_le_bytes, i64_to_le_bytes, is_i64, wrap.
  destruct (decide (of_le [a; b; c; d; e; f; g; h] < 2 ^ 63)).
  - split; [lia|]. rewrite Z.mod_small by lia. apply unfield8.
  - split; [lia|]. rewrite <- (Z.mod_add _ 1), Z.mod_small by lia.
    rewrite Z.mul_1_l, Z.sub_add. apply unfield8.
Qed.

(** The bytes of the two kinds of frame, without the buffer before them. *)
Definition frame_wire (f : VideoFrame) : bytes :=
  if vf_bootstrap_end f then encode_video_bootstrap_end (vf_stream_id f)
  else encode_video_frame (vf_ts_ms f) (vf_is_key f) (vf_stream_id f) (vf_data f).

Definition video_frame_wf (f : VideoFrame) : Prop :=
  is_i64 (vf_ts_ms f) /\ is_u32 (vf_stream_id f) /\
  len (vf_data f) + Z.of_nat VIDEO_FRAME_HEADER_LEN <= MAX_VIDEO_FRAME_LEN /\
  (vf_bootstrap_end f = true -> vf_ts_ms f = 0 /\ vf_is_key f = false /\ vf_data f = []).

Lemma max_frame : MAX_VIDEO_FRAME_LEN = 8388576.
Proof. reflexivity. Qed.

(** Parsing a buffer that starts with the seventeen header bytes. *)
Lemma parse_header_bytes n ts flags id rest key boot :
  17 <= n <= MAX_VIDEO_FRAME_LEN -> is_i64 ts -> is_u32 id ->
  (flags = 0 /\ key = false /\ boot = false) \/ (flags = 1 /\ key = true /\ boot = false) \/
  (flags = 2 /\ n = 17 /\ key = false /\ boot = true) ->
  parse_video_frame_header (le_bytes 4 n ++ i64_to_le_bytes ts ++ [of_u8 flags] ++ le_bytes 4 id ++ rest) =
  Ok (Some {| vh_size := n; vh_ts_ms := ts; vh_is_key := key; vh_bootstrap_end := boot; vh_stream_id := id |}).
Proof.
  intros Hn Hts Hid Hfl. rewrite max_frame in Hn. pose proof (i64_roundtrip ts Hts) as Hrt.
  unfold i64_to_le_bytes in *.
  destruct (field4 n) as (? & ? & ? & ? & -> & Hrn), (field4 id) as (? & ? & ? & ? & -> & Hri).
  destruct (field8 (wrap 64 ts)) as (? & ? & ? & ? & ? & ? & ? & ? & E8 & _). rewrite E8 in *.
  unfold parse_video_frame_header, VIDEO_FRAME_HEADER_LEN. cut_slices.
  rewrite decide_False by lia. rewrite Hrn, Hri, Hrt, max_frame by (done || unfold is_u; lia).
  rewrite !decide_False by lia. cbn [lookup_total list_lookup_total].
  replace (u8 (of_u8 flags)) with flags by (destruct Hfl as [[-> _]|[[-> _]|[-> _]]]; done).
  destruct Hfl as [(-> & -> & ->)|[(-> & -> & ->)|(-> & -> & -> & ->)]]; done.
Qed.

Lemma parse_frame_wire f rest :
  video_frame_wf f ->
  parse_video_frame (frame_wire f ++ rest) = Ok (Some (f, Z.of_nat VIDEO_FRAME_HEADER_LEN + len (vf_data f))).
Proof.
  destruct f as [ts key boot id data]. unfold video_frame_wf, frame_wire, parse_video_frame, VIDEO_FRAME_HEADER_LEN.
  cbn [vf_ts_ms vf_is_key vf_bootstrap_end vf_stream_id vf_data]. intros (Hts & Hid & Hsz & Hb).
  pose proof (len_nonneg data). pose proof (len_nonneg rest). destruct boot.
  - destruct (Hb eq_refl) as (-> & -> & ->).
    unfold encode_video_bootstrap_end, write_video_bootstrap_end. rewrite app_nil_l, <- !(assoc_L (++)).
    unfold VIDEO_FRAME_HEADER_LEN, VIDEO_FRAME_FLAG_BOOTSTRAP_END. change (Z.of_nat 17) with 17.
    rewrite (parse_header_bytes 17 0 2 id rest false true);
      [|rewrite max_frame; lia|done|done|by right; right].
    run_result. cbn [vh_size vh_ts_ms vh_is_key vh_bootstrap_end vh_stream_id].
    rewrite decide_False; [done|]. rewrite !len_app. unfold len, i64_to_le_bytes. rewrite !length_le_bytes. simpl. lia.
  - unfold encode_video_frame, write_video_frame. rewrite app_nil_l, <- !(assoc_L (++)).
    rewrite wrap_small by (unfold is_u, VIDEO_FRAME_HEADER_LEN in *; rewrite max_frame in Hsz; lia).
    unfold VIDEO_FRAME_HEADER_LEN in *.
    rewrite (parse_header_bytes _ _ _ _ _ key false) by (done || lia || (destruct key; auto)).
    run_result. cbn [vh_size vh_ts_ms vh_is_key vh_bootstrap_end vh_stream_id].
    rewrite decide_False.
    2:{ rewrite !len_app. unfold len, i64_to_le_bytes in *. rewrite !length_le_bytes. simpl. lia. }
    rewrite (Z.add_comm (len data)). do 4 f_equal.
    rewrite !(assoc_L (++)), <- (assoc_L (++) _ data rest). apply slice_mid.
    + unfold i64_to_le_bytes. by rewrite !length_app, !length_le_bytes.
    + unfold len. lia.
Qed.

Lemma flags_cases flags size key boot :
  (if decide (flags = 0) then Ok (false, false)
   else if decide (flags = VIDEO_FRAME_FLAG_KEY) then Ok (true, false)
   else if decide (flags = VIDEO_FRAME_FLAG_BOOTSTRAP_END /\ size = 17) then Ok (false, true)
   else Err BadHeader) = Ok (E := VideoFrameError) (key, boot) ->
  (boot = false -> flags = if key then VIDEO_FRAME_FLAG_KEY else 0) /\
  (boot = true -> size = 17 /\ key = false).
Proof.
  destruct (decide (flags = 0)); [by intros [= <- <-]|].
  destruct (decide (flags = VIDEO_FRAME_FLAG_KEY)); [by intros [= <- <-]|].
  destruct (decide (_ /\ _)) as [[_ ?]|]; [|done]. by intros [= <- <-].
Qed.

(** What the header bytes of an accepted frame say. *)
Lemma parse_header_inv' buffer h :
  parse_video_frame_header buffer = Ok (Some h) ->
  exists flags rest,
    buffer = le_bytes 4 (vh_size h) ++ i64_to_le_bytes (vh_ts_ms h) ++ [of_u8 flags] ++
             le_bytes 4 (vh_stream_id h) ++ rest /\
    17 <= vh_size h <= MAX_VIDEO_FRAME_LEN /\ is_i64 (vh_ts_ms h) /\ is_u32 (vh_stream_id h) /\
    (vh_bootstrap_end h = false -> flags = if vh_is_key h then VIDEO_FRAME_FLAG_KEY else 0) /\
    (vh_bootstrap_end h = true -> vh_size h = 17 /\ vh_is_key h = false).
Proof.
  unfold parse_video_frame_header, VIDEO_FRAME_HEADER_LEN.
  destruct (decide (length buffer < 17)%nat) as [|Hl]; [done|]. explode buffer 17%nat.
  cut_slices. cbn [lookup_total list_lookup_total]. change (Z.of_nat 17) with 17.
  match goal with |- context [i64_from_le_bytes [?a; ?b; ?c; ?d; ?e; ?f; ?g; ?h]] =>
    destruct (i64_unread a b c d e f g h) as [Hi64 Hu8] end.
  match goal with |- context [of_le [?a; ?b; ?c; ?d] < 17] => pose proof (unfield4 a b c d) as Hu4 end.
  case_decide as Hsz; [done|]. case_decide as Hmax; [done|].
  match goal with |- mbind _ ?r = _ -> _ => destruct r as [[key boot]|] eqn:Ef; [|done] end.
  run_result. intros [= <-]. cbn [vh_size vh_ts_ms vh_is_key vh_bootstrap_end vh_stream_id].
  apply flags_cases in Ef as [Hk Hb]. eexists _, buffer.
  split; [|split; [lia|split; [done|split; [auto with wire|split; [exact Hk|exact Hb]]]]].
  rewrite Hu4, Hu8, of_u8_u8. by autorewrite with wire.
Qed.

Lemma parse_frame_canonical buffer f n :
  parse_video_frame buffer = Ok (Some (f, n)) ->
  n = Z.of_nat VIDEO_FRAME_HEADER_LEN + len (vf_data f) /\ n <= MAX_VIDEO_FRAME_LEN /\
  (vf_bootstrap_end f = true -> vf_data f = []) /\
  (vf_bootstrap_end f = false -> exists rest, buffer = frame_wire f ++ rest).
Proof.
  unfold parse_video_frame. destruct (parse_video_frame_header buffer) as [[h|]|] eqn:Eh; [|done|done].
  run_result. case_decide as Hl; [done|]. intros [= <- <-]. cbn [vf_data vf_bootstrap_end].
  apply parse_header_inv' in Eh as (flags & rest & -> & Hsz & Hts & Hid & Hk & Hb).
  set (hd := le_bytes 4 (vh_size h) ++ i64_to_le_bytes (vh_ts_ms h) ++ [of_u8 flags] ++ le_bytes 4 (vh_stream_id h)).
  assert (Hhd : length hd = 17%nat).
  { unfold hd, i64_to_le_bytes. by rewrite !length_app, !length_le_bytes. }
  assert (Eb : le_bytes 4 (vh_size h) ++ i64_to_le_bytes (vh_ts_ms h) ++ [of_u8 flags] ++
    le_bytes 4 (vh_stream_id h) ++ rest = hd ++ rest) by (unfold hd; by rewrite <- !(assoc_L (++))).
  rewrite Eb in *. rewrite len_app in Hl. unfold VIDEO_FRAME_HEADER_LEN. unfold len in Hl. rewrite Hhd in Hl.
  assert (Hd : slice (hd ++ rest) 17 (Z.to_nat (vh_size h)) = take (Z.to_nat (vh_size h) - 17) rest).
  { unfold slice. by rewrite drop_app_length' by done. }
  rewrite Hd. assert (Hlt : len (take (Z.to_nat (vh_size h) - 17) rest) = vh_size h - 17).
  { unfold len. rewrite length_take. lia. }
  split; [lia|]. split; [lia|]. split.
  - intros Hboot. destruct (Hb Hboot) as [-> _]. done.
  - intros Hboot. exists (drop (Z.to_nat (vh_size h) - 17) rest). unfold frame_wire. cbn [vf_bootstrap_end].
    rewrite Hboot. unfold encode_video_frame, write_video_frame, VIDEO_FRAME_HEADER_LEN.
    cbn [vf_ts_ms vf_is_key vf_stream_id vf_data]. rewrite app_nil_l, Hlt. replace (vh_size h - 17 + Z.of_nat 17) with (vh_size h) by lia.
    rewrite wrap_small by (unfold is_u; rewrite max_frame in Hsz; lia).
    rewrite <- (Hk Hboot), <- Eb. rewrite <- !(assoc_L (++)), take_drop. done.
Qed.

(** ** Properties *)

(** C27: the incremental record reader, fed the bytes of a connection in any
    number of pieces of any size, hands out exactly the records that cutting the
    whole stream with [parse_record] gives, in order, keeps the incomplete rest,
    and fails exactly where the stream announces an oversized record. *)
Theorem record_reader_refines_parse (r : VideoRecordReader) (input : bytes) :
  reader_wf r ->
  let stream := buffered r ++ input in
  match feed (S (2 * length input + length (buffered r))) r input [] with
  | (records, Ok (r', rest)) =>
      rest = [] /\ reader_wf r' /\ split_records (S (length stream)) stream [] = (records, Ok (buffered r'))
  | (records, Err e) => split_records (S (length stream)) stream [] = (records, Err e)
  end.
Proof.
  intros Hw stream. subst stream.
  pose proof (feed_split (S (2 * length input + length (buffered r))) r input []
    (S (length (buffered r ++ input))) Hw ltac:(lia)) as Hf.
  rewrite length_app in *. specialize (Hf ltac:(lia)).
  destruct (feed _ r input []) as [recs [[r' rest]|e]]; [|done]. naive_solver.
Qed.

Lemma read_video_record_ok {Sock : Type} `{StreamSocket Sock} (tries budget fuel : nat)
    (s : Sock) (r : VideoRecordReader) (ready : bool) :
  (patience s < tries)%nat -> reader_wf r -> (budget < fuel)%nat ->
  exists s' r' ready' res,
    read_video_record tries budget fuel s r ready = Some (s', r', ready', res) /\
    buffered r' ++ incoming s' = buffered r ++ incoming s /\
    match res with
    | Ok o => reader_wf r' /\ (bytes_read o <= budget)%nat /\
        (ready' = true -> VideoRecordReader.record_ready r' = true \/ hit_limit o = true) /\
        (hit_limit o = true -> VideoRecordReader.record_ready r' = false)
    | Err e => e <> Interrupted /\ e <> WouldBlock
    end.
Proof.
  intros Hp Hw Hf. unfold read_video_record.
  set (o0 := {| bytes_read := 0; hit_limit := false; disconnected := false |}).
  destruct (video_read_loop_ok tries budget fuel s r ready o0 Hp Hw) as (s' & r' & rd & res & -> & Hs & Hr);
    [cbn; lia|done|]. cbn [mbind option_bind]. destruct res as [o|e]; [|do 4 eexists; by split].
  destruct Hr as (Hw' & Hle & Hh & Hrd). cbn in Hle. do 4 eexists. split; [done|]. split; [done|]. split; [done|].
  destruct rd; cbn [andb]; [|rewrite Hh; split; [lia|done]].
  destruct (VideoRecordReader.record_ready r') eqn:Er; cbn [negb andb].
  { rewrite Hh. split; [lia|]. auto. }
  destruct (Hrd eq_refl) as [?|Hb]; [done|]. rewrite bool_decide_eq_true_2 by done. cbn. split; [lia|]. auto.
Qed.

(** C28: pumping a video socket into the reader always ends, loses and
    reorders no byte, reads nothing past the current record or the budget, and
    stops with the socket still marked readable only when a record is complete
    or the budget is used up, which it reports. *)
Theorem video_pump_preserves_stream {Sock : Type} `{StreamSocket Sock} (tries budget fuel : nat)
    (s : Sock) (r : VideoRecordReader) (ready : bool) :
  (patience s < tries)%nat -> reader_wf r -> (budget < fuel)%nat ->
  exists s' r' ready' res,
    read_video_record tries budget fuel s r ready = Some (s', r', ready', res) /\
    buffered r' ++ incoming s' = buffered r ++ incoming s /\
    match res with
    | Ok o => reader_wf r' /\ (bytes_read o <= budget)%nat /\
        (ready' = true -> VideoRecordReader.record_ready r' = true \/ hit_limit o = true) /\
        (hit_limit o = true -> VideoRecordReader.record_ready r' = false)
    | Err e => e <> Interrupted /\ e <> WouldBlock
    end.
Proof. apply read_video_record_ok. Qed.

(** A frame the sender writes parses back to itself from the front of any
    buffer; and whatever frame is accepted has a size within the limit, is
    byte-identical to re-encoding it (bootstrap markers carry no body), and
    seals into one outer record in either transport mode. *)
Lemma video_frame_codec :
  (forall f rest, video_frame_wf f ->
     parse_video_frame (frame_wire f ++ rest) = Ok (Some (f, Z.of_nat VIDEO_FRAME_HEADER_LEN + len (vf_data f)))) /\
  (forall buffer f n, parse_video_frame buffer = Ok (Some (f, n)) ->
     n = Z.of_nat VIDEO_FRAME_HEADER_LEN + len (vf_data f) /\
     (vf_bootstrap_end f = true -> vf_data f = []) /\
     (vf_bootstrap_end f = false -> exists rest, buffer = frame_wire f ++ rest) /\
     (forall p, Z.of_nat (RecordProtection.sealed_len p (Z.to_nat n)) <= MAX_VIDEO_RECORD_LEN)).
Proof.
  split; [apply parse_frame_wire|]. intros buffer f n E. pose proof (len_nonneg (vf_data f)).
  apply parse_frame_canonical in E as (? & Hm & ? & ?). split; [done|]. split; [done|]. split; [done|].
  intros p. rewrite max_frame in Hm. rewrite max_record. unfold VIDEO_FRAME_HEADER_LEN in *.
  destruct p; simpl; unfold TRANSPORT_HEADER_LEN, TAG_LEN; lia.
Qed.

#[local] Existing Instances Script.source Script.stream.

Lemma record_reader_refines_parse_witness :
  feed (S (2 * 9 + 0)) VideoRecordReader.new (framed (ascii_bytes "ab") ++ ascii_bytes "xyz") [] =
  ([ascii_bytes "ab"], (feed (S (2 * 9 + 0)) VideoRecordReader.new (framed (ascii_bytes "ab") ++ ascii_bytes "xyz") []).2).
Proof.
  pose proof (record_reader_refines_parse VideoRecordReader.new
    (framed (ascii_bytes "ab") ++ ascii_bytes "xyz") reader_new_wf) as Hr.
  change (S (2 * length _ + length _)) with (S (2 * 9 + 0)) in Hr.
  destruct (feed (S (2 * 9 + 0)) VideoRecordReader.new _ []) as [recs [[r' rest]|e]]; cbn [snd].
  - destruct Hr as (_ & _ & Hs). vm_compute in Hs. injection Hs as <- _. reflexivity.
  - vm_compute in Hr. discriminate.
Defined.

Lemma video_pump_preserves_stream_witness :
  exists s' r' ready' res,
    read_video_record 5 64 65 [Some (framed (ascii_bytes "ab")); Some (ascii_bytes "next")]
      VideoRecordReader.new true = Some (s', r', ready', res) /\
    buffered r' ++ incoming s' = framed (ascii_bytes "ab") ++ ascii_bytes "next".
Proof.
  destruct (video_pump_preserves_stream 5 64 65 [Some (framed (ascii_bytes "ab")); Some (ascii_bytes "next")]
    VideoRecordReader.new true) as (s' & r' & rd & res & He & Hs & _).
  - simpl. lia.
  - apply reader_new_wf.
  - lia.
  - exists s', r', rd, res. split; [exact He|exact Hs].
Defined.
