(* ===== verification/Net.v ===== *)
(** * Peer-to-peer candidates, NAT classification and restart ports

    Models src/crates/p2p/src/candidate.rs, nat.rs and restart.rs.  A socket
    address keeps every field [std::net::SocketAddr] compares. *)

From S2P Require Import Prelude.

(** ** Socket addresses *)

(** An IPv4 address is its 32-bit number, an IPv6 address its 16 octets. *)
Inductive SocketAddr :=
| SockV4 (ip port : Z)
| SockV6 (octets : bytes) (port flowinfo scope_id : Z).

#[export] Instance SocketAddr_eq_dec : EqDecision SocketAddr.
Proof. solve_decision. Defined.

Module SocketAddr.

Definition is_ipv4 (a : SocketAddr) : bool := match a with SockV4 _ _ => true | SockV6 _ _ _ _ => false end.

Definition port (a : SocketAddr) : Z := match a with SockV4 _ p => p | SockV6 _ p _ _ => p end.

(** [addr.ip().is_unspecified()]. *)
Definition is_unspecified (a : SocketAddr) : bool :=
  match a with
  | SockV4 ip _ => bool_decide (ip = 0)
  | SockV6 octets _ _ _ => bool_decide (octets = replicate 16 Byte.x00)
  end.

(** The derived order: family, address, port, flow and scope. *)
Definition key (a : SocketAddr) : list Z :=
  match a with
  | SockV4 ip p => [0; ip; p]
  | SockV6 octets p f s => 1 :: (u8 <$> octets) ++ [p; f; s]
  end.

Fixpoint lex_lt (a b : list Z) : bool :=
  match a, b with
  | _, [] => false
  | [], _ :: _ => true
  | x :: a, y :: b => if decide (x < y) then true else if decide (y < x) then false else lex_lt a b
  end.

Definition lt (a b : SocketAddr) : bool := lex_lt (key a) (key b).

(** A value of the type: an IPv6 address without flow label and scope, as
    [SocketAddr::new] builds it. *)
Definition wf (a : SocketAddr) : Prop :=
  match a with
  | SockV4 ip p => is_u32 ip /\ is_u16 p
  | SockV6 octets p f s => length octets = 16%nat /\ is_u16 p /\ f = 0 /\ s = 0
  end.

End SocketAddr.

(** ** Candidates *)

Inductive NatKind := NatUnknown | NatCone | NatSymmetric.

Definition is_symmetric (k : NatKind) : bool := match k with NatSymmetric => true | _ => false end.
Definition is_cone (k : NatKind) : bool := match k with NatCone => true | _ => false end.

Inductive CandidateKind := Host | ServerReflexive | PeerReflexive | PortMapped | Relay.

#[export] Instance CandidateKind_eq_dec : EqDecision CandidateKind.
Proof. solve_decision. Defined.

Definition type_preference (k : CandidateKind) : Z :=
  match k with
  | Host => 126
  | PeerReflexive => 110
  | PortMapped => 105
  | ServerReflexive => 100
  | Relay => 0
  end.

Definition kind_is_direct (k : CandidateKind) : bool := match k with Relay => false | _ => true end.

Inductive NetworkFamily := Ipv4 | Ipv6.

#[export] Instance NetworkFamily_eq_dec : EqDecision NetworkFamily.
Proof. solve_decision. Defined.

Definition family_of (a : SocketAddr) : NetworkFamily := if SocketAddr.is_ipv4 a then Ipv4 else Ipv6.

Definition kind_name (k : CandidateKind) : string :=
  match k with
  | Host => "host"
  | ServerReflexive => "srflx"
  | PeerReflexive => "prflx"
  | PortMapped => "map"
  | Relay => "relay"
  end.

Definition family_name (f : NetworkFamily) : string := match f with Ipv4 => "udp4" | Ipv6 => "udp6" end.

Record Candidate := mkCandidate {
  cand_id : Z;
  socket_id : Z;
  generation : Z;
  cand_kind : CandidateKind;
  cand_addr : SocketAddr;
  base : option SocketAddr;
  cand_priority : Z;
  foundation : string;
  verified : bool;
}.

Module Candidate.

Definition with_metadata (id socket_id generation : Z) (kind : CandidateKind) (addr : SocketAddr)
    (base : option SocketAddr) (verified prefer_ipv6 : bool) : Candidate :=
  let local_preference :=
    match family_of addr, prefer_ipv6 with
    | Ipv6, true | Ipv4, false => 65535
    | Ipv4, true | Ipv6, false => 65534
    end in
  let component := 1 in
  {| cand_id := id; socket_id := socket_id; generation := generation; cand_kind := kind;
     cand_addr := addr; base := base;
     cand_priority := Z.lor (Z.lor (wrap 32 (Z.shiftl (type_preference kind) 24))
                                   (wrap 32 (Z.shiftl local_preference 8))) (256 - component);
     foundation := (kind_name kind +:+ "-" +:+ family_name (family_of addr))%string;
     verified := verified |}.

Definition with_base (id : Z) (kind : CandidateKind) (addr : SocketAddr) (base : option SocketAddr) : Candidate :=
  with_metadata id 0 0 kind addr base (bool_decide (kind = Host)) true.

Definition new (id : Z) (kind : CandidateKind) (addr : SocketAddr) : Candidate := with_base id kind addr None.

Definition relay (addr : SocketAddr) : Candidate := new 0 Relay addr.

Definition family (c : Candidate) : NetworkFamily := family_of (cand_addr c).

Definition is_direct (c : Candidate) : bool := kind_is_direct (cand_kind c).

Definition is_unspecified (c : Candidate) : bool := SocketAddr.is_unspecified (cand_addr c).

Definition can_pair_with (c remote : Candidate) : bool :=
  bool_decide (family c = family remote) && is_direct c && is_direct remote &&
  negb (is_unspecified c) && negb (is_unspecified remote).

End Candidate.

Definition pair_priority (local remote : Candidate) (controlling : bool) : Z :=
  let '(g, d) := if controlling then (cand_priority local, cand_priority remote)
                 else (cand_priority remote, cand_priority local) in
  (Z.shiftl 1 32 - 1) * Z.min g d + 2 * Z.max g d + (if decide (g > d) then 1 else 0).

(** ** NAT classification *)

Record ReflexiveObservation := mkObservation { server_addr : SocketAddr; mapped_addr : SocketAddr }.

Module NatClassifier.

Definition observe (observations : list ReflexiveObservation) (o : ReflexiveObservation)
    : list ReflexiveObservation :=
  let observations :=
    if existsb (fun e => bool_decide (server_addr e = server_addr o)) observations
    then filter (fun e => server_addr e <> server_addr o) observations
    else observations in
  observations ++ [o].

Definition classify (observations : list ReflexiveObservation) : NatKind :=
  match observations with
  | [] => NatUnknown
  | first :: _ =>
      if decide (length observations < 2)%nat then NatUnknown
      else if forallb (fun o => bool_decide (mapped_addr o = mapped_addr first)) observations
      then NatCone else NatSymmetric
  end.

(** [min_by_key]: the first of the least. *)
Fixpoint min_by_server (best : ReflexiveObservation) (l : list ReflexiveObservation) : ReflexiveObservation :=
  match l with
  | [] => best
  | o :: l => min_by_server (if SocketAddr.lt (server_addr o) (server_addr best) then o else best) l
  end.

Definition primary_reflexive_addr (observations : list ReflexiveObservation) : option SocketAddr :=
  match observations with
  | [] => None
  | o :: l => Some (mapped_addr (min_by_server o l))
  end.

End NatClassifier.

(** ** Restart ports *)

Record RestartPortPolicy := mkRestart { recent_ports : list Z; max_recent : nat; quarantine : Z }.

Module RestartPortPolicy.

Definition new (max_recent : nat) (quarantine : Z) : RestartPortPolicy :=
  {| recent_ports := []; max_recent := max_recent; quarantine := quarantine |}.

Definition bind_addr_for_restart (previous : SocketAddr) : SocketAddr :=
  match previous with
  | SockV4 ip _ => SockV4 ip 0
  | SockV6 octets _ _ _ => SockV6 octets 0 0 0
  end.

(** [while recent_ports.len() >= max_recent { pop_front }]. *)
Fixpoint trim_front (limit : nat) (ports : list Z) : list Z :=
  match ports with
  | [] => []
  | p :: rest => if decide (limit <= length ports)%nat then trim_front limit rest else ports
  end.

Definition record (r : RestartPortPolicy) (port : Z) : RestartPortPolicy :=
  if decide (max_recent r = 0%nat) then r
  else
    let ports := if bool_decide (port ∈ recent_ports r)
                 then filter (fun e => e <> port) (recent_ports r) else recent_ports r in
    {| recent_ports := trim_front (max_recent r) ports ++ [port];
       max_recent := max_recent r; quarantine := quarantine r |}.

Definition accepts (r : RestartPortPolicy) (port : Z) : bool :=
  bool_decide (port <> 0) && negb (bool_decide (port ∈ recent_ports r)).

End RestartPortPolicy.

(** ** Lemmas *)

(** The priority of RFC 8445 as a sum: nothing overlaps. *)
Lemma with_metadata_priority id s g kind addr b v p6 :
  exists lp, (lp = 65534 \/ lp = 65535) /\
    cand_priority (Candidate.with_metadata id s g kind addr b v p6) =
    type_preference kind * 2 ^ 24 + lp * 2 ^ 8 + 255.
Proof.
  unfold Candidate.with_metadata. cbn [cand_priority].
  destruct (family_of addr), p6; [exists 65534|exists 65535|exists 65535|exists 65534];
    (split; [auto|destruct kind; reflexivity]).
Qed.

Definition priority_wf (c : Candidate) : Prop := is_u32 (cand_priority c).

Lemma with_metadata_u31 id s g kind addr b v p6 :
  0 <= cand_priority (Candidate.with_metadata id s g kind addr b v p6) < 2 ^ 31.
Proof.
  destruct (with_metadata_priority id s g kind addr b v p6) as (lp & Hlp & ->).
  destruct kind; simpl; lia.
Qed.

(** ** Pair priorities *)

Section pairs.
Context (a b c d : Candidate) (Ha : priority_wf a) (Hb : priority_wf b)
        (Hc : priority_wf c) (Hd : priority_wf d).

(** The [u64] arithmetic of [pair_priority] reaches but never passes 2^64 - 1. *)
Lemma pair_priority_u64 controlling : is_u64 (pair_priority a b controlling).
Proof.
  unfold priority_wf, is_u in *. unfold pair_priority. rewrite Z.shiftl_1_l.
  destruct controlling; case_decide; nia.
Qed.

(** A better weaker end beats any stronger end. *)
Lemma pair_priority_min_first controlling :
  Z.max (cand_priority a) (cand_priority b) < 2 ^ 31 - 1 ->
  Z.min (cand_priority a) (cand_priority b) < Z.min (cand_priority c) (cand_priority d) ->
  pair_priority a b controlling < pair_priority c d controlling.
Proof.
  unfold priority_wf, is_u in *. unfold pair_priority. rewrite Z.shiftl_1_l. intros Hmax Hmin.
  destruct controlling; repeat case_decide; nia.
Qed.

End pairs.

(** C32: the two agents of a session rank the same pair alike: the controlling
    end's [pair_priority] of (local, remote) is the controlled end's of
    (remote, local); it never overflows the [u64] it is computed in; and of two
    pairs of candidates built by [with_metadata] the one whose weaker end is
    better ranks first, whatever the stronger ends are. *)
Theorem pair_priority_agreed (a b c d : Candidate) (controlling : bool) :
  priority_wf a -> priority_wf b -> priority_wf c -> priority_wf d ->
  pair_priority a b controlling = pair_priority b a (negb controlling) /\
  is_u64 (pair_priority a b controlling) /\
  (Z.max (cand_priority a) (cand_priority b) < 2 ^ 31 - 1 ->
   Z.min (cand_priority a) (cand_priority b) < Z.min (cand_priority c) (cand_priority d) ->
   pair_priority a b controlling < pair_priority c d controlling).
Proof.
  intros Ha Hb Hc Hd. split; [by destruct controlling|].
  split; [by apply pair_priority_u64|by apply pair_priority_min_first].
Qed.

Definition host4 (id port : Z) : Candidate := Candidate.new id Host (SockV4 3232235777 port).
Definition srflx4 (id port : Z) : Candidate := Candidate.new id ServerReflexive (SockV4 3325256705 port).

Lemma with_metadata_wf id s g kind addr b v p6 : priority_wf (Candidate.with_metadata id s g kind addr b v p6).
Proof. pose proof (with_metadata_u31 id s g kind addr b v p6). unfold priority_wf, is_u. lia. Qed.

Lemma pair_priority_agreed_witness :
  pair_priority (host4 1 5000) (srflx4 2 6000) true = pair_priority (srflx4 2 6000) (host4 1 5000) false /\
  pair_priority (host4 1 5000) (srflx4 2 6000) true < pair_priority (host4 1 5000) (host4 3 7000) true.
Proof.
  destruct (pair_priority_agreed (host4 1 5000) (srflx4 2 6000) (host4 1 5000) (host4 3 7000) true)
    as (H1 & _ & H3); try apply with_metadata_wf.
  split; [exact H1|]. apply H3; reflexivity.
Defined.
