(* ===== verification/Stun.v ===== *)
(** * The STUN codec

    Models src/crates/p2p/src/stun.rs.  The two scanning loops walk the list of
    the attribute bytes that are left instead of an offset into the packet;
    [find_attr] keeps the offset beside it. *)

From S2P Require Import Prelude Primitives Text Auth Net.

Definition MAGIC_COOKIE : Z := 554869826.
Definition HEADER_LEN : nat := 20.
Definition BINDING_REQUEST : Z := 1.
Definition BINDING_SUCCESS : Z := 257.
Definition ATTR_USERNAME : Z := 6.
Definition ATTR_MESSAGE_INTEGRITY_SHA256 : Z := 28.
Definition ATTR_XOR_MAPPED_ADDRESS : Z := 32.
Definition ATTR_PRIORITY : Z := 36.
Definition ATTR_USE_CANDIDATE : Z := 37.
Definition ATTR_FINGERPRINT : Z := 32808.
Definition ATTR_SOFTWARE : Z := 32802.
Definition ATTR_ICE_CONTROLLED : Z := 32809.
Definition ATTR_ICE_CONTROLLING : Z := 32810.
Definition INTEGRITY_ATTR_LEN : nat := 36.
Definition FINGERPRINT_ATTR_LEN : nat := 8.
Definition FINGERPRINT_XOR : Z := 1398035790.

Inductive MessageKind := Binding.
Inductive MessageClass := Request | SuccessResponse.
Inductive RoleAttribute := Controlling (v : Z) | Controlled (v : Z).

#[export] Instance MessageClass_eq_dec : EqDecision MessageClass.
Proof. solve_decision. Defined.
#[export] Instance RoleAttribute_eq_dec : EqDecision RoleAttribute.
Proof. solve_decision. Defined.

(** A [String] is its UTF-8 bytes, a [TransactionId] its twelve bytes. *)
Record StunMessage := mkStun {
  class : MessageClass;
  kind : MessageKind;
  transaction_id : bytes;
  username : option bytes;
  priority : option Z;
  role : option RoleAttribute;
  use_candidate : bool;
  xor_mapped_address : option SocketAddr;
}.

Inductive StunError :=
| StunTooShort
| NotStun
| LengthMismatch
| UnknownMessageType (typ : Z)
| InvalidAttribute
| InvalidAddressFamily (family : Z)
| IntegrityFailure.

Definition padded_len (n : nat) : nat := Z.to_nat (Z.land (Z.of_nat n + 3) (Z.lnot 3)).

Definition append_attr (out : bytes) (attr_type : Z) (value : bytes) : bytes :=
  out ++ be_bytes 2 attr_type ++ be_bytes 2 (wrap 16 (len value)) ++ value ++
  replicate (padded_len (length value) - length value) Byte.x00.

Definition message_type (k : MessageKind) (c : MessageClass) : Z :=
  match k, c with
  | Binding, Request => BINDING_REQUEST
  | Binding, SuccessResponse => BINDING_SUCCESS
  end.

Definition parse_message_type (v : Z) : result StunError (MessageKind * MessageClass) :=
  if decide (v = BINDING_REQUEST) then Ok (Binding, Request)
  else if decide (v = BINDING_SUCCESS) then Ok (Binding, SuccessResponse)
  else Err (UnknownMessageType v).

(** One step of the bitwise CRC. *)
Definition crc_bit (crc : Z) : Z :=
  let mask := wrap 32 (- Z.land crc 1) in
  Z.lxor (Z.shiftr crc 1) (Z.land 3988292384 mask).

Definition crc32 (data : bytes) : Z :=
  let crc := foldl (fun crc b => Nat.iter 8 crc_bit (Z.lxor crc (u8 b))) 4294967295 data in
  Z.lxor crc 4294967295.

Definition xor_byte (a b : byte) : byte := of_u8 (Z.lxor (u8 a) (u8 b)).

Definition xor_mask (transaction_id : bytes) : bytes := be_bytes 4 MAGIC_COOKIE ++ transaction_id.

Definition encode_xor_mapped (addr : SocketAddr) (transaction_id : bytes) : bytes :=
  [of_u8 0] ++
  match addr with
  | SockV4 ip port =>
      [of_u8 1] ++ be_bytes 2 (Z.lxor port (Z.shiftr MAGIC_COOKIE 16)) ++
      be_bytes 4 (Z.lxor ip MAGIC_COOKIE)
  | SockV6 octets port _ _ =>
      [of_u8 2] ++ be_bytes 2 (Z.lxor port (Z.shiftr MAGIC_COOKIE 16)) ++
      zip_with xor_byte octets (xor_mask transaction_id)
  end.

Definition decode_xor_mapped (value transaction_id : bytes) : result StunError SocketAddr :=
  if decide ((length value < 8)%nat \/ u8 (value !!! 0%nat) <> 0) then Err InvalidAttribute
  else
    let family := u8 (value !!! 1%nat) in
    let port := Z.lxor (of_be (slice value 2 4)) (Z.shiftr MAGIC_COOKIE 16) in
    if decide (family = 1) then
      if decide (length value <> 8%nat) then Err InvalidAttribute
      else Ok (SockV4 (Z.lxor (of_be (slice value 4 8)) MAGIC_COOKIE) port)
    else if decide (family = 2) then
      if decide (length value <> 20%nat) then Err InvalidAttribute
      else Ok (SockV6 (zip_with xor_byte (drop 4 value) (xor_mask transaction_id)) port 0 0)
    else Err (InvalidAddressFamily family).

Module TransactionId.

Definition from_counter (counter : Z) : bytes := ascii_bytes "tchp" ++ be_bytes 8 counter.

Definition from_salt `{Primitives} (salt : bytes) (counter : Z) : bytes :=
  ascii_bytes "tc" ++ take 10 (stun_integrity salt (be_bytes 8 counter)).

End TransactionId.

Module StunMessage.

Definition binding_request (transaction_id : bytes) (username : option bytes) (priority : Z)
    (role : RoleAttribute) (use_candidate : bool) : StunMessage :=
  {| class := Request; kind := Binding; transaction_id := transaction_id; username := username;
     priority := Some priority; role := Some role; use_candidate := use_candidate;
     xor_mapped_address := None |}.

Definition binding_success (transaction_id : bytes) (mapped : SocketAddr) : StunMessage :=
  {| class := SuccessResponse; kind := Binding; transaction_id := transaction_id; username := None;
     priority := None; role := None; use_candidate := false; xor_mapped_address := Some mapped |}.

Definition header (m : StunMessage) (length : nat) : bytes :=
  be_bytes 2 (message_type (kind m) (class m)) ++ be_bytes 2 (wrap 16 (Z.of_nat length)) ++
  be_bytes 4 MAGIC_COOKIE ++ transaction_id m.

Definition assemble (m : StunMessage) (attrs : bytes) : bytes := header m (length attrs) ++ attrs.

(** The attributes before the integrity attribute. *)
Definition encode_attrs (m : StunMessage) : bytes :=
  let attrs := match username m with Some u => append_attr [] ATTR_USERNAME u | None => [] end in
  let attrs := match priority m with Some p => append_attr attrs ATTR_PRIORITY (be_bytes 4 p) | None => attrs end in
  let attrs := match role m with
    | Some (Controlling v) => append_attr attrs ATTR_ICE_CONTROLLING (be_bytes 8 v)
    | Some (Controlled v) => append_attr attrs ATTR_ICE_CONTROLLED (be_bytes 8 v)
    | None => attrs end in
  let attrs := if use_candidate m then append_attr attrs ATTR_USE_CANDIDATE [] else attrs in
  let attrs := match xor_mapped_address m with
    | Some a => append_attr attrs ATTR_XOR_MAPPED_ADDRESS (encode_xor_mapped a (transaction_id m))
    | None => attrs end in
  append_attr attrs ATTR_SOFTWARE (ascii_bytes "chatt-p2p").

Definition encode `{Primitives} (m : StunMessage) (key : option bytes) : bytes :=
  let attrs := encode_attrs m in
  match key with
  | None => assemble m attrs
  | Some key =>
      let prefix := header m (length attrs + INTEGRITY_ATTR_LEN) ++ attrs in
      let mac := stun_integrity key prefix in
      let attrs := append_attr attrs ATTR_MESSAGE_INTEGRITY_SHA256 mac in
      let prefix := header m (length attrs + FINGERPRINT_ATTR_LEN) ++ attrs in
      let crc := Z.lxor (crc32 prefix) FINGERPRINT_XOR in
      let attrs := append_attr attrs ATTR_FINGERPRINT (be_bytes 4 crc) in
      assemble m attrs
  end.

Definition set_username (m : StunMessage) (v : bytes) : StunMessage :=
  {| class := class m; kind := kind m; transaction_id := transaction_id m; username := Some v;
     priority := priority m; role := role m; use_candidate := use_candidate m;
     xor_mapped_address := xor_mapped_address m |}.
Definition set_priority (m : StunMessage) (v : Z) : StunMessage :=
  {| class := class m; kind := kind m; transaction_id := transaction_id m; username := username m;
     priority := Some v; role := role m; use_candidate := use_candidate m;
     xor_mapped_address := xor_mapped_address m |}.
Definition set_role (m : StunMessage) (v : RoleAttribute) : StunMessage :=
  {| class := class m; kind := kind m; transaction_id := transaction_id m; username := username m;
     priority := priority m; role := Some v; use_candidate := use_candidate m;
     xor_mapped_address := xor_mapped_address m |}.
Definition set_use_candidate (m : StunMessage) : StunMessage :=
  {| class := class m; kind := kind m; transaction_id := transaction_id m; username := username m;
     priority := priority m; role := role m; use_candidate := true;
     xor_mapped_address := xor_mapped_address m |}.
Definition set_mapped (m : StunMessage) (v : SocketAddr) : StunMessage :=
  {| class := class m; kind := kind m; transaction_id := transaction_id m; username := username m;
     priority := priority m; role := role m; use_candidate := use_candidate m;
     xor_mapped_address := Some v |}.

(** The [match attr_type] of the decoding loop. *)
Definition apply_attr (m : StunMessage) (attr_type : Z) (value : bytes) : result StunError StunMessage :=
  if decide (attr_type = ATTR_USERNAME) then
    if utf8_valid value then Ok (set_username m value) else Err InvalidAttribute
  else if decide (attr_type = ATTR_PRIORITY) then
    if decide (length value <> 4%nat) then Err InvalidAttribute else Ok (set_priority m (of_be value))
  else if decide (attr_type = ATTR_ICE_CONTROLLING) then
    if decide (length value <> 8%nat) then Err InvalidAttribute else Ok (set_role m (Controlling (of_be value)))
  else if decide (attr_type = ATTR_ICE_CONTROLLED) then
    if decide (length value <> 8%nat) then Err InvalidAttribute else Ok (set_role m (Controlled (of_be value)))
  else if decide (attr_type = ATTR_USE_CANDIDATE) then
    if decide (value <> []) then Err InvalidAttribute else Ok (set_use_candidate m)
  else if decide (attr_type = ATTR_XOR_MAPPED_ADDRESS) then
    addr ← decode_xor_mapped value (transaction_id m);
    Ok (set_mapped m addr)
  else Ok m.

(** The decoding loop over [bytes[offset..end]]: each turn takes four bytes or
    more, so the length of the packet is fuel enough. *)
Fixpoint decode_attrs (fuel : nat) (rest : bytes) (m : StunMessage) : result StunError StunMessage :=
  match fuel with
  | O => Err InvalidAttribute
  | S fuel =>
    if decide (rest = []) then Ok m
    else if decide (length rest < 4)%nat then Err InvalidAttribute
    else
      let attr_type := of_be (slice rest 0 2) in
      let attr_len := Z.to_nat (of_be (slice rest 2 4)) in
      if decide (length rest < 4 + attr_len)%nat then Err InvalidAttribute
      else
        m ← apply_attr m attr_type (slice rest 4 (4 + attr_len));
        decode_attrs fuel (drop (4 + padded_len attr_len) rest) m
  end.

Definition decode (bs : bytes) : result StunError StunMessage :=
  if decide (length bs < HEADER_LEN)%nat then Err StunTooShort
  else if decide (Z.land (u8 (bs !!! 0%nat)) 192 <> 0) then Err NotStun
  else
    let length := Z.to_nat (of_be (slice bs 2 4)) in
    if decide (Datatypes.length bs < HEADER_LEN + length)%nat then Err LengthMismatch
    else if decide (of_be (slice bs 4 8) <> MAGIC_COOKIE) then Err NotStun
    else
      '(kind, class) ← parse_message_type (of_be (slice bs 0 2));
      let m := {| class := class; kind := kind; transaction_id := slice bs 8 20; username := None;
                  priority := None; role := None; use_candidate := false; xor_mapped_address := None |} in
      decode_attrs (S length) (slice bs HEADER_LEN (HEADER_LEN + length)) m.

(** The scan of [find_attr] over [bytes[offset..end]]. *)
Fixpoint find_attr_loop (fuel : nat) (rest : bytes) (offset : nat) (attr_type : Z) : option nat :=
  match fuel with
  | O => None
  | S fuel =>
    if decide (4 <= length rest)%nat then
      let typ := of_be (slice rest 0 2) in
      let attr_len := Z.to_nat (of_be (slice rest 2 4)) in
      if decide (typ = attr_type) then Some offset
      else find_attr_loop fuel (drop (4 + padded_len attr_len) rest) (offset + (4 + padded_len attr_len)) attr_type
    else None
  end.

Definition find_attr (bs : bytes) (attr_type : Z) : option nat :=
  if decide (length bs < HEADER_LEN)%nat then None
  else
    let length := Z.to_nat (of_be (slice bs 2 4)) in
    let stop := Nat.min (HEADER_LEN + length) (Datatypes.length bs) in
    find_attr_loop (S (Datatypes.length bs)) (slice bs HEADER_LEN stop) HEADER_LEN attr_type.

Definition decode_and_verify `{Primitives} (bs key : bytes) : result StunError StunMessage :=
  message ← decode bs;
  integrity_offset ← ok_or IntegrityFailure (find_attr bs ATTR_MESSAGE_INTEGRITY_SHA256);
  let value_start := (integrity_offset + 4)%nat in
  if decide (length bs < value_start + 32)%nat then Err IntegrityFailure
  else
    let tag := slice bs value_start (value_start + 32) in
    let prefix := take integrity_offset bs in
    let length := wrap 16 (Z.of_nat (integrity_offset + INTEGRITY_ATTR_LEN - HEADER_LEN)) in
    let prefix := take 2 prefix ++ be_bytes 2 length ++ drop 4 prefix in
    if stun_verify key prefix tag then Ok message else Err IntegrityFailure.

End StunMessage.

Definition is_stun_message (bs : bytes) : bool :=
  bool_decide (HEADER_LEN <= length bs)%nat && bool_decide (Z.land (u8 (bs !!! 0%nat)) 192 = 0) &&
  bool_decide (of_be (slice bs 4 8) = MAGIC_COOKIE).

Example crc_check : crc32 (ascii_bytes "123456789") = 3421780262.
Proof. vm_compute. reflexivity. Qed.

(** ** Lemmas: attributes *)

Lemma be_field2 z : is_u16 z -> exists a b, be_bytes 2 z = [a; b] /\ of_be [a; b] = z.
Proof. intros Hz. eexists _, _. split; [reflexivity|]. by apply (of_be_be_bytes 2). Qed.

Lemma padded_len_eq n : Z.of_nat (padded_len n) = (Z.of_nat n + 3) / 4 * 4.
Proof.
  unfold padded_len. rewrite <- Z.ldiff_land. change 3 with (Z.ones 2) at 2.
  rewrite Z.ldiff_ones_r, Z.shiftl_mul_pow2, Z.shiftr_div_pow2 by lia. change (2 ^ 2) with 4.
  assert (0 <= (Z.of_nat n + 3) / 4) by (apply Z.div_pos; lia). lia.
Qed.

Lemma padded_len_bounds n : (n <= padded_len n < n + 4)%nat.
Proof.
  pose proof (padded_len_eq n). pose proof (Z.div_mod (Z.of_nat n + 3) 4).
  pose proof (Z.mod_pos_bound (Z.of_nat n + 3) 4). lia.
Qed.

Definition attr_bytes (a : Z * bytes) : bytes := append_attr [] a.1 a.2.

(** An attribute whose type and length fit their fields. *)
Definition attr_wf (a : Z * bytes) : Prop := is_u16 a.1 /\ len a.2 < 2 ^ 16.

Lemma append_attr_bytes out t v : append_attr out t v = out ++ attr_bytes (t, v).
Proof. done. Qed.

Lemma length_attr_bytes a : length (attr_bytes a) = (4 + padded_len (length a.2))%nat.
Proof.
  unfold attr_bytes, append_attr. rewrite app_nil_l, !length_app, !length_be_bytes, length_replicate.
  pose proof (padded_len_bounds (length a.2)). lia.
Qed.

(** An attribute at the front of a scan: its type, its value, and what follows. *)
Lemma attr_front a rest :
  attr_wf a ->
  let bs := attr_bytes a ++ rest in
  of_be (slice bs 0 2) = a.1 /\ Z.to_nat (of_be (slice bs 2 4)) = length a.2 /\
  slice bs 4 (4 + length a.2) = a.2 /\ drop (4 + padded_len (length a.2)) bs = rest.
Proof.
  destruct a as [t v]. intros [Ht Hv] bs. cbn [fst snd] in *. pose proof (len_nonneg v).
  pose proof (length_attr_bytes (t, v)) as Hl. cbn [fst snd] in Hl.
  assert (Hd : drop (4 + padded_len (length v)) bs = rest) by (subst bs; by rewrite drop_app_length').
  subst bs. unfold attr_bytes, append_attr in *. cbn [fst snd] in *. rewrite app_nil_l in *.
  rewrite wrap_small in * by (unfold is_u; lia).
  destruct (be_field2 t Ht) as (a & b & Eab & Rab), (be_field2 (len v)) as (c & d & Ecd & Rcd);
    [unfold is_u; lia|]. rewrite Eab, Ecd in *. cut_slices.
  rewrite Rab, Rcd. split; [done|]. split; [unfold len; lia|]. split; [|exact Hd].
  rewrite <- (assoc_L (++)). apply take_app_length'. lia.
Qed.

Fixpoint apply_all (m : StunMessage) (l : list (Z * bytes)) : result StunError StunMessage :=
  match l with
  | [] => Ok m
  | a :: l => m ← StunMessage.apply_attr m a.1 a.2; apply_all m l
  end.

Lemma decode_attrs_all l m fuel :
  Forall attr_wf l -> (length l < fuel)%nat ->
  StunMessage.decode_attrs fuel (mjoin (attr_bytes <$> l)) m = apply_all m l.
Proof.
  revert m fuel. induction l as [|a l IH]; intros m fuel Hl Hf; (destruct fuel as [|fuel]; [lia|]); [done|].
  apply Forall_cons in Hl as [Ha Hl]. cbn [length] in Hf.
  change (mjoin (attr_bytes <$> a :: l)) with (attr_bytes a ++ mjoin (attr_bytes <$> l)).
  destruct (attr_front a (mjoin (attr_bytes <$> l)) Ha) as (Ht & Hn & Hv & Hd).
  pose proof (length_attr_bytes a) as Hb. pose proof (padded_len_bounds (length a.2)).
  set (bs := attr_bytes a ++ mjoin (attr_bytes <$> l)) in *.
  assert (4 + length a.2 <= length bs)%nat by (subst bs; rewrite length_app; lia).
  cbn [StunMessage.decode_attrs apply_all]. rewrite Ht, Hn, Hv, Hd.
  rewrite decide_False by (intros E; rewrite E in *; simpl in *; lia). rewrite !decide_False by lia.
  destruct (StunMessage.apply_attr m a.1 a.2); [|done]. run_result. apply IH; [done|lia].
Qed.

Lemma find_attr_skip l rest fuel off t :
  Forall attr_wf l -> Forall (fun a => a.1 <> t) l -> (length l <= fuel)%nat ->
  StunMessage.find_attr_loop fuel (mjoin (attr_bytes <$> l) ++ rest) off t =
  StunMessage.find_attr_loop (fuel - length l) rest (off + length (mjoin (attr_bytes <$> l))) t.
Proof.
  revert fuel off. induction l as [|a l IH]; intros fuel off Hl Ht Hf.
  { cbn. by rewrite Nat.sub_0_r, Nat.add_0_r. }
  apply Forall_cons in Hl as [Ha Hl]. apply Forall_cons in Ht as [Hne Ht]. cbn [length] in *.
  destruct fuel as [|fuel]; [lia|].
  change (mjoin (attr_bytes <$> a :: l)) with (attr_bytes a ++ mjoin (attr_bytes <$> l)).
  rewrite <- (assoc_L (++)). destruct (attr_front a (mjoin (attr_bytes <$> l) ++ rest) Ha) as (Hty & Hn & _ & Hd).
  cbn [StunMessage.find_attr_loop]. rewrite Hty, Hn, Hd.
  pose proof (length_attr_bytes a) as Hb.
  rewrite decide_True by (rewrite length_app; lia). rewrite decide_False by done.
  rewrite IH by (done || lia). rewrite length_app, Hb. f_equal; lia.
Qed.

Lemma find_attr_here a rest fuel off :
  attr_wf a -> (0 < fuel)%nat -> StunMessage.find_attr_loop fuel (attr_bytes a ++ rest) off a.1 = Some off.
Proof.
  intros Ha Hf. destruct fuel as [|fuel]; [lia|]. destruct (attr_front a rest Ha) as (Hty & _).
  cbn [StunMessage.find_attr_loop]. rewrite Hty. pose proof (length_attr_bytes a).
  rewrite decide_True by (rewrite length_app; lia). by rewrite decide_True.
Qed.

(** ** Lemmas: addresses *)

Lemma xor_byte_twice a b : xor_byte (xor_byte a b) b = a.
Proof.
  unfold xor_byte. rewrite u8_of_u8, Z.mod_small.
  - by rewrite lxor_twice, of_u8_u8.
  - apply (is_u_lxor 8); [lia|apply read1|apply read1].
Qed.

Lemma xor_mask_twice l k : length l = length k -> zip_with xor_byte (zip_with xor_byte l k) k = l.
Proof.
  revert k. induction l as [|x l IH]; intros [|y k] H; simplify_eq/=; [done|].
  rewrite xor_byte_twice. f_equal. by apply IH.
Qed.

Lemma length_encode_xor_mapped a tx :
  SocketAddr.wf a -> length tx = 12%nat -> (length (encode_xor_mapped a tx) <= 20)%nat.
Proof.
  intros Ha Htx. destruct a; unfold encode_xor_mapped, xor_mask; simpl; [lia|].
  rewrite length_zip_with_l by (destruct Ha as [-> _]; simpl; lia). destruct Ha as [-> _]. simpl. lia.
Qed.

Lemma decode_encode_xor_mapped a tx :
  SocketAddr.wf a -> length tx = 12%nat -> decode_xor_mapped (encode_xor_mapped a tx) tx = Ok a.
Proof.
  intros Ha Htx. unfold encode_xor_mapped, decode_xor_mapped.
  assert (Hport : forall p, is_u16 p -> is_u16 (Z.lxor p (Z.shiftr MAGIC_COOKIE 16))).
  { intros p Hp. apply is_u_lxor; [lia|done|decide_closed]. }
  destruct a as [ip p|o p f s]; destruct Ha as (H1 & H2).
  - destruct (be_field2 _ (Hport p H2)) as (x & y & -> & R).
    assert (Hip : is_u32 (Z.lxor ip MAGIC_COOKIE)) by (apply is_u_lxor; [lia|done|decide_closed]).
    pose proof (of_be_be_bytes 4 _ Hip) as Rip. pose proof (length_be_bytes 4 (Z.lxor ip MAGIC_COOKIE)) as L4.
    destruct (be_bytes 4 (Z.lxor ip MAGIC_COOKIE)) as [|b1 [|b2 [|b3 [|b4 [|]]]]]; try discriminate L4.
    cut_slices. rewrite Rip, R, !lxor_twice. vm_compute (u8 (of_u8 _)). done.
  - destruct H2 as (Hp & -> & ->). destruct (be_field2 _ (Hport p Hp)) as (x & y & -> & R).
    assert (Lz : length (zip_with xor_byte o (xor_mask tx)) = 16%nat).
    { rewrite length_zip_with_l; [done|]. unfold xor_mask. rewrite length_app, length_be_bytes. lia. }
    set (z := zip_with xor_byte o (xor_mask tx)) in *. cut_slices. rewrite Lz, R, lxor_twice.
    rewrite decide_False by (intros [?|Hz]; [lia|by apply Hz]).
    cbn [lookup_total list_lookup_total]. settle_constants.
    unfold z. rewrite xor_mask_twice; [done|]. unfold xor_mask. rewrite length_app, length_be_bytes. lia.
Qed.

(** ** Lemmas: messages *)

Definition role_wf (r : RoleAttribute) : Prop :=
  match r with Controlling v => is_u64 v | Controlled v => is_u64 v end.

(** A message the types allow, with a username that fits the length field. *)
Definition stun_wf (m : StunMessage) : Prop :=
  length (transaction_id m) = 12%nat /\
  (forall u, username m = Some u -> utf8_valid u = true /\ len u <= 60000) /\
  (forall p, priority m = Some p -> is_u32 p) /\
  (forall r, role m = Some r -> role_wf r) /\
  (forall a, xor_mapped_address m = Some a -> SocketAddr.wf a).

(** The attributes of a message, in the order they are written. *)
Definition attrs_of (m : StunMessage) : list (Z * bytes) :=
  (match username m with Some u => [(ATTR_USERNAME, u)] | None => [] end) ++
  (match priority m with Some p => [(ATTR_PRIORITY, be_bytes 4 p)] | None => [] end) ++
  (match role m with
   | Some (Controlling v) => [(ATTR_ICE_CONTROLLING, be_bytes 8 v)]
   | Some (Controlled v) => [(ATTR_ICE_CONTROLLED, be_bytes 8 v)]
   | None => [] end) ++
  (if use_candidate m then [(ATTR_USE_CANDIDATE, [])] else []) ++
  (match xor_mapped_address m with
   | Some a => [(ATTR_XOR_MAPPED_ADDRESS, encode_xor_mapped a (transaction_id m))]
   | None => [] end) ++
  [(ATTR_SOFTWARE, ascii_bytes "chatt-p2p")].

Lemma mjoin_singleton {A} (x : list A) : mjoin [x] = x.
Proof. cbn. apply app_nil_r. Qed.

Lemma encode_attrs_eq m : StunMessage.encode_attrs m = mjoin (attr_bytes <$> attrs_of m).
Proof.
  unfold StunMessage.encode_attrs, attrs_of. rewrite !fmap_app, !join_app, !append_attr_bytes.
  destruct (username m), (priority m), (role m) as [[]|], (use_candidate m), (xor_mapped_address m);
    cbn [fmap list_fmap]; rewrite ?mjoin_singleton, ?append_attr_bytes, <- ?(assoc_L (++)); done.
Qed.

Lemma attrs_of_wf m : stun_wf m -> Forall attr_wf (attrs_of m).
Proof.
  intros (Htx & Hu & _ & _ & Ha). unfold attrs_of, attr_wf.
  assert (Hone : forall t v, is_u16 t -> len v < 2 ^ 16 ->
    Forall (fun a : Z * bytes => is_u16 a.1 /\ len a.2 < 2 ^ 16) [(t, v)])
    by (intros; by apply Forall_singleton).
  rewrite !Forall_app. split; [|split; [|split; [|split; [|split]]]].
  - destruct (username m) as [u|]; [|apply Forall_nil_2]. destruct (Hu u eq_refl). apply Hone; [decide_closed|lia].
  - destruct (priority m); [|apply Forall_nil_2]. apply Hone; [decide_closed|].
    unfold len. rewrite length_be_bytes. lia.
  - destruct (role m) as [[]|]; [| |apply Forall_nil_2]; (apply Hone; [decide_closed|]);
      unfold len; rewrite length_be_bytes; lia.
  - destruct (use_candidate m); [|apply Forall_nil_2]. apply Hone; decide_closed.
  - destruct (xor_mapped_address m) as [a|]; [|apply Forall_nil_2]. apply Hone; [decide_closed|].
    pose proof (length_encode_xor_mapped a _ (Ha a eq_refl) Htx). unfold len. lia.
  - apply Hone; decide_closed.
Qed.

(** The message the decoding loop starts from. *)
Definition blank (m : StunMessage) : StunMessage :=
  {| class := class m; kind := kind m; transaction_id := transaction_id m; username := None;
     priority := None; role := None; use_candidate := false; xor_mapped_address := None |}.

Lemma apply_all_app m l k :
  apply_all m (l ++ k) = (m' ← apply_all m l; apply_all m' k).
Proof.
  revert m. induction l as [|a l IH]; intros m; cbn [app apply_all]; [done|].
  destruct (StunMessage.apply_attr m a.1 a.2); [|done]. run_result. apply IH.
Qed.

Section attributes.
Context (m : StunMessage).

Lemma apply_username u :
  utf8_valid u = true -> StunMessage.apply_attr m ATTR_USERNAME u = Ok (StunMessage.set_username m u).
Proof. intros Hu. unfold StunMessage.apply_attr. rewrite decide_True by done. by rewrite Hu. Qed.

Lemma apply_priority p :
  is_u32 p -> StunMessage.apply_attr m ATTR_PRIORITY (be_bytes 4 p) = Ok (StunMessage.set_priority m p).
Proof. intros. unfold StunMessage.apply_attr. settle_constants. by rewrite (of_be_be_bytes 4). Qed.

Lemma apply_controlling v :
  is_u64 v -> StunMessage.apply_attr m ATTR_ICE_CONTROLLING (be_bytes 8 v) = Ok (StunMessage.set_role m (Controlling v)).
Proof. intros. unfold StunMessage.apply_attr. settle_constants. by rewrite (of_be_be_bytes 8). Qed.

Lemma apply_controlled v :
  is_u64 v -> StunMessage.apply_attr m ATTR_ICE_CONTROLLED (be_bytes 8 v) = Ok (StunMessage.set_role m (Controlled v)).
Proof. intros. unfold StunMessage.apply_attr. settle_constants. by rewrite (of_be_be_bytes 8). Qed.

Lemma apply_use_candidate :
  StunMessage.apply_attr m ATTR_USE_CANDIDATE [] = Ok (StunMessage.set_use_candidate m).
Proof. done. Qed.

Lemma apply_mapped a :
  SocketAddr.wf a -> length (transaction_id m) = 12%nat ->
  StunMessage.apply_attr m ATTR_XOR_MAPPED_ADDRESS (encode_xor_mapped a (transaction_id m)) =
  Ok (StunMessage.set_mapped m a).
Proof. intros. unfold StunMessage.apply_attr. settle_constants. by rewrite decode_encode_xor_mapped. Qed.

(** The attributes the decoder does not know are skipped. *)
Lemma apply_ignored t v :
  t ∈ [ATTR_SOFTWARE; ATTR_MESSAGE_INTEGRITY_SHA256; ATTR_FINGERPRINT] -> StunMessage.apply_attr m t v = Ok m.
Proof.
  intros Ht. unfold StunMessage.apply_attr.
  repeat (apply elem_of_cons in Ht as [->|Ht]; [by settle_constants|]). by apply elem_of_nil in Ht.
Qed.

End attributes.

(** Reading the attributes back rebuilds the message. *)
Lemma apply_attrs_of m : stun_wf m -> apply_all (blank m) (attrs_of m) = Ok m.
Proof.
  destruct m as [c k tx u p r uc a]. unfold stun_wf, attrs_of, blank.
  cbn [class kind transaction_id username priority role use_candidate xor_mapped_address].
  intros (Htx & Hu & Hp & Hr & Ha). rewrite apply_all_app.
  set (m0 := mkStun c k tx None None None false None).
  assert (apply_all m0 (match u with Some u => [(ATTR_USERNAME, u)] | None => [] end) =
    Ok (mkStun c k tx u None None false None)) as ->.
  { destruct u as [u|]; [|done]. cbn [apply_all fst snd]. rewrite apply_username by by apply Hu. done. }
  run_result. rewrite ?apply_all_app. set (m1 := mkStun c k tx u None None false None).
  assert (apply_all m1 (match p with Some p => [(ATTR_PRIORITY, be_bytes 4 p)] | None => [] end) =
    Ok (mkStun c k tx u p None false None)) as ->.
  { destruct p as [p|]; [|done]. cbn [apply_all fst snd]. rewrite apply_priority by by apply Hp. done. }
  run_result. rewrite ?apply_all_app. set (m2 := mkStun c k tx u p None false None).
  assert (apply_all m2 (match r with
     | Some (Controlling v) => [(ATTR_ICE_CONTROLLING, be_bytes 8 v)]
     | Some (Controlled v) => [(ATTR_ICE_CONTROLLED, be_bytes 8 v)]
     | None => [] end) = Ok (mkStun c k tx u p r false None)) as ->.
  { destruct r as [[v|v]|]; [| |done]; cbn [apply_all fst snd];
      [rewrite apply_controlling by (by apply (Hr _ eq_refl))|rewrite apply_controlled by (by apply (Hr _ eq_refl))]; done. }
  run_result. rewrite ?apply_all_app. set (m3 := mkStun c k tx u p r false None).
  assert (apply_all m3 (if uc then [(ATTR_USE_CANDIDATE, [])] else []) =
    Ok (mkStun c k tx u p r uc None)) as ->.
  { destruct uc; [|done]. cbn [apply_all fst snd]. by rewrite apply_use_candidate. }
  run_result. rewrite ?apply_all_app. set (m4 := mkStun c k tx u p r uc None).
  assert (apply_all m4 (match a with
     | Some a => [(ATTR_XOR_MAPPED_ADDRESS, encode_xor_mapped a tx)] | None => [] end) =
    Ok (mkStun c k tx u p r uc a)) as ->.
  { destruct a as [a|]; [|done]. cbn [apply_all fst snd].
    change tx with (transaction_id m4) at 1. rewrite apply_mapped by (by auto). done. }
  run_result. cbn [apply_all fst snd]. by rewrite apply_ignored by decide_closed.
Qed.

Lemma length_header m n : length (transaction_id m) = 12%nat -> length (StunMessage.header m n) = 20%nat.
Proof. intros H. unfold StunMessage.header. rewrite !length_app, !length_be_bytes, H. done. Qed.

(** The header fields read back. *)
Lemma header_front m n rest :
  length (transaction_id m) = 12%nat -> Z.of_nat n < 65536 ->
  let bs := StunMessage.header m n ++ rest in
  Z.land (u8 (bs !!! 0%nat)) 192 = 0 /\ Z.to_nat (of_be (slice bs 2 4)) = n /\
  of_be (slice bs 4 8) = MAGIC_COOKIE /\ parse_message_type (of_be (slice bs 0 2)) = Ok (kind m, class m) /\
  slice bs 8 20 = transaction_id m.
Proof.
  intros Htx Hn bs. subst bs. unfold StunMessage.header. rewrite wrap_small by (unfold is_u; lia).
  destruct (be_field2 (Z.of_nat n)) as (a & b & -> & R); [unfold is_u; lia|].
  destruct (transaction_id m) as [|t0 [|t1 [|t2 [|t3 [|t4 [|t5 [|t6 [|t7 [|t8 [|t9 [|t10 [|t11 [|]]]]]]]]]]]]];
    try discriminate Htx.
  change (be_bytes 4 MAGIC_COOKIE) with [of_u8 33; of_u8 18; of_u8 164; of_u8 66].
  assert (Hty : exists x y, be_bytes 2 (message_type (kind m) (class m)) = [x; y] /\ Z.land (u8 x) 192 = 0 /\
    parse_message_type (of_be [x; y]) = Ok (kind m, class m)).
  { destruct (kind m), (class m); eexists _, _; (split; [reflexivity|vm_compute; by split]). }
  destruct Hty as (x & y & -> & Hx & Hy). cut_slices. rewrite R, Nat2Z.id. cbn [lookup_total list_lookup_total].
  split; [done|]. split; [done|]. split; [vm_compute; reflexivity|]. by split.
Qed.

Lemma attrs_length l : (4 * length l <= length (mjoin (attr_bytes <$> l)))%nat.
Proof.
  induction l as [|a l IH]; [done|].
  change (mjoin (attr_bytes <$> a :: l)) with (attr_bytes a ++ mjoin (attr_bytes <$> l)).
  rewrite length_app, length_attr_bytes. simpl. lia.
Qed.

(** Decoding a packet made of a header and attributes. *)
Lemma decode_assembled m l (attrs := mjoin (attr_bytes <$> l)) :
  length (transaction_id m) = 12%nat -> Forall attr_wf l -> len attrs < 65536 ->
  StunMessage.decode (StunMessage.header m (length attrs) ++ attrs) = apply_all (blank m) l.
Proof.
  intros Htx Hl Hlen. destruct (header_front m (length attrs) attrs Htx Hlen) as (H0 & Hn & Hc & Ht & Hx).
  pose proof (length_header m (length attrs) Htx) as Hh.
  set (bs := StunMessage.header m (length attrs) ++ attrs) in *.
  assert (length bs = 20 + length attrs)%nat as Hb by (subst bs; rewrite length_app; lia).
  unfold StunMessage.decode, HEADER_LEN. rewrite Hn, Hc, Hb, Ht, H0.
  rewrite decide_False by lia. settle_constants. rewrite decide_False by lia.
  run_result. rewrite Hx.
  assert (slice bs 20 (20 + length attrs) = attrs) as ->.
  { subst bs. rewrite <- (app_nil_r attrs) at 2. apply slice_mid; lia. }
  apply decode_attrs_all; [done|]. pose proof (attrs_length l). subst attrs. lia.
Qed.

(** Finding the first attribute of a type in such a packet. *)
Lemma find_assembled m l a k n (before := mjoin (attr_bytes <$> l)) (rest := mjoin (attr_bytes <$> k)) :
  length (transaction_id m) = 12%nat -> Forall attr_wf l -> attr_wf a -> Forall (fun x => x.1 <> a.1) l ->
  n = length (before ++ attr_bytes a ++ rest) -> Z.of_nat n < 65536 ->
  StunMessage.find_attr (StunMessage.header m n ++ before ++ attr_bytes a ++ rest) a.1 =
  Some (20 + length before)%nat.
Proof.
  intros Htx Hl Ha Hne En Hn.
  destruct (header_front m n (before ++ attr_bytes a ++ rest) Htx Hn) as (_ & Hlen & _).
  pose proof (length_header m n Htx) as Hh. set (tail := before ++ attr_bytes a ++ rest) in *.
  unfold StunMessage.find_attr, HEADER_LEN. rewrite Hlen, length_app, Hh, decide_False by lia.
  rewrite <- En, Nat.min_id.
  assert (slice (StunMessage.header m n ++ tail) 20 (20 + n) = tail) as ->.
  { rewrite <- (app_nil_r tail) at 1. apply slice_mid; lia. }
  pose proof (attrs_length l). subst tail before. rewrite length_app in En.
  rewrite find_attr_skip by (done || lia). apply find_attr_here; [done|lia].
Qed.

(** The bytes of the optional attributes of a message. *)
Lemma len_attrs_cons a l : len (mjoin (attr_bytes <$> a :: l)) = 4 + Z.of_nat (padded_len (length a.2)) + len (mjoin (attr_bytes <$> l)).
Proof.
  change (mjoin (attr_bytes <$> a :: l)) with (attr_bytes a ++ mjoin (attr_bytes <$> l)).
  rewrite len_app. unfold len. rewrite length_attr_bytes. lia.
Qed.

Lemma len_attrs_app l k :
  len (mjoin (attr_bytes <$> l ++ k)) = len (mjoin (attr_bytes <$> l)) + len (mjoin (attr_bytes <$> k)).
Proof. by rewrite fmap_app, join_app, len_app. Qed.

Lemma attrs_of_length m : stun_wf m -> len (mjoin (attr_bytes <$> attrs_of m)) <= 60100.
Proof.
  intros (Htx & Hu & _ & _ & Ha). unfold attrs_of. rewrite !len_attrs_app.
  assert (H0 : len (mjoin (attr_bytes <$> [])) = 0) by done.
  assert (H1 : forall t v, len (mjoin (attr_bytes <$> [(t, v)])) <= 7 + len v).
  { intros. rewrite len_attrs_cons, H0. cbn [snd]. pose proof (padded_len_bounds (length v)). unfold len. lia. }
  assert (len (mjoin (attr_bytes <$> match username m with Some u => [(ATTR_USERNAME, u)] | None => [] end)) <= 60007).
  { destruct (username m) as [u|]; [|rewrite H0; lia]. destruct (Hu u eq_refl).
    pose proof (H1 ATTR_USERNAME u). lia. }
  assert (len (mjoin (attr_bytes <$> match priority m with Some p => [(ATTR_PRIORITY, be_bytes 4 p)] | None => [] end)) <= 11).
  { destruct (priority m) as [p|]; [|rewrite H0; lia]. etrans; [apply H1|].
    unfold len. rewrite length_be_bytes. lia. }
  assert (len (mjoin (attr_bytes <$> match role m with
     | Some (Controlling v) => [(ATTR_ICE_CONTROLLING, be_bytes 8 v)]
     | Some (Controlled v) => [(ATTR_ICE_CONTROLLED, be_bytes 8 v)] | None => [] end)) <= 15).
  { destruct (role m) as [[v|v]|]; [| |rewrite H0; lia]; (etrans; [apply H1|]); unfold len; rewrite length_be_bytes; lia. }
  assert (len (mjoin (attr_bytes <$> if use_candidate m then [(ATTR_USE_CANDIDATE, [])] else [])) <= 7).
  { destruct (use_candidate m); [apply (H1 _ [])|rewrite H0; lia]. }
  assert (len (mjoin (attr_bytes <$> match xor_mapped_address m with
     | Some a => [(ATTR_XOR_MAPPED_ADDRESS, encode_xor_mapped a (transaction_id m))] | None => [] end)) <= 27).
  { destruct (xor_mapped_address m) as [a|]; [|rewrite H0; lia]. etrans; [apply H1|].
    pose proof (length_encode_xor_mapped a _ (Ha a eq_refl) Htx). unfold len. lia. }
  pose proof (H1 ATTR_SOFTWARE (ascii_bytes "chatt-p2p")) as H9. change (len (ascii_bytes "chatt-p2p")) with 9 in H9. lia.
Qed.

Section signed.
Context `{PrimitiveLaws}.

(** The integrity value of a message: the HMAC of everything before it, with
    the header length counting the integrity attribute. *)
Definition mac_of (m : StunMessage) (key : bytes) : bytes :=
  let attrs := mjoin (attr_bytes <$> attrs_of m) in
  hmac_sha256 key (StunMessage.header m (length attrs + INTEGRITY_ATTR_LEN) ++ attrs).

(** A signed message followed by any attributes [extra]. *)
Definition signed_with (m : StunMessage) (key : bytes) (extra : list (Z * bytes)) : bytes :=
  let attrs := mjoin (attr_bytes <$> attrs_of m ++ (ATTR_MESSAGE_INTEGRITY_SHA256, mac_of m key) :: extra) in
  StunMessage.header m (length attrs) ++ attrs.

Lemma mac_attr_wf m key : attr_wf (ATTR_MESSAGE_INTEGRITY_SHA256, mac_of m key).
Proof.
  split; [decide_closed|]. cbn [snd]. unfold mac_of, len. rewrite hmac_sha256_length. lia.
Qed.

Lemma encode_signed m key :
  exists crc, StunMessage.encode m (Some key) = signed_with m key [(ATTR_FINGERPRINT, be_bytes 4 crc)].
Proof.
  unfold StunMessage.encode, signed_with, StunMessage.assemble, mac_of, stun_integrity.
  rewrite encode_attrs_eq, !append_attr_bytes. set (A := mjoin (attr_bytes <$> attrs_of m)).
  eexists. rewrite !fmap_app, !join_app. fold A. cbn [fmap list_fmap mjoin list_join].
  rewrite app_nil_r, <- !(assoc_L (++)). reflexivity.
Qed.

Lemma attrs_of_no_integrity m : Forall (fun x => x.1 <> ATTR_MESSAGE_INTEGRITY_SHA256) (attrs_of m).
Proof.
  assert (Hone : forall t v, t <> ATTR_MESSAGE_INTEGRITY_SHA256 ->
    Forall (fun a : Z * bytes => a.1 <> ATTR_MESSAGE_INTEGRITY_SHA256) [(t, v)])
    by (intros; by apply Forall_singleton).
  unfold attrs_of. rewrite !Forall_app. split; [|split; [|split; [|split; [|split]]]].
  - destruct (username m); [by apply Hone|apply Forall_nil_2].
  - destruct (priority m); [by apply Hone|apply Forall_nil_2].
  - destruct (role m) as [[]|]; [by apply Hone|by apply Hone|apply Forall_nil_2].
  - destruct (use_candidate m); [by apply Hone|apply Forall_nil_2].
  - destruct (xor_mapped_address m); [by apply Hone|apply Forall_nil_2].
  - by apply Hone.
Qed.

(** What verification does with a signed message and attributes after it. *)
Lemma verify_signed_with m key extra :
  stun_wf m -> Forall attr_wf extra -> len (mjoin (attr_bytes <$> extra)) <= 4000 ->
  StunMessage.decode_and_verify (signed_with m key extra) key = apply_all m extra.
Proof.
  intros Hm Hex Hel. pose proof (attrs_of_length m Hm) as HA. pose proof Hm as (Htx & _).
  pose proof (mac_attr_wf m key) as Hmac. pose proof (attrs_of_wf m Hm) as Hwf.
  set (mac := (ATTR_MESSAGE_INTEGRITY_SHA256, mac_of m key)) in *.
  set (A := mjoin (attr_bytes <$> attrs_of m)) in *. set (X := mjoin (attr_bytes <$> extra)) in *.
  assert (Lmac : length (attr_bytes mac) = 36%nat).
  { rewrite length_attr_bytes. unfold mac, mac_of. cbn [snd]. by rewrite hmac_sha256_length. }
  assert (ET : mjoin (attr_bytes <$> attrs_of m ++ mac :: extra) = A ++ attr_bytes mac ++ X).
  { by rewrite fmap_app, join_app. }
  assert (Hall : Forall attr_wf (attrs_of m ++ mac :: extra)) by (apply Forall_app; auto).
  assert (HT : len (A ++ attr_bytes mac ++ X) < 65536).
  { rewrite !len_app. unfold len in *. rewrite Lmac. lia. }
  unfold StunMessage.decode_and_verify, signed_with. fold mac.
  rewrite decode_assembled by (done || by rewrite ET).
  rewrite apply_all_app, apply_attrs_of by done. run_result. cbn [apply_all].
  rewrite apply_ignored by decide_closed. run_result.
  destruct (apply_all m extra) as [m'|]; [|done]. run_result. rewrite ET.
  set (n := length (A ++ attr_bytes mac ++ X)) in *.
  pose proof (find_assembled m (attrs_of m) mac extra n Htx Hwf Hmac (attrs_of_no_integrity m) eq_refl HT) as Hfind.
  fold A X in Hfind. change mac.1 with ATTR_MESSAGE_INTEGRITY_SHA256 in Hfind. rewrite Hfind.
  run_result. pose proof (length_header m n Htx) as Hh.
  rewrite decide_False by (rewrite !length_app, Lmac; lia).
  assert (Etag : slice (StunMessage.header m n ++ A ++ attr_bytes mac ++ X) (20 + length A + 4)
    (20 + length A + 4 + 32) = mac_of m key).
  { assert (exists h pad, attr_bytes mac = h ++ mac_of m key ++ pad /\ length h = 4%nat) as (h & pad & -> & Hh4).
    { eexists (be_bytes 2 _ ++ be_bytes 2 _), _. split; [unfold attr_bytes, append_attr, mac; cbn [fst snd];
        rewrite app_nil_l, <- (assoc_L (++)); reflexivity|by rewrite length_app, !length_be_bytes]. }
    replace (StunMessage.header m n ++ A ++ (h ++ mac_of m key ++ pad) ++ X) with
      ((StunMessage.header m n ++ A ++ h) ++ mac_of m key ++ (pad ++ X)) by (by rewrite <- !(assoc_L (++))).
    apply slice_mid; [rewrite !length_app; lia|unfold mac_of; by rewrite hmac_sha256_length]. }
  rewrite Etag.
  assert (Epre : take (20 + length A) (StunMessage.header m n ++ A ++ attr_bytes mac ++ X) = StunMessage.header m n ++ A).
  { rewrite (assoc_L (++)). apply take_app_length'. rewrite length_app. lia. }
  rewrite Epre. replace (20 + length A + INTEGRITY_ATTR_LEN - HEADER_LEN)%nat with (length A + INTEGRITY_ATTR_LEN)%nat
    by (unfold INTEGRITY_ATTR_LEN, HEADER_LEN; lia).
  assert (take 2 (StunMessage.header m n ++ A) ++ be_bytes 2 (wrap 16 (Z.of_nat (length A + INTEGRITY_ATTR_LEN))) ++
    drop 4 (StunMessage.header m n ++ A) = StunMessage.header m (length A + INTEGRITY_ATTR_LEN) ++ A) as ->.
  { unfold StunMessage.header. rewrite <- !(assoc_L (++)).
    rewrite take_app_length' by (by rewrite length_be_bytes). reflexivity. }
  unfold stun_verify, mac_of. rewrite (proj2 (hmac_verify_iff _ _ _) eq_refl). done.
Qed.

(** The fingerprint behind the integrity attribute does not disturb it. *)
Lemma verify_encoded m key :
  stun_wf m -> StunMessage.decode_and_verify (StunMessage.encode m (Some key)) key = Ok m.
Proof.
  intros Hm. destruct (encode_signed m key) as [crc ->].
  rewrite verify_signed_with; [|done| |].
  - cbn [apply_all fst snd]. by rewrite apply_ignored by decide_closed.
  - apply Forall_singleton. split; [decide_closed|]. cbn [snd]. unfold len. rewrite length_be_bytes. lia.
  - rewrite len_attrs_cons. cbn [snd]. rewrite length_be_bytes. vm_compute. discriminate.
Qed.

End signed.

(** ** Properties *)

(** C30: a binding request or response encoded without a key decodes to exactly
    the same message: every attribute, its padding and the XOR-ed address; one
    signed with a key verifies under that key and gives back the message.  (Of an
    IPv6 address the format carries no flow and scope id: [stun_wf] has them 0.) *)
Theorem stun_roundtrip `{PrimitiveLaws} (m : StunMessage) (key : bytes) :
  stun_wf m ->
  StunMessage.decode (StunMessage.encode m None) = Ok m /\
  StunMessage.decode_and_verify (StunMessage.encode m (Some key)) key = Ok m.
Proof.
  intros Hm. split; [|by apply verify_encoded]. pose proof Hm as (Htx & _).
  unfold StunMessage.encode, StunMessage.assemble.
  rewrite encode_attrs_eq. pose proof (attrs_of_length m Hm).
  rewrite decode_assembled by (done || by apply attrs_of_wf || lia). by apply apply_attrs_of.
Qed.

(** C31: verification authenticates only what stands before the integrity
    attribute: any attributes appended after it, by anyone, leave the check
    passing and are applied to the message that is returned.  An on-path
    attacker without the key can so set USE-CANDIDATE, replace the priority or
    flip the role of a signed request. *)
Theorem trailing_attributes_unauthenticated `{PrimitiveLaws} (m : StunMessage) (key : bytes)
    (extra : list (Z * bytes)) :
  stun_wf m -> Forall attr_wf extra -> len (mjoin (attr_bytes <$> extra)) <= 4000 ->
  StunMessage.decode_and_verify (signed_with m key extra) key = apply_all m extra.
Proof. apply verify_signed_with. Qed.

(** Witness data: one request over the toy primitives. *)
#[local] Existing Instance Toy.toy.
#[local] Existing Instance Toy.toy_laws.

Definition toy_request : StunMessage :=
  StunMessage.binding_request (TransactionId.from_counter 7) (Some (ascii_bytes "a:b")) 1845501695
    (Controlled 99) false.
Definition toy_response : StunMessage :=
  StunMessage.binding_success (TransactionId.from_counter 8) (SockV6 (be_bytes 16 77777) 5004 0 0).
Definition toy_stun_key : bytes := replicate 32 Byte.x0b.

Lemma toy_request_wf : stun_wf toy_request.
Proof.
  split; [reflexivity|]. repeat split; intros; simplify_eq/=; try decide_closed; by vm_compute.
Qed.

Lemma toy_response_wf : stun_wf toy_response.
Proof.
  split; [reflexivity|]. repeat split; intros; simplify_eq/=; repeat split; try decide_closed; by vm_compute.
Qed.

Lemma stun_roundtrip_witness :
  StunMessage.decode (StunMessage.encode toy_response None) = Ok toy_response /\
  StunMessage.decode_and_verify (StunMessage.encode toy_request (Some toy_stun_key)) toy_stun_key = Ok toy_request.
Proof.
  split.
  - exact (proj1 (stun_roundtrip toy_response toy_stun_key toy_response_wf)).
  - exact (proj2 (stun_roundtrip toy_request toy_stun_key toy_request_wf)).
Defined.

Lemma trailing_attributes_unauthenticated_witness :
  use_candidate toy_request = false /\
  exists m, StunMessage.decode_and_verify
      (signed_with toy_request toy_stun_key [(ATTR_USE_CANDIDATE, []); (ATTR_ICE_CONTROLLING, be_bytes 8 5)])
      toy_stun_key = Ok m /\
    use_candidate m = true /\ role m = Some (Controlling 5).
Proof.
  split; [reflexivity|]. eexists.
  rewrite (trailing_attributes_unauthenticated toy_request toy_stun_key
    [(ATTR_USE_CANDIDATE, []); (ATTR_ICE_CONTROLLING, be_bytes 8 5)]).
  - vm_compute. by repeat split.
  - apply toy_request_wf.
  - unfold attr_wf. decide_closed.
  - decide_closed.
Defined.
