(* ===== verification/Clock.v ===== *)
(** * Instants, durations and the [f64] arithmetic on them

    Models what src/crates/p2p/src/agent.rs uses of [std::time]: an [Instant]
    and a [Duration] are integers of nanoseconds with the ranges of the standard
    library (64 bits of seconds, signed and unsigned), sums and products that
    leave the range panic, [duration_since] is zero for a later instant, and [Duration::mul_f64] goes through binary64 with the
    rounding of IEEE 754, computed by the Standard Library's [SpecFloat]. *)

From Stdlib Require Import Floats.SpecFloat.
From S2P Require Import Prelude.

Definition NANOS_PER_SEC : Z := 1000000000.

Definition from_millis (ms : Z) : Z := ms * 1000000.
Definition from_secs (s : Z) : Z := s * NANOS_PER_SEC.

(** [Instant + Duration] and [Duration * u32]; [None] is the panic on overflow. *)
Definition instant_add (t d : Z) : option Z :=
  if decide (t + d < 2 ^ 63 * NANOS_PER_SEC) then Some (t + d) else None.
Definition duration_mul (d k : Z) : option Z :=
  if decide (d * k < 2 ^ 64 * NANOS_PER_SEC) then Some (d * k) else None.

(** Half the range of an instant: below it no sum of an instant and a duration,
    and no doubled duration, overflows. *)
Definition LONG : Z := from_secs (2 ^ 62).

Lemma instant_add_ok t d : t < LONG -> d <= LONG -> instant_add t d = Some (t + d).
Proof. intros Ht Hd. unfold instant_add. apply decide_True. unfold LONG, from_secs in *. lia. Qed.

Lemma duration_double_ok d : d <= LONG -> duration_mul d 2 = Some (d * 2).
Proof. intros Hd. unfold duration_mul. apply decide_True. unfold LONG, from_secs, NANOS_PER_SEC in *. lia. Qed.

Definition duration_since (now earlier : Z) : Z := saturating_sub now earlier.

(** ** binary64 *)

Definition f64 : Type := spec_float.

Definition f64_of_int (z : Z) : f64 := binary_normalize 53 1024 z 0 false.
Definition f64_add : f64 -> f64 -> f64 := SFadd 53 1024.
Definition f64_mul : f64 -> f64 -> f64 := SFmul 53 1024.
Definition f64_div : f64 -> f64 -> f64 := SFdiv 53 1024.

(** A decimal literal is the nearest binary64 number to the fraction. *)
Definition f64_literal (num den : Z) : f64 := f64_div (f64_of_int num) (f64_of_int den).

(** [m / d] to the nearest integer, ties to even. *)
Definition div_half_even (m d : Z) : Z :=
  let q := m / d in
  match 2 * (m mod d) ?= d with
  | Lt => q
  | Eq => q + q mod 2
  | Gt => q + 1
  end.

(** [Duration::as_secs_f64]. *)
Definition as_secs_f64 (d : Z) : f64 :=
  f64_add (f64_of_int (d / NANOS_PER_SEC)) (f64_div (f64_of_int (d mod NANOS_PER_SEC)) (f64_of_int NANOS_PER_SEC)).

(** [Duration::from_secs_f64]: [None] is its panic on a negative value, a value
    too large for a [u64] of seconds, an infinity or a NaN. *)
Definition from_secs_f64 (x : f64) : option Z :=
  match x with
  | S754_zero _ => Some 0
  | S754_finite false m e =>
      let n := if decide (0 <= e) then Z.pos m * 2 ^ e * NANOS_PER_SEC
               else div_half_even (Z.pos m * NANOS_PER_SEC) (2 ^ (- e)) in
      if decide (n < 2 ^ 64 * NANOS_PER_SEC) then Some n else None
  | _ => None
  end.

(** [Duration::mul_f64]. *)
Definition mul_f64 (d : Z) (factor : f64) : option Z := from_secs_f64 (f64_mul factor (as_secs_f64 d)).

(** Every value of [0 .. n) satisfies a decidable bound: settled by running. *)
Lemma forall_below (P : Z -> Prop) `{forall z, Decision (P z)} (n : nat) :
  forallb (fun z => bool_decide (P z)) (seqZ 0 (Z.of_nat n)) = true -> forall z, 0 <= z < Z.of_nat n -> P z.
Proof.
  rewrite forallb_forall. intros Hall z Hz. apply (bool_decide_eq_true_1 _).
  apply Hall, list_elem_of_In, elem_of_seqZ. lia.
Qed.
