(* ===== verification/Budget.v ===== *)
(** * Ingress budgets of the voice relay

    Models [TokenBucket] and [MediaBudget] of src/crates/server/src/voice_relay.rs:
    the buckets that bound what one session can make the relay fan out.  An
    [Instant] is an integer of nanoseconds ([Clock]). *)

From S2P Require Import Prelude Clock.

Definition VOICE_INGRESS_BYTES_PER_SEC : Z := 48 * 1024.
Definition VOICE_INGRESS_PACKETS_PER_SEC : Z := 120.
Definition FEEDBACK_INGRESS_PACKETS_PER_SEC : Z := 100.
Definition SIGNAL_INGRESS_PACKETS_PER_SEC : Z := 20.

Record TokenBucket := mkBucket { rate : Z; burst : Z; tokens : Z; remainder : Z; last_at : Z }.

Module TokenBucket.

Definition new (rate now : Z) : TokenBucket :=
  {| rate := rate; burst := rate; tokens := rate; remainder := 0; last_at := now |}.

Definition refill (b : TokenBucket) (now : Z) : TokenBucket :=
  let elapsed := duration_since now (last_at b) in
  if decide (elapsed = 0) then b
  else
    let micros := Z.min (elapsed / 1000) (umax 64) in
    let total := saturating_add 64 (remainder b) (Z.min (rate b * micros) (umax 64)) in
    let gained := Z.min (total / 1000000) (umax 32) in
    {| rate := rate b; burst := burst b; tokens := Z.min (saturating_add 32 (tokens b) gained) (burst b);
       remainder := total mod 1000000; last_at := now |}.

Definition take (b : TokenBucket) (now cost : Z) : TokenBucket * bool :=
  let b := refill b now in
  if decide (cost <= tokens b)
  then ({| rate := rate b; burst := burst b; tokens := tokens b - cost; remainder := remainder b; last_at := last_at b |}, true)
  else (b, false).

Definition available (b : TokenBucket) (now : Z) : TokenBucket * Z :=
  let b := refill b now in (b, tokens b).

End TokenBucket.

Record MediaBudget := mkBudget {
  voice_bytes : TokenBucket;
  voice_packets : TokenBucket;
  feedback_packets : TokenBucket;
  signal_packets : TokenBucket;
  dropped : Z;
}.

Module MediaBudget.

Definition new (now : Z) : MediaBudget :=
  {| voice_bytes := TokenBucket.new VOICE_INGRESS_BYTES_PER_SEC now;
     voice_packets := TokenBucket.new VOICE_INGRESS_PACKETS_PER_SEC now;
     feedback_packets := TokenBucket.new FEEDBACK_INGRESS_PACKETS_PER_SEC now;
     signal_packets := TokenBucket.new SIGNAL_INGRESS_PACKETS_PER_SEC now;
     dropped := 0 |}.

Definition set_voice (vb vp : TokenBucket) (m : MediaBudget) : MediaBudget :=
  {| voice_bytes := vb; voice_packets := vp; feedback_packets := feedback_packets m;
     signal_packets := signal_packets m; dropped := dropped m |}.
Definition set_feedback (b : TokenBucket) (m : MediaBudget) : MediaBudget :=
  {| voice_bytes := voice_bytes m; voice_packets := voice_packets m; feedback_packets := b;
     signal_packets := signal_packets m; dropped := dropped m |}.
Definition set_signal (b : TokenBucket) (m : MediaBudget) : MediaBudget :=
  {| voice_bytes := voice_bytes m; voice_packets := voice_packets m; feedback_packets := feedback_packets m;
     signal_packets := b; dropped := dropped m |}.
Definition set_dropped (n : Z) (m : MediaBudget) : MediaBudget :=
  {| voice_bytes := voice_bytes m; voice_packets := voice_packets m; feedback_packets := feedback_packets m;
     signal_packets := signal_packets m; dropped := n |}.

Definition reject (m : MediaBudget) : MediaBudget * bool := (set_dropped (saturating_add 32 (dropped m) 1) m, false).

Definition admit_voice (m : MediaBudget) (now : Z) (wire_bytes : nat) : MediaBudget * bool :=
  let cost := Z.min (Z.of_nat wire_bytes) (umax 32) in
  let '(vb, bytes_left) := TokenBucket.available (voice_bytes m) now in
  let m := set_voice vb (voice_packets m) m in
  if decide (bytes_left < cost) then reject m
  else
    let '(vp, packets_left) := TokenBucket.available (voice_packets m) now in
    let m := set_voice vb vp m in
    if decide (packets_left < 1) then reject m
    else (set_voice (TokenBucket.take vb now cost).1 (TokenBucket.take vp now 1).1 m, true).

Definition admit_feedback (m : MediaBudget) (now : Z) : MediaBudget * bool :=
  let '(b, ok) := TokenBucket.take (feedback_packets m) now 1 in
  let m := set_feedback b m in
  if (ok : bool) then (m, true) else reject m.

Definition admit_signal (m : MediaBudget) (now : Z) : MediaBudget * bool :=
  let '(b, ok) := TokenBucket.take (signal_packets m) now 1 in
  let m := set_signal b m in
  if (ok : bool) then (m, true) else reject m.

End MediaBudget.

(** ** One bucket

    A millionth of a token for every microsecond and token of rate: what the
    bucket holds, exactly. *)

Definition level (b : TokenBucket) : Z := tokens b * 1000000 + remainder b.

Record bucket_wf (b : TokenBucket) : Prop := {
  bw_rate : is_u32 (rate b);
  bw_burst : burst b = rate b;
  bw_tokens : 0 <= tokens b <= burst b;
  bw_remainder : 0 <= remainder b < 1000000;
}.

Lemma new_bucket_wf r now : is_u32 r -> bucket_wf (TokenBucket.new r now).
Proof. intros [? ?]. constructor; cbn; try split; lia. Qed.

(** Refilling adds no more than the rate allows for the time that passed. *)
Lemma refill_wf b now :
  bucket_wf b -> let b' := TokenBucket.refill b now in
  bucket_wf b' /\ rate b' = rate b /\ last_at b' = Z.max (last_at b) now /\
  1000 * level b' <= 1000 * level b + rate b * (last_at b' - last_at b).
Proof.
  intros [[R0 R1] Hb [T0 T1] [M0 M1]]. unfold TokenBucket.refill, duration_since, saturating_sub, saturating_add, level, umax.
  case_decide as He; cbn zeta.
  { split; [by constructor|]. split; [done|]. split; [lia|]. lia. }
  set (micros := Z.min (Z.max 0 (now - last_at b) / 1000) (2 ^ 64 - 1)).
  set (total := Z.min (remainder b + Z.min (rate b * micros) (2 ^ 64 - 1)) (2 ^ 64 - 1)).
  assert (0 <= micros /\ micros * 1000 <= now - last_at b) as Hm.
  { subst micros. pose proof (Z.mul_div_le (Z.max 0 (now - last_at b)) 1000 ltac:(lia)).
    pose proof (Z.div_pos (Z.max 0 (now - last_at b)) 1000 ltac:(lia) ltac:(lia)). lia. }
  assert (0 <= total <= remainder b + rate b * micros) as Ht.
  { subst total. assert (0 <= rate b * micros) by (apply Z.mul_nonneg_nonneg; lia). lia. }
  pose proof (Z.mod_pos_bound total 1000000 ltac:(lia)) as Hmod. pose proof (Z.div_mod total 1000000 ltac:(lia)) as Hdiv.
  pose proof (Z.div_pos total 1000000 ltac:(lia) ltac:(lia)) as Hq.
  cbn [rate burst tokens remainder last_at]. split; [constructor; cbn; [by split|done|lia|lia]|]. split; [done|]. split; [lia|].
  assert (rate b * (micros * 1000) <= rate b * (now - last_at b)) by (apply Z.mul_le_mono_nonneg_l; lia).
  lia.
Qed.

(** Refilling again at once does nothing. *)
Lemma refill_twice b now : TokenBucket.refill (TokenBucket.refill b now) now = TokenBucket.refill b now.
Proof.
  unfold TokenBucket.refill at 2. case_decide as He.
  - unfold TokenBucket.refill. by rewrite decide_True.
  - unfold TokenBucket.refill at 1. cbn [last_at]. unfold duration_since, saturating_sub. rewrite decide_True by lia.
    unfold TokenBucket.refill. by rewrite decide_False.
Qed.

(** What was spent since [t0], against what a full bucket and the time since then allow. *)
Definition spent (b : TokenBucket) (t0 total : Z) : Prop :=
  1000 * (level b + 1000000 * total) <= 1000 * (rate b * 1000000 + 999999) + rate b * (Z.max (last_at b) t0 - t0) /\
  (last_at b < t0 -> total = 0).

Lemma spent_nothing b t0 : bucket_wf b -> spent b t0 0.
Proof.
  intros [[R0 R1] Hb [T0 T1] [M0 M1]]. split; [|done]. unfold level.
  assert (0 <= rate b * (Z.max (last_at b) t0 - t0)) by (apply Z.mul_nonneg_nonneg; lia). lia.
Qed.

Lemma spent_refill b t0 total now : bucket_wf b -> t0 <= now -> spent b t0 total -> spent (TokenBucket.refill b now) t0 total.
Proof.
  intros W Ht [S0 S1]. destruct (refill_wf b now W) as (W' & Hr & Hl & Hlev). destruct (decide (last_at b < t0)) as [Hlt|Hge].
  - rewrite (S1 Hlt). by apply spent_nothing.
  - split; [|lia]. rewrite Hr. replace (Z.max (last_at b) t0) with (last_at b) in S0 by lia.
    replace (Z.max (last_at (TokenBucket.refill b now)) t0 - t0)
      with ((last_at b - t0) + (last_at (TokenBucket.refill b now) - last_at b)) by lia.
    rewrite Z.mul_add_distr_l. lia.
Qed.

(** A charge that the refilled bucket covers. *)
Lemma take_spent b t0 total now cost :
  bucket_wf b -> t0 <= now -> spent b t0 total -> 0 <= cost <= tokens (TokenBucket.refill b now) ->
  let b' := (TokenBucket.take b now cost).1 in
  bucket_wf b' /\ rate b' = rate b /\ last_at b' = Z.max (last_at b) now /\ spent b' t0 (total + cost) /\
  tokens b' = tokens (TokenBucket.refill b now) - cost.
Proof.
  intros W Ht S Hc. destruct (refill_wf b now W) as ([W1 W2 W3 W4] & Hr & Hl & _).
  destruct (spent_refill b t0 total now W Ht S) as [S0 _]. unfold TokenBucket.take.
  set (b1 := TokenBucket.refill b now) in *. rewrite decide_True by lia. cbn [fst rate burst tokens remainder last_at].
  split; [constructor; cbn; (done || lia)|]. split; [done|]. split; [done|]. split; [|done].
  split; unfold level in *; cbn [rate tokens remainder last_at]; lia.
Qed.

(** A bucket that was missing [k] tokens is full again after the time [k] tokens take. *)
Lemma refill_full b now k :
  bucket_wf b -> 0 <= k ->
  tokens b = burst b \/ burst b - k <= tokens b /\ last_at b + 20000000 <= now /\ k * 1000000 <= rate b * 20000 ->
  tokens (TokenBucket.refill b now) = burst b.
Proof.
  intros [[R0 R1] Hb [T0 T1] [M0 M1]] Hk H. unfold TokenBucket.refill, duration_since, saturating_sub, saturating_add, umax.
  case_decide as He; [lia|]. cbn [tokens].
  set (micros := Z.min (Z.max 0 (now - last_at b) / 1000) (2 ^ 64 - 1)).
  set (total := Z.min (remainder b + Z.min (rate b * micros) (2 ^ 64 - 1)) (2 ^ 64 - 1)).
  assert (0 <= micros) as Hm0 by (subst micros; pose proof (Z.div_pos (Z.max 0 (now - last_at b)) 1000 ltac:(lia) ltac:(lia)); lia).
  assert (0 <= rate b * micros) by (apply Z.mul_nonneg_nonneg; lia).
  assert (0 <= total / 1000000) by (apply Z.div_pos; lia).
  destruct H as [H|(G1 & G2 & G3)]; [lia|].
  assert (20000 <= micros) as Hm.
  { subst micros. pose proof (Z.div_le_mono 20000000 (Z.max 0 (now - last_at b)) 1000 ltac:(lia) ltac:(lia)).
    change (20000000 / 1000) with 20000 in *. lia. }
  assert (rate b * 20000 <= rate b * micros) by (apply Z.mul_le_mono_nonneg_l; lia).
  assert (k <= total / 1000000); [|lia]. apply Z.div_le_lower_bound; [lia|]. lia.
Qed.

(** ** A session's voice *)

Record budget_wf (m : MediaBudget) : Prop := {
  mw_bytes : bucket_wf (voice_bytes m);
  mw_packets : bucket_wf (voice_packets m);
  mw_bytes_rate : rate (voice_bytes m) = VOICE_INGRESS_BYTES_PER_SEC;
  mw_packets_rate : rate (voice_packets m) = VOICE_INGRESS_PACKETS_PER_SEC;
}.

Lemma new_budget_wf now : budget_wf (MediaBudget.new now).
Proof. constructor; try apply new_bucket_wf; (done || by split). Qed.

(** What one packet does to the two buckets. *)
Lemma admit_voice_spent m now n t0 bytes packets m' ok :
  budget_wf m -> t0 <= now -> spent (voice_bytes m) t0 bytes -> spent (voice_packets m) t0 packets ->
  MediaBudget.admit_voice m now n = (m', ok) ->
  budget_wf m' /\ last_at (voice_bytes m') = Z.max (last_at (voice_bytes m)) now /\
  last_at (voice_packets m') <= Z.max (last_at (voice_packets m)) now /\
  spent (voice_bytes m') t0 (bytes + if ok then Z.of_nat n else 0) /\
  spent (voice_packets m') t0 (packets + if ok then 1 else 0).
Proof.
  intros [W1 W2 R1 R2] Ht S1 S2. unfold MediaBudget.admit_voice, TokenBucket.available.
  destruct (refill_wf (voice_bytes m) now W1) as (W1' & Hr1 & Hl1 & _).
  destruct (refill_wf (voice_packets m) now W2) as (W2' & Hr2 & Hl2 & _).
  pose proof (spent_refill _ _ _ _ W1 Ht S1) as S1'. pose proof (spent_refill _ _ _ _ W2 Ht S2) as S2'.
  set (vb := TokenBucket.refill (voice_bytes m) now) in *. cbn [MediaBudget.set_voice voice_packets].
  set (vp := TokenBucket.refill (voice_packets m) now) in *.
  case_decide as Hb; [|case_decide as Hp]; intros [= <- <-];
    cbn [MediaBudget.reject MediaBudget.set_dropped MediaBudget.set_voice voice_bytes voice_packets fst].
  - rewrite !Z.add_0_r. split; [constructor; cbn [MediaBudget.set_dropped MediaBudget.set_voice voice_bytes voice_packets fst]; (done || congruence)|]. split; [done|]. split; [lia|]. done.
  - rewrite !Z.add_0_r. split; [constructor; cbn [MediaBudget.set_dropped MediaBudget.set_voice voice_bytes voice_packets fst]; (done || congruence)|]. split; [done|]. split; [lia|]. done.
  - pose proof (bw_tokens _ W1') as T1. pose proof (bw_burst _ W1') as B1. assert (rate vb = 49152) as Rn by (by rewrite Hr1, R1).
    unfold umax in *. assert (TokenBucket.refill vb now = vb) as E1 by apply refill_twice.
    assert (TokenBucket.refill vp now = vp) as E2 by apply refill_twice.
    assert (Z.min (Z.of_nat n) (2 ^ 32 - 1) = Z.of_nat n) as En by lia.
    destruct (take_spent vb t0 bytes now (Z.of_nat n) W1' Ht S1') as (A1 & A2 & A3 & A4 & _); [rewrite E1; lia|].
    destruct (take_spent vp t0 packets now 1 W2' Ht S2') as (C1 & C2 & C3 & C4 & _); [rewrite E2; lia|].
    rewrite En. split; [constructor; cbn [MediaBudget.set_dropped MediaBudget.set_voice voice_bytes voice_packets fst]; (done || congruence)|]. split; [lia|]. split; [lia|]. done.
Qed.

Fixpoint admit_all (m : MediaBudget) (l : list (Z * nat)) : MediaBudget * list bool :=
  match l with
  | [] => (m, [])
  | (now, n) :: l =>
      let '(m, ok) := MediaBudget.admit_voice m now n in
      let '(m, oks) := admit_all m l in (m, ok :: oks)
  end.

(** The admitted packets and their bytes. *)
Fixpoint admitted (l : list (Z * nat)) (oks : list bool) : Z * Z :=
  match l, oks with
  | (_, n) :: l, ok :: oks =>
      let '(packets, bytes) := admitted l oks in
      if (ok : bool) then (packets + 1, bytes + Z.of_nat n) else (packets, bytes)
  | _, _ => (0, 0)
  end.

Lemma admit_all_spent l : forall m t0 t1 bytes packets m' oks,
  budget_wf m -> Forall (fun p => t0 <= p.1 <= t1) l -> spent (voice_bytes m) t0 bytes -> spent (voice_packets m) t0 packets ->
  last_at (voice_bytes m) <= t1 -> last_at (voice_packets m) <= t1 ->
  admit_all m l = (m', oks) ->
  budget_wf m' /\ last_at (voice_bytes m') <= t1 /\ last_at (voice_packets m') <= t1 /\
  spent (voice_bytes m') t0 (bytes + (admitted l oks).2) /\ spent (voice_packets m') t0 (packets + (admitted l oks).1).
Proof.
  induction l as [|[now n] l IH]; intros m t0 t1 bytes packets m' oks W Ht S1 S2 L1 L2 E; cbn [admit_all] in E.
  { injection E as <- <-. cbn. by rewrite !Z.add_0_r. }
  apply Forall_cons in Ht as [Hnow Ht]. cbn in Hnow.
  destruct (MediaBudget.admit_voice m now n) as [m1 ok] eqn:E1. destruct (admit_all m1 l) as [m2 oks2] eqn:E2. injection E as <- <-.
  destruct (admit_voice_spent m now n t0 bytes packets m1 ok W ltac:(lia) S1 S2 E1) as (W1 & A1 & A2 & A3 & A4).
  destruct (IH m1 t0 t1 _ _ _ _ W1 Ht A3 A4 ltac:(lia) ltac:(lia) E2) as (B1 & B2 & B3 & B4 & B5).
  split; [done|]. split; [done|]. split; [done|]. cbn [admitted]. destruct (admitted l oks2) as [pk by_]. cbn [fst snd] in *.
  destruct ok; cbn [fst snd]; [rewrite (Z.add_comm pk), (Z.add_comm by_), !Z.add_assoc; done|]. by rewrite !Z.add_0_r in *.
Qed.

(** A stream of packets of at most 983 bytes, one every 20 ms or slower. *)
Fixpoint conforming (previous : option Z) (l : list (Z * nat)) : Prop :=
  match l with
  | [] => True
  | (now, n) :: l =>
      match previous with Some t => t + 20000000 <= now | None => True end /\ Z.of_nat n <= 983 /\ conforming (Some now) l
  end.

Lemma conforming_admitted l : forall m previous,
  budget_wf m ->
  match previous with
  | None => tokens (voice_bytes m) = burst (voice_bytes m) /\ tokens (voice_packets m) = burst (voice_packets m)
  | Some t => last_at (voice_bytes m) <= t /\ last_at (voice_packets m) <= t /\
      burst (voice_bytes m) - 983 <= tokens (voice_bytes m) /\ burst (voice_packets m) - 1 <= tokens (voice_packets m)
  end ->
  conforming previous l -> (forall now n, head l = Some (now, n) -> last_at (voice_bytes m) <= now /\ last_at (voice_packets m) <= now) ->
  (admit_all m l).2 = replicate (length l) true.
Proof.
  induction l as [|[now n] l IH]; intros m previous W Hm Hc Hh; [done|]. destruct Hc as (Hp & Hn & Hc). cbn [admit_all].
  pose proof W as [W1 W2 R1 R2]. destruct (Hh now n eq_refl) as [G1 G2].
  pose proof (bw_burst _ W1) as B1. pose proof (bw_burst _ W2) as B2.
  assert (tokens (TokenBucket.refill (voice_bytes m) now) = burst (voice_bytes m)) as F1.
  { apply (refill_full _ _ 983); [done|lia|]. unfold VOICE_INGRESS_BYTES_PER_SEC in R1. destruct previous; [right; lia|left; tauto]. }
  assert (tokens (TokenBucket.refill (voice_packets m) now) = burst (voice_packets m)) as F2.
  { apply (refill_full _ _ 1); [done|lia|]. unfold VOICE_INGRESS_PACKETS_PER_SEC in R2. destruct previous; [right; lia|left; tauto]. }
  destruct (refill_wf (voice_bytes m) now W1) as (W1' & Hr1 & Hl1 & _).
  destruct (refill_wf (voice_packets m) now W2) as (W2' & Hr2 & Hl2 & _).
  pose proof (bw_burst _ W1') as B1'. pose proof (bw_burst _ W2') as B2'.
  destruct (MediaBudget.admit_voice m now n) as [m1 ok] eqn:E1. destruct (admit_all m1 l) as [m2 oks] eqn:E2.
  destruct (admit_voice_spent m now n now 0 0 m1 ok W ltac:(lia) (spent_nothing _ _ W1) (spent_nothing _ _ W2) E1) as (Wm1 & L1 & L2 & _ & _).
  unfold MediaBudget.admit_voice, TokenBucket.available in E1. cbn [MediaBudget.set_voice voice_packets] in E1.
  unfold VOICE_INGRESS_BYTES_PER_SEC, VOICE_INGRESS_PACKETS_PER_SEC, umax in *.
  rewrite decide_False in E1 by lia. rewrite decide_False in E1 by lia. injection E1 as <- <-.
  specialize (IH _ (Some now) Wm1). rewrite E2 in IH. cbn [snd length replicate] in *. f_equal. apply IH; [|done|].
  - cbn [MediaBudget.set_voice voice_bytes voice_packets fst] in *.
    pose proof (take_spent _ now 0 now (Z.min (Z.of_nat n) (2 ^ 32 - 1)) W1' ltac:(lia) (spent_nothing _ _ W1')) as T1. cbn zeta in T1.
    pose proof (take_spent _ now 0 now 1 W2' ltac:(lia) (spent_nothing _ _ W2')) as T2. cbn zeta in T2.
    rewrite refill_twice in T1, T2. destruct (T1 ltac:(lia)) as (X1 & X2 & X3 & _ & X5).
    destruct (T2 ltac:(lia)) as (Y1 & Y2 & Y3 & _ & Y5).
    pose proof (bw_burst _ X1). pose proof (bw_burst _ Y1). split_and!; lia.
  - intros now' n' Hhd. destruct l as [|[now2 n2] l]; [done|]. injection Hhd as <- <-. destruct Hc as (Hgap & _). lia.
Qed.

Lemma admit_all_wf l : forall m t m' oks,
  budget_wf m -> Forall (fun p => p.1 <= t) l -> last_at (voice_bytes m) <= t -> last_at (voice_packets m) <= t ->
  admit_all m l = (m', oks) -> budget_wf m' /\ last_at (voice_bytes m') <= t /\ last_at (voice_packets m') <= t.
Proof.
  induction l as [|[now n] l IH]; intros m t m' oks W Ht L1 L2 E; cbn [admit_all] in E; [by injection E as <- <-|].
  apply Forall_cons in Ht as [Hnow Ht]. cbn in Hnow.
  destruct (MediaBudget.admit_voice m now n) as [m1 ok] eqn:E1. destruct (admit_all m1 l) as [m2 oks2] eqn:E2. injection E as <- <-.
  pose proof W as [W1 W2 _ _].
  destruct (admit_voice_spent m now n now 0 0 m1 ok W ltac:(lia) (spent_nothing _ _ W1) (spent_nothing _ _ W2) E1) as (Wm & A1 & A2 & _).
  apply (IH m1 t m2 oks2); (done || lia).
Qed.

(** ** Properties *)

(** C21: whatever voice a session sends and however it spaces it, what the relay
    admits in any span of time is bounded by the rates: in bytes and in packets,
    one second's worth and one more at once, then the rate for every nanosecond
    of the span; and a stream that keeps to packets of 983 bytes, one every 20 ms,
    is never dropped. *)
Theorem voice_ingress_budget (start : Z) :
  (forall before l t0 t1 m oks0 m' oks,
     start <= t0 <= t1 -> Forall (fun p => p.1 <= t0) before -> Forall (fun p => t0 <= p.1 <= t1) l ->
     admit_all (MediaBudget.new start) before = (m, oks0) -> admit_all m l = (m', oks) ->
     let '(packets, bytes) := admitted l oks in
     packets * 1000000000 < (VOICE_INGRESS_PACKETS_PER_SEC + 1) * 1000000000 + VOICE_INGRESS_PACKETS_PER_SEC * (t1 - t0) /\
     bytes * 1000000000 < (VOICE_INGRESS_BYTES_PER_SEC + 1) * 1000000000 + VOICE_INGRESS_BYTES_PER_SEC * (t1 - t0)) /\
  (forall l, conforming None l -> (forall now n, head l = Some (now, n) -> start <= now) ->
     (admit_all (MediaBudget.new start) l).2 = replicate (length l) true).
Proof.
  split.
  - intros before l t0 t1 m oks0 m' oks Ht Hb Hl E0 E.
    destruct (admit_all_wf before _ t0 m oks0 (new_budget_wf start) Hb ltac:(cbn; lia) ltac:(cbn; lia) E0) as (W & L1 & L2).
    pose proof W as [W1 W2 _ _].
    destruct (admit_all_spent l m t0 t1 0 0 m' oks W Hl (spent_nothing _ _ W1) (spent_nothing _ _ W2) ltac:(lia) ltac:(lia) E)
      as ([V1 V2 R1 R2] & K1 & K2 & [S1 _] & [S2 _]).
    destruct (admitted l oks) as [packets bytes]. cbn [fst snd] in S1, S2. unfold level in *. rewrite R1 in S1. rewrite R2 in S2.
    pose proof (bw_tokens _ V1). pose proof (bw_tokens _ V2). pose proof (bw_remainder _ V1). pose proof (bw_remainder _ V2).
    unfold VOICE_INGRESS_PACKETS_PER_SEC, VOICE_INGRESS_BYTES_PER_SEC in *. lia.
  - intros l Hc Hh. apply (conforming_admitted l _ None); [apply new_budget_wf|done|done|]. intros now n E. cbn. by specialize (Hh now n E).
Qed.

(** C21 at a burst of three packets of 20000 bytes in one nanosecond, the third of
    which is dropped. *)
Lemma voice_ingress_budget_witness :
  (admit_all (MediaBudget.new 0) [(5, 20000%nat); (5, 20000%nat); (6, 20000%nat)]).2 = [true; true; false] /\
  40000 * 1000000000 < (VOICE_INGRESS_BYTES_PER_SEC + 1) * 1000000000 + VOICE_INGRESS_BYTES_PER_SEC * (6 - 5).
Proof.
  split; [vm_compute; reflexivity|].
  destruct (voice_ingress_budget 0) as [B _].
  specialize (B [] [(5, 20000%nat); (5, 20000%nat); (6, 20000%nat)] 5 6 (MediaBudget.new 0) []
    (admit_all (MediaBudget.new 0) [(5, 20000%nat); (5, 20000%nat); (6, 20000%nat)]).1
    (admit_all (MediaBudget.new 0) [(5, 20000%nat); (5, 20000%nat); (6, 20000%nat)]).2).
  assert (admitted [(5, 20000%nat); (5, 20000%nat); (6, 20000%nat)]
    (admit_all (MediaBudget.new 0) [(5, 20000%nat); (5, 20000%nat); (6, 20000%nat)]).2 = (2, 40000)) as E by (vm_compute; reflexivity).
  rewrite E in B. apply B; [lia|constructor| |reflexivity|apply surjective_pairing].
  repeat constructor; cbn; lia.
Defined.
