(* ===== verification/SlotBits.v ===== *)
(** * Sets of slots as arrays of 64-bit words

    Models the bit sets of src/crates/server/src/voice_relay.rs: [VoiceRoom], the
    sets of lanes with work ([set_slot_bit], [clear_slot_bit]) and the loop that
    visits the set bits of a word in order, which [run] and [relay_voice] share.
    The specification is membership of a slot. *)

From S2P Require Import Prelude.

Definition WORD_BITS : nat := 64.

(** [u64::trailing_zeros] of a word that is not zero. *)
Fixpoint positive_zeros (p : positive) : nat :=
  match p with xO p => S (positive_zeros p) | _ => O end.
Definition trailing_zeros (w : Z) : nat := match w with Zpos p => positive_zeros p | _ => WORD_BITS end.

(** [while word != 0]: the bits visited; each turn clears one, so 64 turns are enough. *)
Fixpoint bits_loop (fuel : nat) (word : Z) : list nat :=
  match fuel with
  | O => []
  | S fuel =>
      if decide (word = 0) then []
      else trailing_zeros word :: bits_loop fuel (Z.land word (word - 1))
  end.
Definition word_bits (word : Z) : list nat := bits_loop WORD_BITS word.

(** [None] is the panic of an index out of range. *)
Definition set_slot_bit (words : list Z) (slot : nat) : option (list Z) :=
  w ← words !! (slot / WORD_BITS)%nat;
  Some (<[(slot / WORD_BITS)%nat := Z.lor w (Z.shiftl 1 (Z.of_nat (slot mod WORD_BITS)))]> words).

Definition clear_slot_bit (words : list Z) (slot : nat) : option (list Z) :=
  w ← words !! (slot / WORD_BITS)%nat;
  Some (<[(slot / WORD_BITS)%nat := Z.land w (Z.lxor (umax 64) (Z.shiftl 1 (Z.of_nat (slot mod WORD_BITS))))]> words).

Definition words_empty (words : list Z) : bool := forallb (fun w => bool_decide (w = 0)) words.

(** The slots of all words, visited in order from the word [base]. *)
Fixpoint slots_from (base : nat) (words : list Z) : list nat :=
  match words with
  | [] => []
  | w :: words => ((fun bit => base * WORD_BITS + bit) <$> word_bits w)%nat ++ slots_from (S base) words
  end.
Definition slots_of (words : list Z) : list nat := slots_from 0 words.

(** ** Specification *)

Definition member (words : list Z) (slot : nat) : bool :=
  match words !! (slot / WORD_BITS)%nat with Some w => Z.testbit w (Z.of_nat (slot mod WORD_BITS)) | None => false end.

Definition words_wf (n : nat) (words : list Z) : Prop := length words = n /\ Forall is_u64 words.

Lemma shift_one n i : 0 <= n -> 0 <= i -> Z.testbit (Z.shiftl 1 n) i = bool_decide (i = n).
Proof.
  intros Hn Hi. rewrite Z.shiftl_1_l. destruct (decide (i = n)) as [->|Hne].
  - rewrite bool_decide_true by done. by apply Z.pow2_bits_true.
  - rewrite bool_decide_false by done. by apply Z.pow2_bits_false.
Qed.

Lemma u64_bits w i : is_u64 w -> 64 <= i -> Z.testbit w i = false.
Proof.
  intros [H0 H1] Hi. destruct (decide (w = 0)) as [->|]; [apply Z.bits_0|].
  apply Z.bits_above_log2; [done|]. assert (Z.log2 w < 64) by (apply Z.log2_lt_pow2; lia). lia.
Qed.

Lemma u64_of_bits w : 0 <= w -> (forall i, 64 <= i -> Z.testbit w i = false) -> is_u64 w.
Proof.
  intros H0 H. split; [done|]. destruct (decide (w = 0)) as [->|]; [done|]. apply Z.log2_lt_pow2; [lia|].
  destruct (decide (Z.log2 w < 64)); [done|]. specialize (H (Z.log2 w) ltac:(lia)). rewrite Z.bit_log2 in H by lia. done.
Qed.

Lemma bit_below slot : 0 <= Z.of_nat (slot mod WORD_BITS) < 64.
Proof. pose proof (Nat.mod_upper_bound slot WORD_BITS ltac:(unfold WORD_BITS; lia)). unfold WORD_BITS in *. lia. Qed.

Lemma slot_eq a b : a = b <-> (a / WORD_BITS = b / WORD_BITS /\ a mod WORD_BITS = b mod WORD_BITS)%nat.
Proof.
  split; [by intros ->|]. intros [E1 E2]. rewrite (Nat.div_mod_eq a WORD_BITS), (Nat.div_mod_eq b WORD_BITS). congruence.
Qed.

(** Both updates change the membership of one slot. *)
Lemma set_slot_bit_ok n words slot :
  words_wf n words -> (slot < n * WORD_BITS)%nat ->
  exists words', set_slot_bit words slot = Some words' /\ words_wf n words' /\
    forall s, member words' s = member words s || bool_decide (s = slot).
Proof.
  intros [Hl Hw] Hs. unfold set_slot_bit.
  assert (slot / WORD_BITS < length words)%nat as Hlt by (rewrite Hl; apply Nat.Div0.div_lt_upper_bound; lia).
  destruct (lookup_lt_is_Some_2 _ _ Hlt) as [w Ew]. rewrite Ew. cbn [mbind option_bind]. eexists. split; [done|].
  pose proof (proj1 (Forall_lookup _ _) Hw _ _ Ew) as Uw. pose proof (bit_below slot) as Hbit.
  split.
  - split; [by rewrite length_insert|]. apply Forall_insert; [done|]. apply u64_of_bits.
    + apply Z.lor_nonneg. split; [apply Uw|]. apply Z.shiftl_nonneg. lia.
    + intros i Hi. rewrite Z.lor_spec, (u64_bits w) by done. rewrite shift_one by lia. rewrite bool_decide_false by lia. done.
  - intros s. unfold member. destruct (decide (slot / WORD_BITS = s / WORD_BITS)%nat) as [E|E].
    + rewrite <- E, list_lookup_insert_eq, Ew by done. rewrite Z.lor_spec, shift_one by lia. f_equal.
      apply bool_decide_ext. rewrite slot_eq. split; [intros ?; split; [done|lia]|intros [_ ->]; done].
    + rewrite list_lookup_insert_ne by done. rewrite bool_decide_false by (intros ->; done). by rewrite orb_false_r.
Qed.

Lemma clear_slot_bit_ok n words slot :
  words_wf n words -> (slot < n * WORD_BITS)%nat ->
  exists words', clear_slot_bit words slot = Some words' /\ words_wf n words' /\
    forall s, member words' s = member words s && negb (bool_decide (s = slot)).
Proof.
  intros [Hl Hw] Hs. unfold clear_slot_bit.
  assert (slot / WORD_BITS < length words)%nat as Hlt by (rewrite Hl; apply Nat.Div0.div_lt_upper_bound; lia).
  destruct (lookup_lt_is_Some_2 _ _ Hlt) as [w Ew]. rewrite Ew. cbn [mbind option_bind]. eexists. split; [done|].
  pose proof (proj1 (Forall_lookup _ _) Hw _ _ Ew) as Uw. pose proof (bit_below slot) as Hbit.
  assert (forall i, 0 <= i -> Z.testbit (Z.land w (Z.lxor (umax 64) (Z.shiftl 1 (Z.of_nat (slot mod WORD_BITS))))) i =
    Z.testbit w i && negb (bool_decide (i = Z.of_nat (slot mod WORD_BITS)))) as Hspec.
  { intros i Hi. rewrite Z.land_spec, Z.lxor_spec, shift_one by lia. destruct (decide (i < 64)) as [Hlow|Hhigh].
    - change (umax 64) with (Z.ones 64). rewrite Z.ones_spec_low by lia. done.
    - rewrite (u64_bits w) by (done || lia). done. }
  split.
  - split; [by rewrite length_insert|]. apply Forall_insert; [done|]. apply u64_of_bits.
    + apply Z.land_nonneg. left. apply Uw.
    + intros i Hi. rewrite Hspec by lia. rewrite (u64_bits w) by (done || lia). done.
  - intros s. unfold member. destruct (decide (slot / WORD_BITS = s / WORD_BITS)%nat) as [E|E].
    + rewrite <- E, list_lookup_insert_eq, Ew by done. rewrite Hspec by lia. do 2 f_equal.
      apply bool_decide_ext. rewrite slot_eq. split; [intros ?; split; [done|lia]|intros [_ ->]; done].
    + rewrite list_lookup_insert_ne by done. rewrite bool_decide_false by (intros ->; done). by rewrite andb_true_r.
Qed.

Lemma words_empty_member words : words_empty words = true -> forall s, member words s = false.
Proof.
  intros H s. unfold member. destruct (words !! (s / WORD_BITS)%nat) as [w|] eqn:E; [|done].
  unfold words_empty in H. rewrite forallb_forall in H. specialize (H w ltac:(apply list_elem_of_In; by eapply list_elem_of_lookup_2)).
  apply bool_decide_eq_true in H as ->. apply Z.bits_0.
Qed.

(** *** The loop visits the set bits in order *)

Lemma land_double a b : Z.land (2 * a) (2 * b + 1) = 2 * Z.land a b.
Proof.
  apply Z.bits_inj'. intros i Hi. rewrite Z.land_spec. destruct (decide (i = 0)) as [->|].
  - by rewrite !Z.testbit_even_0, andb_false_l.
  - replace i with (Z.succ (i - 1)) by lia. rewrite Z.testbit_even_succ, Z.testbit_odd_succ, Z.testbit_even_succ by lia.
    by rewrite Z.land_spec.
Qed.

Lemma land_odd a : Z.land (2 * a + 1) (2 * a) = 2 * a.
Proof.
  apply Z.bits_inj'. intros i Hi. rewrite Z.land_spec. destruct (decide (i = 0)) as [->|].
  - by rewrite Z.testbit_even_0, andb_false_r.
  - replace i with (Z.succ (i - 1)) by lia. rewrite Z.testbit_odd_succ, Z.testbit_even_succ by lia. by rewrite andb_diag.
Qed.

Lemma bits_loop_double fuel : forall w, 0 <= w -> bits_loop fuel (2 * w) = S <$> bits_loop fuel w.
Proof.
  induction fuel as [|fuel IH]; intros w Hw; [done|]. cbn [bits_loop]. destruct (decide (w = 0)) as [->|Hne]; [done|].
  rewrite decide_False by lia. rewrite fmap_cons. replace (2 * w - 1) with (2 * (w - 1) + 1) by lia. rewrite land_double, IH.
  - f_equal. destruct w as [|p|p]; [done|done|lia].
  - apply Z.land_nonneg. by left.
Qed.

Lemma bits_loop_spec n : forall fuel w, (n <= fuel)%nat -> 0 <= w < 2 ^ Z.of_nat n ->
  bits_loop fuel w = filter (fun i => Z.testbit w (Z.of_nat i) = true) (seq 0 n).
Proof.
  induction n as [|n IH]; intros fuel w Hf Hw.
  { assert (w = 0) as -> by (change (2 ^ Z.of_nat 0) with 1 in Hw; lia). destruct fuel; done. }
  destruct fuel as [|fuel]; [lia|]. rewrite <- cons_seq, <- fmap_S_seq.
  pose proof (Z.div_mod w 2 ltac:(lia)) as E. pose proof (Z.mod_pos_bound w 2 ltac:(lia)) as Hm. set (v := w / 2) in *. clearbody v.
  assert (0 <= v < 2 ^ Z.of_nat n) as Hv by (rewrite Nat2Z.inj_succ, Z.pow_succ_r in Hw by lia; lia).
  assert (filter (fun i => Z.testbit w (Z.of_nat i) = true) (S <$> seq 0 n) =
    S <$> filter (fun i => Z.testbit v (Z.of_nat i) = true) (seq 0 n)) as Htail.
  { clear -E Hm. generalize (seq 0 n). intros l. induction l as [|i l IHl]; [done|]. rewrite fmap_cons, !filter_cons.
    assert (Z.testbit w (Z.of_nat (S i)) = Z.testbit v (Z.of_nat i)) as ->.
    { rewrite Nat2Z.inj_succ. destruct (decide (w mod 2 = 0)) as [E0|E0].
      - replace w with (2 * v) by lia. apply Z.testbit_even_succ. lia.
      - replace w with (2 * v + 1) by lia. apply Z.testbit_odd_succ. lia. }
    case_decide; rewrite IHl; done. }
  rewrite filter_cons, Htail. destruct (decide (w mod 2 = 0)) as [E0|E0].
  - assert (w = 2 * v) as -> by lia. rewrite bits_loop_double by lia.
    rewrite (decide_False (P := Z.testbit _ _ = true)) by (by rewrite Z.testbit_even_0).
    by rewrite (IH (S fuel) v) by lia.
  - assert (w = 2 * v + 1) as -> by lia. cbn [bits_loop]. rewrite decide_False by lia.
    replace (2 * v + 1 - 1) with (2 * v) by lia. rewrite land_odd, bits_loop_double, (IH fuel v) by lia.
    rewrite (decide_True (P := Z.testbit _ _ = true)) by apply Z.testbit_odd_0. f_equal. destruct v; [done|done|lia].
Qed.

Lemma filter_iff_in {A} (P Q : A -> Prop) `{forall x, Decision (P x), forall x, Decision (Q x)} (l : list A) :
  (forall x, x ∈ l -> P x <-> Q x) -> filter P l = filter Q l.
Proof.
  induction l as [|x l IH]; intros Hx; [done|]. rewrite !filter_cons. specialize (Hx x ltac:(by left)) as Hxx.
  rewrite IH by (intros y Hy; apply Hx; by right). repeat case_decide; tauto.
Qed.

Lemma word_bits_spec w : is_u64 w -> word_bits w = filter (fun i => Z.testbit w (Z.of_nat i) = true) (seq 0 WORD_BITS).
Proof. intros [H0 H1]. by apply (bits_loop_spec 64). Qed.

Lemma slots_from_spec words : forall base,
  Forall is_u64 words ->
  slots_from base words =
  filter (fun s => match words !! (s / WORD_BITS - base)%nat with Some w => Z.testbit w (Z.of_nat (s mod WORD_BITS)) | None => false end = true)
    (seq (base * WORD_BITS) (length words * WORD_BITS)).
Proof.
  induction words as [|w words IH]; intros base Hw; [done|]. apply Forall_cons in Hw as [Uw Hw]. cbn [slots_from length].
  replace (S (length words) * WORD_BITS)%nat with (WORD_BITS + length words * WORD_BITS)%nat by lia.
  rewrite seq_app, filter_app. f_equal.
  - rewrite word_bits_spec by done. 
    assert (seq (base * WORD_BITS) WORD_BITS = (fun i => base * WORD_BITS + i)%nat <$> seq 0 WORD_BITS) as ->
      by (rewrite fmap_add_seq; f_equal; lia).
    assert (Forall (fun i => i < WORD_BITS)%nat (seq 0 WORD_BITS)) as Hlt.
    { apply Forall_forall. intros i Hi. apply elem_of_seq in Hi. lia. }
    revert Hlt. generalize (seq 0 WORD_BITS). intros l. induction l as [|i l IHl]; intros Hlt; [done|].
    apply Forall_cons in Hlt as [Hi Hlt]. rewrite fmap_cons, !filter_cons.
    assert ((base * WORD_BITS + i) / WORD_BITS = base)%nat as ->.
    { rewrite Nat.add_comm, Nat.div_add by (unfold WORD_BITS; lia). by rewrite Nat.div_small. }
    assert ((base * WORD_BITS + i) mod WORD_BITS = i)%nat as ->.
    { rewrite Nat.add_comm, Nat.Div0.mod_add. by apply Nat.mod_small. }
    rewrite Nat.sub_diag. cbn [lookup list_lookup]. case_decide; rewrite ?fmap_cons, IHl by done; done.
  - rewrite (IH (S base) Hw). replace (base * WORD_BITS + WORD_BITS)%nat with (S base * WORD_BITS)%nat by lia.
    apply filter_iff_in. intros s Hs. apply elem_of_seq in Hs.
    assert (S base <= s / WORD_BITS)%nat by (apply Nat.div_le_lower_bound; unfold WORD_BITS in *; lia).
    replace (s / WORD_BITS - base)%nat with (S (s / WORD_BITS - S base)) by lia. done.
Qed.

(** The loops visit exactly the members, in order. *)
Lemma slots_of_spec n words :
  words_wf n words -> slots_of words = filter (fun s => member words s = true) (seq 0 (n * WORD_BITS)).
Proof.
  intros [Hl Hw]. unfold slots_of. rewrite slots_from_spec, Hl by done. apply list_filter_iff. intros s. unfold member.
  by rewrite Nat.sub_0_r.
Qed.

Lemma words_empty_false n words : words_wf n words -> words_empty words = false -> exists slot, member words slot = true.
Proof.
  intros [Hl Hw] He. assert (exists i w, words !! i = Some w /\ w <> 0) as (i & w & Ei & Hne).
  { clear Hl Hw. induction words as [|w words IH]; [done|]. cbn in He. destruct (decide (w = 0)) as [->|Hne].
    - destruct IH as (i & x & Ei & Hx); [done|]. by exists (S i), x.
    - by exists O, w. }
  pose proof (proj1 (Forall_lookup _ _) Hw _ _ Ei) as [H0 H1].
  assert (0 <= Z.log2 w < 64) as Hlog by (split; [apply Z.log2_nonneg|apply Z.log2_lt_pow2; lia]).
  exists (i * WORD_BITS + Z.to_nat (Z.log2 w))%nat. unfold member.
  assert (Z.to_nat (Z.log2 w) < WORD_BITS)%nat as Hb by (unfold WORD_BITS; lia).
  rewrite (Nat.add_comm (i * WORD_BITS)), Nat.div_add, Nat.Div0.mod_add by (unfold WORD_BITS; lia).
  rewrite Nat.div_small, Nat.mod_small by done. cbn [Nat.add]. rewrite Ei, Z2Nat.id by lia. apply Z.bit_log2. lia.
Qed.
