(* ===== verification/VoiceRelay.v ===== *)
(** * The voice relay

    Models [VoiceRelay] of src/crates/server/src/voice_relay.rs: its sessions, rooms
    and TCP lanes, the handling of a packet on either transport, the fan-out of
    voice and feedback, and the turns of its event loop.  The relay's thread owns
    this state; the control loop only queues commands, reserves permits and drains
    events, and these steps are part of the model.

    A UDP socket is the list of what its next receives give; what is handed to
    [send_to] is collected in [udp_sent].  The two halves of a lane's TCP stream
    are instances of the socket classes of [Evented].  An index out of range is a
    panic, [None].  [Instant::now] is an argument: all calls of one operation read
    the same time.  Polling, logging, scheduling priority and QoS marks are not
    modelled. *)

From S2P Require Import Prelude Replay Primitives Transport Handshake Auth Media Frame Evented Net Clock Budget SlotBits.

Definition MAX_BIND_ADDRS : nat := 32.
Definition PROBE_BIT : nat := MAX_BIND_ADDRS.
Definition UDP_DRAIN_BUDGET : nat := 64.
Definition MAX_UDP_DATAGRAM_BYTES : nat := 2048.
Definition ACTIVITY_FLUSH_INTERVAL : Z := from_secs 1.
Definition MAX_SESSIONS : nat := 1024.
Definition SESSION_WORDS : nat := 16.
Definition MAX_TCP_VOICE_CONNS : nat := MAX_SESSIONS.
Definition TCP_CONN_WORDS : nat := 16.
Definition MAX_PENDING_TCP_VOICE : nat := 32.
Definition VOICE_TCP_AUTH_TIMEOUT : Z := from_secs 5.
Definition VOICE_TCP_READ_BUDGET_BYTES : nat := Z.to_nat (16 * 1024).
Definition VOICE_TCP_WRITE_ATTEMPTS : nat := 32.
Definition VOICE_TCP_WRITE_CAP_BYTES : nat := Z.to_nat (32 * 1024).
Definition VOICE_TCP_MAX_WIRE_FRAME_BYTES : nat := LENGTH_PREFIX_LEN + VOICE_TCP_MAX_FRAME_BYTES.
Definition VOICE_TCP_STALE_BACKLOG : Z := from_millis 250.

Record SessionRoute := mkRoute { route_room_id : Z; route_stream_id : Z }.

#[export] Instance SessionRoute_eq_dec : EqDecision SessionRoute.
Proof. solve_decision. Defined.

Inductive PacketOrigin :=
| UdpOrigin (server_probe_id : Z) (bind_index : nat) (src : SocketAddr)
| TcpOrigin (slot : nat).

Inductive PacketError :=
| PacketMedia (e : MediaError)
| UnknownRoute
| UnknownSession
| NatProbeUnavailable
| UnboundSource
| UnknownNatProbe
| UnauthenticatedConn
| SessionMismatch.

Record VoiceActivity := mkActivity { act_last_activity : Z; act_reported_rtt_ms : option Z; act_rtt_reported_at : option Z }.

Record VoiceEventBatch := mkBatch {
  udp_bound : gmap Z SocketAddr;
  nat_probe : gmap (Z * Z) SocketAddr;
  activity : gmap Z VoiceActivity;
  failure : option bytes;
}.

Definition empty_batch : VoiceEventBatch := {| udp_bound := ∅; nat_probe := ∅; activity := ∅; failure := None |}.

Definition batch_is_empty (b : VoiceEventBatch) : bool :=
  bool_decide (udp_bound b = ∅) && bool_decide (nat_probe b = ∅) && bool_decide (dom (activity b) = ∅) &&
  bool_decide (failure b = None).

(** [submit_all]: the newest observation of each key wins. *)
Definition merge_batch (pending events : VoiceEventBatch) : VoiceEventBatch :=
  if batch_is_empty events then pending
  else if batch_is_empty pending then events
  else {| udp_bound := udp_bound events ∪ udp_bound pending; nat_probe := nat_probe events ∪ nat_probe pending;
          activity := activity events ∪ activity pending;
          failure := match failure events with Some f => Some f | None => failure pending end |}.

(** What a receive on a UDP socket gives; an exhausted list is [WouldBlock]. *)
Inductive RecvFrom := Datagram (src : SocketAddr) (bs : bytes) | DatagramError | SocketError.

Record VoiceSession := mkSession {
  vs_slot : nat;
  vs_user_id : Z;
  vs_protection : MediaProtection;
  vs_recv_replay : AntiReplay;
  vs_send_counter : Z;
  vs_udp_addr : option SocketAddr;
  vs_udp_bind_index : nat;
  vs_tcp_conn : option nat;
  vs_route : option SessionRoute;
  vs_budget : MediaBudget;
  vs_last_activity : Z;
  vs_reported_rtt_ms : option Z;
  vs_rtt_reported_at : option Z;
  vs_activity_dirty : bool;
}.

Definition set_route_of (v : option SessionRoute) (s : VoiceSession) : VoiceSession :=
  {| vs_slot := vs_slot s; vs_user_id := vs_user_id s; vs_protection := vs_protection s;
     vs_recv_replay := vs_recv_replay s; vs_send_counter := vs_send_counter s; vs_udp_addr := vs_udp_addr s;
     vs_udp_bind_index := vs_udp_bind_index s; vs_tcp_conn := vs_tcp_conn s; vs_route := v; vs_budget := vs_budget s;
     vs_last_activity := vs_last_activity s; vs_reported_rtt_ms := vs_reported_rtt_ms s;
     vs_rtt_reported_at := vs_rtt_reported_at s; vs_activity_dirty := vs_activity_dirty s |}.
Definition set_tcp_conn (v : option nat) (s : VoiceSession) : VoiceSession :=
  {| vs_slot := vs_slot s; vs_user_id := vs_user_id s; vs_protection := vs_protection s;
     vs_recv_replay := vs_recv_replay s; vs_send_counter := vs_send_counter s; vs_udp_addr := vs_udp_addr s;
     vs_udp_bind_index := vs_udp_bind_index s; vs_tcp_conn := v; vs_route := vs_route s; vs_budget := vs_budget s;
     vs_last_activity := vs_last_activity s; vs_reported_rtt_ms := vs_reported_rtt_ms s;
     vs_rtt_reported_at := vs_rtt_reported_at s; vs_activity_dirty := vs_activity_dirty s |}.
Definition set_replay (v : AntiReplay) (s : VoiceSession) : VoiceSession :=
  {| vs_slot := vs_slot s; vs_user_id := vs_user_id s; vs_protection := vs_protection s; vs_recv_replay := v;
     vs_send_counter := vs_send_counter s; vs_udp_addr := vs_udp_addr s; vs_udp_bind_index := vs_udp_bind_index s;
     vs_tcp_conn := vs_tcp_conn s; vs_route := vs_route s; vs_budget := vs_budget s;
     vs_last_activity := vs_last_activity s; vs_reported_rtt_ms := vs_reported_rtt_ms s;
     vs_rtt_reported_at := vs_rtt_reported_at s; vs_activity_dirty := vs_activity_dirty s |}.
Definition set_send_counter (v : Z) (s : VoiceSession) : VoiceSession :=
  {| vs_slot := vs_slot s; vs_user_id := vs_user_id s; vs_protection := vs_protection s;
     vs_recv_replay := vs_recv_replay s; vs_send_counter := v; vs_udp_addr := vs_udp_addr s;
     vs_udp_bind_index := vs_udp_bind_index s; vs_tcp_conn := vs_tcp_conn s; vs_route := vs_route s;
     vs_budget := vs_budget s; vs_last_activity := vs_last_activity s; vs_reported_rtt_ms := vs_reported_rtt_ms s;
     vs_rtt_reported_at := vs_rtt_reported_at s; vs_activity_dirty := vs_activity_dirty s |}.
Definition set_udp_addr (src : SocketAddr) (bind : nat) (s : VoiceSession) : VoiceSession :=
  {| vs_slot := vs_slot s; vs_user_id := vs_user_id s; vs_protection := vs_protection s;
     vs_recv_replay := vs_recv_replay s; vs_send_counter := vs_send_counter s; vs_udp_addr := Some src;
     vs_udp_bind_index := bind; vs_tcp_conn := vs_tcp_conn s; vs_route := vs_route s; vs_budget := vs_budget s;
     vs_last_activity := vs_last_activity s; vs_reported_rtt_ms := vs_reported_rtt_ms s;
     vs_rtt_reported_at := vs_rtt_reported_at s; vs_activity_dirty := vs_activity_dirty s |}.
Definition set_rtt (rtt at_ : option Z) (s : VoiceSession) : VoiceSession :=
  {| vs_slot := vs_slot s; vs_user_id := vs_user_id s; vs_protection := vs_protection s;
     vs_recv_replay := vs_recv_replay s; vs_send_counter := vs_send_counter s; vs_udp_addr := vs_udp_addr s;
     vs_udp_bind_index := vs_udp_bind_index s; vs_tcp_conn := vs_tcp_conn s; vs_route := vs_route s;
     vs_budget := vs_budget s; vs_last_activity := vs_last_activity s; vs_reported_rtt_ms := rtt;
     vs_rtt_reported_at := at_; vs_activity_dirty := vs_activity_dirty s |}.
Definition set_activity (b : MediaBudget) (now : Z) (dirty : bool) (s : VoiceSession) : VoiceSession :=
  {| vs_slot := vs_slot s; vs_user_id := vs_user_id s; vs_protection := vs_protection s;
     vs_recv_replay := vs_recv_replay s; vs_send_counter := vs_send_counter s; vs_udp_addr := vs_udp_addr s;
     vs_udp_bind_index := vs_udp_bind_index s; vs_tcp_conn := vs_tcp_conn s; vs_route := vs_route s; vs_budget := b;
     vs_last_activity := now; vs_reported_rtt_ms := vs_reported_rtt_ms s; vs_rtt_reported_at := vs_rtt_reported_at s;
     vs_activity_dirty := dirty |}.

(** A member set of a room: [VoiceRoom]. *)
Definition new_room : list Z := replicate SESSION_WORDS 0.

Section relay.
Context {Rx Tx : Type} `{SocketSource Rx} `{Write Tx} `{Primitives}.
(** How often an interrupted receive is tried again, and the fuel of the read pump. *)
Context (tries : nat).

Record TcpVoiceConn := mkConn {
  conn_rx : Rx;
  conn_tx : Tx;
  conn_addr : SocketAddr;
  read_buf : RecvBuffer;
  readiness : bool;
  write_queue : WriteQueue;
  write_blocked : bool;
  conn_session : option Z;
  permit : bool;
  attached_at : Z;
  backlog_since : option Z;
}.

Definition set_read (rx : Rx) (b : RecvBuffer) (ready : bool) (c : TcpVoiceConn) : TcpVoiceConn :=
  {| conn_rx := rx; conn_tx := conn_tx c; conn_addr := conn_addr c; read_buf := b; readiness := ready;
     write_queue := write_queue c; write_blocked := write_blocked c; conn_session := conn_session c;
     permit := permit c; attached_at := attached_at c; backlog_since := backlog_since c |}.
Definition set_write (tx : Tx) (q : WriteQueue) (blocked : bool) (since : option Z) (c : TcpVoiceConn) : TcpVoiceConn :=
  {| conn_rx := conn_rx c; conn_tx := tx; conn_addr := conn_addr c; read_buf := read_buf c; readiness := readiness c;
     write_queue := q; write_blocked := blocked; conn_session := conn_session c; permit := permit c;
     attached_at := attached_at c; backlog_since := since |}.
Definition set_bound (id : Z) (c : TcpVoiceConn) : TcpVoiceConn :=
  {| conn_rx := conn_rx c; conn_tx := conn_tx c; conn_addr := conn_addr c; read_buf := read_buf c;
     readiness := readiness c; write_queue := write_queue c; write_blocked := write_blocked c;
     conn_session := Some id; permit := false; attached_at := attached_at c; backlog_since := backlog_since c |}.

(** [registered] is whether the poll takes the socket. *)
Inductive VoiceCommand :=
| RegisterSession (session_id user_id : Z) (protection : MediaProtection)
| SetRoute (session_id : Z) (route : option SessionRoute)
| RemoveSession (session_id : Z)
| AttachTcp (rx : Rx) (tx : Tx) (addr : SocketAddr) (buf : RecvBuffer) (registered : bool)
| Shutdown.

Record VoiceRelay := mkRelay {
  udp_rx : list (list RecvFrom);
  udp_probe : option (list RecvFrom);
  udp_sent : list (nat * SocketAddr * bytes);
  commands : list VoiceCommand;
  events : VoiceEventBatch;
  held : nat;
  p2p_enabled : bool;
  sessions : gmap Z VoiceSession;
  route_to_session : gmap Z Z;
  rooms : gmap Z (list Z);
  stream_owners : gmap (Z * Z) Z;
  session_slots : list (option Z);
  next_activity_flush : Z;
  event_buf : VoiceEventBatch;
  udp_work : Z;
  tcp_conns : list (option TcpVoiceConn);
  tcp_read_work : list Z;
  tcp_write_work : list Z;
  shutting_down : bool;
}.

Definition set_udp_rx (v : list (list RecvFrom)) (r : VoiceRelay) : VoiceRelay :=
  {| udp_rx := v; udp_probe := udp_probe r; udp_sent := udp_sent r; commands := commands r; events := events r;
     held := held r; p2p_enabled := p2p_enabled r; sessions := sessions r; route_to_session := route_to_session r;
     rooms := rooms r; stream_owners := stream_owners r; session_slots := session_slots r;
     next_activity_flush := next_activity_flush r; event_buf := event_buf r; udp_work := udp_work r;
     tcp_conns := tcp_conns r; tcp_read_work := tcp_read_work r; tcp_write_work := tcp_write_work r;
     shutting_down := shutting_down r |}.
Definition set_udp_probe (v : option (list RecvFrom)) (r : VoiceRelay) : VoiceRelay :=
  {| udp_rx := udp_rx r; udp_probe := v; udp_sent := udp_sent r; commands := commands r; events := events r;
     held := held r; p2p_enabled := p2p_enabled r; sessions := sessions r; route_to_session := route_to_session r;
     rooms := rooms r; stream_owners := stream_owners r; session_slots := session_slots r;
     next_activity_flush := next_activity_flush r; event_buf := event_buf r; udp_work := udp_work r;
     tcp_conns := tcp_conns r; tcp_read_work := tcp_read_work r; tcp_write_work := tcp_write_work r;
     shutting_down := shutting_down r |}.
Definition set_udp_sent (v : list (nat * SocketAddr * bytes)) (r : VoiceRelay) : VoiceRelay :=
  {| udp_rx := udp_rx r; udp_probe := udp_probe r; udp_sent := v; commands := commands r; events := events r;
     held := held r; p2p_enabled := p2p_enabled r; sessions := sessions r; route_to_session := route_to_session r;
     rooms := rooms r; stream_owners := stream_owners r; session_slots := session_slots r;
     next_activity_flush := next_activity_flush r; event_buf := event_buf r; udp_work := udp_work r;
     tcp_conns := tcp_conns r; tcp_read_work := tcp_read_work r; tcp_write_work := tcp_write_work r;
     shutting_down := shutting_down r |}.
Definition set_commands (v : list VoiceCommand) (r : VoiceRelay) : VoiceRelay :=
  {| udp_rx := udp_rx r; udp_probe := udp_probe r; udp_sent := udp_sent r; commands := v; events := events r;
     held := held r; p2p_enabled := p2p_enabled r; sessions := sessions r; route_to_session := route_to_session r;
     rooms := rooms r; stream_owners := stream_owners r; session_slots := session_slots r;
     next_activity_flush := next_activity_flush r; event_buf := event_buf r; udp_work := udp_work r;
     tcp_conns := tcp_conns r; tcp_read_work := tcp_read_work r; tcp_write_work := tcp_write_work r;
     shutting_down := shutting_down r |}.
Definition set_events (v : VoiceEventBatch) (r : VoiceRelay) : VoiceRelay :=
  {| udp_rx := udp_rx r; udp_probe := udp_probe r; udp_sent := udp_sent r; commands := commands r; events := v;
     held := held r; p2p_enabled := p2p_enabled r; sessions := sessions r; route_to_session := route_to_session r;
     rooms := rooms r; stream_owners := stream_owners r; session_slots := session_slots r;
     next_activity_flush := next_activity_flush r; event_buf := event_buf r; udp_work := udp_work r;
     tcp_conns := tcp_conns r; tcp_read_work := tcp_read_work r; tcp_write_work := tcp_write_work r;
     shutting_down := shutting_down r |}.
Definition set_held (v : nat) (r : VoiceRelay) : VoiceRelay :=
  {| udp_rx := udp_rx r; udp_probe := udp_probe r; udp_sent := udp_sent r; commands := commands r;
     events := events r; held := v; p2p_enabled := p2p_enabled r; sessions := sessions r;
     route_to_session := route_to_session r; rooms := rooms r; stream_owners := stream_owners r;
     session_slots := session_slots r; next_activity_flush := next_activity_flush r; event_buf := event_buf r;
     udp_work := udp_work r; tcp_conns := tcp_conns r; tcp_read_work := tcp_read_work r;
     tcp_write_work := tcp_write_work r; shutting_down := shutting_down r |}.
Definition set_sessions (v : gmap Z VoiceSession) (r : VoiceRelay) : VoiceRelay :=
  {| udp_rx := udp_rx r; udp_probe := udp_probe r; udp_sent := udp_sent r; commands := commands r;
     events := events r; held := held r; p2p_enabled := p2p_enabled r; sessions := v;
     route_to_session := route_to_session r; rooms := rooms r; stream_owners := stream_owners r;
     session_slots := session_slots r; next_activity_flush := next_activity_flush r; event_buf := event_buf r;
     udp_work := udp_work r; tcp_conns := tcp_conns r; tcp_read_work := tcp_read_work r;
     tcp_write_work := tcp_write_work r; shutting_down := shutting_down r |}.
Definition set_route_to_session (v : gmap Z Z) (r : VoiceRelay) : VoiceRelay :=
  {| udp_rx := udp_rx r; udp_probe := udp_probe r; udp_sent := udp_sent r; commands := commands r;
     events := events r; held := held r; p2p_enabled := p2p_enabled r; sessions := sessions r; route_to_session := v;
     rooms := rooms r; stream_owners := stream_owners r; session_slots := session_slots r;
     next_activity_flush := next_activity_flush r; event_buf := event_buf r; udp_work := udp_work r;
     tcp_conns := tcp_conns r; tcp_read_work := tcp_read_work r; tcp_write_work := tcp_write_work r;
     shutting_down := shutting_down r |}.
Definition set_rooms (v : gmap Z (list Z)) (r : VoiceRelay) : VoiceRelay :=
  {| udp_rx := udp_rx r; udp_probe := udp_probe r; udp_sent := udp_sent r; commands := commands r;
     events := events r; held := held r; p2p_enabled := p2p_enabled r; sessions := sessions r;
     route_to_session := route_to_session r; rooms := v; stream_owners := stream_owners r;
     session_slots := session_slots r; next_activity_flush := next_activity_flush r; event_buf := event_buf r;
     udp_work := udp_work r; tcp_conns := tcp_conns r; tcp_read_work := tcp_read_work r;
     tcp_write_work := tcp_write_work r; shutting_down := shutting_down r |}.
Definition set_stream_owners (v : gmap (Z * Z) Z) (r : VoiceRelay) : VoiceRelay :=
  {| udp_rx := udp_rx r; udp_probe := udp_probe r; udp_sent := udp_sent r; commands := commands r;
     events := events r; held := held r; p2p_enabled := p2p_enabled r; sessions := sessions r;
     route_to_session := route_to_session r; rooms := rooms r; stream_owners := v; session_slots := session_slots r;
     next_activity_flush := next_activity_flush r; event_buf := event_buf r; udp_work := udp_work r;
     tcp_conns := tcp_conns r; tcp_read_work := tcp_read_work r; tcp_write_work := tcp_write_work r;
     shutting_down := shutting_down r |}.
Definition set_session_slots (v : list (option Z)) (r : VoiceRelay) : VoiceRelay :=
  {| udp_rx := udp_rx r; udp_probe := udp_probe r; udp_sent := udp_sent r; commands := commands r;
     events := events r; held := held r; p2p_enabled := p2p_enabled r; sessions := sessions r;
     route_to_session := route_to_session r; rooms := rooms r; stream_owners := stream_owners r; session_slots := v;
     next_activity_flush := next_activity_flush r; event_buf := event_buf r; udp_work := udp_work r;
     tcp_conns := tcp_conns r; tcp_read_work := tcp_read_work r; tcp_write_work := tcp_write_work r;
     shutting_down := shutting_down r |}.
Definition set_next_activity_flush (v : Z) (r : VoiceRelay) : VoiceRelay :=
  {| udp_rx := udp_rx r; udp_probe := udp_probe r; udp_sent := udp_sent r; commands := commands r;
     events := events r; held := held r; p2p_enabled := p2p_enabled r; sessions := sessions r;
     route_to_session := route_to_session r; rooms := rooms r; stream_owners := stream_owners r;
     session_slots := session_slots r; next_activity_flush := v; event_buf := event_buf r; udp_work := udp_work r;
     tcp_conns := tcp_conns r; tcp_read_work := tcp_read_work r; tcp_write_work := tcp_write_work r;
     shutting_down := shutting_down r |}.
Definition set_event_buf (v : VoiceEventBatch) (r : VoiceRelay) : VoiceRelay :=
  {| udp_rx := udp_rx r; udp_probe := udp_probe r; udp_sent := udp_sent r; commands := commands r;
     events := events r; held := held r; p2p_enabled := p2p_enabled r; sessions := sessions r;
     route_to_session := route_to_session r; rooms := rooms r; stream_owners := stream_owners r;
     session_slots := session_slots r; next_activity_flush := next_activity_flush r; event_buf := v;
     udp_work := udp_work r; tcp_conns := tcp_conns r; tcp_read_work := tcp_read_work r;
     tcp_write_work := tcp_write_work r; shutting_down := shutting_down r |}.
Definition set_udp_work (v : Z) (r : VoiceRelay) : VoiceRelay :=
  {| udp_rx := udp_rx r; udp_probe := udp_probe r; udp_sent := udp_sent r; commands := commands r;
     events := events r; held := held r; p2p_enabled := p2p_enabled r; sessions := sessions r;
     route_to_session := route_to_session r; rooms := rooms r; stream_owners := stream_owners r;
     session_slots := session_slots r; next_activity_flush := next_activity_flush r; event_buf := event_buf r;
     udp_work := v; tcp_conns := tcp_conns r; tcp_read_work := tcp_read_work r; tcp_write_work := tcp_write_work r;
     shutting_down := shutting_down r |}.
Definition set_tcp_conns (v : list (option TcpVoiceConn)) (r : VoiceRelay) : VoiceRelay :=
  {| udp_rx := udp_rx r; udp_probe := udp_probe r; udp_sent := udp_sent r; commands := commands r;
     events := events r; held := held r; p2p_enabled := p2p_enabled r; sessions := sessions r;
     route_to_session := route_to_session r; rooms := rooms r; stream_owners := stream_owners r;
     session_slots := session_slots r; next_activity_flush := next_activity_flush r; event_buf := event_buf r;
     udp_work := udp_work r; tcp_conns := v; tcp_read_work := tcp_read_work r; tcp_write_work := tcp_write_work r;
     shutting_down := shutting_down r |}.
Definition set_tcp_read_work (v : list Z) (r : VoiceRelay) : VoiceRelay :=
  {| udp_rx := udp_rx r; udp_probe := udp_probe r; udp_sent := udp_sent r; commands := commands r;
     events := events r; held := held r; p2p_enabled := p2p_enabled r; sessions := sessions r;
     route_to_session := route_to_session r; rooms := rooms r; stream_owners := stream_owners r;
     session_slots := session_slots r; next_activity_flush := next_activity_flush r; event_buf := event_buf r;
     udp_work := udp_work r; tcp_conns := tcp_conns r; tcp_read_work := v; tcp_write_work := tcp_write_work r;
     shutting_down := shutting_down r |}.
Definition set_tcp_write_work (v : list Z) (r : VoiceRelay) : VoiceRelay :=
  {| udp_rx := udp_rx r; udp_probe := udp_probe r; udp_sent := udp_sent r; commands := commands r;
     events := events r; held := held r; p2p_enabled := p2p_enabled r; sessions := sessions r;
     route_to_session := route_to_session r; rooms := rooms r; stream_owners := stream_owners r;
     session_slots := session_slots r; next_activity_flush := next_activity_flush r; event_buf := event_buf r;
     udp_work := udp_work r; tcp_conns := tcp_conns r; tcp_read_work := tcp_read_work r; tcp_write_work := v;
     shutting_down := shutting_down r |}.
Definition set_shutting_down (v : bool) (r : VoiceRelay) : VoiceRelay :=
  {| udp_rx := udp_rx r; udp_probe := udp_probe r; udp_sent := udp_sent r; commands := commands r;
     events := events r; held := held r; p2p_enabled := p2p_enabled r; sessions := sessions r;
     route_to_session := route_to_session r; rooms := rooms r; stream_owners := stream_owners r;
     session_slots := session_slots r; next_activity_flush := next_activity_flush r; event_buf := event_buf r;
     udp_work := udp_work r; tcp_conns := tcp_conns r; tcp_read_work := tcp_read_work r;
     tcp_write_work := tcp_write_work r; shutting_down := v |}.

(** ** Lanes and sessions *)

Fixpoint first_free {A} (l : list (option A)) : option nat :=
  match l with
  | [] => None
  | None :: _ => Some O
  | Some _ :: l => S <$> first_free l
  end.

(** An assignment through an index. *)
Definition assign {A} (l : list A) (i : nat) (x : A) : option (list A) :=
  if decide (i < length l)%nat then Some (<[i := x]> l) else None.

Definition put_session (id : Z) (s : VoiceSession) (r : VoiceRelay) : VoiceRelay :=
  set_sessions (<[id := s]> (sessions r)) r.
Definition put_conn (slot : nat) (c : option TcpVoiceConn) (r : VoiceRelay) : VoiceRelay :=
  set_tcp_conns (<[slot := c]> (tcp_conns r)) r.
(** A permit dropped. *)
Definition release (had : bool) (r : VoiceRelay) : VoiceRelay := if had then set_held (held r - 1) r else r.

Definition detach_tcp_conn (slot : nat) (r : VoiceRelay) : option VoiceRelay :=
  entry ← tcp_conns r !! slot;
  match entry with
  | None => Some r
  | Some conn =>
      let r := put_conn slot None r in
      reads ← clear_slot_bit (tcp_read_work r) slot;
      writes ← clear_slot_bit (tcp_write_work r) slot;
      let r := set_tcp_write_work writes (set_tcp_read_work reads r) in
      let r :=
        match conn_session conn with
        | Some id =>
            match sessions r !! id with
            | Some s => if decide (vs_tcp_conn s = Some slot) then put_session id (set_tcp_conn None s) r else r
            | None => r
            end
        | None => r
        end in
      Some (release (permit conn) r)
  end.

(** The part of [set_route] that leaves the old room. *)
Definition leave_room (session_id : Z) (slot : nat) (old : SessionRoute) (r : VoiceRelay) : option VoiceRelay :=
  '(r, remove_room) ←
    match rooms r !! route_room_id old with
    | Some room =>
        room ← clear_slot_bit room slot;
        Some (set_rooms (<[route_room_id old := room]> (rooms r)) r, words_empty room)
    | None => Some (r, false)
    end;
  let key := (route_room_id old, route_stream_id old) in
  let r := if decide (stream_owners r !! key = Some session_id)
           then set_stream_owners (delete key (stream_owners r)) r else r in
  Some (if (remove_room : bool) then set_rooms (delete (route_room_id old) (rooms r)) r else r).

Definition join_room (session_id : Z) (slot : nat) (route : SessionRoute) (r : VoiceRelay) : option VoiceRelay :=
  room ← set_slot_bit (default new_room (rooms r !! route_room_id route)) slot;
  Some (set_stream_owners (<[(route_room_id route, route_stream_id route) := session_id]> (stream_owners r))
          (set_rooms (<[route_room_id route := room]> (rooms r)) r)).

Definition set_route (session_id : Z) (route : option SessionRoute) (r : VoiceRelay) : option VoiceRelay :=
  match sessions r !! session_id with
  | None => Some r
  | Some s =>
      if decide (vs_route s = route) then Some r
      else
        r ← match vs_route s with Some old => leave_room session_id (vs_slot s) old r | None => Some r end;
        let r := put_session session_id (set_route_of route s) r in
        match route with Some route => join_room session_id (vs_slot s) route r | None => Some r end
  end.

Definition remove_session (session_id : Z) (r : VoiceRelay) : option VoiceRelay :=
  r ← set_route session_id None r;
  match sessions r !! session_id with
  | None => Some r
  | Some s =>
      let r := set_sessions (delete session_id (sessions r)) r in
      slots ← assign (session_slots r) (vs_slot s) None;
      let r := set_route_to_session (delete (MediaProtection.route_id (vs_protection s)) (route_to_session r))
                 (set_session_slots slots r) in
      match vs_tcp_conn s with Some slot => detach_tcp_conn slot r | None => Some r end
  end.

Definition new_session (now : Z) (slot : nat) (user_id : Z) (protection : MediaProtection) : VoiceSession :=
  {| vs_slot := slot; vs_user_id := user_id; vs_protection := protection; vs_recv_replay := AntiReplay.new;
     vs_send_counter := 0; vs_udp_addr := None; vs_udp_bind_index := 0; vs_tcp_conn := None; vs_route := None;
     vs_budget := MediaBudget.new now; vs_last_activity := now; vs_reported_rtt_ms := None;
     vs_rtt_reported_at := None; vs_activity_dirty := false |}.

Definition register_session (now session_id user_id : Z) (protection : MediaProtection) (r : VoiceRelay)
    : option VoiceRelay :=
  let route_id := MediaProtection.route_id protection in
  let collides := match route_to_session r !! route_id with Some existing => bool_decide (existing <> session_id) | None => false end in
  if (collides : bool) then Some r
  else
    r ← match sessions r !! session_id with Some _ => remove_session session_id r | None => Some r end;
    match first_free (session_slots r) with
    | None => Some r
    | Some slot =>
        Some (put_session session_id (new_session now slot user_id protection)
                (set_route_to_session (<[route_id := session_id]> (route_to_session r))
                   (set_session_slots (<[slot := Some session_id]> (session_slots r)) r)))
    end.

Definition attach_tcp_conn (now : Z) (rx : Rx) (tx : Tx) (addr : SocketAddr) (buf : RecvBuffer) (registered : bool)
    (r : VoiceRelay) : option VoiceRelay :=
  match first_free (tcp_conns r) with
  | None => Some (release true r)
  | Some slot =>
      if negb registered then Some (release true r)
      else
        let r := put_conn slot (Some {| conn_rx := rx; conn_tx := tx; conn_addr := addr; read_buf := buf; readiness := true;
                   write_queue := WriteQueue.new; write_blocked := false; conn_session := None; permit := true;
                   attached_at := now; backlog_since := None |}) r in
        reads ← set_slot_bit (tcp_read_work r) slot;
        Some (set_tcp_read_work reads r)
  end.

Definition bind_tcp_conn (slot : nat) (session_id : Z) (r : VoiceRelay) : option VoiceRelay :=
  entry ← tcp_conns r !! slot;
  match entry with
  | None => Some r
  | Some conn =>
      match conn_session conn with
      | Some _ => Some r
      | None =>
          let r := release (permit conn) (put_conn slot (Some (set_bound session_id conn)) r) in
          match sessions r !! session_id with
          | None => Some r
          | Some s =>
              let r := put_session session_id (set_tcp_conn (Some slot) s) r in
              match vs_tcp_conn s with
              | Some previous => if decide (previous <> slot) then detach_tcp_conn previous r else Some r
              | None => Some r
              end
          end
      end
  end.

(** ** Sending *)

Definition detach_stale_tcp_backlog (now : Z) (slot : nat) (r : VoiceRelay) : option (VoiceRelay * bool) :=
  entry ← tcp_conns r !! slot;
  let stale :=
    match entry with
    | Some c =>
        match backlog_since c with
        | Some since => bool_decide (VOICE_TCP_STALE_BACKLOG <= duration_since now since)
        | None => false
        end
    | None => false
    end in
  if (stale : bool) then r ← detach_tcp_conn slot r; Some (r, true) else Some (r, false).

Definition admit_tcp_send (now : Z) (slot : nat) (r : VoiceRelay) : option (VoiceRelay * bool) :=
  '(r, stale) ← detach_stale_tcp_backlog now slot r;
  if (stale : bool) then Some (r, false)
  else
    entry ← tcp_conns r !! slot;
    match entry with
    | None => Some (r, false)
    | Some c =>
        if decide (WriteQueue.len (write_queue c) <= VOICE_TCP_WRITE_CAP_BYTES - VOICE_TCP_MAX_WIRE_FRAME_BYTES)%nat
        then Some (r, true)
        else r ← detach_tcp_conn slot r; Some (r, false)
    end.

Definition flush_tcp (now : Z) (slot : nat) (r : VoiceRelay) : option VoiceRelay :=
  entry ← tcp_conns r !! slot;
  match entry with
  | None => Some r
  | Some c =>
      if write_blocked c || WriteQueue.is_empty (write_queue c) then Some r
      else
        match write_queue_to (conn_tx c) (write_queue c) VOICE_TCP_WRITE_ATTEMPTS with
        | (tx, q, Ok o) =>
            let since := if WriteQueue.is_empty q then None else backlog_since c in
            let r := put_conn slot (Some (set_write tx q (blocked o || write_blocked c) since c)) r in
            r ← (if negb (blocked o) && write_hit_limit o then
                   writes ← set_slot_bit (tcp_write_work r) slot; Some (set_tcp_write_work writes r)
                 else Some r);
            if wrote_zero o then detach_tcp_conn slot r
            else '(r, _) ← detach_stale_tcp_backlog now slot r; Some r
        | (_, _, Err _) => detach_tcp_conn slot r
        end
  end.

Definition send_tcp_sealed (now : Z) (slot : nat) (packet : bytes) (r : VoiceRelay) : option VoiceRelay :=
  entry ← tcp_conns r !! slot;
  match entry with
  | None => Some r
  | Some c =>
      match encode_frame packet (wq_buf (write_queue c)) with
      | (_, Err _) => Some r
      | (buf, Ok _) =>
          let q := {| wq_buf := buf; wq_start := wq_start (write_queue c) |} in
          let since := match backlog_since c with Some t => t | None => now end in
          flush_tcp now slot (put_conn slot (Some (set_write (conn_tx c) q (write_blocked c) (Some since) c)) r)
      end
  end.

Definition send_udp_sealed (bind_index : nat) (addr : SocketAddr) (packet : bytes) (r : VoiceRelay) : option VoiceRelay :=
  if decide (bind_index < length (udp_rx r))%nat then Some (set_udp_sent (udp_sent r ++ [(bind_index, addr, packet)]) r)
  else None.

(** The packet, when there is something to send. *)
Definition seal_for_session (session_id : Z) (payload : MediaPayloadRef.t) (r : VoiceRelay) : VoiceRelay * option bytes :=
  match sessions r !! session_id with
  | None => (r, None)
  | Some s =>
      let counter := vs_send_counter s in
      let r := put_session session_id (set_send_counter (wrap 64 (counter + 1)) s) r in
      match seal_media_ref_into (vs_protection s) counter payload with
      | Ok packet => (r, Some packet)
      | Err _ => (r, None)
      end
  end.

Definition send_payload (now session_id : Z) (payload : MediaPayloadRef.t) (r : VoiceRelay) : option VoiceRelay :=
  match sessions r !! session_id with
  | None => Some r
  | Some s =>
      match vs_tcp_conn s with
      | Some slot =>
          '(r, admitted) ← admit_tcp_send now slot r;
          if negb admitted then Some r
          else
            match seal_for_session session_id payload r with
            | (r, None) => Some r
            | (r, Some packet) => send_tcp_sealed now slot packet r
            end
      | None =>
          match vs_udp_addr s with
          | None => Some r
          | Some addr =>
              match seal_for_session session_id payload r with
              | (r, None) => Some r
              | (r, Some packet) => send_udp_sealed (vs_udp_bind_index s) addr packet r
              end
          end
      end
  end.

Definition send_pong (now session_id : Z) (origin : PacketOrigin) (nonce : Z) (r : VoiceRelay) : option VoiceRelay :=
  let payload := MediaPayloadRef.Pong nonce in
  match origin with
  | UdpOrigin server_probe_id bind_index src =>
      if decide (server_probe_id = 0) then
        match seal_for_session session_id payload r with
        | (r, None) => Some r
        | (r, Some packet) => send_udp_sealed bind_index src packet r
        end
      else send_payload now session_id payload r
  | TcpOrigin slot =>
      '(r, admitted) ← admit_tcp_send now slot r;
      if negb admitted then Some r
      else
        match seal_for_session session_id payload r with
        | (r, None) => Some r
        | (r, Some packet) => send_tcp_sealed now slot packet r
        end
  end.

(** ** Relaying *)

(** The members of a room other than the sender, in the order of their slots. *)
Definition recipients (sender : Z) (room : list Z) (slots : list (option Z)) : list Z :=
  omap (fun slot =>
    match slots !! slot with
    | Some (Some recipient) => if decide (recipient <> sender) then Some recipient else None
    | _ => None
    end) (slots_of room).

Fixpoint send_all (now : Z) (ids : list Z) (payload : MediaPayloadRef.t) (r : VoiceRelay) : option VoiceRelay :=
  match ids with
  | [] => Some r
  | id :: ids => r ← send_payload now id payload r; send_all now ids payload r
  end.

Definition relay_voice (now sender stream_id sequence timestamp flags : Z) (voice : VoicePayloadRef.t) (r : VoiceRelay)
    : option VoiceRelay :=
  match (s ← sessions r !! sender; vs_route s) with
  | Some route =>
      if decide (route_stream_id route = stream_id) then
        let ids := match rooms r !! route_room_id route with
                   | Some room => recipients sender room (session_slots r)
                   | None => []
                   end in
        send_all now ids (MediaPayloadRef.Voice stream_id sequence timestamp flags voice) r
      else Some r
  | None => Some r
  end.

Definition relay_feedback (now reporter_session stream_id : Z) (feedback : VoiceFeedback) (r : VoiceRelay)
    : option VoiceRelay :=
  match sessions r !! reporter_session with
  | None => Some r
  | Some s =>
      match vs_route s with
      | None => Some r
      | Some route =>
          match stream_owners r !! (route_room_id route, stream_id) with
          | None => Some r
          | Some owner =>
              if decide (owner = reporter_session) then Some r
              else send_payload now owner (MediaPayloadRef.FeedbackFrom (vs_user_id s) stream_id feedback) r
          end
      end
  end.

(** ** Receiving *)

Definition is_clear (p : MediaProtection) : bool := match p with MediaClear _ _ => true | _ => false end.
Definition is_udp (o : PacketOrigin) : bool := match o with UdpOrigin _ _ _ => true | _ => false end.

(** The gate before a packet is opened: [Some (Some e)] refuses it. *)
Definition origin_gate (origin : PacketOrigin) (kind session_id : Z) (s : VoiceSession) (r : VoiceRelay)
    : option (option PacketError) :=
  match origin with
  | UdpOrigin _ _ src =>
      Some (if is_clear (vs_protection s) && bool_decide (kind <> KIND_BIND) && bool_decide (vs_udp_addr s <> Some src)
            then Some UnboundSource else None)
  | TcpOrigin slot =>
      entry ← tcp_conns r !! slot;
      Some (match entry with
            | None => Some UnknownSession
            | Some c =>
                match conn_session c with
                | Some bound => if decide (bound <> session_id) then Some SessionMismatch else None
                | None => if decide (kind <> KIND_BIND) then Some UnauthenticatedConn else None
                end
            end)
  end.

(** Where the session can be reached, and whether that changed.  The debug assertion
    on packets without a proof is [VoiceRun.unproven_source_bound]. *)
Definition learn_address (origin : PacketOrigin) (proof : AddressProof) (s : VoiceSession) : VoiceSession * bool :=
  match origin, proof with
  | UdpOrigin server_probe_id bind_index src, (AuthenticatedDatagram | AuthenticatedAddressClaim) =>
      if decide (server_probe_id = 0) then
        let changed := match vs_udp_addr s with Some old => bool_decide (old <> src) | None => false end in
        let s := set_udp_addr src bind_index s in
        ((if changed then set_rtt None None s else s), changed)
      else (s, false)
  | _, _ => (s, false)
  end.

Definition charge (now kind : Z) (wire_bytes : nat) (b : MediaBudget) : MediaBudget * bool :=
  if decide (kind = KIND_VOICE) then MediaBudget.admit_voice b now wire_bytes
  else if decide (kind = KIND_VOICE_FEEDBACK) then MediaBudget.admit_feedback b now
  else MediaBudget.admit_signal b now.

Definition set_udp_bound (v : gmap Z SocketAddr) (b : VoiceEventBatch) : VoiceEventBatch :=
  {| udp_bound := v; nat_probe := nat_probe b; activity := activity b; failure := failure b |}.
Definition set_nat_probe (v : gmap (Z * Z) SocketAddr) (b : VoiceEventBatch) : VoiceEventBatch :=
  {| udp_bound := udp_bound b; nat_probe := v; activity := activity b; failure := failure b |}.
Definition set_batch_activity (v : gmap Z VoiceActivity) (b : VoiceEventBatch) : VoiceEventBatch :=
  {| udp_bound := udp_bound b; nat_probe := nat_probe b; activity := v; failure := failure b |}.

(** What is done with the payload of an admitted packet. *)
Definition dispatch (now : Z) (origin : PacketOrigin) (session_id : Z) (payload : MediaPayloadRef.t) (changed : bool)
    (r : VoiceRelay) : option (VoiceRelay * result PacketError unit) :=
  match payload with
  | MediaPayloadRef.Bind =>
      match origin with
      | UdpOrigin server_probe_id _ src =>
          if decide (server_probe_id = 0)
          then Some (set_event_buf (set_udp_bound (<[session_id := src]> (udp_bound (event_buf r))) (event_buf r)) r, Ok tt)
          else Some (r, Ok tt)
      | TcpOrigin _ => Some (r, Ok tt)
      end
  | MediaPayloadRef.NatProbe probe_id =>
      match origin with
      | TcpOrigin _ => Some (r, Ok tt)
      | UdpOrigin server_probe_id _ src =>
          if negb (p2p_enabled r) then Some (r, Ok tt)
          else
            let probe_id := Z.max probe_id server_probe_id in
            if decide (1 < probe_id) then Some (r, Err UnknownNatProbe)
            else Some (set_event_buf (set_nat_probe (<[(session_id, probe_id) := src]> (nat_probe (event_buf r))) (event_buf r)) r,
                       Ok tt)
      end
  | MediaPayloadRef.Voice stream_id sequence timestamp flags payload =>
      r ← relay_voice now session_id stream_id sequence timestamp flags payload r; Some (r, Ok tt)
  | MediaPayloadRef.Feedback stream_id feedback =>
      r ← relay_feedback now session_id stream_id feedback r; Some (r, Ok tt)
  | MediaPayloadRef.Ping nonce observed_rtt_ms =>
      let r :=
        match sessions r !! session_id with
        | Some s => put_session session_id (set_rtt (if changed then None else observed_rtt_ms) (Some now) s) r
        | None => r
        end in
      r ← send_pong now session_id origin nonce r; Some (r, Ok tt)
  | _ => Some (r, Ok tt)
  end.

Definition handle_media_packet (now : Z) (origin : PacketOrigin) (packet : bytes) (r : VoiceRelay)
    : option (VoiceRelay * result PacketError unit) :=
  match parse_header packet with
  | Err e => Some (r, Err (PacketMedia e))
  | Ok (header, _) =>
      match route_to_session r !! hdr_route_id header with
      | None => Some (r, Err UnknownRoute)
      | Some session_id =>
          match sessions r !! session_id with
          | None => Some (r, Err UnknownSession)
          | Some s =>
              if negb (p2p_enabled r) && bool_decide (hdr_kind header = KIND_NAT_PROBE) && is_udp origin
              then Some (r, if is_clear (vs_protection s) then Err NatProbeUnavailable else Ok tt)
              else
                gate ← origin_gate origin (hdr_kind header) session_id s r;
                match gate with
                | Some e => Some (r, Err e)
                | None =>
                    let '(replay, opened) := open_media_in_place (vs_protection s) (vs_recv_replay s) packet in
                    let s := set_replay replay s in
                    match opened with
                    | Err e => Some (put_session session_id s r, Err (PacketMedia e))
                    | Ok o =>
                        let '(s, changed) := learn_address origin (ref_address_proof o) s in
                        let '(budget, admitted) := charge now (hdr_kind header) (length packet) (vs_budget s) in
                        let r := put_session session_id (set_activity budget now true s) r in
                        r ← match origin with TcpOrigin slot => bind_tcp_conn slot session_id r | _ => Some r end;
                        if negb admitted then Some (r, Ok tt)
                        else dispatch now origin session_id (ref_payload o) changed r
                    end
                end
          end
      end
  end.

(** One burst of a media socket or of the probe socket: at most [remaining]
    datagrams, longer ones cut to the buffer.  What is left of the socket. *)
Fixpoint receive_loop (now : Z) (probe bind_index : nat) (bit : nat) (remaining : nat) (socket : list RecvFrom) (r : VoiceRelay)
    : option (VoiceRelay * list RecvFrom) :=
  match remaining with
  | O => Some (set_udp_work (Z.lor (udp_work r) (Z.shiftl 1 (Z.of_nat bit))) r, socket)
  | S remaining =>
      match socket with
      | [] => Some (r, [])
      | DatagramError :: socket => receive_loop now probe bind_index bit remaining socket r
      | SocketError :: socket => Some (r, socket)
      | Datagram src bs :: socket =>
          '(r, _) ← handle_media_packet now (UdpOrigin (Z.of_nat probe) bind_index src) (take MAX_UDP_DATAGRAM_BYTES bs) r;
          receive_loop now probe bind_index bit remaining socket r
      end
  end.

Definition receive (now : Z) (bit : nat) (r : VoiceRelay) : option VoiceRelay :=
  if decide (bit = PROBE_BIT) then
    match udp_probe r with
    | None => Some r
    | Some socket =>
        '(r, socket) ← receive_loop now 1 0 bit UDP_DRAIN_BUDGET socket r;
        Some (set_udp_probe (Some socket) r)
    end
  else
    socket ← udp_rx r !! bit;
    '(r, socket) ← receive_loop now 0 bit bit UDP_DRAIN_BUDGET socket r;
    Some (set_udp_rx (<[bit := socket]> (udp_rx r)) r).

(** The frames of a lane, one by one; each takes four bytes or more, so the length
    of the buffer is fuel enough.  What is left in the buffer, unless the lane was
    detached. *)
Fixpoint lane_loop (fuel : nat) (now : Z) (slot : nat) (buf : RecvBuffer) (r : VoiceRelay)
    : option (VoiceRelay * option RecvBuffer) :=
  match fuel with
  | O => None
  | S fuel =>
      match parse_frame_with_limit (RecvBuffer.pending buf) (Z.of_nat VOICE_TCP_MAX_FRAME_BYTES) with
      | Ok None => Some (r, Some buf)
      | Err _ => r ← detach_tcp_conn slot r; Some (r, None)
      | Ok (Some (packet, total)) =>
          '(r, res) ← handle_media_packet now (TcpOrigin slot) packet r;
          match res with
          | Err _ => r ← detach_tcp_conn slot r; Some (r, None)
          | Ok _ => lane_loop fuel now slot (RecvBuffer.consume buf (Z.to_nat total)) r
          end
      end
  end.

Definition receive_tcp (now : Z) (slot : nat) (r : VoiceRelay) : option VoiceRelay :=
  entry ← tcp_conns r !! slot;
  match entry with
  | None => Some r
  | Some c =>
      '(rx, buf, ready, res) ← read_into_buffer tries MAX_UDP_DATAGRAM_BYTES (ByteBudget VOICE_TCP_READ_BUDGET_BYTES)
          (S VOICE_TCP_READ_BUDGET_BYTES) (conn_rx c) (read_buf c) (readiness c);
      match res with
      | Err _ => detach_tcp_conn slot r
      | Ok o =>
          r ← (if hit_limit o then reads ← set_slot_bit (tcp_read_work r) slot; Some (set_tcp_read_work reads r) else Some r);
          let r := put_conn slot (Some (set_read rx RecvBuffer.new ready c)) r in
          '(r, rest) ← lane_loop (S (length (RecvBuffer.pending buf))) now slot buf r;
          match rest with
          | None => Some r
          | Some buf =>
              entry ← tcp_conns r !! slot;
              match entry with
              | None => Some r
              | Some c =>
                  let r := put_conn slot (Some (set_read (conn_rx c) buf (readiness c) c)) r in
                  if disconnected o then detach_tcp_conn slot r else Some r
              end
          end
      end
  end.

(** ** The event loop *)

Fixpoint sweep_slots (now : Z) (slots : list nat) (r : VoiceRelay) : option VoiceRelay :=
  match slots with
  | [] => Some r
  | slot :: slots =>
      entry ← tcp_conns r !! slot;
      r ← match entry with
          | Some c =>
              if bool_decide (conn_session c = None) && bool_decide (VOICE_TCP_AUTH_TIMEOUT <= duration_since now (attached_at c))
              then detach_tcp_conn slot r else Some r
          | None => Some r
          end;
      sweep_slots now slots r
  end.

Definition sweep_unbound_tcp_conns (now : Z) (r : VoiceRelay) : option VoiceRelay :=
  if decide (held r = O) then Some r else sweep_slots now (seq 0 (length (tcp_conns r))) r.

Definition report_activity (s : VoiceSession) : option VoiceActivity :=
  if vs_activity_dirty s
  then Some {| act_last_activity := vs_last_activity s; act_reported_rtt_ms := vs_reported_rtt_ms s;
               act_rtt_reported_at := vs_rtt_reported_at s |}
  else None.

Definition flush_activity (now : Z) (r : VoiceRelay) : option VoiceRelay :=
  if decide (now < next_activity_flush r) then Some r
  else
    r ← sweep_unbound_tcp_conns now (set_next_activity_flush (now + ACTIVITY_FLUSH_INTERVAL) r);
    let reported := omap report_activity (sessions r) in
    Some (set_event_buf (set_batch_activity (reported ∪ activity (event_buf r)) (event_buf r))
            (set_sessions ((fun s => set_activity (MediaBudget.set_dropped 0 (vs_budget s)) (vs_last_activity s) false s) <$> sessions r) r)).

Definition submit_events (r : VoiceRelay) : VoiceRelay :=
  set_event_buf empty_batch (set_events (merge_batch (events r) (event_buf r)) r).

Definition apply_command (now : Z) (c : VoiceCommand) (r : VoiceRelay) : option VoiceRelay :=
  match c with
  | RegisterSession session_id user_id protection => register_session now session_id user_id protection r
  | SetRoute session_id route => set_route session_id route r
  | RemoveSession session_id => remove_session session_id r
  | AttachTcp rx tx addr buf registered => attach_tcp_conn now rx tx addr buf registered r
  | Shutdown => Some (set_shutting_down true r)
  end.

Fixpoint apply_commands (now : Z) (l : list VoiceCommand) (r : VoiceRelay) : option VoiceRelay :=
  match l with
  | [] => Some r
  | c :: l => r ← apply_command now c r; apply_commands now l r
  end.

Definition drain_commands (now : Z) (r : VoiceRelay) : option VoiceRelay :=
  apply_commands now (commands r) (set_commands [] r).

(** The loops over work bits, which end early once a shutdown was drained. *)
Fixpoint udp_pass (now : Z) (bits : list nat) (r : VoiceRelay) : option VoiceRelay :=
  match bits with
  | [] => Some r
  | bit :: bits =>
      r ← receive now bit r; r ← drain_commands now r;
      if shutting_down r then Some r else udp_pass now bits r
  end.

Fixpoint tcp_read_bits (now : Z) (slots : list nat) (r : VoiceRelay) : option VoiceRelay :=
  match slots with
  | [] => Some r
  | slot :: slots =>
      r ← receive_tcp now slot r; r ← drain_commands now r;
      if shutting_down r then Some r else tcp_read_bits now slots r
  end.

Fixpoint tcp_write_bits (now : Z) (slots : list nat) (r : VoiceRelay) : option VoiceRelay :=
  match slots with
  | [] => Some r
  | slot :: slots => r ← flush_tcp now slot r; tcp_write_bits now slots r
  end.

Definition word_slots (word_index : nat) (word : Z) : list nat := (fun bit => word_index * WORD_BITS + bit)%nat <$> word_bits word.

Fixpoint tcp_read_pass (now : Z) (words : list nat) (r : VoiceRelay) : option VoiceRelay :=
  match words with
  | [] => Some r
  | i :: words =>
      if shutting_down r then Some r
      else
        word ← tcp_read_work r !! i;
        r ← tcp_read_bits now (word_slots i word) (set_tcp_read_work (<[i := 0]> (tcp_read_work r)) r);
        tcp_read_pass now words r
  end.

Fixpoint tcp_write_pass (now : Z) (words : list nat) (r : VoiceRelay) : option VoiceRelay :=
  match words with
  | [] => Some r
  | i :: words =>
      if shutting_down r then Some r
      else
        word ← tcp_write_work r !! i;
        r ← tcp_write_bits now (word_slots i word) (set_tcp_write_work (<[i := 0]> (tcp_write_work r)) r);
        tcp_write_pass now words r
  end.

(** One turn of the loop of [run], up to the poll. *)
Definition run_pass (now : Z) (r : VoiceRelay) : option VoiceRelay :=
  if shutting_down r then Some r
  else
    r ← drain_commands now r;
    if shutting_down r then Some r
    else
      r ← udp_pass now (word_bits (udp_work r)) (set_udp_work 0 r);
      r ← tcp_read_pass now (seq 0 TCP_CONN_WORDS) r;
      r ← tcp_write_pass now (seq 0 TCP_CONN_WORDS) r;
      r ← flush_activity now r;
      Some (submit_events r).

(** An event of the poll: a lane that is readable or writable, or a UDP socket. *)
Inductive PollEvent := TcpReady (slot : nat) (readable writable : bool) | UdpReady (token : nat).

Definition poll_event (e : PollEvent) (r : VoiceRelay) : option VoiceRelay :=
  match e with
  | TcpReady slot readable writable =>
      if decide (slot < MAX_TCP_VOICE_CONNS)%nat then
        entry ← tcp_conns r !! slot;
        match entry with
        | None => Some r
        | Some c =>
            let c := if (readable : bool) then set_read (conn_rx c) (read_buf c) true c else c in
            r ← (if readable then reads ← set_slot_bit (tcp_read_work r) slot; Some (set_tcp_read_work reads r) else Some r);
            let c' := if (writable : bool) then set_write (conn_tx c) (write_queue c) false (backlog_since c) c else c in
            r ← (if writable && negb (WriteQueue.is_empty (write_queue c)) then
                   writes ← set_slot_bit (tcp_write_work r) slot; Some (set_tcp_write_work writes r)
                 else Some r);
            Some (put_conn slot (Some c') r)
        end
      else Some r
  | UdpReady token =>
      if bool_decide (token < length (udp_rx r))%nat || (bool_decide (token = PROBE_BIT) && bool_decide (udp_probe r <> None))
      then Some (set_udp_work (Z.lor (udp_work r) (Z.shiftl 1 (Z.of_nat token))) r)
      else Some r
  end.

Definition new_relay (now : Z) (udp_count : nat) (probe p2p : bool) : VoiceRelay :=
  {| udp_rx := replicate udp_count []; udp_probe := if probe then Some [] else None; udp_sent := []; commands := [];
     events := empty_batch; held := 0; p2p_enabled := p2p; sessions := ∅; route_to_session := ∅; rooms := ∅;
     stream_owners := ∅; session_slots := replicate MAX_SESSIONS None;
     next_activity_flush := now + ACTIVITY_FLUSH_INTERVAL; event_buf := empty_batch; udp_work := 0;
     tcp_conns := replicate MAX_TCP_VOICE_CONNS None; tcp_read_work := replicate TCP_CONN_WORDS 0;
     tcp_write_work := replicate TCP_CONN_WORDS 0; shutting_down := false |}.

(** ** The control loop's side *)

(** [submit]; a lane is handed over only with a permit ([attach_voice_tcp_conn],
    [TcpHandoffBudget::reserve]). *)
Definition submit (c : VoiceCommand) (r : VoiceRelay) : VoiceRelay :=
  match c with
  | AttachTcp _ _ _ _ _ =>
      if decide (MAX_PENDING_TCP_VOICE <= held r)%nat then r
      else set_commands (commands r ++ [c]) (set_held (S (held r)) r)
  | _ => set_commands (commands r ++ [c]) r
  end.

Definition drain_events (r : VoiceRelay) : VoiceRelay * VoiceEventBatch := (set_events empty_batch r, events r).

End relay.

Arguments TcpVoiceConn : clear implicits.
Arguments VoiceCommand : clear implicits.
Arguments VoiceRelay : clear implicits.
