(* ===== verification/VoiceInvariant.v ===== *)
(** * The invariant of the voice relay

    The relay of [VoiceRelay] keeps the same facts in several places: a session
    has a slot that names it, a route id that leads to it, a bit in the member set
    of its room, and possibly a lane that points back.  This file states that they
    agree, together with the bounds on permits, queues and indices, and proves
    that every operation keeps it so and never panics. *)

From S2P Require Import Prelude Replay Primitives Transport Handshake Auth Media Frame Evented Net Clock Budget SlotBits VoiceRelay.

(** ** Slots and route ids *)

(** A session's slot and route id. *)
Definition seat (s : VoiceSession) : nat * Z := (vs_slot s, MediaProtection.route_id (vs_protection s)).

Record slots_inv (seats : gmap Z (nat * Z)) (slots : list (option Z)) (by_route : gmap Z Z) : Prop := {
  sl_length : length slots = MAX_SESSIONS;
  sl_slot : forall id k, seats !! id = Some k -> slots !! k.1 = Some (Some id);
  sl_session : forall slot id, slots !! slot = Some (Some id) -> exists rid, seats !! id = Some (slot, rid);
  sl_route : forall id k, seats !! id = Some k -> by_route !! k.2 = Some id;
  sl_known : forall rid id, by_route !! rid = Some id -> exists slot, seats !! id = Some (slot, rid);
}.

Lemma seat_bound seats slots by_route id k : slots_inv seats slots by_route -> seats !! id = Some k -> (k.1 < MAX_SESSIONS)%nat.
Proof. intros I E. apply (sl_slot _ _ _ I) in E. apply lookup_lt_Some in E. by rewrite (sl_length _ _ _ I) in E. Qed.

Lemma seat_inj seats slots by_route a b ka kb :
  slots_inv seats slots by_route -> seats !! a = Some ka -> seats !! b = Some kb -> ka.1 = kb.1 -> a = b.
Proof. intros I Ea Eb E. apply (sl_slot _ _ _ I) in Ea, Eb. congruence. Qed.

Lemma first_free_spec {A} (l : list (option A)) :
  match first_free l with Some i => l !! i = Some None | None => Forall is_Some l end.
Proof.
  induction l as [|[x|] l IH]; cbn; [constructor| |done]. destruct (first_free l) as [i|]; cbn; [done|]. constructor; [done|done].
Qed.

Lemma slots_remove seats slots by_route id k :
  slots_inv seats slots by_route -> seats !! id = Some k ->
  slots_inv (delete id seats) (<[k.1 := None]> slots) (delete k.2 by_route).
Proof.
  intros I E. pose proof (sl_slot _ _ _ I _ _ E) as Es. constructor.
  - rewrite length_insert. apply I.
  - intros id' k' E'. apply lookup_delete_Some in E' as [Hne E']. rewrite list_lookup_insert_ne; [by apply (sl_slot _ _ _ I)|].
    intros Hk. apply Hne. by apply (seat_inj _ _ _ id id' k k' I).
  - intros slot id' E'. apply list_lookup_insert_Some in E' as [(_ & [=] & _)|[Hne E']].
    destruct (sl_session _ _ _ I _ _ E') as [rid Er]. exists rid. rewrite lookup_delete_ne; [done|].
    intros <-. rewrite E in Er. injection Er as ->. done.
  - intros id' k' E'. apply lookup_delete_Some in E' as [Hne E']. pose proof (sl_route _ _ _ I _ _ E') as Er.
    rewrite lookup_delete_ne; [done|]. intros Hk. pose proof (sl_route _ _ _ I _ _ E) as Er'. rewrite Hk in Er'. congruence.
  - intros rid id' E'. apply lookup_delete_Some in E' as [Hne E']. destruct (sl_known _ _ _ I _ _ E') as [slot Es'].
    exists slot. rewrite lookup_delete_ne; [done|]. intros <-. rewrite E in Es'. by injection Es' as ->.
Qed.

Lemma slots_add seats slots by_route id slot rid :
  slots_inv seats slots by_route -> seats !! id = None -> slots !! slot = Some None -> by_route !! rid = None ->
  slots_inv (<[id := (slot, rid)]> seats) (<[slot := Some id]> slots) (<[rid := id]> by_route).
Proof.
  intros I Hid Hslot Hrid. constructor.
  - rewrite length_insert. apply I.
  - intros id' k E. apply lookup_insert_Some in E as [[<- <-]|[Hne E]].
    + apply list_lookup_insert_eq. by eapply lookup_lt_Some.
    + pose proof (sl_slot _ _ _ I _ _ E) as Es. rewrite list_lookup_insert_ne; [done|]. intros ->. congruence.
  - intros slot' id' E. apply list_lookup_insert_Some in E as [(-> & [= ->] & _)|[Hne E]].
    + exists rid. apply lookup_insert_eq.
    + destruct (sl_session _ _ _ I _ _ E) as [rid' Er]. exists rid'. rewrite lookup_insert_ne; [done|]. congruence.
  - intros id' k E. apply lookup_insert_Some in E as [[<- <-]|[Hne E]]; [apply lookup_insert_eq|].
    pose proof (sl_route _ _ _ I _ _ E) as Er. rewrite lookup_insert_ne; [done|]. congruence.
  - intros rid' id' E. apply lookup_insert_Some in E as [[<- <-]|[Hne E]].
    + exists slot. apply lookup_insert_eq.
    + destruct (sl_known _ _ _ I _ _ E) as [slot' Es]. exists slot'. rewrite lookup_insert_ne; [done|]. congruence.
Qed.

(** ** Rooms *)

(** A session's slot and route. *)
Definition place (s : VoiceSession) : nat * option SessionRoute := (vs_slot s, vs_route s).

Definition in_room (places : gmap Z (nat * option SessionRoute)) (room_id : Z) (slot : nat) : Prop :=
  exists id rt, places !! id = Some (slot, Some rt) /\ route_room_id rt = room_id.

Record rooms_inv (places : gmap Z (nat * option SessionRoute)) (rooms : gmap Z (list Z)) (owners : gmap (Z * Z) Z) : Prop := {
  ro_words : forall room_id room, rooms !! room_id = Some room -> words_wf SESSION_WORDS room;
  ro_members : forall room_id room slot, rooms !! room_id = Some room -> member room slot = true <-> in_room places room_id slot;
  ro_rooms : forall id slot rt, places !! id = Some (slot, Some rt) -> is_Some (rooms !! route_room_id rt);
  ro_used : forall room_id room, rooms !! room_id = Some room -> exists slot, member room slot = true;
  ro_owners : forall room_id stream_id id, owners !! (room_id, stream_id) = Some id ->
    exists slot, places !! id = Some (slot, Some (mkRoute room_id stream_id));
}.

Definition slots_distinct (places : gmap Z (nat * option SessionRoute)) : Prop :=
  forall a b ka kb, places !! a = Some ka -> places !! b = Some kb -> ka.1 = kb.1 -> a = b.

(** Membership once [id] has left its room. *)
Lemma in_room_left places id slot old room_id s :
  slots_distinct places -> places !! id = Some (slot, old) ->
  in_room (<[id := (slot, None)]> places) room_id s <-> in_room places room_id s /\ s <> slot.
Proof.
  intros D E. split.
  - intros (id' & rt & E' & Hr). apply lookup_insert_Some in E' as [[_ [=]]|[Hne E']].
    split; [by exists id', rt|]. intros ->. apply Hne. by apply (D id id' _ _ E E').
  - intros [(id' & rt & E' & Hr) Hs]. exists id', rt. split; [|done]. rewrite lookup_insert_ne; [done|]. intros <-. congruence.
Qed.

Lemma in_room_joined places id slot rt room_id s :
  places !! id = Some (slot, None) ->
  in_room (<[id := (slot, Some rt)]> places) room_id s <-> in_room places room_id s \/ room_id = route_room_id rt /\ s = slot.
Proof.
  intros E. split.
  - intros (id' & rt' & E' & Hr). apply lookup_insert_Some in E' as [[<- [= <- <-]]|[Hne E']]; [by right|]. left. by exists id', rt'.
  - intros [(id' & rt' & E' & Hr)|[-> ->]].
    + exists id', rt'. split; [|done]. rewrite lookup_insert_ne; [done|]. intros <-. congruence.
    + exists id, rt. by rewrite lookup_insert_eq.
Qed.

Lemma rooms_leave places rooms owners id slot old room room' :
  rooms_inv places rooms owners -> slots_distinct places -> places !! id = Some (slot, Some old) ->
  rooms !! route_room_id old = Some room -> words_wf SESSION_WORDS room' ->
  (forall s, member room' s = member room s && negb (bool_decide (s = slot))) ->
  let key := (route_room_id old, route_stream_id old) in
  let owners' := if decide (owners !! key = Some id) then delete key owners else owners in
  let rooms1 := <[route_room_id old := room']> rooms in
  rooms_inv (<[id := (slot, None)]> places) (if words_empty room' then delete (route_room_id old) rooms1 else rooms1) owners'.
Proof.
  intros I D E Er Hw Hm key owners' rooms1.
  assert (forall s, member room' s = true <-> in_room (<[id := (slot, None)]> places) (route_room_id old) s) as Hmem.
  { intros s. rewrite Hm, andb_true_iff, negb_true_iff, bool_decide_eq_false.
    rewrite (ro_members _ _ _ I _ _ s Er), (in_room_left _ _ _ _ _ s D E). done. }
  assert (forall room_id r, (if words_empty room' then delete (route_room_id old) rooms1 else rooms1) !! room_id = Some r ->
    room_id = route_room_id old /\ r = room' /\ words_empty room' = false \/ room_id <> route_room_id old /\ rooms !! room_id = Some r) as Hl.
  { intros room_id r H. destruct (words_empty room') eqn:Ee.
    - apply lookup_delete_Some in H as [Hne H]. apply lookup_insert_Some in H as [[? _]|[_ H]]; [congruence|]. right. by split.
    - apply lookup_insert_Some in H as [[<- <-]|[Hne H]]; [by left|]. right. by split. }
  constructor.
  - intros room_id r H. destruct (Hl _ _ H) as [(-> & -> & _)|[_ H']]; [done|]. by apply (ro_words _ _ _ I) in H'.
  - intros room_id r s H. destruct (Hl _ _ H) as [(-> & -> & _)|[Hne H']]; [apply Hmem|].
    rewrite (ro_members _ _ _ I _ _ s H'), (in_room_left _ _ _ _ _ s D E). split; [|tauto]. intros Hin. split; [done|]. intros ->.
    destruct Hin as (id' & rt & E' & Hr). assert (id = id') as <- by (by apply (D id id' _ _ E E')). rewrite E in E'.
    injection E' as <-. congruence.
  - intros id' slot' rt E'. apply lookup_insert_Some in E' as [[_ [=]]|[Hne E']].
    destruct (ro_rooms _ _ _ I _ _ _ E') as [r Hr]. destruct (words_empty room') eqn:Ee.
    + destruct (decide (route_room_id rt = route_room_id old)) as [Heq|Hne'].
      * exfalso. assert (member room' slot' = true) as Hc.
        { apply Hmem. exists id', rt. by rewrite lookup_insert_ne. }
        by rewrite (words_empty_member _ Ee) in Hc.
      * exists r. unfold rooms1. by rewrite lookup_delete_ne, lookup_insert_ne by done.
    + unfold rooms1. destruct (decide (route_room_id rt = route_room_id old)) as [->|Hne'].
      * rewrite lookup_insert_eq. by eexists.
      * rewrite lookup_insert_ne by done. by exists r.
  - intros room_id r H. destruct (Hl _ _ H) as [(-> & -> & Ee)|[_ H']]; [by eapply words_empty_false|].
    destruct (ro_used _ _ _ I _ _ H') as [s Hs]. by exists s.
  - intros room_id stream_id id' H.
    assert (owners !! (room_id, stream_id) = Some id' /\ id' <> id) as [H' Hne].
    { unfold owners' in H. case_decide as Hk.
      - apply lookup_delete_Some in H as [Hkey H]. split; [done|]. intros ->.
        destruct (ro_owners _ _ _ I _ _ _ H) as [s Hs]. rewrite E in Hs. injection Hs as _ ->. by apply Hkey.
      - split; [done|]. intros ->. destruct (ro_owners _ _ _ I _ _ _ H) as [s Hs]. rewrite E in Hs. injection Hs as _ ->. by apply Hk. }
    destruct (ro_owners _ _ _ I _ _ _ H') as [s Hs]. exists s. by rewrite lookup_insert_ne.
Qed.

Lemma rooms_join places rooms owners id slot rt room' :
  rooms_inv places rooms owners -> places !! id = Some (slot, None) ->
  let before := default new_room (rooms !! route_room_id rt) in
  words_wf SESSION_WORDS room' -> (forall s, member room' s = member before s || bool_decide (s = slot)) ->
  rooms_inv (<[id := (slot, Some rt)]> places) (<[route_room_id rt := room']> rooms)
    (<[(route_room_id rt, route_stream_id rt) := id]> owners).
Proof.
  intros I E before Hw Hm.
  assert (forall s, member before s = true <-> in_room places (route_room_id rt) s) as Hbefore.
  { intros s. unfold before. destruct (rooms !! route_room_id rt) as [room|] eqn:Er; cbn [default].
    - by rewrite (ro_members _ _ _ I _ _ s Er).
    - split.
      + intros Hc. exfalso. assert (member new_room s = false) as Hf.
        { apply words_empty_member. done. }
        change (member new_room s = true) in Hc. congruence.
      + intros (id' & rt' & E' & Hr). destruct (ro_rooms _ _ _ I _ _ _ E') as [r Hr']. congruence. }
  constructor.
  - intros room_id r H. apply lookup_insert_Some in H as [[_ <-]|[_ H]]; [done|]. by apply (ro_words _ _ _ I) in H.
  - intros room_id r s H. rewrite in_room_joined by done. apply lookup_insert_Some in H as [[<- <-]|[Hne H]].
    + rewrite Hm, orb_true_iff, bool_decide_eq_true, Hbefore. naive_solver.
    + rewrite (ro_members _ _ _ I _ _ s H). naive_solver.
  - intros id' slot' rt' E'. apply lookup_insert_Some in E' as [[<- [= <- <-]]|[Hne E']]; [rewrite lookup_insert_eq; by eexists|].
    destruct (decide (route_room_id rt = route_room_id rt')) as [->|]; [rewrite lookup_insert_eq; by eexists|].
    rewrite lookup_insert_ne by done. by apply (ro_rooms _ _ _ I _ _ _ E').
  - intros room_id r H. apply lookup_insert_Some in H as [[_ <-]|[_ H]]; [|by apply (ro_used _ _ _ I) in H].
    exists slot. rewrite Hm, bool_decide_true by done. by rewrite orb_true_r.
  - intros room_id stream_id id' H. apply lookup_insert_Some in H as [[Hk <-]|[Hne H]].
    + exists slot. rewrite lookup_insert_eq. injection Hk as <- <-. by destruct rt.
    + destruct (ro_owners _ _ _ I _ _ _ H) as [s Hs]. exists s. rewrite lookup_insert_ne; [done|]. intros <-. congruence.
Qed.

(** ** The whole relay *)

(** Counters of some sessions' keys that are known to have been accepted: what
    an observer of the network may have captured.  The invariant says of every
    session under such keys that its window has seen the counter. *)
Class Captured := captured : MediaProtection -> Z -> Prop.

Definition nothing_captured : Captured := fun _ _ => False.

Section invariant.
Context {Rx Tx : Type} `{StreamSocket Rx} `{StreamWriter Tx} `{PrimitiveLaws} `{caught : Captured}.
Context (tries : nat).

Abbreviation relay := (VoiceRelay Rx Tx).
Abbreviation lane := (TcpVoiceConn Rx Tx).

Record conn_wf (c : lane) : Prop := {
  cw_permit : permit c = bool_decide (conn_session c = None);
  cw_read : RecvBuffer.wf (read_buf c);
  cw_patience : (patience (conn_rx c) < tries)%nat;
  cw_queue : WriteQueue.wf (write_queue c);
  cw_cap : (WriteQueue.len (write_queue c) <= VOICE_TCP_WRITE_CAP_BYTES)%nat;
  cw_backlog : WriteQueue.pending (write_queue c) = [] <-> backlog_since c = None;
}.

(** Lanes and sessions point at each other; a lane about to be detached ([p]) may
    be bound to a session that points elsewhere or is gone. *)
Record lanes_inv (p : option nat) (lanes : gmap Z (option nat)) (conns : list (option lane)) : Prop := {
  ln_length : length conns = MAX_TCP_VOICE_CONNS;
  ln_bound : forall slot c id, conns !! slot = Some (Some c) -> conn_session c = Some id -> p <> Some slot ->
    lanes !! id = Some (Some slot);
  ln_back : forall id slot, lanes !! id = Some (Some slot) -> exists c, conns !! slot = Some (Some c) /\ conn_session c = Some id;
}.

Definition has_permit (o : option lane) : bool := match o with Some c => permit c | None => false end.
Definition permits (conns : list (option lane)) : nat := length (filter (fun o => has_permit o = true) conns).
Definition is_attach (c : VoiceCommand Rx Tx) : bool := match c with AttachTcp _ _ _ _ _ => true | _ => false end.
Definition attaches (l : list (VoiceCommand Rx Tx)) : nat := length (filter (fun c => is_attach c = true) l).

Definition command_ok (c : VoiceCommand Rx Tx) : Prop :=
  match c with
  | AttachTcp rx _ _ buf _ => RecvBuffer.wf buf /\ (patience rx < tries)%nat
  | RegisterSession _ _ protection => forall c, ~ captured protection c
  | _ => True
  end.

Definition valid_bit (udp_count bit : nat) : Prop := (bit < udp_count)%nat \/ bit = PROBE_BIT.

(** The facts of one session that no table repeats. *)
Record session_ok (udp_count : nat) (s : VoiceSession) : Prop := {
  so_bind : (vs_udp_bind_index s < udp_count)%nat;
  so_counter : is_u64 (vs_send_counter s);
  so_replay : exists w, refines (vs_recv_replay s) w /\ forall c, captured (vs_protection s) c -> c ∈ Window.seen w;
}.

(** [extra] are the commands taken from the queue and not applied yet. *)
Record relay_inv (p : option nat) (extra : list (VoiceCommand Rx Tx)) (r : relay) : Prop := {
  ri_slots : slots_inv (seat <$> sessions r) (session_slots r) (route_to_session r);
  ri_rooms : rooms_inv (place <$> sessions r) (rooms r) (stream_owners r);
  ri_lanes : lanes_inv p (vs_tcp_conn <$> sessions r) (tcp_conns r);
  ri_conns : forall slot c, tcp_conns r !! slot = Some (Some c) -> conn_wf c;
  ri_reads : words_wf TCP_CONN_WORDS (tcp_read_work r);
  ri_writes : words_wf TCP_CONN_WORDS (tcp_write_work r);
  ri_held : held r = (permits (tcp_conns r) + attaches (extra ++ commands r))%nat;
  ri_cap : (held r <= MAX_PENDING_TCP_VOICE)%nat;
  ri_commands : Forall command_ok (extra ++ commands r);
  ri_udp : (0 < length (udp_rx r) <= MAX_BIND_ADDRS)%nat;
  ri_work : is_u64 (udp_work r) /\ forall bit, Z.testbit (udp_work r) (Z.of_nat bit) = true -> valid_bit (length (udp_rx r)) bit;
  ri_sessions : map_Forall (fun _ s => session_ok (length (udp_rx r)) s) (sessions r);
}.

(** Where a session is reached, and what its packets are opened with. *)
Definition contact (s : VoiceSession) : option SocketAddr * nat * MediaProtection * AntiReplay :=
  (vs_udp_addr s, vs_udp_bind_index s, vs_protection s, vs_recv_replay s).

(** What the operations on lanes and the sending leave alone. *)
Record frame (r r' : relay) : Prop := {
  fr_slots : session_slots r' = session_slots r;
  fr_routes : route_to_session r' = route_to_session r;
  fr_rooms : rooms r' = rooms r;
  fr_owners : stream_owners r' = stream_owners r;
  fr_seats : seat <$> sessions r' = seat <$> sessions r;
  fr_places : place <$> sessions r' = place <$> sessions r;
  fr_contacts : contact <$> sessions r' = contact <$> sessions r;
  fr_rx : udp_rx r' = udp_rx r;
  fr_probe : udp_probe r' = udp_probe r;
  fr_p2p : p2p_enabled r' = p2p_enabled r;
  fr_commands : commands r' = commands r;
  fr_down : shutting_down r' = shutting_down r;
}.

#[export] Instance frame_preorder : PreOrder frame.
Proof.
  split; [by constructor|]. intros a b c [] []. constructor; by etrans.
Qed.

Lemma permits_insert (conns : list (option lane)) slot old new :
  conns !! slot = Some old ->
  (permits (<[slot := new]> conns) + (if has_permit old then 1 else 0) = permits conns + (if has_permit new then 1 else 0))%nat.
Proof.
  intros E. unfold permits. rewrite insert_take_drop by (by eapply lookup_lt_Some).
  rewrite <- (take_drop_middle conns slot old E) at 3. rewrite !filter_app, !filter_cons, !length_app.
  destruct (has_permit old), (has_permit new); repeat case_decide; cbn [length]; try done; lia.
Qed.

(** A session replaced by one with the same seat and place. *)
Lemma put_same_seat {A} (f : VoiceSession -> A) (m : gmap Z VoiceSession) id s s' :
  m !! id = Some s -> f s' = f s -> f <$> <[id := s']> m = f <$> m.
Proof. intros E Ef. rewrite fmap_insert, Ef. apply insert_id. by rewrite lookup_fmap, E. Qed.

Lemma conns_bound p ex r slot : relay_inv p ex r -> (slot < MAX_TCP_VOICE_CONNS)%nat -> exists o, tcp_conns r !! slot = Some o.
Proof. intros I Hs. apply lookup_lt_is_Some_2. by rewrite (ln_length _ _ _ (ri_lanes _ _ _ I)). Qed.

Lemma conn_slot p ex r slot o : relay_inv p ex r -> tcp_conns r !! slot = Some o -> (slot < MAX_TCP_VOICE_CONNS)%nat.
Proof. intros I E. apply lookup_lt_Some in E. by rewrite (ln_length _ _ _ (ri_lanes _ _ _ I)) in E. Qed.

Lemma slot_words slot : (slot < MAX_TCP_VOICE_CONNS)%nat -> (slot < TCP_CONN_WORDS * WORD_BITS)%nat.
Proof. done. Qed.

(** *** Detaching a lane *)

Definition unpoint (slot : nat) (s : VoiceSession) : VoiceSession :=
  if decide (vs_tcp_conn s = Some slot) then set_tcp_conn None s else s.

Lemma unpoint_seat slot s : seat (unpoint slot s) = seat s.
Proof. unfold unpoint. by case_decide. Qed.
Lemma unpoint_place slot s : place (unpoint slot s) = place s.
Proof. unfold unpoint. by case_decide. Qed.
Lemma unpoint_contact slot s : contact (unpoint slot s) = contact s.
Proof. unfold unpoint. by case_decide. Qed.

Lemma detach_sessions p (ss : gmap Z VoiceSession) conns slot (c : lane) :
  lanes_inv p (vs_tcp_conn <$> ss) conns -> conns !! slot = Some (Some c) ->
  unpoint slot <$> ss =
  match conn_session c with
  | Some id => match ss !! id with
               | Some s => if decide (vs_tcp_conn s = Some slot) then <[id := set_tcp_conn None s]> ss else ss
               | None => ss
               end
  | None => ss
  end.
Proof.
  intros L E.
  assert (forall id s, ss !! id = Some s -> vs_tcp_conn s = Some slot -> conn_session c = Some id) as Hown.
  { intros id s Es Ht. destruct (ln_back _ _ _ L id slot) as (c' & Ec & Hc); [by rewrite lookup_fmap, Es, <- Ht|]. congruence. }
  apply map_eq. intros id. rewrite lookup_fmap. destruct (ss !! id) as [s|] eqn:Es; cbn [fmap option_fmap option_map].
  - unfold unpoint. destruct (decide (vs_tcp_conn s = Some slot)) as [Ht|Ht].
    + rewrite (Hown _ _ Es Ht), Es. rewrite (decide_True (P := vs_tcp_conn s = Some slot)) by done. by rewrite lookup_insert_eq.
    + destruct (conn_session c) as [id'|]; [|done]. destruct (ss !! id') as [s'|] eqn:Es'; [|done].
      destruct (decide (vs_tcp_conn s' = Some slot)); [|done]. rewrite lookup_insert_ne; [done|]. intros ->. congruence.
  - destruct (conn_session c) as [id'|]; [|done]. destruct (ss !! id') as [s'|] eqn:Es'; [|done].
    destruct (decide (vs_tcp_conn s' = Some slot)); [|done]. rewrite lookup_insert_ne; [done|]. intros ->. congruence.
Qed.

Lemma lanes_detach p (ss : gmap Z VoiceSession) (conns : list (option lane)) slot :
  (p = None \/ p = Some slot) -> lanes_inv p (vs_tcp_conn <$> ss) conns ->
  lanes_inv None (vs_tcp_conn <$> (unpoint slot <$> ss)) (<[slot := None]> conns).
Proof.
  intros Hp L.
  assert (forall id k, (vs_tcp_conn <$> (unpoint slot <$> ss)) !! id = Some (Some k) <->
    (vs_tcp_conn <$> ss) !! id = Some (Some k) /\ k <> slot) as Hl.
  { intros id k. rewrite !lookup_fmap. destruct (ss !! id) as [s|]; cbn; [|by split; [|intros []]].
    unfold unpoint. destruct (decide (vs_tcp_conn s = Some slot)) as [Hc|Hc]; cbn.
    - rewrite Hc. split; [done|]. intros [[= ->] ?]. done.
    - split; [|by intros []]. intros [= E]. rewrite E in *. split; [done|]. by intros ->. }
  constructor.
  - rewrite length_insert. apply L.
  - intros k c id E Hc _. apply list_lookup_insert_Some in E as [(_ & [=] & _)|[Hne E]]. apply Hl. split; [|done].
    apply (ln_bound _ _ _ L k c id E Hc). destruct Hp as [-> | ->]; congruence.
  - intros id k E. apply Hl in E as [E Hne]. destruct (ln_back _ _ _ L _ _ E) as (c & Ec & Hc). exists c.
    by rewrite list_lookup_insert_ne.
Qed.

Lemma relay_inv_full slot ex r :
  tcp_conns r !! slot = Some None -> relay_inv (Some slot) ex r -> relay_inv None ex r.
Proof.
  intros E []. constructor; try done. destruct ri_lanes0 as [L1 L2 L3]. constructor; [done| |done].
  intros k c id Ek Hc _. apply (L2 k c id Ek Hc). intros [= ->]. congruence.
Qed.

(** The relay with a lane gone: its slot empty, the session that used it back on
    UDP, its work bits cleared, and its permit released if it had one. *)
Definition without_lane (slot : nat) (reads writes : list Z) (h : nat) (r : relay) : relay :=
  set_held h (set_sessions (unpoint slot <$> sessions r) (set_tcp_write_work writes (set_tcp_read_work reads (put_conn slot None r)))).

Lemma set_sessions_same (r : relay) : set_sessions (sessions r) r = r.
Proof. by destruct r. Qed.
Lemma set_held_same (r : relay) : set_held (held r) r = r.
Proof. by destruct r. Qed.

Lemma detach_eq p ex slot r c :
  relay_inv p ex r -> tcp_conns r !! slot = Some (Some c) ->
  exists reads writes, words_wf TCP_CONN_WORDS reads /\ words_wf TCP_CONN_WORDS writes /\
    detach_tcp_conn slot r = Some (without_lane slot reads writes (held r - if permit c then 1 else 0)%nat r).
Proof.
  intros I E. pose proof (conn_slot _ _ _ _ _ I E) as Hs. unfold detach_tcp_conn. rewrite E. cbn [mbind option_bind].
  destruct (clear_slot_bit_ok _ _ _ (ri_reads _ _ _ I) (slot_words _ Hs)) as (reads & Er & Wr & _).
  destruct (clear_slot_bit_ok _ _ _ (ri_writes _ _ _ I) (slot_words _ Hs)) as (writes & Ew & Ww & _).
  exists reads, writes. split; [done|]. split; [done|]. cbn [put_conn set_tcp_conns tcp_read_work tcp_write_work].
  rewrite Er. cbn [mbind option_bind]. rewrite Ew. cbn [mbind option_bind]. f_equal.
  unfold without_lane. rewrite (detach_sessions p (sessions r) (tcp_conns r) slot c (ri_lanes _ _ _ I) E).
  set (r1 := set_tcp_write_work writes (set_tcp_read_work reads _)).
  change (sessions r) with (sessions r1).
  assert (forall x : relay, held x = held r -> release (permit c) x = set_held (held r - if permit c then 1 else 0)%nat x) as Hrel.
  { intros x Hx. unfold release. destruct (permit c); rewrite <- Hx; [done|]. by rewrite Nat.sub_0_r, set_held_same. }
  rewrite Hrel by (repeat case_match; done). f_equal.
  destruct (conn_session c) as [id|]; [|by rewrite set_sessions_same].
  destruct (sessions r1 !! id) as [s|]; [|by rewrite set_sessions_same].
  case_decide; [done|by rewrite set_sessions_same].
Qed.

Lemma unpoint_seats slot (ss : gmap Z VoiceSession) : seat <$> (unpoint slot <$> ss) = seat <$> ss.
Proof. rewrite <- map_fmap_compose. apply map_fmap_ext. intros i s _. apply unpoint_seat. Qed.
Lemma unpoint_places slot (ss : gmap Z VoiceSession) : place <$> (unpoint slot <$> ss) = place <$> ss.
Proof. rewrite <- map_fmap_compose. apply map_fmap_ext. intros i s _. apply unpoint_place. Qed.

Lemma unpoint_contacts slot (ss : gmap Z VoiceSession) : contact <$> (unpoint slot <$> ss) = contact <$> ss.
Proof. rewrite <- map_fmap_compose. apply map_fmap_ext. intros i s _. apply unpoint_contact. Qed.

Lemma detach_ok p ex slot r :
  (p = None \/ p = Some slot) -> relay_inv p ex r -> (slot < MAX_TCP_VOICE_CONNS)%nat ->
  exists r', detach_tcp_conn slot r = Some r' /\ relay_inv None ex r' /\ frame r r' /\ udp_sent r' = udp_sent r /\
    tcp_conns r' = <[slot := None]> (tcp_conns r) /\ sessions r' = unpoint slot <$> sessions r.
Proof.
  intros Hp I Hs. destruct (conns_bound _ _ _ _ I Hs) as [[c|] E].
  - destruct (detach_eq _ _ _ _ _ I E) as (reads & writes & Wr & Ww & ->). eexists. split; [done|].
    unfold without_lane. cbn [set_held set_sessions set_tcp_write_work set_tcp_read_work put_conn set_tcp_conns
      sessions tcp_conns udp_sent].
    split; [|split; [|done]].
    + destruct I as [I1 I2 I3 I4 I5 I6 I7 I8 I9 I10 I11 I12].
      constructor; cbn [set_held set_sessions set_tcp_write_work set_tcp_read_work put_conn set_tcp_conns
        sessions session_slots route_to_session rooms stream_owners tcp_conns tcp_read_work tcp_write_work held commands udp_rx udp_work];
        rewrite ?unpoint_seats, ?unpoint_places; try done.
      * by apply lanes_detach with p.
      * intros k c' Ek. apply list_lookup_insert_Some in Ek as [(_ & [=] & _)|[_ Ek]]. by apply I4 in Ek.
      * pose proof (permits_insert _ slot (Some c) None E) as Hperm. cbn [has_permit] in Hperm. destruct (permit c); lia.
      * lia.
      * intros id s Es. rewrite lookup_fmap in Es. destruct (sessions r !! id) as [s0|] eqn:Es0; [|done]. injection Es as <-.
        specialize (I12 id s0 Es0). destruct I12 as [? ? ?]. unfold unpoint. by case_decide; constructor.
    + constructor; cbn; rewrite ?unpoint_seats, ?unpoint_places, ?unpoint_contacts; done.
  - exists r. split; [unfold detach_tcp_conn; rewrite E; done|].
    assert (relay_inv None ex r) as I' by (destruct Hp as [-> | ->]; [done|by eapply relay_inv_full]).
    split; [done|]. split; [reflexivity|]. split; [done|]. split; [by rewrite list_insert_id|].
    symmetry. etrans; [|apply map_fmap_id]. apply map_fmap_ext. intros id s Es. unfold unpoint. case_decide as Hc; [|done].
    destruct (ln_back _ _ _ (ri_lanes _ _ _ I') id slot) as (c & Ec & _); [by rewrite lookup_fmap, Es, <- Hc|]. congruence.
Qed.

(** *** Small updates *)

Lemma put_session_inv p ex r id s s' :
  relay_inv p ex r -> sessions r !! id = Some s -> seat s' = seat s -> place s' = place s -> vs_tcp_conn s' = vs_tcp_conn s ->
  session_ok (length (udp_rx r)) s' ->
  relay_inv p ex (put_session id s' r) /\ (contact s' = contact s -> frame r (put_session id s' r)).
Proof.
  intros I E E1 E2 E3 Hok. split.
  - destruct I as [I1 I2 I3 I4 I5 I6 I7 I8 I9 I10 I11 I12].
    constructor; cbn [put_session set_sessions sessions session_slots route_to_session rooms stream_owners tcp_conns
      tcp_read_work tcp_write_work held commands udp_rx udp_work]; try done.
    + by rewrite (put_same_seat seat _ _ s).
    + by rewrite (put_same_seat place _ _ s).
    + by rewrite (put_same_seat vs_tcp_conn _ _ s).
    + by apply map_Forall_insert_2.
  - intros E4. constructor; cbn [put_session set_sessions sessions]; try done; by apply (put_same_seat _ _ _ s).
Qed.

Lemma put_conn_inv p ex r slot c c' :
  relay_inv p ex r -> tcp_conns r !! slot = Some (Some c) -> conn_session c' = conn_session c -> permit c' = permit c -> conn_wf c' ->
  relay_inv p ex (put_conn slot (Some c') r).
Proof.
  intros I E E1 E2 Hok. destruct I as [I1 I2 I3 I4 I5 I6 I7 I8 I9 I10 I11 I12].
  constructor; cbn [put_conn set_tcp_conns sessions session_slots route_to_session rooms stream_owners tcp_conns
    tcp_read_work tcp_write_work held commands udp_rx udp_work]; try done.
  - destruct I3 as [L1 L2 L3]. constructor; [by rewrite length_insert| |].
    + intros k x id Ek Hx Hp. apply list_lookup_insert_Some in Ek as [(-> & [= ->] & _)|[_ Ek]]; [|by apply (L2 k x)].
      apply (L2 k c); [done|congruence|done].
    + intros id k Ek. destruct (L3 _ _ Ek) as (x & Ex & Hx). destruct (decide (slot = k)) as [->|Hne].
      * exists c'. rewrite list_lookup_insert_eq by (by eapply lookup_lt_Some). split; [done|congruence].
      * exists x. by rewrite list_lookup_insert_ne.
  - intros k x Ek. apply list_lookup_insert_Some in Ek as [(-> & [= ->] & _)|[_ Ek]]; [done|by apply (I4 k)].
  - pose proof (permits_insert _ slot (Some c) (Some c') E) as Hperm. cbn [has_permit] in Hperm. rewrite E2 in Hperm. destruct (permit c); lia.
Qed.

Lemma put_conn_frame r slot (o : option lane) : frame r (put_conn slot o r).
Proof. by constructor. Qed.

Lemma set_reads_inv p ex r words : words_wf TCP_CONN_WORDS words -> relay_inv p ex r -> relay_inv p ex (set_tcp_read_work words r).
Proof. intros W []. by constructor. Qed.
Lemma set_writes_inv p ex r words : words_wf TCP_CONN_WORDS words -> relay_inv p ex r -> relay_inv p ex (set_tcp_write_work words r).
Proof. intros W []. by constructor. Qed.

(** Marking a lane as having work. *)
Lemma mark_read_ok p ex r slot :
  relay_inv p ex r -> (slot < MAX_TCP_VOICE_CONNS)%nat ->
  exists words, set_slot_bit (tcp_read_work r) slot = Some words /\ relay_inv p ex (set_tcp_read_work words r).
Proof.
  intros I Hs. destruct (set_slot_bit_ok _ _ _ (ri_reads _ _ _ I) (slot_words _ Hs)) as (words & -> & W & _).
  exists words. split; [done|]. by apply set_reads_inv.
Qed.
Lemma mark_write_ok p ex r slot :
  relay_inv p ex r -> (slot < MAX_TCP_VOICE_CONNS)%nat ->
  exists words, set_slot_bit (tcp_write_work r) slot = Some words /\ relay_inv p ex (set_tcp_write_work words r).
Proof.
  intros I Hs. destruct (set_slot_bit_ok _ _ _ (ri_writes _ _ _ I) (slot_words _ Hs)) as (words & -> & W & _).
  exists words. split; [done|]. by apply set_writes_inv.
Qed.

(** *** Routes *)

Lemma places_distinct p ex r : relay_inv p ex r -> slots_distinct (place <$> sessions r).
Proof.
  intros I a b ka kb Ea Eb Hk. rewrite lookup_fmap in Ea, Eb.
  destruct (sessions r !! a) as [sa|] eqn:Sa; [|done]. destruct (sessions r !! b) as [sb|] eqn:Sb; [|done].
  injection Ea as <-. injection Eb as <-.
  apply (seat_inj _ _ _ a b (seat sa) (seat sb) (ri_slots _ _ _ I)); rewrite ?lookup_fmap, ?Sa, ?Sb; done.
Qed.

Lemma session_slot p ex r id s : relay_inv p ex r -> sessions r !! id = Some s -> (vs_slot s < MAX_SESSIONS)%nat.
Proof. intros I E. apply (seat_bound _ _ _ id (seat s) (ri_slots _ _ _ I)). by rewrite lookup_fmap, E. Qed.

(** Replacing the route of a session, once the rooms agree with the new one. *)
Lemma reroute_inv p ex (r r1 : relay) id s route :
  relay_inv p ex r -> sessions r !! id = Some s ->
  rooms_inv (<[id := (vs_slot s, route)]> (place <$> sessions r)) (rooms r1) (stream_owners r1) ->
  r1 = set_stream_owners (stream_owners r1) (set_rooms (rooms r1) (put_session id (set_route_of route s) r)) ->
  relay_inv p ex r1.
Proof.
  intros I E Hr E1. destruct I as [I1 I2 I3 I4 I5 I6 I7 I8 I9 I10 I11 I12]. rewrite E1.
  constructor; cbn [set_stream_owners set_rooms put_session set_sessions sessions session_slots route_to_session rooms stream_owners tcp_conns
    tcp_read_work tcp_write_work held commands udp_rx udp_work]; try done.
  - by rewrite (put_same_seat seat _ _ s).
  - rewrite fmap_insert. exact Hr.
  - by rewrite (put_same_seat vs_tcp_conn _ _ s).
  - apply map_Forall_insert_2; [|done]. destruct (I12 id s E). by constructor.
Qed.

Lemma leave_room_ok p ex r id s old :
  relay_inv p ex r -> sessions r !! id = Some s -> vs_route s = Some old ->
  exists rooms' owners', leave_room id (vs_slot s) old r = Some (set_stream_owners owners' (set_rooms rooms' r)) /\
    rooms_inv (<[id := (vs_slot s, None)]> (place <$> sessions r)) rooms' owners'.
Proof.
  intros I E Eo. pose proof (session_slot _ _ _ _ _ I E) as Hs.
  assert ((place <$> sessions r) !! id = Some (vs_slot s, Some old)) as Ep by (rewrite lookup_fmap, E; cbn; unfold place; by rewrite Eo).
  destruct (ro_rooms _ _ _ (ri_rooms _ _ _ I) _ _ _ Ep) as [room Er].
  destruct (clear_slot_bit_ok _ _ (vs_slot s) (ro_words _ _ _ (ri_rooms _ _ _ I) _ _ Er) Hs) as (room' & Ec & Ww & Hm).
  pose proof (rooms_leave _ _ _ _ _ _ _ _ (ri_rooms _ _ _ I) (places_distinct _ _ _ I) Ep Er Ww Hm) as Hr. cbn zeta in Hr.
  eexists _, _. split; [|exact Hr]. unfold leave_room. rewrite Er. cbn [mbind option_bind]. rewrite Ec. cbn [mbind option_bind].
  cbn [set_rooms stream_owners]. f_equal. destruct r. case_decide; destruct (words_empty room'); done.
Qed.

Lemma join_room_ok places r id slot route :
  rooms_inv places (rooms r) (stream_owners r) -> places !! id = Some (slot, None) -> (slot < MAX_SESSIONS)%nat ->
  exists rooms' owners', join_room (Rx := Rx) (Tx := Tx) id slot route r = Some (set_stream_owners owners' (set_rooms rooms' r)) /\
    rooms_inv (<[id := (slot, Some route)]> places) rooms' owners'.
Proof.
  intros I E Hs. assert (words_wf SESSION_WORDS (default new_room (rooms r !! route_room_id route))) as W.
  { destruct (rooms r !! route_room_id route) as [room|] eqn:Er; cbn [default]; [by apply (ro_words _ _ _ I) in Er|].
    split; [done|]. apply Forall_replicate. by split. }
  destruct (set_slot_bit_ok _ _ slot W Hs) as (room' & Ec & Ww & Hm). unfold join_room. rewrite Ec. cbn [mbind option_bind].
  eexists _, _. split; [done|]. by apply rooms_join.
Qed.

Lemma alter_insert_eq (f : VoiceSession -> VoiceSession) (m : gmap Z VoiceSession) id s :
  m !! id = Some s -> alter f id m = <[id := f s]> m.
Proof.
  intros E. apply map_eq. intros j. destruct (decide (id = j)) as [<-|Hne].
  - by rewrite lookup_alter_eq, lookup_insert_eq, E.
  - by rewrite lookup_alter_ne, lookup_insert_ne.
Qed.

Lemma set_route_ok p ex r id route :
  relay_inv p ex r ->
  exists owners' rooms', set_route id route r =
    Some (set_stream_owners owners' (set_rooms rooms' (set_sessions (alter (set_route_of route) id (sessions r)) r))) /\
    relay_inv p ex (set_stream_owners owners' (set_rooms rooms' (set_sessions (alter (set_route_of route) id (sessions r)) r))).
Proof.
  intros I. unfold set_route. destruct (sessions r !! id) as [s|] eqn:E.
  2:{ exists (stream_owners r), (rooms r). assert (alter (set_route_of route) id (sessions r) = sessions r) as ->.
      { apply map_eq. intros j. destruct (decide (id = j)) as [<-|]; [by rewrite lookup_alter_eq, E|by rewrite lookup_alter_ne]. }
      assert (set_stream_owners (stream_owners r) (set_rooms (rooms r) (set_sessions (sessions r) r)) = r) as -> by (by destruct r). done. }
  rewrite (alter_insert_eq _ _ _ _ E). case_decide as Hsame.
  - exists (stream_owners r), (rooms r). subst route. assert (set_route_of (vs_route s) s = s) as -> by (by destruct s).
    rewrite insert_id by done.
    assert (set_stream_owners (stream_owners r) (set_rooms (rooms r) (set_sessions (sessions r) r)) = r) as -> by (by destruct r). done.
  - assert (exists owners1 rooms1,
      match vs_route s with Some old => leave_room id (vs_slot s) old r | None => Some r end =
        Some (set_stream_owners owners1 (set_rooms rooms1 r)) /\
      rooms_inv (<[id := (vs_slot s, None)]> (place <$> sessions r)) rooms1 owners1) as (owners1 & rooms1 & -> & R1).
    { destruct (vs_route s) as [old|] eqn:Eo.
      - destruct (leave_room_ok _ _ _ _ _ _ I E Eo) as (rooms1 & owners1 & -> & R1). by exists owners1, rooms1.
      - exists (stream_owners r), (rooms r). split; [by destruct r|]. rewrite insert_id; [apply I|].
        rewrite lookup_fmap, E. cbn. unfold place. by rewrite Eo. }
    cbn [mbind option_bind]. destruct route as [rt|].
    + destruct (join_room_ok (<[id := (vs_slot s, None)]> (place <$> sessions r))
        (put_session id (set_route_of (Some rt) s) (set_stream_owners owners1 (set_rooms rooms1 r))) id (vs_slot s) rt)
        as (rooms2 & owners2 & -> & R2); [exact R1|by rewrite lookup_insert_eq|by eapply session_slot|].
      exists owners2, rooms2. split; [done|]. rewrite insert_insert_eq in R2. by apply (reroute_inv p ex r _ id s (Some rt)).
    + exists owners1, rooms1. split; [done|]. by apply (reroute_inv p ex r _ id s None).
Qed.

(** *** Sessions *)

Lemma rooms_forget places rooms owners id slot :
  rooms_inv places rooms owners -> places !! id = Some (slot, None) -> rooms_inv (delete id places) rooms owners.
Proof.
  intros I E.
  assert (forall room_id s, in_room (delete id places) room_id s <-> in_room places room_id s) as Hin.
  { intros room_id s. split; intros (id' & rt & E' & Hr); exists id', rt; (split; [|done]).
    - by apply lookup_delete_Some in E' as [_ E'].
    - rewrite lookup_delete_ne; [done|]. intros ->. congruence. }
  constructor.
  - apply I.
  - intros. rewrite Hin. by apply I.
  - intros id' s rt E'. apply lookup_delete_Some in E' as [_ E']. by eapply I.
  - apply I.
  - intros room_id stream_id id' E'. destruct (ro_owners _ _ _ I _ _ _ E') as [s Es]. exists s.
    rewrite lookup_delete_ne; [done|]. intros ->. congruence.
Qed.

Lemma lanes_forget lanes (conns : list (option lane)) id t :
  lanes_inv None lanes conns -> lanes !! id = Some t -> lanes_inv t (delete id lanes) conns.
Proof.
  intros [L1 L2 L3] E. constructor; [done| |].
  - intros slot c id' Ec Hc Hp. pose proof (L2 _ _ _ Ec Hc ltac:(done)) as El. rewrite lookup_delete_ne; [done|]. intros ->. congruence.
  - intros id' slot El. apply lookup_delete_Some in El as [_ El]. by apply L3.
Qed.

(** The queue of commands and the sockets are the same. *)
Definition same_env (r r' : relay) : Prop := commands r' = commands r /\ udp_rx r' = udp_rx r.

Lemma remove_session_ok ex r id :
  relay_inv None ex r -> exists r', remove_session id r = Some r' /\ relay_inv None ex r' /\ sessions r' !! id = None /\
    (forall rid, route_to_session r' !! rid = None \/ route_to_session r' !! rid = route_to_session r !! rid) /\ same_env r r'.
Proof.
  intros I. unfold remove_session.
  destruct (set_route_ok None ex r id None I) as (owners & rooms' & -> & I1). cbn [mbind option_bind].
  set (r1 := set_stream_owners owners _) in *.
  assert (same_env r r1) as Henv by done. assert (route_to_session r1 = route_to_session r) as Hrt by done.
  assert (sessions r1 = alter (set_route_of None) id (sessions r)) as Hss by done. clearbody r1. rewrite <- Hrt. clear Hrt.
  destruct (sessions r !! id) as [s|] eqn:E.
  2:{ assert (sessions r1 !! id = None) as E1 by (by rewrite Hss, lookup_alter_eq, E).
      rewrite E1. exists r1. split; [done|]. split; [done|]. split; [done|]. split; [by right|done]. }
  assert (sessions r1 !! id = Some (set_route_of None s)) as E1 by (by rewrite Hss, lookup_alter_eq, E).
  rewrite E1. set (s1 := set_route_of None s) in *.
  pose proof (session_slot _ _ _ _ _ I1 E1) as Hslot. pose proof (sl_length _ _ _ (ri_slots _ _ _ I1)) as Hlen.
  unfold assign. cbn [session_slots set_sessions]. rewrite decide_True by (rewrite Hlen; exact Hslot). cbn [mbind option_bind].
  set (r2 := set_route_to_session _ _).
  assert (relay_inv (vs_tcp_conn s1) ex r2) as I2.
  { destruct I1 as [J1 J2 J3 J4 J5 J6 J7 J8 J9 J10 J11 J12]. constructor; try done.
    - cbn. rewrite fmap_delete. apply (slots_remove _ _ _ id (seat s1) J1). by rewrite lookup_fmap, E1.
    - cbn. rewrite fmap_delete. apply (rooms_forget _ _ _ _ (vs_slot s) J2). rewrite lookup_fmap, E1. done.
    - cbn. rewrite fmap_delete. apply lanes_forget; [done|]. by rewrite lookup_fmap, E1.
    - cbn. intros id' s' E'. apply lookup_delete_Some in E' as [_ E']. by apply J12 in E'. }
  assert (sessions r2 !! id = None) as Hgone by (cbn; by rewrite lookup_delete_eq).
  assert (forall rid, route_to_session r2 !! rid = None \/ route_to_session r2 !! rid = route_to_session r1 !! rid) as Hroute.
  { intros rid. cbn. destruct (decide (MediaProtection.route_id (vs_protection s1) = rid)) as [<-|Hne].
    - left. by rewrite lookup_delete_eq.
    - right. by rewrite lookup_delete_ne. }
  destruct (vs_tcp_conn s1) as [slot|] eqn:Et.
  - destruct (ln_back _ _ _ (ri_lanes _ _ _ I1) id slot) as (c & Ec & _); [by rewrite lookup_fmap, E1, <- Et|].
    destruct (detach_ok (Some slot) ex slot r2 ltac:(by right) I2 (conn_slot _ _ _ _ _ I1 Ec)) as (r3 & -> & I3 & F & _ & _ & Hs).
    exists r3. split; [done|]. split; [done|]. rewrite Hs, lookup_fmap, Hgone. split; [done|]. rewrite (fr_routes _ _ F).
    split; [exact Hroute|]. destruct Henv. split; [by rewrite (fr_commands _ _ F)|by rewrite (fr_rx _ _ F)].
  - exists r2. split; [done|]. split; [done|]. split; [done|]. split; [exact Hroute|done].
Qed.

Lemma register_session_ok ex r now id user protection :
  relay_inv None ex r -> (forall c, ~ captured protection c) -> exists r', register_session now id user protection r = Some r' /\ relay_inv None ex r' /\ same_env r r'.
Proof.
  intros I Hnew. unfold register_session. set (rid := MediaProtection.route_id protection).
  destruct (match route_to_session r !! rid with Some existing => bool_decide (existing <> id) | None => false end) eqn:Ecol; [by exists r|].
  assert (exists r1, match sessions r !! id with Some _ => remove_session id r | None => Some r end = Some r1 /\
    relay_inv None ex r1 /\ sessions r1 !! id = None /\ route_to_session r1 !! rid = None /\ same_env r r1)
    as (r1 & -> & I1 & Hid & Hrid & Hcmd).
  { destruct (sessions r !! id) as [s|] eqn:E.
    - destruct (remove_session_ok ex r id I) as (r1 & -> & I1 & Hid & Hr & Hc). exists r1. split_and!; try done.
      destruct (Hr rid) as [Hn|Hn]; [done|]. rewrite Hn. destruct (route_to_session r !! rid) as [x|] eqn:Ex; [|done].
      apply bool_decide_eq_false, dec_stable in Ecol as ->. destruct (sl_known _ _ _ (ri_slots _ _ _ I1) rid id Hn) as [k Ek].
      by rewrite lookup_fmap, Hid in Ek.
    - exists r. split_and!; try done. destruct (route_to_session r !! rid) as [x|] eqn:Ex; [|done].
      apply bool_decide_eq_false, dec_stable in Ecol as ->. destruct (sl_known _ _ _ (ri_slots _ _ _ I) rid id Ex) as [k Ek].
      by rewrite lookup_fmap, E in Ek. }
  cbn [mbind option_bind]. pose proof (first_free_spec (session_slots r1)) as Hfree.
  destruct (first_free (session_slots r1)) as [slot|]; [|by exists r1]. eexists. split; [done|]. split; [|done].
  destruct I1 as [J1 J2 J3 J4 J5 J6 J7 J8 J9 J10 J11 J12].
  constructor; cbn [put_session set_sessions set_route_to_session set_session_slots sessions session_slots route_to_session rooms stream_owners
    tcp_conns tcp_read_work tcp_write_work held commands udp_rx udp_work]; try done; rewrite ?fmap_insert.
  - apply slots_add; [done|by rewrite lookup_fmap, Hid|done|done].
  - assert ((place <$> sessions r1) !! id = None) as Hp by (by rewrite lookup_fmap, Hid).
    assert (forall room_id k, in_room (<[id := place (new_session now slot user protection)]> (place <$> sessions r1)) room_id k <->
      in_room (place <$> sessions r1) room_id k) as Hin.
    { intros room_id k. split; intros (id' & rt & E' & Hr); exists id', rt; (split; [|done]).
      - by apply lookup_insert_Some in E' as [[_ [=]]|[_ E']].
      - rewrite lookup_insert_ne; [done|]. intros ->. congruence. }
    destruct J2 as [R1 R2 R3 R4 R5]. constructor; [done| | |done|].
    + intros. rewrite Hin. by apply R2.
    + intros id' k rt E'. apply lookup_insert_Some in E' as [[_ [=]]|[_ E']]. by eapply R3.
    + intros room_id stream_id id' E'. destruct (R5 _ _ _ E') as [k Ek]. exists k. rewrite lookup_insert_ne; [done|]. intros ->. congruence.
  - destruct J3 as [L1 L2 L3]. constructor; [done| |].
    + intros k c id' Ec Hc Hp. pose proof (L2 _ _ _ Ec Hc Hp) as El. rewrite lookup_insert_ne; [done|]. intros ->.
      by rewrite lookup_fmap, Hid in El.
    + intros id' k E'. apply lookup_insert_Some in E' as [[_ [=]]|[_ E']]. by apply L3.
  - apply map_Forall_insert_2; [|done]. constructor; cbn; [lia|by split|]. eexists. split; [apply refines_new|]. intros c Hc. by destruct (Hnew c).
Qed.

Lemma attaches_cons c l : attaches (c :: l) = ((if is_attach c then 1 else 0) + attaches l)%nat.
Proof. unfold attaches. rewrite filter_cons. destruct (is_attach c); case_decide; done. Qed.

Lemma attach_ok ex r now rx tx addr buf registered :
  relay_inv None (AttachTcp rx tx addr buf registered :: ex) r ->
  exists r', attach_tcp_conn now rx tx addr buf registered r = Some r' /\ relay_inv None ex r' /\ same_env r r'.
Proof.
  intros I. pose proof I as [I1 I2 I3 I4 I5 I6 I7 I8 I9 I10 I11 I12]. cbn [app] in I7, I9. rewrite attaches_cons in I7. cbn [is_attach] in I7.
  apply Forall_cons in I9 as [[Hbuf Hpat] I9].
  assert (relay_inv None ex (release true r)) as Irel.
  { constructor; cbn [release set_held sessions session_slots route_to_session rooms stream_owners tcp_conns
      tcp_read_work tcp_write_work held commands udp_rx udp_work]; (done || lia). }
  unfold attach_tcp_conn. pose proof (first_free_spec (tcp_conns r)) as Hfree.
  destruct (first_free (tcp_conns r)) as [slot|]; [|by exists (release true r)]. destruct registered; cbn [negb]; [|by exists (release true r)].
  set (c := mkConn rx tx _ _ _ _ _ _ _ _ _).
  assert (relay_inv None ex (put_conn slot (Some c) r)) as I'.
  { constructor; cbn [put_conn set_tcp_conns sessions session_slots route_to_session rooms stream_owners tcp_conns
      tcp_read_work tcp_write_work held commands udp_rx udp_work]; try done.
    - destruct I3 as [L1 L2 L3]. constructor; [by rewrite length_insert| |].
      + intros k x id Ek Hx Hp. apply list_lookup_insert_Some in Ek as [(-> & Heq & _)|[_ Ek]]; [|by apply (L2 k x)].
        assert (x = c) as -> by congruence. cbn in Hx. discriminate.
      + intros id k Ek. destruct (L3 _ _ Ek) as (x & Ex & Hx). exists x. rewrite list_lookup_insert_ne; [done|]. intros ->. congruence.
    - intros k x Ek. apply list_lookup_insert_Some in Ek as [(-> & Heq & _)|[_ Ek]]; [|by apply (I4 k)].
      assert (x = c) as -> by congruence. constructor; [done|exact Hbuf|exact Hpat|apply Nat.le_0_l|apply Nat.le_0_l|done].
    - pose proof (permits_insert _ slot None (Some c) Hfree) as Hperm. cbn [has_permit permit c] in Hperm. lia. }
  destruct (mark_read_ok _ _ _ slot I' (conn_slot _ _ _ _ _ I Hfree)) as (words & -> & I''). cbn [mbind option_bind].
  eexists. split; [done|]. split; [done|]. done.
Qed.

(** *** Binding a lane to a session *)

Lemma bind_inv ex r slot id c s :
  relay_inv None ex r -> tcp_conns r !! slot = Some (Some c) -> conn_session c = None -> sessions r !! id = Some s ->
  let r1 := release (permit c) (put_conn slot (Some (set_bound id c)) r) in
  relay_inv (vs_tcp_conn s) ex (put_session id (set_tcp_conn (Some slot) s) r1).
Proof.
  intros I Ec Hc Es r1. pose proof I as [I1 I2 I3 I4 I5 I6 I7 I8 I9 I10 I11 I12]. pose proof (I4 _ _ Ec) as Wc.
  assert (permit c = true) as Hp by (rewrite (cw_permit _ Wc), Hc; done).
  pose proof (permits_insert _ slot (Some c) (Some (set_bound id c)) Ec) as Hperm. cbn [has_permit set_bound permit] in Hperm. rewrite Hp in Hperm.
  unfold r1, release. rewrite Hp.
  constructor; cbn [put_session put_conn set_held set_sessions set_tcp_conns sessions session_slots route_to_session rooms stream_owners tcp_conns
    tcp_read_work tcp_write_work held commands udp_rx udp_work]; try done.
  - by rewrite (put_same_seat seat _ _ s).
  - by rewrite (put_same_seat place _ _ s).
  - rewrite fmap_insert. destruct I3 as [L1 L2 L3]. constructor; [by rewrite length_insert| |].
    + intros k x id' Ek Hx Hk. apply list_lookup_insert_Some in Ek as [(<- & [= <-] & _)|[Hne Ek]].
      * cbn in Hx. injection Hx as <-. by rewrite lookup_insert_eq.
      * pose proof (L2 k x id' Ek Hx ltac:(done)) as El. rewrite lookup_insert_ne; [done|]. intros ->.
        rewrite lookup_fmap, Es in El. injection El as El. congruence.
    + intros id' k E'. apply lookup_insert_Some in E' as [[<- [= <-]]|[Hne E']].
      * exists (set_bound id c). rewrite list_lookup_insert_eq by (by eapply lookup_lt_Some). done.
      * destruct (L3 _ _ E') as (x & Ex & Hx). exists x. rewrite list_lookup_insert_ne; [done|]. intros <-. congruence.
  - intros k x Ek. apply list_lookup_insert_Some in Ek as [(<- & [= <-] & _)|[_ Ek]]; [|by apply (I4 k)]. destruct Wc. by constructor.
  - lia.
  - lia.
  - apply map_Forall_insert_2; [|done]. destruct (I12 _ _ Es). by constructor.
Qed.

Lemma bind_frame r slot id c s :
  tcp_conns r !! slot = Some (Some c) -> sessions r !! id = Some s ->
  frame r (put_session id (set_tcp_conn (Some slot) s) (release (permit c) (put_conn slot (Some (set_bound id c)) r))).
Proof.
  intros Ec Es. unfold release. destruct (permit c); constructor; cbn; try done; by apply (put_same_seat _ _ _ s).
Qed.

Lemma bind_ok ex r slot id :
  relay_inv None ex r -> (slot < MAX_TCP_VOICE_CONNS)%nat -> is_Some (sessions r !! id) ->
  exists r', bind_tcp_conn slot id r = Some r' /\ relay_inv None ex r' /\ frame r r' /\ udp_sent r' = udp_sent r.
Proof.
  intros I Hs [s Es]. unfold bind_tcp_conn. destruct (conns_bound _ _ _ _ I Hs) as [[c|] Ec]; rewrite Ec; cbn [mbind option_bind];
    [|exists r; by split_and!; try done].
  destruct (conn_session c) as [b|] eqn:Hc; [exists r; by split_and!; try done|].
  pose proof (bind_inv ex r slot id c s I Ec Hc Es) as I1. pose proof (bind_frame r slot id c s Ec Es) as F1. cbn zeta in I1.
  set (r1 := release (permit c) (put_conn slot (Some (set_bound id c)) r)) in *.
  assert (sessions r1 !! id = Some s) as Es1 by (unfold r1, release; by destruct (permit c)).
  assert (udp_sent r1 = udp_sent r) as Hsent by (unfold r1, release; by destruct (permit c)).
  clearbody r1. rewrite Es1. destruct (vs_tcp_conn s) as [previous|] eqn:Et.
  - destruct (ln_back _ _ _ (ri_lanes _ _ _ I) id previous) as (c' & Ec' & Hc'); [by rewrite lookup_fmap, Es, <- Et|].
    rewrite decide_True by (intros ->; congruence).
    destruct (detach_ok (Some previous) ex previous _ ltac:(by right) I1 (conn_slot _ _ _ _ _ I Ec')) as (r2 & -> & I2 & F2 & Hsent2 & _).
    exists r2. split; [done|]. split; [done|]. split; [by etrans|]. rewrite Hsent2. exact Hsent.
  - eexists. split; [done|]. split; [done|]. split; [done|]. exact Hsent.
Qed.

End invariant.
