(* ===== verification/VoiceSend.v ===== *)
(** * What the voice relay sends

    The invariant of [VoiceInvariant] through the sending half of the relay, and
    what each send does: a session on UDP gets one datagram at its address, a
    session on a lane gets one frame at the end of what the lane sends, or its lane
    is closed; nobody else is touched. *)

From S2P Require Import Prelude Replay Primitives Transport Handshake Auth Media Frame Evented Net Clock Budget SlotBits VoiceRelay VoiceInvariant.

Section sends.
Context {Rx Tx : Type} `{StreamSocket Rx} `{StreamWriter Tx} `{PrimitiveLaws} `{caught : Captured}.
Context (tries : nat).

Abbreviation relay := (VoiceRelay Rx Tx).
Abbreviation lane := (TcpVoiceConn Rx Tx).
Abbreviation relay_inv := (relay_inv (Rx := Rx) (Tx := Tx) tries).
Abbreviation conn_wf := (conn_wf (Rx := Rx) (Tx := Tx) tries).

(** Everything a lane was ever given to send. *)
Definition lane_out (c : lane) : bytes := sent (conn_tx c) ++ WriteQueue.pending (write_queue c).

(** The lane at [slot] is gone and its session back on UDP. *)
Definition lane_closed (slot : nat) (r r' : relay) : Prop :=
  tcp_conns r' = <[slot := None]> (tcp_conns r) /\ sessions r' = unpoint slot <$> sessions r.

(** The lane at [slot] has [out] more to send. *)
Definition lane_extended (slot : nat) (out : bytes) (r r' : relay) : Prop :=
  exists c c', tcp_conns r !! slot = Some (Some c) /\ tcp_conns r' = <[slot := Some c']> (tcp_conns r) /\
    sessions r' = sessions r /\ conn_session c' = conn_session c /\ lane_out c' = lane_out c ++ out.

Record lane_effect (slot : nat) (out : bytes) (r r' : relay) : Prop := {
  le_frame : frame r r';
  le_udp : udp_sent r' = udp_sent r;
  le_lane : lane_closed slot r r' \/ lane_extended slot out r r';
}.

Lemma unpoint_twice slot s : unpoint slot (unpoint slot s) = unpoint slot s.
Proof. unfold unpoint. repeat case_decide; done. Qed.

Lemma lane_effect_trans slot out1 out2 r1 r2 r3 :
  lane_effect slot out1 r1 r2 -> lane_effect slot out2 r2 r3 -> lane_effect slot (out1 ++ out2) r1 r3.
Proof.
  intros [F1 U1 L1] [F2 U2 L2]. constructor; [by etrans|congruence|].
  destruct L2 as [[C2 S2]|(c & c' & E2 & C2 & S2 & Hb2 & Ho2)].
  - left. unfold lane_closed. rewrite C2, S2. destruct L1 as [[C1 S1]|(c1 & c1' & E1 & C1 & S1 & _)].
    + rewrite C1, S1, list_insert_insert, decide_True by done. split; [done|].
      rewrite <- map_fmap_compose. apply map_fmap_ext. intros i s _. apply unpoint_twice.
    + by rewrite C1, S1, list_insert_insert, decide_True by done.
  - destruct L1 as [[C1 S1]|(c1 & c1' & E1 & C1 & S1 & Hb1 & Ho1)].
    + exfalso. rewrite C1 in E2. apply list_lookup_insert_Some in E2 as [(_ & [=] & _)|[? _]]; done.
    + right. exists c1, c'. rewrite C1 in E2, C2.
      apply list_lookup_insert_Some in E2 as [(_ & [= <-] & _)|[? _]]; [|done].
      rewrite list_insert_insert, decide_True in C2 by done.
      split_and!; [done|done|congruence|congruence|]. by rewrite Ho2, Ho1, (assoc_L (++)).
Qed.

Lemma closed_effect slot out r r' :
  frame r r' -> udp_sent r' = udp_sent r -> tcp_conns r' = <[slot := None]> (tcp_conns r) ->
  sessions r' = unpoint slot <$> sessions r -> lane_effect slot out r r'.
Proof. intros. constructor; [done|done|]. left. by split. Qed.

Lemma detach_effect ex slot r out :
  relay_inv None ex r -> (slot < MAX_TCP_VOICE_CONNS)%nat ->
  exists r', detach_tcp_conn slot r = Some r' /\ relay_inv None ex r' /\ lane_effect slot out r r' /\ lane_closed slot r r'.
Proof.
  intros I Hs. destruct (detach_ok tries None ex slot r ltac:(by left) I Hs) as (r' & E & I' & F & U & C & S).
  exists r'. split_and!; [done|done|by apply closed_effect|by split].
Qed.

Lemma same_effect slot c r : tcp_conns r !! slot = Some (Some c) -> lane_effect slot [] r r.
Proof.
  intros E. constructor; [done|done|]. right. exists c, c. rewrite list_insert_id by done. by rewrite app_nil_r.
Qed.

(** A lane written to: what was sent and is queued changes as given. *)
Lemma rewrite_effect ex slot c c' r out :
  relay_inv None ex r -> tcp_conns r !! slot = Some (Some c) -> conn_session c' = conn_session c -> permit c' = permit c ->
  conn_wf c' -> lane_out c' = lane_out c ++ out ->
  relay_inv None ex (put_conn slot (Some c') r) /\ lane_effect slot out r (put_conn slot (Some c') r).
Proof.
  intros I E Hs Hp W Ho. split; [by eapply put_conn_inv|].
  constructor; [apply put_conn_frame|done|]. right. by exists c, c'.
Qed.

Lemma detach_stale_ok ex slot r c now :
  relay_inv None ex r -> tcp_conns r !! slot = Some (Some c) ->
  exists r' stale, detach_stale_tcp_backlog now slot r = Some (r', stale) /\ relay_inv None ex r' /\ lane_effect slot [] r r' /\
    if (stale : bool) then lane_closed slot r r' else r' = r.
Proof.
  intros I E. unfold detach_stale_tcp_backlog. rewrite E. cbn [mbind option_bind].
  set (stale := match backlog_since c with Some _ => _ | None => _ end). clearbody stale. destruct stale.
  - destruct (detach_effect ex slot r [] I (conn_slot _ _ _ _ _ _ I E)) as (r' & -> & I' & Le & Lc). by exists r', true.
  - exists r, false. split_and!; [done|done|by eapply same_effect|done].
Qed.

Definition has_room (c : lane) : Prop :=
  (WriteQueue.len (write_queue c) + VOICE_TCP_MAX_WIRE_FRAME_BYTES <= VOICE_TCP_WRITE_CAP_BYTES)%nat.

Lemma frame_fits : (VOICE_TCP_MAX_WIRE_FRAME_BYTES <= VOICE_TCP_WRITE_CAP_BYTES)%nat.
Proof. apply Nat.leb_le. by vm_compute. Qed.

Lemma admit_ok ex slot r c now :
  relay_inv None ex r -> tcp_conns r !! slot = Some (Some c) ->
  exists r' admitted, admit_tcp_send now slot r = Some (r', admitted) /\ relay_inv None ex r' /\ lane_effect slot [] r r' /\
    if (admitted : bool) then r' = r /\ has_room c else lane_closed slot r r'.
Proof.
  intros I E. unfold admit_tcp_send. destruct (detach_stale_ok ex slot r c now I E) as (r1 & stale & -> & I1 & L1 & Hst).
  cbn [mbind option_bind]. destruct stale; [by exists r1, false|]. subst r1. rewrite E. cbn [mbind option_bind].
  case_decide as Hl.
  - exists r, true. split_and!; try done. unfold has_room. pose proof frame_fits. lia.
  - destruct (detach_effect ex slot r [] I (conn_slot _ _ _ _ _ _ I E)) as (r' & -> & I' & Le & Lc). by exists r', false.
Qed.

(** *** Writing to a lane *)

Lemma write_work_effect slot out r r' words : lane_effect slot out r r' -> lane_effect slot out r (set_tcp_write_work words r').
Proof.
  intros [[] U L]. constructor; [by constructor|done|exact L].
Qed.

Lemma flushed_wf c tx q b :
  conn_wf c -> WriteQueue.is_empty (write_queue c) = false -> WriteQueue.wf q ->
  (WriteQueue.len q <= WriteQueue.len (write_queue c))%nat ->
  conn_wf (set_write tx q b (if WriteQueue.is_empty q then None else backlog_since c) c).
Proof.
  intros [W1 W2 W3 W4 W5 W6] He Hq Hl. constructor; cbn; try done; [lia|].
  rewrite write_queue_empty in He by done. apply bool_decide_eq_false in He. rewrite (write_queue_empty q Hq).
  clear W1. case_bool_decide as Hn; [by split|]. split; [done|]. intros Hb. apply W6 in Hb. done.
Qed.

Lemma flush_ok ex slot r c now :
  relay_inv None ex r -> tcp_conns r !! slot = Some (Some c) ->
  exists r', flush_tcp now slot r = Some r' /\ relay_inv None ex r' /\ lane_effect slot [] r r'.
Proof.
  intros I E. pose proof (conn_slot _ _ _ _ _ _ I E) as Hs. pose proof (ri_conns _ _ _ _ I _ _ E) as W.
  unfold flush_tcp. rewrite E. cbn [mbind option_bind].
  destruct (write_blocked c || WriteQueue.is_empty (write_queue c)) eqn:Hb; [exists r; split_and!; [done|done|by eapply same_effect]|].
  apply orb_false_iff in Hb as [_ Hne].
  pose proof (write_queue_to_ok (conn_tx c) (write_queue c) VOICE_TCP_WRITE_ATTEMPTS (cw_queue _ _ W)) as Hw.
  destruct (write_queue_to (conn_tx c) (write_queue c) VOICE_TCP_WRITE_ATTEMPTS) as [[tx q] [o|e]];
    [|destruct (detach_effect ex slot r [] I Hs) as (r' & -> & I' & Le & _); by exists r'].
  destruct Hw as (Wq & Hsent & Hn & _). cbv zeta.
  set (c' := set_write tx q _ _ c).
  assert (conn_wf c') as W'.
  { apply flushed_wf; [done|done|done|]. rewrite !write_queue_len. apply (f_equal length) in Hsent. rewrite !length_app in Hsent. lia. }
  destruct (rewrite_effect ex slot c c' r [] I E eq_refl eq_refl W') as [I1 L1]; [unfold lane_out; cbn; by rewrite app_nil_r|].
  set (r1 := put_conn slot (Some c') r) in *.
  assert (tcp_conns r1 !! slot = Some (Some c')) as E1 by (apply list_lookup_insert_eq; by eapply lookup_lt_Some).
  clearbody r1 c'.
  assert (exists r2, (if negb (blocked o) && write_hit_limit o then
      writes ← set_slot_bit (tcp_write_work r1) slot; Some (set_tcp_write_work writes r1) else Some r1) = Some r2 /\
    relay_inv None ex r2 /\ lane_effect slot [] r r2 /\ tcp_conns r2 !! slot = Some (Some c')) as (r2 & -> & I2 & L2 & E2).
  { destruct (negb (blocked o) && write_hit_limit o); [|by exists r1].
    destruct (mark_write_ok tries None ex r1 slot I1 Hs) as (words & -> & I2). cbn [mbind option_bind]. eexists. split; [done|].
    split; [done|]. split; [by apply write_work_effect|done]. }
  cbn [mbind option_bind]. destruct (wrote_zero o).
  - destruct (detach_effect ex slot r2 [] I2 Hs) as (r' & -> & I' & Le & _). exists r'. split_and!; [done|done|].
    by apply (lane_effect_trans slot [] [] r r2 r').
  - destruct (detach_stale_ok ex slot r2 c' now I2 E2) as (r' & st & -> & I' & Le & _). exists r'. split_and!; [done|done|].
    by apply (lane_effect_trans slot [] [] r r2 r').
Qed.

Lemma queued_wf c packet since :
  conn_wf c -> has_room c -> (length packet <= VOICE_TCP_MAX_FRAME_BYTES)%nat ->
  let q := {| wq_buf := wq_buf (write_queue c) ++ framed packet; wq_start := wq_start (write_queue c) |} in
  WriteQueue.pending q = WriteQueue.pending (write_queue c) ++ framed packet /\
  conn_wf (set_write (conn_tx c) q (write_blocked c) (Some since) c).
Proof.
  intros [W1 W2 W3 W4 W5 W6] Hr Hp q. destruct (write_queue_append (write_queue c) (framed packet) W4) as [Wq Pq].
  change (WriteQueue.append (write_queue c) (framed packet)) with q in Wq, Pq. split; [done|].
  assert (length (framed packet) = 4 + length packet)%nat as Hlen.
  { pose proof (len_framed packet) as Hl. unfold len in Hl. lia. }
  constructor; cbn [set_write permit conn_session read_buf conn_rx write_queue backlog_since]; try done.
  - rewrite write_queue_len, Pq, length_app, <- write_queue_len. unfold has_room, VOICE_TCP_MAX_WIRE_FRAME_BYTES, LENGTH_PREFIX_LEN in *. lia.
  - rewrite Pq. split; [|done]. intros [_ Hf]%app_eq_nil. apply (f_equal length) in Hf. rewrite Hlen in Hf. simpl in Hf. lia.
Qed.

Lemma frame_cap : Z.of_nat VOICE_TCP_MAX_FRAME_BYTES <= MAX_FRAME_LEN.
Proof. by vm_compute. Qed.

Lemma send_tcp_ok ex slot r c now packet :
  relay_inv None ex r -> tcp_conns r !! slot = Some (Some c) -> has_room c -> (length packet <= VOICE_TCP_MAX_FRAME_BYTES)%nat ->
  exists r', send_tcp_sealed now slot packet r = Some r' /\ relay_inv None ex r' /\ lane_effect slot (framed packet) r r'.
Proof.
  intros I E Hr Hp. unfold send_tcp_sealed. rewrite E. cbn [mbind option_bind].
  rewrite encode_frame_ok by (pose proof frame_cap; unfold len; lia). cbv zeta.
  set (since := match backlog_since c with Some t => t | None => now end). clearbody since.
  destruct (queued_wf c packet since (ri_conns _ _ _ _ I _ _ E) Hr Hp) as [Pq W'].
  set (c' := set_write _ _ _ _ c) in *.
  destruct (rewrite_effect ex slot c c' r (framed packet) I E eq_refl eq_refl W') as [I1 L1].
  { unfold lane_out, c'. cbn [set_write conn_tx write_queue]. by rewrite Pq, (assoc_L (++)). }
  destruct (flush_ok ex slot _ c' now I1) as (r' & -> & I' & L2); [apply list_lookup_insert_eq; by eapply lookup_lt_Some|].
  exists r'. split_and!; [done|done|]. rewrite <- (app_nil_r (framed packet)). by eapply lane_effect_trans.
Qed.

(** *** Sealing *)

(** The packet that carries a payload to a session, and the session after it. *)
Definition sealed_copy (payload : MediaPayloadRef.t) (s : VoiceSession) : option bytes :=
  match seal_media_ref_into (vs_protection s) (vs_send_counter s) payload with Ok packet => Some packet | Err _ => None end.

Definition frame_of (payload : MediaPayloadRef.t) (s : VoiceSession) : bytes :=
  match sealed_copy payload s with Some packet => framed packet | None => [] end.

Definition bump (s : VoiceSession) : VoiceSession := set_send_counter (wrap 64 (vs_send_counter s + 1)) s.

Lemma sealed_copy_size payload s packet : sealed_copy payload s = Some packet -> (length packet <= VOICE_TCP_MAX_FRAME_BYTES)%nat.
Proof.
  unfold sealed_copy. pose proof (sealed_media_size (vs_protection s) (vs_send_counter s) (MediaPayload.into_owned payload)) as Hs.
  unfold seal_media in Hs. rewrite borrowed_owned in Hs. destruct (seal_media_ref_into _ _ _); [|done]. by intros [= <-].
Qed.

Lemma bump_ok n s : session_ok n s -> session_ok n (bump s).
Proof. intros [S1 S2 S3]. constructor; cbn; [done|by apply is_u_wrap|done]. Qed.

Lemma seal_ok p ex r id s payload :
  relay_inv p ex r -> sessions r !! id = Some s ->
  seal_for_session id payload r = (put_session id (bump s) r, sealed_copy payload s) /\
  relay_inv p ex (put_session id (bump s) r) /\ frame r (put_session id (bump s) r).
Proof.
  intros I E. destruct (put_session_inv tries p ex r id s (bump s) I E eq_refl eq_refl eq_refl) as [I' F].
  { apply bump_ok. exact (ri_sessions _ _ _ _ I id s E). }
  split; [|split; [done|by apply F]]. unfold seal_for_session, sealed_copy. rewrite E. by destruct (seal_media_ref_into _ _ _).
Qed.

(** *** Delivery to one session *)

Definition udp_copy (payload : MediaPayloadRef.t) (s : VoiceSession) : option (nat * SocketAddr * bytes) :=
  match vs_tcp_conn s with
  | Some _ => None
  | None => addr ← vs_udp_addr s; packet ← sealed_copy payload s; Some (vs_udp_bind_index s, addr, packet)
  end.

(** What has become of a session and of its lane once a payload was sent to it. *)
Definition delivered (payload : MediaPayloadRef.t) (id : Z) (s : VoiceSession) (r r' : relay) : Prop :=
  match vs_tcp_conn s with
  | None => sessions r' !! id = Some (if vs_udp_addr s then bump s else s)
  | Some slot =>
      tcp_conns r' !! slot = Some None /\
        (sessions r' !! id = Some (set_tcp_conn None s) \/ sessions r' !! id = Some (set_tcp_conn None (bump s))) \/
      exists c c', tcp_conns r !! slot = Some (Some c) /\ tcp_conns r' !! slot = Some (Some c') /\
        conn_session c' = conn_session c /\ sessions r' !! id = Some (bump s) /\
        lane_out c' = lane_out c ++ frame_of payload s
  end.

Record sent_to (payload : MediaPayloadRef.t) (id : Z) (s : VoiceSession) (r r' : relay) : Prop := {
  st_frame : frame r r';
  st_others : forall id', id' <> id -> sessions r' !! id' = sessions r !! id';
  st_lanes : forall slot, vs_tcp_conn s <> Some slot -> tcp_conns r' !! slot = tcp_conns r !! slot;
  st_udp : udp_sent r' = udp_sent r ++ option_list (udp_copy payload s);
  st_delivered : delivered payload id s r r';
}.

(** Only one session points at a lane. *)
Lemma one_lane ex r id id' s s' slot :
  relay_inv None ex r -> sessions r !! id = Some s -> sessions r !! id' = Some s' ->
  vs_tcp_conn s = Some slot -> vs_tcp_conn s' = Some slot -> id = id'.
Proof.
  intros I E E' Hs Hs'. destruct (ln_back _ _ _ (ri_lanes _ _ _ _ I) id slot) as (c & Ec & Hc); [by rewrite lookup_fmap, E, <- Hs|].
  destruct (ln_back _ _ _ (ri_lanes _ _ _ _ I) id' slot) as (c' & Ec' & Hc'); [by rewrite lookup_fmap, E', <- Hs'|]. congruence.
Qed.

Lemma session_lane ex r id s slot :
  relay_inv None ex r -> sessions r !! id = Some s -> vs_tcp_conn s = Some slot ->
  exists c, tcp_conns r !! slot = Some (Some c) /\ conn_session c = Some id.
Proof. intros I E Hs. apply (ln_back _ _ _ (ri_lanes _ _ _ _ I)). by rewrite lookup_fmap, E, <- Hs. Qed.

Lemma closed_others ex r r' id s slot :
  relay_inv None ex r -> sessions r !! id = Some s -> vs_tcp_conn s = Some slot -> lane_closed slot r r' ->
  tcp_conns r' !! slot = Some None /\ sessions r' !! id = Some (set_tcp_conn None s) /\
  (forall id', id' <> id -> sessions r' !! id' = sessions r !! id') /\
  (forall k, k <> slot -> tcp_conns r' !! k = tcp_conns r !! k).
Proof.
  intros I E Hs [C S]. destruct (session_lane _ _ _ _ _ I E Hs) as (c & Ec & Hc). rewrite C, S. split_and!.
  - apply list_lookup_insert_eq. by eapply lookup_lt_Some.
  - rewrite lookup_fmap, E. cbn. unfold unpoint. by rewrite decide_True.
  - intros id' Hne. rewrite lookup_fmap. destruct (sessions r !! id') as [s'|] eqn:E'; [|done]. cbn. unfold unpoint.
    rewrite decide_False; [done|]. intros Hs'. apply Hne. by apply (one_lane ex r id' id s' s slot).
  - intros k Hk. by rewrite list_lookup_insert_ne.
Qed.

Lemma extended_others slot out r r' :
  lane_extended slot out r r' ->
  exists c c', tcp_conns r !! slot = Some (Some c) /\ tcp_conns r' !! slot = Some (Some c') /\ conn_session c' = conn_session c /\
    lane_out c' = lane_out c ++ out /\ sessions r' = sessions r /\ (forall k, k <> slot -> tcp_conns r' !! k = tcp_conns r !! k).
Proof.
  intros (c & c' & E & C & S & Hc & Ho). exists c, c'. rewrite C. split_and!; try done.
  - apply list_lookup_insert_eq. by eapply lookup_lt_Some.
  - intros k Hk. by rewrite list_lookup_insert_ne.
Qed.

(** The common part of [send_payload] and [send_pong] on a lane. *)
Definition lane_send (now : Z) (slot : nat) (id : Z) (payload : MediaPayloadRef.t) (r : relay) : option relay :=
  '(r, admitted) ← admit_tcp_send now slot r;
  if negb admitted then Some r
  else
    match seal_for_session id payload r with
    | (r, None) => Some r
    | (r, Some packet) => send_tcp_sealed now slot packet r
    end.

Lemma lane_send_ok ex r id s slot c payload now :
  relay_inv None ex r -> sessions r !! id = Some s -> tcp_conns r !! slot = Some (Some c) ->
  exists r', lane_send now slot id payload r = Some r' /\ relay_inv None ex r' /\ frame r r' /\ udp_sent r' = udp_sent r /\
    (lane_closed slot r r' \/
     lane_closed slot (put_session id (bump s) r) r' \/
     lane_extended slot (frame_of payload s) (put_session id (bump s) r) r').
Proof.
  intros I E Ec. unfold lane_send, frame_of. destruct (admit_ok ex slot r c now I Ec) as (r1 & ad & -> & I1 & L1 & Had). cbn [mbind option_bind].
  destruct ad; cbn [negb]; [destruct Had as [-> Hroom]|].
  - destruct (seal_ok None ex r id s payload I E) as (-> & I2 & F2). set (r2 := put_session id (bump s) r) in *.
    assert (tcp_conns r2 !! slot = Some (Some c)) as Ec2 by done. assert (udp_sent r2 = udp_sent r) as U2 by done. clearbody r2.
    destruct (sealed_copy payload s) as [packet|] eqn:Es.
    + destruct (send_tcp_ok ex slot r2 c now packet I2 Ec2 Hroom (sealed_copy_size _ _ _ Es)) as (r' & -> & I' & [F' U' L']).
      exists r'. split_and!; [done|done|by etrans|congruence|]. right. destruct L'; [by left|by right].
    + exists r2. split_and!; [done|done|done|done|]. right. right. exists c, c.
      by rewrite list_insert_id, app_nil_r by done.
  - exists r1. split_and!; [done|done|apply L1|apply L1|by left].
Qed.

Lemma lane_send_absent r slot id payload now : tcp_conns r !! slot = Some None -> lane_send now slot id payload r = Some r.
Proof. intros E. unfold lane_send, admit_tcp_send, detach_stale_tcp_backlog. rewrite E. cbn [mbind option_bind]. by rewrite E. Qed.

Lemma send_udp_ok p ex r bind addr packet :
  relay_inv p ex r -> (bind < length (udp_rx r))%nat ->
  send_udp_sealed bind addr packet r = Some (set_udp_sent (udp_sent r ++ [(bind, addr, packet)]) r) /\
  relay_inv p ex (set_udp_sent (udp_sent r ++ [(bind, addr, packet)]) r) /\ frame r (set_udp_sent (udp_sent r ++ [(bind, addr, packet)]) r).
Proof.
  intros I Hb. unfold send_udp_sealed. rewrite decide_True by done. split; [done|]. split; [destruct I; by constructor|by constructor].
Qed.

Lemma sent_on_lane ex r r' id s slot payload :
  relay_inv None ex r -> sessions r !! id = Some s -> vs_tcp_conn s = Some slot -> frame r r' -> udp_sent r' = udp_sent r ->
  lane_closed slot r r' \/ lane_closed slot (put_session id (bump s) r) r' \/
    lane_extended slot (frame_of payload s) (put_session id (bump s) r) r' ->
  sent_to payload id s r r'.
Proof.
  intros I E Et F U L.
  destruct (put_session_inv tries None ex r id s (bump s) I E eq_refl eq_refl eq_refl) as [I2 _].
  { apply bump_ok. exact (ri_sessions _ _ _ _ I id s E). }
  set (r2 := put_session id (bump s) r) in *.
  assert (forall id', id' <> id -> sessions r2 !! id' = sessions r !! id') as Ho2 by (intros; cbn; by rewrite lookup_insert_ne).
  assert (sessions r2 !! id = Some (bump s)) as E2 by (cbn; by rewrite lookup_insert_eq).
  assert (tcp_conns r2 = tcp_conns r) as C2 by done. clearbody r2.
  assert (udp_sent r' = udp_sent r ++ option_list (udp_copy payload s)) as Hu by (unfold udp_copy; rewrite Et; cbn; by rewrite app_nil_r).
  destruct L as [L|[L|L]].
  - destruct (closed_others ex r r' id s slot I E Et L) as (Hsl & Hid & Ho & Hk). constructor; [done|done| |done|].
    + intros k Hne. apply Hk. congruence.
    + unfold delivered. rewrite Et. left. split; [done|by left].
  - destruct (closed_others ex r2 r' id (bump s) slot I2 E2 Et L) as (Hsl & Hid & Ho & Hk). constructor; [done| | |done|].
    + intros id' Hne. by rewrite Ho, Ho2.
    + intros k Hne. rewrite Hk, C2; [done|congruence].
    + unfold delivered. rewrite Et. left. split; [done|by right].
  - destruct (extended_others _ _ _ _ L) as (x & x' & Ex & Ex' & Hx & Hout & Hs & Hk). rewrite C2 in Ex, Hk.
    constructor; [done| | |done|].
    + intros id' Hne. by rewrite Hs, Ho2.
    + intros k Hne. apply Hk. congruence.
    + unfold delivered. rewrite Et. right. exists x, x'. by rewrite Hs.
Qed.

Lemma send_payload_ok ex r id s payload now :
  relay_inv None ex r -> sessions r !! id = Some s ->
  exists r', send_payload now id payload r = Some r' /\ relay_inv None ex r' /\ sent_to payload id s r r'.
Proof.
  intros I E. unfold send_payload. rewrite E. destruct (vs_tcp_conn s) as [slot|] eqn:Et.
  - destruct (session_lane _ _ _ _ _ I E Et) as (c & Ec & Hc).
    destruct (lane_send_ok ex r id s slot c payload now I E Ec) as (r' & Er & I' & F & U & L). exists r'. split; [exact Er|]. split; [done|].
    by apply (sent_on_lane ex r r' id s slot).
  - destruct (vs_udp_addr s) as [addr|] eqn:Ea.
    + destruct (seal_ok None ex r id s payload I E) as (-> & I2 & F2).
      destruct (sealed_copy payload s) as [packet|] eqn:Es.
      * destruct (send_udp_ok None ex _ (vs_udp_bind_index s) addr packet I2) as (-> & I3 & F3).
        { exact (so_bind _ _ (ri_sessions _ _ _ _ I id s E)). }
        eexists. split; [done|]. split; [done|]. constructor; [by etrans| |done| |].
        -- intros id' Hne. cbn. by rewrite lookup_insert_ne.
        -- unfold udp_copy. by rewrite Et, Ea, Es.
        -- unfold delivered. rewrite Et, Ea. cbn. by rewrite lookup_insert_eq.
      * eexists. split; [done|]. split; [done|]. constructor; [done| |done| |].
        -- intros id' Hne. cbn. by rewrite lookup_insert_ne.
        -- unfold udp_copy. rewrite Et, Ea, Es. cbn. by rewrite app_nil_r.
        -- unfold delivered. rewrite Et, Ea. cbn. by rewrite lookup_insert_eq.
    + exists r. split; [done|]. split; [done|]. constructor; [done|done|done| |].
      * unfold udp_copy. rewrite Et, Ea. cbn. by rewrite app_nil_r.
      * unfold delivered. by rewrite Et, Ea.
Qed.

(** *** Fan-out *)

Record sent_all (payload : MediaPayloadRef.t) (ids : list Z) (r r' : relay) : Prop := {
  sa_frame : frame r r';
  sa_others : forall id, id ∉ ids -> sessions r' !! id = sessions r !! id;
  sa_lanes : forall slot, (forall id s, id ∈ ids -> sessions r !! id = Some s -> vs_tcp_conn s <> Some slot) ->
    tcp_conns r' !! slot = tcp_conns r !! slot;
  sa_udp : udp_sent r' = udp_sent r ++ omap (fun id => s ← sessions r !! id; udp_copy payload s) ids;
  sa_delivered : forall id s, id ∈ ids -> sessions r !! id = Some s -> delivered payload id s r r';
}.

(** A delivery seen from states that agree on the session and its lane. *)
Lemma delivered_before payload id s r r1 r' :
  (forall slot, vs_tcp_conn s = Some slot -> tcp_conns r1 !! slot = tcp_conns r !! slot) ->
  delivered payload id s r1 r' -> delivered payload id s r r'.
Proof. unfold delivered. intros Hc. destruct (vs_tcp_conn s) as [slot|]; [|done]. by rewrite (Hc slot eq_refl). Qed.

Lemma delivered_after payload id s r r1 r' :
  sessions r' !! id = sessions r1 !! id ->
  (forall slot, vs_tcp_conn s = Some slot -> tcp_conns r' !! slot = tcp_conns r1 !! slot) ->
  delivered payload id s r r1 -> delivered payload id s r r'.
Proof. unfold delivered. intros -> Hc. destruct (vs_tcp_conn s) as [slot|]; [|done]. by rewrite (Hc slot eq_refl). Qed.

Lemma send_all_ok payload now ids : forall ex r,
  relay_inv None ex r -> NoDup ids -> Forall (fun id => is_Some (sessions r !! id)) ids ->
  exists r', send_all now ids payload r = Some r' /\ relay_inv None ex r' /\ sent_all payload ids r r'.
Proof.
  induction ids as [|id ids IH]; intros ex r I Hnd Hids; cbn [send_all].
  { exists r. split; [done|]. split; [done|]. constructor; [done|done|done| |]; cbn; [by rewrite app_nil_r|]. intros id s Hin. by apply not_elem_of_nil in Hin. }
  apply NoDup_cons in Hnd as [Hnin Hnd]. apply Forall_cons in Hids as [[s E] Hids].
  destruct (send_payload_ok ex r id s payload now I E) as (r1 & -> & I1 & [F1 O1 L1 U1 D1]). cbn [mbind option_bind].
  assert (forall id', id' ∈ ids -> sessions r1 !! id' = sessions r !! id') as Hsame by (intros id' Hin; apply O1; congruence).
  destruct (IH ex r1 I1 Hnd) as (r' & -> & I' & [F' O' L' U' D']).
  { eapply Forall_impl; [exact Hids|]. intros id' Hid'. destruct (decide (id' = id)) as [->|Hne]; [|by rewrite O1].
    rewrite <- elem_of_dom. change (id ∈ dom (sessions r1)). rewrite <- (dom_fmap_L seat), (fr_seats _ _ F1), dom_fmap_L.
    apply elem_of_dom. by eexists. }
  assert (forall slot, vs_tcp_conn s = Some slot -> forall id' s', id' ∈ ids -> sessions r1 !! id' = Some s' -> vs_tcp_conn s' <> Some slot) as Hmine.
  { intros slot Hs id' s' Hin E' Hs'. rewrite Hsame in E' by done. apply Hnin. by rewrite (one_lane ex r id id' s s' slot). }
  exists r'. split; [done|]. split; [done|]. constructor; [by etrans| | | |].
  - intros id' [Hne Hin]%not_elem_of_cons. by rewrite O', O1.
  - intros slot Hno. rewrite L', L1; [done| |].
    + apply (Hno id s); [by left|done].
    + intros id' s' Hin E'. apply (Hno id' s'); [by right|]. by rewrite <- Hsame.
  - rewrite U', U1, <- (assoc_L (++)). f_equal. cbn [omap list_omap]. rewrite E. cbn [mbind option_bind].
    assert (omap (fun id => s ← sessions r1 !! id; udp_copy payload s) ids = omap (fun id => s ← sessions r !! id; udp_copy payload s) ids) as ->.
    { clear -Hsame. induction ids as [|x l IHl]; [done|]. cbn. rewrite IHl by (intros; apply Hsame; by right). by rewrite Hsame by left. }
    by destruct (udp_copy payload s).
  - intros id' s' [->|Hin]%elem_of_cons E'.
    + assert (s' = s) as -> by congruence. eapply delivered_after; [| |exact D1].
      * by apply O'.
      * intros slot Hs. apply L'. by apply Hmine.
    + eapply delivered_before; [|apply D'; [done|by rewrite Hsame]]. intros slot Hs. apply L1. intros Hs1.
      apply Hnin. by rewrite (one_lane ex r id id' s s' slot).
Qed.

Lemma NoDup_omap_inj {A B} (f : A -> option B) (l : list A) :
  (forall x y b, f x = Some b -> f y = Some b -> x = y) -> NoDup l -> NoDup (omap f l).
Proof.
  intros Hf. induction 1 as [|x l Hx Hl IH]; cbn; [constructor|]. destruct (f x) as [b|] eqn:E; [|done].
  apply NoDup_cons. split; [|done]. intros (y & Hy & Ey)%list_elem_of_omap. apply Hx. by rewrite (Hf x y b).
Qed.

(** In the room of a session: the members of [room_id], but for [sender]. *)
Definition roommate (r : relay) (sender room_id id : Z) : Prop :=
  id <> sender /\ exists s rt, sessions r !! id = Some s /\ vs_route s = Some rt /\ route_room_id rt = room_id.

Lemma session_at p ex r slot id :
  relay_inv p ex r -> session_slots r !! slot = Some (Some id) <-> exists s, sessions r !! id = Some s /\ vs_slot s = slot.
Proof.
  intros I. split.
  - intros Hs. destruct (sl_session _ _ _ (ri_slots _ _ _ _ I) _ _ Hs) as [rid Er]. rewrite lookup_fmap in Er.
    destruct (sessions r !! id) as [s|]; [|done]. injection Er as Hk _. by exists s.
  - intros (s & E & <-). apply (sl_slot _ _ _ (ri_slots _ _ _ _ I) id (seat s)). by rewrite lookup_fmap, E.
Qed.

Lemma recipients_spec p ex r sender room_id room :
  relay_inv p ex r -> rooms r !! room_id = Some room ->
  NoDup (recipients sender room (session_slots r)) /\
  forall id, id ∈ recipients sender room (session_slots r) <-> roommate r sender room_id id.
Proof.
  intros I Er. pose proof (ri_rooms _ _ _ _ I) as R. unfold recipients. rewrite (slots_of_spec _ _ (ro_words _ _ _ R _ _ Er)). split.
  - apply NoDup_omap_inj; [|apply NoDup_filter, NoDup_seq]. intros a b id Ha Hb.
    destruct (session_slots r !! a) as [[ia|]|] eqn:Ea; [|done..]. destruct (session_slots r !! b) as [[ib|]|] eqn:Eb; [|done..].
    repeat case_decide; try done. injection Ha as ->. injection Hb as ->.
    apply (session_at _ _ _ _ _ I) in Ea as (s & Es & <-), Eb as (s' & Es' & <-). congruence.
  - intros id. rewrite list_elem_of_omap. unfold roommate. split.
    + intros (slot & [Hm _]%list_elem_of_filter & Hf). apply (ro_members _ _ _ R _ _ _ Er) in Hm as (id' & rt & Ep & Hr).
      rewrite lookup_fmap in Ep. destruct (sessions r !! id') as [s|] eqn:Es; [|done]. injection Ep as Hk Hrt.
      rewrite (proj2 (session_at _ _ _ slot id' I)) in Hf by (by exists s). case_decide; [|done]. injection Hf as ->.
      split; [done|]. by exists s, rt.
    + intros (Hne & s & rt & Es & Hrt & Hroom). pose proof (session_slot _ _ _ _ _ _ I Es) as Hlt. exists (vs_slot s). split.
      * apply list_elem_of_filter. split; [|apply elem_of_seq; exact (conj (Nat.le_0_l _) Hlt)].
        apply (ro_members _ _ _ R _ _ _ Er). exists id, rt. split; [|done]. rewrite lookup_fmap, Es. cbn. unfold place. by rewrite Hrt.
      * rewrite (proj2 (session_at _ _ _ (vs_slot s) id I)) by (by exists s). by rewrite decide_True.
Qed.

(** *** Relaying *)

Lemma relay_voice_ok ex r sender s route now sequence timestamp flags voice :
  relay_inv None ex r -> sessions r !! sender = Some s -> vs_route s = Some route ->
  exists ids r', relay_voice now sender (route_stream_id route) sequence timestamp flags voice r = Some r' /\
    relay_inv None ex r' /\ NoDup ids /\ (forall id, id ∈ ids <-> roommate r sender (route_room_id route) id) /\
    sent_all (MediaPayloadRef.Voice (route_stream_id route) sequence timestamp flags voice) ids r r'.
Proof.
  intros I E Hr. unfold relay_voice. rewrite E. cbn [mbind option_bind]. rewrite Hr, decide_True by done.
  destruct (ro_rooms _ _ _ (ri_rooms _ _ _ _ I) sender (vs_slot s) route) as [room Er].
  { rewrite lookup_fmap, E. cbn. unfold place. by rewrite Hr. }
  rewrite Er. destruct (recipients_spec None ex r sender (route_room_id route) room I Er) as [Hnd Hin].
  destruct (send_all_ok (MediaPayloadRef.Voice (route_stream_id route) sequence timestamp flags voice) now _ ex r I Hnd) as (r' & Hs & I' & Sa).
  { apply Forall_forall. intros id (Hne & s' & rt & Es & _)%Hin. by eexists. }
  eexists _, r'. split; [exact Hs|]. done.
Qed.

(** Voice for another stream than the sender's own, or without a room, goes nowhere. *)
Lemma relay_voice_ignored (r : relay) sender now stream_id sequence timestamp flags voice :
  (forall s route, sessions r !! sender = Some s -> vs_route s = Some route -> route_stream_id route <> stream_id) ->
  relay_voice now sender stream_id sequence timestamp flags voice r = Some r.
Proof.
  intros Hno. unfold relay_voice. destruct (sessions r !! sender) as [s|] eqn:E; [|done]. cbn [mbind option_bind].
  destruct (vs_route s) as [route|] eqn:Hr; [|done]. by rewrite decide_False by eauto.
Qed.

(** Feedback goes to the owner of the stream it is about, in the reporter's room. *)
Lemma relay_feedback_ok ex r reporter now stream_id feedback :
  relay_inv None ex r ->
  exists r', relay_feedback now reporter stream_id feedback r = Some r' /\ relay_inv None ex r' /\
    (r' = r \/ exists s route owner so, sessions r !! reporter = Some s /\ vs_route s = Some route /\ owner <> reporter /\
      sessions r !! owner = Some so /\ vs_route so = Some (mkRoute (route_room_id route) stream_id) /\
      sent_to (MediaPayloadRef.FeedbackFrom (vs_user_id s) stream_id feedback) owner so r r').
Proof.
  intros I. unfold relay_feedback. destruct (sessions r !! reporter) as [s|] eqn:E; [|exists r; eauto].
  destruct (vs_route s) as [route|] eqn:Hr; [|exists r; eauto].
  destruct (stream_owners r !! (route_room_id route, stream_id)) as [owner|] eqn:Eo; [|exists r; eauto].
  case_decide as Hne; [exists r; eauto|].
  destruct (ro_owners _ _ _ (ri_rooms _ _ _ _ I) _ _ _ Eo) as [slot Ep]. rewrite lookup_fmap in Ep.
  destruct (sessions r !! owner) as [so|] eqn:Es; [|done]. injection Ep as _ Hro.
  destruct (send_payload_ok ex r owner so (MediaPayloadRef.FeedbackFrom (vs_user_id s) stream_id feedback) now I Es) as (r' & -> & I' & St).
  exists r'. split; [done|]. split; [done|]. right. by exists s, route, owner, so.
Qed.

Lemma send_pong_ok ex r id s now origin nonce :
  relay_inv None ex r -> sessions r !! id = Some s ->
  match origin with UdpOrigin _ bind _ => (bind < length (udp_rx r))%nat | TcpOrigin slot => (slot < MAX_TCP_VOICE_CONNS)%nat end ->
  exists r', send_pong now id origin nonce r = Some r' /\ relay_inv None ex r' /\ frame r r'.
Proof.
  intros I E Ho. unfold send_pong. destruct origin as [probe bind src|slot].
  - case_decide.
    + destruct (seal_ok None ex r id s (MediaPayloadRef.Pong nonce) I E) as (-> & I2 & F2).
      destruct (sealed_copy (MediaPayloadRef.Pong nonce) s) as [packet|]; [|by eexists].
      destruct (send_udp_ok None ex _ bind src packet I2) as (-> & I3 & F3); [exact Ho|]. eexists. split; [done|]. split; [done|]. by etrans.
    + destruct (send_payload_ok ex r id s (MediaPayloadRef.Pong nonce) now I E) as (r' & -> & I' & []). by exists r'.
  - destruct (conns_bound _ _ _ _ _ I Ho) as [[c|] Ec].
    + destruct (lane_send_ok ex r id s slot c (MediaPayloadRef.Pong nonce) now I E Ec) as (r' & Er & I' & F & _). exists r'. split; [exact Er|done].
    + exists r. split; [|done]. exact (lane_send_absent r slot id (MediaPayloadRef.Pong nonce) now Ec).
Qed.

End sends.
