(* ===== verification/VoiceRun.v ===== *)
(** * The voice relay at work

    The invariant of [VoiceInvariant] through the receiving half of the relay and
    the turns of its event loop, the steps of the control loop and of the network
    around it, and the theorems on whole runs. *)

From S2P Require Import Prelude Replay Primitives Transport Handshake Auth Media Frame Evented Net Clock Budget SlotBits VoiceRelay VoiceInvariant VoiceSend.

Section receives.
Context {Rx Tx : Type} `{StreamSocket Rx} `{StreamWriter Tx} `{PrimitiveLaws} `{caught : Captured}.
Context (tries : nat).

Abbreviation relay := (VoiceRelay Rx Tx).
Abbreviation lane := (TcpVoiceConn Rx Tx).
Abbreviation relay_inv := (relay_inv (Rx := Rx) (Tx := Tx) tries).
Abbreviation conn_wf := (conn_wf (Rx := Rx) (Tx := Tx) tries).

(** ** One packet *)

(** What a packet leaves alone: the queue of commands, the sockets, who is where. *)
Record handled (r r' : relay) : Prop := {
  hd_commands : commands r' = commands r;
  hd_rx : udp_rx r' = udp_rx r;
  hd_probe : udp_probe r' = udp_probe r;
  hd_down : shutting_down r' = shutting_down r;
  hd_routes : route_to_session r' = route_to_session r;
  hd_rooms : rooms r' = rooms r;
  hd_places : place <$> sessions r' = place <$> sessions r;
}.

#[local] Instance handled_preorder : PreOrder handled.
Proof. split; [by constructor|]. intros a b c [] []. constructor; by etrans. Qed.

Lemma frame_handled r r' : frame r r' -> handled r r'.
Proof. intros []. by constructor. Qed.

Definition origin_ok (r : relay) (origin : PacketOrigin) : Prop :=
  match origin with UdpOrigin _ bind _ => (bind < length (udp_rx r))%nat | TcpOrigin slot => (slot < MAX_TCP_VOICE_CONNS)%nat end.

Lemma set_event_buf_ok p ex r b : relay_inv p ex r -> relay_inv p ex (set_event_buf b r) /\ frame r (set_event_buf b r).
Proof. intros []. split; by constructor. Qed.

Lemma dispatch_ok ex r id s now origin payload changed :
  relay_inv None ex r -> sessions r !! id = Some s -> origin_ok r origin ->
  exists r' res, dispatch now origin id payload changed r = Some (r', res) /\ relay_inv None ex r' /\ frame r r'.
Proof.
  intros I E Ho. destruct payload; cbn [dispatch]; try (by exists r, (Ok tt)).
  - destruct origin as [probe bind src|slot]; [|by exists r, (Ok tt)]. case_decide; [|by exists r, (Ok tt)].
    eexists _, _. split; [done|]. by apply set_event_buf_ok.
  - destruct origin as [probe bind src|slot]; [|by exists r, (Ok tt)]. destruct (p2p_enabled r); cbn [negb]; [|by exists r, (Ok tt)].
    cbv zeta. case_decide; [by eexists _, _|]. eexists _, _. split; [done|]. by apply set_event_buf_ok.
  - assert ((exists route, vs_route s = Some route /\ route_stream_id route = stream_id) \/
      forall route, vs_route s = Some route -> route_stream_id route <> stream_id) as [(route & Hr & <-)|Hno].
    { destruct (vs_route s) as [route|]; [|by right]. destruct (decide (route_stream_id route = stream_id)); [left; eauto|right; congruence]. }
    + destruct (relay_voice_ok tries ex r id s route now sequence timestamp flags payload I E Hr) as (ids & r' & -> & I' & _ & _ & [F _ _ _ _]).
      cbn [mbind option_bind]. by eexists _, _.
    + rewrite relay_voice_ignored; [by exists r, (Ok tt)|]. intros s' route E' Hr. apply Hno. congruence.
  - destruct (relay_feedback_ok tries ex r id now stream_id feedback I) as (r' & -> & I' & Hf). cbn [mbind option_bind].
    eexists _, _. split; [done|]. split; [done|]. destruct Hf as [->|(? & ? & ? & ? & _ & _ & _ & _ & _ & [F _ _ _ _])]; done.
  - rewrite E. destruct (put_session_inv tries None ex r id s (set_rtt (if changed then None else observed_rtt_ms) (Some now) s) I E
      eq_refl eq_refl eq_refl) as [I1 F1].
    { destruct (ri_sessions _ _ _ _ I id s E). by constructor. }
    destruct (send_pong_ok tries ex _ id _ now origin nonce I1 (lookup_insert_eq _ _ _)) as (r' & -> & I' & F'); [exact Ho|].
    cbn [mbind option_bind]. eexists _, _. split; [done|]. split; [done|]. etrans; [by apply F1|done].
Qed.

(** The session once it accepted a packet. *)
Definition learned (origin : PacketOrigin) (replay : AntiReplay) (o : OpenedMediaRef) (s : VoiceSession) : VoiceSession :=
  (learn_address origin (ref_address_proof o) (set_replay replay s)).1.

Lemma learned_same origin replay o s :
  seat (learned origin replay o s) = seat s /\ place (learned origin replay o s) = place s /\
  vs_tcp_conn (learned origin replay o s) = vs_tcp_conn s.
Proof.
  unfold learned, learn_address. destruct origin, (ref_address_proof o); try done; (case_decide; [|done]); by repeat case_match.
Qed.

Lemma learned_ok (r : relay) origin replay w o s :
  session_ok (length (udp_rx r)) s -> origin_ok r origin -> refines replay w ->
  (forall c, captured (vs_protection s) c -> c ∈ Window.seen w) ->
  session_ok (length (udp_rx r)) (learned origin replay o s).
Proof.
  intros [S1 S2 S3] Ho Hr Hw. unfold learned, learn_address.
  destruct origin as [probe bind src|slot], (ref_address_proof o); try (constructor; [done|done|by exists w]);
    (case_decide; [|constructor; [done|done|by exists w]]); repeat case_match; (constructor; [exact Ho|done|by exists w]).
Qed.

(** Why a session's contact can change: it accepted the packet. *)
Definition accepted (origin : PacketOrigin) (packet : bytes) (r r' : relay) : Prop :=
  exists h body id s replay o, parse_header packet = Ok (h, body) /\ route_to_session r !! hdr_route_id h = Some id /\
    sessions r !! id = Some s /\ open_media_in_place (vs_protection s) (vs_recv_replay s) packet = (replay, Ok o) /\
    contact <$> sessions r' = <[id := contact (learned origin replay o s)]> (contact <$> sessions r).

(** What follows an accepted packet: the session is stored, its lane bound, the
    payload dispatched if the budget allows it. *)
Lemma store_ok ex r id s origin replay w o budget now :
  relay_inv None ex r -> sessions r !! id = Some s -> origin_ok r origin -> refines replay w ->
  (forall c, captured (vs_protection s) c -> c ∈ Window.seen w) ->
  let s2 := set_activity budget now true (learned origin replay o s) in
  let r1 := put_session id s2 r in
  relay_inv None ex r1 /\ handled r r1 /\
  contact <$> sessions r1 = <[id := contact (learned origin replay o s)]> (contact <$> sessions r).
Proof.
  intros I Es Ho Hw Hcap s2 r1. pose proof (learned_same origin replay o s) as (Hseat & Hplace & Hconn).
  pose proof (learned_ok r origin replay w o s (ri_sessions _ _ _ _ I id s Es) Ho Hw Hcap) as Hok.
  destruct (put_session_inv tries None ex r id s s2 I Es Hseat Hplace Hconn) as [I1 _]; [destruct Hok; by constructor|].
  split; [done|]. split; [constructor; try done; by apply (put_same_seat place _ _ s)|]. cbn. by rewrite fmap_insert.
Qed.

Lemma accepted_step ex r id s now origin payload changed (admitted : bool) :
  relay_inv None ex r -> sessions r !! id = Some s -> origin_ok r origin ->
  exists r' res,
    (r ← match origin with TcpOrigin slot => bind_tcp_conn slot id r | _ => Some r end;
     if negb admitted then Some (r, Ok tt) else dispatch now origin id payload changed r) = Some (r', res) /\
    relay_inv None ex r' /\ frame r r'.
Proof.
  intros I Es Ho.
  assert (exists r2, match origin with TcpOrigin slot => bind_tcp_conn slot id r | _ => Some r end = Some r2 /\
    relay_inv None ex r2 /\ frame r r2) as (r2 & -> & I2 & F2).
  { destruct origin as [|slot]; [by exists r|]. destruct (bind_ok tries ex r slot id I Ho) as (r2 & -> & I2 & F2 & _); [by eexists|]. by exists r2. }
  cbn [mbind option_bind]. destruct admitted; cbn [negb]; [|by eexists _, _].
  assert (is_Some (sessions r2 !! id)) as [s3 Es3].
  { rewrite <- elem_of_dom, <- (dom_fmap_L seat), (fr_seats _ _ F2), dom_fmap_L. apply elem_of_dom. by eexists. }
  destruct (dispatch_ok ex r2 id s3 now origin payload changed I2 Es3) as (r' & res & -> & I' & F').
  { destruct origin; [|exact Ho]. cbn. by rewrite (fr_rx _ _ F2). }
  eexists _, _. split; [done|]. split; [done|]. by etrans.
Qed.

Lemma handle_ok ex r now origin packet :
  relay_inv None ex r -> origin_ok r origin ->
  exists r' res, handle_media_packet now origin packet r = Some (r', res) /\ relay_inv None ex r' /\ handled r r' /\
    (contact <$> sessions r' = contact <$> sessions r \/ accepted origin packet r r').
Proof.
  intros I Ho. unfold handle_media_packet. destruct (parse_header packet) as [[h body]|e] eqn:Eh; [|by eexists _, _; split_and!; eauto].
  destruct (route_to_session r !! hdr_route_id h) as [id|] eqn:Er; [|by eexists _, _; split_and!; eauto].
  destruct (sessions r !! id) as [s|] eqn:Es; [|by eexists _, _; split_and!; eauto].
  case_match eqn:Hg; [by eexists _, _; split_and!; eauto|]. clear Hg.
  assert (exists gate, origin_gate origin (hdr_kind h) id s r = Some gate) as [gate ->].
  { unfold origin_gate. destruct origin as [|slot]; [by eexists|]. destruct (conns_bound _ _ _ _ _ I Ho) as [entry ->]. by eexists. }
  cbn [mbind option_bind]. destruct gate as [e|]; [by eexists _, _; split_and!; eauto|].
  destruct (ri_sessions _ _ _ _ I id s Es) as [S1 S2 (w & S3 & Scap)].
  destruct (open_media_in_place (vs_protection s) (vs_recv_replay s) packet) as [replay opened] eqn:Eo.
  destruct (in_place_window _ _ _ _ _ _ S3 Eo) as (w' & Hw & Hsub & Hres).
  assert (forall c, captured (vs_protection s) c -> c ∈ Window.seen w') as Hcap by (intros c ?; by apply Hsub, Scap).
  destruct opened as [o|e].
  - pose proof (surjective_pairing (learn_address origin (ref_address_proof o) (set_replay replay s))) as El. fold (learned origin replay o s) in El.
    rewrite El. destruct (charge now (hdr_kind h) (length packet) _) as [budget admitted].
    destruct (store_ok ex r id s origin replay w' o budget now I Es Ho Hw Hcap) as (I1 & Hd & Hc). cbv zeta in I1, Hd, Hc.
    set (s2 := set_activity budget now true (learned origin replay o s)) in *.
    destruct (accepted_step ex (put_session id s2 r) id s2 now origin (ref_payload o)
      (learn_address origin (ref_address_proof o) (set_replay replay s)).2 admitted I1) as (r' & res & Hr & I' & F').
    { cbn. by rewrite lookup_insert_eq. }
    { by destruct origin. }
    exists r', res. split; [exact Hr|]. split; [done|]. split; [etrans; [exact Hd|by apply frame_handled]|]. right. exists h, body, id, s, replay, o.
    split_and!; try done. by rewrite (fr_contacts _ _ F').
  - subst replay. assert (set_replay (vs_recv_replay s) s = s) as -> by (by destruct s).
    destruct (put_session_inv tries None ex r id s s I Es eq_refl eq_refl eq_refl) as [I1 F1]; [exact (ri_sessions _ _ _ _ I id s Es)|].
    specialize (F1 eq_refl). eexists _, _. split; [done|]. split; [done|]. split; [by apply frame_handled|]. left. apply F1.
Qed.

(** The assertion in the code about a packet without an address proof: its sender
    is where the session is bound. *)
Lemma unproven_source_bound (r : relay) packet h body id s probe bind src replay o :
  parse_header packet = Ok (h, body) -> origin_gate (UdpOrigin probe bind src) (hdr_kind h) id s r = Some None ->
  open_media_in_place (vs_protection s) (vs_recv_replay s) packet = (replay, Ok o) -> ref_address_proof o = NoProof ->
  vs_udp_addr s = Some src.
Proof.
  intros Eh Hg Eo Hp. unfold open_media_in_place in Eo. rewrite Eh in Eo. case_decide; [congruence|].
  unfold origin_gate in Hg. destruct (vs_protection s) as [id' ks kr|id' key] eqn:Ep; cbn [is_clear andb] in Hg.
  - destruct (open_in_place_with_aad _ _ _ _) as [[n buf]|]; [|congruence]. destruct (decode_payload_ref _ _); [|congruence].
    destruct (AntiReplay.update _ _) as [[] w]; cbn in Eo; [|congruence]. injection Eo as _ <-. discriminate.
  - case_decide as Hk.
    + case_decide; [congruence|]. destruct (auth_proof_verify _ _ _); cbn [negb] in Eo; [|congruence].
      destruct (decode_payload_ref _ _); [|congruence].
      destruct (AntiReplay.update _ _) as [[] w]; cbn in Eo; [|congruence]. injection Eo as _ <-. discriminate.
    + destruct (decide (vs_udp_addr s = Some src)) as [|Hne]; [done|].
      by rewrite (bool_decide_true (hdr_kind h <> KIND_BIND)), (bool_decide_true (vs_udp_addr s <> Some src)) in Hg by done.
Qed.

(** ** Bursts *)

Lemma set_work_ok p ex r bit :
  relay_inv p ex r -> valid_bit (length (udp_rx r)) bit ->
  relay_inv p ex (set_udp_work (Z.lor (udp_work r) (Z.shiftl 1 (Z.of_nat bit))) r).
Proof.
  intros I Hb. destruct I as [I1 I2 I3 I4 I5 I6 I7 I8 I9 I10 I11 I12]. constructor; try done. cbn [set_udp_work udp_work udp_rx].
  destruct I11 as [Hu Hw].
  assert (bit < 64)%nat as Hlt by (unfold valid_bit, PROBE_BIT, MAX_BIND_ADDRS in *; lia). split.
  - apply u64_of_bits; [apply Z.lor_nonneg; split; [apply Hu|by apply Z.shiftl_nonneg]|].
    intros i Hi. rewrite Z.lor_spec, (u64_bits _ _ Hu Hi), shift_one, bool_decide_false by lia. done.
  - intros k. rewrite Z.lor_spec, shift_one by lia. intros [Hk|Hk]%orb_true_iff; [by apply Hw|].
    apply bool_decide_eq_true in Hk. by assert (k = bit) as -> by lia.
Qed.

Lemma work_handled r w : handled r (set_udp_work w r).
Proof. by constructor. Qed.

Lemma receive_loop_ok now probe bind bit remaining : forall ex r socket,
  relay_inv None ex r -> (bind < length (udp_rx r))%nat -> valid_bit (length (udp_rx r)) bit ->
  exists r' socket', receive_loop now probe bind bit remaining socket r = Some (r', socket') /\ relay_inv None ex r' /\ handled r r'.
Proof.
  induction remaining as [|remaining IH]; intros ex r socket I Hb Hv; cbn [receive_loop].
  { eexists _, _. split; [done|]. split; [by apply set_work_ok|apply work_handled]. }
  destruct socket as [|[src bs| |] socket]; [by eexists _, _| |by apply IH|by eexists _, _].
  destruct (handle_ok ex r now (UdpOrigin (Z.of_nat probe) bind src) (take MAX_UDP_DATAGRAM_BYTES bs) I Hb) as (r1 & res & -> & I1 & H1' & _).
  cbn [mbind option_bind]. pose proof (hd_rx _ _ H1') as Hrx.
  destruct (IH ex r1 socket I1) as (r' & socket' & -> & I' & Hh); [by rewrite Hrx|by rewrite Hrx|].
  eexists _, _. split; [done|]. split; [done|]. by etrans.
Qed.

Definition same_count (r r' : relay) : Prop := length (udp_rx r') = length (udp_rx r).

Lemma receive_ok ex r now bit :
  relay_inv None ex r -> valid_bit (length (udp_rx r)) bit ->
  exists r', receive now bit r = Some r' /\ relay_inv None ex r' /\ same_count r r'.
Proof.
  intros I Hv. unfold receive. generalize UDP_DRAIN_BUDGET. intros burst. case_decide as Hp.
  - destruct (udp_probe r) as [socket|]; [|by exists r].
    destruct (receive_loop_ok now 1 0 bit burst ex r socket I) as (r1 & socket' & -> & I1 & Hh); [apply I|done|].
    cbn [mbind option_bind]. eexists. split; [done|]. split; [destruct I1; by constructor|]. unfold same_count. cbn. by rewrite (hd_rx _ _ Hh).
  - destruct Hv as [Hlt|?]; [|done]. destruct (lookup_lt_is_Some_2 _ _ Hlt) as [socket ->]. cbn [mbind option_bind].
    destruct (receive_loop_ok now 0 bit bit burst ex r socket I Hlt) as (r1 & socket' & -> & I1 & Hh); [by left|].
    cbn [mbind option_bind]. pose proof (hd_rx _ _ Hh) as Hrx. eexists. split; [done|].
    split; [|unfold same_count; cbn; by rewrite length_insert, Hrx].
    destruct I1 as [J1 J2 J3 J4 J5 J6 J7 J8 J9 J10 J11 J12]. constructor; try done; cbn [set_udp_rx udp_rx sessions udp_work]; by rewrite length_insert.
Qed.

Lemma lane_loop_ok now slot fuel : forall ex r buf,
  relay_inv None ex r -> (slot < MAX_TCP_VOICE_CONNS)%nat -> RecvBuffer.wf buf -> (length (RecvBuffer.pending buf) < fuel)%nat ->
  exists r' rest, lane_loop fuel now slot buf r = Some (r', rest) /\ relay_inv None ex r' /\ handled r r' /\
    match rest with Some b => RecvBuffer.wf b | None => True end.
Proof.
  induction fuel as [|fuel IH]; intros ex r buf I Hs Hw Hf; [lia|]. cbn [lane_loop].
  assert (forall r1, relay_inv None ex r1 -> handled r r1 ->
    exists r' rest, (r2 ← detach_tcp_conn slot r1; Some (r2, @None RecvBuffer)) = Some (r', rest) /\ relay_inv None ex r' /\ handled r r' /\
    match rest with Some b => RecvBuffer.wf b | None => True end) as Hdetach.
  { intros r1 I1 Hh. destruct (detach_ok tries None ex slot r1 ltac:(by left) I1 Hs) as (r2 & -> & I2 & F & _). cbn [mbind option_bind].
    eexists _, _. split; [done|]. split; [done|]. split; [|done]. etrans; [done|by apply frame_handled]. }
  destruct (parse_frame_with_limit (RecvBuffer.pending buf) _) as [[[packet total]|]|e] eqn:Ep; [|by eexists _, _|by apply Hdetach].
  apply parse_frame_some in Ep as (rest & Eb & -> & Hlen).
  destruct (handle_ok ex r now (TcpOrigin slot) packet I Hs) as (r1 & res & -> & I1 & Hh & _). cbn [mbind option_bind].
  destruct res as [u|e]; [|by apply Hdetach].
  assert (length (RecvBuffer.pending buf) = Z.to_nat (4 + len packet) + length rest)%nat as Hl.
  { rewrite Eb, length_app. pose proof (len_framed packet) as Hlf. unfold len in *. lia. }
  destruct (recv_consume buf (Z.to_nat (4 + len packet)) Hw) as [Hw' Hp']; [rewrite recv_len; lia|].
  destruct (IH ex r1 (RecvBuffer.consume buf (Z.to_nat (4 + len packet))) I1 Hs Hw') as (r' & rest' & -> & I' & Hh' & Hr').
  { rewrite Hp', length_drop, Hl. pose proof (len_nonneg packet). lia. }
  eexists _, _. split; [done|]. split; [done|]. split; [by etrans|done].
Qed.

Lemma read_wf (c : lane) rx b ready : conn_wf c -> RecvBuffer.wf b -> (patience rx < tries)%nat -> conn_wf (set_read rx b ready c).
Proof. intros [] Hb Hp. by constructor. Qed.

Lemma handled_count r r' : handled r r' -> same_count r r'.
Proof. intros Hh. unfold same_count. by rewrite (hd_rx _ _ Hh). Qed.

Lemma detach_count ex slot r r1 :
  relay_inv None ex r1 -> (slot < MAX_TCP_VOICE_CONNS)%nat -> same_count r r1 ->
  exists r', detach_tcp_conn slot r1 = Some r' /\ relay_inv None ex r' /\ same_count r r'.
Proof.
  intros I Hs Hc. destruct (detach_ok tries None ex slot r1 ltac:(by left) I Hs) as (r' & -> & I' & F & _).
  exists r'. split; [done|]. split; [done|]. unfold same_count in *. by rewrite (fr_rx _ _ F).
Qed.

(** After the bytes are read: the frames are handled and the rest put back. *)
Lemma lane_frames_ok ex r c slot now buf rx ready closed :
  relay_inv None ex r -> tcp_conns r !! slot = Some (Some c) -> RecvBuffer.wf buf -> (patience rx < tries)%nat ->
  exists r',
    ('(r, rest) ← lane_loop (S (length (RecvBuffer.pending buf))) now slot buf (put_conn slot (Some (set_read rx RecvBuffer.new ready c)) r);
     match rest with
     | None => Some r
     | Some buf =>
         entry ← tcp_conns r !! slot;
         match entry with
         | None => Some r
         | Some c =>
             let r := put_conn slot (Some (set_read (conn_rx c) buf (readiness c) c)) r in
             if (closed : bool) then detach_tcp_conn slot r else Some r
         end
     end) = Some r' /\ relay_inv None ex r' /\ same_count r r'.
Proof.
  intros I Ec Hb Hp. pose proof (conn_slot _ _ _ _ _ _ I Ec) as Hs.
  assert (relay_inv None ex (put_conn slot (Some (set_read rx RecvBuffer.new ready c)) r)) as I1.
  { eapply put_conn_inv; [done|done|done|done|]. apply read_wf; [by apply (ri_conns _ _ _ _ I slot)|by apply Nat.le_0_l|done]. }
  destruct (lane_loop_ok now slot (S (length (RecvBuffer.pending buf))) ex _ buf I1 Hs Hb ltac:(lia)) as (r2 & rest & -> & I2 & Hh & Hrest).
  apply handled_count in Hh. change (same_count r r2) in Hh. cbn [mbind option_bind]. destruct rest as [b|]; [|by exists r2].
  destruct (conns_bound _ _ _ _ _ I2 Hs) as [[c2|] Ec2]; rewrite Ec2; cbn [mbind option_bind]; [|by exists r2].
  assert (relay_inv None ex (put_conn slot (Some (set_read (conn_rx c2) b (readiness c2) c2)) r2)) as I3.
  { pose proof (ri_conns _ _ _ _ I2 _ _ Ec2) as W2. eapply put_conn_inv; [done|done|done|done|]. apply read_wf; [done|done|by destruct W2]. }
  destruct closed; [by apply detach_count|]. by eexists.
Qed.

Lemma receive_tcp_ok ex r now slot :
  relay_inv None ex r -> (slot < MAX_TCP_VOICE_CONNS)%nat ->
  exists r', receive_tcp tries now slot r = Some r' /\ relay_inv None ex r' /\ same_count r r'.
Proof.
  intros I Hs. unfold receive_tcp. assert (0 < MAX_UDP_DATAGRAM_BYTES)%nat as Hm by (by apply Nat.ltb_lt).
  revert Hm. generalize MAX_UDP_DATAGRAM_BYTES VOICE_TCP_READ_BUDGET_BYTES. intros max_read allowance Hm.
  destruct (conns_bound _ _ _ _ _ I Hs) as [[c|] Ec]; rewrite Ec; cbn [mbind option_bind]; [|by exists r].
  pose proof (ri_conns _ _ _ _ I _ _ Ec) as [W1 W2 W3 W4 W5 W6].
  destruct (read_into_buffer_ok tries max_read (S allowance) (ByteBudget allowance) (conn_rx c) (read_buf c) (readiness c) W3 Hm W2)
    as (rx & buf & ready & res & Er & Hb & _ & _); [cbn [read_limit_remaining]; lia|].
  rewrite Er. apply read_into_buffer_patience in Er. cbn [mbind option_bind]. destruct res as [o|e]; [|by apply detach_count].
  assert (exists r1, (if hit_limit o then reads ← set_slot_bit (tcp_read_work r) slot; Some (set_tcp_read_work reads r) else Some r) = Some r1 /\
    relay_inv None ex r1 /\ tcp_conns r1 !! slot = Some (Some c) /\ same_count r r1) as (r1 & -> & I1 & Ec1 & Hc1).
  { destruct (hit_limit o); [|by exists r]. destruct (mark_read_ok tries None ex r slot I Hs) as (words & -> & I1). by eexists. }
  cbn [mbind option_bind]. destruct (lane_frames_ok ex r1 c slot now buf rx ready (disconnected o) I1 Ec1 Hb) as (r' & Hr & I' & Hc); [lia|].
  exists r'. split; [exact Hr|]. split; [done|]. unfold same_count in *. congruence.
Qed.

(** ** The event loop *)

Lemma same_count_trans r1 r2 r3 : same_count r1 r2 -> same_count r2 r3 -> same_count r1 r3.
Proof. unfold same_count. congruence. Qed.

Lemma sweep_slots_ok now slots : forall ex r,
  relay_inv None ex r -> Forall (fun slot => (slot < MAX_TCP_VOICE_CONNS)%nat) slots ->
  exists r', sweep_slots now slots r = Some r' /\ relay_inv None ex r' /\ same_count r r'.
Proof.
  induction slots as [|slot slots IH]; intros ex r I Hall; cbn [sweep_slots]; [by exists r|].
  apply Forall_cons in Hall as [Hs Hall]. destruct (conns_bound _ _ _ _ _ I Hs) as [entry ->]. cbn [mbind option_bind].
  assert (exists r1, match entry with
    | Some c => if bool_decide (conn_session c = None) && bool_decide (VOICE_TCP_AUTH_TIMEOUT <= duration_since now (attached_at c))
                then detach_tcp_conn slot r else Some r
    | None => Some r end = Some r1 /\ relay_inv None ex r1 /\ same_count r r1) as (r1 & -> & I1 & C1).
  { destruct entry as [c|]; [|by exists r]. destruct (_ && _); [|by exists r]. by apply detach_count. }
  cbn [mbind option_bind]. destruct (IH ex r1 I1 Hall) as (r' & -> & I' & C'). exists r'. split; [done|]. split; [done|]. by eapply same_count_trans.
Qed.

Lemma sweep_ok ex r now : relay_inv None ex r ->
  exists r', sweep_unbound_tcp_conns now r = Some r' /\ relay_inv None ex r' /\ same_count r r'.
Proof.
  intros I. unfold sweep_unbound_tcp_conns. case_decide; [by exists r|]. apply sweep_slots_ok; [done|].
  rewrite (ln_length _ _ _ (ri_lanes _ _ _ _ I)). apply Forall_forall. intros slot [_ Hs]%elem_of_seq. exact Hs.
Qed.

Lemma flush_activity_ok ex r now : relay_inv None ex r ->
  exists r', flush_activity now r = Some r' /\ relay_inv None ex r' /\ same_count r r'.
Proof.
  intros I. unfold flush_activity. case_decide; [by exists r|].
  destruct (sweep_ok ex (set_next_activity_flush (now + ACTIVITY_FLUSH_INTERVAL) r) now) as (r1 & -> & I1 & C1); [destruct I; by constructor|].
  cbn [mbind option_bind]. eexists. split; [done|]. split; [|exact C1].
  set (f := fun s => set_activity _ _ false s).
  assert (forall {A} (g : VoiceSession -> A), (forall s, g (f s) = g s) -> g <$> (f <$> sessions r1) = g <$> sessions r1) as Hf.
  { intros A g Hg. rewrite <- map_fmap_compose. apply map_fmap_ext. intros i s _. apply Hg. }
  destruct I1 as [J1 J2 J3 J4 J5 J6 J7 J8 J9 J10 J11 J12].
  constructor; cbn [set_event_buf set_sessions sessions session_slots route_to_session rooms stream_owners tcp_conns
    tcp_read_work tcp_write_work held commands udp_rx udp_work]; try done.
  - by rewrite (Hf _ seat).
  - by rewrite (Hf _ place).
  - by rewrite (Hf _ vs_tcp_conn).
  - intros id s Es. rewrite lookup_fmap in Es. destruct (sessions r1 !! id) as [s0|] eqn:E0; [|done]. injection Es as <-.
    destruct (J12 id s0 E0). by constructor.
Qed.

Lemma apply_command_ok ex r now c :
  relay_inv None (c :: ex) r -> exists r', apply_command now c r = Some r' /\ relay_inv None ex r' /\ same_env r r'.
Proof.
  intros I. destruct (is_attach c) eqn:Ea.
  { destruct c; try discriminate. cbn [apply_command]. by apply attach_ok. }
  assert (relay_inv None ex r /\ command_ok tries c) as [I' Hc].
  { destruct I as [J1 J2 J3 J4 J5 J6 J7 J8 J9 J10 J11 J12]. cbn [app] in J7, J9. rewrite attaches_cons, Ea in J7. apply Forall_cons in J9 as [J J9].
    split; [by constructor|done]. }
  destruct c; cbn [apply_command]; [by apply register_session_ok| | |discriminate|].
  - destruct (set_route_ok tries None ex r session_id route I') as (owners & rooms' & -> & I1). by eexists.
  - destruct (remove_session_ok tries ex r session_id I') as (r' & -> & I1 & _ & _ & He). by exists r'.
  - eexists. split; [done|]. split; [destruct I'; by constructor|done].
Qed.

Lemma apply_commands_ok now l : forall ex r,
  relay_inv None (l ++ ex) r -> exists r', apply_commands now l r = Some r' /\ relay_inv None ex r' /\ same_env r r'.
Proof.
  induction l as [|c l IH]; intros ex r I; cbn [apply_commands]; [by exists r|].
  destruct (apply_command_ok (l ++ ex) r now c I) as (r1 & -> & I1 & [C1 E1]). cbn [mbind option_bind].
  destruct (IH ex r1 I1) as (r' & -> & I' & [C' E']). exists r'. split; [done|]. split; [done|]. split; congruence.
Qed.

Lemma drain_commands_ok r now :
  relay_inv None [] r -> exists r', drain_commands now r = Some r' /\ relay_inv None [] r' /\ commands r' = [] /\ same_count r r'.
Proof.
  intros I. unfold drain_commands. destruct (apply_commands_ok now (commands r) [] (set_commands [] r)) as (r' & -> & I' & [C E]).
  { destruct I as [J1 J2 J3 J4 J5 J6 J7 J8 J9 J10 J11 J12]. cbn [app] in J7, J9. constructor; try done; cbn [set_commands commands]; by rewrite ?app_nil_r. }
  exists r'. split; [done|]. split; [done|]. split; [done|]. unfold same_count. by rewrite E.
Qed.

Lemma udp_pass_ok now bits : forall r,
  relay_inv None [] r -> Forall (valid_bit (length (udp_rx r))) bits ->
  exists r', udp_pass now bits r = Some r' /\ relay_inv None [] r' /\ same_count r r'.
Proof.
  induction bits as [|bit bits IH]; intros r I Hall; cbn [udp_pass]; [by exists r|]. apply Forall_cons in Hall as [Hb Hall].
  destruct (receive_ok [] r now bit I Hb) as (r1 & -> & I1 & C1). cbn [mbind option_bind].
  destruct (drain_commands_ok r1 now I1) as (r2 & -> & I2 & _ & C2). cbn [mbind option_bind].
  pose proof (same_count_trans _ _ _ C1 C2) as C12. destruct (shutting_down r2); [by exists r2|].
  destruct (IH r2 I2) as (r' & -> & I' & C'); [by rewrite C12|]. exists r'. split; [done|]. split; [done|]. by eapply same_count_trans.
Qed.

Lemma tcp_read_bits_ok now slots : forall r,
  relay_inv None [] r -> Forall (fun slot => (slot < MAX_TCP_VOICE_CONNS)%nat) slots ->
  exists r', tcp_read_bits tries now slots r = Some r' /\ relay_inv None [] r' /\ same_count r r'.
Proof.
  induction slots as [|slot slots IH]; intros r I Hall; cbn [tcp_read_bits]; [by exists r|]. apply Forall_cons in Hall as [Hs Hall].
  destruct (receive_tcp_ok [] r now slot I Hs) as (r1 & -> & I1 & C1). cbn [mbind option_bind].
  destruct (drain_commands_ok r1 now I1) as (r2 & -> & I2 & _ & C2). cbn [mbind option_bind].
  pose proof (same_count_trans _ _ _ C1 C2) as C12. destruct (shutting_down r2); [by exists r2|].
  destruct (IH r2 I2 Hall) as (r' & -> & I' & C'). exists r'. split; [done|]. split; [done|]. by eapply same_count_trans.
Qed.

Lemma flush_tcp_ok ex r now slot :
  relay_inv None ex r -> (slot < MAX_TCP_VOICE_CONNS)%nat ->
  exists r', flush_tcp now slot r = Some r' /\ relay_inv None ex r' /\ frame r r'.
Proof.
  intros I Hs. destruct (conns_bound _ _ _ _ _ I Hs) as [[c|] Ec].
  - destruct (flush_ok tries ex slot r c now I Ec) as (r' & -> & I' & [F _ _]). by exists r'.
  - exists r. split; [|done]. unfold flush_tcp. by rewrite Ec.
Qed.

Lemma tcp_write_bits_ok now slots : forall r,
  relay_inv None [] r -> Forall (fun slot => (slot < MAX_TCP_VOICE_CONNS)%nat) slots ->
  exists r', tcp_write_bits now slots r = Some r' /\ relay_inv None [] r' /\ same_count r r'.
Proof.
  induction slots as [|slot slots IH]; intros r I Hall; cbn [tcp_write_bits]; [by exists r|]. apply Forall_cons in Hall as [Hs Hall].
  destruct (flush_tcp_ok [] r now slot I Hs) as (r1 & -> & I1 & F1). cbn [mbind option_bind].
  destruct (IH r1 I1 Hall) as (r' & -> & I' & C'). exists r'. split; [done|]. split; [done|]. unfold same_count in *. by rewrite C', (fr_rx _ _ F1).
Qed.

Lemma word_slots_bound i word :
  (i < TCP_CONN_WORDS)%nat -> is_u64 word -> Forall (fun slot => (slot < MAX_TCP_VOICE_CONNS)%nat) (word_slots i word).
Proof.
  intros Hi Hw. apply Forall_forall. unfold word_slots. rewrite word_bits_spec by done. intros slot (bit & -> & Hb)%list_elem_of_fmap.
  apply list_elem_of_filter in Hb as [_ [_ Hb]%elem_of_seq]. unfold MAX_TCP_VOICE_CONNS, MAX_SESSIONS, TCP_CONN_WORDS, WORD_BITS in *. lia.
Qed.

Lemma words_take n words i :
  words_wf n words -> (i < n)%nat -> exists word, words !! i = Some word /\ is_u64 word /\ words_wf n (<[i := 0]> words).
Proof.
  intros [Hl Hw] Hi. destruct (lookup_lt_is_Some_2 words i ltac:(lia)) as [word E]. exists word. split; [done|].
  split; [by eapply (proj1 (Forall_lookup _ _))|]. split; [by rewrite length_insert|]. apply Forall_insert; [done|by split].
Qed.

Lemma some_bind {A B} (x : A) (f : A -> option B) : Some x ≫= f = f x.
Proof. done. Qed.

Lemma tcp_read_pass_ok now words : forall r,
  relay_inv None [] r -> Forall (fun i => (i < TCP_CONN_WORDS)%nat) words ->
  exists r', tcp_read_pass tries now words r = Some r' /\ relay_inv None [] r' /\ same_count r r'.
Proof.
  induction words as [|i words IH]; intros r I Hall; cbn [tcp_read_pass]; [by exists r|]. apply Forall_cons in Hall as [Hi Hall].
  destruct (shutting_down r); [by exists r|]. destruct (words_take _ _ _ (ri_reads _ _ _ _ I) Hi) as (word & -> & Hu & W). rewrite some_bind.
  pose proof (word_slots_bound i word Hi Hu) as Hslots. revert Hslots. generalize (word_slots i word). intros slots Hslots.
  destruct (tcp_read_bits_ok now slots _ (set_reads_inv tries None [] r _ W I) Hslots) as (r1 & -> & I1 & C1). change (same_count r r1) in C1.
  cbn [mbind option_bind]. destruct (IH r1 I1 Hall) as (r' & -> & I' & C'). exists r'. split; [done|]. split; [done|]. by eapply same_count_trans.
Qed.

Lemma tcp_write_pass_ok now words : forall r,
  relay_inv None [] r -> Forall (fun i => (i < TCP_CONN_WORDS)%nat) words ->
  exists r', tcp_write_pass now words r = Some r' /\ relay_inv None [] r' /\ same_count r r'.
Proof.
  induction words as [|i words IH]; intros r I Hall; cbn [tcp_write_pass]; [by exists r|]. apply Forall_cons in Hall as [Hi Hall].
  destruct (shutting_down r); [by exists r|]. destruct (words_take _ _ _ (ri_writes _ _ _ _ I) Hi) as (word & -> & Hu & W). rewrite some_bind.
  pose proof (word_slots_bound i word Hi Hu) as Hslots. revert Hslots. generalize (word_slots i word). intros slots Hslots.
  destruct (tcp_write_bits_ok now slots _ (set_writes_inv tries None [] r _ W I) Hslots) as (r1 & -> & I1 & C1). change (same_count r r1) in C1.
  cbn [mbind option_bind]. destruct (IH r1 I1 Hall) as (r' & -> & I' & C'). exists r'. split; [done|]. split; [done|]. by eapply same_count_trans.
Qed.

Lemma all_words : Forall (fun i => (i < TCP_CONN_WORDS)%nat) (seq 0 TCP_CONN_WORDS).
Proof. apply Forall_forall. by intros i [_ Hi]%elem_of_seq. Qed.

Lemma clear_work_ok p ex r : relay_inv p ex r -> relay_inv p ex (set_udp_work 0 r).
Proof.
  intros [J1 J2 J3 J4 J5 J6 J7 J8 J9 J10 J11 J12]. constructor; try done. split; [by split|]. intros bit Hb. by rewrite Z.bits_0 in Hb.
Qed.

Lemma work_valid p ex r : relay_inv p ex r -> Forall (valid_bit (length (udp_rx r))) (word_bits (udp_work r)).
Proof.
  intros I. destruct (ri_work _ _ _ _ I) as [Hu Hw]. apply Forall_forall. rewrite (word_bits_spec _ Hu).
  intros bit [Hb _]%list_elem_of_filter. by apply Hw.
Qed.

(** The part of a turn after the commands are drained. *)
Lemma turn_ok r now bits words :
  relay_inv None [] r -> Forall (valid_bit (length (udp_rx r))) bits -> Forall (fun i => (i < TCP_CONN_WORDS)%nat) words ->
  exists r', (r ← udp_pass now bits (set_udp_work 0 r);
              r ← tcp_read_pass tries now words r; r ← tcp_write_pass now words r; r ← flush_activity now r;
              Some (submit_events r)) = Some r' /\ relay_inv None [] r'.
Proof.
  intros I Hbits Hwords.
  destruct (udp_pass_ok now bits (set_udp_work 0 r)) as (r2 & -> & I2 & C2); [by apply clear_work_ok|done|].
  cbn [mbind option_bind]. destruct (tcp_read_pass_ok now words r2 I2 Hwords) as (r3 & -> & I3 & C3). cbn [mbind option_bind].
  destruct (tcp_write_pass_ok now words r3 I3 Hwords) as (r4 & -> & I4 & C4). cbn [mbind option_bind].
  destruct (flush_activity_ok [] r4 now I4) as (r5 & -> & I5 & C5). cbn [mbind option_bind]. eexists. split; [done|].
  destruct I5; by constructor.
Qed.

Lemma run_pass_ok r now : relay_inv None [] r -> exists r', run_pass tries now r = Some r' /\ relay_inv None [] r'.
Proof.
  intros I. unfold run_pass. destruct (shutting_down r); [by exists r|].
  destruct (drain_commands_ok r now I) as (r1 & -> & I1 & _ & C1). cbn [mbind option_bind].
  destruct (shutting_down r1); [by exists r1|]. exact (turn_ok r1 now _ _ I1 (work_valid _ _ _ I1) all_words).
Qed.

Lemma write_flag_wf (c : lane) b : conn_wf c -> conn_wf (set_write (conn_tx c) (write_queue c) b (backlog_since c) c).
Proof. intros []. by constructor. Qed.

Lemma poll_event_ok ex r e : relay_inv None ex r -> exists r', poll_event e r = Some r' /\ relay_inv None ex r'.
Proof.
  intros I. destruct e as [slot readable writable|token]; cbn [poll_event].
  - case_decide as Hs; [|by exists r]. destruct (conns_bound _ _ _ _ _ I Hs) as [[c|] Ec]; rewrite Ec; cbn [mbind option_bind]; [|by exists r].
    set (c1 := if readable then set_read _ _ true c else c).
    assert (conn_wf c1 /\ conn_session c1 = conn_session c /\ permit c1 = permit c) as (W1 & Hc1 & Hp1).
    { pose proof (ri_conns _ _ _ _ I _ _ Ec) as W. unfold c1. destruct readable; [|done]. split; [|done]. by apply read_wf; destruct W. }
    clearbody c1.
    assert (exists r1, (if readable then reads ← set_slot_bit (tcp_read_work r) slot; Some (set_tcp_read_work reads r) else Some r) = Some r1 /\
      relay_inv None ex r1 /\ tcp_conns r1 !! slot = Some (Some c)) as (r1 & -> & I1 & Ec1).
    { destruct readable; [|by exists r]. destruct (mark_read_ok tries None ex r slot I Hs) as (words & -> & I1). by eexists. }
    cbn [mbind option_bind].
    assert (exists r2, (if writable && negb (WriteQueue.is_empty (write_queue c1))
      then writes ← set_slot_bit (tcp_write_work r1) slot; Some (set_tcp_write_work writes r1) else Some r1) = Some r2 /\
      relay_inv None ex r2 /\ tcp_conns r2 !! slot = Some (Some c)) as (r2 & -> & I2 & Ec2).
    { destruct (writable && _); [|by exists r1]. destruct (mark_write_ok tries None ex r1 slot I1 Hs) as (words & -> & I2). by eexists. }
    cbn [mbind option_bind]. eexists. split; [done|]. destruct writable; eapply put_conn_inv; try done. by apply write_flag_wf.
  - destruct (bool_decide (token < length (udp_rx r))%nat || _) eqn:Ht; [|by exists r]. eexists. split; [done|]. apply set_work_ok; [done|].
    apply orb_true_iff in Ht as [Ht|Ht]; [left; by apply bool_decide_eq_true in Ht|].
    apply andb_true_iff in Ht as [Ht _]. right. by apply bool_decide_eq_true in Ht.
Qed.

(** ** Around the relay *)

Lemma submit_ok r c : relay_inv None [] r -> command_ok tries c -> relay_inv None [] (submit c r).
Proof.
  intros I Hc. destruct I as [J1 J2 J3 J4 J5 J6 J7 J8 J9 J10 J11 J12]. cbn [app] in J7, J9.
  assert (Forall (command_ok tries) (commands r ++ [c])) as Hall by (apply Forall_app; split; [done|by constructor]).
  assert (attaches (commands r ++ [c]) = attaches (commands r) + if is_attach c then 1 else 0)%nat as Ha.
  { unfold attaches. rewrite filter_app, length_app. f_equal. etrans; [exact (attaches_cons c [])|]. cbn. lia. }
  unfold submit. destruct (is_attach c) eqn:Ec; destruct c; try discriminate.
  all: try (constructor; try done; cbn [set_commands held commands app tcp_conns]; lia).
  case_decide; [by constructor|]. constructor; try done; cbn [set_commands set_held held commands app tcp_conns]; lia.
Qed.

Lemma new_relay_ok now udp_count probe p2p :
  (0 < udp_count <= MAX_BIND_ADDRS)%nat -> relay_inv None [] (new_relay now udp_count probe p2p).
Proof.
  intros Hn. unfold new_relay. assert (length (replicate MAX_SESSIONS (@None Z)) = MAX_SESSIONS) as Hl by apply length_replicate.
  assert (length (replicate MAX_TCP_VOICE_CONNS (@None lane)) = MAX_TCP_VOICE_CONNS) as Hc by apply length_replicate.
  assert (words_wf TCP_CONN_WORDS (replicate TCP_CONN_WORDS 0)) as Hw by (split; [apply length_replicate|apply Forall_replicate; by split]).
  assert (permits (replicate MAX_TCP_VOICE_CONNS (@None lane)) = O) as Hp.
  { unfold permits. generalize MAX_TCP_VOICE_CONNS. intros n. by induction n. }
  assert (forall k (o : option lane), replicate MAX_TCP_VOICE_CONNS None !! k = Some o -> o = None) as Hnone.
  { intros k o E. by apply lookup_replicate in E as [-> _]. }
  assert (forall k (o : option Z), replicate MAX_SESSIONS None !! k = Some o -> o = None) as Hnone'.
  { intros k o E. by apply lookup_replicate in E as [-> _]. }
  constructor; cbn [sessions session_slots route_to_session rooms stream_owners tcp_conns tcp_read_work tcp_write_work held commands udp_rx udp_work];
    rewrite ?fmap_empty, ?length_replicate; try done.
  - constructor; [done|done| |done|done]. intros slot id E. by apply Hnone' in E.
  - constructor; [done| |done]. intros slot c id E. by apply Hnone in E.
  - intros slot c E. by apply Hnone in E.
  - cbn. lia.
  - split; [by split|]. intros bit Hb. by rewrite Z.bits_0 in Hb.
Qed.

(** What happens to a relay: the control loop submits a command or drains the
    events, a socket gets a datagram or an error, the poll reports an event, the
    loop takes a turn. *)
Inductive relay_step :=
| Submit (c : VoiceCommand Rx Tx)
| DrainEvents
| Arrive (bit : nat) (d : RecvFrom)
| Ready (e : PollEvent)
| Turn (now : Z).

Definition arrive (bit : nat) (d : RecvFrom) (r : relay) : relay :=
  if decide (bit = PROBE_BIT) then set_udp_probe ((fun l => l ++ [d]) <$> udp_probe r) r
  else set_udp_rx (alter (fun l => l ++ [d]) bit (udp_rx r)) r.

Definition relay_step_run (s : relay_step) (r : relay) : option relay :=
  match s with
  | Submit c => Some (submit c r)
  | DrainEvents => Some (drain_events r).1
  | Arrive bit d => Some (arrive bit d r)
  | Ready e => poll_event e r
  | Turn now => run_pass tries now r
  end.

Fixpoint relay_run (steps : list relay_step) (r : relay) : option relay :=
  match steps with
  | [] => Some r
  | s :: steps => r ← relay_step_run s r; relay_run steps r
  end.

(** A submitted lane has a sound buffer and a socket the read pump has fuel for. *)
Definition relay_step_ok (s : relay_step) : Prop := match s with Submit c => command_ok tries c | _ => True end.

Lemma arrive_ok p ex bit d r : relay_inv p ex r -> relay_inv p ex (arrive bit d r).
Proof.
  intros I. unfold arrive. case_decide; destruct I as [J1 J2 J3 J4 J5 J6 J7 J8 J9 J10 J11 J12]; constructor; try done;
    cbn [set_udp_rx udp_rx sessions udp_work]; by rewrite length_alter.
Qed.

Lemma relay_step_inv s r :
  relay_inv None [] r -> relay_step_ok s -> exists r', relay_step_run s r = Some r' /\ relay_inv None [] r'.
Proof.
  intros I Hs. destruct s; cbn [relay_step_run].
  - eexists. split; [done|]. by apply submit_ok.
  - eexists. split; [done|]. destruct I; by constructor.
  - eexists. split; [done|]. by apply arrive_ok.
  - by apply poll_event_ok.
  - by apply run_pass_ok.
Qed.

Lemma relay_run_inv steps : forall r,
  relay_inv None [] r -> Forall relay_step_ok steps -> exists r', relay_run steps r = Some r' /\ relay_inv None [] r'.
Proof.
  induction steps as [|s steps IH]; intros r I Hall; cbn [relay_run]; [by exists r|]. apply Forall_cons in Hall as [Hs Hall].
  destruct (relay_step_inv s r I Hs) as (r1 & -> & I1). cbn [mbind option_bind]. by apply IH.
Qed.

End receives.

(** ** Theorems *)

Section theorems.
Context {Rx Tx : Type} `{StreamSocket Rx} `{StreamWriter Tx} `{PrimitiveLaws}.
Context (tries : nat).

#[local] Existing Instance nothing_captured | 10.

Abbreviation relay := (VoiceRelay Rx Tx).
Abbreviation lane := (TcpVoiceConn Rx Tx).

(** C7: the voice relay keeps its bookkeeping in order whatever happens to it.
    From a fresh relay, after any sequence of commands from the control loop,
    datagrams and socket errors, poll events and turns of the loop at any times,
    nothing has panicked (no index was out of range, no loop ran out of fuel), and
    the invariant holds: every session has its own slot and route id and both lead
    back to it; a room's bits are exactly the slots of the sessions routed to it
    and no empty room is left; a stream is owned by the session that speaks on it;
    lanes and sessions point at each other; the permits taken are those of the
    unbound lanes and queued hand-overs, 32 at most; no lane queues more than its
    cap; and the UDP work bits are those of existing media sockets, or the probe's. *)
Theorem relay_bookkeeping (now : Z) (udp_count : nat) (probe p2p : bool) (steps : list relay_step) :
  (0 < udp_count <= MAX_BIND_ADDRS)%nat -> Forall (relay_step_ok tries) steps ->
  exists r, relay_run tries steps (new_relay now udp_count probe p2p) = Some r /\ relay_inv tries None [] r.
Proof. intros Hn Hall. apply relay_run_inv; [by apply new_relay_ok|done]. Qed.

(** The gates a voice datagram passes. *)
Lemma voice_gate (r : relay) sender s probe bind src :
  (is_clear (vs_protection s) = true -> vs_udp_addr s = Some src) ->
  negb (p2p_enabled r) && bool_decide (KIND_VOICE = KIND_NAT_PROBE) && is_udp (UdpOrigin probe bind src) = false /\
  origin_gate (UdpOrigin probe bind src) KIND_VOICE sender s r = Some None.
Proof.
  intros Hc. split; [by destruct (p2p_enabled r)|]. unfold origin_gate. destruct (is_clear (vs_protection s)); [|done].
  rewrite Hc by done. by rewrite (bool_decide_false (Some src <> Some src)) by auto.
Qed.

(** A copy opens at its receiver. *)
Lemma copy_opens payload s peer window :
  media_linked (vs_protection s) peer -> payload_wf payload -> 0 <= vs_send_counter s < REJECT_AFTER_MESSAGES ->
  AntiReplay.check window (vs_send_counter s) = true ->
  exists copy opened, sealed_copy payload s = Some copy /\ (open_media peer window copy).2 = Ok opened /\
    opened_payload opened = MediaPayload.into_owned payload.
Proof.
  intros Hl Hw Hc Hf.
  destruct (seal_open_media (vs_protection s) peer window (vs_send_counter s) (MediaPayload.into_owned payload) Hl) as (copy & Hs & Ho);
    [by rewrite borrowed_owned|done|done|].
  unfold seal_media in Hs. rewrite borrowed_owned in Hs. eexists copy, _. unfold sealed_copy. rewrite Hs. split; [done|]. by rewrite Ho.
Qed.

(** C11: a voice packet reaches its room.  When a datagram from a session in a
    room is accepted as voice on the session's own stream and fits its budget, it is
    relayed to exactly the other sessions of that room, once each: a session on UDP
    gets one datagram at its own address and socket, a session on a lane gets one
    frame at the end of what the lane sends unless the lane had to be closed, every
    send uses up one counter, nobody else's session or lane changes, and each copy
    opens at its receiver to the voice that was sent. *)
Theorem voice_reaches_the_room (ex : list (VoiceCommand Rx Tx)) (r : relay) (now probe : Z) (bind : nat) (src : SocketAddr) (packet body : bytes)
    (h : UdpHeader) (sender : Z) (s : VoiceSession) (route : SessionRoute) (replay : AntiReplay) (o : OpenedMediaRef)
    (budget : MediaBudget) (sequence timestamp flags : Z) (voice : VoicePayloadRef.t) :
  let origin := UdpOrigin probe bind src in
  let payload := MediaPayloadRef.Voice (route_stream_id route) sequence timestamp flags voice in
  let s1 := learned origin replay o s in
  let r1 := put_session sender (set_activity budget now true s1) r in
  relay_inv tries None ex r -> (bind < length (udp_rx r))%nat ->
  parse_header packet = Ok (h, body) -> hdr_kind h = KIND_VOICE -> route_to_session r !! hdr_route_id h = Some sender ->
  sessions r !! sender = Some s -> vs_route s = Some route -> (is_clear (vs_protection s) = true -> vs_udp_addr s = Some src) ->
  open_media_in_place (vs_protection s) (vs_recv_replay s) packet = (replay, Ok o) -> ref_payload o = payload ->
  MediaBudget.admit_voice (vs_budget s1) now (length packet) = (budget, true) ->
  exists ids r', handle_media_packet now origin packet r = Some (r', Ok tt) /\ NoDup ids /\
    (forall id, id ∈ ids <-> roommate r sender (route_room_id route) id) /\ sent_all payload ids r1 r' /\
    forall id s' peer window, id ∈ ids -> sessions r !! id = Some s' -> media_linked (vs_protection s') peer ->
      payload_wf payload -> vs_send_counter s' < REJECT_AFTER_MESSAGES -> AntiReplay.check window (vs_send_counter s') = true ->
      exists copy opened, sealed_copy payload s' = Some copy /\ (open_media peer window copy).2 = Ok opened /\
        opened_payload opened = MediaPayload.into_owned payload.
Proof.
  intros origin payload s1 r1 I Hb Eh Hk Er Es Hr Hclear Eo Ep Ea.
  destruct (ri_sessions _ _ _ _ I sender s Es) as [_ _ (w & Hw0 & _)]. destruct (in_place_window _ _ _ _ _ _ Hw0 Eo) as (w' & Hw & _).
  destruct (store_ok tries ex r sender s origin replay w' o budget now I Es Hb Hw) as (I1 & Hd & Hc); [done|].
  pose proof (learned_same origin replay o s) as (_ & Hplace & _).
  destruct (relay_voice_ok tries ex r1 sender (set_activity budget now true s1) route now sequence timestamp flags voice I1)
    as (ids & r' & Hrun & I' & Hnd & Hin & Sa); [apply lookup_insert_eq|injection Hplace as _ Hrt; by rewrite <- Hr, <- Hrt|].
  exists ids, r'. split_and!; [|done| |done|].
  - unfold handle_media_packet. rewrite Eh, Er, Es, Hk. destruct (voice_gate r sender s probe bind src Hclear) as [Hg1 Hg2].
    fold origin in Hg1, Hg2. rewrite Hg1, Hg2. cbn [mbind option_bind]. rewrite Eo.
    pose proof (surjective_pairing (learn_address origin (ref_address_proof o) (set_replay replay s))) as El. fold (learned origin replay o s) in El.
    rewrite El. fold s1. unfold charge. rewrite decide_True by done. rewrite Ea. cbn [mbind option_bind negb].
    rewrite Ep. unfold payload. cbn [dispatch]. change (put_session sender _ r) with r1.
    unfold origin. cbn [mbind option_bind]. rewrite Hrun. done.
  - intros id. rewrite Hin. unfold roommate. split; intros (Hne & s' & rt & Es' & Hrt); (split; [done|]); exists s', rt;
      (split; [|done]); revert Es'; unfold r1, put_session, set_sessions; cbn [sessions]; by rewrite lookup_insert_ne by done.
  - intros id s' peer window Hid Es' Hl Hwf Hlt Hf. apply copy_opens; [done|done| |done].
    destruct (ri_sessions _ _ _ _ I id s' Es') as [_ [Hpos _] _]. by split.
Qed.

Lemma contact_at (m m' : gmap Z VoiceSession) id s :
  contact <$> m' = contact <$> m -> m !! id = Some s -> exists s', m' !! id = Some s' /\ contact s' = contact s.
Proof.
  intros E Es. apply (f_equal (lookup id)) in E. rewrite !lookup_fmap, Es in E. destruct (m' !! id) as [s'|]; [|done].
  injection E as E1 E2 E3 E4. exists s'. split; [done|]. unfold contact. congruence.
Qed.

(** What a change of address says of the packet. *)
Lemma learned_moved origin replay o s :
  vs_udp_addr (learned origin replay o s) <> vs_udp_addr s ->
  exists bind src, origin = UdpOrigin 0 bind src /\ ref_address_proof o <> NoProof /\
    vs_udp_addr (learned origin replay o s) = Some src /\ vs_udp_bind_index (learned origin replay o s) = bind.
Proof.
  unfold learned, learn_address. destruct origin as [probe bind src|slot]; [|by destruct (ref_address_proof o)].
  destruct (ref_address_proof o); try done; (case_decide as Hp; [|done]); subst probe; intros _; exists bind, src;
    (split; [done|]); (split; [done|]); by repeat case_match.
Qed.

Lemma learned_keys origin replay o s :
  vs_protection (learned origin replay o s) = vs_protection s /\ vs_recv_replay (learned origin replay o s) = replay.
Proof.
  unfold learned, learn_address. destruct origin, (ref_address_proof o); try done; (case_decide; [|done]); by repeat case_match.
Qed.

(** The keys of a session are not registered a second time. *)
Definition registers (p : MediaProtection) (c : VoiceCommand Rx Tx) : Prop :=
  match c with RegisterSession _ _ p' => p' = p | _ => False end.

Definition registers_step (p : MediaProtection) (s : relay_step (Rx := Rx) (Tx := Tx)) : Prop :=
  match s with Submit c => registers p c | _ => False end.

(** One counter of one session's keys. *)
Definition capture (p : MediaProtection) (c : Z) : Captured := fun p' c' => p' = p /\ c' = c.

Lemma capture_command p c cmd :
  command_ok (caught := nothing_captured) tries cmd -> ~ registers p cmd -> command_ok (caught := capture p c) tries cmd.
Proof. destruct cmd; try done. intros _ Hne c' [-> _]. by apply Hne. Qed.

Lemma capture_inv p c r :
  relay_inv tries None [] r -> Forall (fun cmd => ~ registers p cmd) (commands r) ->
  (forall id s, sessions r !! id = Some s -> vs_protection s = p -> exists w, refines (vs_recv_replay s) w /\ c ∈ Window.seen w) ->
  relay_inv (caught := capture p c) tries None [] r.
Proof.
  intros [J1 J2 J3 J4 J5 J6 J7 J8 J9 J10 J11 J12] Hc Hs. constructor; try done.
  - cbn [app] in *. rewrite !Forall_forall in *. intros cmd Hin. apply capture_command; [by apply J9|by apply Hc].
  - intros id s Es. destruct (J12 id s Es) as [S1 S2 (w & Hw & _)]. constructor; [done|done|].
    destruct (decide (vs_protection s = p)) as [Hp|Hp].
    + destruct (Hs id s Es Hp) as (w' & Hw' & Hin). exists w'. split; [done|]. by intros c' [_ ->].
    + exists w. split; [done|]. by intros c' [? _].
Qed.

(** A captured datagram moves no session under the keys it was accepted with. *)
Lemma captured_ignored p c (r : relay) now origin packet :
  relay_inv (caught := capture p c) tries None [] r -> origin_ok r origin ->
  (forall r2 w2, refines r2 w2 -> c ∈ Window.seen w2 -> open_media_in_place p r2 packet = (r2, Err MediaReplay)) ->
  exists r' res, handle_media_packet now origin packet r = Some (r', res) /\
    forall id s, sessions r !! id = Some s -> vs_protection s = p ->
      exists s', sessions r' !! id = Some s' /\ contact s' = contact s.
Proof.
  intros I Ho Hrep. destruct (handle_ok (caught := capture p c) tries [] r now origin packet I Ho) as (r' & res & Hr & _ & _ & Hc).
  exists r', res. split; [done|]. intros id s Es Hp.
  destruct Hc as [Hc|(h & body & id0 & s0 & replay & o & Eh & Er & Es0 & Eo & Hc)]; [by apply (contact_at _ _ _ _ Hc)|].
  destruct (decide (id0 = id)) as [->|Hne].
  - assert (s0 = s) as -> by congruence. destruct (so_replay _ _ (ri_sessions _ _ _ _ I id s Es)) as (w & Hw & Hseen).
    rewrite Hp, (Hrep _ w Hw) in Eo; [discriminate|]. apply Hseen. by split.
  - assert ((contact <$> sessions r') !! id = (contact <$> sessions r) !! id) as Hid by (by rewrite Hc, lookup_insert_ne).
    rewrite !lookup_fmap, Es in Hid. destruct (sessions r' !! id) as [s'|]; [|done]. exists s'. split; [done|]. exact (inj Some _ _ Hid).
Qed.

(** Two sessions under the same keys are one. *)
Lemma keys_owner caught ex (r : relay) a b sa sb :
  relay_inv (caught := caught) tries None ex r -> sessions r !! a = Some sa -> sessions r !! b = Some sb ->
  vs_protection sa = vs_protection sb -> a = b.
Proof.
  intros I Ea Eb Hp. pose proof (sl_route _ _ _ (ri_slots _ _ _ _ I) a (seat sa)) as Ha.
  pose proof (sl_route _ _ _ (ri_slots _ _ _ _ I) b (seat sb)) as Hb. rewrite lookup_fmap, Ea in Ha. rewrite lookup_fmap, Eb in Hb.
  specialize (Ha eq_refl). specialize (Hb eq_refl). unfold seat in Ha, Hb. cbn [snd] in Ha, Hb. rewrite Hp in Ha. congruence.
Qed.


End theorems.

(** ** Witnesses *)

#[local] Existing Instance nothing_captured.
#[local] Existing Instances Toy.toy Toy.toy_laws Script.source Script.stream Script.writer Script.stream_writer.

(** Two sessions in a room, both on UDP. *)
Module Party.

Definition addr (port : Z) : SocketAddr := SockV4 167772161 port.
Definition keys (route : Z) : MediaProtection := MediaAead route Datagrams.key Datagrams.key.
Definition packet (route counter : Z) (m : MediaPayload.t) : bytes := Datagrams.packet (keys route) counter m.

Definition steps : list (relay_step (Rx := list (option bytes)) (Tx := Script.sink)) :=
  [Submit (RegisterSession 1 11 (keys 77)); Submit (RegisterSession 2 12 (keys 78));
   Submit (SetRoute 1 (Some (mkRoute 5 3))); Submit (SetRoute 2 (Some (mkRoute 5 4))); Turn 1;
   Arrive 0 (Datagram (addr 1001) (packet 77 0 MediaPayload.Bind)); Arrive 0 (Datagram (addr 1002) (packet 78 0 MediaPayload.Bind));
   Ready (UdpReady 0); Turn 2].

Definition start : VoiceRelay (list (option bytes)) Script.sink := new_relay 0 1 false false.
Definition room : VoiceRelay (list (option bytes)) Script.sink := default start (relay_run 4 steps start).

Definition voice : MediaPayload.t := MediaPayload.Voice 3 10 960 1 (VoicePayload.Opus (ascii_bytes "opus")).
Definition ping : MediaPayload.t := MediaPayload.Ping 8 None.

(** The first session, its packet opened and its budget after it, evaluated. *)
Definition first : VoiceSession := Eval vm_compute in default (new_session 0 0 0 (keys 0)) (sessions room !! 1).
Definition opened : option (AntiReplay * OpenedMediaRef) := Eval vm_compute in
  match open_media_in_place (vs_protection first) (vs_recv_replay first) (packet 77 1 voice) with (w, Ok o) => Some (w, o) | _ => None end.

(** A second of traffic in the room. *)
Definition more : list (relay_step (Rx := list (option bytes)) (Tx := Script.sink)) :=
  [Arrive 0 (Datagram (addr 2001) (packet 77 2 ping)); Ready (UdpReady 0); Turn 4].

End Party.

(** The room after the two binds, and one voice packet in it. *)
Example party_sends : exists r, handle_media_packet 3 (UdpOrigin 0 0 (Party.addr 1001)) (Party.packet 77 1 Party.voice) Party.room = Some (r, Ok tt) /\
  udp_sent r = [(O, Party.addr 1002, Party.packet 78 0 Party.voice)].
Proof. eexists. split; vm_compute; reflexivity. Qed.

Lemma party_steps_ok : Forall (relay_step_ok 4) Party.steps.
Proof. repeat constructor; intros c []. Qed.

Lemma party_room : relay_run 4 Party.steps Party.start = Some Party.room /\ relay_inv 4 None [] Party.room.
Proof.
  destruct (relay_run_inv 4 Party.steps Party.start) as (r & Er & I); [apply new_relay_ok; vm_compute; lia|apply party_steps_ok|].
  unfold Party.room. rewrite Er. split; [reflexivity|exact I].
Qed.

Lemma party_first : sessions Party.room !! 1 = Some Party.first.
Proof. vm_compute. reflexivity. Qed.

Lemma party_tables : route_to_session Party.room !! 77 = Some 1 /\ length (udp_rx Party.room) = 1%nat.
Proof. split; vm_compute; reflexivity. Qed.

Lemma party_header : parse_header (Party.packet 77 1 Party.voice) =
  Ok ({| hdr_version := UDP_VERSION; hdr_kind := KIND_VOICE; hdr_route_id := 77; hdr_counter := 1 |}, drop UDP_HEADER_LEN (Party.packet 77 1 Party.voice)).
Proof. vm_compute. reflexivity. Qed.

(** The first session speaks. *)
Lemma party_voice : exists replay o budget,
  open_media_in_place (vs_protection Party.first) (vs_recv_replay Party.first) (Party.packet 77 1 Party.voice) = (replay, Ok o) /\
  ref_payload o = MediaPayloadRef.Voice 3 10 960 1 (VoicePayloadRef.Opus (ascii_bytes "opus")) /\
  MediaBudget.admit_voice (vs_budget (learned (UdpOrigin 0 0 (Party.addr 1001)) replay o Party.first)) 3
    (length (Party.packet 77 1 Party.voice)) = (budget, true).
Proof.
  destruct Party.opened as [[w o]|] eqn:E; [|discriminate]. exists w, o. injection E as <- <-.
  exists (MediaBudget.admit_voice (vs_budget Party.first) 3 (length (Party.packet 77 1 Party.voice))).1.
  split; [vm_compute; reflexivity|]. split; [reflexivity|]. vm_compute. reflexivity.
Qed.

(** The first session pings from another port. *)
Lemma party_ping :
  match handle_media_packet 3 (UdpOrigin 0 0 (Party.addr 2001)) (Party.packet 77 1 Party.ping) Party.room with
  | Some (r, res) => res = Ok tt /\ vs_udp_addr <$> sessions r !! 1 = Some (Some (Party.addr 2001)) /\ length (udp_rx r) = 1%nat
  | None => False
  end.
Proof. vm_compute. split_and!; reflexivity. Qed.

Lemma party_idle : commands Party.room = [].
Proof. vm_compute. reflexivity. Qed.

Lemma party_later r later :
  handle_media_packet 3 (UdpOrigin 0 0 (Party.addr 2001)) (Party.packet 77 1 Party.ping) Party.room = Some (r, Ok tt) ->
  relay_run 4 Party.more r = Some later -> origin_ok later (UdpOrigin 0 0 (Party.addr 2002)).
Proof.
  intros Hr Hl.
  assert (match handle_media_packet 3 (UdpOrigin 0 0 (Party.addr 2001)) (Party.packet 77 1 Party.ping) Party.room with
    | Some (r, _) => match relay_run 4 Party.more r with Some later => length (udp_rx later) = 1%nat | None => False end
    | None => False end) as Hc by (vm_compute; reflexivity).
  rewrite Hr, Hl in Hc. cbn [origin_ok]. rewrite Hc. lia.
Qed.

(** C7 at two sessions that join a room and bind their addresses. *)
Lemma relay_bookkeeping_witness :
  exists r, relay_run 4 Party.steps Party.start = Some r /\ relay_inv 4 None [] r.
Proof.
  apply (relay_bookkeeping 4 0 1 false false Party.steps).
  - vm_compute. lia.
  - repeat constructor; intros c [].
Defined.

(** C11 at the first of them speaking. *)
Lemma voice_reaches_the_room_witness :
  exists ids r, handle_media_packet 3 (UdpOrigin 0 0 (Party.addr 1001)) (Party.packet 77 1 Party.voice) Party.room = Some (r, Ok tt) /\
    NoDup ids /\ forall id, id ∈ ids <-> roommate Party.room 1 5 id.
Proof.
  destruct party_voice as (replay & o & budget & Eo & Ep & Ea). destruct party_tables as [Ht Hrx].
  destruct (voice_reaches_the_room 4 [] Party.room 3 0 0 (Party.addr 1001) (Party.packet 77 1 Party.voice)
    (drop UDP_HEADER_LEN (Party.packet 77 1 Party.voice)) {| hdr_version := UDP_VERSION; hdr_kind := KIND_VOICE; hdr_route_id := 77; hdr_counter := 1 |}
    1 Party.first (mkRoute 5 3) replay o budget 10 960 1 (VoicePayloadRef.Opus (ascii_bytes "opus"))) as (ids & r & Hh & Hnd & Hin & _).
  - apply party_room.
  - rewrite Hrx. lia.
  - exact party_header.
  - reflexivity.
  - exact Ht.
  - exact party_first.
  - reflexivity.
  - discriminate.
  - exact Eo.
  - exact Ep.
  - exact Ea.
  - exists ids, r. split; [exact Hh|]. split; [exact Hnd|exact Hin].
Defined.

