(* ===== verification/Agent.v ===== *)
(** * The traversal agent

    Models src/crates/p2p/src/agent.rs: connectivity checks over candidate
    pairs, role conflicts, selection, keepalives and consent to send.  An
    operation that can panic (an index, an [expect], a sum of an instant and a
    duration, a product of durations) returns an [option]; the invariant [agent_wf] shows that none of them does. *)

From S2P Require Import Prelude Primitives Text Auth Net Stun Clock.

(** ** Configuration *)

Definition DEFAULT_MIN_CHECK_INTERVAL : Z := from_millis 25.
Definition DEFAULT_HANDSHAKE_MIN_DURATION : Z := from_secs 3.
Definition DEFAULT_CHECK_DEADLINE : Z := from_secs 5.
Definition DEFAULT_INITIAL_RTO : Z := from_millis 100.
Definition DEFAULT_MAX_RTO : Z := from_millis 800.
Definition DEFAULT_KEEPALIVE_INTERVAL : Z := from_secs 10.
Definition DEFAULT_RESTART_AFTER_IDLE : Z := from_secs 5.
Definition DEFAULT_DISCONNECT_AFTER_IDLE : Z := from_secs 15.
Definition DEFAULT_CONSENT_TIMEOUT : Z := from_secs 30.
Definition MAX_KEEPALIVE_JITTER : f64 := f64_literal 12 10.
Definition DEFAULT_MAX_CHECK_ATTEMPTS : Z := 5.

Inductive IceRole := RoleControlling | RoleControlled.

#[export] Instance IceRole_eq_dec : EqDecision IceRole.
Proof. solve_decision. Defined.

Definition is_controlling (r : IceRole) : bool :=
  match r with RoleControlling => true | RoleControlled => false end.

Record StunAuth := mkStunAuth { auth_key : bytes; transaction_salt : bytes }.

Record AgentConfig := mkAgentConfig {
  auth : StunAuth;
  cfg_username : option bytes;
  min_check_interval : Z;
  handshake_min_duration : Z;
  check_deadline : Z;
  initial_rto : Z;
  max_rto : Z;
  keepalive_interval : Z;
  restart_after_idle : Z;
  disconnect_after_idle : Z;
  consent_timeout : Z;
  max_check_attempts : Z;
}.

Inductive AgentConfigError := ConsentTimeoutTooSmall (keepalive_interval consent_timeout : Z).

Module AgentConfig.

Definition with_auth (a : StunAuth) : AgentConfig :=
  {| auth := a; cfg_username := None;
     min_check_interval := DEFAULT_MIN_CHECK_INTERVAL;
     handshake_min_duration := DEFAULT_HANDSHAKE_MIN_DURATION;
     check_deadline := DEFAULT_CHECK_DEADLINE;
     initial_rto := DEFAULT_INITIAL_RTO;
     max_rto := DEFAULT_MAX_RTO;
     keepalive_interval := DEFAULT_KEEPALIVE_INTERVAL;
     restart_after_idle := DEFAULT_RESTART_AFTER_IDLE;
     disconnect_after_idle := DEFAULT_DISCONNECT_AFTER_IDLE;
     consent_timeout := DEFAULT_CONSENT_TIMEOUT;
     max_check_attempts := DEFAULT_MAX_CHECK_ATTEMPTS |}.

Definition validate (c : AgentConfig) : option (result AgentConfigError ()) :=
  max_keepalive ← mul_f64 (keepalive_interval c) MAX_KEEPALIVE_JITTER;
  Some (if decide (consent_timeout c <= max_keepalive)
        then Err (ConsentTimeoutTooSmall (keepalive_interval c) (consent_timeout c))
        else Ok ()).

End AgentConfig.

(** ** Actions *)

Inductive FallbackReason :=
| RelayCandidateAvailable
| SymmetricSymmetric
| NoCommonAddressFamily
| DirectChecksFailed.

Inductive RestartReason := Idle.

Record SelectedPair := mkSelected {
  local_candidate_id : option Z;
  remote_candidate_id : option Z;
  remote_addr : SocketAddr;
  peer_reflexive : bool;
}.

Record CandidatePairId := mkPairId { local_id : Z; remote_id : Z }.

#[export] Instance CandidatePairId_eq_dec : EqDecision CandidatePairId.
Proof. solve_decision. Defined.

Inductive Action :=
| UseRelay (relay : option SocketAddr) (reason : FallbackReason)
| SendStun (to : SocketAddr) (bs : bytes) (transaction_id : bytes) (pair : CandidatePairId) (retransmit : bool)
| SendStunResponse (to : SocketAddr) (bs : bytes) (transaction_id : bytes)
| SendKeepalive (to : SocketAddr) (bs : bytes) (transaction_id : bytes)
| DirectReady (selected : SelectedPair)
| Migrated (selected : SelectedPair)
| IceRestart (reason : RestartReason)
| Disconnected
| ConsentExpired.

(** ** State *)

Inductive PairState := Waiting | InProgress | Succeeded | Failed.

#[export] Instance PairState_eq_dec : EqDecision PairState.
Proof. solve_decision. Defined.

Record CandidatePair := mkPair {
  pair_id : CandidatePairId;
  local_index : nat;
  remote_index : nat;
  prio : Z;
  state : PairState;
  tx_id : option bytes;
  first_sent_at : option Z;
  next_due_at : option Z;
  rto : Z;
  attempts : Z;
}.

(** [transactions] maps a transaction to the index of its pair. *)
Record TraversalAgent := mkAgent {
  config : AgentConfig;
  agent_role : IceRole;
  tie_breaker : Z;
  local_nat : NatKind;
  remote_nat : NatKind;
  local_candidates : list Candidate;
  remote_candidates : list Candidate;
  pairs : list CandidatePair;
  transactions : gmap bytes nat;
  start : Z;
  next_check_at : Z;
  last_check_family : option NetworkFamily;
  transaction_counter : Z;
  next_candidate_id : Z;
  relay_announced : bool;
  direct_failed_announced : bool;
  peer_reflexive_seen : bool;
  selected : option SelectedPair;
  last_rx_at : option Z;
  last_consent_response : option Z;
  next_keepalive_at : option Z;
  keepalive_counter : Z;
  restart_announced : bool;
  disconnected_announced : bool;
  consent_expired_announced : bool;
}.

(** [{ a with proj := v }], from the record's own expansion. *)
Ltac set_field a proj v :=
  let e := constr:(mkAgent (config a) (agent_role a) (tie_breaker a) (local_nat a) (remote_nat a)
    (local_candidates a) (remote_candidates a) (pairs a) (transactions a) (start a) (next_check_at a)
    (last_check_family a) (transaction_counter a) (next_candidate_id a) (relay_announced a)
    (direct_failed_announced a) (peer_reflexive_seen a) (selected a) (last_rx_at a)
    (last_consent_response a) (next_keepalive_at a) (keepalive_counter a) (restart_announced a)
    (disconnected_announced a) (consent_expired_announced a)) in
  match e with context C [proj a] => let e' := context C [v] in exact e' end.

(** Assignments to the fields. *)
Definition set_role (v : IceRole) (a : TraversalAgent) : TraversalAgent := ltac:(set_field a agent_role v).
Definition set_remote_candidates (v : list Candidate) (a : TraversalAgent) : TraversalAgent := ltac:(set_field a remote_candidates v).
Definition set_pairs (v : list CandidatePair) (a : TraversalAgent) : TraversalAgent := ltac:(set_field a pairs v).
Definition set_transactions (v : gmap bytes nat) (a : TraversalAgent) : TraversalAgent := ltac:(set_field a transactions v).
Definition set_next_check_at (v : Z) (a : TraversalAgent) : TraversalAgent := ltac:(set_field a next_check_at v).
Definition set_last_check_family (v : option NetworkFamily) (a : TraversalAgent) : TraversalAgent := ltac:(set_field a last_check_family v).
Definition set_transaction_counter (v : Z) (a : TraversalAgent) : TraversalAgent := ltac:(set_field a transaction_counter v).
Definition set_next_candidate_id (v : Z) (a : TraversalAgent) : TraversalAgent := ltac:(set_field a next_candidate_id v).
Definition set_relay_announced (v : bool) (a : TraversalAgent) : TraversalAgent := ltac:(set_field a relay_announced v).
Definition set_direct_failed_announced (v : bool) (a : TraversalAgent) : TraversalAgent := ltac:(set_field a direct_failed_announced v).
Definition set_peer_reflexive_seen (v : bool) (a : TraversalAgent) : TraversalAgent := ltac:(set_field a peer_reflexive_seen v).
Definition set_selected (v : option SelectedPair) (a : TraversalAgent) : TraversalAgent := ltac:(set_field a selected v).
Definition set_last_rx_at (v : option Z) (a : TraversalAgent) : TraversalAgent := ltac:(set_field a last_rx_at v).
Definition set_last_consent_response (v : option Z) (a : TraversalAgent) : TraversalAgent := ltac:(set_field a last_consent_response v).
Definition set_next_keepalive_at (v : option Z) (a : TraversalAgent) : TraversalAgent := ltac:(set_field a next_keepalive_at v).
Definition set_keepalive_counter (v : Z) (a : TraversalAgent) : TraversalAgent := ltac:(set_field a keepalive_counter v).
Definition set_restart_announced (v : bool) (a : TraversalAgent) : TraversalAgent := ltac:(set_field a restart_announced v).
Definition set_disconnected_announced (v : bool) (a : TraversalAgent) : TraversalAgent := ltac:(set_field a disconnected_announced v).
Definition set_consent_expired_announced (v : bool) (a : TraversalAgent) : TraversalAgent := ltac:(set_field a consent_expired_announced v).

(** [iter().enumerate()]. *)
Definition enumerate {A} (l : list A) : list (nat * A) := imap (fun i x => (i, x)) l.

Definition other_family (f : NetworkFamily) : NetworkFamily := match f with Ipv4 => Ipv6 | Ipv6 => Ipv4 end.

(** ** Selection and consent *)

Definition refresh_consent (now : Z) (a : TraversalAgent) : TraversalAgent :=
  set_consent_expired_announced false (set_last_consent_response (Some now) a).

Definition install_selected (now : Z) (s : SelectedPair) (a : TraversalAgent) : option TraversalAgent :=
  let a := set_selected (Some s) a in
  let a := set_last_rx_at (Some now) a in
  at_ ← instant_add now (keepalive_interval (config a));
  let a := set_next_keepalive_at (Some at_) a in
  let a := set_restart_announced false a in
  let a := set_disconnected_announced false a in
  Some (refresh_consent now a).

Definition select_peer_reflexive (src : SocketAddr) (a : TraversalAgent) : option (SelectedPair * TraversalAgent) :=
  match (s ← selected a; guard (remote_addr s = src);; Some s) with
  | Some s => Some (s, a)
  | None =>
      let '(remote_candidate_id, a) :=
        match list_find (fun c => cand_addr c = src) (remote_candidates a) with
        | Some (_, c) => (Some (cand_id c), a)
        | None =>
            let id := next_candidate_id a in
            let a := set_next_candidate_id (Z.max (wrap 32 (next_candidate_id a + 1)) 1) a in
            (Some id, set_remote_candidates (remote_candidates a ++ [Candidate.new id PeerReflexive src]) a)
        end in
      let local_candidate_id :=
        snd <$> list_find (fun c => Candidate.family c = family_of src) (local_candidates a) in
      let s := {| local_candidate_id := cand_id <$> local_candidate_id;
                  remote_candidate_id := remote_candidate_id;
                  remote_addr := src; peer_reflexive := true |} in
      a ← install_selected (default (start a) (last_rx_at a)) s a;
      Some (s, a)
  end.

(** ** Candidate pairs *)

(** One turn of the inner loop of [rebuild_pairs]; [existing] holds the ids of
    the pairs there are. *)
Definition try_pair (c : AgentConfig) (r : IceRole) (st : list CandidatePairId * list CandidatePair)
    (l rm : nat * Candidate) : list CandidatePairId * list CandidatePair :=
  let '(existing, ps) := st in
  let '(local_index, local) := l in
  let '(remote_index, remote) := rm in
  if negb (Candidate.can_pair_with local remote) then (existing, ps)
  else
    let id := {| local_id := cand_id local; remote_id := cand_id remote |} in
    if decide (id ∈ existing) then (existing, ps)
    else
      (id :: existing,
       ps ++ [{| pair_id := id; local_index := local_index; remote_index := remote_index;
                 prio := pair_priority local remote (is_controlling r); state := Waiting;
                 tx_id := None; first_sent_at := None; next_due_at := None;
                 rto := initial_rto c; attempts := 0 |}]).

Definition rebuild_pairs (a : TraversalAgent) : TraversalAgent :=
  let st := foldl (fun st l =>
      foldl (fun st r => try_pair (config a) (agent_role a) st l r) st (enumerate (remote_candidates a)))
    (pair_id <$> pairs a, pairs a) (enumerate (local_candidates a)) in
  set_pairs st.2 a.

Definition add_remote_candidate (now : Z) (c : Candidate) (a : TraversalAgent) : TraversalAgent :=
  let a := set_next_candidate_id (Z.max (next_candidate_id a) (Z.max (wrap 32 (cand_id c + 1)) 1)) a in
  let a := set_remote_candidates (remote_candidates a ++ [c]) a in
  rebuild_pairs a.

Definition new (now : Z) (c : AgentConfig) (r : IceRole) (tie : Z) (local_nat remote_nat : NatKind)
    (local remote : list Candidate) : option TraversalAgent :=
  valid ← AgentConfig.validate c;
  match valid with
  | Err _ => None
  | Ok () =>
      let highest := foldr Z.max 0 (cand_id <$> local ++ remote) in
      Some (rebuild_pairs
        {| config := c; agent_role := r; tie_breaker := tie; local_nat := local_nat;
           remote_nat := remote_nat; local_candidates := local; remote_candidates := remote;
           pairs := []; transactions := ∅; start := now; next_check_at := now;
           last_check_family := None; transaction_counter := 1;
           next_candidate_id := Z.max (wrap 32 (highest + 1)) 1;
           relay_announced := false; direct_failed_announced := false; peer_reflexive_seen := false;
           selected := None; last_rx_at := None; last_consent_response := None;
           next_keepalive_at := None; keepalive_counter := 0; restart_announced := false;
           disconnected_announced := false; consent_expired_announced := false |})
  end.

Definition set_prio (v : Z) (p : CandidatePair) : CandidatePair :=
  {| pair_id := pair_id p; local_index := local_index p; remote_index := remote_index p; prio := v;
     state := state p; tx_id := tx_id p; first_sent_at := first_sent_at p;
     next_due_at := next_due_at p; rto := rto p; attempts := attempts p |}.

Definition recompute_pair_priorities (a : TraversalAgent) : option TraversalAgent :=
  ps ← mapM (fun p =>
    local ← local_candidates a !! local_index p;
    remote ← remote_candidates a !! remote_index p;
    Some (set_prio (pair_priority local remote (is_controlling (agent_role a))) p)) (pairs a);
  Some (set_pairs ps a).

Definition resolve_role_conflict (m : StunMessage) (a : TraversalAgent) : option TraversalAgent :=
  match agent_role a, role m with
  | RoleControlling, Some (Controlling remote) =>
      if decide (remote > tie_breaker a) then recompute_pair_priorities (set_role RoleControlled a) else Some a
  | RoleControlled, Some (Controlled remote) =>
      if decide (tie_breaker a > remote) then recompute_pair_priorities (set_role RoleControlling a) else Some a
  | _, _ => Some a
  end.

Definition role_attribute (a : TraversalAgent) : RoleAttribute :=
  match agent_role a with
  | RoleControlling => Controlling (tie_breaker a)
  | RoleControlled => Controlled (tie_breaker a)
  end.

Definition accepts_username (a : TraversalAgent) (u : option bytes) : bool :=
  match cfg_username (config a), u with
  | Some expected, Some actual => bool_decide (expected = actual)
  | Some _, None => false
  | None, _ => true
  end.

Definition all_pairs_failed (a : TraversalAgent) : bool :=
  negb (bool_decide (pairs a = [])) && forallb (fun p => bool_decide (state p = Failed)) (pairs a).

Definition relay_addr (a : TraversalAgent) : option SocketAddr :=
  (fun x => cand_addr x.2) <$> list_find (fun c => cand_kind c = Relay) (remote_candidates a ++ local_candidates a).

(** ** Check scheduling *)

Definition pair_is_allowed (a : TraversalAgent) (p : CandidatePair) : option bool :=
  if is_cone (local_nat a) && is_symmetric (remote_nat a) && negb (peer_reflexive_seen a) then
    remote ← remote_candidates a !! remote_index p;
    Some (match cand_kind remote with ServerReflexive | PeerReflexive => false | _ => true end)
  else Some true.

Definition pair_is_eligible (a : TraversalAgent) (p : CandidatePair) : option bool :=
  if decide (state p = Waiting) then pair_is_allowed a p else Some false.

Definition pair_family (a : TraversalAgent) (index : nat) : option NetworkFamily :=
  p ← pairs a !! index;
  local ← local_candidates a !! local_index p;
  Some (Candidate.family local).

(** The first loop of [next_waiting_pair]: which families have an eligible pair. *)
Fixpoint eligible_families (a : TraversalAgent) (ps : list (nat * CandidatePair)) (has_v4 has_v6 : bool)
    : option (bool * bool) :=
  match ps with
  | [] => Some (has_v4, has_v6)
  | (index, p) :: ps =>
      eligible ← pair_is_eligible a p;
      if negb eligible then eligible_families a ps has_v4 has_v6
      else
        f ← pair_family a index;
        match f with
        | Ipv4 => eligible_families a ps true has_v6
        | Ipv6 => eligible_families a ps has_v4 true
        end
  end.

(** Its second loop: the first of the eligible pairs of highest priority. *)
Fixpoint best_waiting (a : TraversalAgent) (preferred : option NetworkFamily)
    (ps : list (nat * CandidatePair)) (best : option nat) (best_priority : Z) : option (option nat) :=
  match ps with
  | [] => Some best
  | (index, p) :: ps =>
      eligible ← pair_is_eligible a p;
      if negb eligible then best_waiting a preferred ps best best_priority
      else
        skip ← match preferred with
               | Some f => g ← pair_family a index; Some (bool_decide (g <> f))
               | None => Some false
               end;
        if (skip : bool) then best_waiting a preferred ps best best_priority
        else if bool_decide (best = None) || bool_decide (prio p > best_priority)
        then best_waiting a preferred ps (Some index) (prio p)
        else best_waiting a preferred ps best best_priority
  end.

Definition next_waiting_pair (a : TraversalAgent) : option (option nat) :=
  '(has_v4, has_v6) ← eligible_families a (enumerate (pairs a)) false false;
  let preferred := match last_check_family a with
    | Some last => if has_v4 && has_v6 then Some (other_family last) else None
    | None => None
    end in
  best_waiting a preferred (enumerate (pairs a)) None 0.

(** [max_by_key]: the last of the greatest. *)
Fixpoint max_by_prio (ps : list (nat * CandidatePair)) (best : option (nat * CandidatePair))
    : option (nat * CandidatePair) :=
  match ps with
  | [] => best
  | x :: ps =>
      max_by_prio ps
        match best with
        | Some b => if decide (prio x.2 < prio b.2) then Some b else Some x
        | None => Some x
        end
  end.

Definition is_due (a : TraversalAgent) (now : Z) (p : CandidatePair) : bool :=
  bool_decide (state p = InProgress) &&
  match next_due_at p with Some due_at => bool_decide (due_at <= now) | None => false end &&
  bool_decide (attempts p < max_check_attempts (config a)).

Definition next_due_retransmission (a : TraversalAgent) (now : Z) : option nat :=
  fst <$> max_by_prio (filter (fun x => is_due a now x.2) (enumerate (pairs a))) None.

(** The tests of the loop of [mark_expired_pairs]: every attempt spent and the
    deadline passed. *)
Definition expires (c : AgentConfig) (now : Z) (p : CandidatePair) : bool :=
  bool_decide (state p = InProgress) &&
  match first_sent_at p with
  | Some first => bool_decide (max_check_attempts c <= attempts p) &&
                  bool_decide (check_deadline c <= duration_since now first)
  | None => false
  end.

Definition fail_pair (p : CandidatePair) : CandidatePair :=
  {| pair_id := pair_id p; local_index := local_index p; remote_index := remote_index p;
     prio := prio p; state := Failed; tx_id := None; first_sent_at := first_sent_at p;
     next_due_at := None; rto := rto p; attempts := attempts p |}.

(** The loop, over the pairs and the transactions. *)
Fixpoint expire_pairs (c : AgentConfig) (now : Z) (ps : list CandidatePair) (txs : gmap bytes nat)
    : list CandidatePair * gmap bytes nat :=
  match ps with
  | [] => ([], txs)
  | p :: ps =>
      let '(p, txs) :=
        if expires c now p
        then (fail_pair p, match tx_id p with Some t => delete t txs | None => txs end)
        else (p, txs) in
      let '(ps, txs) := expire_pairs c now ps txs in
      (p :: ps, txs)
  end.

Definition mark_expired_pairs (now : Z) (a : TraversalAgent) : TraversalAgent :=
  if decide (duration_since now (start a) < handshake_min_duration (config a)) then a
  else
    let '(ps, txs) := expire_pairs (config a) now (pairs a) (transactions a) in
    set_transactions txs (set_pairs ps a).

Definition jitter_factor (h : Z) : f64 := f64_add (f64_literal 8 10) (f64_div (f64_of_int h) (f64_of_int 1000)).

Section agent.
Context `{Primitives}.

Definition next_transaction_id (a : TraversalAgent) : bytes * TraversalAgent :=
  (TransactionId.from_salt (transaction_salt (auth (config a))) (transaction_counter a),
   set_transaction_counter (Z.max (wrap 64 (transaction_counter a + 1)) 1) a).

Definition consent_jitter (salt : bytes) (n : Z) : f64 :=
  let mac := stun_integrity salt (be_bytes 8 n) in
  let h := of_le (take 8 mac) in
  jitter_factor (h mod 401).

(** What [send_check] does to the pair. *)
Definition sent (c : AgentConfig) (now : Z) (tid : bytes) (p : CandidatePair) : option CandidatePair :=
  due_at ← instant_add now (rto p);
  doubled ← duration_mul (rto p) 2;
  Some {| pair_id := pair_id p; local_index := local_index p; remote_index := remote_index p;
          prio := prio p; state := InProgress; tx_id := Some tid;
          first_sent_at := Some (default now (first_sent_at p));
          next_due_at := Some due_at;
          rto := Z.min doubled (max_rto c);
          attempts := saturating_add 8 (attempts p) 1 |}.

Definition send_check (now : Z) (pair_index : nat) (retransmit : bool) (a : TraversalAgent)
    : option (Action * TraversalAgent) :=
  '(tid, a) ← (if retransmit
    then p ← pairs a !! pair_index; t ← tx_id p; Some (t, a)
    else Some (next_transaction_id a));
  p ← pairs a !! pair_index;
  local ← local_candidates a !! local_index p;
  remote ← remote_candidates a !! remote_index p;
  let bs := StunMessage.encode
    (StunMessage.binding_request tid (cfg_username (config a)) (cand_priority local)
       (role_attribute a) (is_controlling (agent_role a)))
    (Some (auth_key (auth (config a)))) in
  q ← sent (config a) now tid p;
  let a := set_pairs (<[pair_index := q]> (pairs a)) a in
  let a := set_transactions (<[tid := pair_index]> (transactions a)) a in
  Some (SendStun (cand_addr remote) bs tid (pair_id p) retransmit, a).

Definition next_check_action (now : Z) (a : TraversalAgent) : option (option Action * TraversalAgent) :=
  match next_due_retransmission a now with
  | Some i => '(action, a) ← send_check now i true a; Some (Some action, a)
  | None =>
      waiting ← next_waiting_pair a;
      match waiting with
      | None => Some (None, a)
      | Some i =>
          f ← pair_family a i;
          '(action, a) ← send_check now i false (set_last_check_family (Some f) a);
          Some (Some action, a)
      end
  end.

(** The end of [poll_selected]: a keepalive when one is due. *)
Definition keepalive (now : Z) (s : SelectedPair) (actions : list Action) (a : TraversalAgent)
    : option (list Action * TraversalAgent) :=
  match next_keepalive_at a with
  | Some at_ =>
      if decide (at_ <= now) then
        let '(tid, a) := next_transaction_id a in
        let factor := consent_jitter (transaction_salt (auth (config a))) (keepalive_counter a) in
        let a := set_keepalive_counter (wrap 64 (keepalive_counter a + 1)) a in
        delay ← mul_f64 (keepalive_interval (config a)) factor;
        next ← instant_add now delay;
        let a := set_next_keepalive_at (Some next) a in
        let bs := StunMessage.encode
          (StunMessage.binding_request tid (cfg_username (config a)) 0 (role_attribute a) false)
          (Some (auth_key (auth (config a)))) in
        Some (actions ++ [SendKeepalive (remote_addr s) bs tid], a)
      else Some (actions, a)
  | None => Some (actions, a)
  end.

(** The idle latches of [poll_selected], then the keepalive. *)
Definition poll_idle (now : Z) (s : SelectedPair) (a : TraversalAgent)
    : option (list Action * TraversalAgent) :=
  match last_rx_at a with
  | Some rx =>
      let idle := duration_since now rx in
      if decide (disconnect_after_idle (config a) <= idle) then
        if negb (disconnected_announced a)
        then Some ([Disconnected], set_disconnected_announced true a)
        else Some ([], a)
      else if bool_decide (restart_after_idle (config a) <= idle) && negb (restart_announced a)
      then keepalive now s [IceRestart Idle] (set_restart_announced true a)
      else keepalive now s [] a
  | None => keepalive now s [] a
  end.

Definition poll_selected (now : Z) (s : SelectedPair) (a : TraversalAgent)
    : option (list Action * TraversalAgent) :=
  let expired := match last_consent_response a with
    | Some at_ => bool_decide (consent_timeout (config a) <= duration_since now at_)
    | None => false
    end in
  if (expired : bool) then
    Some ([ConsentExpired],
          set_next_keepalive_at None (set_selected None (set_consent_expired_announced true a)))
  else poll_idle now s a.

(** The relay announcement of [poll]; the boolean is its early return. *)
Definition announce_relay (a : TraversalAgent) : list Action * bool * TraversalAgent :=
  if relay_announced a then ([], false, a)
  else if is_symmetric (local_nat a) && is_symmetric (remote_nat a) then
    ([UseRelay (relay_addr a) SymmetricSymmetric], true, set_relay_announced true a)
  else if decide (pairs a = []) then
    ([UseRelay (relay_addr a) NoCommonAddressFamily], true, set_relay_announced true a)
  else
    match relay_addr a with
    | Some _ => ([UseRelay (relay_addr a) RelayCandidateAvailable], false, set_relay_announced true a)
    | None => ([], false, a)
    end.

Definition poll (now : Z) (a : TraversalAgent) : option (list Action * TraversalAgent) :=
  let a := mark_expired_pairs now a in
  match selected a with
  | Some s => poll_selected now s a
  | None =>
      let '(actions, early, a) := announce_relay a in
      if (early : bool) then Some (actions, a)
      else if all_pairs_failed a &&
              bool_decide (handshake_min_duration (config a) <= duration_since now (start a)) &&
              negb (direct_failed_announced a)
      then Some (actions ++ [UseRelay (relay_addr a) DirectChecksFailed], set_direct_failed_announced true a)
      else if decide (now < next_check_at a) then Some (actions, a)
      else
        '(action, a) ← next_check_action now a;
        match action with
        | Some x =>
            next ← instant_add now (min_check_interval (config a));
            Some (actions ++ [x], set_next_check_at next a)
        | None => Some (actions, a)
        end
  end.

(** What every authenticated packet resets. *)
Definition packet_seen (now : Z) (a : TraversalAgent) : TraversalAgent :=
  set_disconnected_announced false (set_restart_announced false (set_last_rx_at (Some now) a)).

Definition selected_at (src : SocketAddr) (a : TraversalAgent) : bool :=
  match selected a with Some s => bool_decide (remote_addr s = src) | None => false end.

(** The [MessageClass::Request] arm of [handle_inbound]. *)
Definition handle_request (src : SocketAddr) (m : StunMessage) (a : TraversalAgent)
    : option (list Action * TraversalAgent) :=
  let a := set_peer_reflexive_seen true a in
  let already_selected := selected_at src a in
  '(s, a) ← select_peer_reflexive src a;
  let response := StunMessage.encode (StunMessage.binding_success (transaction_id m) src)
                    (Some (auth_key (auth (config a)))) in
  Some (SendStunResponse src response (transaction_id m) ::
          (if negb already_selected then [DirectReady s] else []), a).

Definition succeed (p : CandidatePair) : CandidatePair :=
  {| pair_id := pair_id p; local_index := local_index p; remote_index := remote_index p;
     prio := prio p; state := Succeeded; tx_id := tx_id p; first_sent_at := first_sent_at p;
     next_due_at := None; rto := rto p; attempts := attempts p |}.

(** The [MessageClass::SuccessResponse] arm. *)
Definition handle_success (now : Z) (src : SocketAddr) (m : StunMessage) (a : TraversalAgent)
    : option (list Action * TraversalAgent) :=
  match transactions a !! transaction_id m with
  | None => Some ([], a)
  | Some i =>
      let a := set_transactions (delete (transaction_id m) (transactions a)) a in
      p ← pairs a !! i;
      let a := set_pairs (<[i := succeed p]> (pairs a)) a in
      remote ← remote_candidates a !! remote_index p;
      let s := {| local_candidate_id := Some (local_id (pair_id p));
                  remote_candidate_id := Some (remote_id (pair_id p));
                  remote_addr := src;
                  peer_reflexive := bool_decide (cand_addr remote <> src) |} in
      a ← install_selected now s a;
      Some ([DirectReady s], a)
  end.

Definition handle_inbound (now : Z) (src : SocketAddr) (bs : bytes) (a : TraversalAgent)
    : option (result StunError (list Action) * TraversalAgent) :=
  match StunMessage.decode_and_verify bs (auth_key (auth (config a))) with
  | Err IntegrityFailure => Some (Ok [], a)
  | Err error => Some (Err error, a)
  | Ok m =>
      if bool_decide (class m = Request) && negb (accepts_username a (username m)) then Some (Ok [], a)
      else
        let a := packet_seen now a in
        let a := if bool_decide (class m = SuccessResponse) && selected_at src a
                 then refresh_consent now a else a in
        a ← resolve_role_conflict m a;
        match class m with
        | Request => '(actions, a) ← handle_request src m a; Some (Ok actions, a)
        | SuccessResponse => '(actions, a) ← handle_success now src m a; Some (Ok actions, a)
        end
  end.

Definition observe_authenticated_packet (now : Z) (src : SocketAddr) (a : TraversalAgent)
    : option (option Action * TraversalAgent) :=
  let a := packet_seen now a in
  match selected a with
  | Some s =>
      if decide (remote_addr s = src) then Some (None, refresh_consent now a)
      else
        let s := {| local_candidate_id := local_candidate_id s; remote_candidate_id := remote_candidate_id s;
                    remote_addr := src; peer_reflexive := true |} in
        a ← install_selected now s a;
        Some (Some (Migrated s), a)
  | None => '(s, a) ← select_peer_reflexive src a; Some (Some (DirectReady s), a)
  end.

(** ** The events a client feeds an agent *)

Inductive Event :=
| Poll (now : Z)
| Inbound (now : Z) (src : SocketAddr) (bs : bytes)
| Observe (now : Z) (src : SocketAddr)
| AddRemote (now : Z) (c : Candidate).

(** One event: what the caller is told to do, and the agent after it.  A packet
    that does not decode tells it nothing. *)
Definition step (e : Event) (a : TraversalAgent) : option (list Action * TraversalAgent) :=
  match e with
  | Poll now => poll now a
  | Inbound now src bs =>
      '(r, a) ← handle_inbound now src bs a;
      Some (match r with Ok actions => actions | Err _ => [] end, a)
  | Observe now src =>
      '(o, a) ← observe_authenticated_packet now src a;
      Some (match o with Some action => [action] | None => [] end, a)
  | AddRemote now c => Some ([], add_remote_candidate now c a)
  end.

Fixpoint run (es : list Event) (a : TraversalAgent) : option (list (Event * list Action) * TraversalAgent) :=
  match es with
  | [] => Some ([], a)
  | e :: es =>
      '(actions, a) ← step e a;
      '(trace, a) ← run es a;
      Some ((e, actions) :: trace, a)
  end.

End agent.
