(* ===== verification/AgentInvariant.v ===== *)
(** * The invariant of the traversal agent

    [agent_wf] and the lemmas that every operation of [Agent] keeps it and
    returns: candidate pairs, role changes, expiry, check scheduling, polling
    and packets. *)

From S2P Require Import Prelude Primitives Text Auth Net Stun Clock Agent.

(** ** The invariant *)

(** A pair: its ends are the candidates its id names, it is ranked for the role
    of the agent, and a check in progress can be sent again. *)
Record pair_wf (c : AgentConfig) (r : IceRole) (ls rs : list Candidate) (p : CandidatePair) : Prop := {
  pw_ends : exists l rm, ls !! local_index p = Some l /\ rs !! remote_index p = Some rm /\
    pair_id p = mkPairId (cand_id l) (cand_id rm) /\ Candidate.can_pair_with l rm = true /\
    prio p = pair_priority l rm (is_controlling r);
  pw_waiting : state p = Waiting -> attempts p = 0;
  pw_progress : state p = InProgress -> is_Some (tx_id p) /\ is_Some (first_sent_at p) /\ is_Some (next_due_at p);
  pw_tid : forall t, tx_id p = Some t -> length t = 12%nat;
  pw_rto : rto p <= Z.max (initial_rto c) (max_rto c);
  pw_attempts : 0 <= attempts p <= Z.max 1 (max_check_attempts c);
}.

(** The durations of a configuration, jittered keepalives included, are no
    longer than half the range of an instant. *)
Record config_fits (c : AgentConfig) : Prop := {
  cf_jitter : forall h, 0 <= h < 401 -> exists d, mul_f64 (keepalive_interval c) (jitter_factor h) = Some d /\ d <= LONG;
  cf_keepalive : keepalive_interval c <= LONG;
  cf_check : min_check_interval c <= LONG;
  cf_initial : initial_rto c <= LONG;
  cf_max : max_rto c <= LONG;
}.

Record agent_wf (a : TraversalAgent) : Prop := {
  aw_fits : config_fits (config a);
  aw_clock : start a < LONG /\ forall t, last_rx_at a = Some t -> t < LONG;
  aw_pairs : Forall (pair_wf (config a) (agent_role a) (local_candidates a) (remote_candidates a)) (pairs a);
  aw_ids : NoDup (pair_id <$> pairs a);
  aw_txs : forall t i, transactions a !! t = Some i ->
    exists p, pairs a !! i = Some p /\ state p = InProgress /\ tx_id p = Some t;
  aw_selected : is_Some (selected a) -> is_Some (last_consent_response a) /\ is_Some (next_keepalive_at a);
}.

(** Assignments to the fields the invariant does not read. *)
Ltac same_wf := let W := fresh "W" in intros W; destruct W; constructor; cbn in *; eauto.

Lemma foldl_ind {A B} (P : A -> Prop) (f : A -> B -> A) (l : list B) (a : A) :
  (forall a x, x ∈ l -> P a -> P (f a x)) -> P a -> P (foldl f a l).
Proof.
  revert a. induction l as [|x l IH]; intros a Hf Ha; [done|].
  cbn. apply IH; [intros; apply Hf; [by right|done]|]. apply Hf; [by left|done].
Qed.

Lemma elem_of_enumerate {A} (l : list A) i x : (i, x) ∈ enumerate l <-> l !! i = Some x.
Proof.
  unfold enumerate. rewrite elem_of_lookup_imap. split; [intros (j & y & Heq & Hl); by simplify_eq|].
  intros Hl. by exists i, x.
Qed.

Lemma pair_wf_more c r ls rs k p : pair_wf c r ls rs p -> pair_wf c r ls (rs ++ k) p.
Proof.
  intros [(l & rm & Hl & Hr & Hrest) ? ? ? ? ?]. constructor; [|done..].
  exists l, rm. split; [done|]. split; [by apply lookup_app_l_Some|done].
Qed.

Section pair_set.
Context (a : TraversalAgent).

(** The state of the two loops of [rebuild_pairs]. *)
Definition rebuilt (st : list CandidatePairId * list CandidatePair) : Prop :=
  st.1 ⊆ (pair_id <$> st.2) /\ (pair_id <$> st.2) ⊆ st.1 /\
  Forall (pair_wf (config a) (agent_role a) (local_candidates a) (remote_candidates a)) st.2 /\
  NoDup (pair_id <$> st.2) /\ pairs a `prefix_of` st.2.

Lemma try_pair_rebuilt st l r :
  l ∈ enumerate (local_candidates a) -> r ∈ enumerate (remote_candidates a) ->
  rebuilt st -> rebuilt (try_pair (config a) (agent_role a) st l r).
Proof.
  destruct st as [ex ps], l as [li l], r as [ri r]. rewrite !elem_of_enumerate.
  intros Hl Hr (Hsub & Hsup & Hwf & Hnd & Hpre). unfold try_pair.
  destruct (Candidate.can_pair_with l r) eqn:Hcan; cbn [negb]; [|done].
  case_decide as Hin; [done|]. cbn [fst snd] in *. unfold rebuilt. cbn [fst snd].
  rewrite fmap_app. cbn [fmap list_fmap pair_id]. split_and!.
  - set_solver.
  - set_solver.
  - apply Forall_app. split; [done|]. apply Forall_singleton. constructor; cbn; try done; [|lia..].
    exists l, r. done.
  - apply NoDup_app. split_and!; [done|set_solver|apply NoDup_singleton].
  - by apply prefix_app_r.
Qed.

Lemma rebuild_pairs_wf :
  config_fits (config a) -> (start a < LONG /\ forall t, last_rx_at a = Some t -> t < LONG) ->
  Forall (pair_wf (config a) (agent_role a) (local_candidates a) (remote_candidates a)) (pairs a) ->
  NoDup (pair_id <$> pairs a) ->
  (forall t i, transactions a !! t = Some i ->
     exists p, pairs a !! i = Some p /\ state p = InProgress /\ tx_id p = Some t) ->
  (is_Some (selected a) -> is_Some (last_consent_response a) /\ is_Some (next_keepalive_at a)) ->
  agent_wf (rebuild_pairs a).
Proof.
  intros Hj Hclock Hwf Hnd Htx Hsel.
  assert (rebuilt (pair_id <$> pairs a, pairs a)) as H0 by (unfold rebuilt; cbn; split_and!; done).
  unfold rebuild_pairs. set (st := foldl _ _ _).
  assert (rebuilt st) as (_ & _ & Hwf' & Hnd' & Hpre).
  { apply foldl_ind; [|done]. intros st' l Hl Hst'.
    apply foldl_ind; [|done]. intros st'' r Hr. by apply try_pair_rebuilt. }
  clearbody st. constructor; cbn; try done.
  intros t i (p & Hp & Hs)%Htx. exists p. split; [|done]. by eapply prefix_lookup_Some.
Qed.

End pair_set.

(** Changes to one pair. *)
Lemma agent_wf_insert a i p q txs :
  agent_wf a -> pairs a !! i = Some p ->
  pair_wf (config a) (agent_role a) (local_candidates a) (remote_candidates a) q ->
  pair_id q = pair_id p ->
  (forall t j, txs !! t = Some j ->
     exists r, <[i := q]> (pairs a) !! j = Some r /\ state r = InProgress /\ tx_id r = Some t) ->
  agent_wf (set_transactions txs (set_pairs (<[i := q]> (pairs a)) a)).
Proof.
  intros [] Hp Hq Hid Htx. constructor; cbn; try done.
  - by apply Forall_insert.
  - rewrite list_fmap_insert, Hid, list_insert_id; [done|]. by rewrite list_lookup_fmap, Hp.
Qed.

Lemma refresh_consent_wf now a : agent_wf a -> agent_wf (refresh_consent now a).
Proof. same_wf. naive_solver. Qed.

Lemma packet_seen_wf now a : now < LONG -> agent_wf a -> agent_wf (packet_seen now a).
Proof. intros Hn. same_wf. split; [naive_solver|]. by intros t [= <-]. Qed.

(** The path installed. *)
Definition installed (now : Z) (s : SelectedPair) (a : TraversalAgent) : TraversalAgent :=
  refresh_consent now (set_disconnected_announced false (set_restart_announced false
    (set_next_keepalive_at (Some (now + keepalive_interval (config a))) (set_last_rx_at (Some now) (set_selected (Some s) a))))).

Lemma install_selected_wf now s a :
  now < LONG -> agent_wf a -> install_selected now s a = Some (installed now s a) /\ agent_wf (installed now s a).
Proof.
  intros Hn W. split.
  - unfold install_selected. cbn [config set_last_rx_at set_selected].
    by rewrite (instant_add_ok _ _ Hn (cf_keepalive _ (aw_fits _ W))).
  - revert W. same_wf. split; [naive_solver|]. by intros t [= <-].
Qed.

Lemma last_rx_timely a : agent_wf a -> default (start a) (last_rx_at a) < LONG.
Proof. intros W. destruct (aw_clock a W) as [Hs Hl]. destruct (last_rx_at a); cbn; auto. Qed.

(** A request's sender, known as a remote candidate or added as one. *)
Definition adopted (src : SocketAddr) (a : TraversalAgent) : option Z * TraversalAgent :=
  match list_find (fun c => cand_addr c = src) (remote_candidates a) with
  | Some (_, c) => (Some (cand_id c), a)
  | None =>
      (Some (next_candidate_id a),
       set_remote_candidates (remote_candidates a ++ [Candidate.new (next_candidate_id a) PeerReflexive src])
         (set_next_candidate_id (Z.max (wrap 32 (next_candidate_id a + 1)) 1) a))
  end.

(** What [select_peer_reflexive] leaves: the path it found, or one installed at
    the instant of the last packet. *)
Lemma select_peer_reflexive_wf src a :
  agent_wf a -> exists s a', select_peer_reflexive src a = Some (s, a') /\ agent_wf a' /\ remote_addr s = src /\
    (a' = a /\ selected a = Some s \/
     a' = installed (default (start a) (last_rx_at a)) s (adopted src a).2).
Proof.
  intros W. unfold select_peer_reflexive. case_match eqn:Hsel.
  { eexists _, _. split; [done|]. split; [done|]. destruct (selected a) as [found|]; [|done]. cbn in Hsel. case_guard; [|done].
    injection Hsel as <-. split; [done|]. by left. }
  pose proof (last_rx_timely a W) as Ht.
  assert (agent_wf (adopted src a).2 /\ start (adopted src a).2 = start a /\ last_rx_at (adopted src a).2 = last_rx_at a) as (Wb & Hs & Hl).
  { unfold adopted. destruct (list_find _ (remote_candidates a)) as [[]|]; cbn [snd]; [done|]. split; [|done].
    destruct W. constructor; cbn; try done. eapply Forall_impl; [done|]. intros. by apply pair_wf_more. }
  match goal with |- context [let '(_, _) := ?x in _] => change x with (adopted src a) end.
  destruct (adopted src a) as [id b]. cbn [snd] in *. rewrite Hs, Hl.
  match goal with |- context [install_selected _ ?s b] => destruct (install_selected_wf _ s b Ht Wb) as [-> Wi]; exists s end.
  eexists. split; [done|]. split; [done|]. split; [done|]. by right.
Qed.

Lemma add_remote_candidate_wf now c a : agent_wf a -> agent_wf (add_remote_candidate now c a).
Proof.
  intros []. apply rebuild_pairs_wf; cbn; try done.
  eapply Forall_impl; [done|]. intros. by apply pair_wf_more.
Qed.

Lemma new_wf now c r tie ln rn ls rs a :
  config_fits c -> now < LONG -> new now c r tie ln rn ls rs = Some a -> agent_wf a.
Proof.
  unfold new. intros Hj Hn Hnew. destruct (AgentConfig.validate c) as [[[]|]|]; simplify_option_eq.
  apply rebuild_pairs_wf; cbn; try done. constructor.
Qed.

(** Ranking the pairs for another role. *)
Lemma recompute_wf r a :
  agent_wf a ->
  exists ps, recompute_pair_priorities (set_role r a) = Some (set_pairs ps (set_role r a)) /\
    agent_wf (set_pairs ps (set_role r a)).
Proof.
  intros []. unfold recompute_pair_priorities. cbn [pairs local_candidates remote_candidates set_role agent_role].
  match goal with |- context [mapM ?f (pairs a)] => set (g := f) end.
  assert (exists ps, mapM g (pairs a) = Some ps /\
    Forall2 (fun p q => pair_wf (config a) r (local_candidates a) (remote_candidates a) q /\
      pair_id q = pair_id p /\ state q = state p /\ tx_id q = tx_id p) (pairs a) ps) as (ps & -> & Hps).
  { clear - aw_pairs0. induction aw_pairs0 as [|p ps Hp _ (qs & Hqs & HF)]; [by exists []|].
    destruct Hp as [(l & rm & Hl & Hr & Hid & Hcan & Hprio) Hw Hip Htid Hrto Hat].
    assert (g p = Some (set_prio (pair_priority l rm (is_controlling r)) p)) as Hg.
    { unfold g. by rewrite Hl; cbn; rewrite Hr. }
    eexists. cbn [mapM]. rewrite Hg; cbn; rewrite Hqs; cbn. split; [done|].
    constructor; [|done]. split_and!; try done. constructor; cbn; try done. by exists l, rm. }
  eexists. split; [reflexivity|]. constructor; cbn; try done.
  - clear - Hps. induction Hps; constructor; naive_solver.
  - replace (pair_id <$> ps) with (pair_id <$> pairs a); [done|].
    clear - Hps. induction Hps; cbn; f_equal; naive_solver.
  - intros t i (p & Hp & Hs & Ht)%aw_txs0.
    destruct (Forall2_lookup_l _ _ _ _ _ Hps Hp) as (q & Hq & _ & _ & Hs' & Ht'). exists q. by rewrite Hs', Ht'.
Qed.

Lemma resolve_role_conflict_wf m a :
  agent_wf a -> exists a', resolve_role_conflict m a = Some a' /\ agent_wf a'.
Proof.
  intros W. unfold resolve_role_conflict.
  repeat case_match; eauto;
    edestruct recompute_wf as (ps & -> & W'); eauto.
Qed.

(** What the sweep over the pairs does to each. *)
Definition expire_one (c : AgentConfig) (now : Z) (p : CandidatePair) : CandidatePair :=
  if expires c now p then fail_pair p else p.

Lemma expire_one_wf c r ls rs now p : pair_wf c r ls rs p -> pair_wf c r ls rs (expire_one c now p).
Proof. unfold expire_one. destruct (expires c now p); [|done]. intros []. by constructor. Qed.

Lemma expire_one_id c now p : pair_id (expire_one c now p) = pair_id p.
Proof. unfold expire_one. by destruct (expires c now p). Qed.

(** A transaction that survives it belongs to no pair that expired. *)
Lemma expire_pairs_spec c now ps txs :
  (expire_pairs c now ps txs).1 = expire_one c now <$> ps /\
  forall t i, (expire_pairs c now ps txs).2 !! t = Some i ->
    txs !! t = Some i /\ Forall (fun p => tx_id p = Some t -> expires c now p = false) ps.
Proof.
  revert txs. induction ps as [|p ps IH]; intros txs; [done|].
  cbn [expire_pairs fmap list_fmap]. unfold expire_one at 1. destruct (expires c now p) eqn:He.
  - specialize (IH (match tx_id p with Some t => delete t txs | None => txs end)).
    destruct (expire_pairs _ _ _ _) as [qs txs']. cbn in *. destruct IH as [-> IH]. split; [done|].
    intros t i (Hl & HF)%IH. destruct (tx_id p) as [u|] eqn:Hu.
    + apply lookup_delete_Some in Hl as [Hne Hl]. split; [done|].
      constructor; [|done]. intros. congruence.
    + split; [done|]. constructor; [congruence|done].
  - specialize (IH txs). destruct (expire_pairs _ _ _ _) as [qs txs']. cbn in *.
    destruct IH as [-> IH]. split; [done|].
    intros t i (Hl & HF)%IH. split; [done|]. by constructor.
Qed.

Lemma mark_expired_pairs_wf now a : agent_wf a -> agent_wf (mark_expired_pairs now a).
Proof.
  intros W. unfold mark_expired_pairs. case_decide; [done|].
  destruct (expire_pairs_spec (config a) now (pairs a) (transactions a)) as [Hps Htx].
  destruct (expire_pairs _ _ _ _) as [qs txs]. cbn in Hps, Htx. subst qs.
  destruct W. constructor; cbn; try done.
  - apply Forall_fmap. eapply Forall_impl; [done|]. intros. by apply expire_one_wf.
  - rewrite <- list_fmap_compose. erewrite list_fmap_ext; [done|]. intros. apply expire_one_id.
  - intros t i (Hl & HF)%Htx. apply aw_txs0 in Hl as (p & Hp & Hs & Ht).
    exists p. split; [|done]. rewrite list_lookup_fmap, Hp. cbn. unfold expire_one.
    rewrite Forall_lookup in HF. by rewrite (HF i p).
Qed.

(** ** Scheduling *)

Section scheduling.
Context (a : TraversalAgent) (W : agent_wf a).

Lemma pair_at i p : pairs a !! i = Some p ->
  pair_wf (config a) (agent_role a) (local_candidates a) (remote_candidates a) p.
Proof. apply Forall_lookup_1, aw_pairs, W. Qed.

Lemma pair_is_eligible_total i p : pairs a !! i = Some p -> is_Some (pair_is_eligible a p).
Proof.
  intros Hp. destruct (pw_ends _ _ _ _ _ (pair_at i p Hp)) as (l & rm & _ & Hr & _).
  unfold pair_is_eligible, pair_is_allowed. rewrite Hr. case_decide; [case_match|]; by eexists.
Qed.

Lemma pair_family_total i p : pairs a !! i = Some p -> is_Some (pair_family a i).
Proof.
  intros Hp. destruct (pw_ends _ _ _ _ _ (pair_at i p Hp)) as (l & rm & Hl & _).
  unfold pair_family. rewrite Hp. cbn. rewrite Hl. by eexists.
Qed.

(** An eligible pair, of the preferred family if there is one. *)
Definition candidate (preferred : option NetworkFamily) (x : nat * CandidatePair) : Prop :=
  pair_is_eligible a x.2 = Some true /\
  match preferred with Some f => pair_family a x.1 = Some f | None => True end.

#[local] Instance candidate_dec preferred x : Decision (candidate preferred x).
Proof. unfold candidate. destruct preferred; apply _. Defined.

Lemma eligible_families_spec ps v4 v6 :
  Forall (fun x => pairs a !! x.1 = Some x.2) ps ->
  exists w4 w6, eligible_families a ps v4 v6 = Some (w4, w6) /\
    (w4 = true <-> v4 = true \/ Exists (candidate (Some Ipv4)) ps) /\
    (w6 = true <-> v6 = true \/ Exists (candidate (Some Ipv6)) ps).
Proof.
  intros Hps. revert v4 v6. induction Hps as [|[i p] ps Hp _ IH]; intros v4 v6.
  { exists v4, v6. rewrite !Exists_nil. naive_solver. }
  cbn [fst snd] in Hp. cbn [eligible_families].
  destruct (pair_is_eligible_total i p Hp) as [b Hb], (pair_family_total i p Hp) as [f Hf].
  rewrite Hb. cbn. destruct b; cbn.
  - rewrite Hf. cbn.
    assert (forall g, candidate (Some g) (i, p) <-> f = g) as Hc.
    { intros g. unfold candidate. cbn. rewrite Hf, Hb. naive_solver. }
    destruct f; [destruct (IH true v6) as (w4 & w6 & -> & H4 & H6)|destruct (IH v4 true) as (w4 & w6 & -> & H4 & H6)];
      exists w4, w6; rewrite !Exists_cons, !Hc; naive_solver.
  - destruct (IH v4 v6) as (w4 & w6 & -> & H4 & H6). exists w4, w6.
    assert (forall g, ~ candidate (Some g) (i, p)) as Hc by (intros g [Hx _]; cbn in Hx; congruence).
    rewrite !Exists_cons. naive_solver.
Qed.

Lemma best_waiting_cons preferred i p ps best bp :
  pairs a !! i = Some p ->
  best_waiting a preferred ((i, p) :: ps) best bp =
  if decide (candidate preferred (i, p) /\ (best = None \/ prio p > bp))
  then best_waiting a preferred ps (Some i) (prio p)
  else best_waiting a preferred ps best bp.
Proof.
  intros Hp. cbn [best_waiting].
  destruct (pair_is_eligible_total i p Hp) as [b Hb], (pair_family_total i p Hp) as [f Hf].
  assert (candidate preferred (i, p) <-> b = true /\ match preferred with Some g => f = g | None => True end) as Hc.
  { unfold candidate. cbn. rewrite Hb, Hf. destruct preferred; naive_solver. }
  rewrite Hb, Hf. cbn [mbind option_bind]. destruct b; cbn [negb].
  2:{ rewrite decide_False; [done|]. naive_solver. }
  destruct preferred as [g|]; cbn [mbind option_bind].
  1: case_bool_decide as Hg; [rewrite decide_False; [done|]; naive_solver|].
  all: destruct (decide (candidate _ _ /\ _)); repeat case_bool_decide; cbn [orb]; try done; tauto.
Qed.

(** The second loop keeps the best candidate it has met. *)
Lemma best_waiting_spec preferred ps best bp :
  Forall (fun x => pairs a !! x.1 = Some x.2) ps ->
  exists w, best_waiting a preferred ps best bp = Some w /\
    (w = best /\ Forall (fun x => candidate preferred x -> best <> None /\ prio x.2 <= bp) ps \/
     exists i p, w = Some i /\ (i, p) ∈ ps /\ candidate preferred (i, p) /\
       (best = None \/ bp < prio p) /\ Forall (fun x => candidate preferred x -> prio x.2 <= prio p) ps).
Proof.
  intros Hps. revert best bp. induction Hps as [|[i p] ps Hp _ IH]; intros best bp.
  { exists best. split; [done|]. by left. }
  cbn [fst snd] in Hp. rewrite best_waiting_cons by done. case_decide as Hc.
  - destruct (IH (Some i) (prio p)) as (w & Hw & Hcase). exists w. split; [done|]. right.
    destruct Hcase as [(-> & HF)|(j & q & -> & Hin & Hcq & [?|Hlt] & HF)]; [| done |].
    + exists i, p. split_and!; [done|left|apply Hc|naive_solver lia|].
      constructor; [done|]. eapply Forall_impl; [done|]. naive_solver.
    + exists j, q. split_and!; [done|by right|done|naive_solver lia|]. constructor; [cbn; lia|done].
  - destruct (IH best bp) as (w & Hw & Hcase). exists w. split; [done|].
    destruct Hcase as [(-> & HF)|(j & q & -> & Hin & Hcq & Hb & HF)]; [left|right].
    + split; [done|]. constructor; [|done]. intros Hcand. cbn.
      destruct best; [|naive_solver]. split; [done|].
      destruct (decide (prio p > bp)); [|lia]. exfalso. naive_solver.
    + exists j, q. split_and!; try done; [by right|]. constructor; [|done]. intros Hcand. cbn.
      destruct Hb as [->|Hb]; [naive_solver|].
      destruct (decide (prio p > bp)); [|lia]. exfalso. naive_solver.
Qed.

Lemma enumerate_pairs : Forall (fun x => pairs a !! x.1 = Some x.2) (enumerate (pairs a)).
Proof. apply Forall_forall. intros [i p]. apply elem_of_enumerate. Qed.

(** The family a fresh check prefers. *)
Definition prefers (preferred : option NetworkFamily) : Prop :=
  preferred = match last_check_family a with
    | Some last =>
        if decide (Exists (candidate (Some Ipv4)) (enumerate (pairs a)) /\
                   Exists (candidate (Some Ipv6)) (enumerate (pairs a)))
        then Some (other_family last) else None
    | None => None
    end.

(** The pair [next_waiting_pair] names is an eligible one of the preferred
    family, and none such has a higher priority; there is none when it names
    none. *)
Lemma next_waiting_pair_spec :
  exists preferred w, prefers preferred /\ next_waiting_pair a = Some w /\
    match w with
    | None => forall i p, pairs a !! i = Some p -> ~ candidate preferred (i, p)
    | Some i => exists p, pairs a !! i = Some p /\ candidate preferred (i, p) /\
        forall j q, pairs a !! j = Some q -> candidate preferred (j, q) -> prio q <= prio p
    end.
Proof.
  destruct (eligible_families_spec _ false false enumerate_pairs) as (w4 & w6 & Hw & H4 & H6).
  unfold next_waiting_pair. rewrite Hw. cbn [mbind option_bind].
  set (preferred := match last_check_family a with Some _ => _ | None => _ end).
  exists preferred.
  destruct (best_waiting_spec preferred _ None 0 enumerate_pairs) as (w & Hbest & Hcase).
  exists w. split; [|split; [done|]].
  { unfold prefers, preferred. case_match; [|done]. case_decide; destruct w4, w6; naive_solver. }
  destruct Hcase as [(-> & HF)|(i & p & -> & Hin & Hc & _ & HF)]; rewrite Forall_forall in HF.
  - intros i p Hp Hc. by destruct (HF (i, p)) as [? _]; [apply elem_of_enumerate|..].
  - exists p. split; [by apply elem_of_enumerate|]. split; [done|].
    intros j q Hq Hcq. apply (HF (j, q)); [by apply elem_of_enumerate|done].
Qed.

(** The pair to send again is in progress, due, and has an attempt left. *)
Lemma max_by_prio_in ps best x :
  max_by_prio ps best = Some x -> x ∈ ps \/ best = Some x.
Proof.
  revert best. induction ps as [|y ps IH]; intros best; cbn; [by right|].
  intros [Hin|Hx]%IH; [left; by right|].
  destruct best as [b|]; [case_decide|]; simplify_eq; [by right|left; left..].
Qed.

Lemma next_due_retransmission_spec now i :
  next_due_retransmission a now = Some i -> exists p, pairs a !! i = Some p /\ is_due a now p = true.
Proof.
  unfold next_due_retransmission. destruct (max_by_prio _ _) as [[j p]|] eqn:Hm; [|done].
  intros [= <-]. apply max_by_prio_in in Hm as [Hm|?]; [|done].
  apply list_elem_of_filter in Hm as [Hdue%Is_true_true Hin]. exists p. split; [|done].
  by apply elem_of_enumerate.
Qed.

End scheduling.

(** ** Every operation keeps the invariant and none panics *)

Section preservation.
Context `{PrimitiveLaws}.

(** A pair that may be checked: a first check of a waiting pair, or another of
    a pair in progress with attempts left. *)
Definition sendable (a : TraversalAgent) (retransmit : bool) (p : CandidatePair) : Prop :=
  if retransmit then state p = InProgress /\ attempts p < max_check_attempts (config a)
  else state p = Waiting.

Lemma sent_wf c r ls rs now tid p (a : TraversalAgent) retransmit :
  config a = c -> config_fits c -> now < LONG -> length tid = 12%nat -> sendable a retransmit p -> pair_wf c r ls rs p ->
  exists q, sent c now tid p = Some q /\ pair_wf c r ls rs q /\ pair_id q = pair_id p /\ state q = InProgress /\ tx_id q = Some tid /\
    local_index q = local_index p /\ remote_index q = remote_index p.
Proof.
  intros Hc Hfits Hn Ht Hs [Hends Hw Hp _ Hrto Hat].
  assert (rto p <= LONG) as Hlong by (pose proof (cf_initial c Hfits); pose proof (cf_max c Hfits); lia).
  unfold sent. rewrite (instant_add_ok _ _ Hn Hlong), (duration_double_ok _ Hlong). cbn [mbind option_bind].
  eexists. split; [done|]. split; [|done]. constructor; cbn; try done; [by intros t [= <-]|lia|].
  unfold saturating_add, umax. destruct retransmit; cbn in Hs; subst c; [lia|].
  rewrite Hw by done. lia.
Qed.

Lemma length_from_salt salt n : length (TransactionId.from_salt salt n) = 12%nat.
Proof.
  unfold TransactionId.from_salt, stun_integrity. rewrite length_app, length_take, hmac_sha256_length. done.
Qed.

(** What [send_check] answers and leaves behind. *)
Lemma send_check_spec a now i retransmit p :
  agent_wf a -> now < LONG -> pairs a !! i = Some p -> sendable a retransmit p ->
  exists tid a1 l rm q,
    sent (config a) now tid p = Some q /\ pair_id q = pair_id p /\ local_index q = local_index p /\ remote_index q = remote_index p /\
    length tid = 12%nat /\
    (if retransmit then tx_id p = Some tid /\ a1 = a else next_transaction_id a = (tid, a1)) /\
    local_candidates a !! local_index p = Some l /\ remote_candidates a !! remote_index p = Some rm /\
    let a2 := set_transactions (<[tid := i]> (transactions a)) (set_pairs (<[i := q]> (pairs a)) a1) in
    send_check now i retransmit a =
      Some (SendStun (cand_addr rm)
              (StunMessage.encode (StunMessage.binding_request tid (cfg_username (config a)) (cand_priority l)
                 (role_attribute a) (is_controlling (agent_role a))) (Some (auth_key (auth (config a)))))
              tid (pair_id p) retransmit, a2) /\
    agent_wf a2.
Proof.
  intros W Hn Hp Hs. pose proof (pair_at a W i p Hp) as Wp.
  destruct (pw_ends _ _ _ _ _ Wp) as (l & rm & Hl & Hr & _).
  assert (exists tid a1, (if retransmit then tx_id p = Some tid /\ a1 = a else next_transaction_id a = (tid, a1)) /\
    agent_wf a1 /\ config a1 = config a /\ pairs a1 = pairs a /\ transactions a1 = transactions a /\
    local_candidates a1 = local_candidates a /\ remote_candidates a1 = remote_candidates a /\
    agent_role a1 = agent_role a /\ role_attribute a1 = role_attribute a /\ length tid = 12%nat) as
    (tid & a1 & Htid & W1 & Hc & Hps & Htx & Hls & Hrs & Hro & Hra & Hlen).
  { destruct retransmit.
    - destruct Hs as [Hs _]. destruct (pw_progress _ _ _ _ _ Wp Hs) as [[tid Htid] _].
      exists tid, a. split_and!; try done. by apply (pw_tid _ _ _ _ _ Wp).
    - eexists _, _. split; [reflexivity|]. split_and!; try done; [|apply length_from_salt].
      revert W. same_wf. }
  destruct (sent_wf _ _ _ _ now tid p a retransmit eq_refl (aw_fits a W) Hn Hlen Hs Wp) as (q & Hq & Wq & Hid & Hst & Htq & Hli & Hri).
  exists tid, a1, l, rm, q. split; [done|]. split; [done|]. split; [done|]. split; [done|]. split; [done|]. split; [done|]. split; [done|]. split; [done|]. split.
  - unfold send_check. destruct retransmit.
    + destruct Htid as [Htid ->]. rewrite Hp. cbn. rewrite Htid. cbn. rewrite Hp. cbn.
      rewrite Hl. cbn. rewrite Hr. cbn. by rewrite Hq.
    + rewrite Htid. cbn. rewrite Hps, Hp. cbn. rewrite Hls, Hl. cbn. rewrite Hrs, Hr. cbn.
      rewrite ?Hc, Hq. cbn. by rewrite ?Hc, ?Hro, ?Hra, ?Hps, ?Htx.
  - rewrite <- Hps. apply agent_wf_insert with p; try done.
    + by rewrite Hps.
    + by rewrite Hc, Hro, Hls, Hrs.
    + rewrite Hps. intros t j. rewrite lookup_insert_Some. intros [[<- <-]|[Hne Hj]].
      * exists q. rewrite list_lookup_insert_eq; [done|by eapply lookup_lt_Some].
      * destruct (aw_txs a W t j Hj) as (q' & Hq' & Hqs & Hqt).
        exists q'. rewrite list_lookup_insert_ne; [done|]. intros <-. simplify_eq.
        destruct retransmit; [|by cbn in Hs; congruence]. naive_solver.
Qed.

Lemma jitter_in_range salt n : 0 <= of_le (take 8 (stun_integrity salt (be_bytes 8 n))) mod 401 < 401.
Proof. by apply Z.mod_pos_bound. Qed.

Lemma keepalive_wf now s actions a :
  agent_wf a -> now < LONG -> exists more a', keepalive now s actions a = Some (actions ++ more, a') /\ agent_wf a' /\
    (more = [] \/ exists bs tid, more = [SendKeepalive (remote_addr s) bs tid]).
Proof.
  intros W Hn. unfold keepalive. destruct (next_keepalive_at a) as [d|] eqn:Hd.
  2:{ exists [], a. rewrite app_nil_r. auto. }
  case_decide. 2:{ exists [], a. rewrite app_nil_r. auto. }
  cbn. unfold consent_jitter.
  destruct (cf_jitter _ (aw_fits a W) _ (jitter_in_range (transaction_salt (auth (config a))) (keepalive_counter a))) as (v & -> & Hv).
  cbn. rewrite (instant_add_ok _ _ Hn Hv). cbn. eexists [_], _. split_and!; [done| |right; eauto].
  destruct W. constructor; cbn; try done. intros Hs. split; [by apply aw_selected0|done].
Qed.

(** What a poll asks for while a path is selected, and while none is. *)
Definition selected_action (to : SocketAddr) (x : Action) : Prop :=
  match x with SendKeepalive to' _ _ => to' = to | IceRestart _ | Disconnected => True | _ => False end.
Definition is_relay (x : Action) : Prop := match x with UseRelay _ _ => True | _ => False end.

Lemma poll_idle_spec now s a :
  agent_wf a -> now < LONG -> exists actions a', poll_idle now s a = Some (actions, a') /\ agent_wf a' /\
    Forall (selected_action (remote_addr s)) actions.
Proof.
  intros W Hn. unfold poll_idle.
  assert (forall acts b, agent_wf b -> acts = [] \/ acts = [IceRestart Idle] ->
    exists actions a', keepalive now s acts b = Some (actions, a') /\ agent_wf a' /\
      Forall (selected_action (remote_addr s)) actions) as Hkeep.
  { intros acts b Wb Hacts. destruct (keepalive_wf now s acts b Wb Hn) as (more & a' & -> & W' & Hmore).
    eexists _, _. split_and!; [done..|].
    destruct Hacts as [->| ->], Hmore as [->|(bs' & tid' & ->)]; by repeat constructor. }
  destruct (last_rx_at a) as [rx|]; [|by apply Hkeep; auto]. case_decide.
  - destruct (disconnected_announced a); cbn [negb]; eexists _, _; (split; [done|]);
      (split; [by revert W; same_wf|by repeat constructor]).
  - destruct (_ && _); apply Hkeep; auto. by revert W; same_wf.
Qed.

(** Either consent has expired, and the selection is dropped, or a keepalive may
    go to the selected address. *)
Lemma poll_selected_spec now s a :
  agent_wf a -> now < LONG -> selected a = Some s ->
  exists actions a' at_, poll_selected now s a = Some (actions, a') /\ agent_wf a' /\
    last_consent_response a = Some at_ /\
    if decide (consent_timeout (config a) <= duration_since now at_)
    then actions = [ConsentExpired] /\ selected a' = None
    else Forall (selected_action (remote_addr s)) actions.
Proof.
  intros W Hn Hs. destruct (aw_selected a W) as [[at_ Hat] _]; [by rewrite Hs|].
  unfold poll_selected. rewrite Hat. case_bool_decide.
  - eexists _, _, at_. rewrite decide_True by done. split_and!; try done.
    destruct W. by constructor; cbn.
  - destruct (poll_idle_spec now s a W Hn) as (actions & a' & -> & W' & Hk).
    exists actions, a', at_. by rewrite decide_False.
Qed.

Lemma announce_relay_wf a :
  agent_wf a -> agent_wf (announce_relay a).2 /\ selected (announce_relay a).2 = selected a /\
  Forall is_relay (announce_relay a).1.1.
Proof.
  intros W. unfold announce_relay.
  repeat case_match; cbn [fst snd]; (split; [by revert W; same_wf|split; [done|by repeat constructor]]).
Qed.

(** A check found in the agent that sent it: its transaction is registered, and
    the packet is the signed request of the pair. *)
Definition outstanding (a : TraversalAgent) (x : Action) : Prop :=
  match x with
  | SendStun to bs tid pid _ => exists i p l rm,
      transactions a !! tid = Some i /\ pairs a !! i = Some p /\ pair_id p = pid /\ length tid = 12%nat /\
      local_candidates a !! local_index p = Some l /\
      remote_candidates a !! remote_index p = Some rm /\ cand_addr rm = to /\
      bs = StunMessage.encode (StunMessage.binding_request tid (cfg_username (config a)) (cand_priority l)
             (role_attribute a) (is_controlling (agent_role a))) (Some (auth_key (auth (config a))))
  | _ => False
  end.

(** The fields a poll of an agent without selection leaves alone. *)
Definition same_identity (a b : TraversalAgent) : Prop :=
  config a = config b /\ agent_role a = agent_role b /\ tie_breaker a = tie_breaker b /\
  local_candidates a = local_candidates b /\ selected a = selected b.

Lemma send_check_outstanding a now i retransmit p :
  agent_wf a -> now < LONG -> pairs a !! i = Some p -> sendable a retransmit p ->
  exists x a', send_check now i retransmit a = Some (x, a') /\ agent_wf a' /\ same_identity a' a /\ outstanding a' x.
Proof.
  intros W Hn Hp Hs.
  destruct (send_check_spec a now i retransmit p W Hn Hp Hs)
    as (tid & a1 & l & rm & q & Hq & Hid & Hli & Hri & Hlen & Htid & Hl & Hr & -> & W').
  eexists _, _. split; [done|]. split; [done|].
  assert (exists v, a1 = set_transaction_counter v a) as [v ->].
  { destruct retransmit; [destruct Htid as [_ ->]; exists (transaction_counter a); by destruct a|].
    injection Htid as _ <-. by eexists. }
  split; [done|]. exists i, q, l, rm. cbn.
  rewrite lookup_insert_eq, list_lookup_insert_eq by (by eapply lookup_lt_Some).
  rewrite Hli, Hri. split_and!; done.
Qed.

Lemma next_check_action_wf now a :
  agent_wf a -> now < LONG -> exists o a', next_check_action now a = Some (o, a') /\ agent_wf a' /\ same_identity a' a /\
    match o with Some x => outstanding a' x | None => True end.
Proof.
  intros W Hn. unfold next_check_action. destruct (next_due_retransmission a now) as [i|] eqn:Hdue.
  - apply next_due_retransmission_spec in Hdue as (p & Hp & Hdue).
    unfold is_due in Hdue. rewrite !andb_true_iff, !bool_decide_eq_true in Hdue. destruct Hdue as [[Hst _] Hat].
    destruct (send_check_outstanding a now i true p) as (x & a' & -> & ? & ? & ?); try done.
    cbn [mbind option_bind]. eauto 10.
  - destruct (next_waiting_pair_spec a W) as (pf & w & _ & -> & Hw). cbn [mbind option_bind].
    destruct w as [i|]; [|by exists None, a].
    destruct Hw as (p & Hp & [He _] & _). destruct (pair_family_total a W i p Hp) as [f ->].
    cbn [mbind option_bind].
    destruct (send_check_outstanding (set_last_check_family (Some f) a) now i false p)
      as (x & a' & -> & ? & ? & ?); try done; [by revert W; same_wf| |cbn [mbind option_bind]; eauto 10].
    unfold pair_is_eligible in He. cbn in He. by case_decide.
Qed.

(** One poll without a selection. *)
Lemma poll_unselected now a :
  agent_wf a -> now < LONG -> selected a = None ->
  exists actions a', poll now a = Some (actions, a') /\ agent_wf a' /\ same_identity a' a /\
    Forall (fun x => is_relay x \/ outstanding a' x) actions.
Proof.
  intros W0 Hn Hs0. unfold poll. pose proof (mark_expired_pairs_wf now a W0) as W.
  assert (same_identity (mark_expired_pairs now a) a) as Hid.
  { unfold mark_expired_pairs. repeat case_match; done. }
  revert W Hid. generalize (mark_expired_pairs now a). intros b W Hid.
  assert (selected b = None) as -> by (destruct Hid as (_ & _ & _ & _ & ->); done).
  assert (same_identity (announce_relay b).2 a) as Hid'.
  { unfold announce_relay. repeat case_match; done. }
  destruct (announce_relay_wf b W) as (W1 & _ & Hno). destruct (announce_relay b) as [[acts early] c].
  cbn [fst snd] in *.
  assert (forall b, Forall (fun x => is_relay x \/ outstanding b x) acts) as Hacts.
  { intros. eapply Forall_impl; [done|]. auto. }
  destruct early; [by eauto 10|]. destruct (_ && _).
  { eexists _, _. split_and!; [done|by revert W1; same_wf|done|].
    apply Forall_app. split; [done|]. apply Forall_singleton. by left. }
  case_decide; [by eauto 10|].
  destruct (next_check_action_wf now c W1 Hn) as (o & d & -> & W2 & Hid2 & Hout). cbn [mbind option_bind].
  assert (same_identity d a) as Hd by (unfold same_identity in *; naive_solver congruence).
  destruct o as [x|]; [|by eauto 10]. rewrite (instant_add_ok _ _ Hn (cf_check _ (aw_fits _ W2))). cbn [mbind option_bind].
  eexists _, _. split_and!; [done|by revert W2; same_wf|done|].
  apply Forall_app. split; [done|]. apply Forall_singleton. right. destruct x; done.
Qed.

(** One poll: the consent rule, and the invariant. *)
Lemma poll_spec now a :
  agent_wf a -> now < LONG -> exists actions a', poll now a = Some (actions, a') /\ agent_wf a' /\
    match selected a with
    | None => same_identity a' a /\ Forall (fun x => is_relay x \/ outstanding a' x) actions
    | Some s => exists at_, last_consent_response a = Some at_ /\
        if decide (consent_timeout (config a) <= duration_since now at_)
        then actions = [ConsentExpired] /\ selected a' = None
        else Forall (selected_action (remote_addr s)) actions
    end.
Proof.
  intros W0 Hn. destruct (selected a) as [s|] eqn:Hs.
  2:{ destruct (poll_unselected now a W0 Hn Hs) as (? & ? & ? & ? & ? & ?); eauto 10. }
  unfold poll. pose proof (mark_expired_pairs_wf now a W0) as W.
  assert (selected (mark_expired_pairs now a) = selected a /\ config (mark_expired_pairs now a) = config a /\
    last_consent_response (mark_expired_pairs now a) = last_consent_response a) as (Hs' & Hc & Hl).
  { unfold mark_expired_pairs. repeat case_match; done. }
  rewrite Hs in Hs'. rewrite Hs', <- Hc, <- Hl.
  destruct (poll_selected_spec now s (mark_expired_pairs now a)) as (actions & a' & at_ & -> & ? & ? & ?); eauto 10.
Qed.

Lemma handle_inbound_wf now src bs a :
  agent_wf a -> now < LONG -> exists r a', handle_inbound now src bs a = Some (r, a') /\ agent_wf a'.
Proof.
  intros W Hn. unfold handle_inbound.
  destruct (StunMessage.decode_and_verify bs _) as [m|e]; [|destruct e; eauto].
  destruct (_ && _); [by eauto|].
  set (b := if (_ : bool) then refresh_consent _ _ else _).
  assert (agent_wf b) as Wb.
  { unfold b. destruct (_ && _); [apply refresh_consent_wf|]; by apply packet_seen_wf. }
  clearbody b. destruct (resolve_role_conflict_wf m b Wb) as (c & -> & Wc). cbn [mbind option_bind].
  destruct (class m).
  - unfold handle_request.
    destruct (select_peer_reflexive_wf src (set_peer_reflexive_seen true c)) as (s & d & -> & Wd & _); [by revert Wc; same_wf|].
    cbn [mbind option_bind]. eauto.
  - unfold handle_success. destruct (transactions c !! transaction_id m) as [i|] eqn:Hi.
    2:{ cbn. eauto. }
    destruct (aw_txs c Wc _ _ Hi) as (p & Hp & Hst & Htx).
    cbn [pairs set_transactions]. rewrite Hp. cbn [mbind option_bind].
    pose proof (pair_at c Wc i p Hp) as Wp. destruct (pw_ends _ _ _ _ _ Wp) as (l & rm & _ & Hr & _).
    cbn [remote_candidates set_pairs set_transactions]. rewrite Hr. cbn [mbind option_bind].
    match goal with |- context [install_selected now ?s ?a1] => destruct (install_selected_wf now s a1 Hn) as [-> Wi] end.
    2:{ cbn [mbind option_bind]. eauto. }
    apply (agent_wf_insert c i p (succeed p) (delete (transaction_id m) (transactions c))); try done.
    + destruct Wp. by constructor.
    + intros t j. rewrite lookup_delete_Some. intros [Hne Hj].
      destruct (aw_txs c Wc _ _ Hj) as (q & Hq & Hqs & Hqt). exists q. split; [|done].
      rewrite list_lookup_insert_ne; [done|]. intros <-. congruence.
Qed.

Lemma observe_wf now src a :
  agent_wf a -> now < LONG -> exists o a', observe_authenticated_packet now src a = Some (o, a') /\ agent_wf a'.
Proof.
  intros W Hn. pose proof (packet_seen_wf now a Hn W) as Wp. unfold observe_authenticated_packet.
  destruct (selected (packet_seen now a)) as [s|]; [case_decide|].
  - eexists _, _. split; [done|]. by apply refresh_consent_wf.
  - match goal with |- context [install_selected now ?s ?a1] => destruct (install_selected_wf now s a1 Hn Wp) as [-> Wi] end.
    cbn [mbind option_bind]. eauto.
  - destruct (select_peer_reflexive_wf src _ Wp) as (s & d & -> & Wd & _). cbn [mbind option_bind]. eauto.
Qed.

(** The instant of an event. *)
Definition event_time (e : Event) : Z :=
  match e with Poll now | Inbound now _ _ | Observe now _ | AddRemote now _ => now end.

Definition timely (e : Event) : Prop := event_time e < LONG.

Lemma step_wf e a : agent_wf a -> timely e -> exists actions a', step e a = Some (actions, a') /\ agent_wf a'.
Proof.
  intros W Hn. destruct e as [now|now src bs|now src|now c]; cbn [step]; unfold timely in Hn; cbn [event_time] in Hn.
  - destruct (poll_spec now a W Hn) as (actions & a' & -> & W' & _). eauto.
  - destruct (handle_inbound_wf now src bs a W Hn) as (r & a' & -> & W'). cbn [mbind option_bind]. eauto.
  - destruct (observe_wf now src a W Hn) as (o & a' & -> & W'). cbn [mbind option_bind]. eauto.
  - eexists _, _. split; [done|]. by apply add_remote_candidate_wf.
Qed.

Lemma run_wf es a : agent_wf a -> Forall timely es -> exists trace a', run es a = Some (trace, a') /\ agent_wf a'.
Proof.
  intros W Hes. revert a W. induction Hes as [|e es He Hes IH]; intros a W; cbn [run]; [by eauto|].
  destruct (step_wf e a W He) as (actions & b & -> & Wb). cbn [mbind option_bind].
  destruct (IH b Wb) as (trace & c & -> & Wc). cbn [mbind option_bind]. eauto.
Qed.

End preservation.
