(* ===== verification/Traversal.v ===== *)
(** * Sessions of traversal agents

    What the agent of [Agent] promises: it never panics, it sends only with
    consent, a check between two agents completes, a role conflict resolves. *)

From S2P Require Import Prelude Primitives Text Auth Net Stun Clock Agent AgentInvariant.

(** ** Two agents *)

Section sessions.
Context `{PrimitiveLaws}.

(** An agent whose packets fit their fields: the username is UTF-8 and fits, and
    the integers have their widths. *)
Definition speaks (a : TraversalAgent) : Prop :=
  (forall u, cfg_username (config a) = Some u -> utf8_valid u = true /\ len u <= 60000) /\
  is_u64 (tie_breaker a) /\ Forall priority_wf (local_candidates a).

(** Two ends of one session: the same key and username. *)
Definition peers (a b : TraversalAgent) : Prop :=
  auth_key (auth (config a)) = auth_key (auth (config b)) /\ cfg_username (config a) = cfg_username (config b).

Definition request_of (a : TraversalAgent) (tid : bytes) (p : Z) (use : bool) : bytes :=
  StunMessage.encode (StunMessage.binding_request tid (cfg_username (config a)) p (role_attribute a) use)
    (Some (auth_key (auth (config a)))).

Lemma request_verifies a b tid p use :
  speaks a -> peers a b -> length tid = 12%nat -> is_u32 p ->
  StunMessage.decode_and_verify (request_of a tid p use) (auth_key (auth (config b))) =
    Ok (StunMessage.binding_request tid (cfg_username (config a)) p (role_attribute a) use).
Proof.
  intros (Hu & Ht & _) [<- _] Hlen Hp. apply verify_encoded. split; [done|]. split; [done|].
  split; [by intros ? [= <-]|]. split; [|done].
  intros r [= <-]. unfold role_attribute. by destruct (agent_role a).
Qed.

Lemma accepts_peer a b : peers a b -> accepts_username b (cfg_username (config a)) = true.
Proof.
  intros [_ Hu]. unfold accepts_username. rewrite <- Hu. destruct (cfg_username (config a)); [|done].
  by rewrite bool_decide_eq_true.
Qed.

Lemma resolve_keeps m a a' :
  resolve_role_conflict m a = Some a' ->
  config a' = config a /\ tie_breaker a' = tie_breaker a /\ local_candidates a' = local_candidates a.
Proof.
  unfold resolve_role_conflict, recompute_pair_priorities. intros Ha.
  repeat case_match; simplify_option_eq; done.
Qed.

Lemma adopted_keeps src a :
  config (adopted src a).2 = config a /\ agent_role (adopted src a).2 = agent_role a /\
  tie_breaker (adopted src a).2 = tie_breaker a /\ local_candidates (adopted src a).2 = local_candidates a.
Proof. unfold adopted. by destruct (list_find _ (remote_candidates a)) as [[]|]. Qed.

Lemma select_peer_reflexive_selects src a :
  agent_wf a -> exists s a', select_peer_reflexive src a = Some (s, a') /\
  selected a' = Some s /\ remote_addr s = src /\ config a' = config a /\ agent_role a' = agent_role a /\
  tie_breaker a' = tie_breaker a /\ local_candidates a' = local_candidates a.
Proof.
  intros W. destruct (select_peer_reflexive_wf src a W) as (s & a' & Hs & _ & Hsrc & Hcase). exists s, a'.
  split; [done|]. destruct (adopted_keeps src a) as (E1 & E2 & E3 & E4). destruct Hcase as [[-> Hsel]| ->]; done.
Qed.

(** A peer's request, handled. *)
Lemma handle_request_of now src a b tid p use :
  agent_wf b -> now < LONG -> speaks a -> peers a b -> length tid = 12%nat -> is_u32 p ->
  exists more b1,
    handle_inbound now src (request_of a tid p use) b =
      Some (Ok (SendStunResponse src
        (StunMessage.encode (StunMessage.binding_success tid src) (Some (auth_key (auth (config b))))) tid :: more), b1) /\
    agent_wf b1 /\ config b1 = config b /\ tie_breaker b1 = tie_breaker b /\
    local_candidates b1 = local_candidates b /\
    (exists s, selected b1 = Some s /\ remote_addr s = src) /\
    agent_role b1 = match agent_role b, agent_role a with
      | RoleControlling, RoleControlling => if decide (tie_breaker a > tie_breaker b) then RoleControlled else RoleControlling
      | RoleControlled, RoleControlled => if decide (tie_breaker b > tie_breaker a) then RoleControlling else RoleControlled
      | r, _ => r
      end.
Proof.
  intros Wb Hn Hsp Hpe Hlen Hp.
  destruct (handle_inbound_wf now src (request_of a tid p use) b Wb Hn) as (r & b1 & Heq & Wb1).
  revert Heq. unfold handle_inbound. rewrite request_verifies by done.
  cbn [class username StunMessage.binding_request]. rewrite accepts_peer by done.
  rewrite andb_false_r, bool_decide_eq_false_2 by done. cbn [andb].
  set (c := packet_seen now b).
  destruct (resolve_role_conflict_wf (StunMessage.binding_request tid (cfg_username (config a)) p (role_attribute a) use) c)
    as (d & Hd & Wd); [by apply packet_seen_wf|]. rewrite Hd. cbn [mbind option_bind].
  destruct (resolve_keeps _ _ _ Hd) as (Hc & Ht & Hl). unfold handle_request.
  destruct (select_peer_reflexive_selects src (set_peer_reflexive_seen true d))
    as (s & e & -> & Hs & Hsrc & Hce & Hre & Hte & Hle); [by revert Wd; same_wf|]. cbn [mbind option_bind].
  intros [= <- <-]. eexists _, e. split; [by rewrite Hce; cbn; rewrite Hc|].
  split_and!; [done|by rewrite Hce|by rewrite Hte|by rewrite Hle|by exists s|].
  rewrite Hre. cbn. clear - Hd. revert Hd. unfold resolve_role_conflict, recompute_pair_priorities, role_attribute.
  subst c. cbn. destruct (agent_role b) eqn:Hb, (agent_role a) eqn:Ha; try case_decide;
    intros; simplify_option_eq; try done.
Qed.

(** *** Consent *)

(** An event that proves the peer at [src] was there at [at_]: a STUN packet
    from there that verifies under the session's key (a request with its user
    name), or a media packet the client authenticated. *)
Definition authenticated (a : TraversalAgent) (at_ : Z) (src : SocketAddr) (e : Event) : Prop :=
  match e with
  | Inbound now from bs => now = at_ /\ from = src /\
      exists m, StunMessage.decode_and_verify bs (auth_key (auth (config a))) = Ok m /\
        (class m = Request -> accepts_username a (username m) = true)
  | Observe now from => now = at_ /\ from = src
  | _ => False
  end.

(** What an event does to the path and its consent clock: it leaves both, drops
    the path, or is an authenticated packet from the address of the path. *)
Definition consented (e : Event) (a a' : TraversalAgent) : Prop :=
  config a' = config a /\
  forall s, selected a' = Some s ->
    selected a = Some s /\ last_consent_response a' = last_consent_response a \/
    exists at_, last_consent_response a' = Some at_ /\ authenticated a at_ (remote_addr s) e.

(** Selecting the sender of a packet just seen. *)
Lemma select_consented e now src a s a' :
  select_peer_reflexive src a = Some (s, a') -> agent_wf a -> last_rx_at a = Some now -> authenticated a now src e ->
  consented e a a'.
Proof.
  intros Hs W Hrx Ha. destruct (select_peer_reflexive_wf src a W) as (s' & b & Hs' & _ & Hsrc & Hcase).
  rewrite Hs in Hs'. injection Hs' as <- <-. destruct (adopted_keeps src a) as (Hc & _).
  destruct Hcase as [[-> _]| ->]; [split; [done|]; by left|].
  split; [exact Hc|]. intros s1 [= <-]. right. exists now. rewrite Hrx. cbn [default last_consent_response installed refresh_consent
    set_consent_expired_announced set_last_consent_response from_option id]. split; [done|]. by rewrite Hsrc.
Qed.

Lemma consented_trans e a b c : config b = config a -> selected b = selected a ->
  last_consent_response b = last_consent_response a -> consented e b c -> consented e a c.
Proof.
  intros Hc Hs Hl [Hc' H']. split; [congruence|]. intros s Hsel. destruct (H' s Hsel) as [[? ?]|(at_ & ? & Ha)].
  - left. split; congruence.
  - right. exists at_. split; [done|]. destruct e; cbn in *; try done. unfold accepts_username in *. by rewrite Hc in Ha.
Qed.

Lemma resolve_selection m a a' :
  resolve_role_conflict m a = Some a' ->
  selected a' = selected a /\ last_consent_response a' = last_consent_response a /\ last_rx_at a' = last_rx_at a.
Proof.
  unfold resolve_role_conflict, recompute_pair_priorities. intros Ha. repeat case_match; simplify_option_eq; done.
Qed.

Lemma install_consented e now s a a' :
  install_selected now s a = Some a' -> authenticated a now (remote_addr s) e -> consented e a a'.
Proof.
  unfold install_selected. destruct (instant_add _ _) as [at_|]; cbn; [|done]. intros [= <-] Ha. split; [done|].
  intros s1 [= <-]. right. by exists now.
Qed.

Lemma inbound_consented now src bs a r a' :
  agent_wf a -> now < LONG -> handle_inbound now src bs a = Some (r, a') -> consented (Inbound now src bs) a a'.
Proof.
  intros W Hn. unfold handle_inbound.
  assert (consented (Inbound now src bs) a a) as Hsame by (split; [done|]; by left).
  destruct (StunMessage.decode_and_verify bs _) as [m|e] eqn:Em; [|destruct e; by intros [= <- <-]].
  destruct (bool_decide (class m = Request) && negb (accepts_username a (username m))) eqn:Eu; [by intros [= <- <-]|].
  assert (authenticated a now src (Inbound now src bs)) as Hauth.
  { split; [done|]. split; [done|]. exists m. split; [done|]. intros Hc. rewrite bool_decide_eq_true_2 in Eu by done.
    by destruct (accepts_username a (username m)). }
  pose proof (packet_seen_wf now a Hn W) as Wp.
  set (b := if (_ : bool) then refresh_consent _ _ else _).
  assert (agent_wf b /\ config b = config a /\ last_rx_at b = Some now /\ selected b = selected a /\
    (last_consent_response b = last_consent_response a \/
     last_consent_response b = Some now /\ forall s, selected a = Some s -> remote_addr s = src)) as (Wb & Hcb & Hrx & Hsb & Hlb).
  { unfold b. destruct (bool_decide (class m = SuccessResponse)); cbn [andb]; [|split_and!; try done; by left].
    destruct (selected_at src (packet_seen now a)) eqn:Esel; [|split_and!; try done; by left].
    split_and!; try done; [by apply refresh_consent_wf|]. right. split; [done|]. intros s Hs.
    unfold selected_at in Esel. cbn in Esel. rewrite Hs in Esel. by apply bool_decide_eq_true in Esel. }
  clearbody b. intros Hrun. destruct (resolve_role_conflict m b) as [c|] eqn:Ec; [|done]. cbn [mbind option_bind] in Hrun.
  destruct (resolve_role_conflict_wf m b Wb) as (c' & Ec' & Wc). rewrite Ec in Ec'. injection Ec' as <-.
  destruct (resolve_selection _ _ _ Ec) as (Hsc & Hlc & Hrc). destruct (resolve_keeps _ _ _ Ec) as (Hcc & _).
  (* the refreshed clock, if it was *)
  assert (forall d, consented (Inbound now src bs) c d -> consented (Inbound now src bs) a d) as Hback.
  { intros d [Hcd Hd]. split; [congruence|]. intros s Hs. destruct (Hd s Hs) as [[Hcs Hl]|(at_ & Hat & Ha)].
    - rewrite Hsc, Hsb in Hcs. rewrite Hlc in Hl. destruct Hlb as [Hlb|[Hlb Haddr]]; [left; split; congruence|].
      right. exists now. split; [congruence|]. by rewrite (Haddr s Hcs).
    - right. exists at_. split; [done|]. cbn in *. unfold accepts_username in *. by rewrite Hcc, Hcb in Ha. }
  assert (authenticated c now src (Inbound now src bs)) as Hauthc.
  { cbn in *. unfold accepts_username in *. by rewrite Hcc, Hcb. }
  apply Hback. destruct (class m).
  - unfold handle_request in Hrun. destruct (select_peer_reflexive src _) as [[s d]|] eqn:Es; cbn [mbind option_bind] in Hrun; [|done].
    injection Hrun as <- <-. eapply (consented_trans _ _ (set_peer_reflexive_seen true c)); [done|done|done|].
    eapply (select_consented _ now src); [exact Es|by revert Wc; same_wf|cbn; congruence|exact Hauthc].
  - unfold handle_success in Hrun. destruct (transactions c !! transaction_id m) as [i|]; cbn [mbind option_bind] in Hrun.
    2:{ injection Hrun as <- <-. split; [done|]. by left. }
    destruct (pairs _ !! i) as [p|]; cbn [mbind option_bind] in Hrun; [|done].
    destruct (remote_candidates _ !! remote_index p) as [rm|]; cbn [mbind option_bind] in Hrun; [|done].
    destruct (install_selected now _ _) as [d|] eqn:Ei; cbn [mbind option_bind] in Hrun; [|done]. injection Hrun as <- <-.
    match type of Ei with install_selected now ?s ?x = _ => eapply (consented_trans _ _ x); [done|done|done|] end.
    eapply install_consented; [exact Ei|exact Hauthc].
Qed.

Lemma observe_consented now src a o a' :
  agent_wf a -> now < LONG -> observe_authenticated_packet now src a = Some (o, a') -> consented (Observe now src) a a'.
Proof.
  intros W Hn. pose proof (packet_seen_wf now a Hn W) as Wp. unfold observe_authenticated_packet. intros Hrun.
  eapply (consented_trans _ _ (packet_seen now a)); [done|done|done|].
  destruct (selected (packet_seen now a)) as [s|] eqn:Es.
  - case_decide as Hsrc.
    + injection Hrun as <- <-. split; [done|]. intros s1 Hs1. cbn in Hs1, Es. right. exists now. split; [done|].
      cbn. split; [done|]. congruence.
    + destruct (install_selected now _ _) as [d|] eqn:Ei; cbn [mbind option_bind] in Hrun; [|done]. injection Hrun as <- <-.
      eapply install_consented; [exact Ei|done].
  - destruct (select_peer_reflexive src _) as [[s d]|] eqn:Ei; cbn [mbind option_bind] in Hrun; [|done]. injection Hrun as <- <-.
    by eapply select_consented.
Qed.

(** The clock runs on through a poll, and a path is kept or dropped. *)
Definition clock_kept (a a' : TraversalAgent) : Prop :=
  config a' = config a /\ (selected a' = selected a \/ selected a' = None) /\
  last_consent_response a' = last_consent_response a.

#[local] Hint Extern 0 (clock_kept _ _) => (split; [done|]; split; [by left|done]) : core.

Lemma keepalive_clock now s acts a actions a' : keepalive now s acts a = Some (actions, a') -> clock_kept a a'.
Proof.
  unfold keepalive. destruct (next_keepalive_at a); [|intros [= <- <-]; auto]. case_decide; [|intros [= <- <-]; auto].
  cbn [next_transaction_id]. destruct (mul_f64 _ _) as [delay|]; cbn [mbind option_bind]; [|done].
  destruct (instant_add _ _); cbn [mbind option_bind]; [|done]. intros [= <- <-]. auto.
Qed.

Lemma poll_selected_clock now s a actions a' : poll_selected now s a = Some (actions, a') -> clock_kept a a'.
Proof.
  unfold poll_selected. destruct (match last_consent_response a with Some _ => _ | None => _ end).
  { intros [= <- <-]. split; [done|]. split; [by right|done]. }
  unfold poll_idle. destruct (last_rx_at a); [|apply keepalive_clock]. case_decide.
  - destruct (negb _); intros [= <- <-]; auto.
  - destruct (_ && _); [|apply keepalive_clock]. intros [? ?]%keepalive_clock. by split.
Qed.

Lemma send_check_clock now i retransmit a x a' : send_check now i retransmit a = Some (x, a') -> clock_kept a a'.
Proof.
  unfold send_check. intros Hrun.
  assert (exists tid b, (if retransmit then p ← pairs a !! i; t ← tx_id p; Some (t, a) else Some (next_transaction_id a)) = Some (tid, b) /\
    clock_kept a b) as (tid & b & Hb & Hkept).
  { destruct retransmit; [|eexists _, _; split; [reflexivity|auto]].
    destruct (pairs a !! i) as [p|]; cbn in *; [|done]. destruct (tx_id p) as [t|]; cbn in *; [|done]. eexists _, _. auto. }
  rewrite Hb in Hrun. cbn [mbind option_bind] in Hrun. destruct (pairs b !! i) as [p|]; cbn [mbind option_bind] in Hrun; [|done].
  destruct (local_candidates b !! _); cbn [mbind option_bind] in Hrun; [|done].
  destruct (remote_candidates b !! _); cbn [mbind option_bind] in Hrun; [|done].
  destruct (sent _ _ _ _); cbn [mbind option_bind] in Hrun; [|done]. by injection Hrun as _ <-.
Qed.

Lemma poll_clock now a actions a' : poll now a = Some (actions, a') -> clock_kept a a'.
Proof.
  unfold poll. set (b := mark_expired_pairs now a).
  assert (config b = config a /\ selected b = selected a /\ last_consent_response b = last_consent_response a) as (E1 & E2 & E3)
    by (unfold b, mark_expired_pairs; case_decide; [done|]; by destruct (expire_pairs _ _ _ _)).
  unfold clock_kept. rewrite <- E1, <- E2, <- E3. clearbody b. fold (clock_kept b a').
  destruct (selected b) as [s|] eqn:Es; [apply poll_selected_clock|].
  assert (clock_kept b (announce_relay b).2) as Hk by (unfold announce_relay; repeat case_match; auto).
  destruct (announce_relay b) as [[acts early] c]. cbn [snd] in Hk. destruct early; [by intros [= <- <-]|].
  destruct (_ && _); [by intros [= <- <-]|]. case_decide; [by intros [= <- <-]|].
  destruct (next_check_action now c) as [[o d]|] eqn:En; cbn [mbind option_bind]; [|done].
  assert (clock_kept c d) as Hkd.
  { revert En. unfold next_check_action. destruct (next_due_retransmission c now) as [i|].
    - destruct (send_check now i true c) as [[x e]|] eqn:Ec; cbn [mbind option_bind]; [|done]. intros [= _ <-]. by eapply send_check_clock.
    - destruct (next_waiting_pair c) as [[i|]|]; cbn [mbind option_bind]; [|intros [= _ <-]; auto|done].
      destruct (pair_family c i) as [f|]; cbn [mbind option_bind]; [|done].
      destruct (send_check now i false (set_last_check_family (Some f) c)) as [[x e]|] eqn:Ec; cbn [mbind option_bind]; [|done]. intros [= _ <-].
      apply send_check_clock in Ec as (? & ? & ?). by split. }
  assert (clock_kept b d) as Hd.
  { destruct Hk as (C1 & C2 & C3), Hkd as (D1 & D2 & D3). split; [congruence|]. split; [|congruence].
    destruct D2 as [D2|D2]; [rewrite D2; exact C2|by right]. }
  destruct o as [x|]; [|by intros [= <- <-]]. destruct (instant_add _ _); cbn [mbind option_bind]; [|done]. by intros [= <- <-].
Qed.

Lemma poll_consented now a actions a' : poll now a = Some (actions, a') -> consented (Poll now) a a'.
Proof.
  intros (Hc & Hs & Hl)%poll_clock. split; [done|]. intros s Hsel. left. destruct Hs as [Hs|Hs]; [|congruence]. split; [congruence|done].
Qed.

Lemma step_consented e a actions a' :
  agent_wf a -> timely e -> step e a = Some (actions, a') -> consented e a a'.
Proof.
  intros W Hn. destruct e as [now|now src bs|now src|now c]; cbn [step]; unfold timely in Hn; cbn [event_time] in Hn.
  - apply poll_consented.
  - destruct (handle_inbound now src bs a) as [[r b]|] eqn:E; cbn; [|done]. intros [= _ <-]. by eapply inbound_consented.
  - destruct (observe_authenticated_packet now src a) as [[o b]|] eqn:E; cbn; [|done]. intros [= _ <-]. by eapply observe_consented.
  - intros [= _ <-]. split; [done|]. by left.
Qed.

(** The path an agent has was last vouched for by an authenticated packet. *)
Lemma run_consented es a trace a' (P : Event -> Prop) :
  agent_wf a -> Forall timely es -> run es a = Some (trace, a') ->
  (forall s, selected a = Some s -> exists at_ e, last_consent_response a = Some at_ /\ P e /\ authenticated a at_ (remote_addr s) e) ->
  (forall e, e ∈ es -> P e) ->
  config a' = config a /\
  forall s, selected a' = Some s -> exists at_ e, last_consent_response a' = Some at_ /\ P e /\ authenticated a' at_ (remote_addr s) e.
Proof.
  intros W Hes. revert a trace W. induction Hes as [|e es He Hes IH]; intros a trace W Hrun Hin HP; cbn [run] in Hrun.
  { injection Hrun as <- <-. done. }
  destruct (step_wf e a W He) as (actions & b & Hb & Wb). rewrite Hb in Hrun. cbn [mbind option_bind] in Hrun.
  destruct (run es b) as [[tr c]|] eqn:Ec; cbn [mbind option_bind] in Hrun; [|done]. injection Hrun as _ <-.
  destruct (step_consented _ _ _ _ W He Hb) as [Hcb Hsel].
  assert (forall at_ src e', authenticated a at_ src e' -> authenticated b at_ src e') as Hsame.
  { intros at_ src [] Ha; cbn in *; try done. unfold accepts_username in *. by rewrite Hcb. }
  destruct (IH b tr Wb Ec) as [Hc Hend].
  - intros s Hs. destruct (Hsel s Hs) as [[Hs' Hl]|(at_ & Hl & Ha)].
    + destruct (Hin s Hs') as (at_ & e' & Hat & HPe & Ha). exists at_, e'. split; [congruence|]. split; [done|by apply Hsame].
    + exists at_, e. split; [done|]. split; [apply HP; by left|by apply Hsame].
  - intros e' He'. apply HP. by right.
  - split; [congruence|done].
Qed.

(** ** Configurations *)

(** The jitter factors of one interval: the delays are durations between 0.8 and
    1.2 of it. *)
Definition spaced (k h : Z) : Prop :=
  match mul_f64 k (jitter_factor h) with
  | Some d => 8 * k <= 10 * d /\ 10 * d <= 12 * k
  | None => False
  end.
#[local] Instance spaced_dec k h : Decision (spaced k h).
Proof. unfold spaced. destruct (mul_f64 k (jitter_factor h)); apply _. Defined.

Lemma spaced_default h : 0 <= h < 401 -> spaced DEFAULT_KEEPALIVE_INTERVAL h.
Proof. apply (forall_below _ 401). vm_compute. reflexivity. Qed.

Lemma spaced_client h : 0 <= h < 401 -> spaced (from_secs 1) h.
Proof. apply (forall_below _ 401). vm_compute. reflexivity. Qed.

(** The configurations in use: the keepalive interval is the agent's default
    (10 s) or the client's (1 s), and no other duration the agent adds to an
    instant exceeds [LONG], 2^62 seconds. *)
Record ordinary (c : AgentConfig) : Prop := {
  or_keepalive : keepalive_interval c = DEFAULT_KEEPALIVE_INTERVAL \/ keepalive_interval c = from_secs 1;
  or_check : min_check_interval c <= LONG;
  or_initial : initial_rto c <= LONG;
  or_max : max_rto c <= LONG;
}.

Lemma ordinary_fits c : ordinary c -> config_fits c.
Proof.
  intros [Hk Hc Hi Hm].
  assert (keepalive_interval c <= from_secs 10) as Hten by (destruct Hk as [-> | ->]; unfold DEFAULT_KEEPALIVE_INTERVAL, from_secs, NANOS_PER_SEC; lia).
  assert (from_secs 12 <= LONG) by (unfold LONG, from_secs, NANOS_PER_SEC; lia).
  constructor; [|unfold from_secs, NANOS_PER_SEC in *; lia|done..]. intros h Hh.
  assert (spaced (keepalive_interval c) h) as Hs by (destruct Hk as [-> | ->]; [by apply spaced_default|by apply spaced_client]).
  unfold spaced in Hs. destruct (mul_f64 _ _) as [d|]; [|done]. exists d. split; [done|]. unfold from_secs, NANOS_PER_SEC in *. lia.
Qed.

End sessions.

(** ** Properties *)


(** Polls alone never reach an address again once the selection is gone. *)
Lemma polls_unselected `{PrimitiveLaws} (later : list Z) (a : TraversalAgent) :
  agent_wf a -> Forall (fun now => now < LONG) later -> selected a = None ->
  exists trace a', run (Poll <$> later) a = Some (trace, a') /\
    Forall (fun x => forall to bs tid, SendKeepalive to bs tid ∉ x.2) trace.
Proof.
  intros W Hl. revert a W. induction Hl as [|now later Hn Hl IH]; intros a W Hs; cbn [fmap list_fmap run step]; [by eauto|].
  destruct (poll_unselected now a W Hn Hs) as (actions & b & -> & Wb & (_ & _ & _ & _ & Hsb) & Hacts).
  cbn [mbind option_bind]. destruct (IH b Wb) as (trace & d & -> & Htr); [congruence|].
  cbn [mbind option_bind]. eexists _, _. split; [done|]. constructor; [|done].
  intros to bs tid Hin. rewrite Forall_forall in Hacts. by destruct (Hacts _ Hin).
Qed.


(** C35: a connectivity check completes: the packet a poll sends, first or
    retransmitted, is accepted by the other end of the session (same key and
    username), which selects the address it came from and answers it; the answer
    coming back from the address that was checked is matched to the transaction,
    and the sender selects exactly the candidate pair it was checking, not as
    peer-reflexive (the answer is handled at instants below 2^62 seconds, and the
    sender's IPv6 address has no flow and scope id, which the answer has no room
    for). *)
Theorem connectivity_check_completes `{PrimitiveLaws} (a b a1 : TraversalAgent) (now1 now2 now3 : Z)
    (src to : SocketAddr) (actions : list Action) (bs tid : bytes) (pid : CandidatePairId) (retransmit : bool) :
  agent_wf a -> agent_wf b -> speaks a -> peers a b -> SocketAddr.wf src ->
  now1 < LONG -> now2 < LONG -> now3 < LONG ->
  poll now1 a = Some (actions, a1) -> SendStun to bs tid pid retransmit ∈ actions ->
  exists response more b1,
    handle_inbound now2 src bs b = Some (Ok (SendStunResponse src response tid :: more), b1) /\
    (exists s, selected b1 = Some s /\ remote_addr s = src) /\
    exists s a2, handle_inbound now3 to response a1 = Some (Ok [DirectReady s], a2) /\
      selected a2 = Some s /\
      s = {| local_candidate_id := Some (local_id pid); remote_candidate_id := Some (remote_id pid);
             remote_addr := to; peer_reflexive := false |}.
Proof.
  intros Wa Wb Hsp Hpe Hsrc Hn1 Hn2 Hn3 Hpoll Hin.
  destruct (poll_spec now1 a Wa Hn1) as (acts & a1' & Hpoll' & W1 & Hcase). simplify_eq.
  destruct (selected a) as [s0|].
  { destruct Hcase as (at_ & _ & Hcase). case_decide.
    { destruct Hcase as [-> _]. by apply list_elem_of_singleton in Hin. }
    rewrite Forall_forall in Hcase. by specialize (Hcase _ Hin). }
  destruct Hcase as [(Hc & Hr & Ht & Hl & Hsel) Hcase]. rewrite Forall_forall in Hcase.
  destruct (Hcase _ Hin) as [[]|(i & p & l & rm & Htx & Hp & <- & Hlen & Hloc & Hrem & <- & ->)].
  assert (is_u32 (cand_priority l)) as Hprio.
  { destruct Hsp as (_ & _ & HF). rewrite Hl in Hloc. by eapply Forall_lookup_1 in HF. }
  assert (speaks a1 /\ peers a1 b) as [Hsp1 Hpe1].
  { unfold speaks, peers in *. by rewrite Hc, Ht, Hl. }
  destruct (handle_request_of now2 src a1 b tid (cand_priority l) (is_controlling (agent_role a1)))
    as (more & b1 & Hb & _ & _ & _ & _ & Hs & _); try done.
  eexists _, more, b1. split; [exact Hb|]. split; [done|].
  unfold handle_inbound. destruct Hpe1 as [-> _].
  rewrite verify_encoded. 2:{ split; [done|]. split; [done|]. split; [done|]. split; [done|]. by intros ? [= <-]. }
  cbn [class StunMessage.binding_success]. rewrite (bool_decide_eq_false_2 (SuccessResponse = Request)) by done.
  cbn [andb]. set (c := if (_ : bool) then refresh_consent _ _ else _).
  assert (transactions c = transactions a1 /\ pairs c = pairs a1 /\ remote_candidates c = remote_candidates a1)
    as (E1 & E2 & E3) by (unfold c; by destruct (_ && _)).
  assert (resolve_role_conflict (StunMessage.binding_success tid src) c = Some c) as ->
    by (unfold resolve_role_conflict; by destruct (agent_role c)).
  cbn [mbind option_bind]. unfold handle_success. cbn [transaction_id StunMessage.binding_success].
  rewrite E1, Htx. cbn [pairs set_transactions]. rewrite E2, Hp. cbn [mbind option_bind].
  cbn [remote_candidates set_pairs set_transactions]. rewrite E3, Hrem. cbn [mbind option_bind].
  assert (config c = config a1) as E4 by (unfold c; by destruct (_ && _)).
  unfold install_selected. cbn [config set_last_rx_at set_selected set_pairs set_transactions].
  rewrite E4, (instant_add_ok _ _ Hn3 (cf_keepalive _ (aw_fits _ W1))). cbn [mbind option_bind].
  eexists _, _. split; [done|]. split; [done|]. by rewrite bool_decide_eq_false_2 by (intros Hne; by apply Hne).
Qed.

(** C36: a role conflict resolves in one exchange: when both ends hold the same
    role and their tie-breakers differ, then after [b] has handled a request of
    [a] and [a] a request of [b] the end with the larger tie-breaker controls and
    the other is controlled, and each has ranked its pairs for the role it ends
    in (at instants below 2^62 seconds). *)
Theorem role_conflict_resolved `{PrimitiveLaws} (a b : TraversalAgent) (now1 now2 : Z) (src1 src2 : SocketAddr)
    (tid1 tid2 : bytes) (p1 p2 : Z) (use1 use2 : bool) :
  agent_wf a -> agent_wf b -> now1 < LONG -> now2 < LONG -> speaks a -> speaks b -> peers a b ->
  length tid1 = 12%nat -> length tid2 = 12%nat -> is_u32 p1 -> is_u32 p2 ->
  agent_role a = agent_role b -> tie_breaker a <> tie_breaker b ->
  exists r1 b1 r2 a1,
    handle_inbound now1 src1 (request_of a tid1 p1 use1) b = Some (Ok r1, b1) /\
    handle_inbound now2 src2 (request_of b1 tid2 p2 use2) a = Some (Ok r2, a1) /\
    agent_role a1 = (if decide (tie_breaker a > tie_breaker b) then RoleControlling else RoleControlled) /\
    agent_role b1 = (if decide (tie_breaker a > tie_breaker b) then RoleControlled else RoleControlling) /\
    agent_wf a1 /\ agent_wf b1.
Proof.
  intros Wa Wb Hn1 Hn2 Ha Hb Hp Ht1 Ht2 Hp1 Hp2 Hrole Htie.
  destruct (handle_request_of now1 src1 a b tid1 p1 use1) as (m1 & b1 & H1 & Wb1 & Hc1 & Hk1 & Hl1 & _ & Hr1); try done.
  assert (speaks b1 /\ peers b1 a) as [Hb1 Hp1'].
  { destruct Hp as [Hkey Huser]. unfold speaks, peers. by rewrite Hc1, Hk1, Hl1. }
  destruct (handle_request_of now2 src2 b1 a tid2 p2 use2) as (m2 & a1 & H2 & Wa1 & _ & _ & _ & _ & Hr2); try done.
  eexists _, b1, _, a1. split; [exact H1|]. split; [exact H2|].
  rewrite Hr2, Hr1, Hk1, Hrole.
  destruct (agent_role b), (decide (tie_breaker a > tie_breaker b)), (decide (tie_breaker b > tie_breaker a));
    split_and!; done || lia.
Qed.

(** In binary64 0.8 + 400/1000 is above the literal 1.2: the factor can exceed
    [MAX_KEEPALIVE_JITTER] by one unit in the last place. *)
Lemma jitter_exceeds_bound : SpecFloat.SFltb MAX_KEEPALIVE_JITTER (jitter_factor 400) = true.
Proof. reflexivity. Qed.

(** C37: with the agent's default keepalive interval (10 s) or the client's (1 s)
    and a configuration [validate] accepts, every jittered delay exists, lies
    within 0.8 and 1.2 of the interval, and is strictly shorter than the consent
    timeout: the next keepalive is always due before consent can expire. *)
Theorem keepalive_before_consent `{PrimitiveLaws} (c : AgentConfig) (salt : bytes) (n : Z) :
  keepalive_interval c = DEFAULT_KEEPALIVE_INTERVAL \/ keepalive_interval c = from_secs 1 ->
  AgentConfig.validate c = Some (Ok ()) ->
  exists d, mul_f64 (keepalive_interval c) (consent_jitter salt n) = Some d /\
    8 * keepalive_interval c <= 10 * d <= 12 * keepalive_interval c /\ d < consent_timeout c.
Proof.
  intros Hk Hv. unfold consent_jitter. pose proof (jitter_in_range salt n) as Hh.
  set (h := _ mod 401) in *. clearbody h.
  assert (spaced (keepalive_interval c) h) as Hsp
    by (destruct Hk as [-> | ->]; [by apply spaced_default|by apply spaced_client]).
  assert (mul_f64 (keepalive_interval c) MAX_KEEPALIVE_JITTER = Some (keepalive_interval c * 12 / 10)) as Hmax
    by (destruct Hk as [-> | ->]; reflexivity).
  unfold AgentConfig.validate in Hv. rewrite Hmax in Hv. cbn [mbind option_bind] in Hv.
  unfold spaced in Hsp. destruct (mul_f64 _ (jitter_factor h)) as [d|]; [|done]. exists d. split; [done|].
  case_decide; [done|]. split; [lia|]. destruct Hsp.
  assert (d <= keepalive_interval c * 12 / 10) by (apply Z.div_le_lower_bound; lia). lia.
Qed.

(** ** Witnesses: two hosts on one network, over the toy primitives *)

#[local] Existing Instance Toy.toy.
#[local] Existing Instance Toy.toy_laws.

Definition toy_config (salt : byte) : AgentConfig :=
  AgentConfig.with_auth (mkStunAuth (replicate 32 Byte.x0b) (replicate 32 salt)).

Definition toy_agent (salt : byte) (r : IceRole) (tie : Z) (local remote : Candidate) : TraversalAgent :=
  match new 0 (toy_config salt) r tie NatUnknown NatUnknown [local] [remote] with
  | Some a => a
  | None => rebuild_pairs (mkAgent (toy_config salt) r tie NatUnknown NatUnknown [] [] [] ∅ 0 0 None 1 1
      false false false None None None None 0 false false false)
  end.

Definition toy_a : TraversalAgent := toy_agent Byte.x01 RoleControlling 7 (host4 1 5000) (srflx4 2 6000).
Definition toy_b : TraversalAgent := toy_agent Byte.x02 RoleControlling 9 (srflx4 1 6000) (host4 2 5000).

Lemma toy_ordinary salt : ordinary (toy_config salt).
Proof. constructor; [by left|..]; vm_compute; discriminate. Qed.

Lemma toy_a_new :
  new 0 (toy_config Byte.x01) RoleControlling 7 NatUnknown NatUnknown [host4 1 5000] [srflx4 2 6000] = Some toy_a.
Proof. vm_compute. reflexivity. Qed.

Lemma toy_b_new :
  new 0 (toy_config Byte.x02) RoleControlling 9 NatUnknown NatUnknown [srflx4 1 6000] [host4 2 5000] = Some toy_b.
Proof. vm_compute. reflexivity. Qed.

Lemma toy_a_wf : agent_wf toy_a.
Proof. eapply new_wf; [apply ordinary_fits, toy_ordinary| |apply toy_a_new]. reflexivity. Qed.

Lemma toy_b_wf : agent_wf toy_b.
Proof. eapply new_wf; [apply ordinary_fits, toy_ordinary| |apply toy_b_new]. reflexivity. Qed.

Lemma toy_speaks a l :
  cfg_username (config a) = None -> is_u64 (tie_breaker a) -> local_candidates a = [l] -> priority_wf l -> speaks a.
Proof. unfold speaks. intros Hu Ht -> Hl. split; [by rewrite Hu|]. split; [done|]. by apply Forall_singleton. Qed.

Lemma toy_a_speaks : speaks toy_a.
Proof. apply (toy_speaks _ (host4 1 5000)); [reflexivity|decide_closed|reflexivity|apply with_metadata_wf]. Qed.

Lemma toy_b_speaks : speaks toy_b.
Proof. apply (toy_speaks _ (srflx4 1 6000)); [reflexivity|decide_closed|reflexivity|apply with_metadata_wf]. Qed.


(** A path selected at 5 ns, never heard of again. *)
Definition toy_direct : TraversalAgent := 
  from_option snd toy_a (observe_authenticated_packet 5 (SockV4 1 1) toy_a).
Definition toy_selected : SelectedPair :=
  {| local_candidate_id := Some 1; remote_candidate_id := Some 3; remote_addr := SockV4 1 1; peer_reflexive := true |}.

Lemma toy_direct_selected : selected toy_direct = Some toy_selected /\ last_consent_response toy_direct = Some 5.
Proof. split; vm_compute; reflexivity. Qed.


Lemma connectivity_check_completes_witness :
  exists actions a1 bs tid pid, poll 0 toy_a = Some (actions, a1) /\
    SendStun (SockV4 3325256705 6000) bs tid pid false ∈ actions /\
    exists response more b1,
      handle_inbound 1 (SockV4 3232235777 5000) bs toy_b =
        Some (Ok (SendStunResponse (SockV4 3232235777 5000) response tid :: more), b1) /\
      exists s a2, handle_inbound 2 (SockV4 3325256705 6000) response a1 = Some (Ok [DirectReady s], a2).
Proof.
  do 5 eexists. split; [vm_compute; reflexivity|]. split; [left|].
  edestruct (connectivity_check_completes toy_a toy_b) with (now1 := 0) (now2 := 1) (now3 := 2)
    (src := SockV4 3232235777 5000)
    as (response & more & b1 & Hb & _ & s & a2 & Ha & _);
    [apply toy_a_wf|apply toy_b_wf|apply toy_a_speaks|split; vm_compute; reflexivity| |reflexivity|reflexivity|reflexivity|vm_compute; reflexivity|left|].
  - split; decide_closed.
  - exists response, more, b1. split; [exact Hb|]. exists s, a2. exact Ha.
Defined.

Lemma role_conflict_resolved_witness :
  agent_role toy_a = agent_role toy_b /\
  exists r1 b1 r2 a1,
    handle_inbound 1 (SockV4 1 1) (request_of toy_a (replicate 12 Byte.x05) 1 true) toy_b = Some (Ok r1, b1) /\
    handle_inbound 2 (SockV4 2 2) (request_of b1 (replicate 12 Byte.x06) 2 true) toy_a = Some (Ok r2, a1) /\
    agent_role a1 = RoleControlled /\ agent_role b1 = RoleControlling.
Proof.
  split; [vm_compute; reflexivity|].
  destruct (role_conflict_resolved toy_a toy_b 1 2 (SockV4 1 1) (SockV4 2 2) (replicate 12 Byte.x05)
    (replicate 12 Byte.x06) 1 2 true true toy_a_wf toy_b_wf eq_refl eq_refl toy_a_speaks toy_b_speaks)
    as (r1 & b1 & r2 & a1 & H1 & H2 & Ha & Hb & _);
    [split; vm_compute; reflexivity|reflexivity|reflexivity|decide_closed|decide_closed|vm_compute; reflexivity
    |vm_compute; discriminate|].
  rewrite decide_False in Ha, Hb by (vm_compute; discriminate).
  exists r1, b1, r2, a1. exact (conj H1 (conj H2 (conj Ha Hb))).
Defined.

Lemma keepalive_before_consent_witness :
  exists d, mul_f64 DEFAULT_KEEPALIVE_INTERVAL (consent_jitter (replicate 32 Byte.x01) 3) = Some d /\
    d < DEFAULT_CONSENT_TIMEOUT.
Proof.
  destruct (keepalive_before_consent (toy_config Byte.x01) (replicate 32 Byte.x01) 3) as (d & Hd & _ & Hlt);
    [left; reflexivity|vm_compute; reflexivity|].
  exists d. exact (conj Hd Hlt).
Defined.
