(* ===== verification/Usernames.v ===== *)
(** * User names and their registry

    Models src/crates/rpc/src/username.rs and
    src/crates/server/src/username_registry.rs.  A [String] is the list of its
    code points, encoded as UTF-8 in the log.  The width of a character (the
    unicode-width crate) and the lowercase of a character (Unicode's tables) are
    the class [Unicode]; nothing is assumed of them. *)

From S2P Require Import Prelude Text.

(** ** UTF-8 *)

Module Utf8.

(** A [char]: a Unicode scalar value. *)
Definition scalar (c : Z) : Prop := 0 <= c < 55296 \/ 57344 <= c < 1114112.

Definition encode_char (c : Z) : bytes :=
  of_u8 <$>
  (if decide (c < 128) then [c]
   else if decide (c < 2048) then [192 + c / 64; 128 + c mod 64]
   else if decide (c < 65536) then [224 + c / 4096; 128 + c / 64 mod 64; 128 + c mod 64]
   else [240 + c / 262144; 128 + c / 4096 mod 64; 128 + c / 64 mod 64; 128 + c mod 64]).

Definition encode (s : list Z) : bytes := mjoin (encode_char <$> s).

(** The scalar value of one well-formed sequence. *)
Definition decode_char (bs : bytes) : Z :=
  match u8 <$> bs with
  | [a] => a
  | [a; b] => (a - 192) * 64 + (b - 128)
  | [a; b; c] => (a - 224) * 4096 + (b - 128) * 64 + (c - 128)
  | [a; b; c; d] => (a - 240) * 262144 + (b - 128) * 4096 + (c - 128) * 64 + (d - 128)
  | _ => 0
  end.

(** [str::from_utf8]; a character takes a byte or more, so the length of the
    bytes is fuel enough. *)
Fixpoint decode_loop (fuel : nat) (bs : bytes) : option (list Z) :=
  match bs, fuel with
  | [], _ => Some []
  | _, O => None
  | _, S fuel =>
      n ← utf8_first bs;
      rest ← decode_loop fuel (drop n bs);
      Some (decode_char (take n bs) :: rest)
  end.

Definition decode (bs : bytes) : option (list Z) := decode_loop (length bs) bs.

End Utf8.

(** ** Names *)

Definition MAX_USERNAME_BYTES : nat := 64.
Definition MAX_USERNAME_COLUMNS : Z := 32.

Inductive UsernameError := UsernameEmpty | TooLong | TooWide | Control | Invisible | Whitespace.

(** Facts about characters the code takes from elsewhere: the terminal width of
    a character and its lowercase. *)
Class Unicode := {
  char_width : Z -> option Z;
  char_to_lowercase : Z -> list Z;
}.

(** [char::is_control] and [char::is_whitespace]. *)
Definition is_control (c : Z) : bool := bool_decide (0 <= c <= 31) || bool_decide (127 <= c <= 159).
Definition is_whitespace (c : Z) : bool :=
  bool_decide (9 <= c <= 13) || bool_decide (8192 <= c <= 8202) ||
  bool_decide (c ∈ [32; 133; 160; 5760; 8232; 8233; 8239; 8287; 12288]).

Definition SPACE : Z := 32.

Module Username.

Fixpoint skip_spaces (s : list Z) : list Z :=
  match s with
  | c :: s' => if decide (c = SPACE) then skip_spaces s' else s
  | [] => []
  end.

(** [trim_matches(' ')]. *)
Definition trim (name : list Z) : list Z := reverse (skip_spaces (reverse (skip_spaces name))).

Section names.
Context `{Unicode}.

(** The loop over the characters: the columns they take. *)
Fixpoint count_columns (name : list Z) (columns : Z) : result UsernameError Z :=
  match name with
  | [] => Ok columns
  | ch :: name =>
      if is_control ch then Err Control
      else if bool_decide (ch <> SPACE) && is_whitespace ch then Err Whitespace
      else match char_width ch with
      | Some width => if decide (1 <= width) then count_columns name (columns + width) else Err Invisible
      | None => Err Invisible
      end
  end.

Definition validate (name : list Z) : result UsernameError () :=
  let name := trim name in
  if decide (name = []) then Err UsernameEmpty
  else if decide (MAX_USERNAME_BYTES < length (Utf8.encode name))%nat then Err TooLong
  else
    columns ← count_columns name 0;
    if decide (MAX_USERNAME_COLUMNS < columns) then Err TooWide else Ok ().

Definition is_valid (name : list Z) : bool := match validate name with Ok _ => true | Err _ => false end.

(** The two repairs of the lowercase: sharp s (223) to "ss", final sigma (962)
    to sigma (963). *)
Definition fold_char (c : Z) : list Z :=
  if decide (c = 223) then [115; 115] else if decide (c = 962) then [963] else [c].

Fixpoint fold_loop (name : list Z) (pending_space : bool) : list Z :=
  match name with
  | [] => []
  | ch :: name =>
      if decide (ch = SPACE) then fold_loop name true
      else (if pending_space then [SPACE] else []) ++
           mjoin (fold_char <$> char_to_lowercase ch) ++ fold_loop name false
  end.

Definition fold (name : list Z) : list Z := fold_loop (trim name) false.

End names.

End Username.

(** ** The registry *)

Definition FIRST_DYNAMIC_USER_ID : Z := 2 ^ 32.

Inductive RegistryError :=
| NotDynamic
| InvalidUsername (e : UsernameError)
| UsernameInUse
| AppendError
| RegistryInvalidName
| RegistryDuplicate
| LogNotDynamic.

(** [reg_log] is the content of the log file behind the append handle. *)
Record UsernameRegistry := mkRegistry {
  reg_log : option bytes;
  by_folded : gmap (list Z) Z;
  by_user : gmap Z (list Z);
}.

(** What an append to the log does: it is written and synced, or it fails after
    some bytes and the file is cut back to its former length, or not even that. *)
Inductive AppendOutcome :=
| AppendOk
| AppendFailed (written : nat) (rolled_back : bool).

(** One log record: [user_id: u64 LE | len: u8 | username]. *)
Definition record_bytes (user_id : Z) (name : list Z) : bytes :=
  le_bytes 8 user_id ++ [of_u8 (wrap 8 (len (Utf8.encode name)))] ++ Utf8.encode name.

Definition write_record (io : AppendOutcome) (file : bytes) (user_id : Z) (name : list Z)
    : bytes * result RegistryError () :=
  if decide (255 < length (Utf8.encode name))%nat then (file, Err AppendError)
  else
    match io with
    | AppendOk => (file ++ record_bytes user_id name, Ok ())
    | AppendFailed _ true => (file, Err AppendError)
    | AppendFailed written false => (file ++ take written (record_bytes user_id name), Err AppendError)
    end.

Definition read_record (bs : bytes) (offset : nat) : option (Z * list Z * nat) :=
  let id_end := (offset + 9)%nat in
  header ← get_range bs (Z.of_nat offset) (Z.of_nat id_end);
  let user_id := of_le (take 8 header) in
  let n := Z.to_nat (u8 (header !!! 8%nat)) in
  let stop := (id_end + n)%nat in
  raw ← get_range bs (Z.of_nat id_end) (Z.of_nat stop);
  name ← Utf8.decode raw;
  Some (user_id, name, stop).

Definition persist_dynamic_claim (io : AppendOutcome) (file : bytes) (user_id : Z) (name : list Z)
    : bytes * result RegistryError () :=
  if decide (user_id < FIRST_DYNAMIC_USER_ID) then (file, Err NotDynamic)
  else write_record io file user_id name.

Module UsernameRegistry.
Section registry.
Context `{Unicode}.

Definition empty : UsernameRegistry := {| reg_log := None; by_folded := ∅; by_user := ∅ |}.

Definition owner_of (r : UsernameRegistry) (name : list Z) : option Z := by_folded r !! Username.fold name.

Definition contains_user (r : UsernameRegistry) (user_id : Z) : bool := bool_decide (is_Some (by_user r !! user_id)).

Definition username_for (r : UsernameRegistry) (user_id : Z) : option (list Z) := by_user r !! user_id.

Definition needs_dynamic_claim (r : UsernameRegistry) (user_id : Z) (name : list Z) : bool :=
  bool_decide (by_user r !! user_id <> Some (Username.trim name)).

Definition is_available (r : UsernameRegistry) (name : list Z) (claimant : option Z) : bool :=
  match owner_of r name with
  | None => true
  | Some owner => bool_decide (Some owner = claimant)
  end.

Definition set_in_memory (r : UsernameRegistry) (user_id : Z) (name : list Z) : UsernameRegistry :=
  let folded :=
    match by_user r !! user_id with
    | Some previous =>
        let previous_key := Username.fold previous in
        if bool_decide (previous_key <> Username.fold name) &&
           bool_decide (by_folded r !! previous_key = Some user_id)
        then delete previous_key (by_folded r) else by_folded r
    | None => by_folded r
    end in
  {| reg_log := reg_log r;
     by_folded := <[Username.fold name := user_id]> folded;
     by_user := <[user_id := name]> (by_user r) |}.

Definition claim_in_memory (r : UsernameRegistry) (user_id : Z) (name : list Z)
    : result RegistryError UsernameRegistry :=
  if negb (Username.is_valid name) then Err RegistryInvalidName
  else if negb (is_available r name (Some user_id)) then Err RegistryDuplicate
  else Ok (set_in_memory r user_id name).

Fixpoint claim_all (r : UsernameRegistry) (l : list (Z * list Z)) : result RegistryError UsernameRegistry :=
  match l with
  | [] => Ok r
  | (user_id, name) :: l => r ← claim_in_memory r user_id name; claim_all r l
  end.

(** The explicit users are given as pairs of id and name. *)
Definition seed_explicit (r : UsernameRegistry) (explicit_users : list (Z * list Z))
    : result RegistryError UsernameRegistry := claim_all r explicit_users.

Definition apply_dynamic_claim (r : UsernameRegistry) (user_id : Z) (name : list Z)
    : UsernameRegistry * result RegistryError () :=
  if decide (user_id < FIRST_DYNAMIC_USER_ID) then (r, Err NotDynamic)
  else match Username.validate name with
  | Err e => (r, Err (InvalidUsername e))
  | Ok _ =>
      let name := Username.trim name in
      if negb (is_available r name (Some user_id)) then (r, Err UsernameInUse)
      else (set_in_memory r user_id name, Ok ())
  end.

Definition set_log (v : option bytes) (r : UsernameRegistry) : UsernameRegistry :=
  {| reg_log := v; by_folded := by_folded r; by_user := by_user r |}.

Definition claim_dynamic (io : AppendOutcome) (r : UsernameRegistry) (user_id : Z) (name : list Z)
    : UsernameRegistry * result RegistryError () :=
  if decide (user_id < FIRST_DYNAMIC_USER_ID) then (r, Err NotDynamic)
  else match Username.validate name with
  | Err e => (r, Err (InvalidUsername e))
  | Ok _ =>
      let name := Username.trim name in
      if negb (is_available r name (Some user_id)) then (r, Err UsernameInUse)
      else if decide (by_user r !! user_id = Some name) then (r, Ok ())
      else
        match reg_log r with
        | None => apply_dynamic_claim r user_id name
        | Some file =>
            let '(file, written) := write_record io file user_id name in
            let r := set_log (Some file) r in
            match written with
            | Err e => (r, Err e)
            | Ok _ => apply_dynamic_claim r user_id name
            end
        end
  end.

(** The registry's mirror of an explicit rename; the [debug_assert]s are the
    preconditions of its callers. *)
Definition set_explicit (r : UsernameRegistry) (user_id : Z) (name : list Z) : UsernameRegistry :=
  set_in_memory r user_id name.

(** The loop of [replay_log]: the collapsed dynamic users, and the offset past
    the last whole record.  A record takes nine bytes or more. *)
Fixpoint replay_loop (fuel : nat) (bs : bytes) (offset : nat) (dynamic : UsernameRegistry)
    : result RegistryError (UsernameRegistry * nat) :=
  match fuel with
  | O => Ok (dynamic, offset)
  | S fuel =>
      match read_record bs offset with
      | None => Ok (dynamic, offset)
      | Some (user_id, name, next) =>
          if decide (user_id < FIRST_DYNAMIC_USER_ID) then Err LogNotDynamic
          else
            dynamic ← claim_in_memory dynamic user_id name;
            replay_loop fuel bs next dynamic
      end
  end.

(** The registry and the content the file is left with.  The collapsed users are
    merged in the order of the map; no order makes a difference ([claim_all_disjoint]). *)
Definition replay_log (r : UsernameRegistry) (bs : bytes) : result RegistryError (UsernameRegistry * bytes) :=
  '(dynamic, offset) ← replay_loop (S (length bs)) bs 0 empty;
  r ← claim_all r (map_to_list (by_user dynamic));
  Ok (r, take offset bs).

Definition in_memory (explicit_users : list (Z * list Z)) : option UsernameRegistry :=
  match seed_explicit empty explicit_users with Ok r => Some r | Err _ => None end.

(** [file] is the content of the log, [None] when there is no such file yet. *)
Definition open (file : option bytes) (explicit_users : list (Z * list Z))
    : result RegistryError UsernameRegistry :=
  r ← seed_explicit empty explicit_users;
  '(r, content) ← match file with Some bs => replay_log r bs | None => Ok (r, []) end;
  Ok (set_log (Some content) r).

End registry.
End UsernameRegistry.

(** ** Lemmas: UTF-8 *)

Lemma utf8_first_encode c rest :
  Utf8.scalar c ->
  utf8_first (Utf8.encode_char c ++ rest) = Some (length (Utf8.encode_char c)) /\
  Utf8.decode_char (Utf8.encode_char c) = c.
Proof.
  intros Hc. unfold Utf8.encode_char, Utf8.scalar in *.
  assert (forall z, 0 <= z < 256 -> u8 (of_u8 z) = z) as Hu
    by (intros; rewrite u8_of_u8, Z.mod_small; lia).
  pose proof (Z.mod_pos_bound c 64 ltac:(lia)). pose proof (Z.mod_pos_bound (c / 64) 64 ltac:(lia)).
  pose proof (Z.mod_pos_bound (c / 4096) 64 ltac:(lia)).
  pose proof (Z.div_mod c 64 ltac:(lia)). pose proof (Z.div_mod (c / 64) 64 ltac:(lia)).
  pose proof (Z.div_mod (c / 4096) 64 ltac:(lia)).
  assert (c / 4096 = c / 64 / 64) by (rewrite Z.div_div by lia; reflexivity).
  assert (c / 262144 = c / 4096 / 64) by (rewrite Z.div_div by lia; reflexivity).
  destruct (decide (c < 128)); [|destruct (decide (c < 2048)); [|destruct (decide (c < 65536))]];
    cbn [fmap list_fmap app length]; unfold Utf8.decode_char, utf8_first, continuation;
    cbn [fmap list_fmap]; rewrite ?Hu by lia.
  - rewrite decide_True by lia. done.
  - rewrite (decide_False (P := _ <= 127)), (decide_True (P := 194 <= _ <= 223)), bool_decide_true by lia.
    split; [done|lia].
  - rewrite (decide_False (P := _ <= 127)), (decide_False (P := 194 <= _ <= 223)),
      (decide_True (P := 224 <= _ <= 239)) by lia.
    rewrite (bool_decide_true (128 <= 128 + c mod 64 <= 191)), andb_true_r by lia.
    rewrite bool_decide_true; [split; [done|lia]|]. repeat case_decide; lia.
  - rewrite (decide_False (P := _ <= 127)), (decide_False (P := 194 <= _ <= 223)),
      (decide_False (P := 224 <= _ <= 239)), (decide_True (P := 240 <= _ <= 244)) by lia.
    rewrite (bool_decide_true (128 <= 128 + c mod 64 <= 191)),
      (bool_decide_true (128 <= 128 + c / 64 mod 64 <= 191)), !andb_true_r by lia.
    rewrite bool_decide_true; [split; [done|lia]|]. repeat case_decide; lia.
Qed.

Lemma length_encode_char c : (1 <= length (Utf8.encode_char c))%nat.
Proof. unfold Utf8.encode_char. repeat case_decide; cbn; lia. Qed.

Lemma encode_cons c s : Utf8.encode (c :: s) = Utf8.encode_char c ++ Utf8.encode s.
Proof. reflexivity. Qed.

Lemma decode_loop_encode s fuel :
  Forall Utf8.scalar s -> (length (Utf8.encode s) <= fuel)%nat -> Utf8.decode_loop fuel (Utf8.encode s) = Some s.
Proof.
  intros Hs. revert fuel. induction Hs as [|c s Hc _ IH]; intros fuel Hf; [by destruct fuel|].
  rewrite encode_cons in *. pose proof (length_encode_char c) as Hl. rewrite length_app in Hf.
  destruct (utf8_first_encode c (Utf8.encode s) Hc) as [Hfirst Hval].
  destruct (Utf8.encode_char c ++ Utf8.encode s) as [|b e] eqn:He.
  { apply (f_equal length) in He. rewrite length_app in He. cbn in He. lia. }
  destruct fuel as [|fuel]; [lia|]. cbn [Utf8.decode_loop]. rewrite Hfirst. cbn [mbind option_bind].
  rewrite <- He, drop_app_length, take_app_length, Hval, IH by lia. done.
Qed.

Lemma decode_encode s : Forall Utf8.scalar s -> Utf8.decode (Utf8.encode s) = Some s.
Proof. intros. by apply decode_loop_encode. Qed.

(** ** Lemmas: names *)

Definition starts_clean (s : list Z) : Prop := match s with c :: _ => c <> SPACE | [] => True end.

Lemma skip_clean s : starts_clean s -> Username.skip_spaces s = s.
Proof. destruct s as [|c s]; [done|]. cbn. intros. by rewrite decide_False. Qed.

Lemma skip_spaces_spec s :
  starts_clean (Username.skip_spaces s) /\ exists k, s = k ++ Username.skip_spaces s.
Proof.
  induction s as [|c s [IH (k & Hk)]]; cbn; [split; [done|by exists []]|].
  case_decide as Hc; [|split; [done|by exists []]]. split; [done|]. exists (c :: k). cbn. by rewrite <- Hk.
Qed.

(** What is left starts and ends with a character that is not a space. *)
Lemma trim_spec name : exists a b, name = a ++ Username.trim name ++ b /\
  starts_clean (Username.trim name) /\ starts_clean (reverse (Username.trim name)).
Proof.
  unfold Username.trim. destruct (skip_spaces_spec name) as [Hc (a & Ha)].
  destruct (skip_spaces_spec (reverse (Username.skip_spaces name))) as [Hc' (b & Hb)].
  set (t := Username.skip_spaces (reverse _)) in *.
  assert (Username.skip_spaces name = reverse t ++ reverse b) as Ht.
  { rewrite <- reverse_app, <- Hb. by rewrite reverse_involutive. }
  exists a, (reverse b). rewrite <- Ht, reverse_involutive. split; [done|]. split; [|done].
  rewrite Ht in Hc. by destruct (reverse t).
Qed.

Lemma trim_trim name : Username.trim (Username.trim name) = Username.trim name.
Proof.
  destruct (trim_spec name) as (_ & _ & _ & H1 & H2). unfold Username.trim at 1.
  rewrite (skip_clean (Username.trim name)), skip_clean by done. by rewrite reverse_involutive.
Qed.

Lemma trim_scalar name : Forall Utf8.scalar name -> Forall Utf8.scalar (Username.trim name).
Proof. destruct (trim_spec name) as (a & b & Hn & _). rewrite Hn at 1. rewrite !Forall_app. naive_solver. Qed.

Section registry_lemmas.
Context `{Unicode}.

(** A name as the registry holds it. *)
Definition name_ok (n : list Z) : Prop :=
  Username.validate n = Ok () /\ Username.trim n = n /\ Forall Utf8.scalar n.

Lemma validate_trim n : Username.validate (Username.trim n) = Username.validate n.
Proof. unfold Username.validate. by rewrite trim_trim. Qed.

Lemma name_ok_trim n : Forall Utf8.scalar n -> Username.validate n = Ok () -> name_ok (Username.trim n).
Proof.
  intros Hs Hv. split; [by rewrite validate_trim|]. split; [apply trim_trim|by apply trim_scalar].
Qed.

Lemma name_ok_valid n : name_ok n -> Username.is_valid n = true.
Proof. intros (Hv & _). unfold Username.is_valid. by rewrite Hv. Qed.

Lemma name_ok_len n : name_ok n -> (length (Utf8.encode n) <= 64)%nat.
Proof.
  intros (Hv & Ht & _). unfold Username.validate in Hv. rewrite Ht in Hv.
  destruct (decide (n = [])); [done|]. case_decide as Hlen; [done|]. unfold MAX_USERNAME_BYTES in Hlen. lia.
Qed.

(** The index is exactly the inverse of the folded names. *)
Record registry_wf (r : UsernameRegistry) : Prop := {
  rw_index : forall k u, by_folded r !! k = Some u <-> exists n, by_user r !! u = Some n /\ Username.fold n = k;
  rw_names : forall u n, by_user r !! u = Some n -> name_ok n;
}.

(** The index follows from the names. *)
Lemma by_folded_determined r1 r2 :
  registry_wf r1 -> registry_wf r2 -> by_user r1 = by_user r2 -> by_folded r1 = by_folded r2.
Proof.
  intros W1 W2 Hu. apply map_eq. intros k. apply option_eq. intros u.
  rewrite (rw_index r1 W1), (rw_index r2 W2). by rewrite Hu.
Qed.

Lemma is_available_iff r n u :
  registry_wf r -> UsernameRegistry.is_available r n (Some u) = true <->
  forall v m, by_user r !! v = Some m -> Username.fold m = Username.fold n -> v = u.
Proof.
  intros W. unfold UsernameRegistry.is_available, UsernameRegistry.owner_of.
  destruct (by_folded r !! Username.fold n) as [v|] eqn:Hv.
  - rewrite bool_decide_eq_true. apply (rw_index r W) in Hv as (m & Hm & Hf). split.
    + intros [= ->] v' m' Hm' Hf'.
      assert (by_folded r !! Username.fold n = Some v') as Hv' by (apply (rw_index r W); eauto).
      assert (by_folded r !! Username.fold n = Some u) as Hu by (apply (rw_index r W); eauto).
      congruence.
    + intros Hall. f_equal. eauto.
  - split; [|done]. intros _ v m Hm Hf.
    assert (by_folded r !! Username.fold n = Some v) by (apply (rw_index r W); eauto). congruence.
Qed.

Lemma set_in_memory_wf r u n :
  registry_wf r -> name_ok n -> UsernameRegistry.is_available r n (Some u) = true ->
  registry_wf (UsernameRegistry.set_in_memory r u n).
Proof.
  intros W Hn Hav. rewrite is_available_iff in Hav by done.
  assert (forall k v, by_folded (UsernameRegistry.set_in_memory r u n) !! k = Some v <->
    k = Username.fold n /\ v = u \/ k <> Username.fold n /\ v <> u /\ by_folded r !! k = Some v) as Hspec.
  { intros k v. unfold UsernameRegistry.set_in_memory. cbn [by_folded].
    destruct (decide (k = Username.fold n)) as [->|Hk].
    { rewrite lookup_insert_eq. naive_solver. }
    rewrite lookup_insert_ne by done.
    assert (by_folded r !! k = Some u <-> exists p, by_user r !! u = Some p /\ Username.fold p = k) as Hu
      by apply (rw_index r W).
    destruct (by_user r !! u) as [p|] eqn:Hp.
    2:{ split; [|naive_solver]. intros Hv. right. split_and!; try done. intros ->. naive_solver. }
    assert (by_folded r !! Username.fold p = Some u) as Hpu by (apply (rw_index r W); eauto).
    rewrite (bool_decide_true (by_folded r !! _ = _)), andb_true_r by done. case_bool_decide as Hpf.
    - rewrite lookup_delete_Some. split; [|naive_solver].
      intros [Hne Hv]. right. split_and!; try done. intros ->. naive_solver.
    - split; [|naive_solver]. intros Hv. right. split_and!; try done. intros ->. naive_solver. }
  constructor.
  - intros k v. rewrite Hspec. unfold UsernameRegistry.set_in_memory. cbn [by_user].
    destruct (decide (v = u)) as [->|Hv].
    + rewrite lookup_insert_eq. naive_solver.
    + rewrite lookup_insert_ne by done. rewrite (rw_index r W). split; [naive_solver|].
      intros (m & Hm & Hf). right. split_and!; eauto. intros ->. apply Hv. eauto.
  - intros v m. unfold UsernameRegistry.set_in_memory. cbn [by_user]. rewrite lookup_insert_Some.
    intros [[_ <-]|[_ Hm]]; [done|]. by apply (rw_names r W v).
Qed.

Lemma empty_wf : registry_wf UsernameRegistry.empty.
Proof. constructor; cbn; intros; rewrite ?lookup_empty in *; naive_solver. Qed.

(** Claims that meet no other: names of new users, all different.  They succeed
    in any order. *)
Lemma claim_all_disjoint l r :
  registry_wf r -> NoDup l.*1 -> Forall (fun x => name_ok x.2) l ->
  (forall u n v m, (u, n) ∈ l -> (v, m) ∈ l -> Username.fold n = Username.fold m -> u = v) ->
  (forall u n v m, (u, n) ∈ l -> by_user r !! v = Some m -> u <> v /\ Username.fold n <> Username.fold m) ->
  exists r', UsernameRegistry.claim_all r l = Ok r' /\ registry_wf r' /\ by_user r' = list_to_map l ∪ by_user r /\
    reg_log r' = reg_log r.
Proof.
  revert r. induction l as [|[u n] l IH]; intros r W Hnd Hok Hinj Hdis.
  { exists r. cbn. by rewrite (left_id_L ∅ (∪)). }
  inversion_clear Hnd as [|? ? Hu Hnd']. inversion_clear Hok as [|? ? Hn Hok']. cbn [snd] in Hn.
  cbn [UsernameRegistry.claim_all]. unfold UsernameRegistry.claim_in_memory.
  rewrite name_ok_valid by done. cbn [negb].
  assert (UsernameRegistry.is_available r n (Some u) = true) as Hav.
  { apply is_available_iff; [done|]. intros v m Hm Hf. destruct (Hdis u n v m); [left|done|]. congruence. }
  rewrite Hav. cbn [negb]. run_result.
  destruct (IH (UsernameRegistry.set_in_memory r u n)) as (r' & -> & W' & Hb & Hl); try done.
  - by apply set_in_memory_wf.
  - intros u1 n1 v m H1 H2. apply Hinj; by right.
  - intros u1 n1 v m Hin. cbn [by_user UsernameRegistry.set_in_memory]. rewrite lookup_insert_Some.
    intros [[<- <-]|[Hne Hm]]; [|apply (Hdis u1 n1); [by right|done]].
    assert (u1 <> u) as Hne by (intros ->; apply Hu; apply list_elem_of_fmap; by exists (u, n1)).
    split; [done|]. intros Hf. apply Hne. apply (Hinj u1 n1 u n); [by right|by left|done].
  - exists r'. split_and!; try done. rewrite Hb. cbn [by_user UsernameRegistry.set_in_memory list_to_map fst snd foldr].
    rewrite <- insert_union_l, insert_union_r; [done|]. apply not_elem_of_list_to_map_1.
    intros Hin. by apply Hu.
Qed.

(** ** Lemmas: the log *)

Definition log_entry_ok (x : Z * list Z) : Prop :=
  FIRST_DYNAMIC_USER_ID <= x.1 < 2 ^ 64 /\ name_ok x.2.

Definition log_bytes (rs : list (Z * list Z)) : bytes := mjoin ((fun x => record_bytes x.1 x.2) <$> rs).

Lemma log_bytes_app rs ks : log_bytes (rs ++ ks) = log_bytes rs ++ log_bytes ks.
Proof. unfold log_bytes. by rewrite fmap_app, join_app. Qed.

Lemma log_bytes_one u n : log_bytes [(u, n)] = record_bytes u n.
Proof. unfold log_bytes. cbn [fmap list_fmap mjoin list_join fst snd]. apply app_nil_r. Qed.

Lemma length_record_bytes u n : length (record_bytes u n) = (9 + length (Utf8.encode n))%nat.
Proof. unfold record_bytes. rewrite !length_app, length_le_bytes. done. Qed.

Lemma log_bytes_length rs : (length rs <= length (log_bytes rs))%nat.
Proof.
  induction rs as [|[u n] rs IH]; [done|]. change ((u, n) :: rs) with ([(u, n)] ++ rs).
  rewrite log_bytes_app, log_bytes_one, !length_app, length_record_bytes. cbn [length]. lia.
Qed.

(** A read looks only at the bytes from its offset on. *)
Lemma read_record_app pre bs :
  read_record (pre ++ bs) (length pre) =
  match read_record bs 0 with
  | Some (u, n, stop) => Some (u, n, (length pre + stop)%nat)
  | None => None
  end.
Proof.
  assert (forall a b, get_range (pre ++ bs) (Z.of_nat (length pre + a)) (Z.of_nat (length pre + b)) =
    get_range bs (Z.of_nat a) (Z.of_nat b)) as Hget.
  { intros a b. unfold get_range, len. rewrite length_app.
    destruct (decide (0 <= Z.of_nat a <= Z.of_nat b /\ Z.of_nat b <= Z.of_nat (length bs))) as [Hd|Hd].
    - rewrite decide_True by lia. f_equal. unfold slice. rewrite !Nat2Z.id, drop_app_add'; [f_equal; lia|done].
    - rewrite decide_False by lia. done. }
  unfold read_record. pose proof (Hget 0%nat 9%nat) as H0. rewrite Nat.add_0_r in H0. rewrite H0.
  replace (Z.of_nat (0 + 9)) with (Z.of_nat 9) by lia.
  destruct (get_range bs (Z.of_nat 0) (Z.of_nat 9)) as [h|]; [|done]. cbn [mbind option_bind].
  rewrite <- Nat.add_assoc, Hget. rewrite !Nat.add_0_l.
  destruct (get_range bs (Z.of_nat 9) _) as [raw|]; [|done]. cbn [mbind option_bind].
  destruct (Utf8.decode raw); done.
Qed.

(** Of a record and whatever follows it, exactly the record is read. *)
Lemma read_record_one u n rest :
  is_u64 u -> name_ok n ->
  read_record (record_bytes u n ++ rest) 0 = Some (u, n, length (record_bytes u n)).
Proof.
  intros Hu Hn. pose proof (name_ok_len n Hn) as Hlen. destruct Hn as (_ & _ & Hs).
  pose proof (length_record_bytes u n) as Hrl. unfold read_record. change (0 + 9)%nat with 9%nat.
  unfold get_range at 2. rewrite decide_True by (unfold len; rewrite length_app; lia).
  cbn [mbind option_bind]. set (e := Utf8.encode n) in *. unfold record_bytes. fold e.
  rewrite <- !(assoc_L (++)).
  assert (slice (le_bytes 8 u ++ [of_u8 (wrap 8 (len e))] ++ e ++ rest) (Z.to_nat (Z.of_nat 0)) (Z.to_nat (Z.of_nat 9)) =
    le_bytes 8 u ++ [of_u8 (wrap 8 (len e))]) as ->.
  { rewrite (assoc_L (++)). apply slice_front. by rewrite length_app, length_le_bytes. }
  rewrite take_app_length' by (by rewrite length_le_bytes).
  rewrite lookup_total_app_r by (by rewrite length_le_bytes). rewrite length_le_bytes. cbn [Nat.sub].
  change ([of_u8 (wrap 8 (len e))] !!! 0%nat) with (of_u8 (wrap 8 (len e))).
  assert (u8 (of_u8 (wrap 8 (len e))) = len e) as ->.
  { rewrite wrap_small, u8_of_u8, Z.mod_small; unfold is_u, len; lia. }
  replace (Z.to_nat (len e)) with (length e) by (unfold len; lia).
  unfold get_range. rewrite decide_True.
  2:{ unfold len. rewrite !length_app, length_le_bytes. cbn [length]. lia. }
  cbn [mbind option_bind]. rewrite !Nat2Z.id.
  assert (slice (le_bytes 8 u ++ [of_u8 (wrap 8 (len e))] ++ e ++ rest) 9 (9 + length e) = e) as ->.
  { rewrite (assoc_L (++)). apply slice_mid; [by rewrite length_app, length_le_bytes|done]. }
  unfold e. rewrite decode_encode by done. cbn [mbind option_bind].
  by rewrite of_le_le_bytes by done.
Qed.

(** Of a part of a record nothing is read. *)
Lemma read_record_torn u n k :
  name_ok n -> (k < length (record_bytes u n))%nat -> read_record (take k (record_bytes u n)) 0 = None.
Proof.
  intros Hn Hk. pose proof (name_ok_len n Hn) as Hlen. unfold read_record.
  assert (len (take k (record_bytes u n)) = Z.of_nat k) as Hl by (unfold len; rewrite length_take; lia).
  unfold get_range at 2. rewrite Hl. case_decide as Hd; [|done]. cbn [mbind option_bind].
  assert (slice (take k (record_bytes u n)) (Z.to_nat (Z.of_nat 0)) (Z.to_nat (Z.of_nat (0 + 9))) !!! 8%nat =
    of_u8 (wrap 8 (len (Utf8.encode n)))) as ->.
  { unfold slice. rewrite !Nat2Z.id, drop_0, take_take, Nat.min_l by lia. unfold record_bytes.
    rewrite (assoc_L (++)), take_app_length' by (by rewrite length_app, length_le_bytes).
    rewrite lookup_total_app_r by (by rewrite length_le_bytes). by rewrite length_le_bytes. }
  assert (u8 (of_u8 (wrap 8 (len (Utf8.encode n)))) = len (Utf8.encode n)) as ->.
  { rewrite wrap_small, u8_of_u8, Z.mod_small; unfold is_u, len; lia. }
  replace (Z.to_nat (len (Utf8.encode n))) with (length (Utf8.encode n)) by (unfold len; lia).
  unfold get_range. rewrite Hl, decide_False; [done|].
  rewrite length_record_bytes in Hk. lia.
Qed.

(** Runs of claims a log can hold: each was available among the dynamic users
    before it. *)
Inductive replays : list (Z * list Z) -> UsernameRegistry -> Prop :=
| replays_nil : replays [] UsernameRegistry.empty
| replays_snoc rs d u n :
    replays rs d -> log_entry_ok (u, n) -> UsernameRegistry.is_available d n (Some u) = true ->
    replays (rs ++ [(u, n)]) (UsernameRegistry.set_in_memory d u n).

Lemma replays_wf rs d : replays rs d -> registry_wf d.
Proof.
  induction 1 as [|rs d u n _ IH [_ Hn] Hav]; [apply empty_wf|]. by apply set_in_memory_wf.
Qed.

Lemma replay_loop_more fuel bs off d d' off' :
  UsernameRegistry.replay_loop fuel bs off d = Ok (d', off') -> read_record bs off' = None ->
  forall fuel', (fuel <= fuel')%nat -> UsernameRegistry.replay_loop fuel' bs off d = Ok (d', off').
Proof.
  revert off d. induction fuel as [|fuel IH]; intros off d Hrun Hend fuel' Hle; cbn [UsernameRegistry.replay_loop] in Hrun.
  { injection Hrun as <- <-. destruct fuel'; cbn [UsernameRegistry.replay_loop]; [done|]. by rewrite Hend. }
  destruct fuel' as [|fuel']; [lia|]. cbn [UsernameRegistry.replay_loop].
  destruct (read_record bs off) as [[[u n] next]|]; [|done]. case_decide; [done|].
  destruct (UsernameRegistry.claim_in_memory d u n); [|done]. revert Hrun. run_result. intros Hrun.
  apply IH; [done|done|lia].
Qed.

(** Replaying the bytes of such a run, with a torn record behind it, gives its
    registry and the length of the run. *)
Lemma replay_loop_log rs d tail :
  replays rs d ->
  UsernameRegistry.replay_loop (length rs) (log_bytes rs ++ tail) 0 UsernameRegistry.empty = Ok (d, length (log_bytes rs)).
Proof.
  intros Hr. revert tail. induction Hr as [|rs d u n Hr IH [Hu Hn] Hav]; intros tail; [done|].
  assert (is_u64 u) as Hu64 by (unfold is_u, FIRST_DYNAMIC_USER_ID in *; cbn [fst] in Hu; lia).
  rewrite log_bytes_app, log_bytes_one, length_app, <- (assoc_L (++)).
  assert (forall k fuel bs off e e' off', UsernameRegistry.replay_loop fuel bs off e = Ok (e', off') ->
    UsernameRegistry.replay_loop (fuel + k) bs off e = UsernameRegistry.replay_loop k bs off' e' \/ read_record bs off' = None) as Hsplit.
  { clear. intros k. induction fuel as [|fuel IHf]; intros bs off e e' off' He; cbn [UsernameRegistry.replay_loop Nat.add] in *.
    { injection He as <- <-. by left. }
    destruct (read_record bs off) as [[[u n] next]|] eqn:Hrd; [|injection He as <- <-; by right].
    case_decide; [done|]. destruct (UsernameRegistry.claim_in_memory e u n); [|done].
    revert He. run_result. apply IHf. }
  destruct (Hsplit 1%nat _ _ _ _ _ _ (IH (record_bytes u n ++ tail))) as [Heq|Hnone].
  - change (length [(u, n)]) with 1%nat. rewrite Heq. cbn [UsernameRegistry.replay_loop].
    rewrite read_record_app, read_record_one by done.
    rewrite decide_False by (cbn in Hu; lia). unfold UsernameRegistry.claim_in_memory.
    rewrite name_ok_valid, Hav by done. cbn [negb]. run_result. by rewrite length_app.
  - exfalso. by rewrite read_record_app, read_record_one in Hnone by done.
Qed.

End registry_lemmas.
