(* ===== verification/Identity.v ===== *)
(** * The user store and the server's identities

    Models src/crates/server/src/user_store.rs, the record [UserConfig] and the
    secret hashes of src/crates/server/src/config.rs, and how the server installs
    a changed user (src/crates/server/src/lib.rs).  The file users.toml is the
    list of the records it holds: its TOML text is not modelled, and a write to
    it, which is atomic, happens or fails. *)

From S2P Require Import Prelude Primitives Transport Text Auth Usernames.

(** ** Secret hashes *)

Definition SECRET_HASH_PREFIX : bytes := ascii_bytes "sha256:".
Definition SHA256_HEX_LEN : nat := 64.

Definition parse_secret_hash (stored_hash : bytes) : option bytes :=
  hex ← strip_prefix SECRET_HASH_PREFIX (Text.trim stored_hash);
  if decide (length hex <> SHA256_HEX_LEN) then None
  else
    match decode_hex hex with
    | Ok decoded => if decide (length decoded = 32%nat) then Some decoded else None
    | Err _ => None
    end.

Definition hash_secret `{Primitives} (secret : bytes) : bytes := SECRET_HASH_PREFIX ++ encode_hex (sha256 secret).

(** The loop that gathers the differences of the two digests. *)
Definition verify_secret_hash `{Primitives} (stored_hash secret : bytes) : bool :=
  match parse_secret_hash stored_hash with
  | None => false
  | Some expected =>
      bool_decide (foldl Z.lor 0 (zip_with (fun l r => Z.lxor (u8 l) (u8 r)) expected (sha256 secret)) = 0)
  end.

(** ** Users *)

Record UserConfig := mkUser {
  user_id : Z;
  internal_reference : list Z;
  user_name : list Z;
  token_hash : bytes;
}.

Inductive StoreError :=
| StoreName (e : UsernameError)
| NoUserIds
| NoExplicitIds
| NoSuchUser
| StoreWrite
| ZeroId
| IdTooHigh
| EmptyReference
| DuplicateId
| DuplicateReference
| DuplicateName
| InvalidTokenHash.

(** [str::trim]. *)
Fixpoint skip_white (s : list Z) : list Z :=
  match s with
  | c :: s' => if is_whitespace c then skip_white s' else s
  | [] => []
  end.
Definition str_trim (s : list Z) : list Z := reverse (skip_white (reverse (skip_white s))).

Definition set_user_name (n : list Z) (u : UserConfig) : UserConfig :=
  {| user_id := user_id u; internal_reference := internal_reference u; user_name := n; token_hash := token_hash u |}.

Module UserStore.
Section store.
Context `{Unicode}.

Definition prepare_mark_user_paired (users : list UserConfig) (reference username : list Z) (hash : bytes)
    : result StoreError (UserConfig * list UserConfig) :=
  match Username.validate username with
  | Err e => Err (StoreName e)
  | Ok _ =>
      let username := Username.trim username in
      match list_find (fun u => internal_reference u = reference) users with
      | Some (i, u) =>
          let u := {| user_id := user_id u; internal_reference := internal_reference u;
                      user_name := username; token_hash := hash |} in
          Ok (u, <[i := u]> users)
      | None =>
          id ← ok_or NoUserIds (checked_add 64 (foldr Z.max 0 (user_id <$> users)) 1);
          if decide (FIRST_DYNAMIC_USER_ID <= id) then Err NoExplicitIds
          else
            let u := {| user_id := id; internal_reference := reference; user_name := username; token_hash := hash |} in
            Ok (u, users ++ [u])
      end
  end.

Definition prepare_set_user_username (users : list UserConfig) (id : Z) (username : list Z)
    : result StoreError (UserConfig * list UserConfig) :=
  match Username.validate username with
  | Err e => Err (StoreName e)
  | Ok _ =>
      let username := Username.trim username in
      match list_find (fun u => user_id u = id) users with
      | None => Err NoSuchUser
      | Some (i, u) => let u := set_user_name username u in Ok (u, <[i := u]> users)
      end
  end.

Definition normalize (users : list UserConfig) : list UserConfig :=
  (fun u =>
     let reference := str_trim (internal_reference u) in
     let name := str_trim (user_name u) in
     {| user_id := user_id u; internal_reference := reference;
        user_name := if decide (name = []) then reference else name; token_hash := token_hash u |}) <$> users.

(** The loop of [validate], with the three sets it fills. *)
Fixpoint validate_loop (users : list UserConfig) (ids : list Z) (references names : list (list Z))
    : result StoreError () :=
  match users with
  | [] => Ok ()
  | u :: users =>
      if decide (user_id u = 0) then Err ZeroId
      else if decide (FIRST_DYNAMIC_USER_ID <= user_id u) then Err IdTooHigh
      else if decide (internal_reference u = []) then Err EmptyReference
      else match Username.validate (user_name u) with
      | Err e => Err (StoreName e)
      | Ok _ =>
          if decide (user_id u ∈ ids) then Err DuplicateId
          else if decide (internal_reference u ∈ references) then Err DuplicateReference
          else if bool_decide (user_name u <> []) && bool_decide (Username.fold (user_name u) ∈ names)
          then Err DuplicateName
          else if bool_decide (Text.trim (token_hash u) <> []) &&
                  bool_decide (parse_secret_hash (token_hash u) = None)
          then Err InvalidTokenHash
          else validate_loop users (user_id u :: ids) (internal_reference u :: references)
                 (Username.fold (user_name u) :: names)
      end
  end.

Definition validate (users : list UserConfig) : result StoreError () := validate_loop users [] [] [].

(** Opening the store on the records of its file. *)
Definition open (file : option (list UserConfig)) : result StoreError (list UserConfig) :=
  match file with
  | None => Ok []
  | Some records =>
      let users := normalize records in
      _ ← validate users;
      Ok users
  end.

(** [mark_user_paired] and [set_user_username]: the store and its file after
    them; [written] is whether the file could be replaced. *)
Definition save_state (written : bool) (file users : list UserConfig) : list UserConfig * result StoreError () :=
  if written then (users, Ok ()) else (file, Err StoreWrite).

Definition commit (written : bool) (users file : list UserConfig)
    (prepared : result StoreError (UserConfig * list UserConfig))
    : list UserConfig * list UserConfig * result StoreError UserConfig :=
  match prepared with
  | Err e => (users, file, Err e)
  | Ok (u, users') =>
      match save_state written file users' with
      | (file, Ok _) => (users', file, Ok u)
      | (file, Err e) => (users, file, Err e)
      end
  end.

Definition mark_user_paired (written : bool) (users file : list UserConfig) (reference username : list Z)
    (hash : bytes) : list UserConfig * list UserConfig * result StoreError UserConfig :=
  commit written users file (prepare_mark_user_paired users reference username hash).

Definition set_user_username (written : bool) (users file : list UserConfig) (id : Z) (username : list Z)
    : list UserConfig * list UserConfig * result StoreError UserConfig :=
  commit written users file (prepare_set_user_username users id username).

End store.
End UserStore.

(** ** The server's identities *)

(** The users in memory, the users in the file, and the registry with its log. *)
Record Identity := mkIdentity {
  id_users : list UserConfig;
  id_file : list UserConfig;
  id_names : UsernameRegistry;
}.

(** The changes the authentication and pairing handlers make, one at a time: a
    dynamic user claims a name, an invite is paired, an explicit user is renamed.
    [io] and [written] say how the file system answers. *)
Inductive IdentityEvent :=
| ClaimDynamic (io : AppendOutcome) (id : Z) (name : list Z)
| PairInvite (written : bool) (reference name : list Z) (hash : bytes)
| RenameExplicit (written : bool) (id : Z) (name : list Z).

Section identity.
Context `{Unicode}.

(** [install_explicit_username], after the file was replaced. *)
Definition install_explicit_username (users : list UserConfig) (u : UserConfig) (i : Identity) : Identity :=
  {| id_users := users; id_file := id_file i;
     id_names := UsernameRegistry.set_explicit (id_names i) (user_id u) (user_name u) |}.

Definition set_file (file : list UserConfig) (i : Identity) : Identity :=
  {| id_users := id_users i; id_file := file; id_names := id_names i |}.

(** A prepared change of the explicit users: written, then installed. *)
Definition change_explicit (written : bool) (prepared : result StoreError (UserConfig * list UserConfig))
    (i : Identity) : Identity :=
  match prepared with
  | Err _ => i
  | Ok (u, users) => if written then install_explicit_username users u (set_file users i) else i
  end.

Definition identity_step (e : IdentityEvent) (i : Identity) : Identity :=
  match e with
  | ClaimDynamic io id name =>
      {| id_users := id_users i; id_file := id_file i;
         id_names := (UsernameRegistry.claim_dynamic io (id_names i) id name).1 |}
  | PairInvite written reference name hash =>
      let claimant := (fun x => user_id x.2) <$>
        list_find (fun u => internal_reference u = reference) (id_users i) in
      if UsernameRegistry.is_available (id_names i) (Username.trim name) claimant
      then change_explicit written
             (UserStore.prepare_mark_user_paired (id_users i) reference (Username.trim name) hash) i
      else i
  | RenameExplicit written id name =>
      if UsernameRegistry.is_available (id_names i) (Username.trim name) (Some id)
      then change_explicit written (UserStore.prepare_set_user_username (id_users i) id (Username.trim name)) i
      else i
  end.

Fixpoint identity_run (es : list IdentityEvent) (i : Identity) : Identity :=
  match es with
  | [] => i
  | e :: es => identity_run es (identity_step e i)
  end.

(** The explicit users as the registry is given them. *)
Definition explicit_of (users : list UserConfig) : list (Z * list Z) := (fun u => (user_id u, user_name u)) <$> users.

(** A server started on empty storage. *)
Definition fresh_identity : Identity :=
  {| id_users := []; id_file := [];
     id_names := {| reg_log := Some []; by_folded := ∅; by_user := ∅ |} |}.

End identity.

(** ** Lemmas: users *)

Section user_lemmas.
Context `{Unicode}.

Definition user_ok (u : UserConfig) : Prop :=
  0 < user_id u < FIRST_DYNAMIC_USER_ID /\ internal_reference u <> [] /\
  str_trim (internal_reference u) = internal_reference u /\ name_ok (user_name u) /\
  parse_secret_hash (token_hash u) <> None.

Record users_wf (users : list UserConfig) : Prop := {
  uw_ids : NoDup (user_id <$> users);
  uw_refs : NoDup (internal_reference <$> users);
  uw_each : Forall user_ok users;
}.

Lemma count_columns_clean n k c :
  Username.count_columns n k = Ok c -> Forall (fun ch => ch = SPACE \/ is_whitespace ch = false) n.
Proof.
  revert k. induction n as [|ch n IH]; intros k Hc; [constructor|]. cbn [Username.count_columns] in Hc.
  destruct (is_control ch); [done|].
  destruct (bool_decide (ch <> SPACE) && is_whitespace ch) eqn:Hw; [done|].
  destruct (char_width ch) as [w|]; [|done]. case_decide; [|done].
  constructor; [|by eapply IH]. destruct (decide (ch = SPACE)); [by left|right].
  by rewrite bool_decide_eq_true_2 in Hw.
Qed.

(** A name of the registry survives the trimming of [normalize]. *)
Lemma name_ok_str_trim n : name_ok n -> n <> [] /\ str_trim n = n.
Proof.
  intros (Hv & Ht & _). destruct (trim_spec n) as (_ & _ & _ & H1 & H2). rewrite Ht in H1, H2.
  unfold Username.validate in Hv. rewrite Ht in Hv.
  destruct (decide (n = [])); [done|]. case_decide; [done|].
  destruct (Username.count_columns n 0) as [c|] eqn:Hc; [|done]. apply count_columns_clean in Hc.
  split; [done|].
  assert (forall s, starts_clean s -> Forall (fun ch => ch = SPACE \/ is_whitespace ch = false) s ->
    skip_white s = s) as Hskip.
  { intros [|x s] Hx Hs; [done|]. cbn. inversion_clear Hs as [|? ? Hh _]. destruct Hh as [->| ->]; done. }
  unfold str_trim. rewrite (Hskip n), Hskip by (done || by apply Forall_reverse). apply reverse_involutive.
Qed.

Lemma normalize_id users : Forall user_ok users -> UserStore.normalize users = users.
Proof.
  induction 1 as [|u users (Hid & Href & Htrim & Hn & _) _ IH]; [done|].
  destruct (name_ok_str_trim _ Hn) as [Hne Hst]. unfold UserStore.normalize in *. cbn [fmap list_fmap].
  rewrite IH, Htrim, Hst, decide_False by done. by destruct u.
Qed.

Lemma validate_loop_ok users ids refs names :
  Forall user_ok users -> NoDup ((user_id <$> users) ++ ids) ->
  NoDup ((internal_reference <$> users) ++ refs) ->
  NoDup (((fun u => Username.fold (user_name u)) <$> users) ++ names) ->
  UserStore.validate_loop users ids refs names = Ok ().
Proof.
  intros Hall. revert ids refs names.
  induction Hall as [|u users (Hid & Href & _ & (Hv & _) & Hh) _ IH]; intros ids refs names H1 H2 H3; [done|].
  cbn [UserStore.validate_loop]. cbn [fmap list_fmap app] in *.
  inversion_clear H1 as [|? ? N1 H1']. inversion_clear H2 as [|? ? N2 H2']. inversion_clear H3 as [|? ? N3 H3'].
  rewrite decide_False by lia. rewrite decide_False by lia. rewrite decide_False by done. rewrite Hv.
  rewrite decide_False by set_solver. rewrite decide_False by set_solver.
  rewrite (bool_decide_eq_false_2 (_ ∈ names)), andb_false_r by set_solver.
  rewrite (bool_decide_eq_false_2 (parse_secret_hash _ = None)), andb_false_r by done.
  assert (forall A (x : A) l k, x ∉ l ++ k -> NoDup (l ++ k) -> NoDup (l ++ x :: k)) as Hmid.
  { intros A x l k Hx Hlk. rewrite NoDup_app in Hlk |- *. rewrite NoDup_cons. set_solver. }
  apply IH; by apply Hmid.
Qed.

(** Their names by id. *)
Definition explicit_map (users : list UserConfig) : gmap Z (list Z) := list_to_map (explicit_of users).


Lemma explicit_elem users u n : (u, n) ∈ explicit_of users <-> exists x, x ∈ users /\ user_id x = u /\ user_name x = n.
Proof. unfold explicit_of. rewrite list_elem_of_fmap. naive_solver. Qed.

Lemma explicit_ids users : (explicit_of users).*1 = user_id <$> users.
Proof. unfold explicit_of. by rewrite <- list_fmap_compose. Qed.

(** One user replaced by one of the same id and reference. *)
Lemma users_wf_insert users i x y :
  users_wf users -> users !! i = Some x -> user_ok y -> user_id y = user_id x ->
  internal_reference y = internal_reference x -> users_wf (<[i := y]> users).
Proof.
  intros [] Hx Hy Hid Href. constructor.
  - rewrite list_fmap_insert, Hid, list_insert_id; [done|]. by rewrite list_lookup_fmap, Hx.
  - rewrite list_fmap_insert, Href, list_insert_id; [done|]. by rewrite list_lookup_fmap, Hx.
  - by apply Forall_insert.
Qed.

Lemma explicit_insert users i x y :
  users_wf users -> users !! i = Some x -> user_id y = user_id x ->
  explicit_map (<[i := y]> users) = <[user_id x := user_name y]> (explicit_map users).
Proof.
  intros W Hx Hid.
  assert (NoDup (explicit_of users).*1) as Hnd by (rewrite explicit_ids; apply (uw_ids _ W)).
  assert (NoDup (explicit_of (<[i := y]> users)).*1) as Hnd'.
  { rewrite explicit_ids, list_fmap_insert, Hid, list_insert_id; [apply (uw_ids _ W)|].
    by rewrite list_lookup_fmap, Hx. }
  apply map_eq. intros u. apply option_eq. intros n. unfold explicit_map.
  rewrite <- elem_of_list_to_map by done. rewrite lookup_insert_Some, <- elem_of_list_to_map by done.
  rewrite !list_elem_of_lookup. unfold explicit_of. setoid_rewrite list_lookup_fmap.
  assert (forall j z, users !! j = Some z -> user_id z = user_id x -> j = i) as Huniq.
  { intros j z Hz Hzx. apply (NoDup_lookup (user_id <$> users) j i (user_id x)); [apply (uw_ids _ W)|..];
      rewrite list_lookup_fmap, ?Hz, ?Hx; cbn; congruence. }
  split.
  - intros (j & Hj). destruct (decide (i = j)) as [<-|Hne].
    + rewrite list_lookup_insert_eq in Hj by (by eapply lookup_lt_Some). cbn in Hj. left. naive_solver.
    + rewrite list_lookup_insert_ne in Hj by done. destruct (users !! j) as [z|] eqn:Hz; [|done]. cbn in Hj.
      right. injection Hj as <- <-. split; [intros Heq; apply Hne; symmetry; by eapply Huniq|].
      exists j. by rewrite Hz.
  - intros [[<- <-]|[Hne (j & Hj)]].
    + exists i. rewrite list_lookup_insert_eq by (by eapply lookup_lt_Some). cbn. by rewrite Hid.
    + exists j. rewrite list_lookup_insert_ne; [done|]. intros <-. rewrite Hx in Hj. cbn in Hj. naive_solver.
Qed.

End user_lemmas.
#[global] Arguments explicit_map : simpl never.

(** ** The invariant *)

Section identity_invariant.
Context `{Unicode}.

(** Storage and memory agree: the file holds the users in memory, the registry
    holds their names and the names of the dynamic users, and the log replays to
    exactly the latter. *)
Record identity_wf (i : Identity) : Prop := {
  iw_users : users_wf (id_users i);
  iw_file : id_file i = id_users i;
  iw_names : registry_wf (id_names i);
  iw_explicit : forall u, u < FIRST_DYNAMIC_USER_ID ->
    by_user (id_names i) !! u = explicit_map (id_users i) !! u;
  iw_log : exists rs d, reg_log (id_names i) = Some (log_bytes rs) /\ replays rs d /\
    forall u, by_user d !! u = if decide (FIRST_DYNAMIC_USER_ID <= u) then by_user (id_names i) !! u else None;
}.

(** What the callers guarantee: names are strings, ids are 64 bits, an invite's
    reference is trimmed and not empty, a token hash is one; and a failed append
    is rolled back. *)
Definition event_ok (e : IdentityEvent) : Prop :=
  match e with
  | ClaimDynamic io id name =>
      Forall Utf8.scalar name /\ id < 2 ^ 64 /\ match io with AppendFailed _ false => False | _ => True end
  | PairInvite _ reference name hash =>
      Forall Utf8.scalar name /\ reference <> [] /\ str_trim reference = reference /\ parse_secret_hash hash <> None
  | RenameExplicit _ _ name => Forall Utf8.scalar name
  end.

Lemma fresh_identity_wf : identity_wf fresh_identity.
Proof.
  constructor; cbn.
  - constructor; constructor.
  - done.
  - constructor; cbn; intros; rewrite ?lookup_empty in *; naive_solver.
  - done.
  - exists [], UsernameRegistry.empty. split; [done|]. split; [constructor|]. intros u. cbn. by case_decide.
Qed.

(** An explicit user installed under a name that is free for it. *)
Lemma install_wf i users u :
  identity_wf i -> users_wf users -> name_ok (user_name u) -> user_id u < FIRST_DYNAMIC_USER_ID ->
  UsernameRegistry.is_available (id_names i) (user_name u) (Some (user_id u)) = true ->
  explicit_map users = <[user_id u := user_name u]> (explicit_map (id_users i)) ->
  identity_wf (install_explicit_username users u (set_file users i)).
Proof.
  intros [Wu Wf Wn We (rs & d & Hl & Hr & Hd)] W Hn Hid Hav Hmap. constructor; cbn; try done.
  - by apply set_in_memory_wf.
  - intros v Hv. rewrite Hmap. destruct (decide (v = user_id u)) as [->|Hne]; [by rewrite !lookup_insert_eq|].
    rewrite !lookup_insert_ne by done. by apply We.
  - exists rs, d. split_and!; [done..|]. intros v. rewrite Hd. case_decide; [|done].
    rewrite lookup_insert_ne by lia. done.
Qed.

Lemma foldr_max l : 0 <= foldr Z.max 0 l /\ forall v, v ∈ l -> v <= foldr Z.max 0 l.
Proof.
  induction l as [|x l [IH0 IH]]; cbn; [split; [lia|by intros v ?%elem_of_nil]|].
  split; [lia|]. intros v [->|Hv%IH]%elem_of_cons; lia.
Qed.

Lemma prepare_paired_ok i reference name hash u users :
  identity_wf i -> Forall Utf8.scalar name -> reference <> [] -> str_trim reference = reference ->
  parse_secret_hash hash <> None ->
  UsernameRegistry.is_available (id_names i) (Username.trim name)
    ((fun x => user_id x.2) <$> list_find (fun u => internal_reference u = reference) (id_users i)) = true ->
  UserStore.prepare_mark_user_paired (id_users i) reference (Username.trim name) hash = Ok (u, users) ->
  users_wf users /\ name_ok (user_name u) /\ user_id u < FIRST_DYNAMIC_USER_ID /\
  UsernameRegistry.is_available (id_names i) (user_name u) (Some (user_id u)) = true /\
  explicit_map users = <[user_id u := user_name u]> (explicit_map (id_users i)).
Proof.
  intros [Wu _ _ _ _] Hs Hr1 Hr2 Hh Hav. unfold UserStore.prepare_mark_user_paired.
  rewrite validate_trim, trim_trim.
  destruct (Username.validate name) as [[]|] eqn:Hv; [|done]. pose proof (name_ok_trim name Hs Hv) as Hok.
  destruct (list_find _ (id_users i)) as [[j x]|] eqn:Hfind; cbn [fmap option_fmap option_map snd] in Hav.
  - intros [= <- <-]. apply list_find_Some in Hfind as (Hx & Href & _). cbn [user_id user_name].
    pose proof (Forall_lookup_1 _ _ _ _ (uw_each _ Wu) Hx) as (Hxid & _).
    split; [|split; [done|split; [lia|split; [done|by apply explicit_insert]]]].
    apply (users_wf_insert _ j x); try done.
    unfold user_ok. cbn. rewrite Href. split_and!; try done; lia.
  - apply list_find_None in Hfind. unfold checked_add. case_decide as Hca; [|done]. run_result.
    case_decide as Hlim; [done|]. set (top := foldr Z.max 0 (user_id <$> id_users i)) in *.
    intros [= <- <-]. cbn [user_id user_name].
    destruct (foldr_max (user_id <$> id_users i)) as [Htop Hmax]. fold top in Htop, Hmax.
    assert (top + 1 ∉ user_id <$> id_users i) as Hfresh by (intros Hin%Hmax; lia).
    split; [|split; [done|split; [lia|split]]].
    + destruct Wu. constructor; rewrite ?fmap_app.
      * apply NoDup_app. cbn. split_and!; [done| |apply NoDup_singleton].
        by intros v Hin ->%list_elem_of_singleton.
      * apply NoDup_app. cbn. split_and!; [done| |apply NoDup_singleton].
        intros r Hr Hr'. apply list_elem_of_singleton in Hr' as ->. rewrite list_elem_of_fmap in Hr.
        destruct Hr as (x & -> & Hx). rewrite Forall_forall in Hfind. by apply (Hfind x).
      * apply Forall_app. split; [done|]. apply Forall_singleton. split_and!; cbn; try done; lia.
    + unfold UsernameRegistry.is_available in *. by destruct (UsernameRegistry.owner_of _ _).
    + unfold explicit_map, explicit_of. rewrite fmap_app. cbn [fmap list_fmap]. rewrite list_to_map_app. cbn.
      rewrite insert_empty, <- insert_union_singleton_r; [done|].
      apply not_elem_of_list_to_map_1. rewrite <- list_fmap_compose. done.
Qed.

Lemma prepare_rename_ok i id name u users :
  identity_wf i -> Forall Utf8.scalar name ->
  UsernameRegistry.is_available (id_names i) (Username.trim name) (Some id) = true ->
  UserStore.prepare_set_user_username (id_users i) id (Username.trim name) = Ok (u, users) ->
  users_wf users /\ name_ok (user_name u) /\ user_id u < FIRST_DYNAMIC_USER_ID /\
  UsernameRegistry.is_available (id_names i) (user_name u) (Some (user_id u)) = true /\
  explicit_map users = <[user_id u := user_name u]> (explicit_map (id_users i)).
Proof.
  intros [Wu _ _ _ _] Hs Hav. unfold UserStore.prepare_set_user_username. rewrite validate_trim, trim_trim.
  destruct (Username.validate name) as [[]|] eqn:Hv; [|done]. pose proof (name_ok_trim name Hs Hv) as Hok.
  destruct (list_find _ (id_users i)) as [[j x]|] eqn:Hfind; [|done]. intros [= <- <-].
  apply list_find_Some in Hfind as (Hx & Hid & _). cbn [user_id user_name set_user_name].
  pose proof (Forall_lookup_1 _ _ _ _ (uw_each _ Wu) Hx) as (Hxid & Hx1 & Hx2 & _ & Hx4).
  split; [|split; [done|split; [lia|split; [by rewrite Hid|by apply explicit_insert]]]].
  by apply (users_wf_insert _ j x).
Qed.

(** A claim of a dynamic user: refused or failed it changes nothing, accepted it
    is in the log and in memory. *)
Lemma claim_dynamic_wf i io id name :
  identity_wf i -> event_ok (ClaimDynamic io id name) ->
  identity_wf (identity_step (ClaimDynamic io id name) i).
Proof.
  intros W (Hs & Hid & Hio). pose proof W as [Wu Wf Wn We (rs & d & Hl & Hr & Hd)].
  cbn [identity_step]. unfold UsernameRegistry.claim_dynamic.
  assert (identity_wf {| id_users := id_users i; id_file := id_file i; id_names := id_names i |}) as Hsame
    by (by destruct i).
  destruct (decide (id < FIRST_DYNAMIC_USER_ID)); [done|].
  destruct (Username.validate name) as [[]|] eqn:Hv; [|done]. pose proof (name_ok_trim name Hs Hv) as Hok.
  destruct (UsernameRegistry.is_available (id_names i) _ _) eqn:Hav; cbn [negb]; [|done].
  destruct (decide (by_user (id_names i) !! id = _)); [done|]. rewrite Hl. unfold write_record.
  pose proof (name_ok_len _ Hok). rewrite decide_False by lia.
  assert (UsernameRegistry.set_log (Some (log_bytes rs)) (id_names i) = id_names i) as Hlog
    by (destruct (id_names i); cbn in *; by subst).
  destruct io as [|w []]; [|by rewrite Hlog|done]. unfold UsernameRegistry.apply_dynamic_claim.
  rewrite decide_False, validate_trim, Hv, trim_trim by done.
  change (UsernameRegistry.is_available (UsernameRegistry.set_log _ ?r)) with (UsernameRegistry.is_available r).
  rewrite Hav. cbn [negb fst]. constructor; cbn [id_users id_file id_names]; try done.
  - by apply set_in_memory_wf; [destruct Wn; constructor|..].
  - intros u Hu. cbn. rewrite lookup_insert_ne by lia. by apply We.
  - exists (rs ++ [(id, Username.trim name)]), (UsernameRegistry.set_in_memory d id (Username.trim name)).
    split; [cbn; by rewrite log_bytes_app, log_bytes_one|]. split.
    + constructor; [done|split; [cbn; lia|done]|]. apply is_available_iff; [by eapply replays_wf|].
      rewrite is_available_iff in Hav by done. intros v m Hm. rewrite Hd in Hm. case_decide; [|done]. by apply Hav.
    + intros u. cbn. destruct (decide (u = id)) as [->|Hne].
      * rewrite !lookup_insert_eq, decide_True by lia. done.
      * rewrite !lookup_insert_ne by done. apply Hd.
Qed.

Lemma identity_step_wf e i : identity_wf i -> event_ok e -> identity_wf (identity_step e i).
Proof.
  intros W He. destruct e as [io id name|written reference name hash|written id name].
  - by apply claim_dynamic_wf.
  - destruct He as (Hs & Hr1 & Hr2 & Hh). cbn [identity_step]. destruct (UsernameRegistry.is_available _ _ _) eqn:Hav; [|done].
    unfold change_explicit. destruct (UserStore.prepare_mark_user_paired _ _ _ _) as [[u users]|] eqn:Hp; [|done].
    destruct written; [|done].
    destruct (prepare_paired_ok i reference name hash u users) as (? & ? & ? & ? & ?); try done.
    by apply install_wf.
  - cbn [identity_step]. destruct (UsernameRegistry.is_available _ _ _) eqn:Hav; [|done].
    unfold change_explicit. destruct (UserStore.prepare_set_user_username _ _ _) as [[u users]|] eqn:Hp; [|done].
    destruct written; [|done].
    destruct (prepare_rename_ok i id name u users) as (? & ? & ? & ? & ?); try done.
    by apply install_wf.
Qed.

Lemma identity_run_wf es i : identity_wf i -> Forall event_ok es -> identity_wf (identity_run es i).
Proof.
  intros W Hes. revert i W. induction Hes as [|e es He _ IH]; intros i W; [done|].
  apply IH. by apply identity_step_wf.
Qed.

(** ** Restart *)

Lemma store_reopens i : identity_wf i -> UserStore.open (Some (id_file i)) = Ok (id_users i).
Proof.
  intros [Wu Wf Wn We _]. unfold UserStore.open. rewrite Wf, normalize_id by apply (uw_each _ Wu).
  unfold UserStore.validate. rewrite validate_loop_ok; rewrite ?app_nil_r; try apply Wu; [done|].
  apply NoDup_fmap_2_strong; [|by eapply NoDup_fmap_1, (uw_ids _ Wu)].
  intros x y Hx Hy Hf.
  assert (forall z, z ∈ id_users i -> by_folded (id_names i) !! Username.fold (user_name z) = Some (user_id z)) as Hlook.
  { intros z Hz. apply (rw_index _ Wn). exists (user_name z). split; [|done].
    rewrite We. 2:{ apply (proj1 (Forall_forall _ _) (uw_each _ Wu) z Hz). }
    apply elem_of_list_to_map_1; [rewrite explicit_ids; apply Wu|]. apply explicit_elem. eauto. }
  assert (user_id x = user_id y) as Hid by (pose proof (Hlook x Hx); pose proof (Hlook y Hy); congruence).
  apply list_elem_of_lookup in Hx as (j & Hj), Hy as (k & Hk).
  assert (j = k) as ->; [|congruence].
  eapply (NoDup_lookup (user_id <$> id_users i)); [apply Wu|by rewrite list_lookup_fmap, Hj|].
  rewrite list_lookup_fmap, Hk. cbn. by rewrite Hid.
Qed.

(** The name of a user of either kind. *)
Lemma known_user i u n : identity_wf i ->
  (u, n) ∈ explicit_of (id_users i) -> by_user (id_names i) !! u = Some n /\ u < FIRST_DYNAMIC_USER_ID.
Proof.
  intros [Wu _ _ We _] Hin.
  assert (u < FIRST_DYNAMIC_USER_ID) as Hu.
  { apply explicit_elem in Hin as (x & Hx & <- & _). apply (proj1 (Forall_forall _ _) (uw_each _ Wu) x Hx). }
  split; [|done]. rewrite We by done. apply elem_of_list_to_map_1; [rewrite explicit_ids; apply Wu|done].
Qed.

Lemma registry_reopens i tail :
  identity_wf i -> read_record tail 0 = None ->
  exists file, reg_log (id_names i) = Some file /\
    UsernameRegistry.open (Some (file ++ tail)) (explicit_of (id_users i)) = Ok (id_names i).
Proof.
  intros W Htail. pose proof W as [Wu Wf Wn We (rs & d & Hl & Hr & Hd)]. exists (log_bytes rs). split; [done|].
  assert (forall u n v m, by_user (id_names i) !! u = Some n -> by_user (id_names i) !! v = Some m ->
    Username.fold n = Username.fold m -> u = v) as Hinj.
  { intros u n v m Hu Hv Hf.
    assert (by_folded (id_names i) !! Username.fold n = Some u) by (apply (rw_index _ Wn); eauto).
    assert (by_folded (id_names i) !! Username.fold n = Some v) by (apply (rw_index _ Wn); eauto). congruence. }
  assert (forall u n, by_user d !! u = Some n -> by_user (id_names i) !! u = Some n /\ FIRST_DYNAMIC_USER_ID <= u) as Hdyn.
  { intros u n. rewrite Hd. by case_decide. }
  unfold UsernameRegistry.open, UsernameRegistry.seed_explicit.
  destruct (claim_all_disjoint (explicit_of (id_users i)) UsernameRegistry.empty) as (e & -> & We' & He & _).
  - apply empty_wf.
  - rewrite explicit_ids. apply Wu.
  - apply Forall_forall. intros [u n] Hin%known_user; [|done]. by apply (rw_names _ Wn u), Hin.
  - intros u n v m Hu%known_user Hv%known_user Hf; try done. by eapply Hinj; [apply Hu|apply Hv|].
  - intros. done.
  - change (by_user UsernameRegistry.empty) with (∅ : gmap Z (list Z)) in He. rewrite (right_id_L ∅ (∪)) in He.
    run_result. unfold UsernameRegistry.replay_log.
    assert (length rs <= S (length (log_bytes rs ++ tail)))%nat as Hfuel.
    { pose proof (log_bytes_length rs). rewrite length_app. lia. }
    rewrite (replay_loop_more _ _ _ _ _ _ (replay_loop_log rs d tail Hr)); [run_result| |done].
    2:{ by rewrite read_record_app, Htail. }
    destruct (claim_all_disjoint (map_to_list (by_user d)) e) as (r & -> & Wr & Hb & _); try done.
    + apply NoDup_fst_map_to_list.
    + apply Forall_forall. intros [u n] Hin%elem_of_map_to_list. by apply (rw_names _ (replays_wf _ _ Hr) u).
    + intros u n v m Hu%elem_of_map_to_list Hv%elem_of_map_to_list Hf.
      eapply Hinj; [apply Hdyn, Hu|apply Hdyn, Hv|done].
    + intros u n v m Hu%elem_of_map_to_list Hv. rewrite He in Hv.
      apply elem_of_list_to_map_2, known_user in Hv as [Hv Hlt]; [|done]. apply Hdyn in Hu as [Hu Hge].
      split; [lia|]. intros Hf. assert (u = v) by eauto. lia.
    + run_result. rewrite take_app_length.
      assert (by_user r = by_user (id_names i)) as Hbu.
      { rewrite Hb, list_to_map_to_list, He. apply map_eq. intros u.
        destruct (decide (FIRST_DYNAMIC_USER_ID <= u)) as [Hge|Hlt].
        - rewrite lookup_union, Hd, decide_True by done.
          assert (list_to_map (explicit_of (id_users i)) !! u = (None : option (list Z))) as ->.
          { apply eq_None_not_Some. intros [n Hn%elem_of_list_to_map_2%known_user]; [lia|done]. }
          by rewrite (right_id_L None (∪)).
        - rewrite lookup_union, Hd, decide_False, (left_id_L None (∪)) by done. symmetry. apply We. lia. }
      f_equal. pose proof (by_folded_determined r (id_names i) Wr Wn Hbu) as Hbf.
      unfold UsernameRegistry.set_log. rewrite Hbu, Hbf, <- Hl. by destruct (id_names i).
Qed.

End identity_invariant.

(** ** Properties *)

(** C38: identities survive a restart: after any run of claims, pairings and
    renames on a server started on empty storage, with file writes that succeed
    or fail (a failed append to the log being rolled back; the user
    file is the table it describes, its TOML text is not modelled), opening the user file gives back exactly the users in memory, and
    opening the registry on them and the log gives back exactly the registry in
    memory, index and log included; also when the process died in the middle of
    an append, whose torn record is then cut off the log. *)
Theorem identity_survives_restart `{Unicode} (es : list IdentityEvent) (torn_id : Z) (torn_name : list Z) (k : nat) :
  Forall event_ok es -> name_ok torn_name -> (k < length (record_bytes torn_id torn_name))%nat ->
  let i := identity_run es fresh_identity in
  UserStore.open (Some (id_file i)) = Ok (id_users i) /\
  exists log, reg_log (id_names i) = Some log /\
    UsernameRegistry.open (Some (log ++ take k (record_bytes torn_id torn_name))) (explicit_of (id_users i)) =
      Ok (id_names i).
Proof.
  intros Hes Hn Hk i. pose proof (identity_run_wf es _ fresh_identity_wf Hes) as W.
  split; [by apply store_reopens|]. apply registry_reopens; [done|]. by apply read_record_torn.
Qed.

(** C39: in every identity that can be reached a name has one owner: two users
    whose names fold alike are the same user, [owner_of] answers exactly that
    user, explicit users have the ids below [FIRST_DYNAMIC_USER_ID] that the
    store gives them; and no claim or rename of another user changes a name. *)
Theorem usernames_unique `{Unicode} (es : list IdentityEvent) (u v : Z) (n m : list Z) :
  Forall event_ok es ->
  let i := identity_run es fresh_identity in
  by_user (id_names i) !! u = Some n ->
  (by_user (id_names i) !! v = Some m -> Username.fold n = Username.fold m -> u = v) /\
  UsernameRegistry.owner_of (id_names i) n = Some u /\
  (u < FIRST_DYNAMIC_USER_ID <-> exists x, x ∈ id_users i /\ user_id x = u /\ user_name x = n) /\
  (forall io id name, id <> u -> by_user (id_names (identity_step (ClaimDynamic io id name) i)) !! u = Some n) /\
  (forall w id name, id <> u -> by_user (id_names (identity_step (RenameExplicit w id name) i)) !! u = Some n).
Proof.
  intros Hes i Hu. pose proof (identity_run_wf es _ fresh_identity_wf Hes) as W. fold i in W.
  pose proof W as [Wu _ Wn We _].
  assert (by_folded (id_names i) !! Username.fold n = Some u) as Hown by (apply (rw_index _ Wn); eauto).
  split; [|split; [done|split; [|split]]].
  - intros Hv Hf. assert (by_folded (id_names i) !! Username.fold n = Some v) by (apply (rw_index _ Wn); eauto).
    congruence.
  - rewrite <- explicit_elem. split; [|by intros [_ ?]%known_user].
    intros Hlt. rewrite We in Hu by done. by apply elem_of_list_to_map_2.
  - intros io id name Hne. cbn [identity_step id_names]. unfold UsernameRegistry.claim_dynamic, UsernameRegistry.apply_dynamic_claim.
    repeat case_match; cbn; rewrite ?lookup_insert_ne by done; done.
  - intros w id name Hne. cbn [identity_step]. unfold change_explicit, UserStore.prepare_set_user_username.
    repeat case_match; simplify_eq; cbn; try done.
    match goal with Hf : list_find _ _ = Some _ |- _ => apply list_find_Some in Hf as (_ & Hid & _) end.
    rewrite lookup_insert_ne by (cbn in *; congruence). done.
Qed.

(** ** Witnesses: ASCII names *)

Module Ascii.

#[export] Instance unicode : Unicode := {
  char_width c := if decide (32 <= c < 127) then Some 1 else None;
  char_to_lowercase c := if decide (65 <= c <= 90) then [c + 32] else [c];
}.

End Ascii.

#[local] Existing Instance Ascii.unicode.

Definition text (s : string) : list Z := u8 <$> ascii_bytes s.

Definition toy_hash : bytes := SECRET_HASH_PREFIX ++ encode_hex (replicate 32 Byte.x07).

Definition toy_events : list IdentityEvent :=
  [ClaimDynamic AppendOk (2 ^ 32) (text " Ada "); PairInvite true (text "bob") (text "Bob") toy_hash;
   ClaimDynamic AppendOk (2 ^ 32) (text "Grace"); RenameExplicit true 1 (text "ADA");
   ClaimDynamic (AppendFailed 4 true) (2 ^ 32 + 1) (text "Eve")].

#[local] Instance scalar_dec c : Decision (Utf8.scalar c).
Proof. unfold Utf8.scalar. apply _. Defined.

Lemma toy_events_ok : Forall event_ok toy_events.
Proof.
  repeat apply Forall_cons_2; [..|apply Forall_nil_2]; cbn [event_ok]; repeat split;
    first [decide_closed | vm_compute; discriminate | done].
Qed.

Lemma toy_name_ok : name_ok (text "Eve").
Proof. split; [reflexivity|]. split; [reflexivity|decide_closed]. Qed.

Lemma identity_survives_restart_witness :
  let i := identity_run toy_events fresh_identity in
  user_name <$> id_users i = [text "ADA"] /\
  UserStore.open (Some (id_file i)) = Ok (id_users i) /\
  exists log, reg_log (id_names i) = Some log /\
    UsernameRegistry.open (Some (log ++ take 5 (record_bytes 9 (text "Eve")))) (explicit_of (id_users i)) =
      Ok (id_names i).
Proof.
  split; [vm_compute; reflexivity|].
  apply (identity_survives_restart toy_events 9 (text "Eve") 5 toy_events_ok toy_name_ok).
  apply Nat.ltb_lt. vm_compute. reflexivity.
Defined.

Lemma usernames_unique_witness :
  let i := identity_run toy_events fresh_identity in
  by_user (id_names i) !! (2 ^ 32) = Some (text "Grace") /\
  UsernameRegistry.owner_of (id_names i) (text "Grace") = Some (2 ^ 32).
Proof.
  assert (by_user (id_names (identity_run toy_events fresh_identity)) !! (2 ^ 32) = Some (text "Grace")) as Hg
    by (vm_compute; reflexivity).
  split; [exact Hg|].
  exact (proj1 (proj2 (usernames_unique toy_events (2 ^ 32) 0 (text "Grace") [] toy_events_ok Hg))).
Defined.

(** An append that fails and cannot be rolled back leaves part of a record in
    the log; the next claim is appended behind it, and the log no longer opens. *)
Lemma failed_rollback_blocks_restart :
  let i := identity_run [ClaimDynamic (AppendFailed 5 false) (2 ^ 32) (text "ada");
                         ClaimDynamic AppendOk (2 ^ 32 + 1) (text "bob")] fresh_identity in
  UsernameRegistry.owner_of (id_names i) (text "bob") = Some (2 ^ 32 + 1) /\
  UsernameRegistry.open (reg_log (id_names i)) [] = Err RegistryInvalidName.
Proof. split; vm_compute; reflexivity. Qed.
