(* ===== verification/History.v ===== *)
(** * History records and chunks

    Models src/crates/rpc/src/history.rs and the message types of
    src/crates/rpc/src/control.rs it serialises: the record of one chat message,
    written to the durable log and sent to clients, and the chunk of records that
    answers a history request.  Strings are their UTF-8 bytes.  The reader's
    offset stays within a buffer in memory, so the overflow of its addition is
    not modelled. *)

From S2P Require Import Prelude Text Frame.

(** ** Messages *)

Module MessageFlags.
Definition EDITED : Z := 1.
Definition DELETED : Z := 2.
Definition edited (f : Z) : bool := bool_decide (Z.land f EDITED <> 0).
Definition deleted (f : Z) : bool := bool_decide (Z.land f DELETED <> 0).
Definition set_edited (f : Z) : Z := Z.lor f EDITED.
Definition set_deleted (f : Z) : Z := Z.lor f DELETED.
Definition is_valid (f : Z) : bool :=
  bool_decide (Z.land f (Z.lnot (Z.lor EDITED DELETED)) = 0) && bool_decide (f <> Z.lor EDITED DELETED).
End MessageFlags.

Record ChatMessage := mkMessage {
  message_id : Z;
  room_id : Z;
  sender : Z;
  sender_name : bytes;
  timestamp_ms : Z;
  body : bytes;
  file_transfer_id : option Z;
  flags : Z;
  target : option Z;
}.

(** [HistoryMessageRef]: the fields, and the bytes they were read from. *)
Record HistoryMessageRef := mkRef { ref_message : ChatMessage; raw : bytes }.

Definition to_chat_message (r : HistoryMessageRef) : ChatMessage := ref_message r.

(** [HistoryChunk] and [HistoryChunkRef] differ in what they hold of a message. *)
Record Chunk (M : Type) := mkChunk {
  chunk_room_id : Z;
  chunk_before : option Z;
  chunk_messages : list M;
  chunk_at_start : bool;
  chunk_complete : bool;
}.
Arguments mkChunk {M}.
Arguments chunk_room_id {M}.
Arguments chunk_before {M}.
Arguments chunk_messages {M}.
Arguments chunk_at_start {M}.
Arguments chunk_complete {M}.
Definition HistoryChunkRef := Chunk HistoryMessageRef.
Definition HistoryChunk := Chunk ChatMessage.

Inductive HistoryError :=
| EndedEarly
| TrailingBytes
| UnsupportedVersion
| InvalidFlags
| InvalidTransferTag
| MutationCarriesTransfer
| NotUtf8
| InvalidChunkFlags
| RoomMismatch
| TooManyMessages.

#[export] Instance ChatMessage_eq_dec : EqDecision ChatMessage.
Proof. solve_decision. Defined.
#[export] Instance HistoryError_eq_dec : EqDecision HistoryError.
Proof. solve_decision. Defined.

(** ** Writing *)

Definition RECORD_VERSION : Z := 4.
Definition RECORD_BASE_BYTES : nat := 1 + 8 + 4 + 8 + 8 + 1 + 1 + 8 + 4 + 4.
Definition MAX_LOG_RECORD_BYTES : Z := 128 * 1024.
Definition MAX_CHUNK_MESSAGES : nat := Z.to_nat (umax 16).
Definition CHUNK_HEADER_BYTES : nat := 4 + 4 + 1 + 2 + 8.
Definition CHUNK_MAGIC : bytes := ascii_bytes "CHH1".
Definition CHUNK_FLAG_AT_START : Z := 1.
Definition CHUNK_FLAG_COMPLETE : Z := 2.
Definition CHUNK_FLAG_HAS_BEFORE : Z := 4.

Lemma max_chunk_messages : Z.of_nat MAX_CHUNK_MESSAGES = 65535.
Proof. reflexivity. Qed.
#[global] Opaque MAX_CHUNK_MESSAGES.

Definition encoded_message_len (m : ChatMessage) : nat :=
  let target := match target m with Some _ => 8%nat | None => 0%nat end in
  (RECORD_BASE_BYTES + target + length (sender_name m) + length (body m))%nat.

(** [None] is the panic on a string longer than a [u32] can tell. *)
Definition write_str (value out : bytes) : option bytes :=
  if decide (len value < 2 ^ 32) then Some (out ++ le_bytes 4 (len value) ++ value) else None.

Definition write_message (m : ChatMessage) (out : bytes) : option bytes :=
  let out := out ++ [of_u8 RECORD_VERSION] in
  let out := out ++ le_bytes 8 (message_id m) in
  let out := out ++ le_bytes 4 (room_id m) in
  let out := out ++ le_bytes 8 (sender m) in
  let out := out ++ le_bytes 8 (timestamp_ms m) in
  let out := out ++ [of_u8 (flags m)] in
  let out := match target m with Some t => out ++ le_bytes 8 t | None => out end in
  let out :=
    match file_transfer_id m with
    | Some id => (out ++ [of_u8 1]) ++ le_bytes 8 id
    | None => (out ++ [of_u8 0]) ++ le_bytes 8 0
    end in
  out ← write_str (sender_name m) out;
  write_str (body m) out.

Definition encode_message (m : ChatMessage) : option bytes := write_message m [].

Definition write_chunk_header (room : Z) (before : option Z) (at_start complete : bool)
    (message_count : nat) (out : bytes) : result HistoryError bytes :=
  if decide (2 ^ 16 <= Z.of_nat message_count) then Err TooManyMessages
  else
    let fl := 0 in
    let fl := if at_start then Z.lor fl CHUNK_FLAG_AT_START else fl in
    let fl := if complete then Z.lor fl CHUNK_FLAG_COMPLETE else fl in
    let fl := if before is Some _ then Z.lor fl CHUNK_FLAG_HAS_BEFORE else fl in
    Ok (out ++ CHUNK_MAGIC ++ le_bytes 4 room ++ [of_u8 fl] ++ le_bytes 2 (Z.of_nat message_count) ++
        le_bytes 8 (default 0 before)).

(** ** Reading *)

Record HistoryCursor := mkCursor { cur_bytes : bytes; cur_offset : nat }.

Module Cursor.

Definition new (bs : bytes) : HistoryCursor := {| cur_bytes := bs; cur_offset := 0 |}.

Definition finish (c : HistoryCursor) : result HistoryError () :=
  if decide (cur_offset c = length (cur_bytes c)) then Ok () else Err TrailingBytes.

Definition take (c : HistoryCursor) (n : nat) : result HistoryError (bytes * HistoryCursor) :=
  let fin := (cur_offset c + n)%nat in
  match get_range (cur_bytes c) (Z.of_nat (cur_offset c)) (Z.of_nat fin) with
  | None => Err EndedEarly
  | Some s => Ok (s, {| cur_bytes := cur_bytes c; cur_offset := fin |})
  end.

(** [read_u8], [read_u16], [read_u32] and [read_u64], by their width in bytes. *)
Definition read_uint (n : nat) (c : HistoryCursor) : result HistoryError (Z * HistoryCursor) :=
  '(s, c) ← take c n; Ok (of_le s, c).
Definition read_u8 := read_uint 1.
Definition read_u16 := read_uint 2.
Definition read_u32 := read_uint 4.
Definition read_u64 := read_uint 8.

Definition read_str (c : HistoryCursor) : result HistoryError (bytes * HistoryCursor) :=
  '(n, c) ← read_u32 c;
  '(s, c) ← take c (Z.to_nat n);
  if utf8_valid s then Ok (s, c) else Err NotUtf8.

End Cursor.

Definition read_transfer (tag : Z) (c : HistoryCursor) : result HistoryError (option Z * HistoryCursor) :=
  if decide (tag = 0) then '(_, c) ← Cursor.read_u64 c; Ok (None, c)
  else if decide (tag = 1) then '(id, c) ← Cursor.read_u64 c; Ok (Some id, c)
  else Err InvalidTransferTag.

Definition read_target (fl : Z) (c : HistoryCursor) : result HistoryError (option Z * HistoryCursor) :=
  if decide (fl <> 0) then '(t, c) ← Cursor.read_u64 c; Ok (Some t, c) else Ok (None, c).

Definition read_message (c : HistoryCursor) : result HistoryError (HistoryMessageRef * HistoryCursor) :=
  let start := cur_offset c in
  '(version, c) ← Cursor.read_u8 c;
  if decide (version <> RECORD_VERSION) then Err UnsupportedVersion
  else
    '(id, c) ← Cursor.read_u64 c;
    '(room, c) ← Cursor.read_u32 c;
    '(from, c) ← Cursor.read_u64 c;
    '(ms, c) ← Cursor.read_u64 c;
    '(fl, c) ← Cursor.read_u8 c;
    if negb (MessageFlags.is_valid fl) then Err InvalidFlags
    else
      '(tgt, c) ← read_target fl c;
      '(tag, c) ← Cursor.read_u8 c;
      '(transfer, c) ← read_transfer tag c;
      if decide (is_Some tgt /\ is_Some transfer) then Err MutationCarriesTransfer
      else
        '(name, c) ← Cursor.read_str c;
        '(text, c) ← Cursor.read_str c;
        Ok ({| ref_message :=
                 {| message_id := id; room_id := room; sender := from; sender_name := name;
                    timestamp_ms := ms; body := text; file_transfer_id := transfer;
                    flags := fl; target := tgt |};
               raw := slice (cur_bytes c) start (cur_offset c) |}, c).

Definition parse_message (bs : bytes) : result HistoryError HistoryMessageRef :=
  '(m, c) ← read_message (Cursor.new bs);
  _ ← Cursor.finish c;
  Ok m.

Definition decode_message (bs : bytes) : result HistoryError ChatMessage :=
  to_chat_message <$> parse_message bs.

(** [history::message_id]. *)
Definition record_message_id (bs : bytes) : result HistoryError Z :=
  (fun m => message_id (ref_message m)) <$> parse_message bs.

(** The loop of [decode_chunk_ref] over the announced count. *)
Fixpoint read_messages (count : nat) (room : Z) (c : HistoryCursor)
    : result HistoryError (list HistoryMessageRef * HistoryCursor) :=
  match count with
  | O => Ok ([], c)
  | S count =>
      '(m, c) ← read_message c;
      if decide (room_id (ref_message m) <> room) then Err RoomMismatch
      else
        '(ms, c) ← read_messages count room c;
        Ok (m :: ms, c)
  end.

Definition decode_chunk_ref (bs : bytes) : result HistoryError (option HistoryChunkRef) :=
  match Cursor.take (Cursor.new bs) (length CHUNK_MAGIC) with
  | Err _ => Ok None
  | Ok (magic, c) =>
      if decide (magic <> CHUNK_MAGIC) then Ok None
      else
        '(room, c) ← Cursor.read_u32 c;
        '(fl, c) ← Cursor.read_u8 c;
        if decide (Z.land fl (Z.lnot (Z.lor (Z.lor CHUNK_FLAG_AT_START CHUNK_FLAG_COMPLETE) CHUNK_FLAG_HAS_BEFORE)) <> 0)
        then Err InvalidChunkFlags
        else
          '(count, c) ← Cursor.read_u16 c;
          '(before, c) ← Cursor.read_u64 c;
          let before := if decide (Z.land fl CHUNK_FLAG_HAS_BEFORE <> 0) then Some before else None in
          '(ms, c) ← read_messages (Z.to_nat count) room c;
          _ ← Cursor.finish c;
          Ok (Some {| chunk_room_id := room; chunk_before := before; chunk_messages := ms;
                      chunk_at_start := bool_decide (Z.land fl CHUNK_FLAG_AT_START <> 0);
                      chunk_complete := bool_decide (Z.land fl CHUNK_FLAG_COMPLETE <> 0) |})
  end.

Definition decode_chunk (bs : bytes) : result HistoryError (option HistoryChunk) :=
  match decode_chunk_ref bs with
  | Err e => Err e
  | Ok None => Ok None
  | Ok (Some c) =>
      Ok (Some {| chunk_room_id := chunk_room_id c; chunk_before := chunk_before c;
                  chunk_messages := to_chat_message <$> chunk_messages c;
                  chunk_at_start := chunk_at_start c; chunk_complete := chunk_complete c |})
  end.

(** ** Well-formed messages

    What the callers of [write_message] guarantee: values of their widths, UTF-8
    strings, and the contract of [ChatMessage] on mutation records. *)

Record message_wf (m : ChatMessage) : Prop := {
  wf_id : is_u64 (message_id m);
  wf_room : is_u32 (room_id m);
  wf_sender : is_u64 (sender m);
  wf_time : is_u64 (timestamp_ms m);
  wf_flags : MessageFlags.is_valid (flags m) = true;
  wf_flags_u8 : is_u8 (flags m);
  wf_target : flags m <> 0 <-> is_Some (target m);
  wf_target_id : match target m with Some t => is_u64 t | None => True end;
  wf_transfer : match file_transfer_id m with Some t => is_u64 t /\ target m = None | None => True end;
  wf_name : utf8_valid (sender_name m) = true /\ len (sender_name m) < 2 ^ 32;
  wf_body : utf8_valid (body m) = true /\ len (body m) < 2 ^ 32;
}.

(** The bytes of a record. *)
Definition target_bytes (t : option Z) : bytes := match t with Some t => le_bytes 8 t | None => [] end.
Definition transfer_tag (t : option Z) : Z := if t is Some _ then 1 else 0.
Definition transfer_bytes (t : option Z) : bytes := [of_u8 (transfer_tag t)] ++ le_bytes 8 (default 0 t).
Definition str_bytes (s : bytes) : bytes := le_bytes 4 (len s) ++ s.
Definition message_bytes (m : ChatMessage) : bytes :=
  [of_u8 RECORD_VERSION] ++ le_bytes 8 (message_id m) ++ le_bytes 4 (room_id m) ++ le_bytes 8 (sender m) ++
  le_bytes 8 (timestamp_ms m) ++ [of_u8 (flags m)] ++ target_bytes (target m) ++
  transfer_bytes (file_transfer_id m) ++ str_bytes (sender_name m) ++ str_bytes (body m).

Lemma write_message_bytes m out : message_wf m -> write_message m out = Some (out ++ message_bytes m).
Proof.
  intros W. destruct (wf_name m W) as [_ Hn], (wf_body m W) as [_ Hb].
  unfold write_message, write_str. rewrite decide_True by done. cbn [mbind option_bind].
  rewrite decide_True by done. f_equal. unfold message_bytes, str_bytes, target_bytes, transfer_bytes, transfer_tag.
  destruct (target m), (file_transfer_id m); cbn [default id]; by rewrite <- !(assoc_L (++)).
Qed.

Lemma length_message_bytes m : length (message_bytes m) = encoded_message_len m.
Proof.
  unfold message_bytes, str_bytes, target_bytes, transfer_bytes, encoded_message_len, RECORD_BASE_BYTES.
  destruct (target m), (file_transfer_id m); rewrite !length_app; cbn [length];
    rewrite ?length_le_bytes; lia.
Qed.

(** ** Reading back

    A cursor inside a buffer, and one step of it over a piece that is there. *)

Definition cursor_at (pre rest : bytes) : HistoryCursor :=
  {| cur_bytes := pre ++ rest; cur_offset := length pre |}.

Lemma take_at pre s rest n :
  n = length s -> Cursor.take (cursor_at pre (s ++ rest)) n = Ok (s, cursor_at (pre ++ s) rest).
Proof.
  intros ->. unfold Cursor.take, cursor_at. cbn [cur_bytes cur_offset].
  rewrite (get_range_mid pre s rest) by (unfold len; lia).
  by rewrite <- (assoc_L (++)), length_app.
Qed.

Lemma read_uint_at pre n z rest :
  is_u (8 * Z.of_nat n) z ->
  Cursor.read_uint n (cursor_at pre (le_bytes n z ++ rest)) = Ok (z, cursor_at (pre ++ le_bytes n z) rest).
Proof.
  intros Hz. unfold Cursor.read_uint. rewrite take_at by (by rewrite length_le_bytes).
  run_result. by rewrite of_le_le_bytes.
Qed.

Lemma le_bytes_1 z : le_bytes 1 z = [of_u8 z].
Proof. reflexivity. Qed.

Lemma read_byte_at pre z rest :
  is_u8 z -> Cursor.read_u8 (cursor_at pre (of_u8 z :: rest)) = Ok (z, cursor_at (pre ++ [of_u8 z]) rest).
Proof. intros Hz. exact (read_uint_at pre 1 z rest Hz). Qed.

Lemma read_str_at pre s rest :
  utf8_valid s = true -> len s < 2 ^ 32 ->
  Cursor.read_str (cursor_at pre (str_bytes s ++ rest)) = Ok (s, cursor_at (pre ++ str_bytes s) rest).
Proof.
  intros Hv Hl. unfold Cursor.read_str, str_bytes. rewrite <- (assoc_L (++)).
  rewrite (read_uint_at pre 4) by (pose proof (len_nonneg s); done). run_result.
  rewrite take_at by (unfold len; lia). run_result. rewrite Hv. by rewrite <- (assoc_L (++)).
Qed.

Lemma read_target_at pre fl t rest :
  (fl <> 0 <-> is_Some t) -> match t with Some t => is_u64 t | None => True end ->
  read_target fl (cursor_at pre (target_bytes t ++ rest)) = Ok (t, cursor_at (pre ++ target_bytes t) rest).
Proof.
  intros Hiff Ht. unfold read_target. destruct t as [t|]; cbn [target_bytes].
  - rewrite decide_True by (apply Hiff; eauto). rewrite (read_uint_at pre 8) by done. reflexivity.
  - rewrite decide_False by (rewrite Hiff; apply is_Some_None). by rewrite app_nil_r.
Qed.

Lemma read_transfer_at pre t rest :
  match t with Some t => is_u64 t | None => True end ->
  read_transfer (transfer_tag t) (cursor_at pre (le_bytes 8 (default 0 t) ++ rest)) =
  Ok (t, cursor_at (pre ++ le_bytes 8 (default 0 t)) rest).
Proof.
  intros Ht. unfold read_transfer, Cursor.read_u64.
  destruct t as [t|]; cbn [transfer_tag default id]; settle_constants; by rewrite (read_uint_at _ 8).
Qed.

Lemma finish_at pre : Cursor.finish (cursor_at pre []) = Ok ().
Proof. unfold Cursor.finish, cursor_at. cbn [cur_bytes cur_offset]. by rewrite app_nil_r, decide_True. Qed.

Lemma slice_cursor (pre s rest : bytes) : slice (pre ++ s ++ rest) (length pre) (length (pre ++ s)) = s.
Proof. by rewrite slice_mid by (rewrite ?length_app; lia). Qed.

Lemma read_message_at pre m rest :
  message_wf m ->
  read_message (cursor_at pre (message_bytes m ++ rest)) =
  Ok ({| ref_message := m; raw := message_bytes m |}, cursor_at (pre ++ message_bytes m) rest).
Proof.
  intros W. pose proof (slice_cursor pre (message_bytes m) rest) as Hraw.
  destruct W as [Wi Wr Ws Wt Wf Wf8 Wtg Wtu Wft [Wn1 Wn2] [Wb1 Wb2]].
  unfold read_message. change (cur_offset (cursor_at pre _)) with (length pre).
  unfold message_bytes at 1. rewrite <- !(assoc_L (++)). cbn [app].
  rewrite read_byte_at by done. run_result. rewrite decide_False by (intros Hne; by apply Hne).
  unfold Cursor.read_u64, Cursor.read_u32. rewrite !(read_uint_at _ 8 (message_id m)) by done. run_result.
  rewrite (read_uint_at _ 4) by done. run_result.
  rewrite (read_uint_at _ 8) by done. run_result.
  rewrite (read_uint_at _ 8) by done. run_result.
  rewrite read_byte_at by done. run_result. rewrite Wf. cbn [negb].
  rewrite read_target_at by done. run_result.
  unfold transfer_bytes at 1. rewrite <- (assoc_L (++)). cbn [app].
  rewrite read_byte_at by (by destruct (file_transfer_id m)). run_result.
  rewrite read_transfer_at by (destruct (file_transfer_id m); naive_solver).
  run_result. rewrite decide_False.
  2: { destruct (file_transfer_id m); [|by intros [_ []%is_Some_None]].
       destruct Wft as [_ ->]. by intros [[]%is_Some_None _]. }
  rewrite read_str_at by done. run_result. rewrite read_str_at by done. run_result.
  assert (forall c, c = cursor_at (pre ++ message_bytes m) rest ->
    Ok ({| ref_message := m; raw := slice (cur_bytes c) (length pre) (cur_offset c) |}, c) =
    Ok (E := HistoryError) ({| ref_message := m; raw := message_bytes m |}, cursor_at (pre ++ message_bytes m) rest)) as K.
  { intros ? ->. do 3 f_equal. unfold cursor_at. cbn [cur_bytes cur_offset]. by rewrite <- (assoc_L (++)). }
  match goal with |- Ok (_, ?c) = _ => rewrite <- (K c) end; [by destruct m|].
  unfold message_bytes, transfer_bytes. rewrite <- !(assoc_L (++)). reflexivity.
Qed.

Lemma parse_message_bytes m :
  message_wf m -> parse_message (message_bytes m) = Ok {| ref_message := m; raw := message_bytes m |}.
Proof.
  intros W. unfold parse_message. pose proof (read_message_at [] m [] W) as H.
  unfold cursor_at at 1 in H. cbn [app length] in H. rewrite app_nil_r in H.
  unfold Cursor.new. rewrite H. run_result. by rewrite finish_at.
Qed.

Lemma read_messages_at pre ms room rest :
  Forall (fun m => message_wf m /\ room_id m = room) ms ->
  read_messages (length ms) room (cursor_at pre (mjoin (message_bytes <$> ms) ++ rest)) =
  Ok ((fun m => {| ref_message := m; raw := message_bytes m |}) <$> ms,
      cursor_at (pre ++ mjoin (message_bytes <$> ms)) rest).
Proof.
  intros Hms. revert pre. induction Hms as [|m ms [W Hr] Hms IH]; intros pre; cbn [length read_messages fmap list_fmap mjoin list_join].
  - by rewrite app_nil_r.
  - rewrite <- (assoc_L (++)), read_message_at by done. run_result.
    rewrite decide_False by naive_solver. rewrite IH. run_result. by rewrite <- (assoc_L (++)).
Qed.

(** ** Chunks *)

Definition chunk_flags (before : option Z) (at_start complete : bool) : Z :=
  (if at_start then 1 else 0) + (if complete then 2 else 0) + (if before is Some _ then 4 else 0).

Lemma write_chunk_header_ok room before at_start complete n out :
  Z.of_nat n < 2 ^ 16 ->
  write_chunk_header room before at_start complete n out =
  Ok (out ++ CHUNK_MAGIC ++ le_bytes 4 room ++ [of_u8 (chunk_flags before at_start complete)] ++
      le_bytes 2 (Z.of_nat n) ++ le_bytes 8 (default 0 before)).
Proof.
  intros Hn. unfold write_chunk_header. rewrite decide_False by lia.
  by destruct before, at_start, complete.
Qed.

Lemma length_chunk_header room before at_start complete n out payload :
  write_chunk_header room before at_start complete n out = Ok payload ->
  length payload = (length out + CHUNK_HEADER_BYTES)%nat.
Proof.
  intros Hw. assert (Z.of_nat n < 2 ^ 16) by (unfold write_chunk_header in Hw; case_decide; [done|lia]).
  rewrite write_chunk_header_ok in Hw by done. apply (inj Ok) in Hw as <-.
  rewrite !length_app, !length_le_bytes. cbn. lia.
Qed.

(** A chunk reads back as the messages it was written from. *)
Lemma decode_chunk_written room before at_start complete ms payload :
  is_u32 room -> match before with Some b => is_u64 b | None => True end ->
  Forall (fun m => message_wf m /\ room_id m = room) ms ->
  write_chunk_header room before at_start complete (length ms) [] = Ok payload ->
  decode_chunk (payload ++ mjoin (message_bytes <$> ms)) =
  Ok (Some {| chunk_room_id := room; chunk_before := before; chunk_messages := ms;
              chunk_at_start := at_start; chunk_complete := complete |}).
Proof.
  intros Hr Hb Hms Hw.
  assert (Z.of_nat (length ms) < 2 ^ 16) as Hn.
  { unfold write_chunk_header in Hw. case_decide; [done|lia]. }
  rewrite write_chunk_header_ok in Hw by done. apply (inj Ok) in Hw as <-.
  unfold decode_chunk, decode_chunk_ref. rewrite <- !(assoc_L (++)).
  change (Cursor.new ?b) with (cursor_at [] b).
  cbn [app]. rewrite take_at by done. rewrite decide_False by (intros Hne; by apply Hne).
  unfold Cursor.read_u32, Cursor.read_u16, Cursor.read_u64. rewrite (read_uint_at _ 4) by done. run_result.
  rewrite read_byte_at by (by destruct before, at_start, complete). run_result.
  rewrite decide_False by (destruct before, at_start, complete; vm_compute; naive_solver).
  rewrite (read_uint_at _ 2) by (unfold is_u; lia). run_result.
  rewrite (read_uint_at _ 8) by (by destruct before). run_result. rewrite Nat2Z.id.
  rewrite <- (app_nil_r (mjoin (message_bytes <$> ms))), (read_messages_at _ ms room []) by done. run_result.
  rewrite finish_at. run_result. do 3 f_equal.
  - by destruct before, at_start, complete.
  - cbn [fmap option_fmap option_map chunk_messages]. rewrite <- list_fmap_compose.
    apply list_fmap_id.
  - by destruct before, at_start, complete.
  - by destruct before, at_start, complete.
Qed.

#[global] Opaque message_bytes.
