(* ===== verification/Resident.v ===== *)
(** * Resident history and its pages

    Models [ResidentHistory], [HistoryChunkSpec] and [HistoryFetchPlan] of
    src/crates/server/src/room_store.rs: the records a room keeps in memory, in
    one buffer whose front may be dead and is compacted now and then, and how a
    page of it is planned and encoded as wire chunks.  The buffer refines a list
    of records ([resident]).  Sizes of data in memory are [nat]; the saturation of
    their sums is out of reach. *)

From Stdlib Require Import Sorting.Sorted.
From S2P Require Import Prelude Text Frame History.

Lemma cons_inv {A} (x y : A) l k : x :: l = y :: k -> x = y /\ l = k.
Proof. by intros [= -> ->]. Qed.

(** [slice::partition_point], on a slice the predicate partitions: the length of
    the front that satisfies it. *)
Fixpoint partition_point {A} (P : A -> bool) (l : list A) : nat :=
  match l with
  | x :: l => if P x then S (partition_point P l) else O
  | [] => O
  end.

Record HistoryEntry := mkEntry { entry_id : Z; entry_start : nat; entry_len : nat }.

Record ResidentHistory := mkResident {
  res_bytes : bytes;
  res_entries : list HistoryEntry;
  first_entry : nat;
  first_byte : nat;
}.

Record HistoryChunkSpec := mkSpec {
  spec_first_id : option Z;
  spec_count : nat;
  spec_records_bytes : nat;
  spec_at_start : bool;
  spec_complete : bool;
}.

Record HistoryFetchPlan := mkPlan {
  plan_room_id : Z;
  plan_before : option Z;
  plan_chunks : list HistoryChunkSpec;
  plan_message_count : nat;
  plan_at_start : bool;
}.

Inductive HistoryChunkError := Trimmed | Failed (e : HistoryError) | ChunkOutOfRange.

Module HistoryFetchPlan.

Definition chunk_count (p : HistoryFetchPlan) : nat := length (plan_chunks p).

(** [None] is the panic on a chunk that does not exist. *)
Definition resume_after (p : HistoryFetchPlan) (next_chunk : nat) : option (option Z * nat) :=
  if decide (length (plan_chunks p) < next_chunk)%nat then None
  else
    before ←
      match next_chunk with
      | O => Some (plan_before p)
      | S delivered =>
          spec ← plan_chunks p !! delivered;
          Some (match spec_first_id spec with Some id => Some id | None => plan_before p end)
      end;
    Some (before, sum_list (spec_count <$> drop next_chunk (plan_chunks p))).

End HistoryFetchPlan.

Module ResidentHistory.

Definition default : ResidentHistory :=
  {| res_bytes := []; res_entries := []; first_entry := 0; first_byte := 0 |}.

Definition len (h : ResidentHistory) : nat := (length (res_entries h) - first_entry h)%nat.
Definition is_empty (h : ResidentHistory) : bool := bool_decide (len h = O).
Definition entries (h : ResidentHistory) : list HistoryEntry := drop (first_entry h) (res_entries h).
Definition last (h : ResidentHistory) : option HistoryEntry := list.last (entries h).
Definition first_message_id (h : ResidentHistory) : option Z := entry_id <$> head (entries h).
Definition record (h : ResidentHistory) (e : HistoryEntry) : bytes :=
  slice (res_bytes h) (entry_start e) (entry_start e + entry_len e).
Definition record_range (h : ResidentHistory) (start n : nat) : bytes := slice (res_bytes h) start (start + n).

Definition append_message (h : ResidentHistory) (m : ChatMessage) : option (ResidentHistory * (nat * nat)) :=
  let start := length (res_bytes h) in
  bs ← write_message m (res_bytes h);
  let n := (length bs - start)%nat in
  Some ({| res_bytes := bs;
           res_entries := res_entries h ++ [{| entry_id := message_id m; entry_start := start; entry_len := n |}];
           first_entry := first_entry h; first_byte := first_byte h |}, (start, n)).

(** [None] is the panic of a rollback that follows no append. *)
Definition rollback_append (h : ResidentHistory) (start : nat) : option ResidentHistory :=
  match res_entries h with
  | [] => None
  | es => Some {| res_bytes := take start (res_bytes h); res_entries := take (length es - 1) es;
                  first_entry := first_entry h; first_byte := first_byte h |}
  end.

Definition append_known_record (h : ResidentHistory) (id : Z) (rec : bytes) : ResidentHistory :=
  {| res_bytes := res_bytes h ++ rec;
     res_entries := res_entries h ++
       [{| entry_id := id; entry_start := length (res_bytes h); entry_len := length rec |}];
     first_entry := first_entry h; first_byte := first_byte h |}.

Definition append_record (h : ResidentHistory) (rec : bytes) : result HistoryError ResidentHistory :=
  parsed ← parse_message rec;
  Ok (append_known_record h (message_id (ref_message parsed)) rec).

Definition extend (h other : ResidentHistory) : ResidentHistory :=
  foldl (fun h e => append_known_record h (entry_id e) (record other e)) h (entries other).

Definition COMPACT_DEAD_BYTES : nat := Z.to_nat (64 * 1024).
Definition COMPACT_DEAD_ENTRIES : nat := Z.to_nat 1024.

Definition shift_back (dead : nat) (e : HistoryEntry) : HistoryEntry :=
  {| entry_id := entry_id e; entry_start := (entry_start e - dead)%nat; entry_len := entry_len e |}.

Definition compact_if_worthwhile (h : ResidentHistory) : ResidentHistory :=
  if decide (first_entry h = O) then h
  else if decide (first_entry h = length (res_entries h)) then default
  else
    let dead_bytes := first_byte h in
    let dead_entries := first_entry h in
    let worthwhile_bytes := bool_decide (COMPACT_DEAD_BYTES <= dead_bytes)%nat &&
                            bool_decide (length (res_bytes h) <= dead_bytes * 2)%nat in
    let worthwhile_entries := bool_decide (COMPACT_DEAD_ENTRIES <= dead_entries)%nat &&
                              bool_decide (length (res_entries h) <= dead_entries * 2)%nat in
    if negb worthwhile_bytes && negb worthwhile_entries then h
    else {| res_bytes := drop dead_bytes (res_bytes h);
            res_entries := shift_back dead_bytes <$> drop dead_entries (res_entries h);
            first_entry := 0; first_byte := 0 |}.

(** The loop that gives up the oldest entries; each turn gives up one. *)
Fixpoint trim_loop (fuel : nat) (h : ResidentHistory) (limit : nat) : ResidentHistory :=
  match fuel with
  | O => h
  | S fuel =>
      if decide (limit < len h)%nat then
        match res_entries h !! first_entry h with
        | None => h
        | Some e =>
            trim_loop fuel
              {| res_bytes := res_bytes h; res_entries := res_entries h;
                 first_entry := S (first_entry h); first_byte := (entry_start e + entry_len e)%nat |} limit
        end
      else h
  end.

Definition trim_to_limit (h : ResidentHistory) (limit : nat) : ResidentHistory :=
  compact_if_worthwhile (trim_loop (len h) h limit).

(** The loop of [chunk_specs] over the entries: the ranges it pushes, the last
    one behind the loop included. *)
Fixpoint chunk_ranges (target_bytes : nat) (es : list HistoryEntry) (index start bs records_bytes count : nat)
    : list (nat * nat * nat) :=
  match es with
  | [] => [(start, index, records_bytes)]
  | e :: es =>
      let would_exceed_bytes := bool_decide (0 < count)%nat && bool_decide (target_bytes < bs + entry_len e)%nat in
      let would_exceed_count := bool_decide (count = MAX_CHUNK_MESSAGES) in
      if would_exceed_bytes || would_exceed_count then
        (start, index, records_bytes) ::
        chunk_ranges target_bytes es (S index) index (CHUNK_HEADER_BYTES + entry_len e) (entry_len e) 1
      else
        chunk_ranges target_bytes es (S index) start (bs + entry_len e) (records_bytes + entry_len e) (S count)
  end.

Definition chunk_specs (es : list HistoryEntry) (at_start : bool) (target_bytes : nat) : list HistoryChunkSpec :=
  if decide (es = []) then
    [{| spec_first_id := None; spec_count := 0; spec_records_bytes := 0; spec_at_start := at_start; spec_complete := true |}]
  else
    let target_bytes := Nat.max target_bytes CHUNK_HEADER_BYTES in
    let ranges := chunk_ranges target_bytes es 0 0 CHUNK_HEADER_BYTES 0 0 in
    imap (fun send_index '(start, fin, records_bytes) =>
            let complete := bool_decide (S send_index = length ranges) in
            {| spec_first_id := entry_id <$> es !! start; spec_count := (fin - start)%nat;
               spec_records_bytes := records_bytes; spec_at_start := complete && at_start;
               spec_complete := complete |})
         (reverse ranges).

Definition history_chunks_before (h : ResidentHistory) (room : Z) (before : option Z) (limit target_bytes : nat)
    (has_older_on_disk : bool) : HistoryFetchPlan :=
  let es := entries h in
  let fin :=
    match before with
    | Some before => partition_point (fun e => bool_decide (entry_id e < before)) es
    | None => length es
    end in
  let start := (fin - limit)%nat in
  let selected := slice es start fin in
  let at_start := bool_decide (start = O) && negb has_older_on_disk in
  {| plan_room_id := room; plan_before := before; plan_chunks := chunk_specs selected at_start target_bytes;
     plan_message_count := length selected; plan_at_start := at_start |}.

Definition encode_entries (h : ResidentHistory) (room : Z) (before : option Z) (spec : HistoryChunkSpec)
    (chunk_entries : list HistoryEntry) : result HistoryChunkError bytes :=
  match write_chunk_header room before (spec_at_start spec) (spec_complete spec) (length chunk_entries) [] with
  | Err e => Err (Failed e)
  | Ok payload => Ok (foldl (fun payload e => payload ++ record h e) payload chunk_entries)
  end.

Definition encode_chunk (h : ResidentHistory) (room : Z) (before : option Z) (spec : HistoryChunkSpec)
    : result HistoryChunkError bytes :=
  match spec_first_id spec with
  | None => encode_entries h room before spec []
  | Some first_id =>
      let start := partition_point (fun e => bool_decide (entry_id e < first_id)) (entries h) in
      match get_range (entries h) (Z.of_nat start) (Z.of_nat (start + spec_count spec)) with
      | None => Err Trimmed
      | Some chunk_entries =>
          if decide (entry_id <$> head chunk_entries <> Some first_id) then Err Trimmed
          else encode_entries h room before spec chunk_entries
      end
  end.

Fixpoint encode_specs (h : ResidentHistory) (room : Z) (before : option Z) (specs : list HistoryChunkSpec)
    : result HistoryChunkError (list bytes) :=
  match specs with
  | [] => Ok []
  | spec :: specs =>
      payload ← encode_chunk h room before spec;
      payloads ← encode_specs h room before specs;
      Ok (payload :: payloads)
  end.

Definition chunk_payloads (h : ResidentHistory) (room : Z) (before : option Z) (at_start : bool)
    (target_bytes : nat) : result HistoryChunkError (list bytes) :=
  encode_specs h room before (chunk_specs (entries h) at_start target_bytes).

End ResidentHistory.

(** ** The list of records a history stands for *)


Fixpoint entries_from (start : nat) (l : list (Z * bytes)) : list HistoryEntry :=
  match l with
  | [] => []
  | (id, rec) :: l =>
      {| entry_id := id; entry_start := start; entry_len := length rec |} :: entries_from (start + length rec) l
  end.

Record resident (h : ResidentHistory) (l : list (Z * bytes)) : Prop := {
  res_first : (first_entry h <= length (res_entries h))%nat;
  res_front : (first_byte h <= length (res_bytes h))%nat;
  res_live : drop (first_byte h) (res_bytes h) = mjoin (snd <$> l);
  res_index : drop (first_entry h) (res_entries h) = entries_from (first_byte h) l;
}.

Lemma length_entries_from s l : length (entries_from s l) = length l.
Proof. revert s. induction l as [|[id rec] l IH]; intros s; cbn; [done|]. by rewrite IH. Qed.

Lemma entries_from_ids s l : entry_id <$> entries_from s l = l.*1.
Proof. revert s. induction l as [|[id rec] l IH]; intros s; cbn; [done|]. by rewrite IH. Qed.

Lemma entries_from_app s l k :
  entries_from s (l ++ k) = entries_from s l ++ entries_from (s + length (mjoin l.*2)) k.
Proof.
  revert s. induction l as [|[id rec] l IH]; intros s; cbn [entries_from app fmap list_fmap mjoin list_join length snd].
  - by rewrite Nat.add_0_r.
  - rewrite IH, length_app, Nat.add_assoc. done.
Qed.

Lemma entries_from_drop n s l :
  drop n (entries_from s l) = entries_from (s + length (mjoin (take n l).*2)) (drop n l).
Proof.
  destruct (decide (n <= length l)%nat).
  - rewrite <- (take_drop n l) at 1. rewrite entries_from_app, drop_app_length'; [done|].
    rewrite length_entries_from, length_take. lia.
  - rewrite !drop_ge by (rewrite ?length_entries_from; lia). done.
Qed.

Lemma entries_from_take n s l : take n (entries_from s l) = entries_from s (take n l).
Proof.
  destruct (decide (n <= length l)%nat).
  - rewrite <- (take_drop n l) at 1. rewrite entries_from_app, take_app_length'; [done|].
    rewrite length_entries_from, length_take. lia.
  - rewrite !take_ge by (rewrite ?length_entries_from; lia). done.
Qed.

Lemma entries_from_records pre l post :
  (fun e => slice (pre ++ mjoin l.*2 ++ post) (entry_start e) (entry_start e + entry_len e))
    <$> entries_from (length pre) l = l.*2.
Proof.
  revert pre. induction l as [|[id rec] l IH]; intros pre; [done|].
  cbn [entries_from fmap list_fmap mjoin list_join entry_start entry_len snd].
  rewrite <- (assoc_L (++)). rewrite (slice_mid pre rec) by lia. f_equal.
  specialize (IH (pre ++ rec)). rewrite length_app, <- (assoc_L (++)) in IH. exact IH.
Qed.

(** ** Every operation, on the list *)

Section refinement.
Implicit Types (h : ResidentHistory) (l : list (Z * bytes)).

Lemma resident_default : resident ResidentHistory.default [].
Proof. by constructor. Qed.

Lemma resident_entries h l : resident h l -> ResidentHistory.entries h = entries_from (first_byte h) l.
Proof. intros R. apply R. Qed.

Lemma resident_len h l : resident h l -> ResidentHistory.len h = length l.
Proof.
  intros R. pose proof (f_equal length (res_index h l R)) as E.
  rewrite length_drop, length_entries_from in E. exact E.
Qed.

Lemma resident_bytes h l : resident h l ->
  res_bytes h = take (first_byte h) (res_bytes h) ++ mjoin l.*2 ++ [] /\
  length (take (first_byte h) (res_bytes h)) = first_byte h.
Proof.
  intros [? Hf Hl ?]. split; [|rewrite length_take; lia].
  by rewrite app_nil_r, <- Hl, take_drop.
Qed.

Lemma resident_records h l a b : resident h l ->
  ResidentHistory.record h <$> slice (ResidentHistory.entries h) a b = (slice l a b).*2.
Proof.
  intros R. destruct (resident_bytes h l R) as [Hb Hn]. rewrite (resident_entries h l R).
  pose proof (entries_from_records (take (first_byte h) (res_bytes h)) l []) as E.
  rewrite <- Hb, Hn in E. unfold slice.
  change (ResidentHistory.record h) with
    (fun e => slice (res_bytes h) (entry_start e) (entry_start e + entry_len e)).
  by rewrite fmap_take, fmap_drop, E, <- fmap_drop, <- fmap_take.
Qed.

Lemma resident_first h l : resident h l -> ResidentHistory.first_message_id h = head l.*1.
Proof.
  intros R. unfold ResidentHistory.first_message_id. rewrite (resident_entries h l R), <- (entries_from_ids (first_byte h)).
  by destruct (entries_from _ l).
Qed.

Lemma resident_last h l : resident h l -> entry_id <$> ResidentHistory.last h = list.last l.*1.
Proof.
  intros R. unfold ResidentHistory.last. rewrite (resident_entries h l R), <- (entries_from_ids (first_byte h)).
  by rewrite fmap_last.
Qed.

Lemma append_known_resident h l id rec :
  resident h l -> resident (ResidentHistory.append_known_record h id rec) (l ++ [(id, rec)]).
Proof.
  intros [Hf Hb Hl Hi]. constructor; cbn [ResidentHistory.append_known_record res_entries res_bytes first_entry first_byte].
  - rewrite length_app. lia.
  - rewrite length_app. lia.
  - rewrite drop_app_le by done. rewrite Hl, fmap_app, join_app. cbn. by rewrite app_nil_r.
  - rewrite drop_app_le by done. rewrite Hi, entries_from_app. f_equal. cbn [entries_from]. do 2 f_equal.
    pose proof (f_equal length Hl) as E. rewrite length_drop in E. lia.
Qed.

Lemma append_message_known h m :
  message_wf m ->
  ResidentHistory.append_message h m =
  Some (ResidentHistory.append_known_record h (message_id m) (message_bytes m),
        (length (res_bytes h), length (message_bytes m))).
Proof.
  intros W. unfold ResidentHistory.append_message. rewrite write_message_bytes by done. cbn [mbind option_bind].
  rewrite length_app. replace (length (res_bytes h) + length (message_bytes m) - length (res_bytes h))%nat
    with (length (message_bytes m)) by lia. done.
Qed.

(** The record just appended, and taking it back. *)
Lemma record_range_appended h id rec :
  ResidentHistory.record_range (ResidentHistory.append_known_record h id rec) (length (res_bytes h)) (length rec) = rec.
Proof. unfold ResidentHistory.record_range. cbn. rewrite <- (app_nil_r (_ ++ rec)), <- (assoc_L (++)). by apply slice_mid. Qed.

Lemma rollback_appended h id rec :
  ResidentHistory.rollback_append (ResidentHistory.append_known_record h id rec) (length (res_bytes h)) = Some h.
Proof.
  unfold ResidentHistory.rollback_append, ResidentHistory.append_known_record.
  cbn [res_entries res_bytes first_entry first_byte].
  destruct (res_entries h ++ [_]) as [|e es] eqn:E; [by destruct (res_entries h)|]. rewrite <- E.
  f_equal. rewrite length_app. cbn [length]. rewrite Nat.add_sub, !take_app_length. by destruct h.
Qed.

Lemma extend_resident h l other k :
  resident h l -> resident other k -> resident (ResidentHistory.extend h other) (l ++ k).
Proof.
  intros R Ro. unfold ResidentHistory.extend.
  pose proof (resident_records other k 0 (length k) Ro) as E. unfold slice in E.
  rewrite !drop_0, Nat.sub_0_r, take_ge in E by (rewrite (resident_entries other k Ro), length_entries_from; lia).
  rewrite take_ge in E by lia.
  assert (forall es k' h l, resident h l -> entry_id <$> es = k'.*1 -> ResidentHistory.record other <$> es = k'.*2 ->
    resident (foldl (fun h e => ResidentHistory.append_known_record h (entry_id e) (ResidentHistory.record other e)) h es)
             (l ++ k')) as Hgen.
  { clear. induction es as [|e es IH]; intros [|[id rec] k'] h l R; cbn; try done.
    - intros _ _. by rewrite app_nil_r.
    - intros [= <- Hi] [= <- Hr]. replace (l ++ (entry_id e, ResidentHistory.record other e) :: k')
        with ((l ++ [(entry_id e, ResidentHistory.record other e)]) ++ k') by (by rewrite <- (assoc_L (++))).
      apply IH; [by apply append_known_resident|done|done]. }
  apply Hgen; [done| |done]. by rewrite (resident_entries other k Ro), entries_from_ids.
Qed.

Lemma trim_loop_resident fuel h l limit :
  (length l <= fuel)%nat -> resident h l ->
  resident (ResidentHistory.trim_loop fuel h limit) (drop (length l - limit) l).
Proof.
  revert h l. induction fuel as [|fuel IH]; intros h l Hfuel R; cbn [ResidentHistory.trim_loop].
  - destruct l; [done|cbn in Hfuel; lia].
  - rewrite (resident_len h l R). case_decide as Hlt.
    2: { replace (length l - limit)%nat with O by lia. done. }
    destruct l as [|[id rec] l]; [cbn in Hlt; lia|]. destruct R as [Hf Hb Hl Hi]. cbn [entries_from] in Hi.
    assert (res_entries h !! first_entry h =
      Some {| entry_id := id; entry_start := first_byte h; entry_len := length rec |}) as ->.
    { rewrite <- (Nat.add_0_r (first_entry h)), <- lookup_drop, Hi. done. }
    cbn [length] in *. replace (S (length l) - limit)%nat with (S (length l - limit)) by lia. cbn [drop].
    apply IH; [lia|]. pose proof (f_equal length Hi) as Hlen. rewrite length_drop in Hlen. cbn [length] in Hlen.
    pose proof (f_equal length Hl) as Hbl. rewrite length_drop in Hbl. cbn [fmap list_fmap mjoin list_join] in Hbl.
    rewrite length_app in Hbl. cbn [snd] in Hbl.
    constructor; cbn [res_entries res_bytes first_entry first_byte entry_start entry_len]; [lia|lia| |].
    + rewrite <- drop_drop, Hl. cbn [fmap list_fmap mjoin list_join snd]. by rewrite drop_app_length.
    + replace (S (first_entry h)) with (first_entry h + 1)%nat by lia. by rewrite <- drop_drop, Hi.
Qed.

Lemma shift_back_entries dead s l :
  (dead <= s)%nat -> ResidentHistory.shift_back dead <$> entries_from s l = entries_from (s - dead) l.
Proof.
  revert s. induction l as [|[id rec] l IH]; intros s Hs; cbn [entries_from fmap list_fmap]; [done|].
  f_equal. change (list_fmap _ _ ?f ?x) with (f <$> x). rewrite IH by lia. f_equal. lia.
Qed.

Lemma compact_resident h l : resident h l -> resident (ResidentHistory.compact_if_worthwhile h) l.
Proof.
  intros R. unfold ResidentHistory.compact_if_worthwhile. case_decide; [done|]. case_decide as Hall.
  - assert (l = []) as ->; [|apply resident_default].
    apply nil_length_inv. pose proof (resident_len h l R) as E. unfold ResidentHistory.len in E. lia.
  - destruct (_ && _); [done|]. destruct R as [Hf Hb Hl Hi].
    constructor; cbn [res_entries res_bytes first_entry first_byte]; [lia|lia| |].
    + by rewrite drop_0.
    + rewrite drop_0, Hi, shift_back_entries by lia. f_equal. lia.
Qed.

Lemma trim_resident h l limit :
  resident h l -> resident (ResidentHistory.trim_to_limit h limit) (drop (length l - limit) l).
Proof.
  intros R. apply compact_resident, trim_loop_resident; [|done]. by rewrite (resident_len h l R).
Qed.

End refinement.

(** ** Pages *)

Definition newest {A} (n : nat) (l : list A) : list A := drop (length l - n) l.

Definition is_below (before : option Z) (id : Z) : Prop :=
  match before with Some b => id < b | None => True end.
#[export] Instance is_below_dec before id : Decision (is_below before id).
Proof. destruct before; cbn; apply _. Defined.

(** What a request for [limit] messages before an id is owed. *)
Definition history_page (before : option Z) (limit : nat) (ms : list ChatMessage) : list ChatMessage :=
  newest limit (filter (fun m => is_below before (message_id m)) ms).

Definition ascending (ms : list ChatMessage) : Prop := StronglySorted Z.lt (message_id <$> ms).

(** The payloads of one answer, newest first: together they carry exactly the
    messages of the page, each chunk small enough unless it holds one message,
    only the last one complete and telling whether the start was reached. *)
Record page_chunks (room : Z) (before : option Z) (at_start : bool) (target_bytes : nat)
    (payloads : list bytes) (page : list ChatMessage) (chunks : list HistoryChunk) : Prop := {
  page_decodes : Forall2 (fun p c => decode_chunk p = Ok (Some c)) payloads chunks;
  page_exact : mjoin (reverse (chunk_messages <$> chunks)) = page;
  page_echo : Forall (fun c => chunk_room_id c = room /\ chunk_before c = before) chunks;
  page_flags : exists n, (fun c => (chunk_complete c, chunk_at_start c)) <$> chunks =
    replicate n (false, false) ++ [(true, at_start)];
  page_sizes : Forall2 (fun p c => (length p <= Nat.max target_bytes CHUNK_HEADER_BYTES \/
    length (chunk_messages c) = 1)%nat) payloads chunks;
}.

Definition page_delivered (room : Z) (before : option Z) (at_start : bool) (target_bytes : nat)
    (payloads : list bytes) (page : list ChatMessage) : Prop :=
  exists chunks, page_chunks room before at_start target_bytes payloads page chunks.

Lemma partition_point_le {A} (P : A -> bool) l : (partition_point P l <= length l)%nat.
Proof. induction l as [|x l IH]; cbn; [lia|]. destruct (P x); lia. Qed.

Lemma partition_below {A} (f : A -> Z) b (l : list A) :
  StronglySorted Z.lt (f <$> l) ->
  take (partition_point (fun x => bool_decide (f x < b)) l) l = filter (fun x => f x < b) l.
Proof.
  intros S. induction l as [|x l IH]; [done|]. cbn [fmap list_fmap] in S. apply StronglySorted_inv in S as [S Hx].
  cbn [partition_point]. destruct (decide (f x < b)) as [Hlt|Hge].
  - rewrite bool_decide_true by done. rewrite filter_cons_True by done. cbn [take]. f_equal. by apply IH.
  - rewrite bool_decide_false by done. rewrite filter_cons_False by done. cbn [take]. symmetry.
    apply filter_none. rewrite Forall_fmap in Hx. eapply Forall_impl; [exact Hx|]. cbn. lia.
Qed.

Lemma partition_at {A} (f : A -> Z) (a : list A) x c :
  StronglySorted Z.lt (f <$> a ++ x :: c) ->
  partition_point (fun y => bool_decide (f y < f x)) (a ++ x :: c) = length a.
Proof.
  induction a as [|y a IH]; cbn [app fmap list_fmap partition_point length]; intros S.
  - by rewrite bool_decide_false by lia.
  - apply StronglySorted_inv in S as [S Hy]. rewrite bool_decide_true; [f_equal; by apply IH|].
    rewrite Forall_fmap, Forall_app, Forall_cons in Hy. apply Hy.
Qed.

(** *** How the entries are cut into chunks *)

Definition sum_len (g : list HistoryEntry) : nat := sum_list_with entry_len g.

Fixpoint ranges_of (start : nat) (groups : list (list HistoryEntry)) : list (nat * nat * nat) :=
  match groups with
  | [] => []
  | g :: gs => (start, start + length g, sum_len g)%nat :: ranges_of (start + length g) gs
  end.

Definition group_ok (target_bytes : nat) (g : list HistoryEntry) : Prop :=
  g <> [] /\ (length g <= MAX_CHUNK_MESSAGES)%nat /\
  (CHUNK_HEADER_BYTES + sum_len g <= target_bytes \/ length g = 1)%nat.

Lemma sum_len_snoc g e : sum_len (g ++ [e]) = (sum_len g + entry_len e)%nat.
Proof. unfold sum_len. rewrite sum_list_with_app. cbn. lia. Qed.

Lemma group_ok_one target_bytes e : group_ok target_bytes [e].
Proof. split; [done|]. split; [pose proof max_chunk_messages; cbn; lia|by right]. Qed.

Lemma chunk_ranges_groups target_bytes es cur start :
  cur = [] /\ es <> [] \/ group_ok target_bytes cur ->
  exists groups,
    ResidentHistory.chunk_ranges target_bytes es (start + length cur) start (CHUNK_HEADER_BYTES + sum_len cur)
      (sum_len cur) (length cur) = ranges_of start groups /\
    mjoin groups = cur ++ es /\ Forall (group_ok target_bytes) groups /\ groups <> [].
Proof.
  revert cur start. induction es as [|e es IH]; intros cur start Hcur; cbn [ResidentHistory.chunk_ranges].
  - destruct Hcur as [[_ []]|Hcur]; [done|]. exists [cur]. cbn. rewrite !app_nil_r. split_and!; [done|done|by apply Forall_singleton|done].
  - destruct (_ || _) eqn:E.
    + assert (cur <> []) as Hne.
      { intros ->. cbn in E. rewrite bool_decide_false in E; [done|]. pose proof max_chunk_messages. lia. }
      assert (group_ok target_bytes cur) as Hok by naive_solver.
      destruct (IH [e] (start + length cur)%nat) as (gs & Hr & Hj & Hgs & _); [right; apply group_ok_one|].
      exists (cur :: gs). cbn [ranges_of]. rewrite <- Hr. split_and!; [|change (cur ++ mjoin gs = cur ++ e :: es); by rewrite Hj|by constructor|done].
      f_equal. cbn [length]. f_equal; unfold sum_len; cbn; lia.
    + apply orb_false_iff in E as [E1 E2]. apply bool_decide_eq_false in E2.
      destruct (IH (cur ++ [e]) start) as (gs & Hr & Hj & Hgs & Hne).
      * right. destruct Hcur as [[-> _]|(Hc1 & Hc2 & Hc3)]; [apply group_ok_one|].
        split; [by destruct cur|]. rewrite length_app. cbn [length]. split; [lia|]. left.
        rewrite sum_len_snoc. rewrite bool_decide_true in E1 by (destruct cur; [done|cbn; lia]).
        cbn [andb] in E1. apply bool_decide_eq_false in E1. lia.
      * exists gs. rewrite <- Hr, sum_len_snoc, length_app. cbn [length].
        split_and!; [f_equal; lia| |done|done]. rewrite Hj. by rewrite <- (assoc_L (++)).
Qed.

Definition spec_of (es : list HistoryEntry) (at_start complete : bool) (r : nat * nat * nat) : HistoryChunkSpec :=
  let '(start, fin, records_bytes) := r in
  {| spec_first_id := entry_id <$> es !! start; spec_count := (fin - start)%nat;
     spec_records_bytes := records_bytes; spec_at_start := complete && at_start; spec_complete := complete |}.

Lemma chunk_specs_groups es at_start target_bytes :
  es <> [] ->
  exists g gs, mjoin (g :: gs) = es /\ Forall (group_ok (Nat.max target_bytes CHUNK_HEADER_BYTES)) (g :: gs) /\
    ResidentHistory.chunk_specs es at_start target_bytes =
    reverse (spec_of es at_start false <$> ranges_of (length g) gs) ++
    [spec_of es at_start true (0%nat, length g, sum_len g)].
Proof.
  intros Hes. unfold ResidentHistory.chunk_specs. rewrite decide_False by done.
  destruct (chunk_ranges_groups (Nat.max target_bytes CHUNK_HEADER_BYTES) es [] 0) as (groups & Hr & Hj & Hg & Hne);
    [by left|]. cbn [length Nat.add sum_len] in Hr. change (sum_len []) with O in Hr. rewrite Nat.add_0_r in Hr.
  destruct groups as [|g gs]; [done|]. exists g, gs. split; [done|]. split; [done|]. rewrite Hr. cbn [ranges_of Nat.add].
  rewrite reverse_cons, imap_app. f_equal.
  - rewrite <- fmap_reverse.
    apply list_eq. intros i. rewrite list_lookup_imap, list_lookup_fmap.
    destruct (reverse (ranges_of (length g) gs) !! i) as [[[s f] rb]|] eqn:E; [|done]. cbn [fmap option_fmap option_map].
    apply lookup_lt_Some in E. rewrite length_reverse in E. unfold spec_of. cbn [length].
    rewrite bool_decide_false by lia. done.
  - cbn [imap length]. unfold spec_of. rewrite length_reverse, bool_decide_true by (cbn; lia). done.
Qed.

(** *** One chunk *)

Section chunks.
Context (h : ResidentHistory) (room : Z) (before : option Z).
Context (Hroom : is_u32 room) (Hbefore : match before with Some b => is_u64 b | None => True end).
Context (Hsorted : StronglySorted Z.lt (entry_id <$> ResidentHistory.entries h)).

(** The entries of a chunk and the messages their records were written from. *)
Definition holds (es : list HistoryEntry) (ms : list ChatMessage) : Prop :=
  ResidentHistory.record h <$> es = message_bytes <$> ms /\
  entry_len <$> es = (fun m => length (message_bytes m)) <$> ms /\
  Forall (fun m => message_wf m /\ room_id m = room) ms.

Lemma holds_length es ms : holds es ms -> length es = length ms.
Proof. intros (E & _ & _). apply (f_equal length) in E. by rewrite !length_fmap in E. Qed.

Lemma holds_app es1 es2 ms :
  holds (es1 ++ es2) ms -> exists ms1 ms2, ms = ms1 ++ ms2 /\ holds es1 ms1 /\ holds es2 ms2.
Proof.
  intros H. pose proof (holds_length _ _ H) as Hl. destruct H as (E & El & W).
  rewrite length_app in Hl. exists (take (length es1) ms), (drop (length es1) ms).
  rewrite take_drop. split; [done|]. rewrite <- (take_drop (length es1) ms) in E, El, W.
  rewrite (fmap_app (ResidentHistory.record h)), (fmap_app message_bytes) in E.
  rewrite (fmap_app entry_len), (fmap_app (fun m => length (message_bytes m))) in El. rewrite Forall_app in W.
  apply app_inj_1 in E as [E1 E2]; [|rewrite !length_fmap, length_take; lia].
  apply app_inj_1 in El as [F1 F2]; [|rewrite !length_fmap, length_take; lia].
  unfold holds. tauto.
Qed.

Lemma foldl_payload p es :
  foldl (fun payload e => payload ++ ResidentHistory.record h e) p es = p ++ mjoin (ResidentHistory.record h <$> es).
Proof.
  revert p. induction es as [|e es IH]; intros p; cbn [foldl]; [by rewrite app_nil_r|].
  rewrite IH, <- (assoc_L (++)). done.
Qed.

Lemma holds_sum es ms : holds es ms -> length (mjoin (message_bytes <$> ms)) = sum_len es.
Proof.
  intros (_ & E & _). revert ms E. unfold sum_len.
  induction es as [|e es IH]; intros [|m ms] E; try discriminate E; [done|].
  rewrite !fmap_cons in E. apply cons_inv in E as [E1 E].
  cbn [fmap list_fmap mjoin list_join sum_list_with]. rewrite length_app, <- E1.
  f_equal. by apply IH.
Qed.

Lemma encode_entries_delivered spec es ms :
  holds es ms -> (length es <= MAX_CHUNK_MESSAGES)%nat ->
  exists payload, ResidentHistory.encode_entries h room before spec es = Ok payload /\
    length payload = (CHUNK_HEADER_BYTES + sum_len es)%nat /\
    decode_chunk payload =
    Ok (Some {| chunk_room_id := room; chunk_before := before; chunk_messages := ms;
                chunk_at_start := spec_at_start spec; chunk_complete := spec_complete spec |}).
Proof.
  intros Hh Hn. pose proof max_chunk_messages. unfold ResidentHistory.encode_entries.
  rewrite (holds_length es ms Hh) in *.
  pose proof (write_chunk_header_ok room before (spec_at_start spec) (spec_complete spec) (length ms) [] ltac:(lia)) as Hw.
  rewrite Hw. eexists. split; [reflexivity|]. rewrite foldl_payload, (proj1 Hh). split.
  - rewrite length_app, (length_chunk_header _ _ _ _ _ _ _ Hw), (holds_sum es ms Hh). done.
  - apply decode_chunk_written; [done|done|apply Hh|done].
Qed.

Lemma encode_chunk_group A g B spec :
  ResidentHistory.entries h = A ++ g ++ B -> g <> [] ->
  spec_first_id spec = entry_id <$> head g -> spec_count spec = length g ->
  ResidentHistory.encode_chunk h room before spec = ResidentHistory.encode_entries h room before spec g.
Proof.
  intros He Hg Hi Hc. destruct g as [|e g]; [done|]. unfold ResidentHistory.encode_chunk. rewrite Hi. cbn [head fmap option_fmap option_map].
  rewrite He in *. cbn [app] in *. rewrite (partition_at entry_id A e (g ++ B)) by done. rewrite Hc.
  change (e :: g ++ B) with ((e :: g) ++ B).
  rewrite (get_range_mid A (e :: g) B) by (unfold len; cbn; lia).
  cbn [head fmap option_fmap option_map]. by rewrite decide_False by (intros Hne; by apply Hne).
Qed.

(** The chunk of one range of the selected entries. *)
Lemma group_delivered A pre g post B at_start complete target_bytes mg :
  ResidentHistory.entries h = A ++ (pre ++ g ++ post) ++ B -> group_ok target_bytes g -> holds g mg ->
  exists payload, ResidentHistory.encode_chunk h room before
      (spec_of (pre ++ g ++ post) at_start complete (length pre, (length pre + length g)%nat, sum_len g)) = Ok payload /\
    decode_chunk payload =
    Ok (Some {| chunk_room_id := room; chunk_before := before; chunk_messages := mg;
                chunk_at_start := complete && at_start; chunk_complete := complete |}) /\
    (length payload <= target_bytes \/ length mg = 1)%nat.
Proof.
  intros He (Hne & Hmax & Hsize) Hh.
  destruct (encode_entries_delivered (spec_of (pre ++ g ++ post) at_start complete
    (length pre, (length pre + length g)%nat, sum_len g)) g mg Hh Hmax) as (payload & Hp & Hlen & Hd).
  exists payload. rewrite (encode_chunk_group (A ++ pre) g (post ++ B)).
  - rewrite Hlen, <- (holds_length g mg Hh). split; [done|]. split; [exact Hd|exact Hsize].
  - by rewrite He, <- !(assoc_L (++)).
  - done.
  - cbn [spec_of spec_first_id]. f_equal. rewrite lookup_app_r, Nat.sub_diag by done. by destruct g.
  - cbn [spec_of spec_count]. lia.
Qed.

Lemma groups_delivered A pre gs B at_start target_bytes ms :
  ResidentHistory.entries h = A ++ (pre ++ mjoin gs) ++ B -> Forall (group_ok target_bytes) gs -> holds (mjoin gs) ms ->
  exists payloads chunks,
    Forall2 (fun spec p => ResidentHistory.encode_chunk h room before spec = Ok p)
      (spec_of (pre ++ mjoin gs) at_start false <$> ranges_of (length pre) gs) payloads /\
    Forall2 (fun p c => decode_chunk p = Ok (Some c)) payloads chunks /\
    mjoin (chunk_messages <$> chunks) = ms /\
    Forall (fun c => chunk_room_id c = room /\ chunk_before c = before) chunks /\
    Forall (fun c => (chunk_complete c, chunk_at_start c) = (false, false)) chunks /\
    Forall2 (fun p c => (length p <= target_bytes \/ length (chunk_messages c) = 1)%nat) payloads chunks.
Proof.
  intros He Hok. revert A pre ms He. induction Hok as [|g gs Hg Hgs IH]; intros A pre ms He Hh.
  - exists [], []. apply holds_length in Hh. destruct ms; [|done]. cbn. split_and!; constructor.
  - change (mjoin (g :: gs)) with (g ++ mjoin gs) in *. destruct (holds_app _ _ _ Hh) as (mg & ms' & -> & Hmg & Hms).
    destruct (group_delivered A pre g (mjoin gs) B at_start false target_bytes mg He Hg Hmg) as (p & Hp & Hd & Hs).
    destruct (IH A (pre ++ g) ms') as (ps & cs & H1 & H2 & H3 & H4 & H5 & H6); [by rewrite He, <- !(assoc_L (++))|done|].
    rewrite length_app in H1. rewrite <- (assoc_L (++)) in H1.
    eexists (p :: ps), (_ :: cs). cbn [ranges_of fmap list_fmap]. split_and!.
    + constructor; [exact Hp|exact H1].
    + constructor; [exact Hd|exact H2].
    + cbn [chunk_messages]. rewrite <- H3. done.
    + by constructor.
    + by constructor.
    + constructor; [exact Hs|exact H6].
Qed.

End chunks.

Lemma encode_specs_all h room before specs payloads :
  Forall2 (fun spec p => ResidentHistory.encode_chunk h room before spec = Ok p) specs payloads ->
  ResidentHistory.encode_specs h room before specs = Ok payloads.
Proof. induction 1 as [|s p specs payloads Hs _ IH]; [done|]. cbn [ResidentHistory.encode_specs]. rewrite Hs. run_result. by rewrite IH. Qed.

(** Planned chunks encode, and carry the messages of the entries selected. *)
Lemma specs_delivered h room before A es B at_start target_bytes ms :
  is_u32 room -> match before with Some b => is_u64 b | None => True end ->
  StronglySorted Z.lt (entry_id <$> ResidentHistory.entries h) ->
  ResidentHistory.entries h = A ++ es ++ B -> holds h room es ms ->
  exists payloads,
    ResidentHistory.encode_specs h room before (ResidentHistory.chunk_specs es at_start target_bytes) = Ok payloads /\
    page_delivered room before at_start target_bytes payloads ms.
Proof.
  intros Hr Hb Hs He Hh. set (target := Nat.max target_bytes CHUNK_HEADER_BYTES).
  destruct (decide (es = [])) as [->|Hne].
  - apply holds_length in Hh as Hl. destruct ms; [|done]. unfold ResidentHistory.chunk_specs. rewrite decide_True by done.
    set (spec := mkSpec _ _ _ _ _).
    destruct (encode_entries_delivered h room before Hr Hb spec [] [] Hh) as (p & Hp & Hl' & Hd);
      [pose proof max_chunk_messages; cbn; lia|].
    exists [p]. split; [by apply encode_specs_all, Forall2_cons|]. eexists [_]. split.
    + by apply Forall2_cons.
    + done.
    + by apply Forall_singleton.
    + by exists O.
    + apply Forall2_cons. split; [left; rewrite Hl'; cbn; lia|done].
  - destruct (chunk_specs_groups es at_start target_bytes Hne) as (g & gs & Hj & Hok & ->).
    apply Forall_cons in Hok as [Hg Hgs]. subst es. change (mjoin (g :: gs)) with (g ++ mjoin gs) in *.
    destruct (holds_app _ _ _ _ _ Hh) as (mg & ms' & -> & Hmg & Hms).
    destruct (group_delivered h room before Hr Hb Hs A [] g (mjoin gs) B at_start true target mg He Hg Hmg)
      as (p & Hp & Hd & Hz).
    destruct (groups_delivered h room before Hr Hb Hs A g gs B at_start target ms' He Hgs Hms)
      as (ps & cs & H1 & H2 & H3 & H4 & H5 & H6).
    exists (reverse ps ++ [p]). split.
    { apply encode_specs_all, Forall2_app; [by apply Forall2_reverse|]. by apply Forall2_cons. }
    eexists (reverse cs ++ [_]). split.
    + apply Forall2_app; [by apply Forall2_reverse|]. by apply Forall2_cons.
    + rewrite fmap_app, fmap_reverse, reverse_app, reverse_involutive, <- H3. done.
    + apply Forall_app. split; [by apply Forall_reverse|by apply Forall_singleton].
    + exists (length cs). rewrite fmap_app. f_equal. rewrite fmap_reverse.
      clear -H5. induction H5 as [|c cs Hc _ IH]; [done|]. rewrite fmap_cons, reverse_cons, IH, Hc.
      cbn [length]. by rewrite replicate_S_end.
    + apply Forall2_app; [by apply Forall2_reverse|]. by apply Forall2_cons.
Qed.

(** A history that holds the records of messages. *)
Definition msg_record (m : ChatMessage) : Z * bytes := (message_id m, message_bytes m).

Lemma msg_record_ids ms : (msg_record <$> ms).*1 = message_id <$> ms.
Proof. by rewrite <- list_fmap_compose. Qed.

Lemma slice_fmap {A B} (f : A -> B) l a b : slice (f <$> l) a b = f <$> slice l a b.
Proof. unfold slice. by rewrite <- fmap_drop, <- fmap_take. Qed.

Lemma slice_split {A} (l : list A) a b :
  (a <= b)%nat -> l = take a l ++ slice l a b ++ drop b l.
Proof.
  intros Hab. unfold slice. rewrite <- (take_drop a l) at 1. f_equal.
  rewrite <- (take_drop (b - a) (drop a l)) at 1. f_equal. rewrite drop_drop. f_equal. lia.
Qed.

Lemma entries_from_lens s l : entry_len <$> entries_from s l = length <$> l.*2.
Proof. revert s. induction l as [|[id rec] l IH]; intros s; [done|]. cbn [entries_from fmap list_fmap]. f_equal. apply IH. Qed.

Lemma resident_holds h room ms a b :
  resident h (msg_record <$> ms) -> Forall (fun m => message_wf m /\ room_id m = room) ms ->
  holds h room (slice (ResidentHistory.entries h) a b) (slice ms a b).
Proof.
  intros R W. split_and!.
  - rewrite (resident_records h _ a b R), slice_fmap, <- list_fmap_compose. done.
  - rewrite <- slice_fmap, (resident_entries h _ R), entries_from_lens, <- !list_fmap_compose.
    rewrite <- slice_fmap. done.
  - by apply Forall_take, Forall_drop.
Qed.

Lemma page_slice before limit ms :
  ascending ms ->
  let fin := match before with
             | Some b => partition_point (fun m => bool_decide (message_id m < b)) ms
             | None => length ms
             end in
  slice ms (fin - limit) fin = history_page before limit ms /\ (fin <= length ms)%nat /\
  length (filter (fun m => is_below before (message_id m)) ms) = fin.
Proof.
  intros S fin. assert (fin <= length ms)%nat as Hf by (subst fin; destruct before; [apply partition_point_le|done]).
  unfold history_page, newest.
  assert (take fin ms = filter (fun m => is_below before (message_id m)) ms) as <-.
  { subst fin. destruct before as [b|]; [by apply partition_below|]. rewrite take_ge by done. symmetry.
    apply filter_all. by apply Forall_true. }
  rewrite length_take. replace (fin `min` length ms)%nat with fin by lia. split; [|done].
  unfold slice. rewrite take_drop_commute. do 2 f_equal. lia.
Qed.

Lemma partition_ids {A B} (f : A -> Z) (g : B -> Z) b l k :
  f <$> l = g <$> k ->
  partition_point (fun x => bool_decide (f x < b)) l = partition_point (fun y => bool_decide (g y < b)) k.
Proof.
  revert k. induction l as [|x l IH]; intros [|y k] E; try done. rewrite !fmap_cons in E.
  apply cons_inv in E as [E1 E2]. cbn. by rewrite E1, (IH k E2).
Qed.

(** A page of resident history is delivered exactly. *)
Lemma resident_page h room ms before limit target_bytes has_older :
  is_u32 room -> match before with Some b => is_u64 b | None => True end ->
  resident h (msg_record <$> ms) -> ascending ms -> Forall (fun m => message_wf m /\ room_id m = room) ms ->
  let plan := ResidentHistory.history_chunks_before h room before limit target_bytes has_older in
  plan_message_count plan = length (history_page before limit ms) /\
  plan_at_start plan = bool_decide (length (filter (fun m => is_below before (message_id m)) ms) <= limit)%nat && negb has_older /\
  exists payloads,
    ResidentHistory.encode_specs h room before (plan_chunks plan) = Ok payloads /\
    page_delivered room before (plan_at_start plan) target_bytes payloads (history_page before limit ms).
Proof.
  intros Hr Hb R S W plan.
  set (fin := match before with Some b => partition_point (fun m => bool_decide (message_id m < b)) ms | None => length ms end).
  assert (match before with
          | Some b => partition_point (fun e => bool_decide (entry_id e < b)) (ResidentHistory.entries h)
          | None => length (ResidentHistory.entries h)
          end = fin) as Hfin.
  { rewrite (resident_entries h _ R). subst fin. destruct before as [b|].
    - apply partition_ids. by rewrite entries_from_ids, msg_record_ids.
    - by rewrite length_entries_from, length_fmap. }
  destruct (page_slice before limit ms S) as (Hp & Hle & Hall). fold fin in Hp, Hle, Hall.
  pose proof (resident_holds h room ms (fin - limit) fin R W) as Hh.
  assert (plan_chunks plan = ResidentHistory.chunk_specs (slice (ResidentHistory.entries h) (fin - limit) fin)
            (plan_at_start plan) target_bytes) as Hc.
  { subst plan. unfold ResidentHistory.history_chunks_before. cbn [plan_chunks plan_at_start]. by rewrite Hfin. }
  split_and!.
  - subst plan. unfold ResidentHistory.history_chunks_before. cbn [plan_message_count]. rewrite Hfin, (holds_length _ _ _ _ Hh), Hp. done.
  - subst plan. unfold ResidentHistory.history_chunks_before. cbn [plan_at_start]. rewrite Hfin. f_equal.
    apply bool_decide_ext. lia.
  - rewrite Hc. rewrite <- Hp.
    apply (specs_delivered h room before (take (fin - limit) (ResidentHistory.entries h)) _
      (drop fin (ResidentHistory.entries h))); [done|done| | |done].
    + rewrite (resident_entries h _ R), entries_from_ids, msg_record_ids. exact S.
    + apply slice_split. lia.
Qed.
