(* ===== verification/RoomLog.v ===== *)
(** * The durable room log

    Models the log files of src/crates/server/src/room_store.rs (framing, loading
    with repair of a torn tail, rotation, the ordered log worker) and the disk
    pages of src/crates/server/src/history_reader.rs.

    A room's files are a [RoomDir]: inodes with their bytes, the name of the
    active log and the names of the rotated segments, which are their first
    message ids.  A [File] is an inode, so that a handle taken before a rotation
    keeps reading the file it was opened on.  Whether a system call succeeds is
    an argument ([LogIo], [WriteOutcome]); a write that fails may leave any part
    of its frame. *)

From Stdlib Require Import Sorting.Sorted.
From stdpp Require Import sorting.
From S2P Require Import Prelude Text Frame History Resident.

(** ** Files *)

Record RoomDir := mkDir {
  inodes : list bytes;
  active_name : option nat;
  segment_names : gmap Z nat;
}.

Definition empty_dir : RoomDir := {| inodes := []; active_name := None; segment_names := ∅ |}.

Definition set_inode (d : RoomDir) (i : nat) (bs : bytes) : RoomDir :=
  {| inodes := <[i := bs]> (inodes d); active_name := active_name d; segment_names := segment_names d |}.

Definition read_inode (d : RoomDir) (i : nat) : bytes := default [] (inodes d !! i).

(** [open_active_log]: opens the active log for appending, creating it. *)
Definition open_active_log (ok : bool) (d : RoomDir) : option (nat * RoomDir) :=
  if ok then
    match active_name d with
    | Some i => Some (i, d)
    | None =>
        Some (length (inodes d),
              {| inodes := inodes d ++ [[]]; active_name := Some (length (inodes d));
                 segment_names := segment_names d |})
    end
  else None.

(** [fs::rename] of the active log to the segment of its first id. *)
Definition rename_active (ok : bool) (d : RoomDir) (first_id : Z) : option RoomDir :=
  if ok then
    i ← active_name d;
    Some {| inodes := inodes d; active_name := None; segment_names := <[first_id := i]> (segment_names d) |}
  else None.

Inductive WriteOutcome := WriteOk | WriteFails (written : nat).

Inductive LogWritten := Written (n : nat) | RecordTooLarge | WriteFailed.

(** The length, then the record: two writes to the end of the file. *)
Definition write_log_record (w : WriteOutcome) (d : RoomDir) (i : nat) (payload : bytes) : RoomDir * LogWritten :=
  if decide (MAX_LOG_RECORD_BYTES < len payload) then (d, RecordTooLarge)
  else
    let frame := le_bytes 4 (len payload) ++ payload in
    match w with
    | WriteOk => (set_inode d i (read_inode d i ++ frame), Written (4 + length payload))
    | WriteFails k => (set_inode d i (read_inode d i ++ take (Nat.min k (length frame - 1)) frame), WriteFailed)
    end.

(** ** Reading a log *)

Record LogRecords := mkRecords { lr_bytes : bytes; lr_offset : nat }.

Module LogRecords.

Definition new (bs : bytes) : LogRecords := {| lr_bytes := bs; lr_offset := 0 |}.
Definition exhausted (r : LogRecords) : bool := bool_decide (lr_offset r = length (lr_bytes r)).

Definition next_record (r : LogRecords) : option (bytes * LogRecords) :=
  if decide (length (lr_bytes r) - lr_offset r < 4)%nat then None
  else
    let n := of_le (slice (lr_bytes r) (lr_offset r) (lr_offset r + 4)) in
    if decide (MAX_LOG_RECORD_BYTES < n) then None
    else
      let n := Z.to_nat n in
      match get_range (lr_bytes r) (Z.of_nat (lr_offset r + 4)) (Z.of_nat (lr_offset r + 4 + n)) with
      | None => None
      | Some payload => Some (payload, {| lr_bytes := lr_bytes r; lr_offset := (lr_offset r + (4 + n))%nat |})
      end.

End LogRecords.

Inductive LogRepair := Truncate | ReadOnly.

Record LoadedLog := mkLoaded {
  loaded_history : ResidentHistory;
  valid_bytes : nat;
  tail_repair_failed : bool;
}.

(** The loop over the records; each takes four bytes or more, so the length of
    the file is fuel enough. *)
Fixpoint load_loop (fuel : nat) (h : ResidentHistory) (r : LogRecords) (offset : nat) : ResidentHistory * nat :=
  match fuel with
  | O => (h, offset)
  | S fuel =>
      match LogRecords.next_record r with
      | None => (h, offset)
      | Some (rec, r) =>
          match ResidentHistory.append_record h rec with
          | Err _ => (h, offset)
          | Ok h => load_loop fuel h r (lr_offset r)
          end
      end
  end.

(** What [fs::read] gave. *)
Inductive FileRead := NotFound | ReadError | Contents (bs : bytes).

(** The log, and the bytes the file is cut to when its tail was repaired. *)
Definition load_log (file : FileRead) (repair : LogRepair) (truncate_ok : bool) : LoadedLog * option nat :=
  let none := ResidentHistory.default in
  match file with
  | NotFound => (mkLoaded none 0 false, None)
  | ReadError => (mkLoaded none 0 (match repair with Truncate => true | ReadOnly => false end), None)
  | Contents bs =>
      let '(h, offset) := load_loop (S (length bs)) none (LogRecords.new bs) 0 in
      if decide (offset < length bs)%nat then
        match repair with
        | Truncate => (mkLoaded h offset (negb truncate_ok), if truncate_ok then Some offset else None)
        | ReadOnly => (mkLoaded h offset false, None)
        end
      else (mkLoaded h offset false, None)
  end.

Definition read_file (d : RoomDir) (name : option nat) : FileRead :=
  match name with
  | None => NotFound
  | Some i => match inodes d !! i with Some bs => Contents bs | None => ReadError end
  end.

(** [list_segments]: the first ids of the rotated segments, ascending. *)
Definition list_segments (d : RoomDir) : list Z := merge_sort Z.le (map_to_list (segment_names d)).*1.

(** ** The worker *)

Inductive ActiveLog := Open (i : nat) | Reopen | Disabled.

Inductive LogFileUpdate := Keep | UpdateOpen (i : nat) | UpdateReopen | UpdateDisabled.

Record RoomLogWrite := mkWrite {
  lw_room_id : Z;
  lw_message_id : Z;
  lw_record : bytes;
  lw_max_active_log_bytes : nat;
  lw_path : bool;
}.

Record RoomLogEvent := mkEvent {
  le_room_id : Z;
  le_message_id : Z;
  le_active_bytes : nat;
  le_active_first_id : option Z;
  le_rotated : option Z;
  le_file : LogFileUpdate;
  le_error : bool;
}.

Record RoomLogWorkerState := mkWorker {
  w_file : ActiveLog;
  needs_read_handle : bool;
  w_active_bytes : nat;
  w_active_first_id : option Z;
}.

(** The outcome of each system call of one turn: opening the log (of a new room,
    or again), cloning the handle, the write, the rename of a rotation, and the
    opening and cloning of the fresh log behind it. *)
Record LogIo := mkIo {
  io_open : bool;
  io_clone : bool;
  io_write : WriteOutcome;
  io_rename : bool;
  io_fresh : bool;
  io_fresh_clone : bool;
}.

Definition set_file (f : ActiveLog) (s : RoomLogWorkerState) : RoomLogWorkerState :=
  {| w_file := f; needs_read_handle := needs_read_handle s; w_active_bytes := w_active_bytes s;
     w_active_first_id := w_active_first_id s |}.
Definition set_needs (b : bool) (s : RoomLogWorkerState) : RoomLogWorkerState :=
  {| w_file := w_file s; needs_read_handle := b; w_active_bytes := w_active_bytes s;
     w_active_first_id := w_active_first_id s |}.
Definition set_active (n : nat) (id : option Z) (s : RoomLogWorkerState) : RoomLogWorkerState :=
  {| w_file := w_file s; needs_read_handle := needs_read_handle s; w_active_bytes := n; w_active_first_id := id |}.

(** Opens the log again after a rotation that could not. *)
Definition worker_reopen (io : LogIo) (d : RoomDir) (s : RoomLogWorkerState) : RoomDir * RoomLogWorkerState * bool :=
  match w_file s with
  | Reopen =>
      match open_active_log (io_open io) d with
      | Some (i, d) => (d, set_needs true (set_file (Open i) s), false)
      | None => (d, s, true)
      end
  | _ => (d, s, false)
  end.

(** Sends the event loop its read handle. *)
Definition worker_handle (io : LogIo) (new_room : bool) (s : RoomLogWorkerState) (error : bool)
    : RoomLogWorkerState * LogFileUpdate * bool :=
  match needs_read_handle s, w_file s with
  | true, Open i =>
      if io_clone io then (set_needs false s, UpdateOpen i, error) else (s, UpdateReopen, true)
  | _, _ => (s, if new_room then UpdateReopen else Keep, error)
  end.

Definition worker_append (io : LogIo) (w : RoomLogWrite) (d : RoomDir) (s : RoomLogWorkerState)
    (update : LogFileUpdate) (error : bool) : RoomDir * RoomLogWorkerState * LogFileUpdate * bool :=
  match w_file s with
  | Open i =>
      match write_log_record (io_write io) d i (lw_record w) with
      | (d, Written n) =>
          let first := if decide (w_active_bytes s = O) then Some (lw_message_id w) else w_active_first_id s in
          (d, set_active (w_active_bytes s + n) first s, update, error)
      | (d, RecordTooLarge) => (d, s, update, true)
      | (d, WriteFailed) => (d, set_file Disabled s, UpdateDisabled, true)
      end
  | _ => (d, s, update, error)
  end.

Definition worker_rotate (io : LogIo) (w : RoomLogWrite) (d : RoomDir) (s : RoomLogWorkerState)
    (update : LogFileUpdate) (error : bool)
    : RoomDir * RoomLogWorkerState * option Z * LogFileUpdate * bool :=
  match w_active_first_id s, w_file s with
  | Some first_id, Open _ =>
      if decide (lw_max_active_log_bytes w < w_active_bytes s)%nat then
        match rename_active (io_rename io) d first_id with
        | None => (d, s, None, update, true)
        | Some d =>
            let s := set_active 0 None s in
            match open_active_log (io_fresh io) d with
            | Some (i, d) =>
                if io_fresh_clone io
                then (d, set_file (Open i) (set_needs false s), Some first_id, UpdateOpen i, error)
                else (d, set_file (Open i) (set_needs true s), Some first_id, UpdateReopen, true)
            | None => (d, set_file Reopen (set_needs true s), Some first_id, UpdateReopen, true)
            end
        end
      else (d, s, None, update, error)
  | _, _ => (d, s, None, update, error)
  end.

(** The turn of the worker for a room it knows. *)
Definition worker_turn (io : LogIo) (w : RoomLogWrite) (new_room : bool) (d : RoomDir) (s : RoomLogWorkerState)
    : RoomDir * RoomLogWorkerState * RoomLogEvent :=
  let '(d, s, error) := worker_reopen io d s in
  let '(s, update, error) := worker_handle io new_room s error in
  let '(d, s, update, error) := worker_append io w d s update error in
  let '(d, s, rotated, update, error) := worker_rotate io w d s update error in
  (d, s, {| le_room_id := lw_room_id w; le_message_id := lw_message_id w; le_active_bytes := w_active_bytes s;
            le_active_first_id := w_active_first_id s; le_rotated := rotated; le_file := update; le_error := error |}).

(** One iteration of [room_log_worker]. *)
Definition room_log_worker (io : LogIo) (rooms : gmap Z RoomLogWorkerState) (disk : gmap Z RoomDir) (w : RoomLogWrite)
    : gmap Z RoomLogWorkerState * gmap Z RoomDir * option RoomLogEvent :=
  let r := lw_room_id w in
  let d := default empty_dir (disk !! r) in
  match rooms !! r with
  | Some s =>
      let '(d, s, e) := worker_turn io w false d s in
      (<[r := s]> rooms, <[r := d]> disk, Some e)
  | None =>
      if lw_path w then
        match open_active_log (io_open io) d with
        | None =>
            (rooms, disk,
             Some {| le_room_id := r; le_message_id := lw_message_id w; le_active_bytes := 0;
                     le_active_first_id := None; le_rotated := None; le_file := UpdateReopen; le_error := true |})
        | Some (i, d) =>
            let s := {| w_file := Open i; needs_read_handle := true; w_active_bytes := 0; w_active_first_id := None |} in
            let '(d, s, e) := worker_turn io w true d s in
            (<[r := s]> rooms, <[r := d]> disk, Some e)
        end
      else (rooms, disk, None)
  end.

(** ** The reader *)

Inductive Source := ActiveTail (i : nat) (valid_bytes : nat) | SegmentFile (first_id : Z).

Record HistoryReadRequest := mkRequest {
  rq_room_id : Z;
  rq_before : option Z;
  rq_limit : nat;
  rq_target_bytes : nat;
  rq_oldest_durable_id : Z;
  rq_sources : list Source;
}.

(** [read_source]: the whole segment, or exactly the bytes that were valid. *)
Definition read_source (d : RoomDir) (s : Source) : option bytes :=
  match s with
  | SegmentFile id => i ← segment_names d !! id; inodes d !! i
  | ActiveTail i n =>
      bs ← inodes d !! i;
      if decide (length bs < n)%nat then None else Some (take n bs)
  end.

Fixpoint scan_loop (fuel : nat) (run : ResidentHistory) (r : LogRecords) (before : Z) : option ResidentHistory :=
  match fuel with
  | O => None
  | S fuel =>
      match LogRecords.next_record r with
      | None => if LogRecords.exhausted r then Some run else None
      | Some (rec, r) =>
          match parse_message rec with
          | Err _ => None
          | Ok m =>
              let id := message_id (ref_message m) in
              if decide (before <= id) then Some run
              else scan_loop fuel (ResidentHistory.append_known_record run id rec) r before
          end
      end
  end.

Definition scan_records_before (bs : bytes) (before : Z) : option ResidentHistory :=
  scan_loop (S (length bs)) ResidentHistory.default (LogRecords.new bs) before.

Definition before_bound (before : option Z) : Z := default (umax 64) before.

(** The loop over the sources, newest first. *)
Fixpoint select_loop (d : RoomDir) (before : Z) (limit : nat) (sources : list Source) (total : nat)
    : list ResidentHistory :=
  match sources with
  | [] => []
  | s :: sources =>
      if decide (limit <= total)%nat then []
      else
        match read_source d s with
        | None => []
        | Some bs =>
            match scan_records_before bs before with
            | None => []
            | Some run =>
                ResidentHistory.trim_to_limit run limit ::
                select_loop d before limit sources (total + ResidentHistory.len run)
            end
        end
  end.

Definition select_records (d : RoomDir) (rq : HistoryReadRequest) : ResidentHistory :=
  let newest_first := select_loop d (before_bound (rq_before rq)) (rq_limit rq) (rq_sources rq) 0 in
  ResidentHistory.trim_to_limit (foldl ResidentHistory.extend ResidentHistory.default (reverse newest_first)) (rq_limit rq).

(** [None] is the panic of a header that cannot fail. *)
Definition empty_chunk (room : Z) (before : option Z) : option bytes :=
  match write_chunk_header room before false true 0 [] with Ok p => Some p | Err _ => None end.

Definition execute (d : RoomDir) (rq : HistoryReadRequest) : option (list bytes) :=
  let selected := select_records d rq in
  let at_start := bool_decide (ResidentHistory.first_message_id selected = Some (rq_oldest_durable_id rq)) in
  match ResidentHistory.chunk_payloads selected (rq_room_id rq) (rq_before rq) at_start (rq_target_bytes rq) with
  | Ok payloads => Some payloads
  | Err _ => p ← empty_chunk (rq_room_id rq) (rq_before rq); Some [p]
  end.

(** ** Frames of messages *)

(** A message whose record the log takes. *)
Definition fits (m : ChatMessage) : Prop := message_wf m /\ len (message_bytes m) <= MAX_LOG_RECORD_BYTES.

Definition log_bytes (ms : list ChatMessage) : bytes := mjoin ((fun m => framed (message_bytes m)) <$> ms).

Lemma room_log_app ms ks : log_bytes (ms ++ ks) = log_bytes ms ++ log_bytes ks.
Proof. unfold log_bytes. by rewrite fmap_app, join_app. Qed.

Lemma log_bytes_cons m ms : log_bytes (m :: ms) = framed (message_bytes m) ++ log_bytes ms.
Proof. done. Qed.

Lemma room_log_one m : log_bytes [m] = framed (message_bytes m).
Proof. unfold log_bytes. cbn. by rewrite app_nil_r. Qed.

Lemma length_framed p : length (framed p) = (4 + length p)%nat.
Proof. unfold framed. by rewrite length_app, length_le_bytes. Qed.

Lemma log_bytes_nil ms : length (log_bytes ms) = O <-> ms = [].
Proof.
  destruct ms as [|m ms]; [done|]. rewrite log_bytes_cons, length_app, length_framed. split; [lia|done].
Qed.

Lemma length_log_bytes ms : (length ms <= length (log_bytes ms))%nat.
Proof.
  induction ms as [|m ms IH]; [cbn; lia|]. rewrite log_bytes_cons, length_app, length_framed. cbn [length]. lia.
Qed.

(** Reading at a place inside the file. *)
Definition records_at (pre rest : bytes) : LogRecords := {| lr_bytes := pre ++ rest; lr_offset := length pre |}.

Lemma next_record_at pre rec rest :
  len rec <= MAX_LOG_RECORD_BYTES ->
  LogRecords.next_record (records_at pre (framed rec ++ rest)) = Some (rec, records_at (pre ++ framed rec) rest).
Proof.
  intros Hle. unfold LogRecords.next_record, records_at. cbn [lr_bytes lr_offset].
  rewrite decide_False by (rewrite !length_app, length_framed; lia).
  assert (of_le (slice (pre ++ framed rec ++ rest) (length pre) (length pre + 4)) = len rec) as ->.
  { unfold framed. rewrite <- (assoc_L (++)). rewrite (slice_mid pre (le_bytes 4 (len rec))) by (rewrite ?length_le_bytes; lia).
    apply (of_le_le_bytes 4). unfold is_u, MAX_LOG_RECORD_BYTES in *. pose proof (len_nonneg rec). lia. }
  rewrite decide_False by lia.
  assert (pre ++ framed rec ++ rest = (pre ++ le_bytes 4 (len rec)) ++ rec ++ rest) as ->
    by (unfold framed; by rewrite <- !(assoc_L (++))).
  rewrite get_range_mid by (unfold len; rewrite ?length_app, ?length_le_bytes; lia).
  f_equal. f_equal. unfold framed. rewrite <- !(assoc_L (++)). f_equal.
  rewrite !length_app, length_le_bytes. unfold len. lia.
Qed.

(** A tail that ends inside a frame. *)
Definition torn (tail : bytes) : Prop :=
  exists rec k, len rec <= MAX_LOG_RECORD_BYTES /\ (k < length (framed rec))%nat /\ tail = take k (framed rec).

Lemma torn_nil : torn [].
Proof. exists [], O. rewrite length_framed. split_and!; [done|lia|done]. Qed.

Lemma next_record_torn pre tail : torn tail -> LogRecords.next_record (records_at pre tail) = None.
Proof.
  intros (rec & k & Hle & Hk & ->). unfold LogRecords.next_record, records_at. cbn [lr_bytes lr_offset].
  rewrite length_app, length_take. case_decide; [done|]. rewrite length_framed in *.
  assert (take k (framed rec) = le_bytes 4 (len rec) ++ take (k - 4) rec) as ->.
  { unfold framed. rewrite take_app, length_le_bytes, take_ge by (rewrite length_le_bytes; lia). done. }
  rewrite (slice_mid pre (le_bytes 4 (len rec))) by (rewrite ?length_le_bytes; lia).
  rewrite (of_le_le_bytes 4) by (unfold is_u, MAX_LOG_RECORD_BYTES in *; pose proof (len_nonneg rec); lia).
  rewrite decide_False by lia. unfold get_range. rewrite decide_False; [done|].
  rewrite !len_app. unfold len in *. rewrite length_le_bytes, length_take. lia.
Qed.

Lemma fits_parse m : fits m -> parse_message (message_bytes m) = Ok {| ref_message := m; raw := message_bytes m |}.
Proof. intros [W _]. by apply parse_message_bytes. Qed.

Lemma load_loop_log fuel h l pre ms tail :
  (length ms < fuel)%nat -> resident h l -> Forall fits ms -> torn tail ->
  exists h', load_loop fuel h (records_at pre (log_bytes ms ++ tail)) (length pre) =
    (h', length (pre ++ log_bytes ms)) /\ resident h' (l ++ (msg_record <$> ms)).
Proof.
  intros Hf R W Ht. revert fuel h l pre Hf R. induction W as [|m ms [Wm Hm] W IH]; intros fuel h l pre Hf R.
  - exists h. rewrite !app_nil_r. destruct fuel; cbn [load_loop app]; [done|]. by rewrite next_record_torn.
  - destruct fuel as [|fuel]; [cbn in Hf; lia|]. cbn [load_loop]. rewrite log_bytes_cons, <- (assoc_L (++)).
    rewrite next_record_at by done. unfold ResidentHistory.append_record. rewrite fits_parse by done. run_result.
    cbn [ref_message]. change (lr_offset (records_at ?p _)) with (length p).
    destruct (IH fuel _ _ (pre ++ framed (message_bytes m)) ltac:(cbn in Hf; lia)
      (append_known_resident h l (message_id m) (message_bytes m) R)) as (h' & -> & R').
    exists h'. rewrite <- !(assoc_L (++)) in *. by split.
Qed.

(** A log that ends in the middle of a frame loads as its messages. *)
Lemma load_log_contents ms tail repair ok :
  Forall fits ms -> torn tail ->
  exists h, load_log (Contents (log_bytes ms ++ tail)) repair ok =
    (mkLoaded h (length (log_bytes ms)) (match repair with Truncate => negb ok && bool_decide (tail <> []) | ReadOnly => false end),
     if decide (tail <> []) then match repair with Truncate => if ok then Some (length (log_bytes ms)) else None | ReadOnly => None end
     else None) /\
    resident h (msg_record <$> ms).
Proof.
  intros W Ht. unfold load_log.
  destruct (load_loop_log (S (length (log_bytes ms ++ tail))) ResidentHistory.default [] [] ms tail) as (h & E & R);
    [rewrite length_app; pose proof (length_log_bytes ms); lia|apply resident_default|done|done|].
  exists h. split; [|exact R]. unfold records_at in E. cbn [app length] in E. unfold LogRecords.new. rewrite E.
  rewrite length_app. destruct tail as [|b tail].
  - rewrite decide_False by (cbn; lia). destruct repair; [|done]. cbn. by rewrite andb_false_r.
  - rewrite decide_True by (cbn; lia). rewrite decide_True by done. destruct repair; [|done]. cbn. by rewrite andb_true_r.
Qed.

Lemma scan_loop_log fuel h l pre ms before :
  (length ms < fuel)%nat -> resident h l -> Forall fits ms -> ascending ms ->
  exists h', scan_loop fuel h (records_at pre (log_bytes ms)) before = Some h' /\
    resident h' (l ++ (msg_record <$> filter (fun m => message_id m < before) ms)).
Proof.
  intros Hf R W S. revert fuel h l pre Hf R. induction W as [|m ms [Wm Hm] W IH]; intros fuel h l pre Hf R.
  - exists h. rewrite app_nil_r. destruct fuel; [cbn in Hf; lia|]. cbn [scan_loop]. unfold log_bytes. cbn [fmap list_fmap mjoin list_join].
    rewrite next_record_torn by apply torn_nil. unfold LogRecords.exhausted, records_at. cbn [lr_bytes lr_offset].
    rewrite app_nil_r, bool_decide_true by done. done.
  - destruct fuel as [|fuel]; [cbn in Hf; lia|]. cbn [scan_loop]. rewrite log_bytes_cons, next_record_at by done.
    rewrite fits_parse by done. cbn [ref_message]. unfold ascending in S. rewrite fmap_cons in S.
    apply StronglySorted_inv in S as [S Hlt]. destruct (decide (before <= message_id m)) as [Hge|Hlt'].
    + exists h. rewrite filter_none; [by rewrite app_nil_r|]. rewrite Forall_fmap in Hlt. apply Forall_cons. split; [lia|].
      eapply Forall_impl; [exact Hlt|]. cbn. lia.
    + rewrite filter_cons_True by lia. rewrite fmap_cons.
      destruct (IH S fuel _ _ (pre ++ framed (message_bytes m)) ltac:(cbn in Hf; lia)
        (append_known_resident h l (message_id m) (message_bytes m) R)) as (h' & -> & R').
      exists h'. rewrite <- (assoc_L (++)) in R'. by split.
Qed.

Lemma scan_records_log ms before :
  Forall fits ms -> ascending ms ->
  exists h, scan_records_before (log_bytes ms) before = Some h /\
    resident h (msg_record <$> filter (fun m => message_id m < before) ms).
Proof.
  intros W S. apply (scan_loop_log _ _ [] [] ms before); [|apply resident_default|done|done].
  pose proof (length_log_bytes ms). lia.
Qed.

(** ** The invariant of a room's files *)

Definition first_id_of (ms : list ChatMessage) : option Z := message_id <$> head ms.

(** A rotated segment on disk. *)
Definition seg_ok (d : RoomDir) (seg : list ChatMessage) : Prop :=
  exists id i, first_id_of seg = Some id /\ segment_names d !! id = Some i /\ inodes d !! i = Some (log_bytes seg).

(** No segment is the file of this inode. *)
Definition unshared (d : RoomDir) (i : nat) : Prop := forall k, segment_names d !! k <> Some i.

(** The active log holds [act]; behind it there may be part of a frame. *)
Definition active_holds (d : RoomDir) (i : nat) (act : list ChatMessage) (tail : bytes) : Prop :=
  active_name d = Some i /\ inodes d !! i = Some (log_bytes act ++ tail) /\ unshared d i.

(** The files hold the messages of the segments and of the active log, in order. *)
Record log_ok (d : RoomDir) (segs : list (list ChatMessage)) (act : list ChatMessage) : Prop := {
  lo_fits : Forall fits (mjoin segs ++ act);
  lo_ascending : ascending (mjoin segs ++ act);
  lo_segs : Forall (seg_ok d) segs;
  lo_names : forall k i, segment_names d !! k = Some i -> exists seg, seg ∈ segs /\ first_id_of seg = Some k;
}.

Record worker_ok (d : RoomDir) (s : RoomLogWorkerState) (segs : list (list ChatMessage)) (act : list ChatMessage) : Prop := {
  wo_log : log_ok d segs act;
  wo_file : match w_file s with
            | Open i => active_holds d i act []
            | Reopen => active_name d = None /\ act = []
            | Disabled => exists i tail, active_holds d i act tail /\ torn tail
            end;
  wo_bytes : w_active_bytes s = length (log_bytes act);
  wo_first : w_active_first_id s = first_id_of act;
}.

(** What later operations do to the files: they append, and leave segments alone. *)
Definition dir_extends (d d' : RoomDir) : Prop :=
  (forall i bs, inodes d !! i = Some bs -> exists more, inodes d' !! i = Some (bs ++ more)) /\
  (forall k i bs, segment_names d !! k = Some i -> inodes d !! i = Some bs ->
    segment_names d' !! k = Some i /\ inodes d' !! i = Some bs).

#[export] Instance dir_extends_preorder : PreOrder dir_extends.
Proof.
  split.
  - intros d. split; [|naive_solver]. intros i bs H. exists []. by rewrite app_nil_r.
  - intros d1 d2 d3 [A1 B1] [A2 B2]. split.
    + intros i bs H. destruct (A1 i bs H) as [m1 H1], (A2 _ _ H1) as [m2 H2]. exists (m1 ++ m2). by rewrite (assoc_L (++)).
    + intros k i bs H1 H2. destruct (B1 k i bs H1 H2). by apply B2.
Qed.

Lemma seg_ok_extends d d' seg : dir_extends d d' -> seg_ok d seg -> seg_ok d' seg.
Proof. intros [_ B] (id & i & H1 & H2 & H3). exists id, i. split; [done|]. by apply (B _ _ _ H2). Qed.

Lemma segs_extend d d' segs : dir_extends d d' -> Forall (seg_ok d) segs -> Forall (seg_ok d') segs.
Proof. intros Hd H. eapply Forall_impl; [exact H|]. intros seg. by apply seg_ok_extends. Qed.

(** A segment is a file that exists. *)
Lemma name_exists d segs act k i :
  log_ok d segs act -> segment_names d !! k = Some i -> exists bs, inodes d !! i = Some bs.
Proof.
  intros L Hk. destruct (lo_names _ _ _ L k i Hk) as (seg & Hin & Hf).
  pose proof (lo_segs _ _ _ L) as Hs. rewrite Forall_forall in Hs. destruct (Hs seg Hin) as (id & j & E1 & E2 & E3).
  rewrite Hf in E1. injection E1 as <-. rewrite Hk in E2. injection E2 as <-. eauto.
Qed.

(** Appending to the active file. *)
Lemma set_inode_extends d i bs more :
  inodes d !! i = Some bs -> unshared d i -> dir_extends d (set_inode d i (bs ++ more)).
Proof.
  intros Hi Hu. split; unfold set_inode; cbn [inodes segment_names].
  - intros j b Hj. destruct (decide (j = i)) as [->|Hne].
    + rewrite Hi in Hj. injection Hj as <-. exists more. rewrite list_lookup_insert_eq; [done|]. by eapply lookup_lt_Some.
    + exists []. by rewrite list_lookup_insert_ne, app_nil_r.
  - intros k j b Hk Hj. split; [done|]. rewrite list_lookup_insert_ne; [done|]. intros ->. by apply (Hu k).
Qed.

(** Opening the active log. *)
Lemma open_active_extends ok d i d' :
  open_active_log ok d = Some (i, d') -> dir_extends d d' /\ segment_names d' = segment_names d.
Proof.
  unfold open_active_log. destruct ok; [|done]. destruct (active_name d) as [j|].
  - intros [= -> ->]. split; [reflexivity|done].
  - intros [= <- <-]. split; [|done]. split; cbn [inodes segment_names].
    + intros i bs H. exists []. rewrite app_nil_r. by apply lookup_app_l_Some.
    + intros k i bs H1 H. split; [done|]. by apply lookup_app_l_Some.
Qed.

Lemma open_fresh d segs act i d' ok :
  log_ok d segs act -> active_name d = None -> open_active_log ok d = Some (i, d') ->
  active_holds d' i [] [] .
Proof.
  intros L Hn. unfold open_active_log. destruct ok; [|done]. rewrite Hn. intros [= <- <-].
  split; [done|]. cbn [inodes segment_names]. split.
  - by rewrite lookup_app_r, Nat.sub_diag by lia.
  - intros k Hk. destruct (name_exists d segs act k _ L Hk) as [bs Hb]. apply lookup_lt_Some in Hb. lia.
Qed.

Lemma log_ok_extends d d' segs act :
  dir_extends d d' -> segment_names d' = segment_names d -> log_ok d segs act -> log_ok d' segs act.
Proof.
  intros Hd Hn [F A S N]. constructor; [done|done|by eapply segs_extend|]. intros k i. rewrite Hn. apply N.
Qed.

(** ** The turn of the worker keeps the invariant *)

Lemma ascending_app_lt a b x y : ascending (a ++ b) -> x ∈ a -> y ∈ b -> message_id x < message_id y.
Proof.
  intros S Hx Hy. unfold ascending in S. rewrite fmap_app in S.
  eapply StronglySorted_app_1_elem_of; [exact S|by apply list_elem_of_fmap_2|by apply list_elem_of_fmap_2].
Qed.

Lemma ascending_snoc ms m :
  ascending ms -> Forall (fun x => message_id x < message_id m) ms -> ascending (ms ++ [m]).
Proof.
  unfold ascending. intros S F. induction ms as [|x ms IH]; cbn [app]; rewrite ?fmap_cons in *.
  - repeat constructor.
  - apply StronglySorted_inv in S as [S Hx]. apply Forall_cons in F as [F1 F]. constructor; [by apply IH|].
    rewrite Forall_fmap in *. apply Forall_app. split; [done|by apply Forall_singleton].
Qed.

Lemma first_id_of_head ms id : first_id_of ms = Some id -> exists m, m ∈ ms /\ message_id m = id.
Proof. destruct ms as [|m ms]; [done|]. intros [= <-]. exists m. split; [left|done]. Qed.

(** The first id of the active log names no segment yet. *)
Lemma active_name_new d segs act id :
  log_ok d segs act -> first_id_of act = Some id -> segment_names d !! id = None.
Proof.
  intros L Hf. destruct (segment_names d !! id) as [i|] eqn:E; [|done]. exfalso.
  destruct (lo_names _ _ _ L id i E) as (seg & Hin & Hs).
  destruct (first_id_of_head _ _ Hf) as (m & Hm & Em), (first_id_of_head _ _ Hs) as (x & Hx & Ex).
  assert (message_id x < message_id m); [|lia].
  eapply ascending_app_lt; [apply (lo_ascending _ _ _ L)| |done]. apply list_elem_of_join. eauto.
Qed.

Definition is_open (f : ActiveLog) : bool := match f with Open _ => true | _ => false end.

Lemma worker_reopen_ok io d s segs act d' s' e :
  worker_ok d s segs act -> worker_reopen io d s = (d', s', e) ->
  worker_ok d' s' segs act /\ dir_extends d d' /\
  is_open (w_file s') = match w_file s with Open _ => true | Reopen => io_open io | Disabled => false end.
Proof.
  intros W. unfold worker_reopen. destruct (w_file s) as [i| |] eqn:Ef.
  - intros [= <- <- <-]. rewrite Ef. split_and!; [done|reflexivity|done].
  - pose proof (wo_file _ _ _ _ W) as F. rewrite Ef in F. destruct F as [Hn ->].
    destruct (open_active_log _ d) as [[i d1]|] eqn:E.
    + intros [= <- <- <-]. destruct (open_active_extends _ _ _ _ E) as [Hd Hs].
      pose proof (open_fresh _ _ _ _ _ _ (wo_log _ _ _ _ W) Hn E) as Ha.
      split_and!; [|done|cbn; by destruct (io_open io)].
      constructor; cbn [set_needs set_file w_file w_active_bytes w_active_first_id]; [|done|apply W|apply W].
      eapply log_ok_extends; [done|done|apply W].
    + intros [= <- <- <-]. rewrite Ef. split_and!; [done|reflexivity|]. cbn.
      unfold open_active_log in E. destruct (io_open io); [by destruct (active_name d)|done].
  - intros [= <- <- <-]. rewrite Ef. split_and!; [done|reflexivity|done].
Qed.

Lemma worker_ok_needs d s segs act b : worker_ok d s segs act -> worker_ok d (set_needs b s) segs act.
Proof. intros [L F B H]. by constructor. Qed.

Lemma worker_handle_ok io new_room d s segs act e s' u e' :
  worker_ok d s segs act -> worker_handle io new_room s e = (s', u, e') ->
  worker_ok d s' segs act /\ w_file s' = w_file s.
Proof.
  intros W. unfold worker_handle. intros H. split_ifs; split; try done; by apply worker_ok_needs.
Qed.

(** Whether a turn appends its record. *)
Definition write_succeeds (io : LogIo) (rec : bytes) : bool :=
  bool_decide (len rec <= MAX_LOG_RECORD_BYTES) && match io_write io with WriteOk => true | _ => false end.

Definition appended (b : bool) (m : ChatMessage) : list ChatMessage := if b then [m] else [].

(** The write asks for the record of a message newer than the log. *)
Record write_of (w : RoomLogWrite) (m : ChatMessage) (log : list ChatMessage) : Prop := {
  wr_record : lw_record w = message_bytes m;
  wr_id : lw_message_id w = message_id m;
  wr_wf : message_wf m;
  wr_newer : Forall (fun x => message_id x < message_id m) log;
}.

Lemma log_ok_snoc d segs act m :
  log_ok d segs act -> fits m -> Forall (fun x => message_id x < message_id m) (mjoin segs ++ act) ->
  log_ok d segs (act ++ [m]).
Proof.
  intros [F A S N] Hm Hlt. constructor; rewrite ?(assoc_L (++)); [|by apply ascending_snoc|done|done].
  apply Forall_app. split; [done|by apply Forall_singleton].
Qed.

Lemma worker_append_ok io w m d s segs act u e d' s' u' e' :
  worker_ok d s segs act -> write_of w m (mjoin segs ++ act) ->
  worker_append io w d s u e = (d', s', u', e') ->
  worker_ok d' s' segs (act ++ appended (is_open (w_file s) && write_succeeds io (lw_record w)) m) /\
  dir_extends d d' /\ segment_names d' = segment_names d.
Proof.
  intros W Wr. unfold worker_append. destruct (w_file s) as [i| |] eqn:Ef.
  2,3: intros [= <- <- <- <-]; cbn; rewrite app_nil_r; split_and!; [done|reflexivity|done].
  pose proof (wo_file _ _ _ _ W) as F. rewrite Ef in F. destruct F as (Hn & Hi & Hu). rewrite app_nil_r in Hi.
  cbn [is_open andb]. unfold write_succeeds, write_log_record. rewrite (wr_record _ _ _ Wr).
  unfold read_inode. rewrite Hi. cbn [default]. destruct (decide (MAX_LOG_RECORD_BYTES < _)) as [Hbig|Hfit].
  { intros [= <- <- <- <-]. rewrite bool_decide_false by lia. cbn. rewrite app_nil_r. split_and!; [done|reflexivity|done]. }
  rewrite bool_decide_true by lia. cbn [andb]. fold (framed (message_bytes m)).
  destruct (io_write io) as [|k]; intros [= <- <- <- <-]; cbn [appended].
  - pose proof (set_inode_extends d i _ (framed (message_bytes m)) Hi Hu) as Hd. split_and!; [|done|done].
    pose proof (log_ok_extends _ _ _ _ Hd eq_refl (wo_log _ _ _ _ W)) as L.
    constructor; cbn [set_active w_file w_active_bytes w_active_first_id].
    + apply log_ok_snoc; [done|split; [apply Wr|lia]|apply Wr].
    + rewrite Ef. split; [done|]. split; [|done]. cbn [set_inode inodes].
      rewrite list_lookup_insert_eq by (by eapply lookup_lt_Some).
      by rewrite room_log_app, room_log_one, app_nil_r.
    + rewrite (wo_bytes _ _ _ _ W), room_log_app, room_log_one, (length_app (log_bytes act)), length_framed. lia.
    + rewrite (wo_bytes _ _ _ _ W), (wo_first _ _ _ _ W), (wr_id _ _ _ Wr). case_decide as Hz.
      * apply log_bytes_nil in Hz as ->. done.
      * destruct act; [|done]. by destruct Hz.
  - rewrite app_nil_r. set (tail := take _ _).
    pose proof (set_inode_extends d i _ tail Hi Hu) as Hd. split_and!; [|done|done].
    constructor; cbn [set_file w_file w_active_bytes w_active_first_id]; [|exists i, tail|apply W|apply W].
    + eapply log_ok_extends; [done|done|apply W].
    + split.
      * split; [done|]. split; [|done]. cbn [set_inode inodes]. by rewrite list_lookup_insert_eq by (by eapply lookup_lt_Some).
      * exists (message_bytes m), (Nat.min k (length (framed (message_bytes m)) - 1)).
        pose proof (length_framed (message_bytes m)). split_and!; [lia|lia|done].
Qed.

(** The active log becomes a segment. *)
Lemma rename_ok ok d segs act i id d' :
  log_ok d segs act -> active_holds d i act [] -> first_id_of act = Some id -> rename_active ok d id = Some d' ->
  log_ok d' (segs ++ [act]) [] /\ active_name d' = None /\ dir_extends d d'.
Proof.
  intros L (Hn & Hi & Hu) Hf. rewrite app_nil_r in Hi. unfold rename_active. destruct ok; [|done]. rewrite Hn. intros [= <-].
  pose proof (active_name_new d segs act id L Hf) as Hnew.
  assert (dir_extends d (mkDir (inodes d) None (<[id := i]> (segment_names d)))) as Hd.
  { split; cbn [inodes segment_names].
    - intros j bs Hj. exists []. by rewrite app_nil_r.
    - intros k j bs Hk Hj. split; [|done]. rewrite lookup_insert_ne; [done|]. intros <-. by rewrite Hnew in Hk. }
  split_and!; [|done|done]. destruct L as [F A S N].
  assert (mjoin (segs ++ [act]) ++ [] = mjoin segs ++ act) as E by (rewrite join_app; cbn; by rewrite !app_nil_r).
  constructor; [by rewrite E|by rewrite E| |].
  - apply Forall_app. split; [by eapply segs_extend|]. apply Forall_singleton. exists id, i. cbn [segment_names inodes].
    by rewrite lookup_insert_eq.
  - intros k j. cbn [segment_names]. destruct (decide (k = id)) as [->|Hne].
    + intros _. exists act. split; [|done]. apply elem_of_app. right. by apply list_elem_of_singleton.
    + rewrite lookup_insert_ne by done. intros Hk. destruct (N k j Hk) as (seg & Hin & ?). exists seg.
      split; [|done]. apply elem_of_app. by left.
Qed.

Lemma worker_rotate_ok io w d s segs act u e d' s' rot u' e' :
  worker_ok d s segs act -> worker_rotate io w d s u e = (d', s', rot, u', e') ->
  exists segs' act', worker_ok d' s' segs' act' /\ mjoin segs' ++ act' = mjoin segs ++ act /\ dir_extends d d' /\
    match rot with
    | None => segs' = segs /\ act' = act /\ s' = s /\ u' = u /\ d' = d
    | Some id => first_id_of act = Some id /\ segs' = segs ++ [act] /\ act' = []
    end.
Proof.
  intros W. unfold worker_rotate. rewrite (wo_first _ _ _ _ W).
  assert (exists segs' act', worker_ok d s segs' act' /\ mjoin segs' ++ act' = mjoin segs ++ act /\ dir_extends d d /\
    segs' = segs /\ act' = act /\ s = s /\ u = u /\ d = d) as Hsame by (exists segs, act; split_and!; done || reflexivity).
  destruct (first_id_of act) as [id|] eqn:Hf; [|by intros [= <- <- <- <- <-]].
  destruct (w_file s) as [i| |] eqn:Ef; [|by intros [= <- <- <- <- <-]..].
  destruct (decide (_ < _)%nat); [|by intros [= <- <- <- <- <-]].
  pose proof (wo_file _ _ _ _ W) as F. rewrite Ef in F.
  destruct (rename_active _ d id) as [d1|] eqn:Er; [|by intros [= <- <- <- <- <-]].
  destruct (rename_ok _ _ _ _ _ _ _ (wo_log _ _ _ _ W) F Hf Er) as (L1 & Hn & Hd1).
  assert (mjoin (segs ++ [act]) ++ [] = mjoin segs ++ act) as E by (rewrite join_app; cbn; by rewrite !app_nil_r).
  destruct (open_active_log _ d1) as [[j d2]|] eqn:Eo.
  - destruct (open_active_extends _ _ _ _ Eo) as [Hd2 Hs2]. pose proof (open_fresh _ _ _ _ _ _ L1 Hn Eo) as Ha.
    assert (forall b, worker_ok d2 (set_file (Open j) (set_needs b (set_active 0 None s))) (segs ++ [act]) []) as W2.
    { intros b. constructor; [by eapply log_ok_extends|done|done|done]. }
    destruct (io_fresh_clone io); intros [= <- <- <- <- <-]; exists (segs ++ [act]), [];
      (split_and!; [apply W2|done|by etrans|done|done|done]).
  - intros [= <- <- <- <- <-]. exists (segs ++ [act]), []. split_and!; [|done|done|done|done|done]. by constructor.
Qed.

(** Whether the turn appends, from the state it starts in. *)
Definition worker_appends (io : LogIo) (s : RoomLogWorkerState) (rec : bytes) : bool :=
  match w_file s with Open _ => true | Reopen => io_open io | Disabled => false end && write_succeeds io rec.

Lemma worker_turn_ok io w m new_room d s segs act d' s' e :
  worker_ok d s segs act -> write_of w m (mjoin segs ++ act) ->
  worker_turn io w new_room d s = (d', s', e) ->
  exists segs' act', worker_ok d' s' segs' act' /\ dir_extends d d' /\
    mjoin segs' ++ act' = mjoin segs ++ act ++ appended (worker_appends io s (lw_record w)) m.
Proof.
  intros W Wr. unfold worker_turn.
  destruct (worker_reopen io d s) as [[d1 s1] e1] eqn:E1.
  destruct (worker_reopen_ok _ _ _ _ _ _ _ _ W E1) as (W1 & Hd1 & Ho).
  destruct (worker_handle io new_room s1 e1) as [[s2 u2] e2] eqn:E2.
  destruct (worker_handle_ok _ _ _ _ _ _ _ _ _ _ W1 E2) as (W2 & Hf).
  destruct (worker_append io w d1 s2 u2 e2) as [[[d3 s3] u3] e3] eqn:E3.
  destruct (worker_append_ok _ _ _ _ _ _ _ _ _ _ _ _ _ W2 Wr E3) as (W3 & Hd3 & _).
  destruct (worker_rotate io w d3 s3 u3 e3) as [[[[d4 s4] rot] u4] e4] eqn:E4.
  destruct (worker_rotate_ok _ _ _ _ _ _ _ _ _ _ _ _ _ W3 E4) as (segs' & act' & W4 & Hj & Hd4 & _).
  intros [= <- <- <-]. exists segs', act'. split; [done|]. split; [by etrans; [|etrans]|].
  rewrite Hj. unfold worker_appends. by rewrite Hf, Ho.
Qed.
