(* ===== verification/RoomState.v ===== *)
(** * Durable room state

    Models src/crates/server/src/room_state.rs: the tables of the room-state
    database, the submissions that coalesce until the writer takes them, and one
    turn of the writer thread.  The database engine (redb) is not part of the
    sources: its tables are finite maps, and a transaction commits as a whole or
    leaves them as they were. *)

From S2P Require Import Prelude.

Definition FIRST_DYNAMIC_ROOM_ID : Z := 2147483648.
Definition SCHEMA_VERSION : Z := 1.
Definition DM_ROOM_BYTES : nat := 24.

Record DmRoom := mkDm { dm_room_id : Z; user_a : Z; user_b : Z; created_at_ms : Z }.

#[export] Instance DmRoom_eq_dec : EqDecision DmRoom.
Proof. solve_decision. Defined.

Definition pairs (dm : DmRoom) (first second : Z) : bool :=
  bool_decide (user_a dm = first /\ user_b dm = second) || bool_decide (user_a dm = second /\ user_b dm = first).

Record Database := mkDb {
  schema_version : option Z;
  next_room_id_value : option Z;
  watermark_table : gmap Z Z;
  dm_table : gmap Z bytes;
}.

Definition new_database : Database :=
  {| schema_version := None; next_room_id_value := None; watermark_table := ∅; dm_table := ∅ |}.

Record LoadedState := mkState {
  st_next_room_id : Z;
  st_watermarks : list (Z * Z);
  st_dm_rooms : list DmRoom;
}.

Definition default_state : LoadedState :=
  {| st_next_room_id := FIRST_DYNAMIC_ROOM_ID; st_watermarks := []; st_dm_rooms := [] |}.

Inductive StateError :=
| UnsupportedSchema
| NextRoomTooLarge
| CorruptDmLength
| IdenticalParticipants
| DmConflict
| StorageFailed
| WriterClosed.

(** A commit the engine performs, or a storage error of any of its calls. *)
Definition initialize_schema (ok : bool) (db : Database) : result StateError Database :=
  if negb ok then Err StorageFailed
  else
    match schema_version db with
    | Some v => if decide (v = SCHEMA_VERSION) then Ok db else Err UnsupportedSchema
    | None =>
        Ok {| schema_version := Some SCHEMA_VERSION; next_room_id_value := Some FIRST_DYNAMIC_ROOM_ID;
              watermark_table := watermark_table db; dm_table := dm_table db |}
    end.

Definition encode_dm (room : DmRoom) : bytes :=
  le_bytes 8 (user_a room) ++ le_bytes 8 (user_b room) ++ le_bytes 8 (created_at_ms room).

Definition decode_dm (room_id : Z) (bs : bytes) : result StateError DmRoom :=
  if decide (length bs <> DM_ROOM_BYTES) then Err CorruptDmLength
  else
    let a := of_le (slice bs 0 8) in
    let b := of_le (slice bs 8 16) in
    if decide (a = b) then Err IdenticalParticipants
    else Ok {| dm_room_id := room_id; user_a := a; user_b := b; created_at_ms := of_le (slice bs 16 24) |}.

Fixpoint decode_dms (l : list (Z * bytes)) : result StateError (list DmRoom) :=
  match l with
  | [] => Ok []
  | (room_id, bs) :: l => dm ← decode_dm room_id bs; rest ← decode_dms l; Ok (dm :: rest)
  end.

Definition stored_next (db : Database) : Z := default FIRST_DYNAMIC_ROOM_ID (next_room_id_value db).

Definition load (db : Database) : result StateError LoadedState :=
  if decide (stored_next db < 2 ^ 32) then
    dms ← decode_dms (map_to_list (dm_table db));
    Ok {| st_next_room_id := stored_next db; st_watermarks := map_to_list (watermark_table db); st_dm_rooms := dms |}
  else Err NextRoomTooLarge.

(** [open]: the schema, then what the tables hold; the writer thread is spawned
    with nothing pending. *)
Definition open_state (ok : bool) (db : Database) : result StateError (LoadedState * Database) :=
  db ← initialize_schema ok db; state ← load db; Ok (state, db).

(** ** Submissions *)

Record DmInsert := mkInsert { insert_room : DmRoom; insert_next_room_id : Z }.

(** A waiter is a caller that blocks, or the id of an operation whose completion
    becomes an event. *)
Inductive StateWriteWaiter := SyncWaiter | EventWaiter (operation_id : Z).

Record PendingWrite := mkPending {
  pw_watermarks : gmap Z Z;
  pw_dm_inserts : list DmInsert;
  pw_waiters : list StateWriteWaiter;
  pw_closed : bool;
}.

Definition no_pending : PendingWrite :=
  {| pw_watermarks := ∅; pw_dm_inserts := []; pw_waiters := []; pw_closed := false |}.

Module StateWriteSubmission.

Definition is_empty (p : PendingWrite) : bool :=
  bool_decide (pw_watermarks p = ∅) && bool_decide (length (pw_dm_inserts p) = O).

Definition submit_watermark (p : PendingWrite) (room_id next : Z) : result StateError PendingWrite :=
  if pw_closed p then Err WriterClosed
  else
    let queued := match pw_watermarks p !! room_id with Some queued => Z.max queued next | None => next end in
    Ok {| pw_watermarks := <[room_id := queued]> (pw_watermarks p); pw_dm_inserts := pw_dm_inserts p;
          pw_waiters := pw_waiters p; pw_closed := false |}.

Definition submit_dm (p : PendingWrite) (insert : DmInsert) (waiter : StateWriteWaiter)
    : result StateError PendingWrite :=
  if pw_closed p then Err WriterClosed
  else Ok {| pw_watermarks := pw_watermarks p; pw_dm_inserts := pw_dm_inserts p ++ [insert];
             pw_waiters := pw_waiters p ++ [waiter]; pw_closed := false |}.

(** What the writer takes, and what is left; [None] while there is nothing. *)
Definition receive (p : PendingWrite) : option (PendingWrite * PendingWrite) :=
  if is_empty p then None
  else Some ({| pw_watermarks := pw_watermarks p; pw_dm_inserts := pw_dm_inserts p; pw_waiters := pw_waiters p;
                pw_closed := false |},
             {| pw_watermarks := ∅; pw_dm_inserts := []; pw_waiters := []; pw_closed := pw_closed p |}).

Definition close (p : PendingWrite) : PendingWrite :=
  {| pw_watermarks := pw_watermarks p; pw_dm_inserts := pw_dm_inserts p; pw_waiters := pw_waiters p; pw_closed := true |}.

Definition terminate (p : PendingWrite) : PendingWrite * list StateWriteWaiter :=
  ({| pw_watermarks := ∅; pw_dm_inserts := []; pw_waiters := []; pw_closed := true |}, pw_waiters p).

End StateWriteSubmission.

(** ** The writer *)

Definition put_watermark (room_id next : Z) (table : gmap Z Z) : gmap Z Z :=
  let stored := default 0 (table !! room_id) in
  if decide (stored < next) then <[room_id := next]> table else table.

Definition insert_dm (db : Database) (insert : DmInsert) : result StateError Database :=
  let room := insert_room insert in
  rooms ←
    match dm_table db !! dm_room_id room with
    | Some bs =>
        match decode_dm (dm_room_id room) bs with
        | Err e => Err e
        | Ok existing => if decide (existing <> room) then Err DmConflict else Ok (dm_table db)
        end
    | None => Ok (<[dm_room_id room := encode_dm room]> (dm_table db))
    end;
  Ok {| schema_version := schema_version db;
        next_room_id_value := Some (Z.max (stored_next db) (insert_next_room_id insert));
        watermark_table := watermark_table db; dm_table := rooms |}.

Fixpoint insert_dms (db : Database) (l : list DmInsert) : result StateError Database :=
  match l with
  | [] => Ok db
  | insert :: l => db ← insert_dm db insert; insert_dms db l
  end.

Definition set_watermarks (t : gmap Z Z) (db : Database) : Database :=
  {| schema_version := schema_version db; next_room_id_value := next_room_id_value db; watermark_table := t;
     dm_table := dm_table db |}.

(** One transaction; a storage error leaves the database as it was. *)
Definition persist (ok : bool) (db : Database) (write : PendingWrite) : result StateError Database :=
  if negb ok then Err StorageFailed
  else
    let db := set_watermarks (map_fold put_watermark (watermark_table db) (pw_watermarks write)) db in
    insert_dms db (pw_dm_inserts write).

Inductive StateWriteEvent := DmEvent (operation_id : Z) (ok : bool) | FatalEvent.

Definition completions (ok : bool) (waiters : list StateWriteWaiter) : list StateWriteEvent :=
  omap (fun w => match w with EventWaiter id => Some (DmEvent id ok) | SyncWaiter => None end) waiters.

(** One turn of the writer thread: a storage error is tried once more on the
    reopened database ([retry]); any other failure, or a second one, closes the
    submissions.  The result is the answer to the waiters that block, the events
    it pushes, and whether the thread goes on. *)
Definition writer_turn (ok retry : bool) (db : Database) (p : PendingWrite)
    : Database * PendingWrite * list StateWriteEvent * bool :=
  match StateWriteSubmission.receive p with
  | None => (db, p, [], true)
  | Some (write, p) =>
      let result :=
        match persist ok db write with
        | Err StorageFailed => db ← initialize_schema retry db; persist retry db write
        | r => r
        end in
      match result with
      | Ok db => (db, p, completions true (pw_waiters write), true)
      | Err _ =>
          let '(p, waiters) := StateWriteSubmission.terminate p in
          (db, p, completions false (pw_waiters write) ++ completions false waiters ++ [FatalEvent], false)
      end
  end.
