(* ===== verification/RoomStore.v ===== *)
(** * The room store

    Models [RoomStore] of src/crates/server/src/room_store.rs: retention by room,
    message ids and their reservations, mutation rules, history plans, DM rooms,
    and the handing of appends to the log worker and back.  A path is known from
    its room, so [path] is whether there is one.  The state writer is its pending
    submissions ([RoomState]), the log writer the queue of writes its worker has
    not taken ([RoomLog]), and each event queue the list of events not drained.
    Message ids are far from the end of their 64 bits. *)

From Stdlib Require Import Sorting.Sorted.
From S2P Require Import Prelude Text Frame History Resident RoomLog RoomState.

Definition MESSAGE_ID_RESERVE : Z := 1024.
Definition LOG_WRITE_QUEUE_CAPACITY : nat := 256.
Definition MUTATION_WINDOW_MESSAGES : nat := 256.

Record StoreTuning := mkTuning { max_active_log_bytes : nat; max_resident_messages : nat }.

Inductive MutationKind := Edit | Delete.
Inductive MutationDenied := TargetMissing | WrongSender | FileMessage | MutationRecord | Deleted.

#[export] Instance MutationKind_eq_dec : EqDecision MutationKind.
Proof. solve_decision. Defined.

Record DurableRoom := mkDurable {
  dr_history : ResidentHistory;
  dr_file : ActiveLog;
  dr_active_bytes : nat;
  dr_path : bool;
  dr_active_first_id : option Z;
  dr_segments : list Z;
}.

Inductive Retention :=
| RetainNone
| RetainMemory (history : ResidentHistory) (limit : nat)
| RetainDurable (room : DurableRoom).

Inductive RoomPersistenceConfig := PersistNone | PersistMemory | PersistDurable.

Module Retention.

Definition history (r : Retention) : option ResidentHistory :=
  match r with
  | RetainNone => None
  | RetainMemory h _ => Some h
  | RetainDurable d => Some (dr_history d)
  end.

Definition oldest_durable_id (r : Retention) : option Z :=
  match r with
  | RetainDurable d => match head (dr_segments d) with Some id => Some id | None => dr_active_first_id d end
  | _ => None
  end.

Definition has_unresident_history (r : Retention) : bool :=
  match oldest_durable_id r with
  | None => false
  | Some oldest_durable =>
      match (h ← history r; ResidentHistory.first_message_id h) with
      | Some oldest_resident => bool_decide (oldest_durable < oldest_resident)
      | None => true
      end
  end.

End Retention.

Record PendingDm := mkPendingDm {
  pd_operation_id : Z;
  pd_room : DmRoom;
  previous_next_room_id : Z;
}.

Record RoomStore := mkStore {
  data_dir : bool;
  state_writer : option PendingWrite;
  log_writer : option (list RoomLogWrite);
  log_events : list RoomLogEvent;
  pending_log_writes : gmap Z nat;
  state_events : option (list StateWriteEvent);
  tuning : StoreTuning;
  next_room_id : Z;
  next_ids : gmap Z Z;
  watermarks : gmap Z Z;
  heads : gmap Z Z;
  recent_ids : gmap Z (list Z);
  dm_rooms : list DmRoom;
  pending_dm : option PendingDm;
  next_dm_operation : Z;
  rooms : gmap Z Retention;
}.

Definition set_rooms (v : gmap Z Retention) (s : RoomStore) : RoomStore :=
  {| data_dir := data_dir s; state_writer := state_writer s; log_writer := log_writer s; log_events := log_events s;
     pending_log_writes := pending_log_writes s; state_events := state_events s; tuning := tuning s;
     next_room_id := next_room_id s; next_ids := next_ids s; watermarks := watermarks s; heads := heads s;
     recent_ids := recent_ids s; dm_rooms := dm_rooms s; pending_dm := pending_dm s;
     next_dm_operation := next_dm_operation s; rooms := v |}.
Definition set_ids (n w : gmap Z Z) (s : RoomStore) : RoomStore :=
  {| data_dir := data_dir s; state_writer := state_writer s; log_writer := log_writer s; log_events := log_events s;
     pending_log_writes := pending_log_writes s; state_events := state_events s; tuning := tuning s;
     next_room_id := next_room_id s; next_ids := n; watermarks := w; heads := heads s;
     recent_ids := recent_ids s; dm_rooms := dm_rooms s; pending_dm := pending_dm s;
     next_dm_operation := next_dm_operation s; rooms := rooms s |}.
Definition set_recent (h : gmap Z Z) (r : gmap Z (list Z)) (s : RoomStore) : RoomStore :=
  {| data_dir := data_dir s; state_writer := state_writer s; log_writer := log_writer s; log_events := log_events s;
     pending_log_writes := pending_log_writes s; state_events := state_events s; tuning := tuning s;
     next_room_id := next_room_id s; next_ids := next_ids s; watermarks := watermarks s; heads := h;
     recent_ids := r; dm_rooms := dm_rooms s; pending_dm := pending_dm s;
     next_dm_operation := next_dm_operation s; rooms := rooms s |}.
Definition set_log (q : option (list RoomLogWrite)) (e : list RoomLogEvent) (p : gmap Z nat) (s : RoomStore) : RoomStore :=
  {| data_dir := data_dir s; state_writer := state_writer s; log_writer := q; log_events := e;
     pending_log_writes := p; state_events := state_events s; tuning := tuning s;
     next_room_id := next_room_id s; next_ids := next_ids s; watermarks := watermarks s; heads := heads s;
     recent_ids := recent_ids s; dm_rooms := dm_rooms s; pending_dm := pending_dm s;
     next_dm_operation := next_dm_operation s; rooms := rooms s |}.
Definition set_state (w : option PendingWrite) (e : option (list StateWriteEvent)) (s : RoomStore) : RoomStore :=
  {| data_dir := data_dir s; state_writer := w; log_writer := log_writer s; log_events := log_events s;
     pending_log_writes := pending_log_writes s; state_events := e; tuning := tuning s;
     next_room_id := next_room_id s; next_ids := next_ids s; watermarks := watermarks s; heads := heads s;
     recent_ids := recent_ids s; dm_rooms := dm_rooms s; pending_dm := pending_dm s;
     next_dm_operation := next_dm_operation s; rooms := rooms s |}.
Definition set_dm (n : Z) (l : list DmRoom) (p : option PendingDm) (op : Z) (s : RoomStore) : RoomStore :=
  {| data_dir := data_dir s; state_writer := state_writer s; log_writer := log_writer s; log_events := log_events s;
     pending_log_writes := pending_log_writes s; state_events := state_events s; tuning := tuning s;
     next_room_id := n; next_ids := next_ids s; watermarks := watermarks s; heads := heads s;
     recent_ids := recent_ids s; dm_rooms := l; pending_dm := p; next_dm_operation := op; rooms := rooms s |}.

(** ** Opening *)

(** What opening a durable room meets: whether the torn tail can be cut off and
    whether the log opens. *)
Record OpenIo := mkOpenIo { oi_truncate : bool; oi_open : bool }.

(** Loads segments, newest first, until enough messages are resident. *)
Fixpoint load_segments (d : RoomDir) (max total : nat) (newest : list Z) : list ResidentHistory :=
  match newest with
  | [] => []
  | id :: newest =>
      if decide (max <= total)%nat then []
      else
        let loaded := loaded_history (load_log (read_file d (segment_names d !! id)) ReadOnly true).1 in
        loaded :: load_segments d max (total + ResidentHistory.len loaded) newest
  end.

Definition no_room (file : ActiveLog) (path : bool) : DurableRoom :=
  {| dr_history := ResidentHistory.default; dr_file := file; dr_active_bytes := 0; dr_path := path;
     dr_active_first_id := None; dr_segments := [] |}.

Definition open_durable (io : OpenIo) (has_dir : bool) (t : StoreTuning) (d : RoomDir) : DurableRoom * RoomDir :=
  if negb has_dir then (no_room Disabled false, d)
  else
    let segments := list_segments d in
    let '(active, cut) := load_log (read_file d (active_name d)) Truncate (oi_truncate io) in
    let d :=
      match active_name d, cut with
      | Some i, Some n => set_inode d i (take n (read_inode d i))
      | _, _ => d
      end in
    let newest_first :=
      load_segments d (max_resident_messages t) (ResidentHistory.len (loaded_history active)) (reverse segments) in
    let history :=
      match newest_first with
      | [] => loaded_history active
      | _ => ResidentHistory.extend (foldl ResidentHistory.extend ResidentHistory.default (reverse newest_first))
               (loaded_history active)
      end in
    let history := ResidentHistory.trim_to_limit history (max_resident_messages t) in
    let '(file, d) :=
      if tail_repair_failed active then (Disabled, d)
      else match open_active_log (oi_open io) d with
           | Some (i, d) => (Open i, d)
           | None => (Disabled, d)
           end in
    ({| dr_history := history; dr_file := file; dr_active_bytes := valid_bytes active; dr_path := true;
        dr_active_first_id := ResidentHistory.first_message_id (loaded_history active); dr_segments := segments |}, d).

Module RoomStore.

Definition last_window {A} (n : nat) (l : list A) : list A := drop (length l - n) l.

(** Registers a room; the files it reads may have their tail cut. *)
Definition register_room (io : OpenIo) (s : RoomStore) (room_id : Z) (persistence : RoomPersistenceConfig)
    (memory_limit : nat) (d : RoomDir) : RoomStore * RoomDir :=
  let '(retention, d) :=
    match persistence with
    | PersistNone => (RetainNone, d)
    | PersistMemory => (RetainMemory ResidentHistory.default memory_limit, d)
    | PersistDurable => let '(r, d) := open_durable io (data_dir s) (tuning s) d in (RetainDurable r, d)
    end in
  let recent :=
    match Retention.history retention with
    | Some h => entry_id <$> last_window MUTATION_WINDOW_MESSAGES (ResidentHistory.entries h)
    | None => []
    end in
  let s :=
    match retention with
    | RetainDurable r =>
        match ResidentHistory.last (dr_history r) with
        | Some e =>
            let next := Z.max (default 1 (next_ids s !! room_id)) (wrap 64 (entry_id e + 1)) in
            set_recent (<[room_id := entry_id e]> (heads s)) (recent_ids s)
              (set_ids (<[room_id := next]> (next_ids s)) (watermarks s) s)
        | None => s
        end
    | _ => s
    end in
  (set_rooms (<[room_id := retention]> (rooms s))
     (set_recent (heads s) (<[room_id := recent]> (recent_ids s)) s), d).

Fixpoint register_all (io : OpenIo) (s : RoomStore) (l : list (Z * RoomPersistenceConfig * nat)) (disk : gmap Z RoomDir)
    : RoomStore * gmap Z RoomDir :=
  match l with
  | [] => (s, disk)
  | (room_id, persistence, limit) :: l =>
      let '(s, d) := register_room io s room_id persistence limit (default empty_dir (disk !! room_id)) in
      register_all io s l (<[room_id := d]> disk)
  end.

Definition has_files (d : RoomDir) : bool :=
  bool_decide (active_name d <> None) || bool_decide (segment_names d <> ∅).

(** The scan of the room logs by name. *)
Definition next_room_id_above_existing_logs (disk : gmap Z RoomDir) : Z :=
  map_fold (fun room d next =>
      if has_files d && bool_decide (FIRST_DYNAMIC_ROOM_ID <= room)
      then Z.max next (saturating_add 32 room 1) else next)
    FIRST_DYNAMIC_ROOM_ID disk.

(** [try_open_with_tuning], once its directory and database are open: [state] is
    what the database held. *)
Definition try_open (io : OpenIo) (has_dir : bool) (t : StoreTuning) (state : LoadedState)
    (configured : list (Z * RoomPersistenceConfig * nat)) (disk : gmap Z RoomDir) : RoomStore * gmap Z RoomDir :=
  let next := Z.max (st_next_room_id state) FIRST_DYNAMIC_ROOM_ID in
  let next := foldl (fun next dm => Z.max next (saturating_add 32 (dm_room_id dm) 1)) next (st_dm_rooms state) in
  let next := if has_dir then Z.max next (next_room_id_above_existing_logs disk) else next in
  let marks := list_to_map (st_watermarks state) in
  let s := {| data_dir := has_dir; state_writer := if has_dir then Some no_pending else None; log_writer := None;
              log_events := []; pending_log_writes := ∅; state_events := None; tuning := t; next_room_id := next;
              next_ids := marks; watermarks := marks; heads := ∅; recent_ids := ∅; dm_rooms := [];
              pending_dm := None; next_dm_operation := 1; rooms := ∅ |} in
  let '(s, disk) := register_all io s configured disk in
  let '(s, disk) :=
    register_all io s ((fun dm => (dm_room_id dm, PersistDurable, O)) <$> st_dm_rooms state) disk in
  (set_dm (next_room_id s) (st_dm_rooms state) (pending_dm s) (next_dm_operation s) s, disk).

(** [enable_async_log_writes]: the rooms the worker starts with, and the store;
    [clone] tells for which rooms the handle can be duplicated. *)
Definition worker_state (clone : Z -> bool) (room_id : Z) (r : Retention) : option RoomLogWorkerState :=
  match r with
  | RetainDurable d =>
      if dr_path d then
        let start f n := Some {| w_file := f; needs_read_handle := n; w_active_bytes := dr_active_bytes d;
                                 w_active_first_id := dr_active_first_id d |} in
        match dr_file d with
        | Open i => if clone room_id then start (Open i) false else None
        | Reopen => start Reopen true
        | Disabled => None
        end
      else None
  | _ => None
  end.

Definition disable_failed (clone : Z -> bool) (room_id : Z) (r : Retention) : option Retention :=
  match r with
  | RetainDurable d =>
      match dr_file d with
      | Open i =>
          if dr_path d && negb (clone room_id) then
            Some (RetainDurable {| dr_history := dr_history d; dr_file := Disabled; dr_active_bytes := dr_active_bytes d;
                                   dr_path := dr_path d; dr_active_first_id := dr_active_first_id d;
                                   dr_segments := dr_segments d |})
          else Some r
      | _ => Some r
      end
  | _ => Some r
  end.

Definition enable_async_log_writes (clone : Z -> bool) (s : RoomStore) : RoomStore * gmap Z RoomLogWorkerState :=
  match log_writer s with
  | Some _ => (s, ∅)
  | None =>
      (set_log (Some []) [] (pending_log_writes s) (set_rooms (map_imap (disable_failed clone) (rooms s)) s),
       map_imap (worker_state clone) (rooms s))
  end.

Definition enable_async_state_writes (s : RoomStore) : RoomStore :=
  match state_writer s, state_events s with
  | Some w, None => set_state (Some w) (Some []) s
  | _, _ => s
  end.

(** ** Message ids *)

(** [queue_persist_watermark]: a refused submission is only logged. *)
Definition queue_persist_watermark (s : RoomStore) (room_id next : Z) : RoomStore :=
  match state_writer s with
  | None => s
  | Some w =>
      match StateWriteSubmission.submit_watermark w room_id next with
      | Ok w => set_state (Some w) (state_events s) s
      | Err _ => s
      end
  end.

(** [u64::next_multiple_of], and the 64-bit sums, as a release build computes them. *)
Definition next_multiple_of (a b : Z) : Z :=
  let r := a mod b in if decide (r = 0) then a else wrap 64 (a + (b - r)).

Definition allocate_message_id (s : RoomStore) (room_id : Z) : RoomStore * Z :=
  let id := default 1 (next_ids s !! room_id) in
  let next := wrap 64 (id + 1) in
  let watermark := default 0 (watermarks s !! room_id) in
  if decide (watermark <= wrap 64 (id + MESSAGE_ID_RESERVE / 2)) then
    let watermark := next_multiple_of (wrap 64 (wrap 64 (id + 1) + MESSAGE_ID_RESERVE)) MESSAGE_ID_RESERVE in
    (queue_persist_watermark
       (set_ids (<[room_id := next]> (next_ids s)) (<[room_id := watermark]> (watermarks s)) s) room_id watermark, id)
  else (set_ids (<[room_id := next]> (next_ids s)) (<[room_id := watermark]> (watermarks s)) s, id).

(** ** Appending *)

Definition push_recent (ids : list Z) (id : Z) : list Z :=
  (if decide (length ids = MUTATION_WINDOW_MESSAGES) then tail ids else ids) ++ [id].

Definition note_head (s : RoomStore) (room_id id : Z) : RoomStore :=
  set_recent (<[room_id := id]> (heads s))
    (<[room_id := push_recent (default [] (recent_ids s !! room_id)) id]> (recent_ids s)) s.

(** [rotate_log], of the store that writes its logs itself. *)
Definition rotate_log (io : LogIo) (r : DurableRoom) (d : RoomDir) : DurableRoom * RoomDir :=
  match dr_active_first_id r with
  | None => (r, d)
  | Some first_id =>
      match rename_active (io_rename io) d first_id with
      | None => (r, d)
      | Some d =>
          let rotated f := {| dr_history := dr_history r; dr_file := f; dr_active_bytes := 0; dr_path := dr_path r;
                              dr_active_first_id := None; dr_segments := dr_segments r ++ [first_id] |} in
          match open_active_log (io_fresh io) d with
          | Some (i, d) => (rotated (Open i), d)
          | None => (rotated Reopen, d)
          end
      end
  end.

Definition set_durable (h : ResidentHistory) (f : ActiveLog) (n : nat) (id : option Z) (r : DurableRoom) : DurableRoom :=
  {| dr_history := h; dr_file := f; dr_active_bytes := n; dr_path := dr_path r; dr_active_first_id := id;
     dr_segments := dr_segments r |}.

(** The part of [try_append] that writes the log itself. *)
Definition append_direct (io : LogIo) (t : StoreTuning) (r : DurableRoom) (message_id : Z) (record : bytes) (d : RoomDir)
    : DurableRoom * RoomDir :=
  let '(r, d) :=
    match dr_file r with
    | Reopen =>
        if dr_path r then
          match open_active_log (io_open io) d with
          | Some (i, d) => (set_durable (dr_history r) (Open i) (dr_active_bytes r) (dr_active_first_id r) r, d)
          | None => (r, d)
          end
        else (r, d)
    | _ => (r, d)
    end in
  let '(r, d) :=
    match dr_file r with
    | Open i =>
        match write_log_record (io_write io) d i record with
        | (d, Written n) =>
            let first := if decide (dr_active_bytes r = O) then Some message_id else dr_active_first_id r in
            (set_durable (dr_history r) (Open i) (dr_active_bytes r + n) first r, d)
        | (d, RecordTooLarge) => (r, d)
        | (d, WriteFailed) => (set_durable (dr_history r) Disabled (dr_active_bytes r) (dr_active_first_id r) r, d)
        end
    | _ => (r, d)
    end in
  let '(r, d) :=
    if bool_decide (max_active_log_bytes t < dr_active_bytes r)%nat && dr_path r then rotate_log io r d else (r, d) in
  (set_durable (ResidentHistory.trim_to_limit (dr_history r) (max_resident_messages t)) (dr_file r) (dr_active_bytes r)
     (dr_active_first_id r) r, d).

(** [None] is a panic of the record encoder; [WriterBusy] the refusal of a full
    queue, after which the append is undone. *)
Inductive AppendError := WriterBusy.

Definition try_append (io : LogIo) (s : RoomStore) (room_id : Z) (m : ChatMessage) (d : RoomDir)
    : option (RoomStore * RoomDir * result AppendError nat) :=
  match rooms s !! room_id with
  | None => Some (s, d, Ok O)
  | Some RetainNone => Some (note_head s room_id (message_id m), d, Ok O)
  | Some (RetainMemory h limit) =>
      '(h, _) ← ResidentHistory.append_message h m;
      let h := ResidentHistory.trim_to_limit h limit in
      Some (note_head (set_rooms (<[room_id := RetainMemory h limit]> (rooms s)) s) room_id (message_id m), d,
            Ok (ResidentHistory.len h))
  | Some (RetainDurable r) =>
      '(h, (start, n)) ← ResidentHistory.append_message (dr_history r) m;
      let record := ResidentHistory.record_range h start n in
      let appended := set_durable h (dr_file r) (dr_active_bytes r) (dr_active_first_id r) r in
      match log_writer s, dr_file r with
      | Some queue, (Open _ | Reopen) =>
          if decide (length queue < LOG_WRITE_QUEUE_CAPACITY)%nat then
            let write := {| lw_room_id := room_id; lw_message_id := message_id m; lw_record := record;
                            lw_max_active_log_bytes := max_active_log_bytes (tuning s); lw_path := dr_path r |} in
            let s := set_log (Some (queue ++ [write])) (log_events s)
                       (<[room_id := S (default O (pending_log_writes s !! room_id))]> (pending_log_writes s))
                       (set_rooms (<[room_id := RetainDurable appended]> (rooms s)) s) in
            Some (note_head s room_id (message_id m), d, Ok (ResidentHistory.len h))
          else
            h ← ResidentHistory.rollback_append h start;
            Some (set_rooms (<[room_id := RetainDurable (set_durable h (dr_file r) (dr_active_bytes r) (dr_active_first_id r) r)]>
                    (rooms s)) s, d, Err WriterBusy)
      | _, _ =>
          let '(r, d) := append_direct io (tuning s) appended (message_id m) record d in
          Some (note_head (set_rooms (<[room_id := RetainDurable r]> (rooms s)) s) room_id (message_id m), d,
                Ok (ResidentHistory.len (dr_history r)))
      end
  end.

(** [append]: the wrapper that answers with what is retained either way. *)
Definition append (io : LogIo) (s : RoomStore) (room_id : Z) (m : ChatMessage) (d : RoomDir)
    : option (RoomStore * RoomDir * nat) :=
  '(s, d, r) ← try_append io s room_id m d;
  Some (s, d,
    match r with
    | Ok n => n
    | Err _ => match (r ← rooms s !! room_id; Retention.history r) with Some h => ResidentHistory.len h | None => O end
    end).

Definition head (s : RoomStore) (room_id : Z) : option Z := heads s !! room_id.

(** ** Completions of the log worker *)

Definition take_pending (p : gmap Z nat) (room_id : Z) : gmap Z nat :=
  match p !! room_id with
  | None => p
  | Some n => if decide (n - 1 = O)%nat then delete room_id p else <[room_id := (n - 1)%nat]> p
  end.

(** The mirror of the log the event loop keeps for paging. *)
Definition apply_log_event (e : RoomLogEvent) (r : DurableRoom) : DurableRoom :=
  {| dr_history := dr_history r;
     dr_file := match le_file e with
                | Keep => dr_file r
                | UpdateOpen i => Open i
                | UpdateReopen => Reopen
                | UpdateDisabled => Disabled
                end;
     dr_active_bytes := le_active_bytes e; dr_path := dr_path r; dr_active_first_id := le_active_first_id e;
     dr_segments := match le_rotated e with Some id => dr_segments r ++ [id] | None => dr_segments r end |}.

Definition trim_if_settled (pending : gmap Z nat) (t : StoreTuning) (room_id : Z) (r : DurableRoom) : DurableRoom :=
  if decide (pending !! room_id = None) then
    set_durable (ResidentHistory.trim_to_limit (dr_history r) (max_resident_messages t)) (dr_file r)
      (dr_active_bytes r) (dr_active_first_id r) r
  else r.

Definition drain_log_event (s : RoomStore) (e : RoomLogEvent) : RoomStore :=
  match rooms s !! le_room_id e with
  | Some (RetainDurable r) =>
      let pending := take_pending (pending_log_writes s) (le_room_id e) in
      let r := match dr_file r with Disabled => r | _ => apply_log_event e r end in
      set_log (log_writer s) (log_events s) pending
        (set_rooms (<[le_room_id e := RetainDurable (trim_if_settled pending (tuning s) (le_room_id e) r)]> (rooms s)) s)
  | _ => s
  end.

(** At most 64 events a time. *)
Definition drain_log_events (s : RoomStore) : RoomStore :=
  let completed := take 64 (log_events s) in
  foldl drain_log_event (set_log (log_writer s) (drop 64 (log_events s)) (pending_log_writes s) s) completed.

(** ** Mutations *)

(** The loop over the newest records, newest first. *)
Fixpoint mutation_loop (h : ResidentHistory) (es : list HistoryEntry) (tgt from : Z) (kind : MutationKind) (deleted : bool)
    : result MutationDenied () :=
  match es with
  | [] => Ok ()
  | e :: es =>
      match parse_message (ResidentHistory.record h e) with
      | Err _ => Err TargetMissing
      | Ok r =>
          let r := ref_message r in
          let deleted := bool_decide (target r = Some tgt) && MessageFlags.deleted (flags r) || deleted in
          if decide (message_id r <> tgt) then mutation_loop h es tgt from kind deleted
          else if decide (target r <> None) then Err MutationRecord
          else if decide (sender r <> from) then Err WrongSender
          else if (deleted : bool) then Err Deleted
          else if decide (kind = Edit /\ file_transfer_id r <> None) then Err FileMessage
          else Ok ()
      end
  end.

Definition validate_mutation (s : RoomStore) (room_id tgt from : Z) (kind : MutationKind) : result MutationDenied () :=
  if decide (tgt ∉ default [] (recent_ids s !! room_id)) then Err TargetMissing
  else
    match (r ← rooms s !! room_id; Retention.history r) with
    | None => Ok ()
    | Some h => mutation_loop h (take MUTATION_WINDOW_MESSAGES (reverse (ResidentHistory.entries h))) tgt from kind false
    end.

(** ** History *)

Definition resident (s : RoomStore) (room_id : Z) : option ResidentHistory :=
  r ← rooms s !! room_id; h ← Retention.history r;
  if ResidentHistory.is_empty h then None else Some h.

Definition set_at_start (b : bool) (spec : HistoryChunkSpec) : HistoryChunkSpec :=
  {| spec_first_id := spec_first_id spec; spec_count := spec_count spec; spec_records_bytes := spec_records_bytes spec;
     spec_at_start := b; spec_complete := spec_complete spec |}.

Definition history_fetch_plan_before (s : RoomStore) (room_id : Z) (before : option Z) (limit target_bytes : nat)
    : HistoryFetchPlan :=
  let retention := rooms s !! room_id in
  let has_older := match retention with Some r => Retention.has_unresident_history r | None => false end in
  let plan :=
    match resident s room_id with
    | Some h => ResidentHistory.history_chunks_before h room_id before limit target_bytes has_older
    | None =>
        {| plan_room_id := room_id; plan_before := before;
           plan_chunks := [{| spec_first_id := None; spec_count := 0; spec_records_bytes := 0; spec_at_start := false;
                              spec_complete := true |}];
           plan_message_count := 0; plan_at_start := false |}
    end in
  if decide (plan_message_count plan = O) then
    let at_start :=
      match (r ← retention; Retention.oldest_durable_id r) with
      | Some oldest_durable => bool_decide (before_bound before <= oldest_durable)
      | None => true
      end in
    {| plan_room_id := plan_room_id plan; plan_before := plan_before plan;
       plan_chunks := set_at_start at_start <$> plan_chunks plan; plan_message_count := O; plan_at_start := at_start |}
  else plan.

Definition encode_history_chunk (s : RoomStore) (plan : HistoryFetchPlan) (chunk_index : nat)
    : result HistoryChunkError bytes :=
  match plan_chunks plan !! chunk_index with
  | None => Err ChunkOutOfRange
  | Some spec =>
      match spec_first_id spec with
      | None =>
          map_err Failed
            (write_chunk_header (plan_room_id plan) (plan_before plan) (spec_at_start spec) (spec_complete spec) 0 [])
      | Some _ =>
          match resident s (plan_room_id plan) with
          | None => Err Trimmed
          | Some h => ResidentHistory.encode_chunk h (plan_room_id plan) (plan_before plan) spec
          end
      end
  end.

(** [clone] is whether the active log's handle can be duplicated. *)
Definition disk_sources (clone : bool) (r : DurableRoom) (bound : Z) : list Source :=
  let segments :=
    (fun id => SegmentFile id) <$> filter (fun id => id < bound) (reverse (dr_segments r)) in
  match dr_active_first_id r with
  | Some first =>
      if decide (first < bound) then
        match dr_file r with
        | Open i => if clone then ActiveTail i (dr_active_bytes r) :: segments else []
        | _ => []
        end
      else segments
  | None => segments
  end.

Definition disk_fetch_request (clone : bool) (s : RoomStore) (room_id : Z) (before : option Z) (limit target_bytes : nat)
    : option HistoryReadRequest :=
  retention ← rooms s !! room_id;
  oldest ← Retention.oldest_durable_id retention;
  match retention with
  | RetainDurable r =>
      if decide (before_bound before <= oldest) then None
      else Some {| rq_room_id := room_id; rq_before := before; rq_limit := limit; rq_target_bytes := target_bytes;
                   rq_oldest_durable_id := oldest; rq_sources := disk_sources clone r (before_bound before) |}
  | _ => None
  end.

(** ** DM rooms *)

Inductive DmError := SelfDm | NoRoomIds | RegistryWrite | DmBusy | NoLogPath.
Inductive OpenDmResult := Existing (room_id : Z) | PendingOp (operation_id : Z).

Definition dm_room_for (s : RoomStore) (first second : Z) : option Z :=
  dm_room_id <$> List.find (fun dm => pairs dm first second) (dm_rooms s).

(** [open_dm]; [persisted] is the answer of the state writer, which this call
    waits for, when there is one. *)
Definition open_dm (io : OpenIo) (persisted : bool) (s : RoomStore) (first second now_ms : Z) (disk : gmap Z RoomDir)
    : RoomStore * gmap Z RoomDir * result DmError Z :=
  if decide (first = second) then (s, disk, Err SelfDm)
  else match dm_room_for s first second with
  | Some existing => (s, disk, Ok existing)
  | None =>
      let room_id := next_room_id s in
      if decide (room_id + 1 < 2 ^ 32) then
        let room := {| dm_room_id := room_id; user_a := first; user_b := second; created_at_ms := now_ms |} in
        let ok := match state_writer s with None => true | Some _ => persisted end in
        if ok then
          let s := set_dm (room_id + 1) (dm_rooms s) (pending_dm s) (next_dm_operation s) s in
          let '(s, d) := register_room io s room_id PersistDurable 0 (default empty_dir (disk !! room_id)) in
          (set_dm (next_room_id s) (dm_rooms s ++ [room]) (pending_dm s) (next_dm_operation s) s,
           <[room_id := d]> disk, Ok room_id)
        else (s, disk, Err RegistryWrite)
      else (s, disk, Err NoRoomIds)
  end.

Definition begin_open_dm (io : OpenIo) (persisted : bool) (s : RoomStore) (first second now_ms : Z) (disk : gmap Z RoomDir)
    : RoomStore * gmap Z RoomDir * result DmError OpenDmResult :=
  if decide (first = second) then (s, disk, Err SelfDm)
  else match dm_room_for s first second with
  | Some existing => (s, disk, Ok (Existing existing))
  | None =>
      match pending_dm s with
      | Some pending =>
          if pairs (pd_room pending) first second then (s, disk, Ok (PendingOp (pd_operation_id pending)))
          else (s, disk, Err DmBusy)
      | None =>
          match state_writer s, state_events s with
          | Some w, Some events =>
              if negb (data_dir s) then (s, disk, Err NoLogPath)
              else
                let previous := next_room_id s in
                if decide (previous + 1 < 2 ^ 32) then
                  let op := next_dm_operation s in
                  let next_op := Z.max (wrap 64 (op + 1)) 1 in
                  let room := {| dm_room_id := previous; user_a := first; user_b := second; created_at_ms := now_ms |} in
                  let pending := {| pd_operation_id := op; pd_room := room; previous_next_room_id := previous |} in
                  match StateWriteSubmission.submit_dm w {| insert_room := room; insert_next_room_id := previous + 1 |}
                          (EventWaiter op) with
                  | Ok w =>
                      (set_state (Some w) (Some events) (set_dm (previous + 1) (dm_rooms s) (Some pending) next_op s),
                       disk, Ok (PendingOp op))
                  | Err _ => (set_dm previous (dm_rooms s) None next_op s, disk, Err RegistryWrite)
                  end
                else (s, disk, Err NoRoomIds)
          | _, _ =>
              let '(s, disk, r) := open_dm io persisted s first second now_ms disk in
              (s, disk, match r with Ok id => Ok (Existing id) | Err e => Err e end)
          end
      end
  end.

Record DmCompletion := mkCompletion { dc_operation_id : Z; dc_room : DmRoom; dc_ok : bool }.

(** The loop over the replies; [None] of the answer is the fatal error. *)
Fixpoint dm_loop (s : RoomStore) (replies : list StateWriteEvent) (done : list DmCompletion)
    : RoomStore * option (list DmCompletion) :=
  match replies with
  | [] => (s, Some done)
  | FatalEvent :: _ => (s, None)
  | DmEvent _ ok :: replies =>
      match pending_dm s with
      | None => dm_loop s replies done
      | Some pending =>
          let room := pd_room pending in
          if (ok : bool) then
            let s := set_dm (next_room_id s) (dm_rooms s ++ [room]) None (next_dm_operation s) s in
            let s := set_rooms (<[dm_room_id room := RetainDurable (no_room Reopen (data_dir s))]> (rooms s)) s in
            let s := set_recent (heads s) (<[dm_room_id room := []]> (recent_ids s)) s in
            dm_loop s replies (done ++ [{| dc_operation_id := pd_operation_id pending; dc_room := room; dc_ok := true |}])
          else (set_dm (previous_next_room_id pending) (dm_rooms s) None (next_dm_operation s) s, None)
      end
  end.

Definition drain_dm_completions (s : RoomStore) : RoomStore * option (list DmCompletion) :=
  match state_events s with
  | None => (s, Some [])
  | Some events => dm_loop (set_state (state_writer s) (Some (drop 16 events)) s) (take 16 events) []
  end.

End RoomStore.
