(* ===== verification/RoomIds.v ===== *)
(** * Message ids across restarts

    The ids [RoomStore::allocate_message_id] of src/crates/server/src/room_store.rs
    hands out while the state writer of src/crates/server/src/room_state.rs takes
    the reservations it queues, and the process crashes and starts again on the
    database the writer left.  The theorem is about every interleaving of these
    three, under the condition the code counts on: the writer keeps up. *)

From Stdlib Require Import Sorting.Sorted.
From stdpp Require Import sorting.
From S2P Require Import Prelude Text Frame History Resident RoomLog RoomState RoomStore.

(** The server's store, the database, and the ids handed out so far by room. *)
Record IdWorld := mkIds { iw_store : RoomStore; iw_db : Database; iw_ids : list (Z * Z) }.

(** An allocation; a turn of the state writer, whose transaction may fail and be
    tried once more; a crash and a start on whatever logs and configuration. *)
Inductive IdStep :=
| IdAllocate (room : Z)
| IdWrite (ok retry : bool)
| IdRestart (io : OpenIo) (configured : list (Z * RoomPersistenceConfig * nat)) (disk : gmap Z RoomDir).

Definition id_open (t : StoreTuning) (io : OpenIo) (configured : list (Z * RoomPersistenceConfig * nat))
    (disk : gmap Z RoomDir) (db : Database) (ids : list (Z * Z)) : option IdWorld :=
  match open_state true db with
  | Ok (state, db) =>
      let s := (RoomStore.try_open io true t state configured disk).1 in
      Some {| iw_store := RoomStore.enable_async_state_writes s; iw_db := db; iw_ids := ids |}
  | Err _ => None
  end.

Definition id_step (t : StoreTuning) (w : IdWorld) (step : IdStep) : option IdWorld :=
  match step with
  | IdAllocate room =>
      let '(s, id) := RoomStore.allocate_message_id (iw_store w) room in
      Some {| iw_store := s; iw_db := iw_db w; iw_ids := iw_ids w ++ [(room, id)] |}
  | IdWrite ok retry =>
      match state_writer (iw_store w) with
      | None => Some w
      | Some p =>
          let '(db, p, _, _) := writer_turn ok retry (iw_db w) p in
          Some {| iw_store := set_state (Some p) (state_events (iw_store w)) (iw_store w); iw_db := db; iw_ids := iw_ids w |}
      end
  | IdRestart io configured disk => id_open t io configured disk (iw_db w) (iw_ids w)
  end.

Fixpoint id_run (t : StoreTuning) (w : IdWorld) (steps : list IdStep) : option IdWorld :=
  match steps with
  | [] => Some w
  | step :: steps => w ← id_step t w step; id_run t w steps
  end.

Definition ids_of (room : Z) (ids : list (Z * Z)) : list Z := omap (fun p => if decide (p.1 = room) then Some p.2 else None) ids.

(** ** When the writer keeps up

    How a room stands in the current life: no id handed out yet; ids handed out
    but no transaction since the first of them; or that many ids handed out since
    the last transaction. *)
Inductive Cover := Fresh | Exposed | Covered (n : nat).

(** A crash is harmless to a room with no id handed out in this life, or with at
    most half a block of them since the last transaction; a writer that failed
    twice commits nothing more ([dead]). *)
Fixpoint keeps_up (room : Z) (dead : bool) (c : Cover) (steps : list IdStep) : bool :=
  match steps with
  | [] => true
  | IdAllocate r :: steps =>
      keeps_up room dead
        (if decide (r = room) then match c with Covered n => Covered (S n) | _ => Exposed end else c) steps
  | IdWrite ok retry :: steps =>
      if dead then keeps_up room true c steps
      else if ok || retry then keeps_up room false (match c with Fresh => Fresh | _ => Covered 0 end) steps
      else keeps_up room true c steps
  | IdRestart _ _ _ :: steps =>
      match c with
      | Fresh => true
      | Exposed => false
      | Covered n => bool_decide (Z.of_nat n <= MESSAGE_ID_RESERVE / 2)
      end && keeps_up room false Fresh steps
  end.

(** ** One room's numbers *)

Definition next_of (s : RoomStore) (r : Z) : Z := default 1 (next_ids s !! r).
Definition mark_of (s : RoomStore) (r : Z) : Z := default 0 (watermarks s !! r).
Definition stored_of (db : Database) (r : Z) : Z := default 0 (watermark_table db !! r).
(** What the database will hold once the writer took what is pending. *)
Definition reserved_of (db : Database) (p : PendingWrite) (r : Z) : Z :=
  match pw_watermarks p !! r with Some q => Z.max (stored_of db r) q | None => stored_of db r end.

(** *** Opening *)

Lemma register_room_ids io s room_id p limit d s' d' r :
  RoomStore.register_room io s room_id p limit d = (s', d') ->
  watermarks s' = watermarks s /\ state_writer s' = state_writer s /\ state_events s' = state_events s /\
  next_of s r <= next_of s' r /\ ((room_id, p) <> (r, PersistDurable) -> next_of s' r = next_of s r).
Proof.
  unfold RoomStore.register_room, next_of. intros E.
  destruct p; [| |destruct (open_durable io (data_dir s) (tuning s) d) as [rm dd]; destruct (ResidentHistory.last (dr_history rm)) as [e|]].
  all: injection E as <- <-; cbn; try (split_and!; (done || lia)).
  destruct (decide (r = room_id)) as [->|Hne].
  - rewrite lookup_insert_eq. cbn. split_and!; [done..|lia|done].
  - rewrite lookup_insert_ne by done. split_and!; (done || lia).
Qed.

Lemma register_all_ids io l : forall s disk s' disk' r,
  RoomStore.register_all io s l disk = (s', disk') ->
  watermarks s' = watermarks s /\ state_writer s' = state_writer s /\ state_events s' = state_events s /\
  next_of s r <= next_of s' r /\ ((r, PersistDurable) ∉ l.*1 -> next_of s' r = next_of s r).
Proof.
  induction l as [|[[id p] limit] l IH]; intros s disk s' disk' r E; cbn [RoomStore.register_all] in E.
  { injection E as <- <-. split_and!; (done || lia). }
  destruct (RoomStore.register_room io s id p limit _) as [s1 d1] eqn:E1.
  destruct (register_room_ids _ _ _ _ _ _ _ _ r E1) as (A1 & A2 & A3 & A4 & A5).
  destruct (IH _ _ _ _ r E) as (B1 & B2 & B3 & B4 & B5).
  split_and!; [congruence..|lia|]. rewrite fmap_cons. cbn [fst].
  intros [Hne Hnin]%not_elem_of_cons. rewrite (B5 Hnin). apply A5. congruence.
Qed.

Lemma load_plain db :
  stored_next db = FIRST_DYNAMIC_ROOM_ID -> dm_table db = ∅ ->
  load db = Ok {| st_next_room_id := FIRST_DYNAMIC_ROOM_ID; st_watermarks := map_to_list (watermark_table db); st_dm_rooms := [] |}.
Proof. intros H1 H2. unfold load. rewrite H1, H2, map_to_list_empty. by rewrite decide_True by done. Qed.

(** A start on a database without direct-message rooms, never opened or of this schema. *)
Lemma id_open_ok t io configured disk db ids r :
  (schema_version db = None \/ schema_version db = Some SCHEMA_VERSION /\ stored_next db = FIRST_DYNAMIC_ROOM_ID) ->
  dm_table db = ∅ ->
  exists w, id_open t io configured disk db ids = Some w /\ iw_ids w = ids /\
    schema_version (iw_db w) = Some SCHEMA_VERSION /\ stored_next (iw_db w) = FIRST_DYNAMIC_ROOM_ID /\
    dm_table (iw_db w) = ∅ /\ watermark_table (iw_db w) = watermark_table db /\
    state_writer (iw_store w) = Some no_pending /\ watermarks (iw_store w) = watermark_table db /\
    default 1 (watermark_table db !! r) <= next_of (iw_store w) r /\
    ((r, PersistDurable) ∉ configured.*1 -> next_of (iw_store w) r = default 1 (watermark_table db !! r)).
Proof.
  intros Hs Hd. unfold id_open, open_state.
  assert (exists db1, initialize_schema true db = Ok db1 /\ schema_version db1 = Some SCHEMA_VERSION /\
    stored_next db1 = FIRST_DYNAMIC_ROOM_ID /\ dm_table db1 = ∅ /\ watermark_table db1 = watermark_table db)
    as (db1 & -> & I1 & I2 & I3 & I4).
  { unfold initialize_schema. destruct Hs as [->|[E1 E2]]; [by eexists|]. rewrite E1. by exists db. }
  cbn [mbind result_bind]. rewrite (load_plain db1 I2 I3). cbn [mbind result_bind].
  unfold RoomStore.try_open. cbn [st_next_room_id st_watermarks st_dm_rooms foldl fmap list_fmap].
  set (s0 := mkStore _ _ _ _ _ _ _ _ _ _ _ _ _ _ _ _).
  destruct (RoomStore.register_all io s0 configured disk) as [s1 disk1] eqn:E1.
  destruct (register_all_ids _ _ _ _ _ _ r E1) as (A1 & A2 & A3 & A4 & A5).
  cbn [RoomStore.register_all fst]. eexists. split; [done|]. cbn [iw_ids iw_db iw_store].
  assert (forall f : RoomStore -> gmap Z Z, (f = watermarks \/ f = next_ids) ->
    f (RoomStore.enable_async_state_writes (set_dm (next_room_id s1) [] (pending_dm s1) (next_dm_operation s1) s1)) = f s1) as Hf.
  { intros f [->| ->]; unfold RoomStore.enable_async_state_writes; cbn [set_dm state_writer state_events];
      rewrite A2, A3; done. }
  unfold next_of in *. rewrite !Hf by auto. cbn [s0 watermarks next_ids state_writer state_events] in *.
  rewrite list_to_map_to_list, I4 in *.
  split_and!; try done. unfold RoomStore.enable_async_state_writes. cbn [set_dm state_writer state_events]. by rewrite A2, A3.
Qed.

(** *** The writer *)

Lemma put_watermarks_lookup table q r :
  map_fold put_watermark table q !! r =
  match q !! r with
  | Some n => if decide (default 0 (table !! r) < n) then Some n else table !! r
  | None => table !! r
  end.
Proof.
  apply (map_fold_weak_ind (fun b q => b !! r = match q !! r with
    | Some n => if decide (default 0 (table !! r) < n) then Some n else table !! r | None => table !! r end)).
  { by rewrite lookup_empty. }
  intros i x m b Hi IH. unfold put_watermark. destruct (decide (r = i)) as [->|Hne].
  - rewrite Hi in IH. rewrite lookup_insert_eq, IH. case_decide; [by rewrite lookup_insert_eq|done].
  - rewrite (lookup_insert_ne m) by done. rewrite <- IH. case_decide; [by rewrite lookup_insert_ne|done].
Qed.

(** A submission that holds watermarks only. *)
Lemma persist_marks ok db write :
  pw_dm_inserts write = [] ->
  persist ok db write =
  if ok then Ok (set_watermarks (map_fold put_watermark (watermark_table db) (pw_watermarks write)) db) else Err StorageFailed.
Proof. intros E. unfold persist. destruct ok; [|done]. cbn [negb]. by rewrite E. Qed.

(** What a turn of the writer does to the room [r]; [done] is whether a transaction commits. *)
Record writer_room (db : Database) (p : PendingWrite) (db' : Database) (p' : PendingWrite) (r : Z) (done : bool) : Prop := {
  wr_schema : schema_version db' = schema_version db;
  wr_next : stored_next db' = stored_next db;
  wr_dms : dm_table db' = dm_table db;
  wr_inserts : pw_dm_inserts p' = [];
  wr_closed : done = true -> pw_closed p' = pw_closed p;
  wr_queued : pw_watermarks p' !! r = None \/ pw_watermarks p' !! r = pw_watermarks p !! r;
  wr_table : pw_watermarks p !! r = None \/ done = false -> watermark_table db' !! r = watermark_table db !! r;
  wr_stored : done = true -> stored_of db' r = reserved_of db p r;
}.

Lemma committed_room db p r :
  let write := set_watermarks (map_fold put_watermark (watermark_table db) (pw_watermarks p)) db in
  writer_room db p write {| pw_watermarks := ∅; pw_dm_inserts := []; pw_waiters := []; pw_closed := pw_closed p |} r true.
Proof.
  intros write. constructor; try done; cbn [pw_watermarks pw_dm_inserts pw_closed write set_watermarks watermark_table].
  - left. apply lookup_empty.
  - intros [E|]; [|done]. by rewrite put_watermarks_lookup, E.
  - intros _. unfold stored_of, reserved_of, stored_of. cbn [write set_watermarks watermark_table]. rewrite put_watermarks_lookup.
    destruct (pw_watermarks p !! r) as [n|]; [|done]. case_decide; cbn; lia.
Qed.

Lemma writer_turn_room ok retry db p r db' p' events live :
  schema_version db = Some SCHEMA_VERSION -> pw_dm_inserts p = [] ->
  writer_turn ok retry db p = (db', p', events, live) -> writer_room db p db' p' r (ok || retry).
Proof.
  intros Hs Hd. unfold writer_turn, StateWriteSubmission.receive, StateWriteSubmission.is_empty. rewrite Hd.
  destruct (decide (pw_watermarks p = ∅)) as [He|He].
  { rewrite bool_decide_true by done. cbn. intros [= <- <- <- <-]. constructor; try done; [by right|].
    intros _. unfold reserved_of. by rewrite He, lookup_empty. }
  rewrite bool_decide_false by done. cbn [andb].
  rewrite persist_marks by done. cbn [pw_watermarks].
  destruct ok; [intros [= <- <- _ _]; apply committed_room|].
  unfold initialize_schema. rewrite Hs. destruct retry; cbn [negb orb mbind result_bind].
  - rewrite (decide_True (P := SCHEMA_VERSION = SCHEMA_VERSION)) by done. cbn [mbind result_bind]. rewrite persist_marks by done.
    cbn [pw_watermarks]. intros [= <- <- _ _]. apply committed_room.
  - cbn. intros [= <- <- _ _]. constructor; try done. left. apply lookup_empty.
Qed.

(** *** Allocating *)

(** Ids below it and the reservations made for them fit 64 bits. *)
Definition ID_LIMIT : Z := 2 ^ 64 - 4 * MESSAGE_ID_RESERVE.

Lemma id_sum_fits id k : 0 <= id < ID_LIMIT -> 0 <= k <= 4 * MESSAGE_ID_RESERVE -> wrap 64 (id + k) = id + k.
Proof. intros Hi Hk. apply wrap_small. unfold is_u, ID_LIMIT, MESSAGE_ID_RESERVE in *. lia. Qed.

Lemma next_multiple_of_bounds a :
  0 <= a < 2 ^ 64 - MESSAGE_ID_RESERVE -> a <= RoomStore.next_multiple_of a MESSAGE_ID_RESERVE < a + MESSAGE_ID_RESERVE.
Proof.
  intros Ha. unfold RoomStore.next_multiple_of, MESSAGE_ID_RESERVE in *. pose proof (Z.mod_pos_bound a 1024).
  case_decide; [lia|]. rewrite wrap_small by (unfold is_u; lia). lia.
Qed.

(** The store and the pending submissions after an allocation in the room [r]. *)
Record allocated (s : RoomStore) (p : PendingWrite) (s' : RoomStore) (p' : PendingWrite) (room r : Z) : Prop := {
  al_writer : state_writer s' = Some p';
  al_inserts : pw_dm_inserts p' = pw_dm_inserts p;
  al_closed : pw_closed p' = pw_closed p;
  al_other : r <> room -> next_of s' r = next_of s r /\ mark_of s' r = mark_of s r /\ pw_watermarks p' !! r = pw_watermarks p !! r;
  al_next : r = room -> next_of s' r = next_of s r + 1;
  al_mark : r = room -> next_of s' r + MESSAGE_ID_RESERVE / 2 <= mark_of s' r;
  al_high : r = room -> mark_of s' r = mark_of s r \/ mark_of s' r <= next_of s r + 2 * MESSAGE_ID_RESERVE;
  al_queued : r = room -> pw_watermarks p' !! r = pw_watermarks p !! r /\ (mark_of s' r = mark_of s r \/ pw_closed p = true) \/
    pw_watermarks p' !! r = Some (match pw_watermarks p !! r with Some q => Z.max q (mark_of s' r) | None => mark_of s' r end);
}.

(** What an allocation does to the writer, and the id it hands out. *)
Lemma allocate_base s p room :
  state_writer s = Some p ->
  exists p', state_writer (RoomStore.allocate_message_id s room).1 = Some p' /\ pw_dm_inserts p' = pw_dm_inserts p /\
    (RoomStore.allocate_message_id s room).2 = next_of s room.
Proof.
  intros Ew. unfold RoomStore.allocate_message_id. cbv zeta.
  case_decide; unfold RoomStore.queue_persist_watermark, StateWriteSubmission.submit_watermark;
    cbn [set_ids state_writer]; rewrite ?Ew; [destruct (pw_closed p)|]; cbn [fst snd set_state set_ids state_writer];
    eexists; (split; [first [exact Ew|reflexivity]|split; reflexivity]).
Qed.

Lemma allocate_room s p p' room r :
  state_writer s = Some p -> (r = room -> 0 <= next_of s r < ID_LIMIT) ->
  state_writer (RoomStore.allocate_message_id s room).1 = Some p' ->
  allocated s p (RoomStore.allocate_message_id s room).1 p' room r.
Proof.
  intros Ew Hlim. destruct (decide (r = room)) as [->|Hother].
  - specialize (Hlim eq_refl). unfold RoomStore.allocate_message_id. fold (next_of s room). fold (mark_of s room). cbv zeta.
    rewrite (id_sum_fits _ 1), (id_sum_fits _ (MESSAGE_ID_RESERVE / 2)) by (first [exact Hlim | vm_compute; split; discriminate]).
    rewrite <- (Z.add_assoc (next_of s room) 1), (id_sum_fits _ (1 + MESSAGE_ID_RESERVE)), Z.add_assoc by (first [exact Hlim | vm_compute; split; discriminate]).
    pose proof (next_multiple_of_bounds (next_of s room + 1 + MESSAGE_ID_RESERVE)) as Hb.
    unfold ID_LIMIT, MESSAGE_ID_RESERVE in *. specialize (Hb ltac:(lia)). change (1024 / 2) with 512 in *.
    case_decide as Hd; unfold RoomStore.queue_persist_watermark, StateWriteSubmission.submit_watermark;
      cbn [set_ids state_writer]; rewrite ?Ew; [destruct (pw_closed p) eqn:Ec|].
    all: cbn [fst snd set_state set_ids state_writer]; intros Ep; rewrite ?Ew in Ep; injection Ep as <-.
    all: constructor; unfold next_of, mark_of, MESSAGE_ID_RESERVE in *; cbn [set_ids set_state state_writer next_ids watermarks state_events
      pw_dm_inserts pw_closed pw_watermarks]; try done.
    all: intros _; rewrite ?lookup_insert_eq; cbn [default]; rewrite ?Ec; try done.
    all: try (change (1024 / 2) with 512; unfold id in *; lia).
    all: try (left; split; [done|tauto]).
    all: unfold id in *; first [tauto | cbn [pw_watermarks]].
  - clear Hlim. unfold RoomStore.allocate_message_id. cbv zeta.
    case_decide; unfold RoomStore.queue_persist_watermark, StateWriteSubmission.submit_watermark;
      cbn [set_ids state_writer]; rewrite ?Ew; [destruct (pw_closed p) eqn:Ec|];
      cbn [fst snd set_state set_ids state_writer]; intros Ep; rewrite ?Ew in Ep; injection Ep as <-;
      constructor; try done; intros _; unfold next_of, mark_of; cbn; by rewrite !lookup_insert_ne by done.
Qed.

(** ** The invariant *)

Definition last_of (w : IdWorld) (r : Z) : Z := default 0 (last (ids_of r (iw_ids w))).

(** Neighbours in the list of ids are apart by at most [n]. *)
Definition steps_of (n : Z) (l : list Z) : Prop :=
  forall i a b, l !! i = Some a -> l !! S i = Some b -> b <= a + n.

(** [tight] is set for a room that keeps no log. *)
Record id_numbers (tight : bool) (r : Z) (dead : bool) (c : Cover) (w : IdWorld) (p : PendingWrite) : Prop := {
  ii_alive : dead = false -> pw_closed p = false;
  ii_below : 0 <= last_of w r < next_of (iw_store w) r;
  ii_cover :
    match c with
    | Fresh => last_of w r < default 1 (watermark_table (iw_db w) !! r) /\ pw_watermarks p !! r = None /\
               mark_of (iw_store w) r = stored_of (iw_db w) r
    | Exposed => True
    | Covered n => next_of (iw_store w) r + MESSAGE_ID_RESERVE / 2 <= stored_of (iw_db w) r + Z.of_nat n
    end;
  ii_headroom : c <> Fresh -> next_of (iw_store w) r + MESSAGE_ID_RESERVE / 2 <= mark_of (iw_store w) r;
  ii_reserved : dead = false -> mark_of (iw_store w) r <= reserved_of (iw_db w) p r;
  ii_tight : tight = true ->
    let high := last_of w r + 2 * MESSAGE_ID_RESERVE in
    next_of (iw_store w) r <= high /\ mark_of (iw_store w) r <= high /\ reserved_of (iw_db w) p r <= high /\
    steps_of (2 * MESSAGE_ID_RESERVE) (ids_of r (iw_ids w));
  ii_sorted : StronglySorted Z.lt (ids_of r (iw_ids w));
}.

(** The numbers are right as long as no id of the room has come near the end of
    the 64-bit range. *)
Definition below_limit (r : Z) (w : IdWorld) : Prop := Forall (fun id => id < ID_LIMIT) (ids_of r (iw_ids w)).

Record id_inv (tight : bool) (r : Z) (dead : bool) (c : Cover) (w : IdWorld) (p : PendingWrite) : Prop := {
  ii_schema : schema_version (iw_db w) = Some SCHEMA_VERSION;
  ii_next : stored_next (iw_db w) = FIRST_DYNAMIC_ROOM_ID;
  ii_dms : dm_table (iw_db w) = ∅;
  ii_writer : state_writer (iw_store w) = Some p;
  ii_inserts : pw_dm_inserts p = [];
  ii_numbers : below_limit r w -> id_numbers tight r dead c w p;
}.

Lemma ids_of_snoc r ids room id : ids_of r (ids ++ [(room, id)]) = ids_of r ids ++ (if decide (room = r) then [id] else []).
Proof. unfold ids_of. rewrite omap_app. cbn. by case_decide. Qed.

Lemma sorted_snoc l x : StronglySorted Z.lt l -> default 0 (last l) < x -> (0 <= default 0 (last l)) -> StronglySorted Z.lt (l ++ [x]).
Proof.
  intros S Hx H0. apply StronglySorted_app. split; [|split; [done|by repeat constructor]].
  intros a b Ha Hb. apply list_elem_of_singleton in Hb as ->. destruct (last l) as [y|] eqn:El.
  - apply last_Some in El as [k ->]. cbn in Hx. apply elem_of_app in Ha as [Ha|Ha].
    + apply StronglySorted_app in S as (S & _). specialize (S a y Ha ltac:(by left)). unfold id in *. lia.
    + apply list_elem_of_singleton in Ha as ->. done.
  - apply last_None in El as ->. by apply not_elem_of_nil in Ha.
Qed.

Lemma steps_of_snoc n l x : steps_of n l -> l = [] \/ x <= default 0 (last l) + n -> steps_of n (l ++ [x]).
Proof.
  intros S Hx i a b Ha Hb. apply lookup_snoc_Some in Hb as [[Hlt Hb]|[Hi <-]].
  - rewrite lookup_app_l in Ha by lia. eauto.
  - destruct Hx as [->|Hx]; [done|]. rewrite lookup_app_l in Ha by lia.
    rewrite last_lookup, <- Hi in Hx. cbn [pred] in Hx. rewrite Ha in Hx. exact Hx.
Qed.

(** *** Its preservation *)

Lemma allocate_inv t tight r dead c w p room w' :
  id_inv tight r dead c w p -> id_step t w (IdAllocate room) = Some w' ->
  exists p', id_inv tight r dead (if decide (room = r) then match c with Covered n => Covered (S n) | _ => Exposed end else c) w' p'.
Proof.
  intros [I1 I2 I3 I4 I5 Inum]. cbn [id_step].
  destruct (allocate_base (iw_store w) p room I4) as (p' & Hw' & Hins & Eid). pose proof (allocate_room (iw_store w) p p' room r I4) as Hal.
  destruct (RoomStore.allocate_message_id (iw_store w) room) as [s id] eqn:Ea. cbn [fst snd] in *. subst id.
  intros [= <-]. exists p'. constructor; cbn [iw_store iw_db]; try done; [congruence|]. unfold below_limit. cbn [iw_ids]. rewrite ids_of_snoc.
  intros [Hlim Hnew]%Forall_app. destruct (Inum Hlim) as [I6 I7 I8 I9 I10 I11 I12]. clear Inum.
  destruct Hal as [A1 A2 A3 A4 A5 A6 A7 A8]; [|done|].
  { intros ->. rewrite (decide_True (P := room = room)) in Hnew by done. rewrite Forall_singleton in Hnew.
    unfold last_of in I7. unfold id in *; lia. }
  unfold last_of in *.
  destruct (decide (room = r)) as [->|Hne].
  - specialize (A5 eq_refl). specialize (A6 eq_refl). specialize (A7 eq_refl). specialize (A8 eq_refl).
    unfold MESSAGE_ID_RESERVE in *. change (1024 / 2) with 512 in *.
    assert (reserved_of (iw_db w) p' r <= Z.max (reserved_of (iw_db w) p r) (mark_of s r)) as Hup.
    { unfold reserved_of. destruct A8 as [[-> _]| ->]; [lia|]. destruct (pw_watermarks p !! r); lia. }
    assert (dead = false -> mark_of s r <= reserved_of (iw_db w) p' r) as Hres.
    { intros Hd. specialize (I10 Hd). specialize (I6 Hd). unfold reserved_of in *.
      destruct A8 as [[-> [E|E]]| ->]; [congruence|congruence|]. destruct (pw_watermarks p !! r); lia. }
    constructor; cbn [iw_store iw_db iw_ids]; unfold last_of; cbn [iw_ids]; rewrite ?ids_of_snoc, ?(decide_True (P := r = r)) by done;
      rewrite ?last_snoc; cbn [default]; unfold id; unfold MESSAGE_ID_RESERVE; change (1024 / 2) with 512; try done.
    + by rewrite A3.
    + lia.
    + destruct c; [done|done|]. lia.
    + intros Ht. destruct (I11 Ht) as (T1 & T2 & T3 & T4). split_and!; [lia|lia|lia|].
      apply steps_of_snoc; [done|]. right. unfold id in *. lia.
    + apply sorted_snoc; [done|lia|lia].
  - destruct (A4 ltac:(done)) as (B1 & B2 & B3).
    constructor; cbn [iw_store iw_db iw_ids]; unfold last_of, reserved_of in *; cbn [iw_ids]; rewrite ?ids_of_snoc, ?(decide_False (P := room = r)) by done;
      rewrite ?app_nil_r, ?B1, ?B2, ?B3; try done. by rewrite A3.
Qed.

Lemma write_inv t tight r dead c w p ok retry w' :
  id_inv tight r dead c w p -> id_step t w (IdWrite ok retry) = Some w' ->
  exists p', id_inv tight r (dead || negb (ok || retry))
    (if negb dead && (ok || retry) then match c with Fresh => Fresh | _ => Covered 0 end else c) w' p'.
Proof.
  intros [I1 I2 I3 I4 I5 Inum]. cbn [id_step]. rewrite I4.
  destruct (writer_turn ok retry (iw_db w) p) as [[[db' p'] ev] live] eqn:Ew.
  destruct (writer_turn_room ok retry (iw_db w) p r db' p' ev live I1 I5 Ew) as [W1 W2 W3 W4 W5 W6 W7 W8].
  intros [= <-]. exists p'. constructor; cbn [iw_store iw_db iw_ids]; [congruence|congruence|congruence|done|done|].
  intros Hlim. destruct (Inum Hlim) as [I6 I7 I8 I9 I10 I11 I12]. clear Inum.
  assert (stored_of (iw_db w) r <= stored_of db' r <= reserved_of (iw_db w) p r) as Hst.
  { destruct (ok || retry); [rewrite W8 by done|]; unfold reserved_of, stored_of in *; [destruct (pw_watermarks p !! r); lia|].
    rewrite W7 by auto. destruct (pw_watermarks p !! r); lia. }
  assert (reserved_of db' p' r <= reserved_of (iw_db w) p r) as Hup.
  { unfold reserved_of in *. destruct W6 as [-> | ->]; [lia|]. destruct (pw_watermarks p !! r); lia. }
  assert (mark_of (set_state (Some p') (state_events (iw_store w)) (iw_store w)) r = mark_of (iw_store w) r) as Hm by done.
  assert (ok || retry = true -> reserved_of db' p' r = reserved_of (iw_db w) p r) as Heq.
  { intros Hd. specialize (W8 Hd). unfold reserved_of in *. destruct W6 as [-> | ->]; [lia|].
    destruct (pw_watermarks p !! r); lia. }
  constructor; cbn [iw_store iw_db iw_ids]; unfold last_of in *; cbn [iw_ids]; rewrite ?Hm; try done.
  - intros Hd. apply orb_false_elim in Hd as [Hd Hw]. apply negb_false_iff in Hw. rewrite (W5 Hw). auto.
  - destruct c as [| |n].
    + destruct I8 as (J1 & J2 & J3).
      destruct (negb dead && (ok || retry)); rewrite W7, J3 by auto; (split_and!; [done|by destruct W6 as [-> | ->]|]);
      unfold stored_of; by rewrite W7 by auto.
    + destruct dead; [done|]. cbn [negb andb]. destruct (ok || retry) eqn:Ed; [|done].
      specialize (I9 ltac:(done)). specialize (I10 eq_refl). rewrite W8 by done. cbn [next_of]. unfold next_of in *. cbn in *. lia.
    + destruct (negb dead && (ok || retry)) eqn:Ed; [|unfold next_of in *; cbn in *; lia].
      apply andb_prop in Ed as [Hd Ed]. apply negb_true_iff in Hd as ->.
      specialize (I9 ltac:(done)). specialize (I10 eq_refl). rewrite W8 by done. unfold next_of in *. cbn in *. lia.
  - intros Hc. apply I9. intros ->. apply Hc. by destruct (negb dead && (ok || retry)).
  - intros Hd. apply orb_false_elim in Hd as [Hd Hw]. apply negb_false_iff in Hw. rewrite (Heq Hw). auto.
  - intros Ht. destruct (I11 Ht) as (T1 & T2 & T3 & T4). unfold next_of in *. cbn in *. split_and!; (done || lia).
Qed.

(** A start, after whatever was handed out before. *)
Lemma open_inv t tight r io configured disk db ids :
  (schema_version db = None \/ schema_version db = Some SCHEMA_VERSION /\ stored_next db = FIRST_DYNAMIC_ROOM_ID) ->
  dm_table db = ∅ -> (tight = true -> (r, PersistDurable) ∉ configured.*1) ->
  let last := default 0 (last (ids_of r ids)) in
  (Forall (fun id => id < ID_LIMIT) (ids_of r ids) ->
   0 <= last < default 1 (watermark_table db !! r) /\ StronglySorted Z.lt (ids_of r ids) /\
   (tight = true -> stored_of db r <= last + 2 * MESSAGE_ID_RESERVE /\ steps_of (2 * MESSAGE_ID_RESERVE) (ids_of r ids))) ->
  exists w, id_open t io configured disk db ids = Some w /\ id_inv tight r false Fresh w no_pending.
Proof.
  intros Hs Hd Hr last Hnum.
  destruct (id_open_ok t io configured disk db ids r Hs Hd) as (w & E & W1 & W2 & W3 & W4 & W5 & W6 & W7 & W8 & W9).
  exists w. split; [done|]. constructor; try done. unfold below_limit. rewrite W1. intros Hlim.
  destruct (Hnum Hlim) as (Hlast & Hsort & Ht). unfold stored_of in Ht.
  constructor; unfold last_of, stored_of, mark_of, reserved_of; cbn [pw_watermarks no_pending]; rewrite ?W1, ?W5, ?W7, ?lookup_empty;
    try done.
  - fold last. lia.
  - fold last. split_and!; (done || lia).
  - unfold stored_of. rewrite W5. lia.
  - intros T. rewrite (W9 (Hr T)). destruct (Ht T) as [T1 T2]. fold last. unfold stored_of. rewrite W5. unfold MESSAGE_ID_RESERVE in *.
    split_and!; [|lia|lia|done]. destruct (watermark_table db !! r); cbn in *; unfold id in *; lia.
Qed.

Lemma restart_inv t tight r dead c w p io configured disk :
  id_inv tight r dead c w p ->
  match c with Fresh => true | Exposed => false | Covered n => bool_decide (Z.of_nat n <= MESSAGE_ID_RESERVE / 2) end = true ->
  (tight = true -> (r, PersistDurable) ∉ configured.*1) ->
  exists w', id_step t w (IdRestart io configured disk) = Some w' /\ id_inv tight r false Fresh w' no_pending.
Proof.
  intros [I1 I2 I3 I4 I5 Inum] Hc Hr. cbn [id_step]. apply open_inv; [by right|done|done|]. intros Hlim.
  destruct (Inum Hlim) as [I6 I7 I8 I9 I10 I11 I12]. split; [|split; [done|]].
  - fold (last_of w r). destruct c as [| |n]; [lia|done|]. apply bool_decide_eq_true in Hc. unfold stored_of in I8.
    destruct (watermark_table (iw_db w) !! r); cbn in *; unfold id in *; lia.
  - intros T. destruct (I11 T) as (T1 & T2 & T3 & T4). split; [|done]. fold (last_of w r). unfold reserved_of in T3.
    destruct (pw_watermarks p !! r); lia.
Qed.

Definition unlogged (r : Z) (step : IdStep) : Prop :=
  match step with IdRestart _ configured _ => (r, PersistDurable) ∉ configured.*1 | _ => True end.

Lemma run_inv_ids t tight r steps : forall dead c w p,
  id_inv tight r dead c w p -> keeps_up r dead c steps = true -> (tight = true -> Forall (unlogged r) steps) ->
  exists w' dead' c' p', id_run t w steps = Some w' /\ id_inv tight r dead' c' w' p'.
Proof.
  induction steps as [|step steps IH]; intros dead c w p I Hk Hu; [by exists w, dead, c, p|].
  assert (tight = true -> unlogged r step /\ Forall (unlogged r) steps) as Hu' by (intros T; by apply Forall_cons, Hu).
  cbn [id_run]. destruct step as [room|ok retry|io configured disk]; cbn [keeps_up] in Hk.
  - destruct (id_step t w (IdAllocate room)) as [w1|] eqn:E; [|cbn in E; by destruct (RoomStore.allocate_message_id _ _)].
    destruct (allocate_inv _ _ _ _ _ _ _ _ _ I E) as (p1 & I1). cbn [mbind option_bind].
    by apply (IH _ _ _ _ I1); [|intros T; apply Hu'].
  - destruct (id_step t w (IdWrite ok retry)) as [w1|] eqn:E.
    + destruct (write_inv _ _ _ _ _ _ _ _ _ _ I E) as (p1 & I1). cbn [mbind option_bind].
      apply (IH _ _ _ _ I1); [|intros T; by apply Hu'].
      destruct dead; [by rewrite orb_true_l|]. by destruct (ok || retry).
    + cbn in E. destruct (state_writer _); [|done]. by destruct (writer_turn _ _ _ _) as [[[? ?] ?] ?].
  - apply andb_prop in Hk as [Hc Hk].
    destruct (restart_inv t tight r dead c w p io configured disk I Hc) as (w1 & -> & I1); [intros T; apply (Hu' T)|].
    cbn [mbind option_bind]. by apply (IH _ _ _ _ I1); [|intros T; apply Hu'].
Qed.

(** A server's first start, then the steps. *)
Definition id_life (t : StoreTuning) (io : OpenIo) (configured : list (Z * RoomPersistenceConfig * nat))
    (disk : gmap Z RoomDir) (steps : list IdStep) : option IdWorld :=
  w ← id_open t io configured disk new_database []; id_run t w steps.

Lemma id_life_inv t tight io configured disk steps r :
  keeps_up r false Fresh steps = true ->
  (tight = true -> Forall (unlogged r) (IdRestart io configured disk :: steps)) ->
  exists w dead c p, id_life t io configured disk steps = Some w /\ id_inv tight r dead c w p.
Proof.
  intros Hk Hu. unfold id_life.
  assert (tight = true -> unlogged r (IdRestart io configured disk) /\ Forall (unlogged r) steps) as Hu'
    by (intros T; by apply Forall_cons, Hu).
  destruct (open_inv t tight r io configured disk new_database []) as (w & -> & I);
    [by left|done|intros T; apply (Hu' T)| |].
  - intros _. split; [done|]. split; [exact (SSorted_nil Z.lt)|]. intros _. split; [done|]. by intros [|i] a b.
  - cbn [mbind option_bind]. apply (run_inv_ids t tight r steps _ _ _ _ I Hk). intros T. apply (Hu' T).
Qed.

Lemma sorted_NoDup l : StronglySorted Z.lt l -> NoDup l.
Proof.
  induction 1 as [|x l _ IH Hx]; constructor; [|done]. intros Hin. rewrite Forall_forall in Hx. specialize (Hx x Hin). lia.
Qed.

(** ** Properties *)


(** The condition is needed: the first id of a life lies above every stored
    reservation, so a crash before the writer's first transaction hands it out again. *)
Example first_id_before_its_reservation :
  let io := {| oi_truncate := true; oi_open := true |} in
  let configured := [(7, PersistMemory, 16%nat)] in
  (fun w => ids_of 7 (iw_ids w)) <$>
    id_life {| max_active_log_bytes := 100; max_resident_messages := 8 |} io configured ∅
      [IdAllocate 7; IdRestart io configured ∅; IdAllocate 7] = Some [1; 1].
Proof. vm_compute. reflexivity. Qed.

