(* ===== verification/RoomDurability.v ===== *)
(** * What survives a restart

    The durability of room logs and of message ids: theorems about [RoomLog],
    [RoomState] and [RoomStore]. *)

From Stdlib Require Import Sorting.Sorted.
From stdpp Require Import sorting.
From S2P Require Import Prelude Text Frame History Resident RoomLog RoomState RoomStore.

(** ** Opening a room on the files a worker left *)

(** The active log as a crash may leave it. *)
Definition active_state (d : RoomDir) (act : list ChatMessage) : Prop :=
  (exists i tail, active_holds d i act tail /\ torn tail) \/ (active_name d = None /\ act = []).

Lemma worker_ok_active d s segs act : worker_ok d s segs act -> active_state d act.
Proof.
  intros W. pose proof (wo_file _ _ _ _ W) as F. destruct (w_file s) as [i| |].
  - left. exists i, []. split; [done|apply torn_nil].
  - by right.
  - left. exact F.
Qed.

Definition seg_first (seg : list ChatMessage) : Z := default 0 (first_id_of seg).

Lemma seg_first_in d seg : seg_ok d seg -> exists m, m ∈ seg /\ message_id m = seg_first seg.
Proof. intros (id & i & Hf & _). unfold seg_first. rewrite Hf. by apply first_id_of_head. Qed.

Lemma segs_sorted d segs act : log_ok d segs act -> StronglySorted Z.lt (seg_first <$> segs).
Proof.
  intros [_ A S _].
  assert (ascending (mjoin segs)) as A'.
  { unfold ascending in *. rewrite fmap_app in A. by apply StronglySorted_app_1_l in A. }
  clear A. induction S as [|seg segs Hs S IH]; [constructor|].
  change (mjoin (seg :: segs)) with (seg ++ mjoin segs) in A'. rewrite fmap_cons. constructor.
  - apply IH. unfold ascending in *. rewrite fmap_app in A'. by apply StronglySorted_app_1_r in A'.
  - rewrite Forall_fmap, Forall_forall. intros k Hk. cbn. rewrite Forall_forall in S.
    destruct (seg_first_in d seg Hs) as (x & Hx & <-), (seg_first_in d k (S k Hk)) as (y & Hy & <-).
    apply (ascending_app_lt seg (mjoin segs)); [done|done|]. apply list_elem_of_join. eauto.
Qed.

Lemma sorted_lt_nodup l : StronglySorted Z.lt l -> NoDup l.
Proof.
  induction 1 as [|x l S IH Hx]; constructor; [|done]. intros Hin. rewrite Forall_forall in Hx. specialize (Hx x Hin). lia.
Qed.

Lemma sorted_lt_le l : StronglySorted Z.lt l -> StronglySorted Z.le l.
Proof. induction 1 as [|x l S IH Hx]; constructor; [done|]. eapply Forall_impl; [exact Hx|]. cbn. lia. Qed.

(** The listing finds the segments in order. *)
Lemma list_segments_ok d segs act : log_ok d segs act -> list_segments d = seg_first <$> segs.
Proof.
  intros L. pose proof (segs_sorted _ _ _ L) as S. unfold list_segments.
  apply (StronglySorted_unique Z.le).
  - apply StronglySorted_merge_sort; apply _.
  - by apply sorted_lt_le.
  - rewrite merge_sort_Permutation. apply NoDup_Permutation; [apply NoDup_fst_map_to_list|by apply sorted_lt_nodup|].
    intros k. split.
    + intros ([k' i] & -> & Hin)%list_elem_of_fmap_1. apply elem_of_map_to_list in Hin.
      destruct (lo_names _ _ _ L _ _ Hin) as (seg & Hs & Hf). cbn. replace k' with (seg_first seg) by (unfold seg_first; by rewrite Hf).
      by apply list_elem_of_fmap_2.
    + intros (seg & -> & Hs)%list_elem_of_fmap_1. pose proof (lo_segs _ _ _ L) as Hok. rewrite Forall_forall in Hok.
      destruct (Hok seg Hs) as (id & i & Hf & Hn & _). unfold seg_first. rewrite Hf. cbn.
      apply (list_elem_of_fmap_2 fst (map_to_list (segment_names d)) (id, i)). by apply elem_of_map_to_list.
Qed.

Lemma read_segment d seg :
  seg_ok d seg -> read_file d (segment_names d !! seg_first seg) = Contents (log_bytes seg).
Proof. intros (id & i & Hf & Hn & Hi). unfold seg_first, read_file. rewrite Hf. cbn. by rewrite Hn, Hi. Qed.

Lemma load_segment d seg :
  seg_ok d seg -> Forall fits seg ->
  resident (loaded_history (load_log (read_file d (segment_names d !! seg_first seg)) ReadOnly true).1) (msg_record <$> seg).
Proof.
  intros Hs Hf. rewrite (read_segment d seg Hs).
  destruct (load_log_contents seg [] ReadOnly true Hf torn_nil) as (h & E & R). rewrite app_nil_r in E. by rewrite E.
Qed.

Lemma load_segments_ok d max total rsegs :
  Forall (seg_ok d) rsegs -> Forall (Forall fits) rsegs ->
  exists k, Forall2 (fun h seg => resident h (msg_record <$> seg)) (load_segments d max total (seg_first <$> rsegs)) (take k rsegs) /\
    (k = length rsegs \/ max <= total + length (mjoin (take k rsegs)))%nat.
Proof.
  intros Hs. revert total. induction Hs as [|seg rsegs Hseg Hs IH]; intros total Hf; cbn [fmap list_fmap load_segments].
  - exists O. split; [constructor|by left].
  - apply Forall_cons in Hf as [Hf1 Hf]. case_decide as Hmax.
    + exists O. cbn [take]. split; [constructor|right]. cbn. lia.
    + pose proof (load_segment d seg Hseg Hf1) as R. destruct (IH (total + length seg)%nat Hf) as (k & H2 & Hk).
      exists (S k). cbn [take]. split.
      * constructor; [exact R|]. rewrite (resident_len _ _ R), length_fmap. exact H2.
      * destruct Hk as [->|Hk]; [by left|right]. change (mjoin (seg :: take k rsegs)) with (seg ++ mjoin (take k rsegs)).
        rewrite length_app. lia.
Qed.

Lemma extend_all hs segs h l :
  Forall2 (fun h seg => resident h (msg_record <$> seg)) hs segs -> resident h l ->
  resident (foldl ResidentHistory.extend h hs) (l ++ (msg_record <$> mjoin segs)).
Proof.
  intros H. revert h l. induction H as [|x seg hs segs Hx _ IH]; intros h l R; cbn [foldl].
  - by rewrite app_nil_r.
  - change (mjoin (seg :: segs)) with (seg ++ mjoin segs). rewrite fmap_app, (assoc_L (++)). by apply IH, extend_resident.
Qed.

Lemma newest_app {A} n (a b : list A) : (n <= length b)%nat -> newest n (a ++ b) = newest n b.
Proof.
  intros Hn. unfold newest. rewrite length_app. rewrite drop_app_ge by lia. f_equal. lia.
Qed.

Lemma newest_fmap {A B} (f : A -> B) n l : newest n (f <$> l) = f <$> newest n l.
Proof. unfold newest. by rewrite length_fmap, <- fmap_drop. Qed.

Lemma Forall_join {A} (P : A -> Prop) (l : list (list A)) : Forall P (mjoin l) <-> Forall (Forall P) l.
Proof.
  induction l as [|x l IH]; [split; constructor|]. change (mjoin (x :: l)) with (x ++ mjoin l).
  rewrite Forall_app, Forall_cons, IH. done.
Qed.

Lemma reverse_take_app {A} k (l : list A) : l = reverse (drop k (reverse l)) ++ reverse (take k (reverse l)).
Proof. rewrite <- reverse_app, take_drop. by rewrite reverse_involutive. Qed.

(** The resident window after opening. *)
Lemma open_history d segs act t h :
  log_ok d segs act -> resident h (msg_record <$> act) ->
  let newest_first := load_segments d (max_resident_messages t) (ResidentHistory.len h) (reverse (seg_first <$> segs)) in
  let history :=
    match newest_first with
    | [] => h
    | _ => ResidentHistory.extend (foldl ResidentHistory.extend ResidentHistory.default (reverse newest_first)) h
    end in
  resident (ResidentHistory.trim_to_limit history (max_resident_messages t))
    (msg_record <$> newest (max_resident_messages t) (mjoin segs ++ act)).
Proof.
  intros L R newest_first history. pose proof (lo_fits _ _ _ L) as F. apply Forall_app in F as [F _].
  apply Forall_join in F. pose proof (lo_segs _ _ _ L) as S.
  destruct (load_segments_ok d (max_resident_messages t) (ResidentHistory.len h) (reverse segs)) as (k & H2 & Hk);
    [by apply Forall_reverse|by apply Forall_reverse|].
  rewrite fmap_reverse in H2. fold newest_first in H2. rewrite (resident_len _ _ R), length_fmap in Hk.
  set (loaded := mjoin (reverse (take k (reverse segs)))).
  assert (resident history (msg_record <$> (loaded ++ act))) as Rh.
  { subst history loaded. apply Forall2_reverse in H2 as H2r. destruct newest_first as [|x xs].
    - apply Forall2_length in H2. destruct (take k (reverse segs)); [|done]. done.
    - rewrite fmap_app. apply extend_resident; [|done].
      by apply (extend_all _ _ _ [] H2r), resident_default. }
  apply (trim_resident _ _ (max_resident_messages t)) in Rh.
  fold (newest (max_resident_messages t) (msg_record <$> loaded ++ act)) in Rh. rewrite newest_fmap in Rh.
  replace (newest (max_resident_messages t) (mjoin segs ++ act)) with (newest (max_resident_messages t) (loaded ++ act)); [done|].
  rewrite (reverse_take_app k segs) at 1. rewrite join_app, <- (assoc_L (++)). fold loaded.
  destruct Hk as [Hk|Hk].
  - rewrite (drop_ge (reverse segs)) by lia. done.
  - symmetry. apply newest_app. rewrite length_app. subst loaded.
    assert (forall l : list (list ChatMessage), length (mjoin (reverse l)) = length (mjoin l)) as Hr.
    { clear. induction l as [|x l IH]; [done|]. rewrite reverse_cons, join_app, length_app, IH.
      change (mjoin (x :: l)) with (x ++ mjoin l). change (mjoin [x]) with (x ++ []). rewrite !length_app. cbn. lia. }
    rewrite Hr. lia.
Qed.

Lemma log_ok_set_inode d segs act i bs : unshared d i -> log_ok d segs act -> log_ok (set_inode d i bs) segs act.
Proof.
  intros Hu [F A S N]. constructor; [done|done| |exact N]. eapply Forall_impl; [exact S|].
  intros seg (id & j & Hf & Hn & Hj). exists id, j. split; [done|]. split; [done|].
  cbn [set_inode inodes]. rewrite list_lookup_insert_ne; [done|]. intros ->. by apply (Hu id).
Qed.

(** Loading the active log, and what is left of its file. *)
Lemma load_active io d segs act :
  log_ok d segs act -> active_state d act ->
  exists h, let '(loaded, cut) := load_log (read_file d (active_name d)) Truncate (oi_truncate io) in
    loaded_history loaded = h /\ resident h (msg_record <$> act) /\ valid_bytes loaded = length (log_bytes act) /\
    let d' := match active_name d, cut with Some i, Some n => set_inode d i (take n (read_inode d i)) | _, _ => d end in
    log_ok d' segs act /\ active_state d' act /\ (oi_truncate io = true -> tail_repair_failed loaded = false) /\
    (tail_repair_failed loaded = false -> active_name d' = None \/ exists i, active_holds d' i act []).
Proof.
  intros L [(i & tl & (Hn & Hi & Hu) & Ht)|[Hn ->]].
  - pose proof (lo_fits _ _ _ L) as F. apply Forall_app in F as [_ F].
    destruct (load_log_contents act tl Truncate (oi_truncate io) F Ht) as (h & E & R). exists h.
    unfold read_file. rewrite Hn, Hi, E. cbn [loaded_history valid_bytes tail_repair_failed]. do 3 (split; [done|]).
    assert (active_holds d i act tl) as Ha by done.
    destruct (decide (tl <> [])) as [Hne|Heq].
    + rewrite bool_decide_true by done. rewrite andb_true_r. destruct (oi_truncate io); cbn [negb].
      * cbv beta iota zeta. unfold read_inode. rewrite Hi. cbn [default]. unfold id. rewrite take_app_length.
        assert (active_holds (set_inode d i (log_bytes act)) i act []) as Ha'.
        { split; [done|]. split; [|done]. cbn [set_inode inodes]. rewrite app_nil_r.
          apply list_lookup_insert_eq. by eapply lookup_lt_Some. }
        split_and!; [by apply log_ok_set_inode| |done|by eauto].
        left. exists i, []. split; [done|apply torn_nil].
      * split_and!; [done|left; eauto|done|done].
    + apply dec_stable in Heq as ->. rewrite bool_decide_false by (intros Hc; by apply Hc). rewrite andb_false_r.
      split_and!; [done|left; eauto|done|eauto].
  - exists ResidentHistory.default. rewrite Hn. cbn. rewrite ?Hn.
    split_and!; [done|apply resident_default|done|done|by right|done|by left].
Qed.

Lemma open_active_ok ok d segs act i d' :
  log_ok d segs act -> (active_name d = None /\ act = [] \/ exists j, active_holds d j act []) ->
  open_active_log ok d = Some (i, d') -> log_ok d' segs act /\ active_holds d' i act [].
Proof.
  intros L H E. destruct (open_active_extends _ _ _ _ E) as [Hd Hs].
  split; [by eapply log_ok_extends|]. destruct H as [[Hn ->]|(j & Hj)]; [by eapply open_fresh|].
  destruct Hj as (Hn & Hi & Hu). unfold open_active_log in E. destruct ok; [|done]. rewrite Hn in E. injection E as <- <-. done.
Qed.

Lemma open_durable_ok io t d segs act r d' :
  log_ok d segs act -> active_state d act -> open_durable io true t d = (r, d') ->
  resident (dr_history r) (msg_record <$> newest (max_resident_messages t) (mjoin segs ++ act)) /\
  dr_segments r = seg_first <$> segs /\ dr_active_bytes r = length (log_bytes act) /\
  dr_active_first_id r = first_id_of act /\ dr_path r = true /\ log_ok d' segs act /\ active_state d' act /\
  match dr_file r with Open i => active_holds d' i act [] | Reopen => False | Disabled => oi_truncate io && oi_open io = false end.
Proof.
  intros L A. unfold open_durable. cbn [negb]. destruct (load_active io d segs act L A) as (h & Hload).
  destruct (load_log _ _ _) as [loaded cut] eqn:El. destruct Hload as (Hh & R & Hv & L' & A' & Hrep & Hopen).
  set (d1 := match active_name d with Some _ => _ | None => _ end) in *.
  rewrite (list_segments_ok d segs act L). rewrite Hh.
  pose proof (open_history d1 segs act t h L' R) as Rh. cbn zeta in Rh.
  assert (ResidentHistory.first_message_id h = first_id_of act) as Hfirst.
  { rewrite (resident_first _ _ R), msg_record_ids. by destruct act. }
  destruct (tail_repair_failed loaded) eqn:Etr.
  - intros [= <- <-]. cbn [dr_history dr_segments dr_active_bytes dr_active_first_id dr_path dr_file].
    split_and!; try done. destruct (oi_truncate io); [|done]. by specialize (Hrep eq_refl).
  - destruct (open_active_log (oi_open io) d1) as [[i d2]|] eqn:Eo.
    + intros [= <- <-]. cbn [dr_history dr_segments dr_active_bytes dr_active_first_id dr_path dr_file].
      destruct (open_active_ok _ _ _ _ _ _ L' ltac:(destruct (Hopen eq_refl) as [Hn|?]; [left; split; [done|]|by right];
        destruct A' as [(j & tl & (Hc & _) & _)|[_ ?]]; [by rewrite Hn in Hc|done]) Eo) as [L2 A2].
      split_and!; try done. left. exists i, []. split; [done|apply torn_nil].
    + intros [= <- <-]. cbn [dr_history dr_segments dr_active_bytes dr_active_first_id dr_path dr_file].
      split_and!; try done. unfold open_active_log in Eo. destruct (oi_open io); [by destruct (active_name d1)|].
      by rewrite andb_false_r.
Qed.

(** ** The life of the logs

    The worker's rooms, the files, the rooms whose log could not be opened, for
    which the store hands the worker nothing, and the messages the worker has
    written, by room. *)

Record LogWorld := mkWorld {
  wd_workers : gmap Z RoomLogWorkerState;
  wd_disk : gmap Z RoomDir;
  wd_disabled : gset Z;
  wd_log : Z -> list ChatMessage;
}.

Definition new_world : LogWorld := {| wd_workers := ∅; wd_disk := ∅; wd_disabled := ∅; wd_log := fun _ => [] |}.

(** A write of the worker, or a crash and a restart. *)
Inductive LogStep := LogAppend (io : LogIo) (room : Z) (m : ChatMessage) | LogRestart (io : OpenIo).

Definition log_write (t : StoreTuning) (room : Z) (m : ChatMessage) : RoomLogWrite :=
  {| lw_room_id := room; lw_message_id := message_id m; lw_record := message_bytes m;
     lw_max_active_log_bytes := max_active_log_bytes t; lw_path := true |}.

(** Whether the worker writes the record of this step. *)
Definition step_appends (io : LogIo) (w : LogWorld) (room : Z) (m : ChatMessage) : bool :=
  match wd_workers w !! room with
  | Some s => worker_appends io s (message_bytes m)
  | None => io_open io && write_succeeds io (message_bytes m)
  end.

Definition room_dir (w : LogWorld) (room : Z) : RoomDir := default empty_dir (wd_disk w !! room).

Definition log_step (t : StoreTuning) (w : LogWorld) (step : LogStep) : LogWorld :=
  match step with
  | LogAppend io room m =>
      if decide (room ∈ wd_disabled w) then w
      else
        let '(workers, disk, _) := room_log_worker io (wd_workers w) (wd_disk w) (log_write t room m) in
        {| wd_workers := workers; wd_disk := disk; wd_disabled := wd_disabled w;
           wd_log := fun r => if decide (r = room) then wd_log w r ++ appended (step_appends io w room m) m else wd_log w r |}
  | LogRestart io =>
      let opened := open_durable io true t <$> wd_disk w in
      let workers := map_imap (fun r (o : DurableRoom * RoomDir) =>
        RoomStore.worker_state (fun _ => true) r (RetainDurable o.1)) opened in
      {| wd_workers := workers; wd_disk := snd <$> opened; wd_disabled := dom (wd_disk w) ∖ dom workers;
         wd_log := wd_log w |}
  end.

Definition log_run (t : StoreTuning) (steps : list LogStep) : LogWorld := foldl (log_step t) new_world steps.

Definition room_appends (room : Z) (steps : list LogStep) : list ChatMessage :=
  omap (fun s => match s with LogAppend _ r m => if decide (r = room) then Some m else None | _ => None end) steps.

Definition io_good (io : LogIo) : bool :=
  io_open io && match io_write io with WriteOk => true | _ => false end && io_fresh io.

(** Steps in which nothing fails and every record is within the cap. *)
Definition step_good (s : LogStep) : Prop :=
  match s with
  | LogAppend io _ m => io_good io = true /\ len (message_bytes m) <= MAX_LOG_RECORD_BYTES
  | LogRestart io => oi_truncate io && oi_open io = true
  end.

Definition step_wf (s : LogStep) : Prop := match s with LogAppend _ _ m => message_wf m | LogRestart _ => True end.

(** What holds of one room. *)
Record room_inv (w : LogWorld) (r : Z) (segs : list (list ChatMessage)) (act : list ChatMessage) : Prop := {
  ri_log : wd_log w r = mjoin segs ++ act;
  ri_files : log_ok (room_dir w r) segs act;
  ri_active : active_state (room_dir w r) act;
  ri_worker : match wd_workers w !! r with
              | Some s => worker_ok (room_dir w r) s segs act
              | None => r ∉ wd_disabled w -> active_name (room_dir w r) = None /\ segs = [] /\ act = []
              end;
}.

Definition writable (w : LogWorld) : Prop :=
  wd_disabled w = ∅ /\ forall r s, wd_workers w !! r = Some s -> w_file s <> Disabled.

Lemma new_room_inv r : room_inv new_world r [] [].
Proof.
  assert (room_dir new_world r = empty_dir) as E by (unfold room_dir; cbn; by rewrite lookup_empty).
  constructor; rewrite ?E; [done| |by right|].
  - constructor; [constructor|constructor|constructor|]. intros k i. cbn. by rewrite lookup_empty.
  - cbn. rewrite lookup_empty. done.
Qed.

(** A worker that just opened the log of a new room. *)
Lemma fresh_worker_ok d i d' ok :
  log_ok d [] [] -> active_name d = None -> open_active_log ok d = Some (i, d') ->
  worker_ok d' {| w_file := Open i; needs_read_handle := true; w_active_bytes := 0; w_active_first_id := None |} [] [].
Proof.
  intros L Hn E. destruct (open_active_extends _ _ _ _ E) as [Hd Hs].
  constructor; [by eapply log_ok_extends|by eapply open_fresh|done|done].
Qed.

(** The files of another room are not touched. *)
Lemma room_inv_other w w' r segs act :
  wd_workers w' !! r = wd_workers w !! r -> wd_disk w' !! r = wd_disk w !! r ->
  wd_log w' r = wd_log w r -> wd_disabled w' = wd_disabled w -> room_inv w r segs act -> room_inv w' r segs act.
Proof.
  intros E1 E2 E3 E4 [H1 H2 H3 H4]. assert (room_dir w' r = room_dir w r) as E by (unfold room_dir; by rewrite E2).
  constructor; rewrite ?E, ?E1, ?E3, ?E4; done.
Qed.

Lemma log_write_of t room m log :
  message_wf m -> Forall (fun x => message_id x < message_id m) log -> write_of (log_write t room m) m log.
Proof. intros. by constructor. Qed.

Lemma append_room_inv t w io r m segs act :
  message_wf m -> Forall (fun x => message_id x < message_id m) (wd_log w r) -> room_inv w r segs act ->
  exists segs' act', room_inv (log_step t w (LogAppend io r m)) r segs' act'.
Proof.
  intros Wm Hlt [Hlog Hfiles Hact Hw]. unfold log_step. case_decide as Hdis; [by exists segs, act|].
  rewrite Hlog in Hlt. pose proof (log_write_of t r m _ Wm Hlt) as Wr. unfold step_appends, room_log_worker.
  cbn [log_write lw_room_id lw_path lw_message_id]. fold (room_dir w r).
  destruct (wd_workers w !! r) as [s|] eqn:Ew.
  - destruct (worker_turn io _ false (room_dir w r) s) as [[d' s'] e] eqn:Et.
    destruct (worker_turn_ok _ _ _ _ _ _ _ _ _ _ _ Hw Wr Et) as (segs' & act' & W' & Hd & Hj). exists segs', act'.
    constructor; unfold room_dir; cbn [wd_workers wd_disk wd_log wd_disabled]; rewrite ?lookup_insert_eq; cbn [default].
    + rewrite decide_True by done. rewrite Hlog, Hj. by rewrite <- (assoc_L (++)).
    + apply W'.
    + by eapply worker_ok_active.
    + exact W'.
  - destruct (Hw Hdis) as (Hn & -> & ->). cbn [mjoin list_join app] in *.
    destruct (open_active_log (io_open io) (room_dir w r)) as [[i d1]|] eqn:Eo.
    + pose proof (fresh_worker_ok _ _ _ _ Hfiles Hn Eo) as W1.
      assert (io_open io = true) as Hopen by (unfold open_active_log in Eo; by destruct (io_open io)).
      destruct (worker_turn io _ true d1 _) as [[d' s'] e] eqn:Et.
      destruct (worker_turn_ok _ _ _ _ _ _ _ _ _ _ _ W1 Wr Et) as (segs' & act' & W' & Hd & Hj). exists segs', act'.
      constructor; unfold room_dir; cbn [wd_workers wd_disk wd_log wd_disabled]; rewrite ?lookup_insert_eq; cbn [default].
      * rewrite decide_True by done. rewrite Hlog, Hj. cbn [mjoin list_join app]. unfold worker_appends. cbn [w_file]. by rewrite Hopen.
      * apply W'.
      * by eapply worker_ok_active.
      * exact W'.
    + assert (io_open io = false) as Hopen.
      { unfold open_active_log in Eo. destruct (io_open io); [by destruct (active_name _)|done]. }
      exists [], []. constructor; cbn [wd_workers wd_disk wd_log wd_disabled]; [|done|done|by rewrite Ew].
      rewrite decide_True, Hlog, Hopen by done. done.
Qed.

Lemma append_other_inv t w io room m r segs act :
  r <> room -> room_inv w r segs act -> room_inv (log_step t w (LogAppend io room m)) r segs act.
Proof.
  intros Hne. unfold log_step. case_decide; [done|]. unfold room_log_worker. cbn [log_write lw_room_id lw_path].
  repeat case_match; simplify_eq; apply room_inv_other; cbn [wd_workers wd_disk wd_log wd_disabled];
    rewrite ?lookup_insert_ne by done; rewrite ?decide_False by done; done.
Qed.

Lemma empty_dir_log segs act : log_ok empty_dir segs act -> active_state empty_dir act -> segs = [] /\ act = [].
Proof.
  intros L A. split.
  - destruct segs as [|seg segs]; [done|]. pose proof (lo_segs _ _ _ L) as S. apply Forall_cons in S as [(id & i & _ & Hn & _) _].
    cbn in Hn. by rewrite lookup_empty in Hn.
  - by destruct A as [(i & tl & (Hn & _) & _)|[_ ?]].
Qed.

(** What the opened room hands the worker. *)
Lemma worker_state_ok d segs act r s room :
  log_ok d segs act -> dr_active_bytes r = length (log_bytes act) -> dr_active_first_id r = first_id_of act ->
  match dr_file r with Open i => active_holds d i act [] | Reopen => False | Disabled => True end ->
  RoomStore.worker_state (fun _ => true) room (RetainDurable r) = Some s ->
  worker_ok d s segs act /\ w_file s <> Disabled.
Proof.
  intros L Hb Hf Hfile. unfold RoomStore.worker_state. destruct (dr_path r); [|done].
  destruct (dr_file r); [|done..]. intros [= <-]. split; [|done]. by constructor.
Qed.

Lemma restart_room_inv t w io r segs act :
  room_inv w r segs act -> room_inv (log_step t w (LogRestart io)) r segs act.
Proof.
  intros [Hlog Hfiles Hact Hw]. unfold log_step. set (opened := open_durable io true t <$> wd_disk w).
  set (workers := map_imap _ opened). unfold room_dir in *.
  assert (opened !! r = open_durable io true t <$> wd_disk w !! r) as Eo by apply lookup_fmap.
  assert (workers !! r = o ← opened !! r; RoomStore.worker_state (fun _ => true) r (RetainDurable o.1)) as Ewk
    by apply map_lookup_imap.
  constructor; unfold room_dir; cbn [wd_log wd_workers wd_disk wd_disabled]; rewrite ?lookup_fmap, ?Ewk, ?Eo; [done|..].
  all: destruct (wd_disk w !! r) as [d|] eqn:Ed; cbn [fmap option_fmap option_map default mbind option_bind] in *; [|try done].
  4: { destruct (empty_dir_log _ _ Hfiles Hact) as [-> ->]. done. }
  all: destruct (open_durable io true t d) as [room d'] eqn:Eopen; unfold id in *; cbn [fst snd].
  all: destruct (open_durable_ok _ _ _ _ _ _ _ Hfiles Hact Eopen) as (_ & _ & Hb & Hf & _ & L' & A' & Hfile).
  1,2: done.
  destruct (RoomStore.worker_state (fun _ => true) r (RetainDurable room)) as [s|] eqn:Es.
  - eapply worker_state_ok; [done..| |done]. by destruct (dr_file room).
  - intros Hnot. exfalso. apply Hnot. apply elem_of_difference. split; [by eapply elem_of_dom_2|].
    apply not_elem_of_dom. by rewrite Ewk, Eo.
Qed.

Lemma room_appends_app r a b : room_appends r (a ++ b) = room_appends r a ++ room_appends r b.
Proof. apply omap_app. Qed.

Lemma log_run_snoc t steps s : log_run t (steps ++ [s]) = log_step t (log_run t steps) s.
Proof. unfold log_run. by rewrite foldl_app. Qed.

Lemma wd_log_append t w io room m r :
  wd_log (log_step t w (LogAppend io room m)) r =
  if decide (r = room /\ room ∉ wd_disabled w) then wd_log w r ++ appended (step_appends io w room m) m else wd_log w r.
Proof.
  unfold log_step. destruct (decide (room ∈ wd_disabled w)); [by rewrite decide_False by naive_solver|].
  destruct (room_log_worker _ _ _ _) as [[? ?] ?]. cbn [wd_log].
  destruct (decide (r = room)); [by rewrite decide_True|by rewrite decide_False by naive_solver].
Qed.

(** Every room keeps its invariant, and its log holds only messages appended to it. *)
Lemma run_inv t steps :
  Forall step_wf steps -> (forall r, ascending (room_appends r steps)) ->
  forall r, Forall (.∈ room_appends r steps) (wd_log (log_run t steps) r) /\
    exists segs act, room_inv (log_run t steps) r segs act.
Proof.
  induction steps as [|s steps IH] using rev_ind; intros Hwf Hasc r.
  { split; [constructor|]. exists [], []. apply new_room_inv. }
  apply Forall_app in Hwf as [Hwf [Hs _]%Forall_cons]. rewrite log_run_snoc.
  assert (forall r, ascending (room_appends r steps)) as Hasc'.
  { intros r'. specialize (Hasc r'). rewrite room_appends_app in Hasc. unfold ascending in *.
    rewrite fmap_app in Hasc. by apply StronglySorted_app_1_l in Hasc. }
  destruct (IH Hwf Hasc' r) as (Hsub & segs & act & R). destruct s as [io room m|io].
  - split.
    + rewrite wd_log_append, room_appends_app. case_decide as Hc.
      * destruct Hc as [-> _]. apply Forall_app. split.
        -- eapply Forall_impl; [exact Hsub|]. intros x Hx. apply elem_of_app. by left.
        -- destruct (step_appends io _ room m); [|constructor]. apply Forall_singleton. apply elem_of_app. right.
           cbn. rewrite decide_True by done. by left.
      * eapply Forall_impl; [exact Hsub|]. intros x Hx. apply elem_of_app. by left.
    + destruct (decide (r = room)) as [->|Hne]; [|exists segs, act; by apply append_other_inv].
      eapply append_room_inv; [done| |done]. eapply Forall_impl; [exact Hsub|]. intros x Hx.
      specialize (Hasc room). rewrite room_appends_app in Hasc. apply (ascending_app_lt _ _ x m Hasc Hx).
      cbn. rewrite decide_True by done. by left.
  - split; [|exists segs, act; by apply restart_room_inv].
    rewrite room_appends_app. cbn. rewrite app_nil_r. exact Hsub.
Qed.

(** *** Nothing is lost while nothing fails *)

Lemma worker_reopen_writable io d s : w_file s <> Disabled -> w_file (worker_reopen io d s).1.2 <> Disabled.
Proof. intros. unfold worker_reopen. repeat case_match; simplify_eq; cbn; congruence. Qed.

Lemma worker_handle_writable io new_room s e : w_file s <> Disabled -> w_file (worker_handle io new_room s e).1.1 <> Disabled.
Proof. intros. unfold worker_handle. repeat case_match; cbn; congruence. Qed.

Lemma worker_append_writable io w d s u e :
  io_write io = WriteOk -> w_file s <> Disabled -> w_file (worker_append io w d s u e).1.1.2 <> Disabled.
Proof.
  intros Hio Hs. unfold worker_append, write_log_record. rewrite Hio. destruct (w_file s) eqn:Ef; [|cbn; congruence..].
  case_decide; cbn; congruence.
Qed.

Lemma worker_rotate_writable io w d s u e : w_file s <> Disabled -> w_file (worker_rotate io w d s u e).1.1.1.2 <> Disabled.
Proof. intros Hs. unfold worker_rotate. repeat case_match; simplify_eq; cbn; congruence. Qed.

Lemma worker_turn_writable io w new_room d s d' s' e :
  io_write io = WriteOk -> w_file s <> Disabled ->
  worker_turn io w new_room d s = (d', s', e) -> w_file s' <> Disabled.
Proof.
  intros Hio Hs. unfold worker_turn. pose proof (worker_reopen_writable io d s Hs) as H1.
  destruct (worker_reopen io d s) as [[d1 s1] e1]. pose proof (worker_handle_writable io new_room s1 e1 H1) as H2.
  destruct (worker_handle _ _ _ _) as [[s2 u2] e2]. pose proof (worker_append_writable io w d1 s2 u2 e2 Hio H2) as H3.
  destruct (worker_append _ _ _ _ _ _) as [[[d3 s3] u3] e3]. pose proof (worker_rotate_writable io w d3 s3 u3 e3 H3) as H4.
  destruct (worker_rotate _ _ _ _ _ _) as [[[[d4 s4] r4] u4] e4]. intros E. simplify_eq. exact H4.
Qed.

Lemma append_writable t w io room m : io_good io = true -> writable w -> writable (log_step t w (LogAppend io room m)).
Proof.
  intros Hio [Hd Hw]. unfold io_good in Hio. destruct (io_write io) eqn:Ewr; [|by rewrite andb_false_r in Hio].
  unfold log_step. rewrite decide_False by (rewrite Hd; set_solver). unfold room_log_worker. cbn [log_write lw_room_id lw_path].
  destruct (wd_workers w !! room) as [s|] eqn:Es.
  - destruct (worker_turn _ _ _ _ _) as [[d' s'] e] eqn:Et. split; [done|]. cbn [wd_workers]. intros r x.
    destruct (decide (r = room)) as [->|]; [|rewrite lookup_insert_ne by done; apply Hw].
    rewrite lookup_insert_eq. intros [= <-]. exact (worker_turn_writable _ _ _ _ _ _ _ _ Ewr (Hw room s Es) Et).
  - destruct (open_active_log _ _) as [[i d1]|]; [|done].
    destruct (worker_turn _ _ _ _ _) as [[d' s'] e] eqn:Et. split; [done|]. cbn [wd_workers]. intros r x.
    destruct (decide (r = room)) as [->|]; [|rewrite lookup_insert_ne by done; apply Hw].
    rewrite lookup_insert_eq. intros [= <-]. by apply (worker_turn_writable _ _ _ _ _ _ _ _ Ewr) in Et.
Qed.

Lemma restart_writable t w io :
  oi_truncate io && oi_open io = true -> (forall r, exists segs act, room_inv w r segs act) ->
  writable (log_step t w (LogRestart io)).
Proof.
  intros Hio Hinv. unfold log_step. set (opened := open_durable io true t <$> wd_disk w).
  set (workers := map_imap _ opened).
  assert (forall r, workers !! r = o ← opened !! r; RoomStore.worker_state (fun _ => true) r (RetainDurable o.1)) as Ewk
    by (intros; apply map_lookup_imap).
  assert (forall r d, wd_disk w !! r = Some d -> exists s, workers !! r = Some s /\ w_file s <> Disabled) as Hall.
  { intros r d Hd. destruct (Hinv r) as (segs & act & [_ Hfiles Hact _]). unfold room_dir in *. rewrite Hd in *. cbn in Hfiles, Hact.
    destruct (open_durable io true t d) as [room d'] eqn:Eopen. unfold id in *.
    destruct (open_durable_ok _ _ _ _ _ _ _ Hfiles Hact Eopen) as (_ & _ & Hb & Hf & Hp & L' & A' & Hfile).
    rewrite Ewk. subst opened. rewrite lookup_fmap, Hd. cbn [fmap option_fmap option_map mbind option_bind]. rewrite Eopen. cbn [fst].
    unfold RoomStore.worker_state. rewrite Hp. destruct (dr_file room) as [i| |]; [|done|by rewrite Hio in Hfile].
    eexists. split; [done|]. done. }
  split; cbn [wd_disabled wd_workers].
  - apply set_eq. intros r. rewrite elem_of_difference, elem_of_dom, not_elem_of_dom. split; [|set_solver].
    intros [[d Hd] Hn]. destruct (Hall r d Hd) as (s & Hs & _). congruence.
  - intros r s Hs. rewrite Ewk in Hs. destruct (wd_disk w !! r) as [d|] eqn:Hd.
    + destruct (Hall r d Hd) as (s' & Hs' & Hne). rewrite Ewk in Hs'. congruence.
    + subst opened. by rewrite lookup_fmap, Hd in Hs.
Qed.

Lemma run_good t steps :
  Forall step_wf steps -> (forall r, ascending (room_appends r steps)) -> Forall step_good steps ->
  writable (log_run t steps) /\ forall r, wd_log (log_run t steps) r = room_appends r steps.
Proof.
  induction steps as [|s steps IH] using rev_ind; intros Hwf Hasc Hgood.
  { split; [|done]. split; [done|]. intros r s. cbn. by rewrite lookup_empty. }
  apply Forall_app in Hwf as [Hwf [Hs _]%Forall_cons]. apply Forall_app in Hgood as [Hgood [Hg _]%Forall_cons].
  rewrite log_run_snoc.
  assert (forall r, ascending (room_appends r steps)) as Hasc'.
  { intros r'. specialize (Hasc r'). rewrite room_appends_app in Hasc. unfold ascending in *.
    rewrite fmap_app in Hasc. by apply StronglySorted_app_1_l in Hasc. }
  destruct (IH Hwf Hasc' Hgood) as [Hw Hlog]. destruct s as [io room m|io].
  - destruct Hg as [Hio Hfit]. split; [by apply append_writable|]. intros r. rewrite wd_log_append, room_appends_app, Hlog.
    destruct Hw as [Hd Hw]. rewrite Hd. cbn [room_appends omap list_omap]. destruct (decide (r = room)) as [->|Hne].
    + rewrite decide_True by (split; [done|set_solver]). rewrite (decide_True (P := room = room)) by done. f_equal.
      unfold step_appends, worker_appends, write_succeeds. rewrite bool_decide_true by done.
      unfold io_good in Hio. destruct (io_open io), (io_write io); try done.
      destruct (wd_workers _ !! room) as [s|] eqn:Es; [|done]. specialize (Hw room s Es). by destruct (w_file s).
    + rewrite decide_False by naive_solver. rewrite decide_False by done. by rewrite app_nil_r.
  - split; [apply restart_writable; [done|]|]; [intros r; apply (run_inv t steps Hwf Hasc' r)|].
    intros r. rewrite room_appends_app. cbn. rewrite app_nil_r. apply Hlog.
Qed.

(** ** Properties *)

(** C16: a durable room that is opened after any sequence of appends and crashes,
    whatever writes, opens and truncations failed on the way, holds in memory the
    newest messages of its log, up to the configured number; the log holds only
    messages appended to the room, in the order of their ids; all of them while
    nothing failed; and when the tail can be repaired and the file opened, the
    room's log takes further records. *)
Theorem room_survives_restart (t : StoreTuning) (steps : list LogStep) (io : OpenIo) (r : Z) (room : DurableRoom) (d : RoomDir) :
  Forall step_wf steps -> (forall r, ascending (room_appends r steps)) ->
  open_durable io true t (room_dir (log_run t steps) r) = (room, d) ->
  let log := wd_log (log_run t steps) r in
  resident (dr_history room) (msg_record <$> newest (max_resident_messages t) log) /\
  Forall (.∈ room_appends r steps) log /\ ascending log /\
  (Forall step_good steps -> log = room_appends r steps) /\
  (oi_truncate io && oi_open io = true -> exists i, dr_file room = Open i).
Proof.
  intros Hwf Hasc Eo log. destruct (run_inv t steps Hwf Hasc r) as (Hsub & segs & act & [Hlog Hfiles Hact _]).
  destruct (open_durable_ok _ _ _ _ _ _ _ Hfiles Hact Eo) as (R & _ & _ & _ & _ & L & _ & Hfile).
  subst log. rewrite Hlog in *. split_and!; [done|done|apply L| |].
  - intros Hgood. rewrite <- Hlog. by apply (run_good t steps Hwf Hasc Hgood).
  - intros Hio. destruct (dr_file room) as [i| |]; [by exists i|done|by rewrite Hio in Hfile].
Qed.

(** ** A concrete life of a log *)

Module LogLife.

Definition message (id : Z) : ChatMessage :=
  {| message_id := id; room_id := 7; sender := 3; sender_name := ascii_bytes "ada"; timestamp_ms := id * 1000;
     body := ascii_bytes "hello"; file_transfer_id := None; flags := 0; target := None |}.
Definition ok_io : LogIo :=
  {| io_open := true; io_clone := true; io_write := WriteOk; io_rename := true; io_fresh := true; io_fresh_clone := true |}.
(** The record is cut short after nine bytes. *)
Definition torn_io : LogIo :=
  {| io_open := true; io_clone := true; io_write := WriteFails 9; io_rename := true; io_fresh := true; io_fresh_clone := true |}.
Definition good_open : OpenIo := {| oi_truncate := true; oi_open := true |}.
(** The log rotates after two messages, and two messages stay resident. *)
Definition tuned : StoreTuning := {| max_active_log_bytes := 100; max_resident_messages := 2 |}.
Definition steps : list LogStep :=
  [LogAppend ok_io 7 (message 1); LogAppend ok_io 7 (message 2); LogAppend ok_io 7 (message 3);
   LogAppend torn_io 7 (message 4); LogRestart good_open].

Lemma message_ok id : is_u64 id -> is_u64 (id * 1000) -> message_wf (message id).
Proof. intros. constructor; cbn; try done; by split. Qed.

Lemma steps_wf : Forall step_wf steps.
Proof. repeat constructor; by apply message_ok. Qed.

Lemma steps_ascending r : ascending (room_appends r steps).
Proof.
  unfold room_appends, steps. cbn [omap list_omap].
  destruct (decide (7 = r)) as [<-|]; cbn [omap list_omap]; [|by constructor]. unfold ascending. cbn. repeat constructor.
Qed.

End LogLife.

(** C16 at a log whose last append was torn by a crash: the three messages
    before it survive, the newest two of them in memory. *)
Lemma room_survives_restart_witness :
  let w := log_run LogLife.tuned LogLife.steps in
  exists room d, open_durable LogLife.good_open true LogLife.tuned (room_dir w 7) = (room, d) /\
    message_id <$> wd_log w 7 = [1; 2; 3] /\
    resident (dr_history room) (msg_record <$> newest (max_resident_messages LogLife.tuned) (wd_log w 7)) /\
    exists i, dr_file room = Open i.
Proof.
  intros w. destruct (open_durable LogLife.good_open true LogLife.tuned (room_dir w 7)) as [room d] eqn:E.
  exists room, d. split; [reflexivity|]. split; [vm_compute; reflexivity|].
  destruct (room_survives_restart LogLife.tuned LogLife.steps LogLife.good_open 7 room d
    LogLife.steps_wf LogLife.steps_ascending E) as (R & _ & _ & _ & F).
  split; [exact R|]. apply F. reflexivity.
Defined.
