(* ===== verification/RoomPaging.v ===== *)
(** * The room's history, paged

    A server whose store hands its appends to the log worker and drains the
    worker's completions, in any interleaving, and what a history request is
    answered with: [fetch_history] of src/crates/server/src/lib.rs on top of
    [RoomStore] and the history reader. *)

From Stdlib Require Import Sorting.Sorted.
From stdpp Require Import sorting.
From S2P Require Import Prelude Text Frame History Resident RoomLog RoomState RoomStore RoomDurability.

(** ** The server *)

Record Server := mkServer {
  sv_store : RoomStore;
  sv_workers : gmap Z RoomLogWorkerState;
  sv_disk : gmap Z RoomDir;
}.

Definition sv_dir (sv : Server) (room : Z) : RoomDir := default empty_dir (sv_disk sv !! room).

(** An append of the event loop, a turn of the worker, a drain of its events. *)
Inductive ServerStep :=
| SvAppend (io : LogIo) (room : Z) (m : ChatMessage)
| SvWork (io : LogIo)
| SvDrain.

(** [None] is a panic. *)
Definition server_step (sv : Server) (step : ServerStep) : option Server :=
  match step with
  | SvAppend io room m =>
      '(s, d, _) ← RoomStore.try_append io (sv_store sv) room m (sv_dir sv room);
      Some {| sv_store := s; sv_workers := sv_workers sv; sv_disk := <[room := d]> (sv_disk sv) |}
  | SvWork io =>
      match log_writer (sv_store sv) with
      | Some (w :: queue) =>
          let '(workers, disk, e) := room_log_worker io (sv_workers sv) (sv_disk sv) w in
          let events := log_events (sv_store sv) ++ match e with Some e => [e] | None => [] end in
          Some {| sv_store := set_log (Some queue) events (pending_log_writes (sv_store sv)) (sv_store sv);
                  sv_workers := workers; sv_disk := disk |}
      | _ => Some sv
      end
  | SvDrain =>
      Some {| sv_store := RoomStore.drain_log_events (sv_store sv); sv_workers := sv_workers sv; sv_disk := sv_disk sv |}
  end.

Fixpoint server_run (sv : Server) (steps : list ServerStep) : option Server :=
  match steps with
  | [] => Some sv
  | step :: steps => sv ← server_step sv step; server_run sv steps
  end.

(** A start on the files in [disk], with the rooms the configuration names. *)
Definition server_start (t : StoreTuning) (state : LoadedState) (configured : list (Z * RoomPersistenceConfig * nat))
    (disk : gmap Z RoomDir) : Server :=
  let '(s, disk) := RoomStore.try_open {| oi_truncate := true; oi_open := true |} true t state configured disk in
  let '(s, workers) := RoomStore.enable_async_log_writes (fun _ => true) s in
  {| sv_store := s; sv_workers := workers; sv_disk := disk |}.

(** ** Answering a history request *)

Definition HISTORY_CHUNK_TARGET_BYTES : nat := Z.to_nat (192 * 1024).
#[global] Opaque HISTORY_CHUNK_TARGET_BYTES.

(** The chunks of a plan, in the order [process_history_deliveries] encodes them
    while the room is not trimmed in between. *)
Fixpoint encode_from (s : RoomStore) (plan : HistoryFetchPlan) (index n : nat) : option (list bytes) :=
  match n with
  | O => Some []
  | S n =>
      match RoomStore.encode_history_chunk s plan index with
      | Ok p => rest ← encode_from s plan (S index) n; Some (p :: rest)
      | Err _ => None
      end
  end.

(** [fetch_history], past its access check and the limits on requests in flight:
    a page from the resident window, or else from disk; the payloads the request
    is answered with. *)
Definition fetch_history (clone : bool) (sv : Server) (room : Z) (before : option Z) (limit : nat) : option (list bytes) :=
  let s := sv_store sv in
  let plan := RoomStore.history_fetch_plan_before s room before limit HISTORY_CHUNK_TARGET_BYTES in
  let request :=
    if decide (plan_message_count plan = O)
    then RoomStore.disk_fetch_request clone s room before limit HISTORY_CHUNK_TARGET_BYTES else None in
  match request with
  | Some rq => execute (sv_dir sv room) rq
  | None => encode_from s plan 0 (HistoryFetchPlan.chunk_count plan)
  end.

(** What the session and the server are at when the request comes in: whether the
    room may be read, whether the session has a live connection, its own and the
    server's requests in flight, whether the handle of the active log can be
    duplicated, and whether the reader thread takes the request. *)
Record HistoryGate := mkGate {
  hg_access : bool;
  hg_live : bool;
  hg_session_pending : Z;
  hg_pending : Z;
  hg_clone : bool;
  hg_reader : bool;
}.

Definition MAX_PENDING_DISK_HISTORY_FETCHES : Z := 8.
Definition MAX_PENDING_HISTORY_FETCHES : Z := 32.

Definition throttled (g : HistoryGate) : bool :=
  bool_decide (MAX_PENDING_DISK_HISTORY_FETCHES <= hg_session_pending g) ||
  bool_decide (MAX_PENDING_HISTORY_FETCHES <= hg_pending g).

(** [send_empty_history_chunk]. *)
Definition empty_answer (room : Z) (before : option Z) : option (option (list bytes)) :=
  p ← empty_chunk room before; Some (Some [p]).

(** The whole of [fetch_history] with [enqueue_disk_history_fetch]; [Some None]
    sends no chunk, [None] is a panic. *)
Definition answer_history (g : HistoryGate) (sv : Server) (room : Z) (before : option Z) (limit : nat)
    : option (option (list bytes)) :=
  if negb (hg_access g) then Some None
  else if negb (hg_live g) then Some None
  else if throttled g then empty_answer room before
  else
    let s := sv_store sv in
    let plan := RoomStore.history_fetch_plan_before s room before limit HISTORY_CHUNK_TARGET_BYTES in
    let from_disk := bool_decide (plan_message_count plan = O) &&
      match RoomStore.disk_fetch_request (hg_clone g) s room before limit HISTORY_CHUNK_TARGET_BYTES with Some _ => true | None => false end in
    if from_disk && negb (hg_reader g) then empty_answer room before
    else payloads ← fetch_history (hg_clone g) sv room before limit; Some (Some payloads).

(** ** The mirror of the log in the event loop *)

Record LogView := mkView {
  v_file : ActiveLog;
  v_bytes : nat;
  v_first : option Z;
  v_segments : list Z;
}.

Definition view_of (r : DurableRoom) : LogView :=
  {| v_file := dr_file r; v_bytes := dr_active_bytes r; v_first := dr_active_first_id r; v_segments := dr_segments r |}.

Definition view_event (e : RoomLogEvent) (v : LogView) : LogView :=
  {| v_file := match le_file e with Keep => v_file v | UpdateOpen i => Open i | UpdateReopen => Reopen | UpdateDisabled => Disabled end;
     v_bytes := le_active_bytes e; v_first := le_active_first_id e;
     v_segments := match le_rotated e with Some id => v_segments v ++ [id] | None => v_segments v end |}.

(** The view describes the first messages of the log. *)
Record view_ok (d : RoomDir) (v : LogView) (segs : list (list ChatMessage)) (act : list ChatMessage) : Prop := {
  vo_segments : v_segments v = seg_first <$> segs;
  vo_bytes : v_bytes v = length (log_bytes act);
  vo_first : v_first v = first_id_of act;
  vo_segs : Forall (seg_ok d) segs;
  vo_file : match v_file v with
            | Open i => exists more, inodes d !! i = Some (log_bytes act ++ more)
            | Reopen => act = []
            | Disabled => False
            end;
}.

Lemma view_ok_extends d d' v segs act : dir_extends d d' -> view_ok d v segs act -> view_ok d' v segs act.
Proof.
  intros Hd [S B F Sg Fi]. constructor; [done|done|done|by eapply segs_extend|].
  destruct (v_file v) as [i| |]; [|done..]. destruct Fi as [more Hm]. destruct Hd as [Hd _].
  destruct (Hd i _ Hm) as [more' ->]. exists (more ++ more'). by rewrite (assoc_L (++)).
Qed.

(** The event loop has the worker's handle, or is about to be sent it. *)
Definition coupled (v : LogView) (s : RoomLogWorkerState) : Prop := needs_read_handle s = true \/ v_file v = w_file s.

(** The view, the events it has yet to see, and the messages they stand for. *)
Inductive lag (d : RoomDir) (s : RoomLogWorkerState) (segs : list (list ChatMessage)) (act : list ChatMessage)
    : LogView -> list RoomLogEvent -> list ChatMessage -> list ChatMessage -> Prop :=
| lag_nil v : view_ok d v segs act -> coupled v s -> lag d s segs act v [] (mjoin segs ++ act) []
| lag_cons v e events segs0 act0 m ms :
    view_ok d v segs0 act0 -> lag d s segs act (view_event e v) events (mjoin segs0 ++ act0 ++ [m]) ms ->
    lag d s segs act v (e :: events) (mjoin segs0 ++ act0) (m :: ms).

Lemma lag_spec d s segs act v events M ms :
  lag d s segs act v events M ms ->
  length events = length ms /\ M ++ ms = mjoin segs ++ act /\
  exists segs0 act0, view_ok d v segs0 act0 /\ M = mjoin segs0 ++ act0.
Proof.
  induction 1 as [v V C|v e events segs0 act0 m ms V _ (H1 & H2 & _)].
  - rewrite app_nil_r. split; [done|]. split; [done|]. by exists segs, act.
  - cbn [length]. split; [lia|]. split; [|by exists segs0, act0]. rewrite <- H2, <- !(assoc_L (++)). done.
Qed.

(** ** A turn of the worker, seen from the event loop *)

Definition io_all (io : LogIo) : Prop :=
  io_open io = true /\ io_clone io = true /\ io_write io = WriteOk /\ io_rename io = true /\ io_fresh io = true /\
  io_fresh_clone io = true.

Lemma worker_handle_view io d s segs act v e s' u e' :
  io_clone io = true -> worker_ok d s segs act -> is_open (w_file s) = true -> coupled v s ->
  worker_handle io false s e = (s', u, e') ->
  needs_read_handle s' = false /\ w_file s' = w_file s /\
  match u with Keep => v_file v | UpdateOpen i => Open i | UpdateReopen => Reopen | UpdateDisabled => Disabled end = w_file s.
Proof.
  intros Hc W Ho C. unfold worker_handle. rewrite Hc. destruct (w_file s) as [i| |] eqn:Ef; [|done..].
  destruct (needs_read_handle s) eqn:En; intros [= <- <- <-]; [done|].
  split; [done|]. split; [done|]. destruct C as [C|C]; [congruence|]. by rewrite C.
Qed.

Lemma worker_append_view io w d s u e d' s' u' e' :
  io_write io = WriteOk -> len (lw_record w) <= MAX_LOG_RECORD_BYTES ->
  worker_append io w d s u e = (d', s', u', e') ->
  u' = u /\ w_file s' = w_file s /\ needs_read_handle s' = needs_read_handle s.
Proof.
  intros Hw Hl. unfold worker_append, write_log_record. destruct (w_file s) eqn:Ef; [|by intros [= <- <- <- <-]..].
  rewrite Hw, decide_False by lia. by intros [= <- <- <- <-].
Qed.

Lemma worker_rotate_view io w d s segs act u e d' s' rot u' e' :
  io_all io -> worker_ok d s segs act -> worker_rotate io w d s u e = (d', s', rot, u', e') ->
  match rot with
  | None => s' = s /\ u' = u
  | Some _ => exists i, w_file s' = Open i /\ u' = UpdateOpen i /\ needs_read_handle s' = false
  end.
Proof.
  intros (_ & _ & _ & Hr & Hf & Hfc) W. unfold worker_rotate.
  destruct (w_active_first_id s) as [id|]; [|by intros [= <- <- <- <- <-]].
  destruct (w_file s) as [i| |] eqn:Ef; [|by intros [= <- <- <- <- <-]..].
  destruct (decide (_ < _)%nat); [|by intros [= <- <- <- <- <-]].
  destruct (rename_active _ d id) as [d1|]; [|by intros [= <- <- <- <- <-]].
  rewrite Hf, Hfc. destruct (open_active_log true d1) as [[j d2]|] eqn:Eo.
  - intros [= <- <- <- <- <-]. by exists j.
  - unfold open_active_log in Eo. by destruct (active_name d1).
Qed.

Lemma worker_turn_view io w m d s segs act v d' s' e :
  io_all io -> worker_ok d s segs act -> w_file s <> Disabled -> fits m -> write_of w m (mjoin segs ++ act) ->
  view_ok d v segs act -> coupled v s -> worker_turn io w false d s = (d', s', e) ->
  exists segs' act', worker_ok d' s' segs' act' /\ w_file s' <> Disabled /\ dir_extends d d' /\
    mjoin segs' ++ act' = mjoin segs ++ act ++ [m] /\ view_ok d' (view_event e v) segs' act' /\
    coupled (view_event e v) s' /\ le_room_id e = lw_room_id w.
Proof.
  intros Hio W Hs Hm Wr V C. pose proof Hio as (Ho & Hc & Hw & _). unfold worker_turn.
  assert (len (lw_record w) <= MAX_LOG_RECORD_BYTES) as Hlen by (rewrite (wr_record _ _ _ Wr); apply Hm).
  destruct (worker_reopen io d s) as [[d1 s1] e1] eqn:E1.
  destruct (worker_reopen_ok _ _ _ _ _ _ _ _ W E1) as (W1 & Hd1 & Ho1).
  assert (is_open (w_file s1) = true) as Ho1' by (rewrite Ho1; by destruct (w_file s)).
  assert (coupled v s1) as C1.
  { unfold worker_reopen in E1. destruct (w_file s) eqn:Ef; [injection E1 as <- <- <-; unfold coupled in *; by rewrite Ef in *| |done].
    rewrite Ho in E1. destruct (open_active_log true d) as [[j dj]|] eqn:Eo; [injection E1 as <- <- <-; by left|].
    unfold open_active_log in Eo. by destruct (active_name d). }
  destruct (worker_handle io false s1 e1) as [[s2 u2] e2] eqn:E2.
  destruct (worker_handle_ok _ _ _ _ _ _ _ _ _ _ W1 E2) as (W2 & Hf2).
  destruct (worker_handle_view _ _ _ _ _ _ _ _ _ _ Hc W1 Ho1' C1 E2) as (Hn2 & _ & Hu2).
  destruct (worker_append io w d1 s2 u2 e2) as [[[d3 s3] u3] e3] eqn:E3.
  destruct (worker_append_ok _ _ _ _ _ _ _ _ _ _ _ _ _ W2 Wr E3) as (W3 & Hd3 & _).
  destruct (worker_append_view _ _ _ _ _ _ _ _ _ _ Hw Hlen E3) as (-> & Hf3 & Hn3).
  rewrite Hf2, Ho1' in W3. unfold write_succeeds in W3. rewrite bool_decide_true, Hw in W3 by done. cbn [andb appended] in W3.
  destruct (worker_rotate io w d3 s3 u2 e3) as [[[[d4 s4] rot] u4] e4] eqn:E4.
  destruct (worker_rotate_ok _ _ _ _ _ _ _ _ _ _ _ _ _ W3 E4) as (segs' & act' & W4 & Hj & Hd4 & Hrot).
  pose proof (worker_rotate_view _ _ _ _ _ _ _ _ _ _ _ _ _ Hio W3 E4) as Hv4.
  intros [= <- <- <-]. exists segs', act'.
  assert (dir_extends d d4) as Hd by (by etrans; [|etrans]).
  assert (w_file s3 <> Disabled) as Hs3 by (rewrite Hf3, Hf2; by destruct (w_file s1)).
  assert (w_file s4 <> Disabled /\ coupled (view_event {| le_room_id := lw_room_id w; le_message_id := lw_message_id w;
    le_active_bytes := w_active_bytes s4; le_active_first_id := w_active_first_id s4; le_rotated := rot; le_file := u4; le_error := e4 |} v) s4 /\
    match u4 with Keep => v_file v | UpdateOpen i => Open i | UpdateReopen => Reopen | UpdateDisabled => Disabled end = w_file s4)
    as (Hs4 & Hc4 & Hu4).
  { destruct rot as [id|].
    - destruct Hv4 as (i & Hf4 & -> & Hn4). rewrite Hf4. split; [done|]. split; [right; by rewrite Hf4|done].
    - destruct Hv4 as [-> ->]. split; [done|].
      assert (w_file s3 = w_file s1) as -> by congruence. split; [|exact Hu2].
      right. cbn [view_event v_file le_file]. by rewrite Hu2, Hf3. }
  split_and!; [done|done|done| |constructor; cbn [view_event le_room_id le_active_bytes le_active_first_id le_rotated le_file v_segments v_bytes v_first v_file]|done|done].
  - rewrite Hj. done.
  - rewrite (vo_segments _ _ _ _ V). destruct rot as [id|].
    + destruct Hrot as (Hfirst & -> & _). rewrite fmap_app. f_equal. unfold seg_first. cbn. by rewrite Hfirst.
    + by destruct Hrot as (-> & _).
  - apply W4.
  - apply W4.
  - apply (lo_segs _ _ _ (wo_log _ _ _ _ W4)).
  - rewrite Hu4. pose proof (wo_file _ _ _ _ W4) as F. destruct (w_file s4) as [i| |]; [|by destruct F|done].
    destruct F as (_ & Hi & _). by exists [].
Qed.

Lemma lag_snoc io w m d s segs act v events M ms d' s' e :
  io_all io -> worker_ok d s segs act -> w_file s <> Disabled -> fits m -> write_of w m (mjoin segs ++ act) ->
  lag d s segs act v events M ms -> worker_turn io w false d s = (d', s', e) ->
  exists segs' act', worker_ok d' s' segs' act' /\ w_file s' <> Disabled /\
    lag d' s' segs' act' v (events ++ [e]) M (ms ++ [m]) /\ le_room_id e = lw_room_id w.
Proof.
  intros Hio W Hs Hm Wr. intros L Et.
  induction L as [v V C|v e0 events segs0 act0 x ms V L IH].
  - destruct (worker_turn_view _ _ _ _ _ _ _ _ _ _ _ Hio W Hs Hm Wr V C Et) as (segs' & act' & W' & Hs' & Hd & Hj & V' & C' & Hr).
    exists segs', act'. split_and!; [done|done| |done].
    cbn [app]. apply lag_cons; [by eapply view_ok_extends|]. rewrite <- Hj. by apply lag_nil.
  - destruct IH as (segs' & act' & W' & Hs' & L' & Hr). exists segs', act'. split_and!; [done|done| |done].
    cbn [app]. apply lag_cons; [|exact L'].
    (* the files only grew *)
    destruct (worker_turn_ok _ _ _ _ _ _ _ _ _ _ _ W Wr Et) as (? & ? & _ & Hd & _). by eapply view_ok_extends.
Qed.

(** ** The invariant of a durable room of the server *)

Definition room_writes (r : Z) (queue : list RoomLogWrite) : list RoomLogWrite := filter (fun w => lw_room_id w = r) queue.
Definition room_events (r : Z) (events : list RoomLogEvent) : list RoomLogEvent := filter (fun e => le_room_id e = r) events.

(** A message the room can hold durably. *)
Definition storable (r : Z) (m : ChatMessage) : Prop := fits m /\ room_id m = r.

Definition pending_count (n : nat) : option nat := match n with O => None | _ => Some n end.

(** All messages of the room are on disk and known to the event loop to be
    ([M]), on disk ([ms]) or queued ([qs]); the last two are resident. *)
Record srv_inv (t : StoreTuning) (sv : Server) (r : Z) (whole : list ChatMessage) : Prop := {
  si_tuning : tuning (sv_store sv) = t;
  si_storable : Forall (storable r) whole;
  si_ascending : ascending whole;
  si_state : exists room s segs act M ms qs n queue,
    rooms (sv_store sv) !! r = Some (RetainDurable room) /\ dr_path room = true /\
    log_writer (sv_store sv) = Some queue /\ room_writes r queue = log_write t r <$> qs /\
    sv_workers sv !! r = Some s /\ worker_ok (sv_dir sv r) s segs act /\ w_file s <> Disabled /\
    lag (sv_dir sv r) s segs act (view_of room) (room_events r (log_events (sv_store sv))) M ms /\
    whole = M ++ ms ++ qs /\
    pending_log_writes (sv_store sv) !! r = pending_count (length (ms ++ qs)) /\
    resident (dr_history room) (msg_record <$> newest n whole) /\ (length (ms ++ qs) <= n)%nat /\
    (whole <> [] -> 1 <= n)%nat;
}.

Lemma newest_snoc {A} n (l : list A) x : newest (S n) (l ++ [x]) = newest n l ++ [x].
Proof.
  unfold newest. rewrite length_app. cbn [length]. replace (length l + 1 - S n)%nat with (length l - n)%nat by lia.
  by rewrite drop_app_le by lia.
Qed.

Lemma newest_newest {A} n k (l : list A) : newest n (newest k l) = newest (Nat.min n k) l.
Proof. unfold newest. rewrite length_drop, drop_drop. f_equal. lia. Qed.

Lemma view_of_apply e room : view_of (RoomStore.apply_log_event e room) = view_event e (view_of room).
Proof. done. Qed.

Lemma view_of_history h room :
  view_of (RoomStore.set_durable h (dr_file room) (dr_active_bytes room) (dr_active_first_id room) room) = view_of room.
Proof. done. Qed.

(** The mirror is never disabled while nothing fails. *)
Lemma lag_enabled d s segs act v events M ms : lag d s segs act v events M ms -> v_file v <> Disabled.
Proof. intros L E. destruct (lag_spec _ _ _ _ _ _ _ _ L) as (_ & _ & segs0 & act0 & V & _). pose proof (vo_file _ _ _ _ V) as F. by rewrite E in F. Qed.

Definition step_ok (r : Z) (step : ServerStep) (whole : list ChatMessage) : Prop :=
  match step with
  | SvAppend _ room m =>
      message_wf m /\ (room = r -> storable r m /\ Forall (fun x => message_id x < message_id m) whole)
  | SvWork io => io_all io
  | SvDrain => True
  end.

(** What the step does to the history of the room: an append adds its message,
    unless the queue of the worker is full. *)
Definition accepts (sv : Server) (r : Z) (step : ServerStep) : list ChatMessage :=
  match step with
  | SvAppend _ room m =>
      if decide (room = r) then
        match log_writer (sv_store sv) with
        | Some queue => if decide (length queue < LOG_WRITE_QUEUE_CAPACITY)%nat then [m] else []
        | None => [m]
        end
      else []
  | _ => []
  end.

Lemma try_append_known io s room m d :
  message_wf m -> exists s' d' res, RoomStore.try_append io s room m d = Some (s', d', res).
Proof.
  intros W. unfold RoomStore.try_append. destruct (rooms s !! room) as [[|h limit|r]|]; [eauto| | |eauto].
  - rewrite append_message_known by done. cbn [mbind option_bind]. eauto.
  - rewrite append_message_known by done. cbn [mbind option_bind].
    destruct (log_writer s) as [queue|].
    + destruct (dr_file r); [case_decide; [eauto|rewrite rollback_appended; cbn [mbind option_bind]; eauto]..|].
      destruct (RoomStore.append_direct _ _ _ _ _ _) as [r' d']. eauto.
    + destruct (RoomStore.append_direct _ _ _ _ _ _) as [r' d']. eauto.
Qed.

(** What an append to another room leaves alone. *)
Lemma try_append_other io s room m d s' d' res r :
  RoomStore.try_append io s room m d = Some (s', d', res) -> r <> room ->
  rooms s' !! r = rooms s !! r /\ tuning s' = tuning s /\ log_events s' = log_events s /\
  pending_log_writes s' !! r = pending_log_writes s !! r /\
  (room_writes r <$> log_writer s') = (room_writes r <$> log_writer s).
Proof.
  unfold RoomStore.try_append, RoomStore.note_head. intros E Hne.
  destruct (rooms s !! room) as [[|h limit|rm]|]; [|destruct (ResidentHistory.append_message h m) as [[h' p]|]; [|done]
    |destruct (ResidentHistory.append_message (dr_history rm) m) as [[h' [st n]]|]; [|done]|];
    cbn [mbind option_bind] in E; [by simplify_eq| | |by simplify_eq].
  - simplify_eq. cbn. by rewrite lookup_insert_ne.
  - destruct (log_writer s) as [queue|] eqn:Eq.
    + destruct (dr_file rm); [case_decide; [|destruct (ResidentHistory.rollback_append h' st); [|done]; cbn [mbind option_bind] in E]..|
        destruct (RoomStore.append_direct _ _ _ _ _ _) as [r' dd]]; simplify_eq; cbn; rewrite ?lookup_insert_ne by done;
        rewrite ?Eq; (split_and!; [done..|]); unfold room_writes; cbn; rewrite ?filter_app, ?filter_cons_False by (cbn; congruence);
        by rewrite ?app_nil_r.
    + destruct (RoomStore.append_direct _ _ _ _ _ _) as [r' dd]. simplify_eq. cbn. rewrite lookup_insert_ne by done. by rewrite Eq.
Qed.

Lemma append_other_srv t sv r whole io room m sv' :
  srv_inv t sv r whole -> r <> room -> server_step sv (SvAppend io room m) = Some sv' -> srv_inv t sv' r whole.
Proof.
  intros [T S A (rm & s & segs & act & M & ms & qs & n & queue & H1 & H2 & H3 & H4 & H5 & H6 & H7 & H8 & H9)] Hne.
  cbn [server_step]. destruct (RoomStore.try_append _ _ _ _ _) as [[[s' d'] res]|] eqn:E; [|done]. cbn [mbind option_bind].
  intros [= <-]. destruct (try_append_other _ _ _ _ _ _ _ _ r E Hne) as (E1 & E2 & E3 & E4 & E5).
  rewrite H3 in E5. cbn in E5. destruct (log_writer s') as [queue'|] eqn:Eq; [|done]. injection E5 as E5.
  constructor; cbn [sv_store]; [congruence|done|done|]. exists rm, s, segs, act, M, ms, qs, n, queue'.
  assert (sv_dir {| sv_store := s'; sv_workers := sv_workers sv; sv_disk := <[room:=d']> (sv_disk sv) |} r = sv_dir sv r) as ->.
  { unfold sv_dir. cbn [sv_disk]. by rewrite lookup_insert_ne. }
  cbn [sv_store sv_workers]. rewrite E1, E3, E4, E5. split_and!; try done; by destruct H9 as (? & ? & ? & ? & ?).
Qed.

Lemma append_srv t sv r whole io m sv' :
  srv_inv t sv r whole -> storable r m -> Forall (fun x => message_id x < message_id m) whole ->
  server_step sv (SvAppend io r m) = Some sv' -> srv_inv t sv' r (whole ++ accepts sv r (SvAppend io r m)).
Proof.
  intros [T S A (rm & s & segs & act & M & ms & qs & n & queue & H1 & H2 & H3 & H4 & H5 & H6 & H7 & H8 & H9 & H10 & H11 & H12 & H13)] Hm Hlt.
  cbn [server_step accepts]. rewrite decide_True by done. rewrite H3.
  unfold RoomStore.try_append. rewrite H1, append_message_known by apply Hm. cbn [mbind option_bind]. rewrite H3.
  rewrite record_range_appended. pose proof (lag_enabled _ _ _ _ _ _ _ _ H8) as Hen. cbn [view_of v_file] in Hen.
  assert (forall sv', sv_disk sv' = <[r := sv_dir sv r]> (sv_disk sv) -> sv_dir sv' r = sv_dir sv r) as Hdir.
  { intros sv0 Hd. unfold sv_dir at 1. by rewrite Hd, lookup_insert_eq. }
  destruct (decide (length queue < LOG_WRITE_QUEUE_CAPACITY)%nat) as [Hroom|Hfull].
  - intros Hstep. assert (exists st, sv' = {| sv_store := RoomStore.note_head (set_log (Some (queue ++ [log_write t r m])) (log_events (sv_store sv))
      (<[r := Datatypes.S (default O (pending_log_writes (sv_store sv) !! r))]> (pending_log_writes (sv_store sv)))
      (set_rooms (<[r := RetainDurable (RoomStore.set_durable
        (ResidentHistory.append_known_record (dr_history rm) (message_id m) (message_bytes m)) (dr_file rm) (dr_active_bytes rm) (dr_active_first_id rm) rm)]>
        (rooms (sv_store sv))) (sv_store sv))) r st;
      sv_workers := sv_workers sv; sv_disk := <[r := sv_dir sv r]> (sv_disk sv) |}) as [st ->].
    { exists (message_id m). destruct (dr_file rm) eqn:Ef; [| |done]; injection Hstep as <-; unfold log_write; by rewrite H2, T. }
    clear Hstep. constructor; cbn [sv_store].
    + exact T.
    + apply Forall_app. split; [done|by apply Forall_singleton].
    + by apply ascending_snoc.
    + eexists _, s, segs, act, M, ms, (qs ++ [m]), (Datatypes.S n), _.
      cbn [sv_store sv_workers RoomStore.note_head set_recent set_log set_rooms rooms log_writer log_events pending_log_writes].
      rewrite lookup_insert_eq, Hdir by done. split_and!; [done|done|done| |done|done|done| | | | | |].
      * unfold room_writes in *. rewrite filter_app, H4, fmap_app. f_equal. by rewrite filter_cons_True.
      * rewrite view_of_history. exact H8.
      * rewrite H9. by rewrite <- !(assoc_L (++)).
      * rewrite lookup_insert_eq, H10, !length_app. cbn [length]. destruct (length ms + length qs)%nat eqn:El; cbn [pending_count default].
        -- destruct (length ms + (length qs + 1))%nat eqn:El2; [lia|]. cbn. f_equal. unfold id. lia.
        -- destruct (length ms + (length qs + 1))%nat eqn:El2; [lia|]. cbn. f_equal. unfold id. lia.
      * rewrite newest_snoc, fmap_app. by apply append_known_resident.
      * rewrite !length_app in *. cbn [length]. lia.
      * lia.
  - rewrite rollback_appended. cbn [mbind option_bind]. rewrite app_nil_r. intros Hstep.
    assert (sv' = {| sv_store := set_rooms (<[r := RetainDurable rm]> (rooms (sv_store sv))) (sv_store sv);
      sv_workers := sv_workers sv; sv_disk := <[r := sv_dir sv r]> (sv_disk sv) |}) as ->.
    { destruct (dr_file rm) eqn:Ef; [| |done]; injection Hstep as <-; destruct rm; cbn in *; by subst. }
    constructor; cbn [sv_store]; [done..|]. exists rm, s, segs, act, M, ms, qs, n, queue.
    cbn [sv_store sv_workers set_rooms rooms log_writer log_events pending_log_writes]. rewrite lookup_insert_eq, Hdir by done.
    split_and!; done.
Qed.

Lemma room_log_worker_other io workers disk w r workers' disk' e :
  room_log_worker io workers disk w = (workers', disk', e) -> lw_room_id w <> r ->
  workers' !! r = workers !! r /\ disk' !! r = disk !! r /\ (forall x, e = Some x -> le_room_id x <> r).
Proof.
  intros E Hne. unfold room_log_worker, worker_turn in E. repeat case_match; simplify_eq; cbn;
    rewrite ?lookup_insert_ne by done; split_and!; try done; by intros x [= <-].
Qed.

Lemma work_srv t sv r whole io sv' :
  srv_inv t sv r whole -> io_all io -> server_step sv (SvWork io) = Some sv' -> srv_inv t sv' r whole.
Proof.
  intros [T S A (rm & s & segs & act & M & ms & qs & n & queue & H1 & H2 & H3 & H4 & H5 & H6 & H7 & H8 & H9 & H10 & H11 & H12 & H13)] Hio.
  cbn [server_step]. rewrite H3. destruct queue as [|w queue].
  { intros [= <-]. constructor; [done..|]. exists rm, s, segs, act, M, ms, qs, n, []. split_and!; done. }
  destruct (room_log_worker io _ _ w) as [[workers disk] e] eqn:E. intros [= <-].
  constructor; cbn [sv_store]; [done..|]. unfold room_writes in H4.
  destruct (decide (lw_room_id w = r)) as [Hr|Hr].
  - rewrite filter_cons_True in H4 by done. destruct qs as [|m qs]; [done|]. rewrite fmap_cons in H4. apply cons_inv in H4 as [-> H4].
    destruct (lag_spec _ _ _ _ _ _ _ _ H8) as (_ & Hj & _).
    assert (whole = (mjoin segs ++ act) ++ m :: qs) as Hwhole by (rewrite <- Hj, H9; by rewrite <- (assoc_L (++))).
    assert (storable r m) as Hst.
    { rewrite Forall_forall in S. apply S. rewrite Hwhole. apply elem_of_app. right. left. }
    assert (Forall (fun x => message_id x < message_id m) (mjoin segs ++ act)) as Hlt.
    { apply Forall_forall. intros x Hx. rewrite Hwhole in A. apply (ascending_app_lt _ _ x m A Hx). left. }
    pose proof (log_write_of t r m _ (proj1 (proj1 Hst)) Hlt) as Wr.
    unfold room_log_worker in E. cbn [log_write lw_room_id] in E. rewrite H5 in E. fold (sv_dir sv r) in E.
    destruct (worker_turn io _ false (sv_dir sv r) s) as [[d' s'] ev] eqn:Et. injection E as <- <- <-.
    destruct (lag_snoc _ _ _ _ _ _ _ _ _ _ _ _ _ _ Hio H6 H7 (proj1 Hst) Wr H8 Et) as (segs' & act' & W' & Hs' & L' & Hre).
    exists rm, s', segs', act', M, (ms ++ [m]), qs, n, queue.
    cbn [sv_store sv_workers set_log rooms log_writer log_events pending_log_writes]. unfold sv_dir. cbn [sv_disk].
    rewrite !lookup_insert_eq. cbn [default].
    assert (length ((ms ++ [m]) ++ qs) = length (ms ++ m :: qs)) as Hlen by (by rewrite <- (assoc_L (++))).
    rewrite Hlen. split_and!; try done.
    + unfold room_events in *. rewrite filter_app, (filter_cons_True _ ev) by done. done.
    + rewrite H9. by rewrite <- (assoc_L (++)).
  - rewrite filter_cons_False in H4 by done. destruct (room_log_worker_other _ _ _ _ r _ _ _ E Hr) as (E1 & E2 & E3).
    exists rm, s, segs, act, M, ms, qs, n, queue.
    cbn [sv_store sv_workers set_log rooms log_writer log_events pending_log_writes]. unfold sv_dir in *. cbn [sv_disk].
    rewrite E1, E2. split_and!; try done. unfold room_events in *. rewrite filter_app.
    destruct e as [e|]; [rewrite filter_cons_False by (by apply E3)|]; by rewrite app_nil_r.
Qed.

(** One completion drained. *)
Lemma drain_one_srv t sv r whole e events :
  srv_inv t sv r whole -> (1 <= max_resident_messages t)%nat -> log_events (sv_store sv) = e :: events ->
  srv_inv t {| sv_store := RoomStore.drain_log_event
                 (set_log (log_writer (sv_store sv)) events (pending_log_writes (sv_store sv)) (sv_store sv)) e;
               sv_workers := sv_workers sv; sv_disk := sv_disk sv |} r whole.
Proof.
  intros [T S A (rm & s & segs & act & M & ms & qs & n & queue & H1 & H2 & H3 & H4 & H5 & H6 & H7 & H8 & H9 & H10 & H11 & H12 & H13)] Hmax He.
  rewrite He in H8. unfold room_events in H8. unfold RoomStore.drain_log_event. cbn [set_log rooms pending_log_writes tuning].
  assert (forall st, sv_dir {| sv_store := st; sv_workers := sv_workers sv; sv_disk := sv_disk sv |} r = sv_dir sv r) as Hdir by done.
  destruct (decide (le_room_id e = r)) as [Hr|Hr].
  - rewrite filter_cons_True in H8 by done. rewrite Hr, H1. pose proof (lag_enabled _ _ _ _ _ _ _ _ H8) as Hen.
    cbn [view_of v_file] in Hen. inversion H8 as [|v e0 evs segs0 act0 m ms' V L]; subst v e0 evs M ms.
    set (rm' := match dr_file rm with Disabled => rm | _ => RoomStore.apply_log_event e rm end).
    assert (rm' = RoomStore.apply_log_event e rm) as Erm by (subst rm'; by destruct (dr_file rm)).
    assert (RoomStore.take_pending (pending_log_writes (sv_store sv)) r !! r = pending_count (length (ms' ++ qs))) as Hp.
    { unfold RoomStore.take_pending. rewrite H10. cbn [app length pending_count].
      replace (Datatypes.S (length (ms' ++ qs)) - 1)%nat with (length (ms' ++ qs)) by lia. case_decide as Hz.
      - by rewrite lookup_delete_eq, Hz.
      - rewrite lookup_insert_eq. by destruct (length (ms' ++ qs)). }
    set (pend := RoomStore.take_pending _ r) in *.
    constructor; cbn [sv_store set_log set_rooms tuning]; [done..|].
    eexists (RoomStore.trim_if_settled pend (tuning (sv_store sv)) r rm'), s, segs, act, (mjoin segs0 ++ act0 ++ [m]), ms', qs,
      (if decide (pend !! r = None) then Nat.min (max_resident_messages t) n else n), queue.
    cbn [sv_store sv_workers set_log set_rooms rooms log_writer log_events pending_log_writes]. rewrite lookup_insert_eq, Hdir.
    assert (view_of (RoomStore.trim_if_settled pend (tuning (sv_store sv)) r rm') = view_event e (view_of rm)) as Hv.
    { unfold RoomStore.trim_if_settled. rewrite Erm. by case_decide. }
    split_and!; try done.
    + unfold RoomStore.trim_if_settled. rewrite Erm. by case_decide.
    + rewrite Hv. exact L.
    + rewrite H9. cbn [app]. by rewrite <- !(assoc_L (++)).
    + unfold RoomStore.trim_if_settled. rewrite Erm, T. case_decide; [|done]. cbn [RoomStore.set_durable dr_history RoomStore.apply_log_event].
      rewrite <- newest_newest, <- newest_fmap. apply trim_resident. exact H11.
    + case_decide as Hz; [|cbn [app length] in H12; lia]. rewrite Hp in Hz. destruct (length (ms' ++ qs)); [lia|done].
    + intros Hne. specialize (H13 Hne). case_decide; lia.
  - rewrite filter_cons_False in H8 by done.
    set (st := match rooms (sv_store sv) !! le_room_id e with Some (RetainDurable _) => _ | _ => _ end).
    assert (rooms st !! r = rooms (sv_store sv) !! r /\ tuning st = tuning (sv_store sv) /\ log_writer st = log_writer (sv_store sv) /\
      log_events st = events /\ pending_log_writes st !! r = pending_log_writes (sv_store sv) !! r) as (E1 & E2 & E3 & E4 & E5).
    { subst st. unfold RoomStore.take_pending. repeat case_match; cbn; rewrite ?lookup_insert_ne, ?lookup_delete_ne by done; done. }
    constructor; cbn [sv_store]; [congruence|done|done|]. exists rm, s, segs, act, M, ms, qs, n, queue.
    cbn [sv_store sv_workers]. rewrite E1, E3, E4, E5, Hdir. split_and!; done.
Qed.

Lemma drain_log_event_events s e evs p :
  RoomStore.drain_log_event (set_log (log_writer s) evs p s) e =
  set_log (log_writer (RoomStore.drain_log_event (set_log (log_writer s) [] p s) e)) evs
    (pending_log_writes (RoomStore.drain_log_event (set_log (log_writer s) [] p s) e))
    (RoomStore.drain_log_event (set_log (log_writer s) [] p s) e).
Proof. unfold RoomStore.drain_log_event. cbn [set_log rooms]. by destruct (rooms s !! le_room_id e) as [[| |]|]. Qed.

Lemma drain_srv t sv r whole :
  srv_inv t sv r whole -> (1 <= max_resident_messages t)%nat ->
  srv_inv t {| sv_store := RoomStore.drain_log_events (sv_store sv); sv_workers := sv_workers sv; sv_disk := sv_disk sv |} r whole.
Proof.
  intros I Hmax. unfold RoomStore.drain_log_events.
  assert (forall evs rest s, log_events s = evs ++ rest ->
    srv_inv t {| sv_store := s; sv_workers := sv_workers sv; sv_disk := sv_disk sv |} r whole ->
    srv_inv t {| sv_store := foldl RoomStore.drain_log_event (set_log (log_writer s) rest (pending_log_writes s) s) evs;
                 sv_workers := sv_workers sv; sv_disk := sv_disk sv |} r whole) as Hgen.
  { clear I. induction evs as [|e evs IH]; intros rest s He I; cbn [foldl].
    - cbn [app] in He. destruct s; cbn in *. by subst.
    - pose proof (drain_one_srv _ _ _ _ e (evs ++ rest) I Hmax He) as I1. cbn [sv_store sv_workers sv_disk] in I1.
      rewrite drain_log_event_events in I1. apply (IH rest) in I1; [|done]. rewrite drain_log_event_events. exact I1. }
  apply Hgen; [by rewrite take_drop|]. by destruct sv.
Qed.

(** ** Pages from disk *)

Lemma newest_short {A} n (l : list A) : (length l <= n)%nat -> newest n l = l.
Proof. intros. unfold newest. by replace (length l - n)%nat with O by lia. Qed.

Lemma length_newest {A} n (l : list A) : length (newest n l) = Nat.min n (length l).
Proof. unfold newest. rewrite length_drop. lia. Qed.

Lemma newest_app_l {A} n (a b : list A) : newest n (newest n a ++ b) = newest n (a ++ b).
Proof.
  destruct (decide (length a <= n)%nat); [by rewrite (newest_short n a)|].
  unfold newest. rewrite !length_app, length_drop.
  replace (length a - (length a - n) + length b - n)%nat with (length b `min` (length b))%nat by lia.
  rewrite Nat.min_id. destruct (decide (length b <= n)%nat).
  - rewrite !drop_app_le by (rewrite ?length_drop; lia). rewrite drop_drop. do 2 f_equal. lia.
  - rewrite !drop_app_ge by (rewrite ?length_drop; lia). rewrite length_drop. f_equal. lia.
Qed.

Lemma newest_app_r {A} n (a b : list A) : newest n (a ++ newest n b) = newest n (a ++ b).
Proof.
  destruct (decide (length b <= n)%nat); [by rewrite (newest_short n b)|].
  rewrite (newest_app n a b) by lia. rewrite newest_app by (rewrite length_newest; lia).
  rewrite newest_newest. by rewrite Nat.min_id.
Qed.

Lemma newest_join {A} n (ls : list (list A)) : newest n (mjoin (newest n <$> ls)) = newest n (mjoin ls).
Proof.
  induction ls as [|l ls IH]; [done|]. rewrite fmap_cons. change (mjoin (?x :: ?y)) with (x ++ mjoin y).
  rewrite newest_app_l, <- newest_app_r, IH, newest_app_r. done.
Qed.

Definition below (b : Z) (ms : list ChatMessage) : list ChatMessage := filter (fun m => message_id m < b) ms.

Lemma below_app b x y : below b (x ++ y) = below b x ++ below b y.
Proof. apply filter_app. Qed.

Lemma ascending_sub a ms c : ascending (a ++ ms ++ c) -> ascending ms.
Proof.
  unfold ascending. rewrite !fmap_app. intros S. apply StronglySorted_app_1_r in S. by apply StronglySorted_app_1_l in S.
Qed.

Lemma below_late b ms : ascending ms -> (forall id, first_id_of ms = Some id -> b <= id) -> below b ms = [].
Proof.
  intros S H. destruct ms as [|m ms]; [done|]. specialize (H _ eq_refl). unfold below, ascending in *. rewrite fmap_cons in S.
  apply StronglySorted_inv in S as [_ S]. rewrite Forall_fmap in S. apply filter_none. apply Forall_cons. split; [lia|].
  eapply Forall_impl; [exact S|]. cbn. lia.
Qed.

(** The segments that start at or above the bound hold nothing below it. *)
Lemma below_segments d b segs :
  Forall (seg_ok d) segs -> ascending (mjoin segs) ->
  mjoin (below b <$> filter (fun seg => seg_first seg < b) segs) = below b (mjoin segs).
Proof.
  intros Hs. induction Hs as [|seg segs Hseg Hs IH]; intros A; [done|].
  change (mjoin (seg :: segs)) with (seg ++ mjoin segs) in *. rewrite below_app.
  assert (ascending (mjoin segs)) as A2 by (apply (ascending_sub seg _ []); by rewrite app_nil_r).
  assert (ascending seg) as A1 by (by apply (ascending_sub [] _ (mjoin segs))).
  destruct (decide (seg_first seg < b)).
  - rewrite filter_cons_True, fmap_cons by done. change (mjoin (?x :: ?y)) with (x ++ mjoin y). by rewrite IH.
  - rewrite filter_cons_False, IH by done. rewrite (below_late b seg); [done|done|].
    intros k0 Hid. unfold seg_first in *. rewrite Hid in *. cbn in *. unfold id in *. lia.
Qed.

Lemma select_loop_ok d b limit sources mss total :
  Forall2 (fun src ms => read_source d src = Some (log_bytes ms)) sources mss ->
  Forall (fun ms => Forall fits ms /\ ascending ms) mss ->
  exists k, Forall2 (fun h ms => resident h (msg_record <$> newest limit (below b ms)))
      (select_loop d b limit sources total) (take k mss) /\
    (k = length mss \/ limit <= total + length (mjoin (below b <$> take k mss)))%nat.
Proof.
  intros Hs. revert total. induction Hs as [|src ms sources mss Hr Hs IH]; intros total Hok; cbn [select_loop].
  - exists O. split; [constructor|by left].
  - apply Forall_cons in Hok as [[Hf Ha] Hok]. case_decide as Hmax.
    + exists O. split; [constructor|right; cbn; lia].
    + rewrite Hr. destruct (scan_records_log ms b Hf Ha) as (run & -> & R).
      destruct (IH (total + length (below b ms))%nat Hok) as (k & H2 & Hk). exists (S k). cbn [take]. split.
      * constructor; [|rewrite (resident_len _ _ R), length_fmap; exact H2].
        rewrite <- newest_fmap. by apply trim_resident.
      * destruct Hk as [->|Hk]; [by left|right]. rewrite fmap_cons. change (mjoin (?x :: ?y)) with (x ++ mjoin y).
        rewrite length_app. lia.
Qed.

Lemma extend_runs hs ls h l :
  Forall2 (fun h ms => resident h (msg_record <$> ms)) hs ls -> resident h l ->
  resident (foldl ResidentHistory.extend h hs) (l ++ (msg_record <$> mjoin ls)).
Proof. apply extend_all. Qed.

Lemma length_join_reverse {A} (l : list (list A)) : length (mjoin (reverse l)) = length (mjoin l).
Proof.
  induction l as [|x l IH]; [done|]. rewrite reverse_cons, join_app, length_app, IH.
  change (mjoin (x :: l)) with (x ++ mjoin l). change (mjoin [x]) with (x ++ []). rewrite !length_app. cbn. lia.
Qed.

Lemma select_records_ok d rq mss :
  Forall2 (fun src ms => read_source d src = Some (log_bytes ms)) (rq_sources rq) mss ->
  Forall (fun ms => Forall fits ms /\ ascending ms) mss ->
  resident (select_records d rq)
    (msg_record <$> newest (rq_limit rq) (mjoin (reverse (below (before_bound (rq_before rq)) <$> mss)))).
Proof.
  intros Hs Hok. unfold select_records. set (b := before_bound _). set (limit := rq_limit rq).
  destruct (select_loop_ok d b limit _ _ 0 Hs Hok) as (k & H2 & Hk).
  assert (Forall2 (fun h ms => resident h (msg_record <$> ms)) (select_loop d b limit (rq_sources rq) 0)
    (newest limit <$> (below b <$> take k mss))) as H3.
  { rewrite <- list_fmap_compose. apply Forall2_fmap_r. exact H2. }
  apply Forall2_reverse in H3. pose proof (extend_runs _ _ _ [] H3 resident_default) as R. cbn [app] in R.
  apply (trim_resident _ _ limit) in R. fold (newest limit (msg_record <$> mjoin (reverse (newest limit <$> (below b <$> take k mss))))) in R.
  rewrite newest_fmap, <- fmap_reverse, newest_join in R.
  replace (newest limit (mjoin (reverse (below b <$> mss)))) with (newest limit (mjoin (reverse (below b <$> take k mss)))); [done|].
  rewrite <- (take_drop k mss) at 2. rewrite fmap_app, reverse_app, join_app. destruct Hk as [->|Hk].
  - rewrite (drop_ge mss) by lia. done.
  - symmetry. apply newest_app. rewrite length_join_reverse. lia.
Qed.

Lemma Forall_filtered {A} (P Q : A -> Prop) `{forall x, Decision (Q x)} (l : list A) : Forall P l -> Forall P (filter Q l).
Proof. rewrite !Forall_forall. intros Hl x [_ Hx]%list_elem_of_filter. by apply Hl. Qed.

Lemma filter_map {A B} (f : A -> B) (P : B -> Prop) `{forall x, Decision (P x)} (l : list A) :
  filter P (f <$> l) = f <$> filter (fun x => P (f x)) l.
Proof.
  induction l as [|x l IH]; [done|]. rewrite fmap_cons. destruct (decide (P (f x))).
  - rewrite !filter_cons_True by done. by rewrite fmap_cons, IH.
  - by rewrite !filter_cons_False, IH by done.
Qed.

Definition first_message (segs : list (list ChatMessage)) (act : list ChatMessage) : option Z := first_id_of (mjoin segs ++ act).

Lemma oldest_of_view d room segs act :
  view_ok d (view_of room) segs act -> Retention.oldest_durable_id (RetainDurable room) = first_message segs act.
Proof.
  intros V. unfold Retention.oldest_durable_id, first_message. pose proof (vo_segments _ _ _ _ V) as Hs. cbn [view_of v_segments] in Hs.
  rewrite Hs. destruct segs as [|seg segs]; [apply V|]. pose proof (vo_segs _ _ _ _ V) as Hok.
  apply Forall_cons in Hok as [(id & i & Hf & _) _]. cbn. unfold seg_first. rewrite Hf. by destruct seg.
Qed.

(** The sources of a request read the log that the mirror knows, also when the
    files have grown or been rotated since. *)
Lemma disk_sources_read d d' room segs act b :
  view_ok d (view_of room) segs act -> dir_extends d d' -> Forall fits (mjoin segs ++ act) -> ascending (mjoin segs ++ act) ->
  exists mss, Forall2 (fun src ms => read_source d' src = Some (log_bytes ms)) (RoomStore.disk_sources true room b) mss /\
    Forall (fun ms => Forall fits ms /\ ascending ms) mss /\
    mjoin (reverse (below b <$> mss)) = below b (mjoin segs ++ act).
Proof.
  intros V Hd F A. apply Forall_app in F as [Fs Fa]. apply Forall_join in Fs.
  assert (ascending (mjoin segs)) as As by (by apply (ascending_sub [] _ act)).
  assert (ascending act) as Aa by (apply (ascending_sub (mjoin segs) _ []); by rewrite app_nil_r).
  pose proof (segs_extend _ _ _ Hd (vo_segs _ _ _ _ V)) as Hok. pose proof (vo_segments _ _ _ _ V) as Hsegs.
  pose proof (vo_first _ _ _ _ V) as Hfirst. cbn [view_of v_segments v_first] in Hsegs, Hfirst.
  set (late := filter (fun seg => seg_first seg < b) segs).
  assert (Forall2 (fun src ms => read_source d' src = Some (log_bytes ms))
    ((fun id => SegmentFile id) <$> filter (fun id => id < b) (reverse (dr_segments room))) (reverse late)) as H2.
  { rewrite Hsegs, <- fmap_reverse, filter_map, filter_reverse, !fmap_reverse. fold late. apply Forall2_reverse.
    assert (Forall (seg_ok d') late) as Hl by (by apply Forall_filtered). clear -Hl.
    induction Hl as [|seg l (k0 & i & Hf & Hn & Hi) Hl IH]; [constructor|]. rewrite !fmap_cons. constructor; [|exact IH].
    cbn. unfold seg_first. rewrite Hf. cbn. unfold id. by rewrite Hn. }
  assert (Forall (fun ms => Forall fits ms /\ ascending ms) (reverse late)) as H3.
  { apply Forall_reverse, Forall_filtered. clear -Fs As Hok. induction Fs as [|seg segs Hs Fs IH]; [constructor|].
    change (mjoin (seg :: segs)) with (seg ++ mjoin segs) in As. apply Forall_cons in Hok as [_ Hok]. constructor.
    - split; [done|]. by apply (ascending_sub [] _ (mjoin segs)).
    - apply IH; [|done]. apply (ascending_sub seg _ []). by rewrite app_nil_r. }
  assert (mjoin (reverse (below b <$> reverse late)) = below b (mjoin segs)) as H4.
  { rewrite fmap_reverse, reverse_involutive. by eapply below_segments. }
  unfold RoomStore.disk_sources. rewrite Hfirst. rewrite below_app.
  assert ((forall id, first_id_of act = Some id -> b <= id) -> exists mss,
    Forall2 (fun src ms => read_source d' src = Some (log_bytes ms))
      ((fun id => SegmentFile id) <$> filter (fun id => id < b) (reverse (dr_segments room))) mss /\
    Forall (fun ms => Forall fits ms /\ ascending ms) mss /\ mjoin (reverse (below b <$> mss)) = below b (mjoin segs) ++ below b act) as Hnone.
  { intros Hid. exists (reverse late). rewrite (below_late b act Aa Hid), app_nil_r. done. }
  destruct (first_id_of act) as [first|] eqn:Ef; [|by apply Hnone].
  case_decide as Hlt; [|apply Hnone; intros ? [= <-]; lia].
  pose proof (vo_file _ _ _ _ V) as Hfile. cbn [view_of v_file] in Hfile.
  destruct (dr_file room) as [i| |]; [|by subst act|done]. destruct Hfile as [more Hi].
  destruct Hd as [Hg _]. destruct (Hg i _ Hi) as [more' Hi'].
  exists (act :: reverse late). split_and!.
  - constructor; [|exact H2]. cbn [read_source]. rewrite Hi'. cbn [mbind option_bind].
    pose proof (vo_bytes _ _ _ _ V) as Hb. cbn [view_of v_bytes] in Hb. rewrite Hb. rewrite decide_False by (rewrite !length_app; lia).
    by rewrite <- (assoc_L (++)), take_app_length.
  - by constructor.
  - rewrite fmap_cons, reverse_cons, join_app, H4. by change (mjoin [?x]) with (x ++ []); rewrite app_nil_r.
Qed.

Lemma resident_all_holds h room ms :
  resident h (msg_record <$> ms) -> Forall (fun m => message_wf m /\ room_id m = room) ms ->
  holds h room (ResidentHistory.entries h) ms.
Proof.
  intros R W. pose proof (resident_holds h room ms 0 (length ms) R W) as Hh. unfold slice in Hh.
  rewrite !drop_0, Nat.sub_0_r, (take_ge ms) in Hh by lia. rewrite take_ge in Hh; [done|].
  rewrite (resident_entries _ _ R), length_entries_from, length_fmap. lia.
Qed.

(** The reader's answer. *)
Lemma execute_page d rq mss page :
  is_u32 (rq_room_id rq) -> match rq_before rq with Some b => is_u64 b | None => True end ->
  Forall2 (fun src ms => read_source d src = Some (log_bytes ms)) (rq_sources rq) mss ->
  Forall (fun ms => Forall fits ms /\ ascending ms) mss ->
  page = newest (rq_limit rq) (mjoin (reverse (below (before_bound (rq_before rq)) <$> mss))) ->
  ascending page -> Forall (storable (rq_room_id rq)) page ->
  exists payloads, execute d rq = Some payloads /\
    page_delivered (rq_room_id rq) (rq_before rq) (bool_decide (first_id_of page = Some (rq_oldest_durable_id rq)))
      (rq_target_bytes rq) payloads page.
Proof.
  intros Hr Hb Hs Hok -> A W. set (page := newest _ _) in *.
  pose proof (select_records_ok d rq mss Hs Hok) as R. fold page in R.
  assert (Forall (fun m => message_wf m /\ room_id m = rq_room_id rq) page) as W'.
  { eapply Forall_impl; [exact W|]. intros m [[? _] ?]. done. }
  unfold execute. set (at_start := bool_decide (ResidentHistory.first_message_id _ = _)).
  assert (at_start = bool_decide (first_id_of page = Some (rq_oldest_durable_id rq))) as Ha.
  { subst at_start. apply bool_decide_ext. rewrite (resident_first _ _ R), msg_record_ids. by destruct page. }
  rewrite <- Ha. unfold ResidentHistory.chunk_payloads.
  destruct (specs_delivered (select_records d rq) (rq_room_id rq) (rq_before rq) [] (ResidentHistory.entries (select_records d rq)) []
    at_start (rq_target_bytes rq) page) as (payloads & -> & D); [done|done| |by rewrite app_nil_r| |].
  - rewrite (resident_entries _ _ R), entries_from_ids, msg_record_ids. exact A.
  - by apply resident_all_holds.
  - by exists payloads.
Qed.

(** ** A request, whatever it is served from *)

Lemma encode_history_chunk_resident s plan h i spec :
  RoomStore.resident s (plan_room_id plan) = Some h -> plan_chunks plan !! i = Some spec ->
  RoomStore.encode_history_chunk s plan i = ResidentHistory.encode_chunk h (plan_room_id plan) (plan_before plan) spec.
Proof.
  intros Hr Hs. unfold RoomStore.encode_history_chunk. rewrite Hs.
  destruct (spec_first_id spec) as [id|] eqn:Ef; [by rewrite Hr|].
  unfold ResidentHistory.encode_chunk. rewrite Ef. unfold ResidentHistory.encode_entries. cbn [length foldl].
  by destruct (write_chunk_header _ _ _ _ _ _).
Qed.

Lemma encode_from_specs s plan h pre specs payloads :
  RoomStore.resident s (plan_room_id plan) = Some h -> plan_chunks plan = pre ++ specs ->
  ResidentHistory.encode_specs h (plan_room_id plan) (plan_before plan) specs = Ok payloads ->
  encode_from s plan (length pre) (length specs) = Some payloads.
Proof.
  intros Hr. revert pre payloads. induction specs as [|spec specs IH]; intros pre payloads Hc He; cbn [length encode_from].
  - by injection He as <-.
  - cbn [ResidentHistory.encode_specs] in He.
    rewrite (encode_history_chunk_resident s plan h (length pre) spec Hr) by (rewrite Hc; by apply list_lookup_middle).
    destruct (ResidentHistory.encode_chunk h _ _ spec) as [p|]; [|done]. run_result in He.
    destruct (ResidentHistory.encode_specs h _ _ specs) as [ps|] eqn:Es; [|done]. run_result in He. injection He as <-.
    specialize (IH (pre ++ [spec]) ps). rewrite length_app in IH. cbn [length] in IH.
    replace (S (length pre)) with (length pre + 1)%nat by lia. rewrite IH; [done| |done].
    by rewrite Hc, <- (assoc_L (++)).
Qed.

(** The empty answer. *)
Lemma empty_delivered s plan room before at_start target_bytes :
  is_u32 room -> match before with Some b => is_u64 b | None => True end ->
  plan_room_id plan = room -> plan_before plan = before ->
  plan_chunks plan = [{| spec_first_id := None; spec_count := 0; spec_records_bytes := 0; spec_at_start := at_start; spec_complete := true |}] ->
  exists payloads, encode_from s plan 0 (HistoryFetchPlan.chunk_count plan) = Some payloads /\
    page_delivered room before at_start target_bytes payloads [].
Proof.
  intros Hr Hb <- <- Hc. unfold HistoryFetchPlan.chunk_count. rewrite Hc. cbn [length encode_from].
  unfold RoomStore.encode_history_chunk. rewrite Hc. cbn [lookup list_lookup spec_first_id spec_at_start spec_complete].
  pose proof (write_chunk_header_ok (plan_room_id plan) (plan_before plan) at_start true 0 [] ltac:(lia)) as Hw.
  rewrite Hw. cbn [map_err mbind option_bind]. eexists. split; [reflexivity|].
  pose proof (decode_chunk_written _ _ _ _ [] _ Hr Hb (Forall_nil_2 _) Hw) as Hd. cbn [fmap list_fmap mjoin list_join] in Hd.
  rewrite app_nil_r in Hd. eexists [_]. split.
  - by apply Forall2_cons.
  - done.
  - by apply Forall_singleton.
  - by exists O.
  - apply Forall2_cons. split; [|done]. left. rewrite (length_chunk_header _ _ _ _ _ _ _ Hw). cbn. lia.
Qed.

Definition owed (before : option Z) (whole : list ChatMessage) : list ChatMessage :=
  filter (fun m => is_below before (message_id m)) whole.

Lemma owed_app before a b : owed before (a ++ b) = owed before a ++ owed before b.
Proof. apply filter_app. Qed.

Lemma newest_suffix {A} n (l : list A) : exists older, l = older ++ newest n l.
Proof. exists (take (length l - n) l). unfold newest. by rewrite take_drop. Qed.

(** When part of the window is below the bound, everything older is. *)
Lemma owed_older before older window :
  ascending (older ++ window) -> owed before window <> [] -> owed before older = older.
Proof.
  intros A Hne. destruct before as [b|]; [|apply filter_all; by apply Forall_true].
  destruct (owed (Some b) window) as [|x l] eqn:E; [done|].
  assert (x ∈ owed (Some b) window) as Hx by (rewrite E; left). apply list_elem_of_filter in Hx as [Hb Hx]. cbn in Hb.
  apply filter_all, Forall_forall. intros y Hy. cbn. pose proof (ascending_app_lt _ _ y x A Hy Hx). lia.
Qed.

Lemma first_id_of_app a b : a <> [] -> first_id_of (a ++ b) = first_id_of a.
Proof. by destruct a. Qed.

(** The first id of a longer and of a shorter window differ. *)
Lemma first_id_newest n l : ascending l -> l <> [] -> (1 <= n)%nat ->
  (first_id_of (newest n l) = first_id_of l <-> newest n l = l).
Proof.
  intros A Hne Hn. split; [|by intros ->]. intros E. destruct (newest_suffix n l) as [older Hl].
  destruct older as [|x older]; [by cbn in Hl|]. exfalso. rewrite Hl in A.
  destruct (newest n l) as [|y w] eqn:Ew.
  { apply (f_equal length) in Ew. rewrite length_newest in Ew. destruct l; [done|cbn in Ew; lia]. }
  rewrite Hl in E. cbn in E. injection E as E.
  pose proof (ascending_app_lt (x :: older) (y :: w) x y A ltac:(left) ltac:(left)). lia.
Qed.

Record fetch_ok (sv : Server) (r : Z) (before : option Z) (limit : nat) (whole page : list ChatMessage) : Prop := {
  fo_newest : exists k, (k <= limit)%nat /\ page = newest k (owed before whole);
  fo_progress : owed before whole <> [] -> page <> [];
  fo_delivered : exists payloads, fetch_history true sv r before limit = Some payloads /\
    page_delivered r before (bool_decide (page = owed before whole)) HISTORY_CHUNK_TARGET_BYTES payloads page;
}.

Section fetch.
Context (sv : Server) (r : Z) (whole : list ChatMessage) (before : option Z) (limit : nat).
Context (room : DurableRoom) (d : RoomDir) (segs : list (list ChatMessage)) (act rest older window : list ChatMessage).
Context (Hr : is_u32 r) (Hb : match before with Some b => is_u64 b | None => True end) (Hlimit : (1 <= limit)%nat).
Context (Hroom : rooms (sv_store sv) !! r = Some (RetainDurable room)) (Hdir : sv_dir sv r = d).
Context (V : view_ok d (view_of room) segs act) (Hlog : Forall fits (mjoin segs ++ act)).
Context (Hwhole : whole = (mjoin segs ++ act) ++ rest) (Hsplit : whole = older ++ window).
Context (Hrest : exists x, window = x ++ rest) (Hwin : whole <> [] -> window <> []).
Context (R : resident (dr_history room) (msg_record <$> window)).
Context (S : Forall (storable r) whole) (A : ascending whole).

Lemma oldest_first : Retention.oldest_durable_id (RetainDurable room) = first_id_of (mjoin segs ++ act).
Proof. exact (oldest_of_view _ _ _ _ V). Qed.

Lemma fetch_resident : window <> [] -> RoomStore.resident (sv_store sv) r = Some (dr_history room).
Proof.
  intros Hne. unfold RoomStore.resident. rewrite Hroom. cbn [mbind option_bind Retention.history].
  unfold ResidentHistory.is_empty. rewrite (resident_len _ _ R), length_fmap, bool_decide_false; [done|]. by destruct window.
Qed.

(** Messages older than the window are on disk, and the mirror knows. *)
Lemma older_on_disk : older <> [] -> mjoin segs ++ act <> [].
Proof.
  intros Hne E. destruct Hrest as [x Hx]. rewrite E in Hwhole. cbn in Hwhole. rewrite Hsplit, Hx in Hwhole.
  apply (f_equal length) in Hwhole. rewrite !length_app in Hwhole. destruct older; [done|cbn in Hwhole; lia].
Qed.

Lemma has_older_iff : window <> [] -> Retention.has_unresident_history (RetainDurable room) = bool_decide (older <> []).
Proof.
  intros Hne. unfold Retention.has_unresident_history. rewrite oldest_first. cbn [Retention.history mbind option_bind].
  rewrite (resident_first _ _ R), msg_record_ids.
  assert (forall id, first_id_of (mjoin segs ++ act) = Some id -> first_id_of whole = Some id) as Hfirst.
  { intros id Hid. rewrite Hwhole, first_id_of_app; [done|]. by intros E; rewrite E in Hid. }
  assert (exists w win, window = w :: win) as (w & win & Ew) by (revert Hne; clear; destruct window; eauto; done).
  replace (head (message_id <$> window)) with (Some (message_id w)) by (by rewrite Ew).
  destruct (decide (older = [])) as [Eo|Ho].
  - rewrite (bool_decide_false (older <> [])) by (intros Hc; by apply Hc).
    destruct (first_id_of (mjoin segs ++ act)) as [id|]; [|done]. apply bool_decide_eq_false.
    specialize (Hfirst id eq_refl). rewrite Hsplit, Eo, Ew in Hfirst. injection Hfirst as <-. lia.
  - rewrite bool_decide_true by done. pose proof (older_on_disk Ho) as Hd.
    destruct (first_id_of (mjoin segs ++ act)) as [id|] eqn:Ef; [|by destruct (mjoin segs ++ act)].
    specialize (Hfirst id eq_refl). apply bool_decide_eq_true. rewrite Hsplit, first_id_of_app in Hfirst by done.
    destruct (first_id_of_head _ _ Hfirst) as (o & Hin & <-). pose proof A as A'. rewrite Hsplit, Ew in A'.
    apply (ascending_app_lt older (w :: win) o w A' Hin). left.
Qed.

Lemma fetch_from_window : owed before window <> [] -> exists page, fetch_ok sv r before limit whole page.
Proof.
  intros Hne. assert (window <> []) as Hw by (by intros ->).
  assert (Forall (fun m => message_wf m /\ room_id m = r) window) as Ww.
  { rewrite Hsplit in S. apply Forall_app in S as [_ S']. eapply Forall_impl; [exact S'|]. by intros m [[? _] ?]. }
  assert (ascending window) as Aw by (apply (ascending_sub older _ []); by rewrite app_nil_r, <- Hsplit).
  assert (owed before whole = older ++ owed before window) as Ho.
  { rewrite Hsplit, owed_app. f_equal. apply (owed_older before older window); [by rewrite <- Hsplit|done]. }
  destruct (resident_page (dr_history room) r window before limit HISTORY_CHUNK_TARGET_BYTES (bool_decide (older <> [])) Hr Hb R Aw Ww)
    as (Hcount & Hstart & payloads & He & D).
  set (page := history_page before limit window) in *.
  assert (page = newest limit (owed before window)) as Ep by done.
  assert (page <> []) as Hpage.
  { rewrite Ep. intros E. apply (f_equal length) in E. rewrite length_newest in E. destruct (owed before window); [done|cbn in E; lia]. }
  exists page. split.
  - exists (length page). rewrite Ho. split; [rewrite Ep, length_newest; lia|].
    rewrite newest_app by (rewrite Ep, length_newest; lia). rewrite Ep, length_newest. unfold newest. f_equal. lia.
  - done.
  - exists payloads. unfold fetch_history. unfold RoomStore.history_fetch_plan_before.
    rewrite (fetch_resident Hw), Hroom, (has_older_iff Hw).
    set (plan := ResidentHistory.history_chunks_before _ _ _ _ _ _) in *.
    assert (plan_message_count plan <> O) as Hc by (rewrite Hcount; by destruct page).
    rewrite (decide_False (P := plan_message_count plan = O)) by done. rewrite decide_False by done. split.
    + unfold HistoryFetchPlan.chunk_count.
      apply (encode_from_specs (sv_store sv) plan (dr_history room) [] (plan_chunks plan)); [by apply fetch_resident|done|exact He].
    + replace (bool_decide (page = owed before whole)) with (plan_at_start plan); [exact D|].
      rewrite Hstart, Ho. symmetry. destruct (decide (older = [])) as [Eo|Hno].
      * rewrite (bool_decide_false (older <> [])) by (intros Hc'; by apply Hc'). cbn [negb]. rewrite andb_true_r, Eo. cbn [app].
        apply bool_decide_ext. rewrite Ep. split; [|by apply newest_short]. intros E. apply (f_equal length) in E.
        rewrite length_newest in E. unfold owed in *. lia.
      * rewrite (bool_decide_true (older <> [])) by done. cbn [negb]. rewrite andb_false_r. apply bool_decide_eq_false. intros E.
        apply (f_equal length) in E. rewrite Ep, length_newest, length_app in E.
        assert (length older <> O) by (intros Hz; by apply nil_length_inv in Hz). lia.
Qed.

Lemma owed_rest : owed before window = [] -> owed before rest = [].
Proof.
  intros E. destruct Hrest as [x Hx]. rewrite Hx, owed_app in E. by apply app_nil in E as [_ ?].
Qed.

(** Nothing resident is below the bound: the plan is empty. *)
Lemma empty_plan at_start :
  owed before window = [] ->
  (match Retention.oldest_durable_id (RetainDurable room) with
   | Some oldest => bool_decide (before_bound before <= oldest)
   | None => true
   end) = at_start ->
  let plan := RoomStore.history_fetch_plan_before (sv_store sv) r before limit HISTORY_CHUNK_TARGET_BYTES in
  plan_message_count plan = O /\ plan_room_id plan = r /\ plan_before plan = before /\
  plan_chunks plan = [{| spec_first_id := None; spec_count := 0; spec_records_bytes := 0; spec_at_start := at_start; spec_complete := true |}].
Proof.
  intros E Hs. unfold RoomStore.history_fetch_plan_before. rewrite Hroom. cbn [mbind option_bind]. rewrite Hs.
  destruct (decide (window = [])) as [Ew|Hw].
  - assert (RoomStore.resident (sv_store sv) r = None) as ->.
    { unfold RoomStore.resident. rewrite Hroom. cbn [mbind option_bind Retention.history].
      unfold ResidentHistory.is_empty. by rewrite (resident_len _ _ R), length_fmap, Ew. }
    done.
  - rewrite (fetch_resident Hw). set (plan := ResidentHistory.history_chunks_before _ _ _ _ _ _).
    assert (Forall (fun m => message_wf m /\ room_id m = r) window) as Ww.
    { rewrite Hsplit in S. apply Forall_app in S as [_ S']. eapply Forall_impl; [exact S'|]. by intros m [[? _] ?]. }
    assert (ascending window) as Aw by (apply (ascending_sub older _ []); by rewrite app_nil_r, <- Hsplit).
    destruct (resident_page (dr_history room) r window before limit HISTORY_CHUNK_TARGET_BYTES
      (Retention.has_unresident_history (RetainDurable room)) Hr Hb R Aw Ww) as (Hcount & _).
    fold plan in Hcount. unfold history_page in Hcount. unfold owed in E. rewrite E in Hcount.
    rewrite decide_True by done. split_and!; [done|done|done|].
    change (plan_message_count plan) with
      (length (slice (ResidentHistory.entries (dr_history room))
        (match before with Some b => partition_point (fun e => bool_decide (entry_id e < b)) (ResidentHistory.entries (dr_history room))
         | None => length (ResidentHistory.entries (dr_history room)) end - limit)
        (match before with Some b => partition_point (fun e => bool_decide (entry_id e < b)) (ResidentHistory.entries (dr_history room))
         | None => length (ResidentHistory.entries (dr_history room)) end))) in Hcount.
    cbn [plan_chunks plan ResidentHistory.history_chunks_before]. unfold plan, ResidentHistory.history_chunks_before. cbn [plan_chunks].
    unfold newest in Hcount. cbn [length drop] in Hcount. apply nil_length_inv in Hcount. rewrite Hcount. done.
Qed.

(** An unbounded request is always served from the window. *)
Lemma bounded_request : owed before window = [] -> whole <> [] -> exists b, before = Some b /\ before_bound before = b.
Proof.
  intros E Hne. destruct before as [b|]; [by exists b|]. exfalso. apply (Hwin Hne).
  unfold owed in E. by rewrite filter_all in E by (by apply Forall_true).
Qed.

Lemma fetch_empty :
  owed before window = [] -> owed before whole = [] ->
  (match Retention.oldest_durable_id (RetainDurable room) with
   | Some oldest => bool_decide (before_bound before <= oldest)
   | None => true
   end) = true ->
  exists page, fetch_ok sv r before limit whole page.
Proof.
  intros Ew Eo Hs. exists []. rewrite <- Eo. split.
  - exists O. split; [lia|]. by rewrite Eo.
  - done.
  - rewrite Eo. destruct (empty_plan true Ew Hs) as (Hc & Hpr & Hpb & Hch).
    unfold fetch_history. rewrite Hc, decide_True by done.
    assert (RoomStore.disk_fetch_request true (sv_store sv) r before limit HISTORY_CHUNK_TARGET_BYTES = None) as ->.
    { unfold RoomStore.disk_fetch_request. rewrite Hroom. cbn [mbind option_bind].
      destruct (Retention.oldest_durable_id _); [|done]. cbn [mbind option_bind]. apply bool_decide_eq_true in Hs. by rewrite decide_True. }
    rewrite bool_decide_true by done. by apply empty_delivered.
Qed.

Lemma fetch_from_disk : owed before window = [] -> exists page, fetch_ok sv r before limit whole page.
Proof.
  intros Ew. destruct (first_id_of (mjoin segs ++ act)) as [id0|] eqn:Ef.
  2: { assert (mjoin segs ++ act = []) as El by (by destruct (mjoin segs ++ act)).
       apply fetch_empty; [done| |by rewrite oldest_first, Ef]. rewrite Hwhole, El. cbn [app]. by apply owed_rest. }
  assert (whole <> []) as Hne by (rewrite Hwhole; by destruct (mjoin segs ++ act)).
  destruct (bounded_request Ew Hne) as (b & Eb & Hbound).
  assert (ascending (mjoin segs ++ act)) as Al by (apply (ascending_sub [] _ rest); by rewrite <- Hwhole).
  assert (owed before whole = below b (mjoin segs ++ act)) as Eo.
  { rewrite Hwhole, owed_app, (owed_rest Ew), app_nil_r. by rewrite Eb. }
  destruct (decide (b <= id0)) as [Hle|Hgt].
  { apply fetch_empty; [done| |rewrite oldest_first, Ef, Hbound; by apply bool_decide_eq_true].
    rewrite Eo. apply below_late; [done|]. intros ? E. rewrite Ef in E. by injection E as <-. }
  destruct (disk_sources_read d d room segs act b V ltac:(reflexivity) Hlog Al) as (mss & Hsrc & Hms & Hj).
  set (rq := mkRequest r before limit HISTORY_CHUNK_TARGET_BYTES id0 (RoomStore.disk_sources true room b)).
  assert (below b (mjoin segs ++ act) <> []) as Hbel.
  { destruct (first_id_of_head _ _ Ef) as (m & Hin & Hid). intros E.
    assert (m ∈ below b (mjoin segs ++ act)) as Hm by (apply list_elem_of_filter; split; [lia|done]). rewrite E in Hm.
    by apply not_elem_of_nil in Hm. }
  assert (ascending (below b (mjoin segs ++ act))) as Ab.
  { unfold below. rewrite <- (partition_below message_id b _ Al). set (k := partition_point _ _).
    apply (ascending_sub [] _ (drop k (mjoin segs ++ act))). cbn [app]. by rewrite take_drop. }
  assert (first_id_of (below b (mjoin segs ++ act)) = Some id0) as Efb.
  { destruct (mjoin segs ++ act) as [|m l] eqn:El; [done|]. injection Ef as <-. unfold below. by rewrite filter_cons_True by lia. }
  set (page := newest limit (below b (mjoin segs ++ act))).
  destruct (execute_page d rq mss page) as (payloads & He & D); [done|done|exact Hsrc|exact Hms|..].
  - cbn [rq rq_limit rq_before]. by rewrite Hbound, Hj.
  - destruct (newest_suffix limit (below b (mjoin segs ++ act))) as [o Ho]. fold page in Ho.
    apply (ascending_sub o _ []). by rewrite app_nil_r, <- Ho.
  - cbn [rq rq_room_id]. apply Forall_drop, Forall_filtered. rewrite Hwhole in S. by apply Forall_app in S as [? _].
  - exists page. split.
    + exists limit. by rewrite Eo.
    + intros _ E. apply (f_equal length) in E. subst page. rewrite length_newest in E. destruct (below b (mjoin segs ++ act)); [done|cbn in E; lia].
    + exists payloads. cbn [rq rq_room_id rq_before rq_oldest_durable_id rq_target_bytes] in D. split.
      * unfold fetch_history. destruct (empty_plan _ Ew eq_refl) as (Hc & _). rewrite Hc, decide_True by done.
        assert (RoomStore.disk_fetch_request true (sv_store sv) r before limit HISTORY_CHUNK_TARGET_BYTES = Some rq) as ->.
        { unfold RoomStore.disk_fetch_request. rewrite Hroom. cbn [mbind option_bind]. rewrite oldest_first, Ef. cbn [mbind option_bind].
          rewrite Hbound. by rewrite decide_False by lia. }
        rewrite Hdir. exact He.
      * replace (bool_decide (page = owed before whole)) with (bool_decide (first_id_of page = Some id0)); [exact D|].
        apply bool_decide_ext. rewrite Eo, <- Efb. by apply first_id_newest.
Qed.

End fetch.

(** Every request is answered with the newest part of what it is owed. *)
Lemma srv_fetch t sv r whole before limit :
  srv_inv t sv r whole -> is_u32 r -> match before with Some b => is_u64 b | None => True end -> (1 <= limit)%nat ->
  exists page, fetch_ok sv r before limit whole page.
Proof.
  intros [T S A (rm & s & segs & act & M & ms & qs & n & queue & H1 & H2 & H3 & H4 & H5 & H6 & H7 & H8 & H9 & H10 & H11 & H12 & H13)] Hr Hb Hl.
  destruct (lag_spec _ _ _ _ _ _ _ _ H8) as (_ & Hj & segs0 & act0 & V & ->).
  destruct (newest_suffix n whole) as [older Ho]. set (window := newest n whole) in *.
  assert (Forall fits (mjoin segs0 ++ act0)) as Hfit.
  { rewrite H9 in S. apply Forall_app in S as [S _]. eapply Forall_impl; [exact S|]. by intros m [? _]. }
  assert (exists x, window = x ++ ms ++ qs) as Hrest.
  { exists (newest (n - length (ms ++ qs)) (mjoin segs0 ++ act0)). subst window. rewrite H9. unfold newest.
    rewrite !length_app. rewrite length_app in H12. rewrite drop_app_le by (rewrite ?length_app; lia). do 2 f_equal. rewrite ?length_app. lia. }
  assert (whole <> [] -> window <> []) as Hwin.
  { intros Hne E. specialize (H13 Hne). apply (f_equal length) in E. subst window. rewrite length_newest in E.
    destruct whole; [done|cbn in E; lia]. }
  destruct (decide (owed before window = [])) as [E|E].
  - by eapply (fetch_from_disk sv r whole before limit rm (sv_dir sv r) segs0 act0 (ms ++ qs) older window).
  - by eapply (fetch_from_window sv r whole before limit rm (sv_dir sv r) segs0 act0 (ms ++ qs) older window).
Qed.

(** ** Runs of the server *)

(** The messages a run accepts into the room. *)
Fixpoint accepted (sv : Server) (r : Z) (steps : list ServerStep) : list ChatMessage :=
  match steps with
  | [] => []
  | step :: steps =>
      accepts sv r step ++ match server_step sv step with Some sv => accepted sv r steps | None => [] end
  end.

(** The messages it offers. *)
Definition offered (r : Z) (steps : list ServerStep) : list ChatMessage :=
  omap (fun s => match s with SvAppend _ room m => if decide (room = r) then Some m else None | _ => None end) steps.

Definition run_step_ok (r : Z) (step : ServerStep) : Prop :=
  match step with
  | SvAppend _ room m => message_wf m /\ (room = r -> storable r m)
  | SvWork io => io_all io
  | SvDrain => True
  end.

Lemma offered_one r io m : offered r [SvAppend io r m] = [m].
Proof. unfold offered. cbn. by rewrite decide_True. Qed.

Lemma sorted_sublist (l k : list Z) : sublist l k -> StronglySorted Z.lt k -> StronglySorted Z.lt l.
Proof.
  induction 1 as [|x l k Hs IH|x l k Hs IH]; intros S; [done|apply StronglySorted_inv in S as [S Hx]..].
  - constructor; [by apply IH|]. rewrite Forall_forall in *. intros y Hy. apply Hx. by eapply elem_of_sublist.
  - by apply IH.
Qed.

Lemma ascending_sublist l k : sublist l k -> ascending k -> ascending l.
Proof.
  intros Hs. apply sorted_sublist. induction Hs as [|x l k Hs IH|x l k Hs IH]; rewrite ?fmap_cons; by constructor.
Qed.

Lemma step_srv t sv r whole step :
  srv_inv t sv r whole -> (1 <= max_resident_messages t)%nat -> run_step_ok r step ->
  Forall (fun x => Forall (fun y => message_id y < message_id x) whole) (offered r [step]) ->
  exists sv', server_step sv step = Some sv' /\ srv_inv t sv' r (whole ++ accepts sv r step).
Proof.
  intros I Hmax Hok Hasc. destruct step as [io room m|io|].
  - destruct Hok as [W Hst]. cbn [server_step]. destruct (try_append_known io (sv_store sv) room m (sv_dir sv room) W) as (s' & d' & res & E).
    eexists. split; [by rewrite E|]. assert (server_step sv (SvAppend io room m) =
      Some {| sv_store := s'; sv_workers := sv_workers sv; sv_disk := <[room := d']> (sv_disk sv) |}) as Es by (cbn [server_step]; by rewrite E).
    destruct (decide (room = r)) as [->|Hne].
    + rewrite offered_one in Hasc. apply (append_srv t sv r whole io m); [done|by apply Hst| |done].
      by apply Forall_cons in Hasc as [? _].
    + cbn [accepts]. rewrite decide_False, app_nil_r by done. by eapply append_other_srv.
  - cbn [accepts]. rewrite app_nil_r. destruct (server_step sv (SvWork io)) as [sv'|] eqn:E.
    + exists sv'. split; [done|]. by eapply work_srv.
    + cbn [server_step] in E. destruct (log_writer _) as [[|]|]; [done| |done]. by destruct (room_log_worker _ _ _ _) as [[? ?] ?].
  - cbn [accepts]. rewrite app_nil_r. eexists. split; [done|]. by apply drain_srv.
Qed.

Lemma accepts_offered sv r step : sublist (accepts sv r step) (offered r [step]).
Proof.
  destruct step as [io room x|io|]; cbn [accepts]; [|constructor..]. case_decide as Hr; [|apply sublist_nil_l].
  subst room. rewrite offered_one. destruct (log_writer (sv_store sv)) as [q|]; [|done]. case_decide; [done|apply sublist_nil_l].
Qed.

Lemma offered_cons r step steps : offered r (step :: steps) = offered r [step] ++ offered r steps.
Proof. change (step :: steps) with ([step] ++ steps). apply omap_app. Qed.

Lemma run_srv t r steps : forall sv whole,
  srv_inv t sv r whole -> (1 <= max_resident_messages t)%nat -> Forall (run_step_ok r) steps ->
  ascending (whole ++ offered r steps) ->
  exists sv', server_run sv steps = Some sv' /\ srv_inv t sv' r (whole ++ accepted sv r steps).
Proof.
  induction steps as [|step steps IH]; intros sv whole I Hmax Hok Hasc; cbn [server_run accepted].
  - exists sv. by rewrite app_nil_r.
  - apply Forall_cons in Hok as [Hs Hok]. rewrite offered_cons in Hasc.
    destruct (step_srv t sv r whole step I Hmax Hs) as (sv1 & E & I1).
    { apply Forall_forall. intros x Hx. apply Forall_forall. intros y Hy.
      apply (ascending_app_lt whole (offered r [step] ++ offered r steps)); [done|done|]. apply elem_of_app. by left. }
    rewrite E. cbn [mbind option_bind]. rewrite (assoc_L (++)). apply IH; [done|done|done|].
    rewrite <- (assoc_L (++)). revert Hasc. apply ascending_sublist.
    apply sublist_app; [done|]. apply sublist_app; [apply accepts_offered|done].
Qed.

(** ** Starting on the files of earlier lives *)

Definition good_open : OpenIo := {| oi_truncate := true; oi_open := true |}.

Lemma register_room_spec io s room_id p limit d s' d' r :
  RoomStore.register_room io s room_id p limit d = (s', d') ->
  tuning s' = tuning s /\ data_dir s' = data_dir s /\ log_writer s' = log_writer s /\ log_events s' = log_events s /\
  pending_log_writes s' = pending_log_writes s /\
  (r <> room_id -> rooms s' !! r = rooms s !! r) /\
  (r = room_id -> p = PersistDurable -> rooms s' !! r = Some (RetainDurable (open_durable io (data_dir s) (tuning s) d).1) /\
    d' = (open_durable io (data_dir s) (tuning s) d).2).
Proof.
  unfold RoomStore.register_room. intros E.
  destruct p; [| |destruct (open_durable io (data_dir s) (tuning s) d) as [rm dd] eqn:Eo];
    cbn [Retention.history] in E;
    repeat (match goal with H : context [ResidentHistory.last ?h] |- _ => destruct (ResidentHistory.last h) end);
    injection E as <- <-; cbn; (split_and!; try done; intros; subst; rewrite ?lookup_insert_eq, ?lookup_insert_ne by done; done).
Qed.

Lemma register_all_spec io l : forall s disk s' disk' r,
  RoomStore.register_all io s l disk = (s', disk') ->
  NoDup (l.*1).*1 ->
  tuning s' = tuning s /\ data_dir s' = data_dir s /\ log_writer s' = log_writer s /\ log_events s' = log_events s /\
  pending_log_writes s' = pending_log_writes s /\
  (r ∉ (l.*1).*1 -> rooms s' !! r = rooms s !! r /\ disk' !! r = disk !! r) /\
  ((r, PersistDurable) ∈ l.*1 ->
    let o := open_durable io (data_dir s) (tuning s) (default empty_dir (disk !! r)) in
    rooms s' !! r = Some (RetainDurable o.1) /\ disk' !! r = Some o.2).
Proof.
  induction l as [|[[id p] limit] l IH]; intros s disk s' disk' r E Hnd; cbn [RoomStore.register_all] in E.
  - injection E as <- <-. split_and!; try done. intros Hin. by apply not_elem_of_nil in Hin.
  - destruct (RoomStore.register_room io s id p limit _) as [s1 d1] eqn:E1. rewrite !fmap_cons in Hnd. cbn [fst] in Hnd.
    apply NoDup_cons in Hnd as [Hid Hnd].
    destruct (register_room_spec _ _ _ _ _ _ _ _ r E1) as (A1 & A2 & A3 & A4 & A5 & A6 & A7).
    destruct (IH _ _ _ _ r E Hnd) as (B1 & B2 & B3 & B4 & B5 & B6 & B7). rewrite A1, A2 in *.
    rewrite !fmap_cons. cbn [fst].
    split_and!; try congruence.
    + intros [Hne Hnin]%not_elem_of_cons. destruct (B6 Hnin) as [C1 C2]. rewrite C1, C2. split; [by apply A6|by rewrite lookup_insert_ne].
    + intros [Heq|Hin]%elem_of_cons.
      * injection Heq as -> <-. destruct (B6 Hid) as [C1 C2]. rewrite C1, C2, lookup_insert_eq. destruct (A7 eq_refl eq_refl) as [D1 ->]. done.
      * assert (r <> id) as Hne.
        { intros ->. apply Hid. apply (list_elem_of_fmap_2 fst) in Hin. exact Hin. }
        specialize (B7 Hin). rewrite lookup_insert_ne in B7 by done. exact B7.
Qed.

Definition dm_config (dm : DmRoom) : Z * RoomPersistenceConfig * nat := (dm_room_id dm, PersistDurable, O).

Lemma register_all_app io l k s disk :
  RoomStore.register_all io s (l ++ k) disk =
  let '(s, disk) := RoomStore.register_all io s l disk in RoomStore.register_all io s k disk.
Proof.
  revert s disk. induction l as [|[[id p] limit] l IH]; intros s disk; [done|]. cbn [app RoomStore.register_all].
  destruct (RoomStore.register_room _ _ _ _ _ _). apply IH.
Qed.

Lemma start_room t state configured disk r :
  let all := configured ++ (dm_config <$> st_dm_rooms state) in
  NoDup (all.*1).*1 -> (r, PersistDurable) ∈ all.*1 ->
  let sv := server_start t state configured disk in
  let o := open_durable good_open true t (default empty_dir (disk !! r)) in
  tuning (sv_store sv) = t /\ log_writer (sv_store sv) = Some [] /\ log_events (sv_store sv) = [] /\
  pending_log_writes (sv_store sv) = ∅ /\ sv_disk sv !! r = Some o.2 /\
  rooms (sv_store sv) !! r = RoomStore.disable_failed (fun _ => true) r (RetainDurable o.1) /\
  sv_workers sv !! r = RoomStore.worker_state (fun _ => true) r (RetainDurable o.1).
Proof.
  intros all Hnd Hin sv o. subst sv. unfold server_start, RoomStore.try_open. fold good_open.
  set (s0 := mkStore _ _ _ _ _ _ _ _ _ _ _ _ _ _ _ _).
  pose proof (register_all_app good_open configured (dm_config <$> st_dm_rooms state) s0 disk) as Happ. fold all in Happ.
  destruct (RoomStore.register_all good_open s0 configured disk) as [s1 disk1] eqn:E1.
  change (fun dm => (dm_room_id dm, PersistDurable, O)) with dm_config.
  destruct (RoomStore.register_all good_open s1 (dm_config <$> st_dm_rooms state) disk1) as [s2 disk2] eqn:E2.
  destruct (register_all_spec _ _ _ _ _ _ r Happ Hnd) as (B1 & B2 & B3 & B4 & B5 & _ & B7).
  cbn [s0 tuning data_dir log_writer log_events pending_log_writes] in *. destruct (B7 Hin) as [C1 C2]. fold o in C1, C2.
  unfold RoomStore.enable_async_log_writes. cbn [set_dm log_writer rooms]. rewrite B3.
  cbn [sv_store sv_workers sv_disk set_log set_rooms set_dm tuning log_writer log_events pending_log_writes rooms].
  rewrite !map_lookup_imap, C1. cbn [mbind option_bind]. split_and!; done.
Qed.

(** The server starts in the invariant. *)
Lemma start_srv t steps0 state configured r :
  (1 <= max_resident_messages t)%nat -> Forall step_wf steps0 -> (forall r, ascending (room_appends r steps0)) ->
  Forall (fun m => room_id m = r) (room_appends r steps0) ->
  NoDup ((configured ++ (dm_config <$> st_dm_rooms state)).*1).*1 ->
  (r, PersistDurable) ∈ (configured ++ (dm_config <$> st_dm_rooms state)).*1 ->
  srv_inv t (server_start t state configured (wd_disk (log_run t steps0))) r (wd_log (log_run t steps0) r).
Proof.
  intros Hmax Hwf Hasc Hid Hnd Hin. destruct (run_inv t steps0 Hwf Hasc r) as (Hsub & segs & act & [Hlog Hfiles Hact _]).
  destruct (start_room t state configured (wd_disk (log_run t steps0)) r Hnd Hin) as (T & Q & E & P & D & Rm & Wk).
  set (sv := server_start _ _ _ _) in *. fold (room_dir (log_run t steps0) r) in *.
  destruct (open_durable good_open true t (room_dir (log_run t steps0) r)) as [room d'] eqn:Eo. cbn [fst snd] in D, Rm, Wk.
  destruct (open_durable_ok _ _ _ _ _ _ _ Hfiles Hact Eo) as (R & Hs & Hb & Hf & Hp & L' & A' & Hfile).
  destruct (dr_file room) as [i| |] eqn:Ef; [|done|done].
  assert (sv_dir sv r = d') as Hd by (unfold sv_dir; by rewrite D).
  cbn [RoomStore.disable_failed] in Rm. rewrite Ef, Hp in Rm. cbn [negb andb] in Rm.
  cbn [RoomStore.worker_state] in Wk. rewrite Ef, Hp in Wk.
  constructor.
  - exact T.
  - rewrite Hlog in *. apply Forall_forall. intros m Hm. pose proof (lo_fits _ _ _ L') as F. rewrite Forall_forall in F, Hsub, Hid.
    split; [by apply F|by apply Hid, Hsub].
  - rewrite Hlog. apply L'.
  - exists room. eexists. exists segs, act, (mjoin segs ++ act), [], [], (max_resident_messages t), [].
    rewrite Hd, P, E, lookup_empty. split_and!; try done.
    + apply lag_nil; [|by right]. constructor; cbn [view_of v_segments v_bytes v_first v_file]; [done|done|done|apply L'|].
      rewrite Ef. destruct Hfile as (_ & Hi & _). by exists [].
    + by rewrite Hlog, app_nil_r.
    + by rewrite Hlog.
    + cbn. lia.
Qed.

(** ** A client that pages back *)

Fixpoint decode_payloads (payloads : list bytes) : option (list HistoryChunk) :=
  match payloads with
  | [] => Some []
  | p :: payloads =>
      match decode_chunk p with
      | Ok (Some c) => cs ← decode_payloads payloads; Some (c :: cs)
      | _ => None
      end
  end.

(** Asks for the newest page, then for what comes before the oldest message it
    has, until an answer says that the start was reached. *)
Fixpoint page_back (fuel : nat) (sv : Server) (room : Z) (limit : nat) (before : option Z) : option (list ChatMessage) :=
  match fuel with
  | O => None
  | S fuel =>
      payloads ← fetch_history true sv room before limit;
      chunks ← decode_payloads payloads;
      let ms := mjoin (reverse (chunk_messages <$> chunks)) in
      if existsb chunk_at_start chunks then Some ms
      else
        oldest ← first_id_of ms;
        older ← page_back fuel sv room limit (Some oldest);
        Some (older ++ ms)
  end.

Lemma decode_payloads_ok payloads chunks :
  Forall2 (fun p c => decode_chunk p = Ok (Some c)) payloads chunks -> decode_payloads payloads = Some chunks.
Proof. induction 1 as [|p c payloads chunks Hp _ IH]; [done|]. cbn [decode_payloads]. by rewrite Hp, IH. Qed.

Lemma at_start_flag (chunks : list HistoryChunk) n b :
  (fun c => (chunk_complete c, chunk_at_start c)) <$> chunks = replicate n (false, false) ++ [(true, b)] ->
  existsb chunk_at_start chunks = b.
Proof.
  revert n. induction chunks as [|c chunks IH]; intros n E; [by destruct n|]. rewrite fmap_cons in E.
  destruct n as [|n]; cbn [replicate app] in E; apply cons_inv in E as [E1 E2]; injection E1 as H1 H2; cbn [existsb]; rewrite H2.
  - destruct chunks; [cbn; by destruct b|done].
  - cbn. by apply (IH n).
Qed.

(** What is left to ask for once a page was delivered. *)
Lemma owed_next before whole older page id :
  ascending whole -> owed before whole = older ++ page -> first_id_of page = Some id -> owed (Some id) whole = older.
Proof.
  intros A E Hf. destruct (first_id_of_head _ _ Hf) as (m & Hm & Hid).
  assert (m ∈ owed before whole) as Hin by (rewrite E; apply elem_of_app; by right).
  apply list_elem_of_filter in Hin as [Hb _].
  assert (owed (Some id) whole = below id (owed before whole)) as ->.
  { unfold owed, below. rewrite list_filter_filter. apply list_filter_iff. intros x. cbn. split; [|tauto]. intros Hx. split; [done|].
    destruct before as [b|]; [cbn in *; lia|done]. }
  assert (ascending (older ++ page)) as Ao.
  { rewrite <- E. apply (ascending_sublist _ whole); [|done]. apply filter_sublist || apply sublist_filter. }
  rewrite E, below_app. rewrite (below_late id page).
  - rewrite app_nil_r. apply filter_all, Forall_forall. intros x Hx. rewrite <- Hid. by apply (ascending_app_lt older page x m Ao).
  - apply (ascending_sub older _ []). by rewrite app_nil_r.
  - intros ? E'. rewrite Hf in E'. injection E' as <-. lia.
Qed.

Lemma page_back_ok t sv r whole limit :
  srv_inv t sv r whole -> is_u32 r -> (1 <= limit)%nat ->
  forall fuel before, match before with Some b => is_u64 b | None => True end -> (length (owed before whole) < fuel)%nat ->
  page_back fuel sv r limit before = Some (owed before whole).
Proof.
  intros I Hr Hl. induction fuel as [|fuel IH]; intros before Hb Hlen; [lia|]. cbn [page_back].
  destruct (srv_fetch t sv r whole before limit I Hr Hb Hl) as (page & [(k & _ & Hpage) Hprog (payloads & -> & chunks & D)]).
  cbn [mbind option_bind]. rewrite (decode_payloads_ok _ _ (page_decodes _ _ _ _ _ _ _ D)). cbn [mbind option_bind].
  rewrite (page_exact _ _ _ _ _ _ _ D). destruct (page_flags _ _ _ _ _ _ _ D) as [n Hf]. rewrite (at_start_flag _ _ _ Hf).
  destruct (decide (page = owed before whole)) as [->|Hne]; [by rewrite bool_decide_true|]. rewrite bool_decide_false by done.
  destruct (newest_suffix k (owed before whole)) as [older Ho]. rewrite <- Hpage in Ho.
  assert (owed before whole <> []) as Hnil.
  { intros E. apply Hne. rewrite E in *. by destruct older, page. }
  specialize (Hprog Hnil). destruct (first_id_of page) as [id|] eqn:Ef; [|by destruct page]. cbn [mbind option_bind].
  pose proof (owed_next _ _ _ _ _ (si_ascending _ _ _ _ I) Ho Ef) as Hnext. rewrite IH.
  - cbn [mbind option_bind]. by rewrite Hnext, <- Ho.
  - destruct (first_id_of_head _ _ Ef) as (m & Hm & <-). pose proof (si_storable _ _ _ _ I) as S. rewrite Forall_forall in S.
    assert (m ∈ whole) as Hin.
    { assert (m ∈ owed before whole) as Hx by (rewrite Ho; apply elem_of_app; by right). by apply list_elem_of_filter in Hx as [_ ?]. }
    apply (S m Hin).
  - rewrite Hnext. rewrite Ho, length_app in Hlen. destruct page; [done|cbn in Hlen; lia].
Qed.

(** ** Properties *)

(** A durable room of a server: what happened to its log in earlier lives
    ([steps0], crashes and failing writes included), how the server is
    configured, and what it does in this one, in which no system call fails. *)
Record life_ok (t : StoreTuning) (steps0 : list LogStep) (state : LoadedState)
    (configured : list (Z * RoomPersistenceConfig * nat)) (r : Z) (steps : list ServerStep) : Prop := {
  life_tuning : (1 <= max_resident_messages t)%nat;
  life_room : is_u32 r;
  life_wf : Forall step_wf steps0;
  life_rooms : forall r', ascending (room_appends r' steps0);
  life_ids : Forall (fun m => room_id m = r) (room_appends r steps0);
  life_configured : NoDup ((configured ++ (dm_config <$> st_dm_rooms state)).*1).*1;
  life_durable : (r, PersistDurable) ∈ (configured ++ (dm_config <$> st_dm_rooms state)).*1;
  life_steps : Forall (run_step_ok r) steps;
  life_ascending : ascending (room_appends r steps0 ++ offered r steps);
}.

(** The messages the room was given: those the log kept, then those accepted now. *)
Definition room_history (t : StoreTuning) (steps0 : list LogStep) (state : LoadedState)
    (configured : list (Z * RoomPersistenceConfig * nat)) (r : Z) (steps : list ServerStep) : list ChatMessage :=
  wd_log (log_run t steps0) r ++ accepted (server_start t state configured (wd_disk (log_run t steps0))) r steps.

Lemma life_reaches t steps0 state configured r steps :
  life_ok t steps0 state configured r steps ->
  exists sv, server_run (server_start t state configured (wd_disk (log_run t steps0))) steps = Some sv /\
    srv_inv t sv r (room_history t steps0 state configured r steps).
Proof.
  intros [H1 H2 H3 H4 H5 H6 H7 H8 H9].
  pose proof (start_srv t steps0 state configured r H1 H3 H4 H5 H6 H7) as I.
  apply run_srv; [done|done|done|]. destruct (run_inv t steps0 H3 H4 r) as (Hsub & _).
  pose proof (si_ascending _ _ _ _ I) as A. unfold ascending in *. rewrite fmap_app in *.
  apply StronglySorted_app in H9 as (Hlt & _ & S2). apply StronglySorted_app. split; [|done].
  intros x y Hx Hy. apply Hlt; [|done]. apply list_elem_of_fmap in Hx as (m & -> & Hm). apply list_elem_of_fmap_2.
  rewrite Forall_forall in Hsub. by apply Hsub.
Qed.

(** C6: a client that pages back through a durable room gets the room's whole
    history, every message once and in order, and learns where it starts; for
    every page size, in whatever way appends, turns of the log worker, rotations
    of the log and trims of memory were interleaved before, and whatever crashes
    and failed writes the log had survived.  Its requests end.  (No system call of
    the current life fails, no request meets a limit, and no trim falls between
    the chunks of one page.) *)
Theorem history_paging_complete (t : StoreTuning) (steps0 : list LogStep) (state : LoadedState)
    (configured : list (Z * RoomPersistenceConfig * nat)) (r : Z) (steps : list ServerStep) (limit : nat) :
  life_ok t steps0 state configured r steps -> (1 <= limit)%nat ->
  let whole := room_history t steps0 state configured r steps in
  exists sv, server_run (server_start t state configured (wd_disk (log_run t steps0))) steps = Some sv /\
    page_back (S (length whole)) sv r limit None = Some whole.
Proof.
  intros L Hl whole. destruct (life_reaches _ _ _ _ _ _ L) as (sv & E & I). exists sv. split; [done|].
  assert (owed None whole = whole) as Ho by (apply filter_all; by apply Forall_true).
  rewrite (page_back_ok t sv r whole limit I (life_room _ _ _ _ _ _ L) Hl); [by rewrite Ho|done|]. rewrite Ho. lia.
Qed.

(** One chunk that holds nothing, ends the answer and does not claim the start. *)
Definition nothing_served (r : Z) (before : option Z) (payloads : list bytes) : Prop :=
  exists p, payloads = [p] /\
    decode_chunk p = Ok (Some {| chunk_room_id := r; chunk_before := before; chunk_messages := [];
                                 chunk_at_start := false; chunk_complete := true |}).

(** The newest part, at most the limit and not nothing, of what is owed. *)
Definition page_served (r : Z) (before : option Z) (limit : nat) (whole : list ChatMessage) (payloads : list bytes) : Prop :=
  exists k page, (k <= limit)%nat /\ page = newest k (owed before whole) /\ (owed before whole <> [] -> page <> []) /\
    page_delivered r before (bool_decide (page = owed before whole)) HISTORY_CHUNK_TARGET_BYTES payloads page.

Lemma empty_chunk_served r before :
  is_u32 r -> match before with Some b => is_u64 b | None => True end ->
  exists p, empty_chunk r before = Some p /\ nothing_served r before [p].
Proof.
  intros Hr Hb. unfold empty_chunk. destruct (write_chunk_header r before false true 0 []) as [p|e] eqn:E.
  - exists p. split; [done|]. exists p. split; [done|]. pose proof (decode_chunk_written r before false true [] p Hr Hb ltac:(constructor) E) as Hd.
    by rewrite app_nil_r in Hd.
  - by rewrite write_chunk_header_ok in E.
Qed.

(** Without a second handle of the active log, a page is the same or empty. *)
Lemma fetch_without_handle sv r before limit :
  fetch_history false sv r before limit = fetch_history true sv r before limit \/
  exists p, empty_chunk r before = Some p /\ fetch_history false sv r before limit = Some [p].
Proof.
  unfold fetch_history. case_decide; [|by left]. unfold RoomStore.disk_fetch_request.
  destruct (rooms (sv_store sv) !! r) as [retention|]; cbn [mbind option_bind]; [|by left].
  destruct (Retention.oldest_durable_id retention) as [oldest|]; cbn [mbind option_bind]; [|by left].
  destruct retention as [| |room]; [by left|by left|]. case_decide; [by left|].
  assert (RoomStore.disk_sources false room (before_bound before) = RoomStore.disk_sources true room (before_bound before) \/
    RoomStore.disk_sources false room (before_bound before) = []) as [->| ->].
  { unfold RoomStore.disk_sources. destruct (dr_active_first_id room); [|by left]. case_decide; [|by left]. destruct (dr_file room); auto. }
  { by left. }
  right. unfold execute, select_records. cbn [rq_sources rq_room_id rq_before rq_limit rq_target_bytes select_loop reverse rev_append foldl].
  exists (default [] (empty_chunk r before)). unfold empty_chunk. rewrite write_chunk_header_ok by done. split; [done|].
  assert (ResidentHistory.trim_to_limit ResidentHistory.default limit = ResidentHistory.default) as -> by (by destruct limit).
  rewrite bool_decide_false by done. unfold ResidentHistory.chunk_payloads, ResidentHistory.chunk_specs.
  rewrite decide_True by done. cbn [ResidentHistory.encode_specs]. unfold ResidentHistory.encode_chunk. cbn [spec_first_id].
  unfold ResidentHistory.encode_entries. cbn [spec_count spec_at_start spec_complete]. rewrite write_chunk_header_ok by done. reflexivity.
Qed.


(** ** A concrete life *)

Module Life.

Definition message := LogLife.message.
Definition ok_io := LogLife.ok_io.
Definition tuned := LogLife.tuned.
Definition steps0 := LogLife.steps.
Definition config : list (Z * RoomPersistenceConfig * nat) := [(7, PersistDurable, 0%nat); (8, PersistNone, 0%nat)].
Definition steps : list ServerStep :=
  [SvAppend ok_io 7 (message 1025); SvAppend ok_io 7 (message 1026); SvWork ok_io; SvDrain; SvAppend ok_io 7 (message 1027);
   SvWork ok_io; SvWork ok_io; SvDrain; SvAppend ok_io 7 (message 1028)].

Lemma storable_message id : is_u64 id -> is_u64 (id * 1000) -> storable 7 (message id).
Proof. intros. split; [|done]. split; [by apply LogLife.message_ok|vm_compute; discriminate]. Qed.

Lemma ok : life_ok tuned steps0 default_state config 7 steps.
Proof.
  constructor.
  - cbn. lia.
  - done.
  - exact LogLife.steps_wf.
  - exact LogLife.steps_ascending.
  - vm_compute. repeat constructor.
  - cbn. apply (bool_decide_unpack _). vm_compute. exact I.
  - left.
  - repeat constructor; try done; intros; by apply storable_message.
  - unfold ascending. vm_compute. repeat constructor.
Qed.

End Life.

(** C6 at a log that lost its last message to a torn write, a restart, and a
    second life in which the log rotates and memory is trimmed: the client, one
    message at a time, gets the three messages that survived and the four accepted. *)
Lemma history_paging_complete_witness :
  message_id <$> room_history Life.tuned Life.steps0 default_state Life.config 7 Life.steps = [1; 2; 3; 1025; 1026; 1027; 1028] /\
  exists sv, server_run (server_start Life.tuned default_state Life.config (wd_disk (log_run Life.tuned Life.steps0))) Life.steps = Some sv /\
    page_back (S (length (room_history Life.tuned Life.steps0 default_state Life.config 7 Life.steps))) sv 7 1 None =
    Some (room_history Life.tuned Life.steps0 default_state Life.config 7 Life.steps).
Proof.
  split; [vm_compute; reflexivity|].
  exact (history_paging_complete Life.tuned Life.steps0 default_state Life.config 7 Life.steps 1 Life.ok (le_n 1)).
Defined.

