(* ===== verification/ServerState.v ===== *)
(** * The control server's state

    The data of [Server] of src/crates/server/src/lib.rs that its sessions, rooms,
    calls, shares, uploads and outgoing queues live in, with the control messages
    of src/crates/rpc/src/control.rs that the modelled operations receive and send.

    Identifiers and poll tokens are integers.  A hash map is a [gmap]; the order in
    which the code iterates over one is unspecified, so it is the class
    [HashOrder], of which nothing is assumed but that every entry comes once.  The
    voice relay is the sequence of commands submitted to it, [voice_commands].  The
    MLS service, the bug reports' writer thread and the loop's statistics are not
    part of this state; of the MLS service it holds the rooms that have a group. *)

From stdpp Require Import sorting.
From S2P Require Import Prelude Primitives Transport Handshake Auth Media Frame Evented Video Net Clock History Resident.
From S2P Require Import ControlLane VoiceRelay Usernames Identity.

(** ** Iteration over hash maps *)

Class HashOrder := {
  hash_iter : forall {K A} `{Countable K}, gmap K A -> list (K * A);
  hash_iter_perm : forall {K A} `{Countable K} (m : gmap K A), hash_iter m ≡ₚ map_to_list m;
}.

Definition hash_keys `{HashOrder} {K A} `{Countable K} (m : gmap K A) : list K := (hash_iter m).*1.
Definition hash_values `{HashOrder} {K A} `{Countable K} (m : gmap K A) : list A := (hash_iter m).*2.
(** The order of a [HashSet], that of the map it is. *)
Definition hash_elems `{HashOrder} {K} `{Countable K} (s : gset K) : list K := hash_keys (gset_to_gmap tt s).

Definition key_order : HashOrder := {| hash_iter K A _ _ m := map_to_list m; hash_iter_perm K A _ _ m := reflexivity _ |}.

(** ** Limits *)

Definition FIRST_CLIENT : Z := Z.of_nat MAX_BIND_ADDRS + 1.
Definition MAX_CLIENTS : nat := 1024.
Definition MAX_HANDSHAKING : nat := Nat.div MAX_CLIENTS 4.
Definition MAX_HANDSHAKING_PER_IP : nat := 8.
Definition PRE_AUTH_REFUSAL_LOG_INTERVAL : Z := from_secs 1.
Definition TCP_WRITE_ATTEMPTS : nat := 32.
Definition HANDSHAKE_TIMEOUT : Z := from_secs 10.
Definition IDLE_TIMEOUT : Z := from_secs 300.
Definition CLOSE_FLUSH_GRACE : Z := from_secs 5.
Definition IDLE_SWEEP_INTERVAL : Z := from_secs 1.
Definition MEDIA_SWEEP_INTERVAL : Z := from_secs 30.
Definition SHARE_SWEEP_INTERVAL : Z := from_secs 1.
Definition RTT_SNAPSHOT_INTERVAL : Z := from_secs 5.
Definition RTT_STALE_AFTER : Z := from_secs 15.
Definition MAX_ACTIVE_UPLOADS_PER_SESSION : nat := 8.
Definition MAX_ACTIVE_BUG_REPORTS : nat := 32.
Definition MAX_ACTIVE_BUG_REPORTS_PER_SESSION : nat := 1.
Definition MAX_BUG_REPORT_BYTES : Z := 8 * 1024 * 1024.
Definition VIDEO_RING_MAX_BYTES : Z := MAX_VIDEO_RECORD_LEN.
Definition VIDEO_RING_MAX_FRAMES : nat := 300.
Definition PUBLISHER_ATTACH_GRACE : Z := from_secs 15.
Definition VIDEO_SUBSCRIBER_HIGH_WATER : Z := 2 * (MAX_VIDEO_RECORD_LEN + Z.of_nat VIDEO_LENGTH_PREFIX_LEN).
Definition VIDEO_FANOUT_BUDGET_BYTES : Z := 8 * 1024 * 1024.
Definition VIDEO_FANOUT_BUDGET_RECIPIENTS : nat := 8.
Definition VIDEO_FANOUT_QUEUE_MAX_BYTES : Z := 32 * 1024 * 1024.
Definition CONTROL_WRITE_HIGH_WATER : Z := 8 * 1024 * 1024.
Definition OUTBOUND_GLOBAL_HIGH_WATER : Z := 64 * 1024 * 1024.
Definition CONTROL_SEAL_BUDGET_BYTES : Z := 512 * 1024.
Definition CONTROL_SEAL_BUDGET_RECORDS : nat := 32.
Definition FILE_RELAY_WRITE_SOFT_CAP : Z := 1024 * 1024.
Definition MAX_CONTROL_PAYLOAD_BYTES : Z := 224 * 1024.
Definition MAX_FILE_CHUNK_BYTES : Z := 192 * 1024.

Definition ERROR_ROOM_NOT_FOUND : Z := 404.
Definition ERROR_REQUEST_REJECTED : Z := 412.
Definition ERROR_BUG_REPORT_REJECTED : Z := 400.

(** ** Control messages *)

Inductive VoiceState := Live | Muted | Deafened.
#[export] Instance VoiceState_eq_dec : EqDecision VoiceState.
Proof. solve_decision. Defined.

Inductive FileContentEncoding := IdentityEncoding | Zstd | Sealed.
#[export] Instance FileContentEncoding_eq_dec : EqDecision FileContentEncoding.
Proof. solve_decision. Defined.

Inductive RoomKind :=
| KindPublic
| KindPrivate (members : list Z)
| KindDm (user_a user_b : Z).

Record RoomInfo := mkRoomInfo {
  ri_room_id : Z;
  ri_name : bytes;
  ri_kind : RoomKind;
  ri_head : option Z;
  ri_voice_users : list Z;
}.

Record UserSummary := mkSummary {
  us_user_id : Z;
  us_username : bytes;
  us_online : bool;
  us_connected_at_ms : Z;
  us_voice_state : VoiceState;
}.

Record ParticipantServerRtt := mkRtt { pr_user_id : Z; pr_server_rtt_ms : option Z }.

Record FileMetadata := mkFile {
  fm_transfer_id : Z;
  fm_room_id : Z;
  fm_sender : Z;
  fm_sender_name : bytes;
  fm_file_name : bytes;
  fm_original_name : bytes;
  fm_size : Z;
  fm_encoding : FileContentEncoding;
  fm_timestamp_ms : Z;
  fm_mls_event_id : option bytes;
}.

Inductive P2pRole := Controlling | Controlled.

Record P2pCandidate := mkP2pCandidate {
  pc_id : Z;
  pc_socket_id : Z;
  pc_generation : Z;
  pc_kind : CandidateKind;
  pc_addr : bytes;
  pc_priority : Z;
  pc_foundation : bytes;
  pc_verified : bool;
}.

Record P2pPeerInfo := mkPeerInfo {
  pi_room_id : Z;
  pi_session_id : Z;
  pi_user_id : Z;
  pi_generation : Z;
  pi_role : P2pRole;
  pi_nat : NatKind;
  pi_tie_breaker : Z;
  pi_candidates : list P2pCandidate;
  pi_send_key : KeyMaterial;
  pi_recv_key : KeyMaterial;
  pi_stun_key : KeyMaterial;
  pi_connection_id : Z;
}.

Inductive ChatMutationKind := MutationEdit | MutationDelete.
#[export] Instance ChatMutationKind_eq_dec : EqDecision ChatMutationKind.
Proof. solve_decision. Defined.

(** The messages the modelled operations send; those of the MLS delivery service,
    of device links and of bug reports are left out. *)
Inductive ServerControl :=
| Authenticated (session_id user_id : Z) (rooms : list RoomInfo) (users : list UserSummary) (default_room : Z)
    (dms_enabled : bool)
| OpenPaired (token : bytes) (session_id user_id : Z) (rooms : list RoomInfo) (users : list UserSummary) (default_room : Z)
| DeviceLinked (token username : bytes) (session_id user_id : Z) (rooms : list RoomInfo) (users : list UserSummary)
    (default_room : Z)
| Chat (message : ChatMessage)
| ChatMutationRejected (room_id target : Z) (kind : ChatMutationKind) (message : bytes)
| VoiceStarted (room_id session_id user_id stream_id : Z) (user_joined : bool)
| VoiceStopped (room_id session_id user_id stream_id : Z) (user_left : bool)
| VoiceStateChanged (room_id user_id : Z) (state : VoiceState)
| VoiceJoinFailed (room_id : Z) (message : bytes)
| RoomRttSnapshot (room_id : Z) (members : list ParticipantServerRtt)
| UdpBound
| UdpReflexive (addr : bytes)
| P2pNatProbe (probe_id : Z) (addr : bytes)
| P2pPeer (peer : P2pPeerInfo)
| P2pPeerGone (session_id user_id : Z)
| FileOffered (file : FileMetadata) (contents : bool)
| UploadFileAccepted (client_transfer_id : Z) (file : FileMetadata)
| FileChunk (transfer_id offset : Z) (data : bytes)
| FileComplete (transfer_id : Z)
| FileCanceled (transfer_id : Z) (reason : bytes)
| ShareStarted (attempt_id room_id stream_id : Z) (publish_secret codec : bytes) (coded_width coded_height : Z)
    (extradata : bytes)
| ShareAvailable (room_id stream_id user_id : Z) (sender_name codec : bytes) (coded_width coded_height : Z)
    (extradata view_secret : bytes)
| ShareEnded (room_id stream_id : Z)
| ShareStartFailed (attempt_id : Z) (message : bytes)
| Pong (nonce : Z)
| Error (code : Z) (message : bytes)
| RoomUpserted (room : RoomInfo)
| DmOpened (room_id peer : Z)
| Presence (user : UserSummary) (online : bool)
| UploadDeclined (client_transfer_id : Z) (reason : bytes)
| BugReportSaved (report_id : Z).

Inductive ClientControl :=
| Authenticate (username token : bytes) (receive_files : bool) (file_receive_limit_bytes : Z)
| Pair (username pairing_code token : bytes) (receive_files : bool) (file_receive_limit_bytes : Z)
| OpenPair (username password existing_token : bytes) (receive_files : bool) (file_receive_limit_bytes : Z)
| SendChat (room_id : Z) (body : bytes)
| SetVoiceState (state : VoiceState)
| PublishP2p (room_id generation : Z) (nat_kind : NatKind) (tie_breaker : Z) (candidates : list P2pCandidate)
| UploadFileStart (room_id transfer_id : Z) (name : bytes) (size : Z) (encoding : FileContentEncoding)
    (mls_event_id : option bytes)
| UploadFileChunk (transfer_id offset : Z) (data : bytes)
| UploadFileComplete (transfer_id : Z)
| UploadFileCancel (transfer_id : Z) (reason : bytes)
| StartShare (attempt_id room_id : Z) (codec : bytes) (coded_width coded_height : Z) (extradata : bytes)
| StopShare (stream_id : Z)
| Ping (nonce : Z)
| BugReportStart (report_id : Z) (description metadata : bytes) (logs_size : Z)
| BugReportChunk (report_id offset : Z) (data : bytes)
| BugReportComplete (report_id : Z)
| JoinVoice (room_id : Z)
| LeaveVoice
| SkipFile (transfer_id : Z)
| EditChat (room_id target : Z) (body : bytes)
| DeleteChat (room_id target : Z).

(** ** Rooms *)

Inductive RoomAccess :=
| Public
| Private (members : gset Z)
| Dm (a b : Z).

Module RoomAccess.

Definition allows (r : RoomAccess) (user_id : Z) : bool :=
  match r with
  | Public => true
  | Private members => bool_decide (user_id ∈ members)
  | Dm a b => bool_decide (a = user_id) || bool_decide (b = user_id)
  end.

(** [sort_unstable] of the members, which are distinct, is the sorted list. *)
Definition kind (r : RoomAccess) : RoomKind :=
  match r with
  | Public => KindPublic
  | Private members => KindPrivate (merge_sort Z.le (elements members))
  | Dm a b => KindDm a b
  end.

End RoomAccess.

Record RoomState := mkRoom {
  rm_id : Z;
  rm_name : bytes;
  rm_access : RoomAccess;
  rm_active_streams : gmap Z Z;
}.

Definition set_active_streams (v : gmap Z Z) (x : RoomState) : RoomState :=
  {| rm_id := rm_id x; rm_name := rm_name x; rm_access := rm_access x; rm_active_streams := v |}.

(** ** Sessions *)

Record P2pSessionState := mkP2p {
  p2p_generation : Z;
  p2p_nat : NatKind;
  p2p_tie_breaker : Z;
  p2p_candidates : list P2pCandidate;
}.

(** [Session]; its MLS device and history counters are not modelled. *)
Record Session := mkSess {
  ss_user_id : Z;
  ss_tcp_token : Z;
  ss_voice_room : option Z;
  ss_transport : SessionTransport;
  ss_active_stream : option Z;
  ss_voice_state : VoiceState;
  ss_reported_server_rtt_ms : option Z;
  ss_server_rtt_reported_at : option Z;
  ss_p2p : option P2pSessionState;
  ss_receive_files : bool;
  ss_file_receive_limit_bytes : Z;
  ss_announced : bool;
  ss_connected_at_ms : Z;
}.

Definition set_voice_room (v : option Z) (x : Session) : Session :=
  {| ss_user_id := ss_user_id x; ss_tcp_token := ss_tcp_token x; ss_voice_room := v;
     ss_transport := ss_transport x; ss_active_stream := ss_active_stream x; ss_voice_state := ss_voice_state x;
     ss_reported_server_rtt_ms := ss_reported_server_rtt_ms x;
     ss_server_rtt_reported_at := ss_server_rtt_reported_at x; ss_p2p := ss_p2p x;
     ss_receive_files := ss_receive_files x; ss_file_receive_limit_bytes := ss_file_receive_limit_bytes x;
     ss_announced := ss_announced x; ss_connected_at_ms := ss_connected_at_ms x |}.

Definition set_active_stream (v : option Z) (x : Session) : Session :=
  {| ss_user_id := ss_user_id x; ss_tcp_token := ss_tcp_token x; ss_voice_room := ss_voice_room x;
     ss_transport := ss_transport x; ss_active_stream := v; ss_voice_state := ss_voice_state x;
     ss_reported_server_rtt_ms := ss_reported_server_rtt_ms x;
     ss_server_rtt_reported_at := ss_server_rtt_reported_at x; ss_p2p := ss_p2p x;
     ss_receive_files := ss_receive_files x; ss_file_receive_limit_bytes := ss_file_receive_limit_bytes x;
     ss_announced := ss_announced x; ss_connected_at_ms := ss_connected_at_ms x |}.

Definition set_voice_state (v : VoiceState) (x : Session) : Session :=
  {| ss_user_id := ss_user_id x; ss_tcp_token := ss_tcp_token x; ss_voice_room := ss_voice_room x;
     ss_transport := ss_transport x; ss_active_stream := ss_active_stream x; ss_voice_state := v;
     ss_reported_server_rtt_ms := ss_reported_server_rtt_ms x;
     ss_server_rtt_reported_at := ss_server_rtt_reported_at x; ss_p2p := ss_p2p x;
     ss_receive_files := ss_receive_files x; ss_file_receive_limit_bytes := ss_file_receive_limit_bytes x;
     ss_announced := ss_announced x; ss_connected_at_ms := ss_connected_at_ms x |}.

Definition set_reported_server_rtt_ms (v : option Z) (x : Session) : Session :=
  {| ss_user_id := ss_user_id x; ss_tcp_token := ss_tcp_token x; ss_voice_room := ss_voice_room x;
     ss_transport := ss_transport x; ss_active_stream := ss_active_stream x; ss_voice_state := ss_voice_state x;
     ss_reported_server_rtt_ms := v; ss_server_rtt_reported_at := ss_server_rtt_reported_at x; ss_p2p := ss_p2p x;
     ss_receive_files := ss_receive_files x; ss_file_receive_limit_bytes := ss_file_receive_limit_bytes x;
     ss_announced := ss_announced x; ss_connected_at_ms := ss_connected_at_ms x |}.

Definition set_server_rtt_reported_at (v : option Z) (x : Session) : Session :=
  {| ss_user_id := ss_user_id x; ss_tcp_token := ss_tcp_token x; ss_voice_room := ss_voice_room x;
     ss_transport := ss_transport x; ss_active_stream := ss_active_stream x; ss_voice_state := ss_voice_state x;
     ss_reported_server_rtt_ms := ss_reported_server_rtt_ms x; ss_server_rtt_reported_at := v; ss_p2p := ss_p2p x;
     ss_receive_files := ss_receive_files x; ss_file_receive_limit_bytes := ss_file_receive_limit_bytes x;
     ss_announced := ss_announced x; ss_connected_at_ms := ss_connected_at_ms x |}.

Definition set_p2p (v : option P2pSessionState) (x : Session) : Session :=
  {| ss_user_id := ss_user_id x; ss_tcp_token := ss_tcp_token x; ss_voice_room := ss_voice_room x;
     ss_transport := ss_transport x; ss_active_stream := ss_active_stream x; ss_voice_state := ss_voice_state x;
     ss_reported_server_rtt_ms := ss_reported_server_rtt_ms x;
     ss_server_rtt_reported_at := ss_server_rtt_reported_at x; ss_p2p := v; ss_receive_files := ss_receive_files x;
     ss_file_receive_limit_bytes := ss_file_receive_limit_bytes x; ss_announced := ss_announced x;
     ss_connected_at_ms := ss_connected_at_ms x |}.

Record PeerLink := mkLink {
  pl_connection_id : Z;
  pl_low_to_high : KeyMaterial;
  pl_high_to_low : KeyMaterial;
  pl_stun_key : KeyMaterial;
}.

(** ** Screen shares *)

Inductive VideoPublisherState :=
| AwaitingConnection (deadline : Z)
| AwaitingKeyframe (token deadline : Z)
| PublisherLive (token : Z)
| Detached (deadline : Z).

Module VideoPublisherState.

Definition token (p : VideoPublisherState) : option Z :=
  match p with AwaitingKeyframe t _ | PublisherLive t => Some t | _ => None end.

Definition deadline (p : VideoPublisherState) : option Z :=
  match p with AwaitingConnection d | AwaitingKeyframe _ d | Detached d => Some d | PublisherLive _ => None end.

Definition is_live (p : VideoPublisherState) : bool := match p with PublisherLive _ => true | _ => false end.

End VideoPublisherState.

Record VideoStream := mkStream {
  st_room_id : Z;
  st_owner_session : Z;
  st_user_id : Z;
  st_sender_name : bytes;
  st_publish_secret : bytes;
  st_view_secrets : gmap Z bytes;
  st_codec : bytes;
  st_coded_width : Z;
  st_coded_height : Z;
  st_extradata : bytes;
  st_publisher : VideoPublisherState;
  st_announced : bool;
  st_subscribers : list Z;
  st_ring : list SharedVideoFrame;
  st_ring_bytes : Z;
  st_ring_visible_bytes : Z;
}.

Definition set_view_secrets (v : gmap Z bytes) (x : VideoStream) : VideoStream :=
  {| st_room_id := st_room_id x; st_owner_session := st_owner_session x; st_user_id := st_user_id x;
     st_sender_name := st_sender_name x; st_publish_secret := st_publish_secret x; st_view_secrets := v;
     st_codec := st_codec x; st_coded_width := st_coded_width x; st_coded_height := st_coded_height x;
     st_extradata := st_extradata x; st_publisher := st_publisher x; st_announced := st_announced x;
     st_subscribers := st_subscribers x; st_ring := st_ring x; st_ring_bytes := st_ring_bytes x;
     st_ring_visible_bytes := st_ring_visible_bytes x |}.

Definition set_publisher (v : VideoPublisherState) (x : VideoStream) : VideoStream :=
  {| st_room_id := st_room_id x; st_owner_session := st_owner_session x; st_user_id := st_user_id x;
     st_sender_name := st_sender_name x; st_publish_secret := st_publish_secret x;
     st_view_secrets := st_view_secrets x; st_codec := st_codec x; st_coded_width := st_coded_width x;
     st_coded_height := st_coded_height x; st_extradata := st_extradata x; st_publisher := v;
     st_announced := st_announced x; st_subscribers := st_subscribers x; st_ring := st_ring x;
     st_ring_bytes := st_ring_bytes x; st_ring_visible_bytes := st_ring_visible_bytes x |}.

Definition set_stream_announced (v : bool) (x : VideoStream) : VideoStream :=
  {| st_room_id := st_room_id x; st_owner_session := st_owner_session x; st_user_id := st_user_id x;
     st_sender_name := st_sender_name x; st_publish_secret := st_publish_secret x;
     st_view_secrets := st_view_secrets x; st_codec := st_codec x; st_coded_width := st_coded_width x;
     st_coded_height := st_coded_height x; st_extradata := st_extradata x; st_publisher := st_publisher x;
     st_announced := v; st_subscribers := st_subscribers x; st_ring := st_ring x; st_ring_bytes := st_ring_bytes x;
     st_ring_visible_bytes := st_ring_visible_bytes x |}.

Definition set_subscribers (v : list Z) (x : VideoStream) : VideoStream :=
  {| st_room_id := st_room_id x; st_owner_session := st_owner_session x; st_user_id := st_user_id x;
     st_sender_name := st_sender_name x; st_publish_secret := st_publish_secret x;
     st_view_secrets := st_view_secrets x; st_codec := st_codec x; st_coded_width := st_coded_width x;
     st_coded_height := st_coded_height x; st_extradata := st_extradata x; st_publisher := st_publisher x;
     st_announced := st_announced x; st_subscribers := v; st_ring := st_ring x; st_ring_bytes := st_ring_bytes x;
     st_ring_visible_bytes := st_ring_visible_bytes x |}.

Record VideoFanout := mkFanout {
  fo_stream_id : Z;
  fo_data : SharedVideoFrame;
  fo_subscribers : list Z;
  fo_next_subscriber : nat;
  fo_charged_bytes : Z;
}.

(** ** Transfers and bug reports *)

Record ServerUpload := mkUpload {
  up_server_transfer_id : Z;
  up_room_id : Z;
  up_encoding : FileContentEncoding;
  up_original_size : Z;
  up_wire_received : Z;
  up_file_name : bytes;
  up_recipients : gset Z;
  up_declined_notified : bool;
}.

Definition set_wire_received (v : Z) (x : ServerUpload) : ServerUpload :=
  {| up_server_transfer_id := up_server_transfer_id x; up_room_id := up_room_id x; up_encoding := up_encoding x;
     up_original_size := up_original_size x; up_wire_received := v; up_file_name := up_file_name x;
     up_recipients := up_recipients x; up_declined_notified := up_declined_notified x |}.

Definition set_recipients (v : gset Z) (x : ServerUpload) : ServerUpload :=
  {| up_server_transfer_id := up_server_transfer_id x; up_room_id := up_room_id x; up_encoding := up_encoding x;
     up_original_size := up_original_size x; up_wire_received := up_wire_received x; up_file_name := up_file_name x;
     up_recipients := v; up_declined_notified := up_declined_notified x |}.

Definition set_declined_notified (v : bool) (x : ServerUpload) : ServerUpload :=
  {| up_server_transfer_id := up_server_transfer_id x; up_room_id := up_room_id x; up_encoding := up_encoding x;
     up_original_size := up_original_size x; up_wire_received := up_wire_received x; up_file_name := up_file_name x;
     up_recipients := up_recipients x; up_declined_notified := v |}.

Record ServerBugReport := mkReport {
  br_description : bytes;
  br_metadata : bytes;
  br_logs : bytes;
  br_expected : Z;
}.

(** ** Connections *)

Inductive VideoPhase := VideoAwaitHello | VideoAwaitAuth | VideoStreaming.

Record VideoConn := mkVideoConn {
  vc_phase : VideoPhase;
  vc_session_id : option Z;
  vc_stream_id : option Z;
  vc_role : option VideoRole;
  vc_record : option RecordProtection;
  vc_reader : option VideoRecordReader;
}.

Definition set_video_phase (v : VideoPhase) (x : VideoConn) : VideoConn :=
  {| vc_phase := v; vc_session_id := vc_session_id x; vc_stream_id := vc_stream_id x; vc_role := vc_role x;
     vc_record := vc_record x; vc_reader := vc_reader x |}.

Definition set_video_record (v : option RecordProtection) (x : VideoConn) : VideoConn :=
  {| vc_phase := vc_phase x; vc_session_id := vc_session_id x; vc_stream_id := vc_stream_id x;
     vc_role := vc_role x; vc_record := v; vc_reader := vc_reader x |}.

Definition set_video_reader (v : option VideoRecordReader) (x : VideoConn) : VideoConn :=
  {| vc_phase := vc_phase x; vc_session_id := vc_session_id x; vc_stream_id := vc_stream_id x;
     vc_role := vc_role x; vc_record := vc_record x; vc_reader := v |}.

Inductive ConnKind := Unidentified | ControlConn | VideoKind (video : VideoConn).

Inductive Close := CloseOpen | Draining (deadline : Z).

(** [IpAddr]. *)
Inductive IpAddr := IpV4 (ip : Z) | IpV6 (octets : bytes).
#[export] Instance IpAddr_eq_dec : EqDecision IpAddr.
Proof. solve_decision. Defined.
#[export] Instance IpAddr_countable : Countable IpAddr.
Proof.
  refine (inj_countable' (fun i => match i with IpV4 a => inl a | IpV6 o => inr o end)
            (fun s => match s with inl a => IpV4 a | inr o => IpV6 o end) _).
  by intros [].
Defined.

Definition ip (a : SocketAddr) : IpAddr := match a with SockV4 i _ => IpV4 i | SockV6 o _ _ _ => IpV6 o end.

(** ** Admission before authentication *)

Record PreAuthLimiter := mkLimiter {
  held_slots : nat;
  per_ip : gmap IpAddr nat;
  refused : Z;
  report_refusals_at : option Z;
}.

Inductive PreAuthRefusal := RefusedGlobal | RefusedPerIp.

Module PreAuthLimiter.

Definition new : PreAuthLimiter := {| held_slots := 0; per_ip := ∅; refused := 0; report_refusals_at := None |}.

(** A refused address leaves the entry [or_default] made for it, at zero, only
    when it had none, which the cap excludes. *)
Definition admits (p : PreAuthLimiter) (addr : IpAddr) : PreAuthLimiter * result PreAuthRefusal () :=
  if decide (MAX_HANDSHAKING <= held_slots p)%nat then (p, Err RefusedGlobal)
  else
    let n := default O (per_ip p !! addr) in
    if decide (MAX_HANDSHAKING_PER_IP <= n)%nat then
      ({| held_slots := held_slots p; per_ip := <[addr := n]> (per_ip p); refused := refused p;
          report_refusals_at := report_refusals_at p |}, Err RefusedPerIp)
    else
      ({| held_slots := S (held_slots p); per_ip := <[addr := S n]> (per_ip p); refused := refused p;
          report_refusals_at := report_refusals_at p |}, Ok ()).

Definition refusals_to_report (p : PreAuthLimiter) (now : Z) : PreAuthLimiter * option Z :=
  let refused := refused p + 1 in
  if match report_refusals_at p with Some at_ => bool_decide (now < at_) | None => false end
  then ({| held_slots := held_slots p; per_ip := per_ip p; refused := refused;
           report_refusals_at := report_refusals_at p |}, None)
  else ({| held_slots := held_slots p; per_ip := per_ip p; refused := 0;
           report_refusals_at := Some (now + PRE_AUTH_REFUSAL_LOG_INTERVAL) |}, Some refused).

Definition release (p : PreAuthLimiter) (addr : IpAddr) : PreAuthLimiter :=
  {| held_slots := held_slots p - 1;
     per_ip := match per_ip p !! addr with
               | Some n => if decide (n - 1 = 0)%nat then delete addr (per_ip p) else <[addr := (n - 1)%nat]> (per_ip p)
               | None => per_ip p
               end;
     refused := refused p; report_refusals_at := report_refusals_at p |}.

End PreAuthLimiter.

(** What the modelled operations read of [ServerConfig], with [file_size_limit_bytes]
    and [default_room] of [Server], which do not change. *)
Record ServerConfig := mkConfig {
  cfg_p2p : bool;
  cfg_dms_enabled : bool;
  cfg_bug_reports : bool;
  cfg_file_size_limit_bytes : Z;
  cfg_default_room : Z;
  cfg_transport_mode : TransportMode;
  cfg_require_hello_mac : bool;
  (** [server_key_pair] *)
  cfg_server_key : bytes;
  cfg_server_identity_seed : bytes;
  cfg_public : bool;
  cfg_password_hash : option bytes;
  cfg_password_epoch : Z;
  (** whether [users] has a file *)
  cfg_users_persisted : bool;
}.

(** ** Authentication that waits for the identity writer *)

Inductive IssuedSessionToken := IssuedOpenPair (token : bytes) | IssuedDeviceLink (token : bytes).

Record PendingEstablish := mkEstablish {
  pe_user : UserConfig;
  pe_receive_files : bool;
  pe_file_receive_limit_bytes : Z;
  pe_announce : bool;
  pe_issued_token : option IssuedSessionToken;
}.

Inductive PendingIdentity :=
| DynamicAuthentication (username : list Z) (establish : PendingEstablish)
| ExplicitRename (users : list UserConfig) (updated fallback : PendingEstablish)
| InvitePairing (invite_name : list Z) (users : list UserConfig) (establish : PendingEstablish)
| OpenPairing (username : list Z) (establish : PendingEstablish).

Inductive IdentityWrite :=
| WriteDynamicUsername (user_id : Z) (username : list Z)
| WriteUsersToml (snapshot : list UserConfig).

Record InviteState := mkInvite { pairing_code_hash : bytes; expires_at : Z }.

Section server.
Context {Rx Tx St : Type}.

(** The two halves of [socket] are [cc_rx] and [cc_tx]. *)
Record ClientConn := mkClient {
  cc_rx : Rx;
  cc_tx : Tx;
  cc_addr : SocketAddr;
  cc_read_buf : RecvBuffer;
  cc_readiness : bool;
  cc_write_buf : WriteQueue;
  cc_kind : ConnKind;
  cc_state : ConnState;
  cc_control : option RecordProtection;
  cc_transport : option SessionTransport;
  cc_session_id : option Z;
  cc_user_id : option Z;
  cc_close : Close;
  cc_pre_auth : bool;
  cc_created_at : Z;
  cc_last_activity : Z;
}.

Definition set_rx (v : Rx) (x : ClientConn) : ClientConn :=
  {| cc_rx := v; cc_tx := cc_tx x; cc_addr := cc_addr x; cc_read_buf := cc_read_buf x;
     cc_readiness := cc_readiness x; cc_write_buf := cc_write_buf x; cc_kind := cc_kind x; cc_state := cc_state x;
     cc_control := cc_control x; cc_transport := cc_transport x; cc_session_id := cc_session_id x;
     cc_user_id := cc_user_id x; cc_close := cc_close x; cc_pre_auth := cc_pre_auth x;
     cc_created_at := cc_created_at x; cc_last_activity := cc_last_activity x |}.

Definition set_tx (v : Tx) (x : ClientConn) : ClientConn :=
  {| cc_rx := cc_rx x; cc_tx := v; cc_addr := cc_addr x; cc_read_buf := cc_read_buf x;
     cc_readiness := cc_readiness x; cc_write_buf := cc_write_buf x; cc_kind := cc_kind x; cc_state := cc_state x;
     cc_control := cc_control x; cc_transport := cc_transport x; cc_session_id := cc_session_id x;
     cc_user_id := cc_user_id x; cc_close := cc_close x; cc_pre_auth := cc_pre_auth x;
     cc_created_at := cc_created_at x; cc_last_activity := cc_last_activity x |}.

Definition set_read_buf (v : RecvBuffer) (x : ClientConn) : ClientConn :=
  {| cc_rx := cc_rx x; cc_tx := cc_tx x; cc_addr := cc_addr x; cc_read_buf := v; cc_readiness := cc_readiness x;
     cc_write_buf := cc_write_buf x; cc_kind := cc_kind x; cc_state := cc_state x; cc_control := cc_control x;
     cc_transport := cc_transport x; cc_session_id := cc_session_id x; cc_user_id := cc_user_id x;
     cc_close := cc_close x; cc_pre_auth := cc_pre_auth x; cc_created_at := cc_created_at x;
     cc_last_activity := cc_last_activity x |}.

Definition set_readiness (v : bool) (x : ClientConn) : ClientConn :=
  {| cc_rx := cc_rx x; cc_tx := cc_tx x; cc_addr := cc_addr x; cc_read_buf := cc_read_buf x; cc_readiness := v;
     cc_write_buf := cc_write_buf x; cc_kind := cc_kind x; cc_state := cc_state x; cc_control := cc_control x;
     cc_transport := cc_transport x; cc_session_id := cc_session_id x; cc_user_id := cc_user_id x;
     cc_close := cc_close x; cc_pre_auth := cc_pre_auth x; cc_created_at := cc_created_at x;
     cc_last_activity := cc_last_activity x |}.

Definition set_write_buf (v : WriteQueue) (x : ClientConn) : ClientConn :=
  {| cc_rx := cc_rx x; cc_tx := cc_tx x; cc_addr := cc_addr x; cc_read_buf := cc_read_buf x;
     cc_readiness := cc_readiness x; cc_write_buf := v; cc_kind := cc_kind x; cc_state := cc_state x;
     cc_control := cc_control x; cc_transport := cc_transport x; cc_session_id := cc_session_id x;
     cc_user_id := cc_user_id x; cc_close := cc_close x; cc_pre_auth := cc_pre_auth x;
     cc_created_at := cc_created_at x; cc_last_activity := cc_last_activity x |}.

Definition set_kind (v : ConnKind) (x : ClientConn) : ClientConn :=
  {| cc_rx := cc_rx x; cc_tx := cc_tx x; cc_addr := cc_addr x; cc_read_buf := cc_read_buf x;
     cc_readiness := cc_readiness x; cc_write_buf := cc_write_buf x; cc_kind := v; cc_state := cc_state x;
     cc_control := cc_control x; cc_transport := cc_transport x; cc_session_id := cc_session_id x;
     cc_user_id := cc_user_id x; cc_close := cc_close x; cc_pre_auth := cc_pre_auth x;
     cc_created_at := cc_created_at x; cc_last_activity := cc_last_activity x |}.

Definition set_conn_state (v : ConnState) (x : ClientConn) : ClientConn :=
  {| cc_rx := cc_rx x; cc_tx := cc_tx x; cc_addr := cc_addr x; cc_read_buf := cc_read_buf x;
     cc_readiness := cc_readiness x; cc_write_buf := cc_write_buf x; cc_kind := cc_kind x; cc_state := v;
     cc_control := cc_control x; cc_transport := cc_transport x; cc_session_id := cc_session_id x;
     cc_user_id := cc_user_id x; cc_close := cc_close x; cc_pre_auth := cc_pre_auth x;
     cc_created_at := cc_created_at x; cc_last_activity := cc_last_activity x |}.

Definition set_control_cipher (v : option RecordProtection) (x : ClientConn) : ClientConn :=
  {| cc_rx := cc_rx x; cc_tx := cc_tx x; cc_addr := cc_addr x; cc_read_buf := cc_read_buf x;
     cc_readiness := cc_readiness x; cc_write_buf := cc_write_buf x; cc_kind := cc_kind x; cc_state := cc_state x;
     cc_control := v; cc_transport := cc_transport x; cc_session_id := cc_session_id x; cc_user_id := cc_user_id x;
     cc_close := cc_close x; cc_pre_auth := cc_pre_auth x; cc_created_at := cc_created_at x;
     cc_last_activity := cc_last_activity x |}.

Definition set_transport (v : option SessionTransport) (x : ClientConn) : ClientConn :=
  {| cc_rx := cc_rx x; cc_tx := cc_tx x; cc_addr := cc_addr x; cc_read_buf := cc_read_buf x;
     cc_readiness := cc_readiness x; cc_write_buf := cc_write_buf x; cc_kind := cc_kind x; cc_state := cc_state x;
     cc_control := cc_control x; cc_transport := v; cc_session_id := cc_session_id x; cc_user_id := cc_user_id x;
     cc_close := cc_close x; cc_pre_auth := cc_pre_auth x; cc_created_at := cc_created_at x;
     cc_last_activity := cc_last_activity x |}.

Definition set_conn_session (v : option Z) (x : ClientConn) : ClientConn :=
  {| cc_rx := cc_rx x; cc_tx := cc_tx x; cc_addr := cc_addr x; cc_read_buf := cc_read_buf x;
     cc_readiness := cc_readiness x; cc_write_buf := cc_write_buf x; cc_kind := cc_kind x; cc_state := cc_state x;
     cc_control := cc_control x; cc_transport := cc_transport x; cc_session_id := v; cc_user_id := cc_user_id x;
     cc_close := cc_close x; cc_pre_auth := cc_pre_auth x; cc_created_at := cc_created_at x;
     cc_last_activity := cc_last_activity x |}.

Definition set_conn_user (v : option Z) (x : ClientConn) : ClientConn :=
  {| cc_rx := cc_rx x; cc_tx := cc_tx x; cc_addr := cc_addr x; cc_read_buf := cc_read_buf x;
     cc_readiness := cc_readiness x; cc_write_buf := cc_write_buf x; cc_kind := cc_kind x; cc_state := cc_state x;
     cc_control := cc_control x; cc_transport := cc_transport x; cc_session_id := cc_session_id x; cc_user_id := v;
     cc_close := cc_close x; cc_pre_auth := cc_pre_auth x; cc_created_at := cc_created_at x;
     cc_last_activity := cc_last_activity x |}.

Definition set_close (v : Close) (x : ClientConn) : ClientConn :=
  {| cc_rx := cc_rx x; cc_tx := cc_tx x; cc_addr := cc_addr x; cc_read_buf := cc_read_buf x;
     cc_readiness := cc_readiness x; cc_write_buf := cc_write_buf x; cc_kind := cc_kind x; cc_state := cc_state x;
     cc_control := cc_control x; cc_transport := cc_transport x; cc_session_id := cc_session_id x;
     cc_user_id := cc_user_id x; cc_close := v; cc_pre_auth := cc_pre_auth x; cc_created_at := cc_created_at x;
     cc_last_activity := cc_last_activity x |}.

Definition set_conn_pre_auth (v : bool) (x : ClientConn) : ClientConn :=
  {| cc_rx := cc_rx x; cc_tx := cc_tx x; cc_addr := cc_addr x; cc_read_buf := cc_read_buf x;
     cc_readiness := cc_readiness x; cc_write_buf := cc_write_buf x; cc_kind := cc_kind x; cc_state := cc_state x;
     cc_control := cc_control x; cc_transport := cc_transport x; cc_session_id := cc_session_id x;
     cc_user_id := cc_user_id x; cc_close := cc_close x; cc_pre_auth := v; cc_created_at := cc_created_at x;
     cc_last_activity := cc_last_activity x |}.

Definition set_last_activity (v : Z) (x : ClientConn) : ClientConn :=
  {| cc_rx := cc_rx x; cc_tx := cc_tx x; cc_addr := cc_addr x; cc_read_buf := cc_read_buf x;
     cc_readiness := cc_readiness x; cc_write_buf := cc_write_buf x; cc_kind := cc_kind x; cc_state := cc_state x;
     cc_control := cc_control x; cc_transport := cc_transport x; cc_session_id := cc_session_id x;
     cc_user_id := cc_user_id x; cc_close := cc_close x; cc_pre_auth := cc_pre_auth x;
     cc_created_at := cc_created_at x; cc_last_activity := v |}.

(** [Server].  The random generator is the number of draws made of it; the client reads and writes are the queues of [LoopWork]. *)
Record Server := mkServer {
  config : ServerConfig;
  usernames : UsernameRegistry;
  deferred_identity_controls : list (Z * ClientControl);
  deferred_identity_tokens : gset Z;
  voice_commands : list (VoiceCommand Rx Tx);
  users : list UserConfig;
  pending_identity : option (Z * PendingIdentity);
  identity_requests : list (Z * IdentityWrite);
  invites : gmap (list Z) InviteState;
  open_pair_global_allocations : list Z;
  open_pair_ip_allocations : gmap IpAddr (list Z);
  clients : gmap Z ClientConn;
  pre_auth : PreAuthLimiter;
  pending_controls : gmap Z (list ServerControl);
  pending_control_bytes : gmap Z Z;
  pending_control_total_bytes : Z;
  write_queue_total_bytes : Z;
  control_send_tokens : list Z;
  control_send_set : gset Z;
  sessions : gmap Z Session;
  reserved_media_routes : gmap Z Z;
  peer_links : gmap (Z * Z) PeerLink;
  rooms : gmap Z RoomState;
  streams : gmap Z VideoStream;
  video_fanouts : list VideoFanout;
  video_fanout_bytes : Z;
  next_token : Z;
  next_session : Z;
  next_stream : Z;
  next_connection_id : Z;
  next_file_transfer : Z;
  active_uploads : gmap (Z * Z) ServerUpload;
  active_bug_reports : gmap (Z * Z) ServerBugReport;
  pending_bug_reports : gset (Z * Z);
  bug_report_requests : list (Z * Z * ServerBugReport);
  reserved_file_names : gset bytes;
  store : St;
  mls_groups : gset Z;
  rng_draws : nat;
  next_media_sweep_at : option Z;
  next_rtt_snapshot_at : Z;
  next_idle_sweep_at : Z;
  next_share_sweep_at : Z;
  client_writes : list Z;
  client_write_set : gset Z;
  client_reads : list Z;
  client_read_set : gset Z;
}.

Definition set_usernames (v : UsernameRegistry) (x : Server) : Server :=
  {| config := config x; usernames := v; deferred_identity_controls := deferred_identity_controls x;
     deferred_identity_tokens := deferred_identity_tokens x; voice_commands := voice_commands x; users := users x;
     pending_identity := pending_identity x; identity_requests := identity_requests x; invites := invites x;
     open_pair_global_allocations := open_pair_global_allocations x;
     open_pair_ip_allocations := open_pair_ip_allocations x; clients := clients x; pre_auth := pre_auth x;
     pending_controls := pending_controls x; pending_control_bytes := pending_control_bytes x;
     pending_control_total_bytes := pending_control_total_bytes x;
     write_queue_total_bytes := write_queue_total_bytes x; control_send_tokens := control_send_tokens x;
     control_send_set := control_send_set x; sessions := sessions x;
     reserved_media_routes := reserved_media_routes x; peer_links := peer_links x; rooms := rooms x;
     streams := streams x; video_fanouts := video_fanouts x; video_fanout_bytes := video_fanout_bytes x;
     next_token := next_token x; next_session := next_session x; next_stream := next_stream x;
     next_connection_id := next_connection_id x; next_file_transfer := next_file_transfer x;
     active_uploads := active_uploads x; active_bug_reports := active_bug_reports x;
     pending_bug_reports := pending_bug_reports x; bug_report_requests := bug_report_requests x;
     reserved_file_names := reserved_file_names x; store := store x; mls_groups := mls_groups x;
     rng_draws := rng_draws x; next_media_sweep_at := next_media_sweep_at x;
     next_rtt_snapshot_at := next_rtt_snapshot_at x; next_idle_sweep_at := next_idle_sweep_at x;
     next_share_sweep_at := next_share_sweep_at x; client_writes := client_writes x;
     client_write_set := client_write_set x; client_reads := client_reads x; client_read_set := client_read_set x |}.

Definition set_deferred_identity_controls (v : list (Z * ClientControl)) (x : Server) : Server :=
  {| config := config x; usernames := usernames x; deferred_identity_controls := v;
     deferred_identity_tokens := deferred_identity_tokens x; voice_commands := voice_commands x; users := users x;
     pending_identity := pending_identity x; identity_requests := identity_requests x; invites := invites x;
     open_pair_global_allocations := open_pair_global_allocations x;
     open_pair_ip_allocations := open_pair_ip_allocations x; clients := clients x; pre_auth := pre_auth x;
     pending_controls := pending_controls x; pending_control_bytes := pending_control_bytes x;
     pending_control_total_bytes := pending_control_total_bytes x;
     write_queue_total_bytes := write_queue_total_bytes x; control_send_tokens := control_send_tokens x;
     control_send_set := control_send_set x; sessions := sessions x;
     reserved_media_routes := reserved_media_routes x; peer_links := peer_links x; rooms := rooms x;
     streams := streams x; video_fanouts := video_fanouts x; video_fanout_bytes := video_fanout_bytes x;
     next_token := next_token x; next_session := next_session x; next_stream := next_stream x;
     next_connection_id := next_connection_id x; next_file_transfer := next_file_transfer x;
     active_uploads := active_uploads x; active_bug_reports := active_bug_reports x;
     pending_bug_reports := pending_bug_reports x; bug_report_requests := bug_report_requests x;
     reserved_file_names := reserved_file_names x; store := store x; mls_groups := mls_groups x;
     rng_draws := rng_draws x; next_media_sweep_at := next_media_sweep_at x;
     next_rtt_snapshot_at := next_rtt_snapshot_at x; next_idle_sweep_at := next_idle_sweep_at x;
     next_share_sweep_at := next_share_sweep_at x; client_writes := client_writes x;
     client_write_set := client_write_set x; client_reads := client_reads x; client_read_set := client_read_set x |}.

Definition set_deferred_identity_tokens (v : gset Z) (x : Server) : Server :=
  {| config := config x; usernames := usernames x; deferred_identity_controls := deferred_identity_controls x;
     deferred_identity_tokens := v; voice_commands := voice_commands x; users := users x;
     pending_identity := pending_identity x; identity_requests := identity_requests x; invites := invites x;
     open_pair_global_allocations := open_pair_global_allocations x;
     open_pair_ip_allocations := open_pair_ip_allocations x; clients := clients x; pre_auth := pre_auth x;
     pending_controls := pending_controls x; pending_control_bytes := pending_control_bytes x;
     pending_control_total_bytes := pending_control_total_bytes x;
     write_queue_total_bytes := write_queue_total_bytes x; control_send_tokens := control_send_tokens x;
     control_send_set := control_send_set x; sessions := sessions x;
     reserved_media_routes := reserved_media_routes x; peer_links := peer_links x; rooms := rooms x;
     streams := streams x; video_fanouts := video_fanouts x; video_fanout_bytes := video_fanout_bytes x;
     next_token := next_token x; next_session := next_session x; next_stream := next_stream x;
     next_connection_id := next_connection_id x; next_file_transfer := next_file_transfer x;
     active_uploads := active_uploads x; active_bug_reports := active_bug_reports x;
     pending_bug_reports := pending_bug_reports x; bug_report_requests := bug_report_requests x;
     reserved_file_names := reserved_file_names x; store := store x; mls_groups := mls_groups x;
     rng_draws := rng_draws x; next_media_sweep_at := next_media_sweep_at x;
     next_rtt_snapshot_at := next_rtt_snapshot_at x; next_idle_sweep_at := next_idle_sweep_at x;
     next_share_sweep_at := next_share_sweep_at x; client_writes := client_writes x;
     client_write_set := client_write_set x; client_reads := client_reads x; client_read_set := client_read_set x |}.

Definition set_voice_commands (v : list (VoiceCommand Rx Tx)) (x : Server) : Server :=
  {| config := config x; usernames := usernames x; deferred_identity_controls := deferred_identity_controls x;
     deferred_identity_tokens := deferred_identity_tokens x; voice_commands := v; users := users x;
     pending_identity := pending_identity x; identity_requests := identity_requests x; invites := invites x;
     open_pair_global_allocations := open_pair_global_allocations x;
     open_pair_ip_allocations := open_pair_ip_allocations x; clients := clients x; pre_auth := pre_auth x;
     pending_controls := pending_controls x; pending_control_bytes := pending_control_bytes x;
     pending_control_total_bytes := pending_control_total_bytes x;
     write_queue_total_bytes := write_queue_total_bytes x; control_send_tokens := control_send_tokens x;
     control_send_set := control_send_set x; sessions := sessions x;
     reserved_media_routes := reserved_media_routes x; peer_links := peer_links x; rooms := rooms x;
     streams := streams x; video_fanouts := video_fanouts x; video_fanout_bytes := video_fanout_bytes x;
     next_token := next_token x; next_session := next_session x; next_stream := next_stream x;
     next_connection_id := next_connection_id x; next_file_transfer := next_file_transfer x;
     active_uploads := active_uploads x; active_bug_reports := active_bug_reports x;
     pending_bug_reports := pending_bug_reports x; bug_report_requests := bug_report_requests x;
     reserved_file_names := reserved_file_names x; store := store x; mls_groups := mls_groups x;
     rng_draws := rng_draws x; next_media_sweep_at := next_media_sweep_at x;
     next_rtt_snapshot_at := next_rtt_snapshot_at x; next_idle_sweep_at := next_idle_sweep_at x;
     next_share_sweep_at := next_share_sweep_at x; client_writes := client_writes x;
     client_write_set := client_write_set x; client_reads := client_reads x; client_read_set := client_read_set x |}.

Definition set_users (v : list UserConfig) (x : Server) : Server :=
  {| config := config x; usernames := usernames x; deferred_identity_controls := deferred_identity_controls x;
     deferred_identity_tokens := deferred_identity_tokens x; voice_commands := voice_commands x; users := v;
     pending_identity := pending_identity x; identity_requests := identity_requests x; invites := invites x;
     open_pair_global_allocations := open_pair_global_allocations x;
     open_pair_ip_allocations := open_pair_ip_allocations x; clients := clients x; pre_auth := pre_auth x;
     pending_controls := pending_controls x; pending_control_bytes := pending_control_bytes x;
     pending_control_total_bytes := pending_control_total_bytes x;
     write_queue_total_bytes := write_queue_total_bytes x; control_send_tokens := control_send_tokens x;
     control_send_set := control_send_set x; sessions := sessions x;
     reserved_media_routes := reserved_media_routes x; peer_links := peer_links x; rooms := rooms x;
     streams := streams x; video_fanouts := video_fanouts x; video_fanout_bytes := video_fanout_bytes x;
     next_token := next_token x; next_session := next_session x; next_stream := next_stream x;
     next_connection_id := next_connection_id x; next_file_transfer := next_file_transfer x;
     active_uploads := active_uploads x; active_bug_reports := active_bug_reports x;
     pending_bug_reports := pending_bug_reports x; bug_report_requests := bug_report_requests x;
     reserved_file_names := reserved_file_names x; store := store x; mls_groups := mls_groups x;
     rng_draws := rng_draws x; next_media_sweep_at := next_media_sweep_at x;
     next_rtt_snapshot_at := next_rtt_snapshot_at x; next_idle_sweep_at := next_idle_sweep_at x;
     next_share_sweep_at := next_share_sweep_at x; client_writes := client_writes x;
     client_write_set := client_write_set x; client_reads := client_reads x; client_read_set := client_read_set x |}.

Definition set_pending_identity (v : option (Z * PendingIdentity)) (x : Server) : Server :=
  {| config := config x; usernames := usernames x; deferred_identity_controls := deferred_identity_controls x;
     deferred_identity_tokens := deferred_identity_tokens x; voice_commands := voice_commands x; users := users x;
     pending_identity := v; identity_requests := identity_requests x; invites := invites x;
     open_pair_global_allocations := open_pair_global_allocations x;
     open_pair_ip_allocations := open_pair_ip_allocations x; clients := clients x; pre_auth := pre_auth x;
     pending_controls := pending_controls x; pending_control_bytes := pending_control_bytes x;
     pending_control_total_bytes := pending_control_total_bytes x;
     write_queue_total_bytes := write_queue_total_bytes x; control_send_tokens := control_send_tokens x;
     control_send_set := control_send_set x; sessions := sessions x;
     reserved_media_routes := reserved_media_routes x; peer_links := peer_links x; rooms := rooms x;
     streams := streams x; video_fanouts := video_fanouts x; video_fanout_bytes := video_fanout_bytes x;
     next_token := next_token x; next_session := next_session x; next_stream := next_stream x;
     next_connection_id := next_connection_id x; next_file_transfer := next_file_transfer x;
     active_uploads := active_uploads x; active_bug_reports := active_bug_reports x;
     pending_bug_reports := pending_bug_reports x; bug_report_requests := bug_report_requests x;
     reserved_file_names := reserved_file_names x; store := store x; mls_groups := mls_groups x;
     rng_draws := rng_draws x; next_media_sweep_at := next_media_sweep_at x;
     next_rtt_snapshot_at := next_rtt_snapshot_at x; next_idle_sweep_at := next_idle_sweep_at x;
     next_share_sweep_at := next_share_sweep_at x; client_writes := client_writes x;
     client_write_set := client_write_set x; client_reads := client_reads x; client_read_set := client_read_set x |}.

Definition set_identity_requests (v : list (Z * IdentityWrite)) (x : Server) : Server :=
  {| config := config x; usernames := usernames x; deferred_identity_controls := deferred_identity_controls x;
     deferred_identity_tokens := deferred_identity_tokens x; voice_commands := voice_commands x; users := users x;
     pending_identity := pending_identity x; identity_requests := v; invites := invites x;
     open_pair_global_allocations := open_pair_global_allocations x;
     open_pair_ip_allocations := open_pair_ip_allocations x; clients := clients x; pre_auth := pre_auth x;
     pending_controls := pending_controls x; pending_control_bytes := pending_control_bytes x;
     pending_control_total_bytes := pending_control_total_bytes x;
     write_queue_total_bytes := write_queue_total_bytes x; control_send_tokens := control_send_tokens x;
     control_send_set := control_send_set x; sessions := sessions x;
     reserved_media_routes := reserved_media_routes x; peer_links := peer_links x; rooms := rooms x;
     streams := streams x; video_fanouts := video_fanouts x; video_fanout_bytes := video_fanout_bytes x;
     next_token := next_token x; next_session := next_session x; next_stream := next_stream x;
     next_connection_id := next_connection_id x; next_file_transfer := next_file_transfer x;
     active_uploads := active_uploads x; active_bug_reports := active_bug_reports x;
     pending_bug_reports := pending_bug_reports x; bug_report_requests := bug_report_requests x;
     reserved_file_names := reserved_file_names x; store := store x; mls_groups := mls_groups x;
     rng_draws := rng_draws x; next_media_sweep_at := next_media_sweep_at x;
     next_rtt_snapshot_at := next_rtt_snapshot_at x; next_idle_sweep_at := next_idle_sweep_at x;
     next_share_sweep_at := next_share_sweep_at x; client_writes := client_writes x;
     client_write_set := client_write_set x; client_reads := client_reads x; client_read_set := client_read_set x |}.

Definition set_invites (v : gmap (list Z) InviteState) (x : Server) : Server :=
  {| config := config x; usernames := usernames x; deferred_identity_controls := deferred_identity_controls x;
     deferred_identity_tokens := deferred_identity_tokens x; voice_commands := voice_commands x; users := users x;
     pending_identity := pending_identity x; identity_requests := identity_requests x; invites := v;
     open_pair_global_allocations := open_pair_global_allocations x;
     open_pair_ip_allocations := open_pair_ip_allocations x; clients := clients x; pre_auth := pre_auth x;
     pending_controls := pending_controls x; pending_control_bytes := pending_control_bytes x;
     pending_control_total_bytes := pending_control_total_bytes x;
     write_queue_total_bytes := write_queue_total_bytes x; control_send_tokens := control_send_tokens x;
     control_send_set := control_send_set x; sessions := sessions x;
     reserved_media_routes := reserved_media_routes x; peer_links := peer_links x; rooms := rooms x;
     streams := streams x; video_fanouts := video_fanouts x; video_fanout_bytes := video_fanout_bytes x;
     next_token := next_token x; next_session := next_session x; next_stream := next_stream x;
     next_connection_id := next_connection_id x; next_file_transfer := next_file_transfer x;
     active_uploads := active_uploads x; active_bug_reports := active_bug_reports x;
     pending_bug_reports := pending_bug_reports x; bug_report_requests := bug_report_requests x;
     reserved_file_names := reserved_file_names x; store := store x; mls_groups := mls_groups x;
     rng_draws := rng_draws x; next_media_sweep_at := next_media_sweep_at x;
     next_rtt_snapshot_at := next_rtt_snapshot_at x; next_idle_sweep_at := next_idle_sweep_at x;
     next_share_sweep_at := next_share_sweep_at x; client_writes := client_writes x;
     client_write_set := client_write_set x; client_reads := client_reads x; client_read_set := client_read_set x |}.

Definition set_open_pair_global_allocations (v : list Z) (x : Server) : Server :=
  {| config := config x; usernames := usernames x; deferred_identity_controls := deferred_identity_controls x;
     deferred_identity_tokens := deferred_identity_tokens x; voice_commands := voice_commands x; users := users x;
     pending_identity := pending_identity x; identity_requests := identity_requests x; invites := invites x;
     open_pair_global_allocations := v; open_pair_ip_allocations := open_pair_ip_allocations x;
     clients := clients x; pre_auth := pre_auth x; pending_controls := pending_controls x;
     pending_control_bytes := pending_control_bytes x; pending_control_total_bytes := pending_control_total_bytes x;
     write_queue_total_bytes := write_queue_total_bytes x; control_send_tokens := control_send_tokens x;
     control_send_set := control_send_set x; sessions := sessions x;
     reserved_media_routes := reserved_media_routes x; peer_links := peer_links x; rooms := rooms x;
     streams := streams x; video_fanouts := video_fanouts x; video_fanout_bytes := video_fanout_bytes x;
     next_token := next_token x; next_session := next_session x; next_stream := next_stream x;
     next_connection_id := next_connection_id x; next_file_transfer := next_file_transfer x;
     active_uploads := active_uploads x; active_bug_reports := active_bug_reports x;
     pending_bug_reports := pending_bug_reports x; bug_report_requests := bug_report_requests x;
     reserved_file_names := reserved_file_names x; store := store x; mls_groups := mls_groups x;
     rng_draws := rng_draws x; next_media_sweep_at := next_media_sweep_at x;
     next_rtt_snapshot_at := next_rtt_snapshot_at x; next_idle_sweep_at := next_idle_sweep_at x;
     next_share_sweep_at := next_share_sweep_at x; client_writes := client_writes x;
     client_write_set := client_write_set x; client_reads := client_reads x; client_read_set := client_read_set x |}.

Definition set_open_pair_ip_allocations (v : gmap IpAddr (list Z)) (x : Server) : Server :=
  {| config := config x; usernames := usernames x; deferred_identity_controls := deferred_identity_controls x;
     deferred_identity_tokens := deferred_identity_tokens x; voice_commands := voice_commands x; users := users x;
     pending_identity := pending_identity x; identity_requests := identity_requests x; invites := invites x;
     open_pair_global_allocations := open_pair_global_allocations x; open_pair_ip_allocations := v;
     clients := clients x; pre_auth := pre_auth x; pending_controls := pending_controls x;
     pending_control_bytes := pending_control_bytes x; pending_control_total_bytes := pending_control_total_bytes x;
     write_queue_total_bytes := write_queue_total_bytes x; control_send_tokens := control_send_tokens x;
     control_send_set := control_send_set x; sessions := sessions x;
     reserved_media_routes := reserved_media_routes x; peer_links := peer_links x; rooms := rooms x;
     streams := streams x; video_fanouts := video_fanouts x; video_fanout_bytes := video_fanout_bytes x;
     next_token := next_token x; next_session := next_session x; next_stream := next_stream x;
     next_connection_id := next_connection_id x; next_file_transfer := next_file_transfer x;
     active_uploads := active_uploads x; active_bug_reports := active_bug_reports x;
     pending_bug_reports := pending_bug_reports x; bug_report_requests := bug_report_requests x;
     reserved_file_names := reserved_file_names x; store := store x; mls_groups := mls_groups x;
     rng_draws := rng_draws x; next_media_sweep_at := next_media_sweep_at x;
     next_rtt_snapshot_at := next_rtt_snapshot_at x; next_idle_sweep_at := next_idle_sweep_at x;
     next_share_sweep_at := next_share_sweep_at x; client_writes := client_writes x;
     client_write_set := client_write_set x; client_reads := client_reads x; client_read_set := client_read_set x |}.

Definition set_clients (v : gmap Z ClientConn) (x : Server) : Server :=
  {| config := config x; usernames := usernames x; deferred_identity_controls := deferred_identity_controls x;
     deferred_identity_tokens := deferred_identity_tokens x; voice_commands := voice_commands x; users := users x;
     pending_identity := pending_identity x; identity_requests := identity_requests x; invites := invites x;
     open_pair_global_allocations := open_pair_global_allocations x;
     open_pair_ip_allocations := open_pair_ip_allocations x; clients := v; pre_auth := pre_auth x;
     pending_controls := pending_controls x; pending_control_bytes := pending_control_bytes x;
     pending_control_total_bytes := pending_control_total_bytes x;
     write_queue_total_bytes := write_queue_total_bytes x; control_send_tokens := control_send_tokens x;
     control_send_set := control_send_set x; sessions := sessions x;
     reserved_media_routes := reserved_media_routes x; peer_links := peer_links x; rooms := rooms x;
     streams := streams x; video_fanouts := video_fanouts x; video_fanout_bytes := video_fanout_bytes x;
     next_token := next_token x; next_session := next_session x; next_stream := next_stream x;
     next_connection_id := next_connection_id x; next_file_transfer := next_file_transfer x;
     active_uploads := active_uploads x; active_bug_reports := active_bug_reports x;
     pending_bug_reports := pending_bug_reports x; bug_report_requests := bug_report_requests x;
     reserved_file_names := reserved_file_names x; store := store x; mls_groups := mls_groups x;
     rng_draws := rng_draws x; next_media_sweep_at := next_media_sweep_at x;
     next_rtt_snapshot_at := next_rtt_snapshot_at x; next_idle_sweep_at := next_idle_sweep_at x;
     next_share_sweep_at := next_share_sweep_at x; client_writes := client_writes x;
     client_write_set := client_write_set x; client_reads := client_reads x; client_read_set := client_read_set x |}.

Definition set_pre_auth (v : PreAuthLimiter) (x : Server) : Server :=
  {| config := config x; usernames := usernames x; deferred_identity_controls := deferred_identity_controls x;
     deferred_identity_tokens := deferred_identity_tokens x; voice_commands := voice_commands x; users := users x;
     pending_identity := pending_identity x; identity_requests := identity_requests x; invites := invites x;
     open_pair_global_allocations := open_pair_global_allocations x;
     open_pair_ip_allocations := open_pair_ip_allocations x; clients := clients x; pre_auth := v;
     pending_controls := pending_controls x; pending_control_bytes := pending_control_bytes x;
     pending_control_total_bytes := pending_control_total_bytes x;
     write_queue_total_bytes := write_queue_total_bytes x; control_send_tokens := control_send_tokens x;
     control_send_set := control_send_set x; sessions := sessions x;
     reserved_media_routes := reserved_media_routes x; peer_links := peer_links x; rooms := rooms x;
     streams := streams x; video_fanouts := video_fanouts x; video_fanout_bytes := video_fanout_bytes x;
     next_token := next_token x; next_session := next_session x; next_stream := next_stream x;
     next_connection_id := next_connection_id x; next_file_transfer := next_file_transfer x;
     active_uploads := active_uploads x; active_bug_reports := active_bug_reports x;
     pending_bug_reports := pending_bug_reports x; bug_report_requests := bug_report_requests x;
     reserved_file_names := reserved_file_names x; store := store x; mls_groups := mls_groups x;
     rng_draws := rng_draws x; next_media_sweep_at := next_media_sweep_at x;
     next_rtt_snapshot_at := next_rtt_snapshot_at x; next_idle_sweep_at := next_idle_sweep_at x;
     next_share_sweep_at := next_share_sweep_at x; client_writes := client_writes x;
     client_write_set := client_write_set x; client_reads := client_reads x; client_read_set := client_read_set x |}.

Definition set_pending_controls (v : gmap Z (list ServerControl)) (x : Server) : Server :=
  {| config := config x; usernames := usernames x; deferred_identity_controls := deferred_identity_controls x;
     deferred_identity_tokens := deferred_identity_tokens x; voice_commands := voice_commands x; users := users x;
     pending_identity := pending_identity x; identity_requests := identity_requests x; invites := invites x;
     open_pair_global_allocations := open_pair_global_allocations x;
     open_pair_ip_allocations := open_pair_ip_allocations x; clients := clients x; pre_auth := pre_auth x;
     pending_controls := v; pending_control_bytes := pending_control_bytes x;
     pending_control_total_bytes := pending_control_total_bytes x;
     write_queue_total_bytes := write_queue_total_bytes x; control_send_tokens := control_send_tokens x;
     control_send_set := control_send_set x; sessions := sessions x;
     reserved_media_routes := reserved_media_routes x; peer_links := peer_links x; rooms := rooms x;
     streams := streams x; video_fanouts := video_fanouts x; video_fanout_bytes := video_fanout_bytes x;
     next_token := next_token x; next_session := next_session x; next_stream := next_stream x;
     next_connection_id := next_connection_id x; next_file_transfer := next_file_transfer x;
     active_uploads := active_uploads x; active_bug_reports := active_bug_reports x;
     pending_bug_reports := pending_bug_reports x; bug_report_requests := bug_report_requests x;
     reserved_file_names := reserved_file_names x; store := store x; mls_groups := mls_groups x;
     rng_draws := rng_draws x; next_media_sweep_at := next_media_sweep_at x;
     next_rtt_snapshot_at := next_rtt_snapshot_at x; next_idle_sweep_at := next_idle_sweep_at x;
     next_share_sweep_at := next_share_sweep_at x; client_writes := client_writes x;
     client_write_set := client_write_set x; client_reads := client_reads x; client_read_set := client_read_set x |}.

Definition set_pending_control_bytes (v : gmap Z Z) (x : Server) : Server :=
  {| config := config x; usernames := usernames x; deferred_identity_controls := deferred_identity_controls x;
     deferred_identity_tokens := deferred_identity_tokens x; voice_commands := voice_commands x; users := users x;
     pending_identity := pending_identity x; identity_requests := identity_requests x; invites := invites x;
     open_pair_global_allocations := open_pair_global_allocations x;
     open_pair_ip_allocations := open_pair_ip_allocations x; clients := clients x; pre_auth := pre_auth x;
     pending_controls := pending_controls x; pending_control_bytes := v;
     pending_control_total_bytes := pending_control_total_bytes x;
     write_queue_total_bytes := write_queue_total_bytes x; control_send_tokens := control_send_tokens x;
     control_send_set := control_send_set x; sessions := sessions x;
     reserved_media_routes := reserved_media_routes x; peer_links := peer_links x; rooms := rooms x;
     streams := streams x; video_fanouts := video_fanouts x; video_fanout_bytes := video_fanout_bytes x;
     next_token := next_token x; next_session := next_session x; next_stream := next_stream x;
     next_connection_id := next_connection_id x; next_file_transfer := next_file_transfer x;
     active_uploads := active_uploads x; active_bug_reports := active_bug_reports x;
     pending_bug_reports := pending_bug_reports x; bug_report_requests := bug_report_requests x;
     reserved_file_names := reserved_file_names x; store := store x; mls_groups := mls_groups x;
     rng_draws := rng_draws x; next_media_sweep_at := next_media_sweep_at x;
     next_rtt_snapshot_at := next_rtt_snapshot_at x; next_idle_sweep_at := next_idle_sweep_at x;
     next_share_sweep_at := next_share_sweep_at x; client_writes := client_writes x;
     client_write_set := client_write_set x; client_reads := client_reads x; client_read_set := client_read_set x |}.

Definition set_pending_control_total_bytes (v : Z) (x : Server) : Server :=
  {| config := config x; usernames := usernames x; deferred_identity_controls := deferred_identity_controls x;
     deferred_identity_tokens := deferred_identity_tokens x; voice_commands := voice_commands x; users := users x;
     pending_identity := pending_identity x; identity_requests := identity_requests x; invites := invites x;
     open_pair_global_allocations := open_pair_global_allocations x;
     open_pair_ip_allocations := open_pair_ip_allocations x; clients := clients x; pre_auth := pre_auth x;
     pending_controls := pending_controls x; pending_control_bytes := pending_control_bytes x;
     pending_control_total_bytes := v; write_queue_total_bytes := write_queue_total_bytes x;
     control_send_tokens := control_send_tokens x; control_send_set := control_send_set x; sessions := sessions x;
     reserved_media_routes := reserved_media_routes x; peer_links := peer_links x; rooms := rooms x;
     streams := streams x; video_fanouts := video_fanouts x; video_fanout_bytes := video_fanout_bytes x;
     next_token := next_token x; next_session := next_session x; next_stream := next_stream x;
     next_connection_id := next_connection_id x; next_file_transfer := next_file_transfer x;
     active_uploads := active_uploads x; active_bug_reports := active_bug_reports x;
     pending_bug_reports := pending_bug_reports x; bug_report_requests := bug_report_requests x;
     reserved_file_names := reserved_file_names x; store := store x; mls_groups := mls_groups x;
     rng_draws := rng_draws x; next_media_sweep_at := next_media_sweep_at x;
     next_rtt_snapshot_at := next_rtt_snapshot_at x; next_idle_sweep_at := next_idle_sweep_at x;
     next_share_sweep_at := next_share_sweep_at x; client_writes := client_writes x;
     client_write_set := client_write_set x; client_reads := client_reads x; client_read_set := client_read_set x |}.

Definition set_write_queue_total_bytes (v : Z) (x : Server) : Server :=
  {| config := config x; usernames := usernames x; deferred_identity_controls := deferred_identity_controls x;
     deferred_identity_tokens := deferred_identity_tokens x; voice_commands := voice_commands x; users := users x;
     pending_identity := pending_identity x; identity_requests := identity_requests x; invites := invites x;
     open_pair_global_allocations := open_pair_global_allocations x;
     open_pair_ip_allocations := open_pair_ip_allocations x; clients := clients x; pre_auth := pre_auth x;
     pending_controls := pending_controls x; pending_control_bytes := pending_control_bytes x;
     pending_control_total_bytes := pending_control_total_bytes x; write_queue_total_bytes := v;
     control_send_tokens := control_send_tokens x; control_send_set := control_send_set x; sessions := sessions x;
     reserved_media_routes := reserved_media_routes x; peer_links := peer_links x; rooms := rooms x;
     streams := streams x; video_fanouts := video_fanouts x; video_fanout_bytes := video_fanout_bytes x;
     next_token := next_token x; next_session := next_session x; next_stream := next_stream x;
     next_connection_id := next_connection_id x; next_file_transfer := next_file_transfer x;
     active_uploads := active_uploads x; active_bug_reports := active_bug_reports x;
     pending_bug_reports := pending_bug_reports x; bug_report_requests := bug_report_requests x;
     reserved_file_names := reserved_file_names x; store := store x; mls_groups := mls_groups x;
     rng_draws := rng_draws x; next_media_sweep_at := next_media_sweep_at x;
     next_rtt_snapshot_at := next_rtt_snapshot_at x; next_idle_sweep_at := next_idle_sweep_at x;
     next_share_sweep_at := next_share_sweep_at x; client_writes := client_writes x;
     client_write_set := client_write_set x; client_reads := client_reads x; client_read_set := client_read_set x |}.

Definition set_control_send_tokens (v : list Z) (x : Server) : Server :=
  {| config := config x; usernames := usernames x; deferred_identity_controls := deferred_identity_controls x;
     deferred_identity_tokens := deferred_identity_tokens x; voice_commands := voice_commands x; users := users x;
     pending_identity := pending_identity x; identity_requests := identity_requests x; invites := invites x;
     open_pair_global_allocations := open_pair_global_allocations x;
     open_pair_ip_allocations := open_pair_ip_allocations x; clients := clients x; pre_auth := pre_auth x;
     pending_controls := pending_controls x; pending_control_bytes := pending_control_bytes x;
     pending_control_total_bytes := pending_control_total_bytes x;
     write_queue_total_bytes := write_queue_total_bytes x; control_send_tokens := v;
     control_send_set := control_send_set x; sessions := sessions x;
     reserved_media_routes := reserved_media_routes x; peer_links := peer_links x; rooms := rooms x;
     streams := streams x; video_fanouts := video_fanouts x; video_fanout_bytes := video_fanout_bytes x;
     next_token := next_token x; next_session := next_session x; next_stream := next_stream x;
     next_connection_id := next_connection_id x; next_file_transfer := next_file_transfer x;
     active_uploads := active_uploads x; active_bug_reports := active_bug_reports x;
     pending_bug_reports := pending_bug_reports x; bug_report_requests := bug_report_requests x;
     reserved_file_names := reserved_file_names x; store := store x; mls_groups := mls_groups x;
     rng_draws := rng_draws x; next_media_sweep_at := next_media_sweep_at x;
     next_rtt_snapshot_at := next_rtt_snapshot_at x; next_idle_sweep_at := next_idle_sweep_at x;
     next_share_sweep_at := next_share_sweep_at x; client_writes := client_writes x;
     client_write_set := client_write_set x; client_reads := client_reads x; client_read_set := client_read_set x |}.

Definition set_control_send_set (v : gset Z) (x : Server) : Server :=
  {| config := config x; usernames := usernames x; deferred_identity_controls := deferred_identity_controls x;
     deferred_identity_tokens := deferred_identity_tokens x; voice_commands := voice_commands x; users := users x;
     pending_identity := pending_identity x; identity_requests := identity_requests x; invites := invites x;
     open_pair_global_allocations := open_pair_global_allocations x;
     open_pair_ip_allocations := open_pair_ip_allocations x; clients := clients x; pre_auth := pre_auth x;
     pending_controls := pending_controls x; pending_control_bytes := pending_control_bytes x;
     pending_control_total_bytes := pending_control_total_bytes x;
     write_queue_total_bytes := write_queue_total_bytes x; control_send_tokens := control_send_tokens x;
     control_send_set := v; sessions := sessions x; reserved_media_routes := reserved_media_routes x;
     peer_links := peer_links x; rooms := rooms x; streams := streams x; video_fanouts := video_fanouts x;
     video_fanout_bytes := video_fanout_bytes x; next_token := next_token x; next_session := next_session x;
     next_stream := next_stream x; next_connection_id := next_connection_id x;
     next_file_transfer := next_file_transfer x; active_uploads := active_uploads x;
     active_bug_reports := active_bug_reports x; pending_bug_reports := pending_bug_reports x;
     bug_report_requests := bug_report_requests x; reserved_file_names := reserved_file_names x; store := store x;
     mls_groups := mls_groups x; rng_draws := rng_draws x; next_media_sweep_at := next_media_sweep_at x;
     next_rtt_snapshot_at := next_rtt_snapshot_at x; next_idle_sweep_at := next_idle_sweep_at x;
     next_share_sweep_at := next_share_sweep_at x; client_writes := client_writes x;
     client_write_set := client_write_set x; client_reads := client_reads x; client_read_set := client_read_set x |}.

Definition set_sessions (v : gmap Z Session) (x : Server) : Server :=
  {| config := config x; usernames := usernames x; deferred_identity_controls := deferred_identity_controls x;
     deferred_identity_tokens := deferred_identity_tokens x; voice_commands := voice_commands x; users := users x;
     pending_identity := pending_identity x; identity_requests := identity_requests x; invites := invites x;
     open_pair_global_allocations := open_pair_global_allocations x;
     open_pair_ip_allocations := open_pair_ip_allocations x; clients := clients x; pre_auth := pre_auth x;
     pending_controls := pending_controls x; pending_control_bytes := pending_control_bytes x;
     pending_control_total_bytes := pending_control_total_bytes x;
     write_queue_total_bytes := write_queue_total_bytes x; control_send_tokens := control_send_tokens x;
     control_send_set := control_send_set x; sessions := v; reserved_media_routes := reserved_media_routes x;
     peer_links := peer_links x; rooms := rooms x; streams := streams x; video_fanouts := video_fanouts x;
     video_fanout_bytes := video_fanout_bytes x; next_token := next_token x; next_session := next_session x;
     next_stream := next_stream x; next_connection_id := next_connection_id x;
     next_file_transfer := next_file_transfer x; active_uploads := active_uploads x;
     active_bug_reports := active_bug_reports x; pending_bug_reports := pending_bug_reports x;
     bug_report_requests := bug_report_requests x; reserved_file_names := reserved_file_names x; store := store x;
     mls_groups := mls_groups x; rng_draws := rng_draws x; next_media_sweep_at := next_media_sweep_at x;
     next_rtt_snapshot_at := next_rtt_snapshot_at x; next_idle_sweep_at := next_idle_sweep_at x;
     next_share_sweep_at := next_share_sweep_at x; client_writes := client_writes x;
     client_write_set := client_write_set x; client_reads := client_reads x; client_read_set := client_read_set x |}.

Definition set_reserved_media_routes (v : gmap Z Z) (x : Server) : Server :=
  {| config := config x; usernames := usernames x; deferred_identity_controls := deferred_identity_controls x;
     deferred_identity_tokens := deferred_identity_tokens x; voice_commands := voice_commands x; users := users x;
     pending_identity := pending_identity x; identity_requests := identity_requests x; invites := invites x;
     open_pair_global_allocations := open_pair_global_allocations x;
     open_pair_ip_allocations := open_pair_ip_allocations x; clients := clients x; pre_auth := pre_auth x;
     pending_controls := pending_controls x; pending_control_bytes := pending_control_bytes x;
     pending_control_total_bytes := pending_control_total_bytes x;
     write_queue_total_bytes := write_queue_total_bytes x; control_send_tokens := control_send_tokens x;
     control_send_set := control_send_set x; sessions := sessions x; reserved_media_routes := v;
     peer_links := peer_links x; rooms := rooms x; streams := streams x; video_fanouts := video_fanouts x;
     video_fanout_bytes := video_fanout_bytes x; next_token := next_token x; next_session := next_session x;
     next_stream := next_stream x; next_connection_id := next_connection_id x;
     next_file_transfer := next_file_transfer x; active_uploads := active_uploads x;
     active_bug_reports := active_bug_reports x; pending_bug_reports := pending_bug_reports x;
     bug_report_requests := bug_report_requests x; reserved_file_names := reserved_file_names x; store := store x;
     mls_groups := mls_groups x; rng_draws := rng_draws x; next_media_sweep_at := next_media_sweep_at x;
     next_rtt_snapshot_at := next_rtt_snapshot_at x; next_idle_sweep_at := next_idle_sweep_at x;
     next_share_sweep_at := next_share_sweep_at x; client_writes := client_writes x;
     client_write_set := client_write_set x; client_reads := client_reads x; client_read_set := client_read_set x |}.

Definition set_peer_links (v : gmap (Z * Z) PeerLink) (x : Server) : Server :=
  {| config := config x; usernames := usernames x; deferred_identity_controls := deferred_identity_controls x;
     deferred_identity_tokens := deferred_identity_tokens x; voice_commands := voice_commands x; users := users x;
     pending_identity := pending_identity x; identity_requests := identity_requests x; invites := invites x;
     open_pair_global_allocations := open_pair_global_allocations x;
     open_pair_ip_allocations := open_pair_ip_allocations x; clients := clients x; pre_auth := pre_auth x;
     pending_controls := pending_controls x; pending_control_bytes := pending_control_bytes x;
     pending_control_total_bytes := pending_control_total_bytes x;
     write_queue_total_bytes := write_queue_total_bytes x; control_send_tokens := control_send_tokens x;
     control_send_set := control_send_set x; sessions := sessions x;
     reserved_media_routes := reserved_media_routes x; peer_links := v; rooms := rooms x; streams := streams x;
     video_fanouts := video_fanouts x; video_fanout_bytes := video_fanout_bytes x; next_token := next_token x;
     next_session := next_session x; next_stream := next_stream x; next_connection_id := next_connection_id x;
     next_file_transfer := next_file_transfer x; active_uploads := active_uploads x;
     active_bug_reports := active_bug_reports x; pending_bug_reports := pending_bug_reports x;
     bug_report_requests := bug_report_requests x; reserved_file_names := reserved_file_names x; store := store x;
     mls_groups := mls_groups x; rng_draws := rng_draws x; next_media_sweep_at := next_media_sweep_at x;
     next_rtt_snapshot_at := next_rtt_snapshot_at x; next_idle_sweep_at := next_idle_sweep_at x;
     next_share_sweep_at := next_share_sweep_at x; client_writes := client_writes x;
     client_write_set := client_write_set x; client_reads := client_reads x; client_read_set := client_read_set x |}.

Definition set_rooms (v : gmap Z RoomState) (x : Server) : Server :=
  {| config := config x; usernames := usernames x; deferred_identity_controls := deferred_identity_controls x;
     deferred_identity_tokens := deferred_identity_tokens x; voice_commands := voice_commands x; users := users x;
     pending_identity := pending_identity x; identity_requests := identity_requests x; invites := invites x;
     open_pair_global_allocations := open_pair_global_allocations x;
     open_pair_ip_allocations := open_pair_ip_allocations x; clients := clients x; pre_auth := pre_auth x;
     pending_controls := pending_controls x; pending_control_bytes := pending_control_bytes x;
     pending_control_total_bytes := pending_control_total_bytes x;
     write_queue_total_bytes := write_queue_total_bytes x; control_send_tokens := control_send_tokens x;
     control_send_set := control_send_set x; sessions := sessions x;
     reserved_media_routes := reserved_media_routes x; peer_links := peer_links x; rooms := v; streams := streams x;
     video_fanouts := video_fanouts x; video_fanout_bytes := video_fanout_bytes x; next_token := next_token x;
     next_session := next_session x; next_stream := next_stream x; next_connection_id := next_connection_id x;
     next_file_transfer := next_file_transfer x; active_uploads := active_uploads x;
     active_bug_reports := active_bug_reports x; pending_bug_reports := pending_bug_reports x;
     bug_report_requests := bug_report_requests x; reserved_file_names := reserved_file_names x; store := store x;
     mls_groups := mls_groups x; rng_draws := rng_draws x; next_media_sweep_at := next_media_sweep_at x;
     next_rtt_snapshot_at := next_rtt_snapshot_at x; next_idle_sweep_at := next_idle_sweep_at x;
     next_share_sweep_at := next_share_sweep_at x; client_writes := client_writes x;
     client_write_set := client_write_set x; client_reads := client_reads x; client_read_set := client_read_set x |}.

Definition set_streams (v : gmap Z VideoStream) (x : Server) : Server :=
  {| config := config x; usernames := usernames x; deferred_identity_controls := deferred_identity_controls x;
     deferred_identity_tokens := deferred_identity_tokens x; voice_commands := voice_commands x; users := users x;
     pending_identity := pending_identity x; identity_requests := identity_requests x; invites := invites x;
     open_pair_global_allocations := open_pair_global_allocations x;
     open_pair_ip_allocations := open_pair_ip_allocations x; clients := clients x; pre_auth := pre_auth x;
     pending_controls := pending_controls x; pending_control_bytes := pending_control_bytes x;
     pending_control_total_bytes := pending_control_total_bytes x;
     write_queue_total_bytes := write_queue_total_bytes x; control_send_tokens := control_send_tokens x;
     control_send_set := control_send_set x; sessions := sessions x;
     reserved_media_routes := reserved_media_routes x; peer_links := peer_links x; rooms := rooms x; streams := v;
     video_fanouts := video_fanouts x; video_fanout_bytes := video_fanout_bytes x; next_token := next_token x;
     next_session := next_session x; next_stream := next_stream x; next_connection_id := next_connection_id x;
     next_file_transfer := next_file_transfer x; active_uploads := active_uploads x;
     active_bug_reports := active_bug_reports x; pending_bug_reports := pending_bug_reports x;
     bug_report_requests := bug_report_requests x; reserved_file_names := reserved_file_names x; store := store x;
     mls_groups := mls_groups x; rng_draws := rng_draws x; next_media_sweep_at := next_media_sweep_at x;
     next_rtt_snapshot_at := next_rtt_snapshot_at x; next_idle_sweep_at := next_idle_sweep_at x;
     next_share_sweep_at := next_share_sweep_at x; client_writes := client_writes x;
     client_write_set := client_write_set x; client_reads := client_reads x; client_read_set := client_read_set x |}.

Definition set_video_fanouts (v : list VideoFanout) (x : Server) : Server :=
  {| config := config x; usernames := usernames x; deferred_identity_controls := deferred_identity_controls x;
     deferred_identity_tokens := deferred_identity_tokens x; voice_commands := voice_commands x; users := users x;
     pending_identity := pending_identity x; identity_requests := identity_requests x; invites := invites x;
     open_pair_global_allocations := open_pair_global_allocations x;
     open_pair_ip_allocations := open_pair_ip_allocations x; clients := clients x; pre_auth := pre_auth x;
     pending_controls := pending_controls x; pending_control_bytes := pending_control_bytes x;
     pending_control_total_bytes := pending_control_total_bytes x;
     write_queue_total_bytes := write_queue_total_bytes x; control_send_tokens := control_send_tokens x;
     control_send_set := control_send_set x; sessions := sessions x;
     reserved_media_routes := reserved_media_routes x; peer_links := peer_links x; rooms := rooms x;
     streams := streams x; video_fanouts := v; video_fanout_bytes := video_fanout_bytes x;
     next_token := next_token x; next_session := next_session x; next_stream := next_stream x;
     next_connection_id := next_connection_id x; next_file_transfer := next_file_transfer x;
     active_uploads := active_uploads x; active_bug_reports := active_bug_reports x;
     pending_bug_reports := pending_bug_reports x; bug_report_requests := bug_report_requests x;
     reserved_file_names := reserved_file_names x; store := store x; mls_groups := mls_groups x;
     rng_draws := rng_draws x; next_media_sweep_at := next_media_sweep_at x;
     next_rtt_snapshot_at := next_rtt_snapshot_at x; next_idle_sweep_at := next_idle_sweep_at x;
     next_share_sweep_at := next_share_sweep_at x; client_writes := client_writes x;
     client_write_set := client_write_set x; client_reads := client_reads x; client_read_set := client_read_set x |}.

Definition set_video_fanout_bytes (v : Z) (x : Server) : Server :=
  {| config := config x; usernames := usernames x; deferred_identity_controls := deferred_identity_controls x;
     deferred_identity_tokens := deferred_identity_tokens x; voice_commands := voice_commands x; users := users x;
     pending_identity := pending_identity x; identity_requests := identity_requests x; invites := invites x;
     open_pair_global_allocations := open_pair_global_allocations x;
     open_pair_ip_allocations := open_pair_ip_allocations x; clients := clients x; pre_auth := pre_auth x;
     pending_controls := pending_controls x; pending_control_bytes := pending_control_bytes x;
     pending_control_total_bytes := pending_control_total_bytes x;
     write_queue_total_bytes := write_queue_total_bytes x; control_send_tokens := control_send_tokens x;
     control_send_set := control_send_set x; sessions := sessions x;
     reserved_media_routes := reserved_media_routes x; peer_links := peer_links x; rooms := rooms x;
     streams := streams x; video_fanouts := video_fanouts x; video_fanout_bytes := v; next_token := next_token x;
     next_session := next_session x; next_stream := next_stream x; next_connection_id := next_connection_id x;
     next_file_transfer := next_file_transfer x; active_uploads := active_uploads x;
     active_bug_reports := active_bug_reports x; pending_bug_reports := pending_bug_reports x;
     bug_report_requests := bug_report_requests x; reserved_file_names := reserved_file_names x; store := store x;
     mls_groups := mls_groups x; rng_draws := rng_draws x; next_media_sweep_at := next_media_sweep_at x;
     next_rtt_snapshot_at := next_rtt_snapshot_at x; next_idle_sweep_at := next_idle_sweep_at x;
     next_share_sweep_at := next_share_sweep_at x; client_writes := client_writes x;
     client_write_set := client_write_set x; client_reads := client_reads x; client_read_set := client_read_set x |}.

Definition set_next_token (v : Z) (x : Server) : Server :=
  {| config := config x; usernames := usernames x; deferred_identity_controls := deferred_identity_controls x;
     deferred_identity_tokens := deferred_identity_tokens x; voice_commands := voice_commands x; users := users x;
     pending_identity := pending_identity x; identity_requests := identity_requests x; invites := invites x;
     open_pair_global_allocations := open_pair_global_allocations x;
     open_pair_ip_allocations := open_pair_ip_allocations x; clients := clients x; pre_auth := pre_auth x;
     pending_controls := pending_controls x; pending_control_bytes := pending_control_bytes x;
     pending_control_total_bytes := pending_control_total_bytes x;
     write_queue_total_bytes := write_queue_total_bytes x; control_send_tokens := control_send_tokens x;
     control_send_set := control_send_set x; sessions := sessions x;
     reserved_media_routes := reserved_media_routes x; peer_links := peer_links x; rooms := rooms x;
     streams := streams x; video_fanouts := video_fanouts x; video_fanout_bytes := video_fanout_bytes x;
     next_token := v; next_session := next_session x; next_stream := next_stream x;
     next_connection_id := next_connection_id x; next_file_transfer := next_file_transfer x;
     active_uploads := active_uploads x; active_bug_reports := active_bug_reports x;
     pending_bug_reports := pending_bug_reports x; bug_report_requests := bug_report_requests x;
     reserved_file_names := reserved_file_names x; store := store x; mls_groups := mls_groups x;
     rng_draws := rng_draws x; next_media_sweep_at := next_media_sweep_at x;
     next_rtt_snapshot_at := next_rtt_snapshot_at x; next_idle_sweep_at := next_idle_sweep_at x;
     next_share_sweep_at := next_share_sweep_at x; client_writes := client_writes x;
     client_write_set := client_write_set x; client_reads := client_reads x; client_read_set := client_read_set x |}.

Definition set_next_session (v : Z) (x : Server) : Server :=
  {| config := config x; usernames := usernames x; deferred_identity_controls := deferred_identity_controls x;
     deferred_identity_tokens := deferred_identity_tokens x; voice_commands := voice_commands x; users := users x;
     pending_identity := pending_identity x; identity_requests := identity_requests x; invites := invites x;
     open_pair_global_allocations := open_pair_global_allocations x;
     open_pair_ip_allocations := open_pair_ip_allocations x; clients := clients x; pre_auth := pre_auth x;
     pending_controls := pending_controls x; pending_control_bytes := pending_control_bytes x;
     pending_control_total_bytes := pending_control_total_bytes x;
     write_queue_total_bytes := write_queue_total_bytes x; control_send_tokens := control_send_tokens x;
     control_send_set := control_send_set x; sessions := sessions x;
     reserved_media_routes := reserved_media_routes x; peer_links := peer_links x; rooms := rooms x;
     streams := streams x; video_fanouts := video_fanouts x; video_fanout_bytes := video_fanout_bytes x;
     next_token := next_token x; next_session := v; next_stream := next_stream x;
     next_connection_id := next_connection_id x; next_file_transfer := next_file_transfer x;
     active_uploads := active_uploads x; active_bug_reports := active_bug_reports x;
     pending_bug_reports := pending_bug_reports x; bug_report_requests := bug_report_requests x;
     reserved_file_names := reserved_file_names x; store := store x; mls_groups := mls_groups x;
     rng_draws := rng_draws x; next_media_sweep_at := next_media_sweep_at x;
     next_rtt_snapshot_at := next_rtt_snapshot_at x; next_idle_sweep_at := next_idle_sweep_at x;
     next_share_sweep_at := next_share_sweep_at x; client_writes := client_writes x;
     client_write_set := client_write_set x; client_reads := client_reads x; client_read_set := client_read_set x |}.

Definition set_next_stream (v : Z) (x : Server) : Server :=
  {| config := config x; usernames := usernames x; deferred_identity_controls := deferred_identity_controls x;
     deferred_identity_tokens := deferred_identity_tokens x; voice_commands := voice_commands x; users := users x;
     pending_identity := pending_identity x; identity_requests := identity_requests x; invites := invites x;
     open_pair_global_allocations := open_pair_global_allocations x;
     open_pair_ip_allocations := open_pair_ip_allocations x; clients := clients x; pre_auth := pre_auth x;
     pending_controls := pending_controls x; pending_control_bytes := pending_control_bytes x;
     pending_control_total_bytes := pending_control_total_bytes x;
     write_queue_total_bytes := write_queue_total_bytes x; control_send_tokens := control_send_tokens x;
     control_send_set := control_send_set x; sessions := sessions x;
     reserved_media_routes := reserved_media_routes x; peer_links := peer_links x; rooms := rooms x;
     streams := streams x; video_fanouts := video_fanouts x; video_fanout_bytes := video_fanout_bytes x;
     next_token := next_token x; next_session := next_session x; next_stream := v;
     next_connection_id := next_connection_id x; next_file_transfer := next_file_transfer x;
     active_uploads := active_uploads x; active_bug_reports := active_bug_reports x;
     pending_bug_reports := pending_bug_reports x; bug_report_requests := bug_report_requests x;
     reserved_file_names := reserved_file_names x; store := store x; mls_groups := mls_groups x;
     rng_draws := rng_draws x; next_media_sweep_at := next_media_sweep_at x;
     next_rtt_snapshot_at := next_rtt_snapshot_at x; next_idle_sweep_at := next_idle_sweep_at x;
     next_share_sweep_at := next_share_sweep_at x; client_writes := client_writes x;
     client_write_set := client_write_set x; client_reads := client_reads x; client_read_set := client_read_set x |}.

Definition set_next_connection_id (v : Z) (x : Server) : Server :=
  {| config := config x; usernames := usernames x; deferred_identity_controls := deferred_identity_controls x;
     deferred_identity_tokens := deferred_identity_tokens x; voice_commands := voice_commands x; users := users x;
     pending_identity := pending_identity x; identity_requests := identity_requests x; invites := invites x;
     open_pair_global_allocations := open_pair_global_allocations x;
     open_pair_ip_allocations := open_pair_ip_allocations x; clients := clients x; pre_auth := pre_auth x;
     pending_controls := pending_controls x; pending_control_bytes := pending_control_bytes x;
     pending_control_total_bytes := pending_control_total_bytes x;
     write_queue_total_bytes := write_queue_total_bytes x; control_send_tokens := control_send_tokens x;
     control_send_set := control_send_set x; sessions := sessions x;
     reserved_media_routes := reserved_media_routes x; peer_links := peer_links x; rooms := rooms x;
     streams := streams x; video_fanouts := video_fanouts x; video_fanout_bytes := video_fanout_bytes x;
     next_token := next_token x; next_session := next_session x; next_stream := next_stream x;
     next_connection_id := v; next_file_transfer := next_file_transfer x; active_uploads := active_uploads x;
     active_bug_reports := active_bug_reports x; pending_bug_reports := pending_bug_reports x;
     bug_report_requests := bug_report_requests x; reserved_file_names := reserved_file_names x; store := store x;
     mls_groups := mls_groups x; rng_draws := rng_draws x; next_media_sweep_at := next_media_sweep_at x;
     next_rtt_snapshot_at := next_rtt_snapshot_at x; next_idle_sweep_at := next_idle_sweep_at x;
     next_share_sweep_at := next_share_sweep_at x; client_writes := client_writes x;
     client_write_set := client_write_set x; client_reads := client_reads x; client_read_set := client_read_set x |}.

Definition set_next_file_transfer (v : Z) (x : Server) : Server :=
  {| config := config x; usernames := usernames x; deferred_identity_controls := deferred_identity_controls x;
     deferred_identity_tokens := deferred_identity_tokens x; voice_commands := voice_commands x; users := users x;
     pending_identity := pending_identity x; identity_requests := identity_requests x; invites := invites x;
     open_pair_global_allocations := open_pair_global_allocations x;
     open_pair_ip_allocations := open_pair_ip_allocations x; clients := clients x; pre_auth := pre_auth x;
     pending_controls := pending_controls x; pending_control_bytes := pending_control_bytes x;
     pending_control_total_bytes := pending_control_total_bytes x;
     write_queue_total_bytes := write_queue_total_bytes x; control_send_tokens := control_send_tokens x;
     control_send_set := control_send_set x; sessions := sessions x;
     reserved_media_routes := reserved_media_routes x; peer_links := peer_links x; rooms := rooms x;
     streams := streams x; video_fanouts := video_fanouts x; video_fanout_bytes := video_fanout_bytes x;
     next_token := next_token x; next_session := next_session x; next_stream := next_stream x;
     next_connection_id := next_connection_id x; next_file_transfer := v; active_uploads := active_uploads x;
     active_bug_reports := active_bug_reports x; pending_bug_reports := pending_bug_reports x;
     bug_report_requests := bug_report_requests x; reserved_file_names := reserved_file_names x; store := store x;
     mls_groups := mls_groups x; rng_draws := rng_draws x; next_media_sweep_at := next_media_sweep_at x;
     next_rtt_snapshot_at := next_rtt_snapshot_at x; next_idle_sweep_at := next_idle_sweep_at x;
     next_share_sweep_at := next_share_sweep_at x; client_writes := client_writes x;
     client_write_set := client_write_set x; client_reads := client_reads x; client_read_set := client_read_set x |}.

Definition set_active_uploads (v : gmap (Z * Z) ServerUpload) (x : Server) : Server :=
  {| config := config x; usernames := usernames x; deferred_identity_controls := deferred_identity_controls x;
     deferred_identity_tokens := deferred_identity_tokens x; voice_commands := voice_commands x; users := users x;
     pending_identity := pending_identity x; identity_requests := identity_requests x; invites := invites x;
     open_pair_global_allocations := open_pair_global_allocations x;
     open_pair_ip_allocations := open_pair_ip_allocations x; clients := clients x; pre_auth := pre_auth x;
     pending_controls := pending_controls x; pending_control_bytes := pending_control_bytes x;
     pending_control_total_bytes := pending_control_total_bytes x;
     write_queue_total_bytes := write_queue_total_bytes x; control_send_tokens := control_send_tokens x;
     control_send_set := control_send_set x; sessions := sessions x;
     reserved_media_routes := reserved_media_routes x; peer_links := peer_links x; rooms := rooms x;
     streams := streams x; video_fanouts := video_fanouts x; video_fanout_bytes := video_fanout_bytes x;
     next_token := next_token x; next_session := next_session x; next_stream := next_stream x;
     next_connection_id := next_connection_id x; next_file_transfer := next_file_transfer x; active_uploads := v;
     active_bug_reports := active_bug_reports x; pending_bug_reports := pending_bug_reports x;
     bug_report_requests := bug_report_requests x; reserved_file_names := reserved_file_names x; store := store x;
     mls_groups := mls_groups x; rng_draws := rng_draws x; next_media_sweep_at := next_media_sweep_at x;
     next_rtt_snapshot_at := next_rtt_snapshot_at x; next_idle_sweep_at := next_idle_sweep_at x;
     next_share_sweep_at := next_share_sweep_at x; client_writes := client_writes x;
     client_write_set := client_write_set x; client_reads := client_reads x; client_read_set := client_read_set x |}.

Definition set_active_bug_reports (v : gmap (Z * Z) ServerBugReport) (x : Server) : Server :=
  {| config := config x; usernames := usernames x; deferred_identity_controls := deferred_identity_controls x;
     deferred_identity_tokens := deferred_identity_tokens x; voice_commands := voice_commands x; users := users x;
     pending_identity := pending_identity x; identity_requests := identity_requests x; invites := invites x;
     open_pair_global_allocations := open_pair_global_allocations x;
     open_pair_ip_allocations := open_pair_ip_allocations x; clients := clients x; pre_auth := pre_auth x;
     pending_controls := pending_controls x; pending_control_bytes := pending_control_bytes x;
     pending_control_total_bytes := pending_control_total_bytes x;
     write_queue_total_bytes := write_queue_total_bytes x; control_send_tokens := control_send_tokens x;
     control_send_set := control_send_set x; sessions := sessions x;
     reserved_media_routes := reserved_media_routes x; peer_links := peer_links x; rooms := rooms x;
     streams := streams x; video_fanouts := video_fanouts x; video_fanout_bytes := video_fanout_bytes x;
     next_token := next_token x; next_session := next_session x; next_stream := next_stream x;
     next_connection_id := next_connection_id x; next_file_transfer := next_file_transfer x;
     active_uploads := active_uploads x; active_bug_reports := v; pending_bug_reports := pending_bug_reports x;
     bug_report_requests := bug_report_requests x; reserved_file_names := reserved_file_names x; store := store x;
     mls_groups := mls_groups x; rng_draws := rng_draws x; next_media_sweep_at := next_media_sweep_at x;
     next_rtt_snapshot_at := next_rtt_snapshot_at x; next_idle_sweep_at := next_idle_sweep_at x;
     next_share_sweep_at := next_share_sweep_at x; client_writes := client_writes x;
     client_write_set := client_write_set x; client_reads := client_reads x; client_read_set := client_read_set x |}.

Definition set_pending_bug_reports (v : gset (Z * Z)) (x : Server) : Server :=
  {| config := config x; usernames := usernames x; deferred_identity_controls := deferred_identity_controls x;
     deferred_identity_tokens := deferred_identity_tokens x; voice_commands := voice_commands x; users := users x;
     pending_identity := pending_identity x; identity_requests := identity_requests x; invites := invites x;
     open_pair_global_allocations := open_pair_global_allocations x;
     open_pair_ip_allocations := open_pair_ip_allocations x; clients := clients x; pre_auth := pre_auth x;
     pending_controls := pending_controls x; pending_control_bytes := pending_control_bytes x;
     pending_control_total_bytes := pending_control_total_bytes x;
     write_queue_total_bytes := write_queue_total_bytes x; control_send_tokens := control_send_tokens x;
     control_send_set := control_send_set x; sessions := sessions x;
     reserved_media_routes := reserved_media_routes x; peer_links := peer_links x; rooms := rooms x;
     streams := streams x; video_fanouts := video_fanouts x; video_fanout_bytes := video_fanout_bytes x;
     next_token := next_token x; next_session := next_session x; next_stream := next_stream x;
     next_connection_id := next_connection_id x; next_file_transfer := next_file_transfer x;
     active_uploads := active_uploads x; active_bug_reports := active_bug_reports x; pending_bug_reports := v;
     bug_report_requests := bug_report_requests x; reserved_file_names := reserved_file_names x; store := store x;
     mls_groups := mls_groups x; rng_draws := rng_draws x; next_media_sweep_at := next_media_sweep_at x;
     next_rtt_snapshot_at := next_rtt_snapshot_at x; next_idle_sweep_at := next_idle_sweep_at x;
     next_share_sweep_at := next_share_sweep_at x; client_writes := client_writes x;
     client_write_set := client_write_set x; client_reads := client_reads x; client_read_set := client_read_set x |}.

Definition set_bug_report_requests (v : list (Z * Z * ServerBugReport)) (x : Server) : Server :=
  {| config := config x; usernames := usernames x; deferred_identity_controls := deferred_identity_controls x;
     deferred_identity_tokens := deferred_identity_tokens x; voice_commands := voice_commands x; users := users x;
     pending_identity := pending_identity x; identity_requests := identity_requests x; invites := invites x;
     open_pair_global_allocations := open_pair_global_allocations x;
     open_pair_ip_allocations := open_pair_ip_allocations x; clients := clients x; pre_auth := pre_auth x;
     pending_controls := pending_controls x; pending_control_bytes := pending_control_bytes x;
     pending_control_total_bytes := pending_control_total_bytes x;
     write_queue_total_bytes := write_queue_total_bytes x; control_send_tokens := control_send_tokens x;
     control_send_set := control_send_set x; sessions := sessions x;
     reserved_media_routes := reserved_media_routes x; peer_links := peer_links x; rooms := rooms x;
     streams := streams x; video_fanouts := video_fanouts x; video_fanout_bytes := video_fanout_bytes x;
     next_token := next_token x; next_session := next_session x; next_stream := next_stream x;
     next_connection_id := next_connection_id x; next_file_transfer := next_file_transfer x;
     active_uploads := active_uploads x; active_bug_reports := active_bug_reports x;
     pending_bug_reports := pending_bug_reports x; bug_report_requests := v;
     reserved_file_names := reserved_file_names x; store := store x; mls_groups := mls_groups x;
     rng_draws := rng_draws x; next_media_sweep_at := next_media_sweep_at x;
     next_rtt_snapshot_at := next_rtt_snapshot_at x; next_idle_sweep_at := next_idle_sweep_at x;
     next_share_sweep_at := next_share_sweep_at x; client_writes := client_writes x;
     client_write_set := client_write_set x; client_reads := client_reads x; client_read_set := client_read_set x |}.

Definition set_reserved_file_names (v : gset bytes) (x : Server) : Server :=
  {| config := config x; usernames := usernames x; deferred_identity_controls := deferred_identity_controls x;
     deferred_identity_tokens := deferred_identity_tokens x; voice_commands := voice_commands x; users := users x;
     pending_identity := pending_identity x; identity_requests := identity_requests x; invites := invites x;
     open_pair_global_allocations := open_pair_global_allocations x;
     open_pair_ip_allocations := open_pair_ip_allocations x; clients := clients x; pre_auth := pre_auth x;
     pending_controls := pending_controls x; pending_control_bytes := pending_control_bytes x;
     pending_control_total_bytes := pending_control_total_bytes x;
     write_queue_total_bytes := write_queue_total_bytes x; control_send_tokens := control_send_tokens x;
     control_send_set := control_send_set x; sessions := sessions x;
     reserved_media_routes := reserved_media_routes x; peer_links := peer_links x; rooms := rooms x;
     streams := streams x; video_fanouts := video_fanouts x; video_fanout_bytes := video_fanout_bytes x;
     next_token := next_token x; next_session := next_session x; next_stream := next_stream x;
     next_connection_id := next_connection_id x; next_file_transfer := next_file_transfer x;
     active_uploads := active_uploads x; active_bug_reports := active_bug_reports x;
     pending_bug_reports := pending_bug_reports x; bug_report_requests := bug_report_requests x;
     reserved_file_names := v; store := store x; mls_groups := mls_groups x; rng_draws := rng_draws x;
     next_media_sweep_at := next_media_sweep_at x; next_rtt_snapshot_at := next_rtt_snapshot_at x;
     next_idle_sweep_at := next_idle_sweep_at x; next_share_sweep_at := next_share_sweep_at x;
     client_writes := client_writes x; client_write_set := client_write_set x; client_reads := client_reads x;
     client_read_set := client_read_set x |}.

Definition set_store (v : St) (x : Server) : Server :=
  {| config := config x; usernames := usernames x; deferred_identity_controls := deferred_identity_controls x;
     deferred_identity_tokens := deferred_identity_tokens x; voice_commands := voice_commands x; users := users x;
     pending_identity := pending_identity x; identity_requests := identity_requests x; invites := invites x;
     open_pair_global_allocations := open_pair_global_allocations x;
     open_pair_ip_allocations := open_pair_ip_allocations x; clients := clients x; pre_auth := pre_auth x;
     pending_controls := pending_controls x; pending_control_bytes := pending_control_bytes x;
     pending_control_total_bytes := pending_control_total_bytes x;
     write_queue_total_bytes := write_queue_total_bytes x; control_send_tokens := control_send_tokens x;
     control_send_set := control_send_set x; sessions := sessions x;
     reserved_media_routes := reserved_media_routes x; peer_links := peer_links x; rooms := rooms x;
     streams := streams x; video_fanouts := video_fanouts x; video_fanout_bytes := video_fanout_bytes x;
     next_token := next_token x; next_session := next_session x; next_stream := next_stream x;
     next_connection_id := next_connection_id x; next_file_transfer := next_file_transfer x;
     active_uploads := active_uploads x; active_bug_reports := active_bug_reports x;
     pending_bug_reports := pending_bug_reports x; bug_report_requests := bug_report_requests x;
     reserved_file_names := reserved_file_names x; store := v; mls_groups := mls_groups x; rng_draws := rng_draws x;
     next_media_sweep_at := next_media_sweep_at x; next_rtt_snapshot_at := next_rtt_snapshot_at x;
     next_idle_sweep_at := next_idle_sweep_at x; next_share_sweep_at := next_share_sweep_at x;
     client_writes := client_writes x; client_write_set := client_write_set x; client_reads := client_reads x;
     client_read_set := client_read_set x |}.

Definition set_mls_groups (v : gset Z) (x : Server) : Server :=
  {| config := config x; usernames := usernames x; deferred_identity_controls := deferred_identity_controls x;
     deferred_identity_tokens := deferred_identity_tokens x; voice_commands := voice_commands x; users := users x;
     pending_identity := pending_identity x; identity_requests := identity_requests x; invites := invites x;
     open_pair_global_allocations := open_pair_global_allocations x;
     open_pair_ip_allocations := open_pair_ip_allocations x; clients := clients x; pre_auth := pre_auth x;
     pending_controls := pending_controls x; pending_control_bytes := pending_control_bytes x;
     pending_control_total_bytes := pending_control_total_bytes x;
     write_queue_total_bytes := write_queue_total_bytes x; control_send_tokens := control_send_tokens x;
     control_send_set := control_send_set x; sessions := sessions x;
     reserved_media_routes := reserved_media_routes x; peer_links := peer_links x; rooms := rooms x;
     streams := streams x; video_fanouts := video_fanouts x; video_fanout_bytes := video_fanout_bytes x;
     next_token := next_token x; next_session := next_session x; next_stream := next_stream x;
     next_connection_id := next_connection_id x; next_file_transfer := next_file_transfer x;
     active_uploads := active_uploads x; active_bug_reports := active_bug_reports x;
     pending_bug_reports := pending_bug_reports x; bug_report_requests := bug_report_requests x;
     reserved_file_names := reserved_file_names x; store := store x; mls_groups := v; rng_draws := rng_draws x;
     next_media_sweep_at := next_media_sweep_at x; next_rtt_snapshot_at := next_rtt_snapshot_at x;
     next_idle_sweep_at := next_idle_sweep_at x; next_share_sweep_at := next_share_sweep_at x;
     client_writes := client_writes x; client_write_set := client_write_set x; client_reads := client_reads x;
     client_read_set := client_read_set x |}.

Definition set_rng_draws (v : nat) (x : Server) : Server :=
  {| config := config x; usernames := usernames x; deferred_identity_controls := deferred_identity_controls x;
     deferred_identity_tokens := deferred_identity_tokens x; voice_commands := voice_commands x; users := users x;
     pending_identity := pending_identity x; identity_requests := identity_requests x; invites := invites x;
     open_pair_global_allocations := open_pair_global_allocations x;
     open_pair_ip_allocations := open_pair_ip_allocations x; clients := clients x; pre_auth := pre_auth x;
     pending_controls := pending_controls x; pending_control_bytes := pending_control_bytes x;
     pending_control_total_bytes := pending_control_total_bytes x;
     write_queue_total_bytes := write_queue_total_bytes x; control_send_tokens := control_send_tokens x;
     control_send_set := control_send_set x; sessions := sessions x;
     reserved_media_routes := reserved_media_routes x; peer_links := peer_links x; rooms := rooms x;
     streams := streams x; video_fanouts := video_fanouts x; video_fanout_bytes := video_fanout_bytes x;
     next_token := next_token x; next_session := next_session x; next_stream := next_stream x;
     next_connection_id := next_connection_id x; next_file_transfer := next_file_transfer x;
     active_uploads := active_uploads x; active_bug_reports := active_bug_reports x;
     pending_bug_reports := pending_bug_reports x; bug_report_requests := bug_report_requests x;
     reserved_file_names := reserved_file_names x; store := store x; mls_groups := mls_groups x; rng_draws := v;
     next_media_sweep_at := next_media_sweep_at x; next_rtt_snapshot_at := next_rtt_snapshot_at x;
     next_idle_sweep_at := next_idle_sweep_at x; next_share_sweep_at := next_share_sweep_at x;
     client_writes := client_writes x; client_write_set := client_write_set x; client_reads := client_reads x;
     client_read_set := client_read_set x |}.

Definition set_next_media_sweep_at (v : option Z) (x : Server) : Server :=
  {| config := config x; usernames := usernames x; deferred_identity_controls := deferred_identity_controls x;
     deferred_identity_tokens := deferred_identity_tokens x; voice_commands := voice_commands x; users := users x;
     pending_identity := pending_identity x; identity_requests := identity_requests x; invites := invites x;
     open_pair_global_allocations := open_pair_global_allocations x;
     open_pair_ip_allocations := open_pair_ip_allocations x; clients := clients x; pre_auth := pre_auth x;
     pending_controls := pending_controls x; pending_control_bytes := pending_control_bytes x;
     pending_control_total_bytes := pending_control_total_bytes x;
     write_queue_total_bytes := write_queue_total_bytes x; control_send_tokens := control_send_tokens x;
     control_send_set := control_send_set x; sessions := sessions x;
     reserved_media_routes := reserved_media_routes x; peer_links := peer_links x; rooms := rooms x;
     streams := streams x; video_fanouts := video_fanouts x; video_fanout_bytes := video_fanout_bytes x;
     next_token := next_token x; next_session := next_session x; next_stream := next_stream x;
     next_connection_id := next_connection_id x; next_file_transfer := next_file_transfer x;
     active_uploads := active_uploads x; active_bug_reports := active_bug_reports x;
     pending_bug_reports := pending_bug_reports x; bug_report_requests := bug_report_requests x;
     reserved_file_names := reserved_file_names x; store := store x; mls_groups := mls_groups x;
     rng_draws := rng_draws x; next_media_sweep_at := v; next_rtt_snapshot_at := next_rtt_snapshot_at x;
     next_idle_sweep_at := next_idle_sweep_at x; next_share_sweep_at := next_share_sweep_at x;
     client_writes := client_writes x; client_write_set := client_write_set x; client_reads := client_reads x;
     client_read_set := client_read_set x |}.

Definition set_next_rtt_snapshot_at (v : Z) (x : Server) : Server :=
  {| config := config x; usernames := usernames x; deferred_identity_controls := deferred_identity_controls x;
     deferred_identity_tokens := deferred_identity_tokens x; voice_commands := voice_commands x; users := users x;
     pending_identity := pending_identity x; identity_requests := identity_requests x; invites := invites x;
     open_pair_global_allocations := open_pair_global_allocations x;
     open_pair_ip_allocations := open_pair_ip_allocations x; clients := clients x; pre_auth := pre_auth x;
     pending_controls := pending_controls x; pending_control_bytes := pending_control_bytes x;
     pending_control_total_bytes := pending_control_total_bytes x;
     write_queue_total_bytes := write_queue_total_bytes x; control_send_tokens := control_send_tokens x;
     control_send_set := control_send_set x; sessions := sessions x;
     reserved_media_routes := reserved_media_routes x; peer_links := peer_links x; rooms := rooms x;
     streams := streams x; video_fanouts := video_fanouts x; video_fanout_bytes := video_fanout_bytes x;
     next_token := next_token x; next_session := next_session x; next_stream := next_stream x;
     next_connection_id := next_connection_id x; next_file_transfer := next_file_transfer x;
     active_uploads := active_uploads x; active_bug_reports := active_bug_reports x;
     pending_bug_reports := pending_bug_reports x; bug_report_requests := bug_report_requests x;
     reserved_file_names := reserved_file_names x; store := store x; mls_groups := mls_groups x;
     rng_draws := rng_draws x; next_media_sweep_at := next_media_sweep_at x; next_rtt_snapshot_at := v;
     next_idle_sweep_at := next_idle_sweep_at x; next_share_sweep_at := next_share_sweep_at x;
     client_writes := client_writes x; client_write_set := client_write_set x; client_reads := client_reads x;
     client_read_set := client_read_set x |}.

Definition set_next_idle_sweep_at (v : Z) (x : Server) : Server :=
  {| config := config x; usernames := usernames x; deferred_identity_controls := deferred_identity_controls x;
     deferred_identity_tokens := deferred_identity_tokens x; voice_commands := voice_commands x; users := users x;
     pending_identity := pending_identity x; identity_requests := identity_requests x; invites := invites x;
     open_pair_global_allocations := open_pair_global_allocations x;
     open_pair_ip_allocations := open_pair_ip_allocations x; clients := clients x; pre_auth := pre_auth x;
     pending_controls := pending_controls x; pending_control_bytes := pending_control_bytes x;
     pending_control_total_bytes := pending_control_total_bytes x;
     write_queue_total_bytes := write_queue_total_bytes x; control_send_tokens := control_send_tokens x;
     control_send_set := control_send_set x; sessions := sessions x;
     reserved_media_routes := reserved_media_routes x; peer_links := peer_links x; rooms := rooms x;
     streams := streams x; video_fanouts := video_fanouts x; video_fanout_bytes := video_fanout_bytes x;
     next_token := next_token x; next_session := next_session x; next_stream := next_stream x;
     next_connection_id := next_connection_id x; next_file_transfer := next_file_transfer x;
     active_uploads := active_uploads x; active_bug_reports := active_bug_reports x;
     pending_bug_reports := pending_bug_reports x; bug_report_requests := bug_report_requests x;
     reserved_file_names := reserved_file_names x; store := store x; mls_groups := mls_groups x;
     rng_draws := rng_draws x; next_media_sweep_at := next_media_sweep_at x;
     next_rtt_snapshot_at := next_rtt_snapshot_at x; next_idle_sweep_at := v;
     next_share_sweep_at := next_share_sweep_at x; client_writes := client_writes x;
     client_write_set := client_write_set x; client_reads := client_reads x; client_read_set := client_read_set x |}.

Definition set_next_share_sweep_at (v : Z) (x : Server) : Server :=
  {| config := config x; usernames := usernames x; deferred_identity_controls := deferred_identity_controls x;
     deferred_identity_tokens := deferred_identity_tokens x; voice_commands := voice_commands x; users := users x;
     pending_identity := pending_identity x; identity_requests := identity_requests x; invites := invites x;
     open_pair_global_allocations := open_pair_global_allocations x;
     open_pair_ip_allocations := open_pair_ip_allocations x; clients := clients x; pre_auth := pre_auth x;
     pending_controls := pending_controls x; pending_control_bytes := pending_control_bytes x;
     pending_control_total_bytes := pending_control_total_bytes x;
     write_queue_total_bytes := write_queue_total_bytes x; control_send_tokens := control_send_tokens x;
     control_send_set := control_send_set x; sessions := sessions x;
     reserved_media_routes := reserved_media_routes x; peer_links := peer_links x; rooms := rooms x;
     streams := streams x; video_fanouts := video_fanouts x; video_fanout_bytes := video_fanout_bytes x;
     next_token := next_token x; next_session := next_session x; next_stream := next_stream x;
     next_connection_id := next_connection_id x; next_file_transfer := next_file_transfer x;
     active_uploads := active_uploads x; active_bug_reports := active_bug_reports x;
     pending_bug_reports := pending_bug_reports x; bug_report_requests := bug_report_requests x;
     reserved_file_names := reserved_file_names x; store := store x; mls_groups := mls_groups x;
     rng_draws := rng_draws x; next_media_sweep_at := next_media_sweep_at x;
     next_rtt_snapshot_at := next_rtt_snapshot_at x; next_idle_sweep_at := next_idle_sweep_at x;
     next_share_sweep_at := v; client_writes := client_writes x; client_write_set := client_write_set x;
     client_reads := client_reads x; client_read_set := client_read_set x |}.

Definition set_client_writes (v : list Z) (x : Server) : Server :=
  {| config := config x; usernames := usernames x; deferred_identity_controls := deferred_identity_controls x;
     deferred_identity_tokens := deferred_identity_tokens x; voice_commands := voice_commands x; users := users x;
     pending_identity := pending_identity x; identity_requests := identity_requests x; invites := invites x;
     open_pair_global_allocations := open_pair_global_allocations x;
     open_pair_ip_allocations := open_pair_ip_allocations x; clients := clients x; pre_auth := pre_auth x;
     pending_controls := pending_controls x; pending_control_bytes := pending_control_bytes x;
     pending_control_total_bytes := pending_control_total_bytes x;
     write_queue_total_bytes := write_queue_total_bytes x; control_send_tokens := control_send_tokens x;
     control_send_set := control_send_set x; sessions := sessions x;
     reserved_media_routes := reserved_media_routes x; peer_links := peer_links x; rooms := rooms x;
     streams := streams x; video_fanouts := video_fanouts x; video_fanout_bytes := video_fanout_bytes x;
     next_token := next_token x; next_session := next_session x; next_stream := next_stream x;
     next_connection_id := next_connection_id x; next_file_transfer := next_file_transfer x;
     active_uploads := active_uploads x; active_bug_reports := active_bug_reports x;
     pending_bug_reports := pending_bug_reports x; bug_report_requests := bug_report_requests x;
     reserved_file_names := reserved_file_names x; store := store x; mls_groups := mls_groups x;
     rng_draws := rng_draws x; next_media_sweep_at := next_media_sweep_at x;
     next_rtt_snapshot_at := next_rtt_snapshot_at x; next_idle_sweep_at := next_idle_sweep_at x;
     next_share_sweep_at := next_share_sweep_at x; client_writes := v; client_write_set := client_write_set x;
     client_reads := client_reads x; client_read_set := client_read_set x |}.

Definition set_client_write_set (v : gset Z) (x : Server) : Server :=
  {| config := config x; usernames := usernames x; deferred_identity_controls := deferred_identity_controls x;
     deferred_identity_tokens := deferred_identity_tokens x; voice_commands := voice_commands x; users := users x;
     pending_identity := pending_identity x; identity_requests := identity_requests x; invites := invites x;
     open_pair_global_allocations := open_pair_global_allocations x;
     open_pair_ip_allocations := open_pair_ip_allocations x; clients := clients x; pre_auth := pre_auth x;
     pending_controls := pending_controls x; pending_control_bytes := pending_control_bytes x;
     pending_control_total_bytes := pending_control_total_bytes x;
     write_queue_total_bytes := write_queue_total_bytes x; control_send_tokens := control_send_tokens x;
     control_send_set := control_send_set x; sessions := sessions x;
     reserved_media_routes := reserved_media_routes x; peer_links := peer_links x; rooms := rooms x;
     streams := streams x; video_fanouts := video_fanouts x; video_fanout_bytes := video_fanout_bytes x;
     next_token := next_token x; next_session := next_session x; next_stream := next_stream x;
     next_connection_id := next_connection_id x; next_file_transfer := next_file_transfer x;
     active_uploads := active_uploads x; active_bug_reports := active_bug_reports x;
     pending_bug_reports := pending_bug_reports x; bug_report_requests := bug_report_requests x;
     reserved_file_names := reserved_file_names x; store := store x; mls_groups := mls_groups x;
     rng_draws := rng_draws x; next_media_sweep_at := next_media_sweep_at x;
     next_rtt_snapshot_at := next_rtt_snapshot_at x; next_idle_sweep_at := next_idle_sweep_at x;
     next_share_sweep_at := next_share_sweep_at x; client_writes := client_writes x; client_write_set := v;
     client_reads := client_reads x; client_read_set := client_read_set x |}.

Definition set_client_reads (v : list Z) (x : Server) : Server :=
  {| config := config x; usernames := usernames x; deferred_identity_controls := deferred_identity_controls x;
     deferred_identity_tokens := deferred_identity_tokens x; voice_commands := voice_commands x; users := users x;
     pending_identity := pending_identity x; identity_requests := identity_requests x; invites := invites x;
     open_pair_global_allocations := open_pair_global_allocations x;
     open_pair_ip_allocations := open_pair_ip_allocations x; clients := clients x; pre_auth := pre_auth x;
     pending_controls := pending_controls x; pending_control_bytes := pending_control_bytes x;
     pending_control_total_bytes := pending_control_total_bytes x;
     write_queue_total_bytes := write_queue_total_bytes x; control_send_tokens := control_send_tokens x;
     control_send_set := control_send_set x; sessions := sessions x;
     reserved_media_routes := reserved_media_routes x; peer_links := peer_links x; rooms := rooms x;
     streams := streams x; video_fanouts := video_fanouts x; video_fanout_bytes := video_fanout_bytes x;
     next_token := next_token x; next_session := next_session x; next_stream := next_stream x;
     next_connection_id := next_connection_id x; next_file_transfer := next_file_transfer x;
     active_uploads := active_uploads x; active_bug_reports := active_bug_reports x;
     pending_bug_reports := pending_bug_reports x; bug_report_requests := bug_report_requests x;
     reserved_file_names := reserved_file_names x; store := store x; mls_groups := mls_groups x;
     rng_draws := rng_draws x; next_media_sweep_at := next_media_sweep_at x;
     next_rtt_snapshot_at := next_rtt_snapshot_at x; next_idle_sweep_at := next_idle_sweep_at x;
     next_share_sweep_at := next_share_sweep_at x; client_writes := client_writes x;
     client_write_set := client_write_set x; client_reads := v; client_read_set := client_read_set x |}.

Definition set_client_read_set (v : gset Z) (x : Server) : Server :=
  {| config := config x; usernames := usernames x; deferred_identity_controls := deferred_identity_controls x;
     deferred_identity_tokens := deferred_identity_tokens x; voice_commands := voice_commands x; users := users x;
     pending_identity := pending_identity x; identity_requests := identity_requests x; invites := invites x;
     open_pair_global_allocations := open_pair_global_allocations x;
     open_pair_ip_allocations := open_pair_ip_allocations x; clients := clients x; pre_auth := pre_auth x;
     pending_controls := pending_controls x; pending_control_bytes := pending_control_bytes x;
     pending_control_total_bytes := pending_control_total_bytes x;
     write_queue_total_bytes := write_queue_total_bytes x; control_send_tokens := control_send_tokens x;
     control_send_set := control_send_set x; sessions := sessions x;
     reserved_media_routes := reserved_media_routes x; peer_links := peer_links x; rooms := rooms x;
     streams := streams x; video_fanouts := video_fanouts x; video_fanout_bytes := video_fanout_bytes x;
     next_token := next_token x; next_session := next_session x; next_stream := next_stream x;
     next_connection_id := next_connection_id x; next_file_transfer := next_file_transfer x;
     active_uploads := active_uploads x; active_bug_reports := active_bug_reports x;
     pending_bug_reports := pending_bug_reports x; bug_report_requests := bug_report_requests x;
     reserved_file_names := reserved_file_names x; store := store x; mls_groups := mls_groups x;
     rng_draws := rng_draws x; next_media_sweep_at := next_media_sweep_at x;
     next_rtt_snapshot_at := next_rtt_snapshot_at x; next_idle_sweep_at := next_idle_sweep_at x;
     next_share_sweep_at := next_share_sweep_at x; client_writes := client_writes x;
     client_write_set := client_write_set x; client_reads := client_reads x; client_read_set := v |}.

End server.

Arguments ClientConn Rx Tx : clear implicits.
Arguments Server Rx Tx St : clear implicits.
