(* ===== verification/ServerCascade.v ===== *)
(** * Sending, and the teardown it can set off

    The part of [Server] of src/crates/server/src/lib.rs in which everything calls
    everything: queueing a control message to a connection disconnects one that is
    too far behind, a disconnect ends the session's uploads, shares and call, and
    each of these tells the others, by queueing control messages.  The operations
    are written against the [disconnect] they call ([disc]), and [disconnect_fuel]
    ties the knot; [disconnect] gives it one level more than there are
    connections, which is enough ([ServerInvariant]).

    Queued controls are kept as messages; [encode_server_control] is what they are
    on the wire. *)

From S2P Require Import Prelude Primitives Transport Handshake Media Frame Evented Video Net History Usernames VoiceRelay ServerState.

(** ** Sequencing *)

(** A [for] loop over a state. *)
Fixpoint each {S A : Type} (f : A -> S -> option S) (l : list A) (s : S) : option S :=
  match l with
  | [] => Some s
  | a :: l => s ← f a s; each f l s
  end.

(** [let _ = ...]: the outcome of a fallible operation is dropped. *)
Definition ignoring {S E A : Type} (m : option (S * result E A)) : option S := '(s, _) ← m; Some s.

Definition server_control_kind (c : ServerControl) : bytes :=
  ascii_bytes match c with
  | Authenticated _ _ _ _ _ _ => "authenticated"
  | OpenPaired _ _ _ _ _ _ => "open_paired"
  | DeviceLinked _ _ _ _ _ _ _ => "device_linked"
  | Chat _ => "chat"
  | ChatMutationRejected _ _ _ _ => "chat_mutation_rejected"
  | VoiceStarted _ _ _ _ _ => "voice_started"
  | VoiceStopped _ _ _ _ _ => "voice_stopped"
  | VoiceStateChanged _ _ _ => "voice_state"
  | VoiceJoinFailed _ _ => "voice_join_failed"
  | RoomRttSnapshot _ _ => "room_rtt_snapshot"
  | UdpBound => "udp_bound"
  | UdpReflexive _ => "udp_reflexive"
  | P2pNatProbe _ _ => "p2p_nat_probe"
  | P2pPeer _ => "p2p_peer"
  | P2pPeerGone _ _ => "p2p_peer_gone"
  | FileOffered _ _ => "file_offered"
  | UploadFileAccepted _ _ => "upload_file_accepted"
  | FileChunk _ _ _ => "file_chunk"
  | FileComplete _ => "file_complete"
  | FileCanceled _ _ => "file_canceled"
  | ShareStarted _ _ _ _ _ _ _ _ => "share_started"
  | ShareAvailable _ _ _ _ _ _ _ _ _ => "share_available"
  | ShareEnded _ _ => "share_ended"
  | ShareStartFailed _ _ => "share_start_failed"
  | Pong _ => "pong"
  | Error _ _ => "error"
  | RoomUpserted _ => "room_upserted"
  | DmOpened _ _ => "dm_opened"
  | Presence _ _ => "presence"
  | UploadDeclined _ _ => "upload_declined"
  | BugReportSaved _ => "bug_report_saved"
  end%string.

Section cascade.
Context {Rx Tx St : Type} `{HashOrder}.
Context (encode_server_control : ServerControl -> bytes).
(** [Instant::now]. *)
Context (now : Z).

Abbreviation server := (Server Rx Tx St).
Abbreviation client := (ClientConn Rx Tx).
Abbreviation outcome := (option (server * result bytes ())).

Definition submit_voice (c : VoiceCommand Rx Tx) (s : server) : server := set_voice_commands (voice_commands s ++ [c]) s.

Definition update_session (id : Z) (f : Session -> Session) (s : server) : server :=
  set_sessions (alter f id (sessions s)) s.

Definition live_token_for_session (s : server) (session_id : Z) : option Z :=
  x ← sessions s !! session_id;
  if decide (is_Some (clients s !! ss_tcp_token x)) then Some (ss_tcp_token x) else None.

Definition username_of (s : server) (user_id : Z) : bytes :=
  Utf8.encode (default [] (UsernameRegistry.username_for (usernames s) user_id)).

(** Sessions currently in the room's voice call. *)
Definition voice_member_sessions (s : server) (room_id : Z) : list Z :=
  match rooms s !! room_id with Some room => hash_values (rm_active_streams room) | None => [] end.

Definition accessible_recipient_tokens (s : server) (room_id : Z) (excluded_session : option Z) : list Z :=
  match rooms s !! room_id with
  | None => []
  | Some room =>
      filter (fun t => is_Some (clients s !! t))
        ((fun p => ss_tcp_token p.2) <$>
           filter (fun p => RoomAccess.allows (rm_access room) (ss_user_id p.2) = true)
             (filter (fun p => Some p.1 <> excluded_session) (hash_iter (sessions s))))
  end.

Definition remove_peer_links (session_id : Z) (s : server) : server :=
  set_peer_links (filter (fun p => p.1.1 <> session_id /\ p.1.2 <> session_id) (peer_links s)) s.

Definition purge_video_fanouts (stream_id : Z) (s : server) : server :=
  let released_bytes :=
    foldr (fun f n => saturating_add 64 (fo_charged_bytes f) n) 0
      (filter (fun f => fo_stream_id f = stream_id) (video_fanouts s)) in
  set_video_fanout_bytes (saturating_sub (video_fanout_bytes s) released_bytes)
    (set_video_fanouts (filter (fun f => fo_stream_id f <> stream_id) (video_fanouts s)) s).

(** [detach_video_conn], on the streams alone. *)
Definition detach_video_conn (stream_id : Z) (role : VideoRole) (token : Z) (s : server) : server :=
  match streams s !! stream_id with
  | None => s
  | Some stream =>
      match role with
      | Publisher =>
          if decide (VideoPublisherState.token (st_publisher stream) = Some token)
          then set_streams (<[stream_id := set_publisher (Detached now) stream]> (streams s)) s else s
      | Subscriber =>
          set_streams (<[stream_id := set_subscribers (filter (fun other => other <> token) (st_subscribers stream)) stream]>
                         (streams s)) s
      end
  end.

(** The state changes of a message that is accepted. *)
Definition schedule_control (token : Z) (c : ServerControl) (scheduled_bytes : Z) (s : server) : server :=
  let s := set_pending_control_bytes
             (<[token := default 0 (pending_control_bytes s !! token) + scheduled_bytes]> (pending_control_bytes s)) s in
  let s := set_pending_control_total_bytes (pending_control_total_bytes s + scheduled_bytes) s in
  let s := set_pending_controls (<[token := default [] (pending_controls s !! token) ++ [c]]> (pending_controls s)) s in
  if decide (token ∈ control_send_set s) then s
  else set_control_send_tokens (control_send_tokens s ++ [token]) (set_control_send_set ({[token]} ∪ control_send_set s) s).

(** What a connection has queued: sealed bytes and controls still to seal. *)
Definition write_len (c : client) : Z := Z.of_nat (WriteQueue.len (cc_write_buf c)).

(** ** Against a given [disconnect] *)

Section knot.
Context (disc : Z -> server -> option server).

Definition queue_shared_control_payload (token : Z) (c : ServerControl) (s : server) : outcome :=
  let n := length (encode_server_control c) in
  if decide (MAX_CONTROL_PAYLOAD_BYTES < Z.of_nat n)
  then Some (s, Err (server_control_kind c ++ ascii_bytes " exceeds control payload limit"))
  else
    match clients s !! token with
    | None => Some (s, Err (ascii_bytes "unknown client token"))
    | Some client =>
        match cc_control client with
        | None => Some (s, Err (ascii_bytes "missing control cipher"))
        | Some transport =>
            let sealed_len := Z.of_nat (RecordProtection.sealed_len transport n) in
            if decide (MAX_FRAME_LEN < sealed_len)
            then Some (s, Err (server_control_kind c ++ ascii_bytes " exceeds frame limit"))
            else
              let pending_bytes := default 0 (pending_control_bytes s !! token) in
              let scheduled_bytes := Z.of_nat LENGTH_PREFIX_LEN + sealed_len in
              let projected := saturating_add 64 (saturating_add 64 (write_len client) pending_bytes) scheduled_bytes in
              if decide (CONTROL_WRITE_HIGH_WATER < projected) then
                s ← disc token s; Some (s, Err (ascii_bytes "control write buffer overflow"))
              else if decide (OUTBOUND_GLOBAL_HIGH_WATER <
                     saturating_add 64 (saturating_add 64 (write_queue_total_bytes s) (pending_control_total_bytes s))
                       scheduled_bytes) then
                s ← disc token s; Some (s, Err (ascii_bytes "server control queue is full"))
              else Some (schedule_control token c scheduled_bytes s, Ok ())
        end
    end.

Definition send_control_to_token (token : Z) (c : ServerControl) (s : server) : outcome :=
  queue_shared_control_payload token c s.

(** [let _ = self.send_control_to_token(..)]. *)
Definition tell (token : Z) (c : ServerControl) (s : server) : option server := ignoring (send_control_to_token token c s).

Definition send_control_to_tokens (tokens : list Z) (c : ServerControl) (s : server) : option server :=
  each (fun token => ignoring ∘ queue_shared_control_payload token c) tokens s.

Definition broadcast_control_except (room_id : Z) (c : ServerControl) (excluded_session : option Z) (s : server)
    : option server :=
  send_control_to_tokens (accessible_recipient_tokens s room_id excluded_session) c s.

Definition broadcast_control (room_id : Z) (c : ServerControl) (s : server) : option server :=
  broadcast_control_except room_id c None s.

(** *** Shares *)

Definition end_share (stream_id : Z) (s : server) : option server :=
  match streams s !! stream_id with
  | None => Some s
  | Some stream =>
      let s := set_streams (delete stream_id (streams s)) s in
      let tokens := st_subscribers stream ++ option_list (VideoPublisherState.token (st_publisher stream)) in
      let s := purge_video_fanouts stream_id s in
      let recipients :=
        if st_announced stream
        then omap (live_token_for_session s) (voice_member_sessions s (st_room_id stream))
        else option_list (live_token_for_session s (st_owner_session stream)) in
      s ← send_control_to_tokens recipients (ShareEnded (st_room_id stream) stream_id) s;
      each disc tokens s
  end.

Definition end_shares_for_session (session_id : Z) (s : server) : option server :=
  each end_share (filter (fun p => st_owner_session p.2 = session_id) (hash_iter (streams s))).*1 s.

Definition is_subscriber_of (session_id : Z) (c : client) : Prop :=
  match cc_kind c with
  | VideoKind v => vc_session_id v = Some session_id /\ vc_role v = Some Subscriber
  | _ => False
  end.

#[export] Instance is_subscriber_of_dec session_id c : Decision (is_subscriber_of session_id c).
Proof.
  unfold is_subscriber_of. destruct (cc_kind c) as [| |v]; try apply _.
  apply and_dec; [apply _|]. destruct (vc_role v) as [[]|]; [right|left|right]; congruence.
Defined.

Definition revoke_share_access_for_session (session_id : Z) (s : server) : option server :=
  let s := set_streams ((fun v => set_view_secrets (delete session_id (st_view_secrets v)) v) <$> streams s) s in
  each disc (filter (fun p => is_subscriber_of session_id p.2) (hash_iter (clients s))).*1 s.

(** *** Calls *)

(** Whether a session of the user is still in the call. *)
Definition user_in_call (s : server) (room : RoomState) (user_id : Z) : Prop :=
  Exists (fun m => ss_user_id <$> sessions s !! m = Some user_id) (hash_values (rm_active_streams room)).

#[export] Instance user_in_call_dec s room user_id : Decision (user_in_call s room user_id).
Proof. unfold user_in_call. apply _. Defined.

Definition stop_voice (session_id : Z) (requested excluded_broadcast_session : option Z) (s : server) : option server :=
  match sessions s !! session_id with
  | None => Some s
  | Some session =>
      match ss_active_stream session with
      | None => Some s
      | Some stream_id =>
          if match requested with Some r => bool_decide (r <> stream_id) | None => false end then Some s
          else
            let s := set_sessions (<[session_id := set_active_stream None session]> (sessions s)) s in
            match ss_voice_room session with
            | None => Some s
            | Some room_id =>
                let s := submit_voice (SetRoute session_id None) s in
                let s := set_rooms (alter (fun r => set_active_streams (delete stream_id (rm_active_streams r)) r) room_id
                                      (rooms s)) s in
                let user_left :=
                  match rooms s !! room_id with
                  | None => true
                  | Some room => bool_decide (~ user_in_call s room (ss_user_id session))
                  end in
                broadcast_control_except room_id
                  (VoiceStopped room_id session_id (ss_user_id session) stream_id user_left) excluded_broadcast_session s
            end
      end
  end.

Definition broadcast_p2p_gone (session_id room_id : Z) (s : server) : option server :=
  if negb (cfg_p2p (config s)) then Some s
  else
    match sessions s !! session_id with
    | None => Some s
    | Some session =>
        let tokens := omap (live_token_for_session s)
                        (filter (fun member => member <> session_id) (voice_member_sessions s room_id)) in
        send_control_to_tokens tokens (P2pPeerGone session_id (ss_user_id session)) s
    end.

Definition leave_voice (session_id : Z) (excluded_broadcast_session : option Z) (s : server) : option server :=
  match sessions s !! session_id ≫= ss_voice_room with
  | None => Some s
  | Some room_id =>
      s ← end_shares_for_session session_id s;
      s ← revoke_share_access_for_session session_id s;
      s ← stop_voice session_id None excluded_broadcast_session s;
      s ← broadcast_p2p_gone session_id room_id s;
      let s := update_session session_id (fun x => set_p2p None (set_voice_room None x)) s in
      Some (remove_peer_links session_id s)
  end.

(** *** Uploads *)

Definition send_file_canceled (upload : ServerUpload) (reason : bytes) (s : server) : option server :=
  each (fun recipient s =>
          match live_token_for_session s recipient with
          | None => Some s
          | Some token => tell token (FileCanceled (up_server_transfer_id upload) reason) s
          end) (hash_elems (up_recipients upload)) s.

Definition cancel_file_upload (session_id client_transfer_id : Z) (reason : bytes) (s : server) : option server :=
  match active_uploads s !! (session_id, client_transfer_id) with
  | None => Some s
  | Some upload =>
      let s := set_active_uploads (delete (session_id, client_transfer_id) (active_uploads s)) s in
      let s := set_reserved_file_names (reserved_file_names s ∖ {[up_file_name upload]}) s in
      send_file_canceled upload reason s
  end.

Definition cancel_uploads_for_session (session_id : Z) (reason : bytes) (s : server) : option server :=
  each (fun transfer_id => cancel_file_upload session_id transfer_id reason)
    (filter (fun k => k.1 = session_id) (hash_keys (active_uploads s))).*2 s.

(** *** Presence *)

Definition session_user_summary (s : server) (x : Session) (online : bool) : UserSummary :=
  {| us_user_id := ss_user_id x; us_username := username_of s (ss_user_id x); us_online := online;
     us_connected_at_ms := if online then ss_connected_at_ms x else 0;
     us_voice_state := if online then ss_voice_state x else Live |}.

Definition broadcast_presence (session_id : Z) (online : bool) (s : server) : option server :=
  match sessions s !! session_id with
  | None => Some s
  | Some session =>
      let own_token := ss_tcp_token session in
      let c := Presence (session_user_summary s session online) online in
      let tokens := filter (fun t => t <> own_token /\ is_Some (clients s !! t))
                      (ss_tcp_token <$> hash_values (sessions s)) in
      send_control_to_tokens tokens c s
  end.

(** *** Teardown *)

(** The session is the last announced one of its account. *)
Definition announce_offline (s : server) (session_id : Z) : bool :=
  match sessions s !! session_id with
  | None => false
  | Some leaving =>
      ss_announced leaving &&
      negb (bool_decide (Exists (fun p => p.1 <> session_id /\ ss_user_id p.2 = ss_user_id leaving /\ ss_announced p.2 = true)
                           (hash_iter (sessions s))))
  end.

Definition teardown_session (session_id : Z) (reason : bytes) (s : server) : option server :=
  s ← cancel_uploads_for_session session_id reason s;
  let s := set_active_bug_reports (filter (fun p => p.1.1 <> session_id) (active_bug_reports s)) s in
  s ← end_shares_for_session session_id s;
  s ← leave_voice session_id (Some session_id) s;
  s ← (if announce_offline s session_id then broadcast_presence session_id false s else Some s);
  let s := match sessions s !! session_id with
           | None => s
           | Some session =>
               set_reserved_media_routes (delete (route_id (ss_transport session)) (reserved_media_routes s))
                 (set_sessions (delete session_id (sessions s)) s)
           end in
  let s := submit_voice (RemoveSession session_id) s in
  Some (remove_peer_links session_id s).

(** What a disconnect does before it looks for the connection. *)
Definition forget_token (token : Z) (s : server) : server :=
  let s := if decide (token ∈ deferred_identity_tokens s)
           then set_deferred_identity_controls (filter (fun p => p.1 <> token) (deferred_identity_controls s))
                  (set_deferred_identity_tokens (deferred_identity_tokens s ∖ {[token]}) s)
           else s in
  let s := set_pending_controls (delete token (pending_controls s)) s in
  let s := match pending_control_bytes s !! token with
           | Some pending =>
               set_pending_control_total_bytes (saturating_sub (pending_control_total_bytes s) pending)
                 (set_pending_control_bytes (delete token (pending_control_bytes s)) s)
           | None => s
           end in
  set_control_send_set (control_send_set s ∖ {[token]}) s.

(** What it does to the tables when it finds it. *)
Definition drop_client (token : Z) (client : client) (s : server) : server :=
  let s := set_clients (delete token (clients s)) s in
  let s := if cc_pre_auth client then set_pre_auth (PreAuthLimiter.release (pre_auth s) (ip (cc_addr client))) s else s in
  let s := set_write_queue_total_bytes (saturating_sub (write_queue_total_bytes s) (write_len client)) s in
  match cc_kind client with
  | VideoKind v =>
      match vc_stream_id v, vc_role v with
      | Some stream_id, Some role => detach_video_conn stream_id role token s
      | _, _ => s
      end
  | _ => s
  end.

Definition disconnect_body (token : Z) (s : server) : option server :=
  let s := forget_token token s in
  match clients s !! token with
  | None => Some s
  | Some client =>
      let s := drop_client token client s in
      match cc_session_id client with
      | Some session_id => teardown_session session_id (ascii_bytes "sender disconnected") s
      | None => Some s
      end
  end.

End knot.

(** ** [disconnect] *)

Fixpoint disconnect_fuel (fuel : nat) : Z -> server -> option server :=
  match fuel with
  | O => fun _ _ => None
  | S fuel => disconnect_body (disconnect_fuel fuel)
  end.

Definition disconnect (token : Z) (s : server) : option server := disconnect_fuel (S (size (clients s))) token s.

End cascade.
