(* ===== verification/ServerOps.v ===== *)
(** * Requests of an authenticated client

    The handlers of [Server] of src/crates/server/src/lib.rs behind the control
    messages of a session: calls, peer-to-peer links, shares, chat, uploads and
    bug reports, and [handle_control] that chooses among them.  A handler that can
    fail returns its error beside the state, as the source's [Result]; the loop
    disconnects a client whose handler failed.

    The room store is the interface [ChatStore], implemented by [RoomStore].  The
    random generator is [random], a function of the number of the draw and its
    length. *)

From stdpp Require Import pretty.
From S2P Require Import Prelude Primitives Transport Handshake Media Frame Evented Video Net History Usernames VoiceRelay.
From S2P Require Import RoomLog RoomStore ServerState ServerCascade.

(** What the server asks of the room store.  [None] is a panic of the store. *)
Class ChatStore (St : Type) := {
  store_head : St -> Z -> option Z;
  store_allocate_message_id : St -> Z -> St * Z;
  store_try_append : St -> Z -> ChatMessage -> option (St * result RoomStore.AppendError nat);
  store_validate_mutation : St -> Z -> Z -> Z -> MutationKind -> result MutationDenied ();
}.

(** The room store over its directories, with the outcome of its file operations. *)
#[export] Instance room_store_chat (io : LogIo) : ChatStore (RoomStore * gmap Z RoomDir) := {|
  store_head s room := RoomStore.head s.1 room;
  store_allocate_message_id s room := let '(st, id) := RoomStore.allocate_message_id s.1 room in ((st, s.2), id);
  store_try_append s room m :=
    '(st, d, r) ← RoomStore.try_append io s.1 room m (default empty_dir (s.2 !! room));
    Some ((st, <[room := d]> s.2), r);
  store_validate_mutation s := RoomStore.validate_mutation s.1;
|}.

Section ops.
Context {Rx Tx St : Type} `{HashOrder} `{ChatStore St}.
Context (encode_server_control : ServerControl -> bytes) (random : nat -> nat -> option bytes).
Context (now now_ms : Z).

Abbreviation server := (Server Rx Tx St).
Abbreviation client := (ClientConn Rx Tx).
Abbreviation outcome := (option (server * result bytes ())).
Abbreviation disc := (disconnect encode_server_control now).
Abbreviation send := (send_control_to_token encode_server_control disc).
Abbreviation tell := (tell encode_server_control disc).
Abbreviation broadcast := (broadcast_control encode_server_control disc).
Abbreviation text := ascii_bytes.

Definition ok (s : server) : outcome := Some (s, Ok ()).
Definition err (e : string) (s : server) : outcome := Some (s, Err (text e)).
(** A handler that returns nothing. *)
Definition done_with (m : option server) : outcome := s ← m; ok s.

Definition is_live_session (s : server) (id : Z) : bool := bool_decide (is_Some (live_token_for_session s id)).

(** ** Access *)

Definition room_allows (s : server) (session_id room_id : Z) : bool :=
  match sessions s !! session_id, rooms s !! room_id with
  | Some x, Some room => RoomAccess.allows (rm_access room) (ss_user_id x)
  | _, _ => false
  end.

Definition check_room_access (session_id room_id : Z) (s : server) : option (server * bool) :=
  let allowed := room_allows s session_id room_id in
  s ← (if allowed then Some s
       else match live_token_for_session s session_id with
            | Some token => tell token (Error ERROR_ROOM_NOT_FOUND (text "room not found")) s
            | None => Some s
            end);
  Some (s, allowed).

Definition report_request_outcome (token : Z) (m : outcome) : outcome :=
  '(s, r) ← m;
  match r with
  | Ok _ => ok s
  | Err message => send token (Error ERROR_REQUEST_REJECTED message) s
  end.

Definition report_bug_outcome (token : Z) (m : outcome) : outcome :=
  '(s, r) ← m;
  match r with
  | Ok _ => ok s
  | Err message => send token (Error ERROR_BUG_REPORT_REJECTED message) s
  end.

(** ** Shares, towards their viewers *)

Definition draw (n : nat) (s : server) : server * option bytes :=
  (set_rng_draws (S (rng_draws s)) s, random (rng_draws s) n).

Definition random_secret (s : server) : server * result bytes bytes :=
  let '(s, b) := draw KEY_LEN s in (s, ok_or (text "failed to generate video secret") b).

Definition share_available_for_session (stream_id session_id : Z) (s : server) : server * result bytes ServerControl :=
  match streams s !! stream_id with
  | None => (s, Err (text "unknown screen share"))
  | Some v =>
      if negb (VideoPublisherState.is_live (st_publisher v)) then (s, Err (text "unknown screen share"))
      else if decide (st_owner_session v = session_id) then (s, Err (text "share owner does not need viewer access"))
      else if decide ((sessions s !! session_id ≫= ss_voice_room) <> Some (st_room_id v))
      then (s, Err (text "viewer is not in the share's voice room"))
      else
        let '(s, secret) :=
          match st_view_secrets v !! session_id with
          | Some k => (s, Ok k)
          | None =>
              let '(s, r) := random_secret s in
              (match r with
               | Ok k => set_streams (<[stream_id := set_view_secrets (<[session_id := k]> (st_view_secrets v)) v]> (streams s)) s
               | Err _ => s
               end, r)
          end in
        (s, match secret with
            | Err e => Err e
            | Ok k => Ok (ShareAvailable (st_room_id v) stream_id (st_user_id v) (st_sender_name v) (st_codec v)
                            (st_coded_width v) (st_coded_height v) (st_extradata v) k)
            end)
  end.

Definition send_share_available_to_session (stream_id session_id : Z) (s : server) : option server :=
  match live_token_for_session s session_id with
  | None => Some s
  | Some token =>
      let '(s, r) := share_available_for_session stream_id session_id s in
      match r with Err _ => Some s | Ok c => tell token c s end
  end.

Definition announce_share_to_voice_members (stream_id : Z) (excluded_session : option Z) (s : server) : option server :=
  match streams s !! stream_id with
  | None => Some s
  | Some v =>
      each (send_share_available_to_session stream_id)
        (filter (fun id => Some id <> excluded_session) (voice_member_sessions s (st_room_id v))) s
  end.

Definition replay_voice_room_shares (room_id session_id : Z) (s : server) : option server :=
  each (fun stream_id => send_share_available_to_session stream_id session_id)
    (filter (fun p => st_room_id p.2 = room_id /\ st_owner_session p.2 <> session_id /\
                      VideoPublisherState.is_live (st_publisher p.2) = true) (hash_iter (streams s))).*1 s.

(** ** Calls *)

Definition send_voice_join_failed (session_id room_id : Z) (message : bytes) (s : server) : option server :=
  match live_token_for_session s session_id with
  | None => Some s
  | Some token => tell token (VoiceJoinFailed room_id message) s
  end.

(** [wrapping_add(1).max(1)] on 32 bits. *)
Definition next_id (w i : Z) : Z := Z.max (wrap w (i + 1)) 1.

Definition ensure_voice_stream (session_id room_id : Z) (s : server) : server * result bytes (Z * Z) :=
  match sessions s !! session_id with
  | None => (s, Err (text "unknown session"))
  | Some x =>
      if decide (ss_voice_room x <> Some room_id) then (s, Err (text "join the room's voice call first"))
      else
        match ss_active_stream x with
        | Some stream_id => (s, Ok (ss_user_id x, stream_id))
        | None =>
            let stream_id := next_stream s in
            let s := set_next_stream (next_id 32 (next_stream s)) s in
            let s := update_session session_id (set_active_stream (Some stream_id)) s in
            let s := set_rooms (alter (fun r => set_active_streams (<[stream_id := session_id]> (rm_active_streams r)) r)
                                  room_id (rooms s)) s in
            (s, Ok (ss_user_id x, stream_id))
        end
  end.

(** The number of sessions of the user in the call. *)
Definition sessions_in_call (s : server) (room : RoomState) (user_id : Z) : nat :=
  length (filter (fun m => ss_user_id <$> sessions s !! m = Some user_id) (hash_values (rm_active_streams room))).

Definition send_existing_voice_streams_to_token (room_id joining_session_id token : Z) (s : server) : option server :=
  let existing := match rooms s !! room_id with
                  | Some room => filter (fun p => p.2 <> joining_session_id) (hash_iter (rm_active_streams room))
                  | None => []
                  end in
  each (fun p s =>
          match sessions s !! p.2 with
          | None => Some s
          | Some x => tell token (VoiceStarted room_id p.2 (ss_user_id x) p.1 false) s
          end) existing s.

(** [join_voice] once the session is in the room's call. *)
Definition enter_call (session_id room_id : Z) (already_active : bool) (s : server) : option server :=
  let '(s, r) := ensure_voice_stream session_id room_id s in
  match r with
  | Err error =>
      let s := update_session session_id (set_voice_room None) s in
      send_voice_join_failed session_id room_id error s
  | Ok (user_id, stream_id) =>
      let s := submit_voice (SetRoute session_id (Some {| route_room_id := room_id; route_stream_id := stream_id |})) s in
      if already_active then Some s
      else
        let user_joined := match rooms s !! room_id with
                           | Some room => bool_decide (sessions_in_call s room user_id = 1%nat)
                           | None => false
                           end in
        s ← broadcast room_id (VoiceStarted room_id session_id user_id stream_id user_joined) s;
        s ← match live_token_for_session s session_id with
            | Some token => send_existing_voice_streams_to_token room_id session_id token s
            | None => Some s
            end;
        s ← replay_voice_room_shares room_id session_id s;
        let state := match sessions s !! session_id with Some x => ss_voice_state x | None => Live end in
        broadcast room_id (VoiceStateChanged room_id user_id state) s
  end.

Definition join_voice (session_id room_id : Z) (s : server) : option server :=
  if negb (room_allows s session_id room_id) then send_voice_join_failed session_id room_id (text "room not found") s
  else
    let previous := sessions s !! session_id ≫= ss_voice_room in
    let moves := match previous with Some p => bool_decide (p <> room_id) | None => false end in
    s ← (if moves then leave_voice encode_server_control disc session_id None s else Some s);
    if moves && negb (is_live_session s session_id) then Some s
    else
      let already_active := bool_decide ((sessions s !! session_id ≫= ss_voice_room) = Some room_id) in
      let s := update_session session_id (set_voice_room (Some room_id)) s in
      enter_call session_id room_id already_active s.

Definition set_voice_state (session_id : Z) (state : VoiceState) (s : server) : option server :=
  match sessions s !! session_id with
  | None => Some s
  | Some x =>
      if decide (ss_voice_state x = state) then Some s
      else
        let s := set_sessions (<[session_id := ServerState.set_voice_state state x]> (sessions s)) s in
        match ss_voice_room x with
        | None => Some s
        | Some room_id => broadcast room_id (VoiceStateChanged room_id (ss_user_id x) state) s
        end
  end.

(** ** Peer-to-peer links *)

Definition ordered_pair (a b : Z) : Z * Z := if decide (a <= b) then (a, b) else (b, a).

(** A key is 32 bytes and a nonzero number of 4 bytes. *)
Definition random_key (s : server) : server * result bytes KeyMaterial :=
  let '(s, b) := draw KEY_LEN s in
  match b with
  | None => (s, Err (text "failed to generate P2P key"))
  | Some b =>
      let '(s, i) := draw 4 s in
      match i with
      | None => (s, Err (text "failed to generate P2P key id"))
      | Some i => (s, Ok {| key_id := Z.max (of_le i) 1; key_bytes := b |})
      end
  end.

Definition new_peer_link (s : server) : server * result bytes PeerLink :=
  let connection_id := next_connection_id s in
  let s := set_next_connection_id (next_id 64 (next_connection_id s)) s in
  let '(s, k1) := random_key s in
  match k1 with Err e => (s, Err e) | Ok k1 =>
  let '(s, k2) := random_key s in
  match k2 with Err e => (s, Err e) | Ok k2 =>
  let '(s, k3) := random_key s in
  match k3 with Err e => (s, Err e) | Ok k3 =>
    (s, Ok {| pl_connection_id := connection_id; pl_low_to_high := k1; pl_high_to_low := k2; pl_stun_key := k3 |})
  end end end.

Definition p2p_peer_info (s : server) (recipient peer : Z) (link : PeerLink) : result bytes P2pPeerInfo :=
  match sessions s !! recipient with
  | None => Err (text "unknown recipient session")
  | Some x =>
      match sessions s !! peer with
      | None => Err (text "unknown peer session")
      | Some y =>
          match ss_p2p y with
          | None => Err (text "peer has not published P2P candidates")
          | Some p =>
              let '(send_key, recv_key) :=
                if decide (recipient < peer) then (pl_low_to_high link, pl_high_to_low link)
                else (pl_high_to_low link, pl_low_to_high link) in
              Ok {| pi_room_id := default (cfg_default_room (config s)) (ss_voice_room x); pi_session_id := peer;
                    pi_user_id := ss_user_id y; pi_generation := p2p_generation p;
                    pi_role := if decide (recipient < peer) then Controlling else Controlled;
                    pi_nat := p2p_nat p; pi_tie_breaker := p2p_tie_breaker p; pi_candidates := p2p_candidates p;
                    pi_send_key := send_key; pi_recv_key := recv_key; pi_stun_key := pl_stun_key link;
                    pi_connection_id := pl_connection_id link |}
          end
      end
  end.

(** The link of the pair, made when there is none. *)
Definition link_for (pair : Z * Z) (s : server) : server * result bytes PeerLink :=
  match peer_links s !! pair with
  | Some link => (s, Ok link)
  | None =>
      let '(s, r) := new_peer_link s in
      (match r with Ok link => set_peer_links (<[pair := link]> (peer_links s)) s | Err _ => s end, r)
  end.

Definition send_p2p_pair (a b : Z) (s : server) : outcome :=
  let '(s, link) := link_for (ordered_pair a b) s in
  match link with Err e => Some (s, Err e) | Ok link =>
  match p2p_peer_info s a b link with Err e => Some (s, Err e) | Ok a_info =>
  match p2p_peer_info s b a link with Err e => Some (s, Err e) | Ok b_info =>
  match live_token_for_session s a with None => err "unknown P2P session" s | Some a_token =>
  match live_token_for_session s b with None => err "unknown P2P peer" s | Some b_token =>
    '(s, r) ← send a_token (P2pPeer a_info) s;
    match r with
    | Err e => Some (s, Err e)
    | Ok _ =>
        if negb (is_live_session s a) || negb (is_live_session s b) then ok s
        else send b_token (P2pPeer b_info) s
    end
  end end end end end.

(** The loop of [publish_p2p] over the peers. *)
Fixpoint pair_with (session_id : Z) (peers : list Z) (s : server) : outcome :=
  match peers with
  | [] => ok s
  | peer :: peers =>
      if negb (is_live_session s session_id) then ok s
      else
        '(s, r) ← send_p2p_pair session_id peer s;
        match r with Err e => Some (s, Err e) | Ok _ => pair_with session_id peers s end
  end.

Definition publish_p2p (session_id room_id generation : Z) (nat_kind : NatKind) (tie_breaker : Z)
    (candidates : list P2pCandidate) (s : server) : outcome :=
  if negb (cfg_p2p (config s)) then
    ok (remove_peer_links session_id (update_session session_id (set_p2p None) s))
  else
    match candidates with
    | [] =>
        let s := update_session session_id (set_p2p None) s in
        s ← broadcast_p2p_gone encode_server_control disc session_id room_id s;
        ok (remove_peer_links session_id s)
    | _ =>
        if decide ((sessions s !! session_id ≫= ss_voice_room) <> Some room_id)
        then err "join the room's voice call before publishing P2P candidates" s
        else
          let s := update_session session_id
                     (set_p2p (Some {| p2p_generation := generation; p2p_nat := nat_kind; p2p_tie_breaker := tie_breaker;
                                       p2p_candidates := candidates |})) s in
          let peers := filter (fun peer => is_Some (sessions s !! peer ≫= ss_p2p))
                         (filter (fun peer => is_Some (live_token_for_session s peer))
                            (filter (fun peer => peer <> session_id) (voice_member_sessions s room_id))) in
          pair_with session_id peers s
    end.

(** ** Shares, from their owner *)

Definition start_share (session_id attempt_id room_id : Z) (codec : bytes) (coded_width coded_height : Z) (extradata : bytes)
    (s : server) : outcome :=
  match sessions s !! session_id with
  | None => err "unknown session" s
  | Some x =>
      let sender_name := username_of s (ss_user_id x) in
      if decide (ss_voice_room x <> Some room_id) then err "join the room's voice call before sharing" s
      else
        s ← end_shares_for_session encode_server_control disc session_id s;
        let '(s, secret) := random_secret s in
        match secret with Err e => Some (s, Err e) | Ok publish_secret =>
          let stream_id := next_stream s in
          let s := set_next_stream (next_id 32 (next_stream s)) s in
          let s := set_streams (<[stream_id :=
                     {| st_room_id := room_id; st_owner_session := session_id; st_user_id := ss_user_id x;
                        st_sender_name := sender_name; st_publish_secret := publish_secret; st_view_secrets := ∅;
                        st_codec := codec; st_coded_width := coded_width; st_coded_height := coded_height;
                        st_extradata := extradata; st_publisher := AwaitingConnection (now + PUBLISHER_ATTACH_GRACE);
                        st_announced := false; st_subscribers := []; st_ring := []; st_ring_bytes := 0;
                        st_ring_visible_bytes := 0 |}]> (streams s)) s in
          match live_token_for_session s session_id with
          | None => ok s
          | Some token =>
              send token (ShareStarted attempt_id room_id stream_id publish_secret codec coded_width coded_height extradata) s
          end
        end
  end.

(** The arm of [handle_control] around it. *)
Definition handle_start_share (token session_id attempt_id room_id : Z) (codec : bytes) (coded_width coded_height : Z)
    (extradata : bytes) (s : server) : outcome :=
  '(s, r) ← start_share session_id attempt_id room_id codec coded_width coded_height extradata s;
  match r with
  | Ok _ => ok s
  | Err message => send token (ShareStartFailed attempt_id message) s
  end.

Definition stop_share (session_id stream_id : Z) (s : server) : outcome :=
  match streams s !! stream_id with
  | None => ok s
  | Some v =>
      if decide (st_owner_session v = session_id) then done_with (end_share encode_server_control disc stream_id s)
      else err "not the owner of this share" s
  end.

(** ** Chat *)

Definition ordinary_chat_policy_error (s : server) (room_id : Z) : option bytes :=
  match rm_access <$> rooms s !! room_id with
  | Some Public => None
  | Some (Private _) | Some (Dm _ _) => Some (text "encrypted rooms accept messages only through MLS")
  | None => None
  end.

Definition reject_durable_history_busy (session_id : Z) (s : server) : outcome :=
  match live_token_for_session s session_id with
  | None => err "chat sender disconnected" s
  | Some token => send token (Error ERROR_REQUEST_REJECTED (text "durable history is busy; retry shortly")) s
  end.

Definition mutation_kind (k : MutationKind) : ChatMutationKind :=
  match k with Edit => MutationEdit | Delete => MutationDelete end.

Definition reject_chat_mutation (session_id room_id target : Z) (kind : MutationKind) (message : bytes) (s : server) : outcome :=
  match live_token_for_session s session_id with
  | None => err "mutation requester disconnected" s
  | Some token => send token (ChatMutationRejected room_id target (mutation_kind kind) message) s
  end.

(** Allocation of the id, the append and the broadcast the two chat handlers share. *)
Definition store_and_broadcast (session_id room_id sender : Z) (sender_name body : bytes) (flags : Z) (target : option Z)
    (s : server) : outcome :=
  let '(st, message_id) := store_allocate_message_id (store s) room_id in
  let s := set_store st s in
  let message := {| message_id := message_id; room_id := room_id; sender := sender; sender_name := sender_name;
                    timestamp_ms := now_ms; body := body; file_transfer_id := None; flags := flags; target := target |} in
  '(st, r) ← store_try_append (store s) room_id message;
  let s := set_store st s in
  match r with
  | Err _ => reject_durable_history_busy session_id s
  | Ok _ => done_with (broadcast room_id (Chat message) s)
  end.

Definition send_chat (session_id room_id : Z) (body : bytes) (s : server) : outcome :=
  match sessions s !! session_id with
  | None => err "unknown session" s
  | Some x =>
      let sender_name := username_of s (ss_user_id x) in
      '(s, allowed) ← check_room_access session_id room_id s;
      if negb allowed then ok s
      else
        match ordinary_chat_policy_error s room_id with
        | Some error =>
            match live_token_for_session s session_id with
            | None => err "chat sender disconnected" s
            | Some token => send token (Error ERROR_REQUEST_REJECTED error) s
            end
        | None => store_and_broadcast session_id room_id (ss_user_id x) sender_name body 0 None s
        end
  end.

Definition denied_message (kind : MutationKind) (denied : MutationDenied) : bytes :=
  text match kind, denied with
  | _, TargetMissing => "message is too old or no longer available"
  | Edit, WrongSender => "you can only edit your own messages"
  | Delete, WrongSender => "you can only delete your own messages"
  | Edit, FileMessage => "file messages cannot be edited"
  | _, MutationRecord => "message mutations cannot be changed"
  | _, Deleted => "message was already deleted"
  | Delete, FileMessage => "message cannot be deleted"
  end%string.

Definition mutate_chat (session_id room_id target : Z) (kind : MutationKind) (body : bytes) (s : server) : outcome :=
  match sessions s !! session_id with
  | None => err "unknown session" s
  | Some x =>
      let sender_name := username_of s (ss_user_id x) in
      '(s, allowed) ← check_room_access session_id room_id s;
      if negb allowed then reject_chat_mutation session_id room_id target kind (text "message is unavailable") s
      else
        match ordinary_chat_policy_error s room_id with
        | Some error => reject_chat_mutation session_id room_id target kind error s
        | None =>
            match store_validate_mutation (store s) room_id target (ss_user_id x) kind with
            | Err denied => reject_chat_mutation session_id room_id target kind (denied_message kind denied) s
            | Ok _ =>
                let flags := match kind with Edit => MessageFlags.set_edited 0 | Delete => MessageFlags.set_deleted 0 end in
                store_and_broadcast session_id room_id (ss_user_id x) sender_name body flags (Some target) s
            end
        end
  end.

(** ** File names *)

(** The part after the last slash, trimmed, with anything but letters, digits and
    a few marks replaced. *)
Fixpoint after_slash (name part : list Z) : list Z :=
  match name with
  | [] => part
  | c :: name => after_slash name (if decide (c = 47 \/ c = 92) then [] else part ++ [c])
  end.

Fixpoint skip_while (p : Z -> bool) (l : list Z) : list Z :=
  match l with c :: l' => if p c then skip_while p l' else l | [] => [] end.

Definition trim_matches (p : Z -> bool) (l : list Z) : list Z := reverse (skip_while p (reverse (skip_while p l))).

Definition file_name_char (c : Z) : Z :=
  if decide (48 <= c <= 57 \/ 65 <= c <= 90 \/ 97 <= c <= 122 \/ c = 46 \/ c = 45 \/ c = 95 \/ c = 32) then c else 95.

Definition sanitize_file_name (name : bytes) : bytes :=
  let trimmed := trim_matches is_whitespace (after_slash (default [] (Utf8.decode name)) []) in
  let out := trim_matches (fun c => bool_decide (c = 32 \/ c = 46)) (file_name_char <$> trimmed) in
  match out with [] => text "file" | _ => of_u8 <$> out end.

(** The position of the last dot, searched from the end. *)
Fixpoint rfind (c : byte) (name : bytes) (n : nat) : option nat :=
  match n with
  | O => None
  | S n => if decide (name !! n = Some c) then Some n else rfind c name n
  end.

Definition split_extension (name : bytes) : bytes * bytes :=
  match rfind Byte.x2e name (length name) with
  | Some i => if decide (0 < i /\ i + 1 < length name)%nat then (take i name, drop i name) else (name, [])
  | None => (name, [])
  end.

Definition numbered (stem extension : bytes) (index : N) : bytes := stem ++ text "-" ++ text (pretty index) ++ extension.

(** The search for a free number; [None] is the end of the numbers. *)
Fixpoint free_name (fuel : nat) (reserved : gset bytes) (stem extension : bytes) (index : N) : option bytes :=
  match fuel with
  | O => None
  | S fuel =>
      let candidate := numbered stem extension index in
      if decide (candidate ∈ reserved) then free_name fuel reserved stem extension (index + 1) else Some candidate
  end.

Definition reserve_unique_file_name (reserved : gset bytes) (requested : bytes) : option (gset bytes * bytes) :=
  let requested := sanitize_file_name requested in
  if decide (requested ∈ reserved) then
    let '(stem, extension) := split_extension requested in
    candidate ← free_name (S (size reserved)) reserved stem extension 1;
    Some ({[candidate]} ∪ reserved, candidate)
  else Some ({[requested]} ∪ reserved, requested).

(** [a / b] rounded to the nearest, ties to even. *)
Definition round_div (a b : Z) : Z :=
  let q := a / b in
  let r := 2 * (a mod b) in
  if decide (b < r \/ b = r /\ Z.odd q = true) then q + 1 else q.

(** [as f64] of a 64-bit integer. *)
Definition to_f64 (n : Z) : Z :=
  let e := Z.log2 n - 52 in
  if decide (e <= 0) then n else round_div n (2 ^ e) * 2 ^ e.

(** [{:.1}] of [n / unit]; the division by a power of two is exact. *)
Definition with_tenths (n unit : Z) : bytes :=
  let tenths := round_div (10 * to_f64 n) unit in
  text (pretty (Z.to_N (tenths / 10))) ++ text "." ++ text (pretty (Z.to_N (tenths mod 10))).

Definition format_bytes (n : Z) : bytes :=
  let KIB := 1024 in
  let MIB := 1024 * KIB in
  if decide (MIB <= n) then with_tenths n MIB ++ text " MiB"
  else if decide (KIB <= n) then with_tenths n KIB ++ text " KiB"
  else text (pretty (Z.to_N n)) ++ text " B".

(** ** Uploads *)

Definition FILE_CHUNK_OVERHEAD : Z := 4 + Z.of_nat TAG_LEN.

Definition max_file_wire_bytes (encoding : FileContentEncoding) (original_size : Z) : Z :=
  let zstd := saturating_add 64 (saturating_add 64 original_size (original_size / 128)) (64 * 1024) in
  match encoding with
  | IdentityEncoding => original_size
  | Zstd => zstd
  | Sealed =>
      let stream := saturating_add 64 zstd (zstd / 8) in
      let chunks := stream / (MAX_FILE_CHUNK_BYTES - FILE_CHUNK_OVERHEAD) + 2 in
      saturating_add 64 stream (Z.min (chunks * FILE_CHUNK_OVERHEAD) (umax 64))
  end.

Definition session_accepts_file (x : Session) (original_size : Z) : bool :=
  ss_receive_files x && bool_decide (original_size <= ss_file_receive_limit_bytes x).

Definition upload_completion_is_valid (encoding : FileContentEncoding) (original_size wire_received : Z) : bool :=
  match encoding with
  | IdentityEncoding => bool_decide (wire_received = original_size)
  | Zstd | Sealed => bool_decide (original_size = 0) || bool_decide (wire_received <> 0)
  end.

Definition notify_upload_declined (key : Z * Z) (reason : bytes) (s : server) : option server :=
  match active_uploads s !! key with
  | None => Some s
  | Some u =>
      if bool_decide (up_recipients u <> ∅) || up_declined_notified u then Some s
      else
        match live_token_for_session s key.1 with
        | None => Some s
        | Some token =>
            s ← tell token (UploadDeclined key.2 reason) s;
            Some (set_active_uploads (alter (set_declined_notified true) key (active_uploads s)) s)
        end
  end.

(** The checks of [start_file_upload] before it looks at the room. *)
Definition upload_refusal (s : server) (session_id room_id client_transfer_id original_size : Z) (encoding : FileContentEncoding)
    (mls_event_id : option bytes) : option bytes :=
  let encrypted_room := match rm_access <$> rooms s !! room_id with Some Public | None => false | Some _ => true end in
  let mls_encrypted := bool_decide (room_id ∈ mls_groups s) in
  let sealed := bool_decide (encoding = Sealed) in
  if decide (cfg_file_size_limit_bytes (config s) < original_size) then Some (text "file exceeds server maximum length")
  else if encrypted_room && negb mls_encrypted then Some (text "encrypted room file transfer is waiting for MLS setup")
  else if bool_decide (bool_decide (is_Some mls_event_id) <> sealed) then Some (text "sealed metadata does not match the upload encoding")
  else if bool_decide (sealed <> mls_encrypted) then
    Some (text (if sealed then "sealed uploads require an initialized MLS room" else "MLS room uploads require end-to-end encryption"))
  else if decide (is_Some (active_uploads s !! (session_id, client_transfer_id))) then Some (text "file transfer id is already active")
  else if decide (MAX_ACTIVE_UPLOADS_PER_SESSION <= length (filter (fun k => k.1 = session_id) (hash_keys (active_uploads s))))%nat
  then Some (text "too many concurrent file uploads")
  else None.

(** Telling the other members of the room of the file; [recipients] shrinks as
    connections go. *)
Fixpoint offer_file (file : FileMetadata) (members : list Z) (recipients : gset Z) (s : server) : option (server * gset Z) :=
  match members with
  | [] => Some (s, recipients)
  | member :: members =>
      match live_token_for_session s member with
      | None => offer_file file members recipients s
      | Some token =>
          let contents := bool_decide (member ∈ recipients) in
          s ← tell token (FileOffered file contents) s;
          let recipients := if contents && negb (is_live_session s member) then recipients ∖ {[member]} else recipients in
          offer_file file members recipients s
      end
  end.

(** [start_file_upload] once the upload is registered. *)
Definition announce_upload (session_id client_transfer_id uploader_token : Z) (file : FileMetadata) (message : ChatMessage)
    (transfer_members : list Z) (recipients : gset Z) (mls_encrypted : bool) (s : server) : outcome :=
  let key := (session_id, client_transfer_id) in
  '(s, accepted) ← send uploader_token (UploadFileAccepted client_transfer_id file) s;
  if bool_decide (accepted <> Ok ()) || negb (is_live_session s session_id) then
    s ← cancel_file_upload encode_server_control disc session_id client_transfer_id (text "uploading session disconnected") s;
    Some (s, accepted)
  else
    '(s, stored) ← (if mls_encrypted then Some (s, true)
                    else
                      '(st, r) ← store_try_append (store s) (fm_room_id file) message;
                      let s := set_store st s in
                      match r with
                      | Err _ =>
                          s ← cancel_file_upload encode_server_control disc session_id client_transfer_id
                                (text "durable history is busy; retry shortly") s;
                          Some (s, false)
                      | Ok _ => s ← broadcast (fm_room_id file) (Chat message) s; Some (s, true)
                      end);
    if negb stored || negb (is_live_session s session_id) then ok s
    else
      let recipients := filter (fun r => is_Some (live_token_for_session s r)) recipients in
      '(s, recipients) ← offer_file file transfer_members recipients s;
      let s := set_active_uploads (alter (set_recipients recipients) key (active_uploads s)) s in
      match transfer_members with
      | [] => ok s
      | _ => done_with (notify_upload_declined key (text "recipient declined") s)
      end.

Definition start_file_upload (session_id room_id client_transfer_id : Z) (name : bytes) (original_size : Z)
    (encoding : FileContentEncoding) (mls_event_id : option bytes) (s : server) : outcome :=
  match upload_refusal s session_id room_id client_transfer_id original_size encoding mls_event_id with
  | Some e => Some (s, Err e)
  | None =>
      match sessions s !! session_id with
      | None => err "unknown session" s
      | Some x =>
          let sender_name := username_of s (ss_user_id x) in
          '(s, allowed) ← check_room_access session_id room_id s;
          if negb allowed then ok s
          else
            match live_token_for_session s session_id with
            | None => err "uploading session disconnected" s
            | Some uploader_token =>
                let closing := match clients s !! uploader_token with
                               | Some c => match cc_close c with CloseOpen => false | Draining _ => true end
                               | None => false
                               end in
                if (closing : bool) then err "uploading session is closing" s
                else
                  let member_ids :=
                    match rooms s !! room_id with
                    | Some room => (filter (fun p => RoomAccess.allows (rm_access room) (ss_user_id p.2) = true)
                                      (hash_iter (sessions s))).*1
                    | None => []
                    end in
                  let original_name := sanitize_file_name name in
                  '(names, file_name) ← reserve_unique_file_name (reserved_file_names s) original_name;
                  let s := set_reserved_file_names names s in
                  let server_transfer_id := next_file_transfer s in
                  let s := set_next_file_transfer (next_id 64 (next_file_transfer s)) s in
                  let transfer_members := filter (fun id => id <> session_id) member_ids in
                  let recipients : gset Z := list_to_set
                    (filter (fun id => match sessions s !! id with
                                       | Some y => session_accepts_file y original_size
                                       | None => false
                                       end = true) transfer_members) in
                  let file := {| fm_transfer_id := server_transfer_id; fm_room_id := room_id; fm_sender := ss_user_id x;
                                 fm_sender_name := sender_name; fm_file_name := file_name; fm_original_name := original_name;
                                 fm_size := original_size; fm_encoding := encoding; fm_timestamp_ms := now_ms;
                                 fm_mls_event_id := mls_event_id |} in
                  let '(st, message_id) := store_allocate_message_id (store s) room_id in
                  let s := set_store st s in
                  let message := {| message_id := message_id; room_id := room_id; sender := ss_user_id x;
                                    sender_name := sender_name; timestamp_ms := now_ms;
                                    body := text "sent file `" ++ file_name ++ text "` (" ++ format_bytes original_size ++ text ")";
                                    file_transfer_id := Some server_transfer_id; flags := 0; target := None |} in
                  let upload := {| up_server_transfer_id := server_transfer_id; up_room_id := room_id; up_encoding := encoding;
                                   up_original_size := original_size; up_wire_received := 0; up_file_name := file_name;
                                   up_recipients := recipients; up_declined_notified := false |} in
                  let s := set_active_uploads (<[(session_id, client_transfer_id) := upload]> (active_uploads s)) s in
                  announce_upload session_id client_transfer_id uploader_token file message transfer_members recipients
                    (bool_decide (room_id ∈ mls_groups s)) s
            end
      end
  end.

(** Relaying one chunk; collects the recipients that are gone. *)
Fixpoint relay_chunk (c : ServerControl) (recipients gone : list Z) (s : server) : option (server * list Z) :=
  match recipients with
  | [] => Some (s, gone)
  | r :: recipients =>
      match live_token_for_session s r with
      | None => relay_chunk c recipients (gone ++ [r]) s
      | Some token =>
          s ← tell token c s;
          relay_chunk c recipients (if is_live_session s r then gone else gone ++ [r]) s
      end
  end.

Definition receive_file_chunk (session_id client_transfer_id offset : Z) (data : bytes) (s : server) : outcome :=
  let key := (session_id, client_transfer_id) in
  if decide (MAX_FILE_CHUNK_BYTES < len data) then err "file chunk exceeds maximum length" s
  else
    match active_uploads s !! key with
    | None => err "unknown file transfer" s
    | Some u =>
        if decide (up_wire_received u <> offset) then err "file chunk offset mismatch" s
        else
          let last := saturating_add 64 offset (len data) in
          if decide (max_file_wire_bytes (up_encoding u) (up_original_size u) < last) then err "file chunk exceeds allowed relay size" s
          else
            let s := set_active_uploads (<[key := set_wire_received last u]> (active_uploads s)) s in
            if decide (up_recipients u = ∅) then done_with (notify_upload_declined key (text "recipient declined") s)
            else
              '(s, gone) ← relay_chunk (FileChunk (up_server_transfer_id u) offset data) (hash_elems (up_recipients u)) [] s;
              let s := set_active_uploads
                         (alter (fun u => set_recipients (up_recipients u ∖ list_to_set gone) u) key (active_uploads s)) s in
              done_with (notify_upload_declined key (text "recipient declined") s)
    end.

Definition complete_file_upload (session_id client_transfer_id : Z) (s : server) : outcome :=
  let key := (session_id, client_transfer_id) in
  match active_uploads s !! key with
  | None => err "unknown file transfer" s
  | Some u =>
      let s := set_active_uploads (delete key (active_uploads s)) s in
      let s := set_reserved_file_names (reserved_file_names s ∖ {[up_file_name u]}) s in
      if negb (upload_completion_is_valid (up_encoding u) (up_original_size u) (up_wire_received u)) then
        s ← send_file_canceled encode_server_control disc u (text "upload ended before all bytes arrived") s;
        err "file upload ended before all bytes arrived" s
      else
        let recipients := omap (live_token_for_session s) (hash_elems (up_recipients u)) in
        done_with (send_control_to_tokens encode_server_control disc recipients (FileComplete (up_server_transfer_id u)) s)
  end.

Definition skip_file_download (session_id server_transfer_id : Z) (s : server) : option server :=
  match filter (fun p => up_server_transfer_id p.2 = server_transfer_id) (hash_iter (active_uploads s)) with
  | [] => Some s
  | (key, u) :: _ =>
      if decide (session_id ∈ up_recipients u) then
        let s := set_active_uploads (<[key := set_recipients (up_recipients u ∖ {[session_id]}) u]> (active_uploads s)) s in
        notify_upload_declined key (text "recipient declined") s
      else Some s
  end.

(** ** Bug reports *)

Definition reports_of (s : server) (session_id : Z) : nat :=
  length (filter (fun k => k.1 = session_id) (hash_keys (active_bug_reports s) ++ hash_elems (pending_bug_reports s))).

Definition start_bug_report (session_id report_id : Z) (description metadata : bytes) (logs_size : Z) (s : server) : outcome :=
  let key := (session_id, report_id) in
  if negb (cfg_bug_reports (config s)) then err "bug reports are not enabled on this server" s
  else if decide (MAX_BUG_REPORT_BYTES < logs_size) then err "bug report logs exceed maximum length" s
  else if decide (is_Some (active_bug_reports s !! key) \/ key ∈ pending_bug_reports s) then err "bug report is already active" s
  else if decide (MAX_ACTIVE_BUG_REPORTS_PER_SESSION <= reports_of s session_id)%nat
  then err "another bug report is already active for this session" s
  else if decide (MAX_ACTIVE_BUG_REPORTS <= size (active_bug_reports s) + size (pending_bug_reports s))%nat
  then err "the server bug report queue is full" s
  else ok (set_active_bug_reports
             (<[key := {| br_description := description; br_metadata := metadata; br_logs := []; br_expected := logs_size |}]>
                (active_bug_reports s)) s).

Definition receive_bug_report_chunk (session_id report_id offset : Z) (data : bytes) (s : server) : outcome :=
  let key := (session_id, report_id) in
  match active_bug_reports s !! key with
  | None => err "unknown bug report" s
  | Some r =>
      if decide (len (br_logs r) <> offset) then err "bug report chunk offset mismatch" s
      else if decide (br_expected r < saturating_add 64 offset (len data)) then err "bug report chunk exceeds declared size" s
      else ok (set_active_bug_reports
                 (<[key := {| br_description := br_description r; br_metadata := br_metadata r; br_logs := br_logs r ++ data;
                              br_expected := br_expected r |}]> (active_bug_reports s)) s)
  end.

(** [enqueued] is the answer of the writer thread's queue. *)
Definition complete_bug_report (enqueued : result bool ()) (session_id report_id : Z) (s : server) : outcome :=
  let key := (session_id, report_id) in
  match active_bug_reports s !! key with
  | None => err "unknown bug report" s
  | Some r =>
      let s := set_active_bug_reports (delete key (active_bug_reports s)) s in
      if decide (len (br_logs r) <> br_expected r) then err "bug report ended before all bytes arrived" s
      else if negb (cfg_bug_reports (config s)) then err "bug reports are not enabled on this server" s
      else
        match enqueued with
        | Ok _ => ok (set_bug_report_requests (bug_report_requests s ++ [(session_id, report_id, r)])
                        (set_pending_bug_reports ({[key]} ∪ pending_bug_reports s) s))
        | Err full => err (if full then "the server bug report writer is busy" else "the server bug report writer is unavailable") s
        end
  end.

(** ** Dispatch *)

Definition session_for_token (s : server) (token : Z) : result bytes Z :=
  match clients s !! token ≫= cc_session_id with Some id => Ok id | None => Err (text "client is not authenticated") end.

(** The arms of [handle_control] for an authenticated connection. *)
Definition handle_session_control (enqueued : result bool ()) (token session_id : Z) (c : ClientControl) (s : server) : outcome :=
  match c with
  | Authenticate _ _ _ _ | Pair _ _ _ _ _ | OpenPair _ _ _ _ _ => err "session is already authenticated" s
  | SendChat room_id body => send_chat session_id room_id body s
  | EditChat room_id target body => mutate_chat session_id room_id target Edit body s
  | DeleteChat room_id target => mutate_chat session_id room_id target Delete [] s
  | JoinVoice room_id => done_with (join_voice session_id room_id s)
  | LeaveVoice => done_with (leave_voice encode_server_control disc session_id None s)
  | SetVoiceState state => done_with (set_voice_state session_id state s)
  | PublishP2p room_id generation nat_kind tie_breaker candidates =>
      report_request_outcome token (publish_p2p session_id room_id generation nat_kind tie_breaker candidates s)
  | UploadFileStart room_id transfer_id name size encoding mls_event_id =>
      start_file_upload session_id room_id transfer_id name size encoding mls_event_id s
  | UploadFileChunk transfer_id offset data => receive_file_chunk session_id transfer_id offset data s
  | UploadFileComplete transfer_id => complete_file_upload session_id transfer_id s
  | UploadFileCancel transfer_id reason =>
      done_with (cancel_file_upload encode_server_control disc session_id transfer_id reason s)
  | SkipFile transfer_id => done_with (skip_file_download session_id transfer_id s)
  | StartShare attempt_id room_id codec coded_width coded_height extradata =>
      handle_start_share token session_id attempt_id room_id codec coded_width coded_height extradata s
  | StopShare stream_id => report_request_outcome token (stop_share session_id stream_id s)
  | Ping nonce => send token (Pong nonce) s
  | BugReportStart report_id description metadata logs_size =>
      report_bug_outcome token (start_bug_report session_id report_id description metadata logs_size s)
  | BugReportChunk report_id offset data => report_bug_outcome token (receive_bug_report_chunk session_id report_id offset data s)
  | BugReportComplete report_id => report_bug_outcome token (complete_bug_report enqueued session_id report_id s)
  end.

(** [handle_control] on a connection in state [Ready], and what the read loop does
    with a failure. *)
Definition handle_control (enqueued : result bool ()) (token : Z) (c : ClientControl) (s : server) : outcome :=
  match session_for_token s token with
  | Err e => Some (s, Err e)
  | Ok session_id => handle_session_control enqueued token session_id c s
  end.

Definition receive_control (enqueued : result bool ()) (token : Z) (c : ClientControl) (s : server) : option server :=
  '(s, r) ← handle_control enqueued token c s;
  match r with Ok _ => Some s | Err _ => disc token s end.

End ops.
