(* ===== verification/ServerConns.v ===== *)
(** * Connections of the control server

    Accepting and admitting a connection, telling from its first bytes what it is,
    the handshake, establishing a session, sealing and writing what is queued, the
    timeouts and the reports of the voice relay ([Server] of
    src/crates/server/src/lib.rs).  The two halves of a socket are any [SocketSource]
    and [Write]; the codec of the hello and of control messages, and whether the
    poller takes a socket, are arguments. *)

From stdpp Require Import sorting pretty.
From S2P Require Import Prelude Primitives Transport Handshake Auth Media Frame Evented ControlLane Video Net History Usernames Identity.
From S2P Require Import VoiceRelay RoomLog RoomStore ServerState ServerCascade ServerOps.

(** ** Texts *)

Abbreviation text := ascii_bytes.

Definition decimal (n : Z) : bytes := text (pretty (Z.to_N n)).

Definition crypto_error_text (e : CryptoError) : bytes :=
  match e with
  | Random => text "secure random generation failed"
  | InvalidHandshake => text "invalid handshake"
  | InvalidSignature => text "server signature verification failed"
  | InvalidKey => text "invalid key material"
  | InvalidEncoding => text "invalid encoded key material"
  | Transport.UnsupportedVersion version => text "unsupported protocol version " ++ decimal version
  | WrongKeyId => text "encrypted frame key id mismatch"
  | CounterMismatch => text "encrypted frame counter mismatch"
  | Transport.Replay => text "encrypted frame replay detected"
  | CounterExhausted => text "encrypted frame counter exhausted"
  | Cipher => text "authenticated encryption failure"
  | BindProofMismatch => text "bind proof mismatch"
  end.

(** [Display] of addresses: dotted bytes; groups of hexadecimal digits with the
    longest run of two zero groups or more, the first of them, written [::]. *)
Definition ipv4_text (ip : Z) : bytes :=
  decimal (ip / 2 ^ 24 mod 256) ++ text "." ++ decimal (ip / 2 ^ 16 mod 256) ++ text "." ++
  decimal (ip / 2 ^ 8 mod 256) ++ text "." ++ decimal (ip mod 256).

Definition hex_digit (d : Z) : byte := default Byte.x00 (text "0123456789abcdef" !! Z.to_nat d).

Fixpoint hex_digits (fuel : nat) (n : Z) (out : bytes) : bytes :=
  match fuel with
  | O => out
  | S fuel => let out := hex_digit (n mod 16) :: out in if decide (n / 16 = 0) then out else hex_digits fuel (n / 16) out
  end.

Fixpoint segments (octets : bytes) : list Z :=
  match octets with a :: b :: octets => u8 a * 256 + u8 b :: segments octets | _ => [] end.

Fixpoint groups_text (l : list Z) : bytes :=
  match l with [] => [] | [n] => hex_digits 4 n [] | n :: l => hex_digits 4 n [] ++ text ":" ++ groups_text l end.

(** The spans as (start, length): the longest so far and the current one. *)
Fixpoint longest_zeros (l : list Z) (at_ : nat) (longest current : nat * nat) : nat * nat :=
  match l with
  | [] => longest
  | n :: l =>
      if decide (n = 0) then
        let current := (if decide (current.2 = 0)%nat then at_ else current.1, S current.2) in
        longest_zeros l (S at_) (if decide (longest.2 < current.2)%nat then current else longest) current
      else longest_zeros l (S at_) longest (0%nat, 0%nat)
  end.

Definition ipv6_text (octets : bytes) : bytes :=
  if decide (take 12 octets = replicate 10 Byte.x00 ++ [Byte.xff; Byte.xff]) then
    text "::ffff:" ++ ipv4_text (foldl (fun n b => n * 256 + u8 b) 0 (drop 12 octets))
  else
    let l := segments octets in
    let longest := longest_zeros l 0 (0%nat, 0%nat) (0%nat, 0%nat) in
    if decide (1 < longest.2)%nat
    then groups_text (take longest.1 l) ++ text "::" ++ groups_text (drop (longest.1 + longest.2) l)
    else groups_text l.

Definition addr_text (a : SocketAddr) : bytes :=
  match a with
  | SockV4 ip port => ipv4_text ip ++ text ":" ++ decimal port
  | SockV6 octets port _ scope_id =>
      text "[" ++ ipv6_text octets ++ (if decide (scope_id = 0) then [] else text "%" ++ decimal scope_id) ++ text "]:" ++ decimal port
  end.

Section conns.
Context {Rx Tx St : Type} `{HashOrder} `{ChatStore St} `{Primitives} `{Write Tx}.
Context (encode_server_control : ServerControl -> bytes) (encode_server_hello : ServerHello -> bytes).
Context (random : nat -> nat -> option bytes) (now now_ms : Z).

Abbreviation server := (Server Rx Tx St).
Abbreviation client := (ClientConn Rx Tx).
Abbreviation outcome := (option (server * result bytes ())).
Abbreviation disc := (disconnect encode_server_control now).
Abbreviation send := (send_control_to_token encode_server_control disc).
Abbreviation tell := (tell encode_server_control disc).

Definition update_client (token : Z) (f : client -> client) (s : server) : server := set_clients (alter f token (clients s)) s.

Definition is_closing (c : client) : bool := match cc_close c with CloseOpen => false | Draining _ => true end.

Definition begin_graceful_close (c : client) : client :=
  match cc_close c with CloseOpen => set_close (Draining (now + CLOSE_FLUSH_GRACE)) c | Draining _ => c end.

Definition setup_complete (c : client) : bool :=
  match cc_kind c with
  | Unidentified => false
  | ControlConn => bool_decide (cc_state c = Ready)
  | VideoKind w => match vc_phase w with VideoStreaming => true | _ => false end
  end.

Definition queue_client_read (token : Z) (s : server) : server :=
  if decide (token ∈ client_read_set s) then s
  else set_client_reads (client_reads s ++ [token]) (set_client_read_set ({[token]} ∪ client_read_set s) s).

Definition queue_client_write (token : Z) (s : server) : server :=
  if decide (token ∈ client_write_set s) then s
  else set_client_writes (client_writes s ++ [token]) (set_client_write_set ({[token]} ∪ client_write_set s) s).

(** ** Admission *)

Definition new_client (rx : Rx) (tx : Tx) (addr : SocketAddr) : client :=
  {| cc_rx := rx; cc_tx := tx; cc_addr := addr; cc_read_buf := RecvBuffer.new; cc_readiness := false;
     cc_write_buf := WriteQueue.new; cc_kind := Unidentified; cc_state := AwaitClientHello; cc_control := None;
     cc_transport := None; cc_session_id := None; cc_user_id := None; cc_close := CloseOpen; cc_pre_auth := true;
     cc_created_at := now; cc_last_activity := now |}.

(** [registered] is the answer of the poller; the error it gives stops the loop. *)
Definition accept_client (rx : Rx) (tx : Tx) (addr : SocketAddr) (registered : bool) (s : server) : server * result () () :=
  if decide (MAX_CLIENTS <= size (clients s))%nat then (s, Ok ())
  else
    let '(limiter, r) := PreAuthLimiter.admits (pre_auth s) (ip addr) in
    match r with
    | Err _ => (set_pre_auth (PreAuthLimiter.refusals_to_report limiter now).1 s, Ok ())
    | Ok _ =>
        let s := set_pre_auth limiter s in
        let token := next_token s in
        let s := set_next_token (next_token s + 1) s in
        if registered then (set_clients (<[token := new_client rx tx addr]> (clients s)) s, Ok ())
        else (set_pre_auth (PreAuthLimiter.release (pre_auth s) (ip addr)) s, Err ())
    end.

Definition finish_pre_auth (token : Z) (s : server) : server :=
  match clients s !! token with
  | None => s
  | Some c =>
      if cc_pre_auth c
      then set_pre_auth (PreAuthLimiter.release (pre_auth s) (ip (cc_addr c)))
             (set_clients (<[token := set_conn_pre_auth false c]> (clients s)) s)
      else s
  end.

(** [permit] is the answer of [reserve_tcp_handoff], [deregistered] that of the
    poller and [registered] what the relay's poller will answer. *)
Definition attach_voice_tcp_conn (permit deregistered registered : bool) (token : Z) (s : server) : option server :=
  if negb permit then disc token s
  else
    match clients s !! token with
    | None => Some s
    | Some c =>
        let s := set_clients (delete token (clients s)) s in
        let s := if cc_pre_auth c then set_pre_auth (PreAuthLimiter.release (pre_auth s) (ip (cc_addr c))) s else s in
        Some (if deregistered then submit_voice (AttachTcp (cc_rx c) (cc_tx c) (cc_addr c) (cc_read_buf c) registered) s else s)
    end.

Definition starts_with (prefix bs : bytes) : bool := bool_decide (take (length prefix) bs = prefix).

Definition new_video_conn : VideoConn :=
  {| vc_phase := VideoAwaitHello; vc_session_id := None; vc_stream_id := None; vc_role := None; vc_record := None; vc_reader := None |}.

(** The part of [read_client] that tells what a connection is; [false] when there
    is nothing more to read. *)
Definition classify (permit deregistered registered : bool) (token : Z) (s : server) : option (server * bool) :=
  match clients s !! token with
  | None => Some (s, true)
  | Some c =>
      match cc_kind c with
      | Unidentified =>
          if decide (RecvBuffer.len (cc_read_buf c) < length VIDEO_MAGIC)%nat then Some (s, false)
          else if starts_with VIDEO_MAGIC (RecvBuffer.pending (cc_read_buf c)) then
            Some (set_clients (<[token := set_kind (VideoKind new_video_conn)
                                            (set_read_buf (RecvBuffer.consume (cc_read_buf c) (length VIDEO_MAGIC)) c)]> (clients s)) s,
                  true)
          else if starts_with VOICE_TCP_MAGIC (RecvBuffer.pending (cc_read_buf c)) then
            let s := set_clients (<[token := set_read_buf (RecvBuffer.consume (cc_read_buf c) (length VOICE_TCP_MAGIC)) c]>
                                    (clients s)) s in
            s ← attach_voice_tcp_conn permit deregistered registered token s;
            Some (s, false)
          else Some (set_clients (<[token := set_kind ControlConn c]> (clients s)) s, true)
      | _ => Some (s, true)
      end
  end.

(** ** Writing *)

Definition has_pending (s : server) (token : Z) : bool :=
  match pending_controls s !! token with Some (_ :: _) => true | _ => false end.

Definition write_client (token : Z) (s : server) : option server :=
  match clients s !! token with
  | None => Some s
  | Some c =>
      let queued_before := write_len c in
      let '(tx, q, r) := write_queue_to (cc_tx c) (cc_write_buf c) TCP_WRITE_ATTEMPTS in
      let c := set_tx tx (set_write_buf q c) in
      let '(c, disconnected, requeue) :=
        match r with
        | Ok o => (if decide (0 < bytes_written o)%nat then set_last_activity now c else c, wrote_zero o, write_hit_limit o)
        | Err _ => (c, true, false)
        end in
      let disconnected := disconnected || is_closing c && WriteQueue.is_empty (cc_write_buf c) && negb (has_pending s token) in
      let s := set_write_queue_total_bytes (saturating_sub (write_queue_total_bytes s) (queued_before - write_len c)) s in
      let s := set_clients (<[token := c]> (clients s)) s in
      if (disconnected : bool) then disc token s
      else Some (if (requeue : bool) then queue_client_write token s else s)
  end.

(** A failure leaves the queue as it was, the cipher as sealing left it. *)
Definition seal_control_payload_now (token : Z) (payload : bytes) (s : server) : server * result bytes () :=
  match clients s !! token with
  | None => (s, Err (text "unknown client token"))
  | Some c =>
      match cc_control c with
      | None => (s, Err (text "missing control cipher"))
      | Some transport =>
          let sealed_len := RecordProtection.sealed_len transport (length payload) in
          let '(transport, frame, r) := RecordProtection.seal_next_into transport CHANNEL_CONTROL payload (le_bytes 4 (Z.of_nat sealed_len)) in
          let c := set_control_cipher (Some transport) c in
          match r with
          | Err e => (set_clients (<[token := c]> (clients s)) s, Err (crypto_error_text e))
          | Ok _ =>
              let c' := set_write_buf (WriteQueue.append (cc_write_buf c) frame) c in
              let s := set_clients (<[token := c']> (clients s)) s in
              let s := set_write_queue_total_bytes (write_queue_total_bytes s + (write_len c' - write_len c)) s in
              (queue_client_write token s, Ok ())
          end
      end
  end.

(** What [process_control_sends] does once a message is taken off its queue;
    [false] when it had to disconnect. *)
Definition send_scheduled (token : Z) (c : ServerControl) (s : server) : option (server * bool) :=
  let sealed_size :=
    match clients s !! token ≫= cc_control with
    | Some transport => Z.of_nat LENGTH_PREFIX_LEN + Z.of_nat (RecordProtection.sealed_len transport (length (encode_server_control c)))
    | None => 0
    end in
  let s := set_pending_control_bytes (alter (fun n => saturating_sub n sealed_size) token (pending_control_bytes s)) s in
  let s := set_pending_control_total_bytes (saturating_sub (pending_control_total_bytes s) sealed_size) s in
  let '(s, r) := seal_control_payload_now token (encode_server_control c) s in
  match r with
  | Err _ => s ← disc token s; Some (s, false)
  | Ok _ =>
      Some (if has_pending s token
            then (if decide (token ∈ control_send_set s) then s
                  else set_control_send_tokens (control_send_tokens s ++ [token]) (set_control_send_set ({[token]} ∪ control_send_set s) s))
            else set_pending_control_bytes (delete token (pending_control_bytes s))
                   (set_pending_controls (delete token (pending_controls s)) s), true)
  end.

(** The loop; a round either takes the token of a connection that is gone off the
    queue, which can happen as often as there are tokens and connections, or seals
    a record, of which there are at most [CONTROL_SEAL_BUDGET_RECORDS]. *)
Fixpoint send_loop (fuel records : nat) (sealed : Z) (s : server) : option server :=
  match fuel with
  | O => None
  | S fuel =>
      if decide (CONTROL_SEAL_BUDGET_RECORDS <= records)%nat then Some s
      else
        match control_send_tokens s with
        | [] => Some s
        | token :: tokens =>
            let s := set_control_send_set (control_send_set s ∖ {[token]}) (set_control_send_tokens tokens s) in
            match pending_controls s !! token with
            | Some (c :: q) =>
                let s := set_pending_controls (<[token := q]> (pending_controls s)) s in
                let n := len (encode_server_control c) in
                if decide ((0 < records)%nat /\ CONTROL_SEAL_BUDGET_BYTES < saturating_add 64 sealed n) then
                  let s := set_pending_controls (<[token := c :: q]> (pending_controls s)) s in
                  Some (set_control_send_tokens (token :: control_send_tokens s)
                          (set_control_send_set ({[token]} ∪ control_send_set s) s))
                else
                  let sealed := saturating_add 64 sealed n in
                  '(s, done) ← send_scheduled token c s;
                  if done && bool_decide (CONTROL_SEAL_BUDGET_BYTES <= sealed) then Some s
                  else send_loop fuel (S records) sealed s
            | _ =>
                let s := set_pending_control_bytes (delete token (pending_control_bytes s))
                           (set_pending_controls (delete token (pending_controls s)) s) in
                send_loop fuel records sealed s
            end
        end
  end.

Definition process_control_sends (s : server) : option server :=
  send_loop (S (length (control_send_tokens s) + size (clients s) + CONTROL_SEAL_BUDGET_RECORDS)) 0 0 s.

(** ** The handshake *)

(** The key and the nonce are two draws of the generator. *)
Definition handle_client_hello (token : Z) (hello : ClientHello) (s : server) : outcome :=
  if cfg_require_hello_mac (config s) && negb (verify_client_hello_mac1 (ed25519_public (cfg_server_key (config s))) hello)
  then done_with (disc token s)
  else
    let n := rng_draws s in
    let s := set_rng_draws (n + 2) s in
    match respond_to_client_hello (random n KEY_LEN) (random (S n) KEY_LEN) (cfg_server_key (config s)) hello
            (cfg_transport_mode (config s)) with
    | Err e => Some (s, Err (crypto_error_text e))
    | Ok response =>
        match clients s !! token with
        | None => err "unknown client token" s
        | Some c =>
            let '(buf, r) := encode_frame (encode_server_hello (srv_hello response)) [] in
            match r with
            | Err _ => err "frame exceeds maximum length" s
            | Ok _ =>
                let c' := set_write_buf (WriteQueue.append (cc_write_buf c) buf) c in
                let s := set_write_queue_total_bytes (write_queue_total_bytes s + (write_len c' - write_len c)) s in
                let c' := set_conn_state AwaitAuth (set_transport (Some (srv_transport response))
                            (set_control_cipher (Some (control_record (srv_transport response))) c')) in
                let s := set_clients (<[token := c']> (clients s)) s in
                done_with (write_client token s)
            end
        end
    end.

(** ** What a new session is told *)

Definition is_dynamic_user_id (user_id : Z) : bool := bool_decide (FIRST_DYNAMIC_USER_ID <= user_id).

Definition room_info (s : server) (room : RoomState) : RoomInfo :=
  let voice_users : gset Z := list_to_set (omap (fun id => ss_user_id <$> sessions s !! id) (hash_values (rm_active_streams room))) in
  {| ri_room_id := rm_id room; ri_name := rm_name room; ri_kind := RoomAccess.kind (rm_access room);
     ri_head := store_head (store s) (rm_id room); ri_voice_users := merge_sort Z.le (hash_elems voice_users) |}.

Definition room_le (a b : RoomState) : Prop := rm_id a <= rm_id b.
#[export] Instance room_le_dec : RelDecision room_le.
Proof. intros a b. unfold room_le. apply _. Defined.

Definition accessible_room_infos (s : server) (user_id : Z) : list RoomInfo :=
  room_info s <$> merge_sort room_le (filter (fun room => RoomAccess.allows (rm_access room) user_id = true) (hash_values (rooms s))).

Definition representative_sessions (s : server) : gmap Z (Z * Session) :=
  foldl (fun by_user '(id, x) =>
           if ss_announced x then
             match by_user !! ss_user_id x with
             | Some (slot, _) => if decide (id < slot) then <[ss_user_id x := (id, x)]> by_user else by_user
             | None => <[ss_user_id x := (id, x)]> by_user
             end
           else by_user) ∅ (hash_iter (sessions s)).

Definition room_contact_ids (requester : Z) (rooms : list RoomInfo) : gset Z :=
  list_to_set (rooms ≫= fun room =>
    match ri_kind room with
    | KindDm user_a user_b => (if decide (user_a = requester) then [user_b] else []) ++ (if decide (user_b = requester) then [user_a] else [])
    | KindPrivate members => members
    | KindPublic => []
    end) ∖ {[requester]}.

Definition summary_le (a b : UserSummary) : Prop := us_user_id a <= us_user_id b.
#[export] Instance summary_le_dec : RelDecision summary_le.
Proof. intros a b. unfold summary_le. apply _. Defined.

Definition user_summaries (s : server) (requester : Z) (accessible_rooms : list RoomInfo) : list UserSummary :=
  let announced_by_user := representative_sessions s in
  let contacts := room_contact_ids requester accessible_rooms in
  let explicit : gset Z := list_to_set (Identity.user_id <$> users s) in
  let configured := (fun u =>
    let x := snd <$> announced_by_user !! Identity.user_id u in
    {| us_user_id := Identity.user_id u; us_username := username_of s (Identity.user_id u); us_online := bool_decide (is_Some x);
       us_connected_at_ms := match x with Some x => ss_connected_at_ms x | None => 0 end;
       us_voice_state := match x with Some x => ss_voice_state x | None => Live end |}) <$> users s in
  let online := filter (fun p => is_dynamic_user_id p.1 = true /\ p.1 ∉ explicit) (hash_iter announced_by_user) in
  let included : gset Z := explicit ∪ list_to_set online.*1 in
  let offline := omap (fun id => n ← UsernameRegistry.username_for (usernames s) id;
                         Some {| us_user_id := id; us_username := Utf8.encode n; us_online := false; us_connected_at_ms := 0;
                                 us_voice_state := Live |})
                   (filter (fun id => is_dynamic_user_id id = true /\ id ∉ included) (hash_elems contacts)) in
  merge_sort summary_le (configured ++ ((fun p => session_user_summary s p.2.2 true) <$> online) ++ offline).

(** ** Sessions *)

Definition register_media_route (route session_id : Z) (s : server) : server * result bytes () :=
  if match reserved_media_routes s !! route with
     | Some existing => bool_decide (existing <> session_id) && bool_decide (is_Some (sessions s !! existing))
     | None => false
     end
  then (s, Err (text "media route id collision"))
  else (set_reserved_media_routes (<[route := session_id]> (reserved_media_routes s)) s, Ok ()).

(** [establish_session_with_credential], for the user and the issued token of a
    [PendingEstablish]. *)
Definition establish_session (token : Z) (e : PendingEstablish) (s : server) : outcome :=
  let user_id := Identity.user_id (pe_user e) in
  let session_id := next_session s in
  let s := set_next_session (next_session s + 1) s in
  let username := username_of s user_id in
  match clients s !! token ≫= cc_transport with
  | None => err "session transport missing after handshake" s
  | Some transport =>
      let s := update_client token (set_transport None) s in
      let '(s, r) := register_media_route (route_id transport) session_id s in
      match r with
      | Err e => Some (s, Err e)
      | Ok _ =>
          let s := submit_voice (RegisterSession session_id user_id (MediaProtection.from_transport transport)) s in
          let s := set_sessions (<[session_id :=
                     {| ss_user_id := user_id; ss_tcp_token := token; ss_voice_room := None; ss_transport := transport;
                        ss_active_stream := None; ss_voice_state := Live; ss_reported_server_rtt_ms := None;
                        ss_server_rtt_reported_at := None; ss_p2p := None; ss_receive_files := pe_receive_files e;
                        ss_file_receive_limit_bytes := pe_file_receive_limit_bytes e; ss_announced := pe_announce e;
                        ss_connected_at_ms := now_ms |}]> (sessions s)) s in
          let s := update_client token (fun c => set_conn_user (Some user_id) (set_conn_session (Some session_id) (set_conn_state Ready c))) s in
          let s := finish_pre_auth token s in
          let rooms := accessible_room_infos s user_id in
          let users := user_summaries s user_id rooms in
          let response :=
            match pe_issued_token e with
            | Some (IssuedOpenPair t) => OpenPaired t session_id user_id rooms users (cfg_default_room (config s))
            | Some (IssuedDeviceLink t) => DeviceLinked t username session_id user_id rooms users (cfg_default_room (config s))
            | None => Authenticated session_id user_id rooms users (cfg_default_room (config s)) (cfg_dms_enabled (config s))
            end in
          '(s, r) ← send token response s;
          match r with
          | Err e => Some (s, Err e)
          | Ok _ =>
              let announced := filter (fun p => ss_user_id p.2 = user_id /\ ss_announced p.2 = true) (hash_iter (sessions s)) in
              if pe_announce e && bool_decide (length announced = 1%nat) && is_live_session s session_id
              then done_with (broadcast_presence encode_server_control disc session_id true s)
              else ok s
          end
      end
  end.

Definition reject_auth (token code : Z) (message : bytes) (s : server) : outcome :=
  '(s, r) ← send token (Error code message) s;
  match r with
  | Err e => Some (s, Err e)
  | Ok _ => done_with (write_client token (update_client token begin_graceful_close s))
  end.

(** ** Timeouts and sweeps *)

Definition flush_disconnects (s : server) : option server :=
  each disc (filter (fun p => match cc_close p.2 with
                              | CloseOpen => false
                              | Draining deadline =>
                                  WriteQueue.is_empty (cc_write_buf p.2) && negb (has_pending s p.1) || bool_decide (deadline <= now)
                              end = true) (hash_iter (clients s))).*1 s.

(** [saturating_duration_since]. *)
Definition since (t : Z) : Z := saturating_sub now t.

Definition timed_out (c : client) : bool :=
  if is_closing c then false
  else if setup_complete c then bool_decide (IDLE_TIMEOUT < since (cc_last_activity c))
  else bool_decide (HANDSHAKE_TIMEOUT < since (cc_created_at c)).

Definition sweep_idle_connections (s : server) : option server :=
  if decide (now < next_idle_sweep_at s) then Some s
  else
    let s := set_next_idle_sweep_at (now + IDLE_SWEEP_INTERVAL) s in
    each disc (filter (fun p => timed_out p.2 = true) (hash_iter (clients s))).*1 s.

Definition sweep_orphaned_shares (s : server) : option server :=
  if decide (now < next_share_sweep_at s) then Some s
  else
    let s := set_next_share_sweep_at (now + SHARE_SWEEP_INTERVAL) s in
    each (end_share encode_server_control disc)
      (filter (fun p => match VideoPublisherState.deadline (st_publisher p.2) with
                        | Some at_ => bool_decide (at_ <= now)
                        | None => false
                        end = true) (hash_iter (streams s))).*1 s.

Definition sweep_stale_media_routes (s : server) : server :=
  if match next_media_sweep_at s with Some deadline => bool_decide (now < deadline) | None => false end then s
  else
    let s := set_next_media_sweep_at (Some (now + MEDIA_SWEEP_INTERVAL)) s in
    set_reserved_media_routes (filter (fun p => is_Some (sessions s !! p.2)) (reserved_media_routes s)) s.

Definition fresh_server_rtt (x : Session) : option Z :=
  match ss_server_rtt_reported_at x with
  | Some reported_at => if decide (since reported_at < RTT_STALE_AFTER) then ss_reported_server_rtt_ms x else None
  | None => None
  end.

Definition rtt_le (a b : ParticipantServerRtt) : Prop := pr_user_id a <= pr_user_id b.
#[export] Instance rtt_le_dec : RelDecision rtt_le.
Proof. intros a b. unfold rtt_le. apply _. Defined.

Definition room_rtt_snapshot (s : server) (room_id : Z) : list ParticipantServerRtt :=
  merge_sort rtt_le
    (omap (fun id => x ← sessions s !! id; Some {| pr_user_id := ss_user_id x; pr_server_rtt_ms := fresh_server_rtt x |})
       (voice_member_sessions s room_id)).

Definition poll_room_rtt_snapshots (s : server) : option server :=
  if decide (now < next_rtt_snapshot_at s) then Some s
  else
    let s := set_next_rtt_snapshot_at (now + RTT_SNAPSHOT_INTERVAL) s in
    each (fun room_id s =>
            let c := RoomRttSnapshot room_id (room_rtt_snapshot s room_id) in
            send_control_to_tokens encode_server_control disc
              (omap (live_token_for_session s) (voice_member_sessions s room_id)) c s)
      (rm_id <$> filter (fun room => rm_active_streams room <> ∅) (hash_values (rooms s))) s.

(** ** Reports of the voice relay *)

Definition session_udp_bound (p : Z * SocketAddr) (s : server) : option server :=
  match live_token_for_session s p.1 with
  | None => Some s
  | Some token =>
      s ← tell token UdpBound s;
      if cfg_p2p (config s) && is_live_session s p.1 then tell token (UdpReflexive (addr_text p.2)) s else Some s
  end.

Definition session_probed (p : (Z * Z) * SocketAddr) (s : server) : option server :=
  match live_token_for_session s p.1.1 with
  | None => Some s
  | Some token => tell token (P2pNatProbe p.1.2 (addr_text p.2)) s
  end.

Definition session_active (p : Z * VoiceActivity) (s : server) : option server :=
  match sessions s !! p.1 with
  | None => Some s
  | Some x =>
      let s := update_client (ss_tcp_token x) (fun c => set_last_activity (Z.max (cc_last_activity c) (act_last_activity p.2)) c) s in
      Some (update_session p.1 (fun x => set_server_rtt_reported_at (act_rtt_reported_at p.2)
                                          (set_reported_server_rtt_ms (act_reported_rtt_ms p.2) x)) s)
  end.

(** [events] is what the relay hands over; its failure stops the loop. *)
Definition drain_voice_events (events : VoiceEventBatch) (s : server) : option (server * result bytes ()) :=
  match failure events with
  | Some e => Some (s, Err e)
  | None =>
      s ← each session_udp_bound (hash_iter (udp_bound events)) s;
      s ← (if cfg_p2p (config s) then each session_probed (hash_iter (nat_probe events)) s else Some s);
      s ← each session_active (hash_iter (activity events)) s;
      ok s
  end.

End conns.
