(* ===== verification/ServerAuth.v ===== *)
(** * Authentication

    How a connection becomes a session ([Server] of src/crates/server/src/lib.rs):
    a device credential, a public bearer token or the token of an explicit user;
    pairing with an invite; open pairing on a public server with its rate limits;
    and the changes of names that wait for the identity writer
    (src/crates/server/src/identity_writer.rs), during which other
    authentications are deferred.

    Of the MLS service only its credentials and the accounts it has initialized
    are modelled.  A text of the protocol is UTF-8; [chars] are its characters. *)

From stdpp Require Import sorting pretty.
From S2P Require Import Prelude Primitives Transport Handshake Auth Media Frame Evented ControlLane Video Net History Usernames Identity.
From S2P Require Import Clock VoiceRelay RoomLog RoomStore ServerState ServerCascade ServerOps ServerConns.

Definition OPEN_PAIR_RATE_WINDOW : Z := from_secs 60.
Definition OPEN_PAIR_PER_IP_LIMIT : nat := 6.
Definition OPEN_PAIR_GLOBAL_LIMIT : nat := 30.

Definition ERROR_AUTH_REJECTED : Z := 401.
Definition ERROR_PUBLIC_DISABLED : Z := 403.
Definition ERROR_PAIRING_NOT_ACTIVE : Z := 410.
Definition ERROR_PAIRING_INVALID_REQUEST : Z := 422.
Definition ERROR_PASSWORD_MISMATCH : Z := 423.
Definition ERROR_TOKEN_STALE_EPOCH : Z := 426.
Definition ERROR_PASSWORD_REQUIRED : Z := 428.
Definition ERROR_OPEN_PAIR_RATE_LIMITED : Z := 429.
Definition ERROR_USERNAME_TAKEN : Z := 455.
Definition ERROR_INTERNAL : Z := 500.

Definition chars (b : bytes) : list Z := default [] (Utf8.decode b).

Definition username_error_text (e : UsernameError) : bytes :=
  match e with
  | UsernameEmpty => text "username is empty"
  | TooLong => text "username exceeds 64 bytes"
  | TooWide => text "username exceeds 32 display columns"
  | Control => text "username must not contain control characters"
  | Invisible => text "username must not contain invisible characters"
  | Whitespace => text "username may only use the ordinary space character"
  end.

(** The errors of a claim that touches no file. *)
Definition claim_error_text (user_id : Z) (name : list Z) (e : RegistryError) : bytes :=
  match e with
  | NotDynamic => text "user " ++ decimal user_id ++ text " is not a dynamic user"
  | InvalidUsername e => username_error_text e
  | UsernameInUse => text "username '" ++ Utf8.encode (Username.trim name) ++ text "' is already in use"
  | _ => []
  end.

(** ** What the MLS service knows *)

Record DeviceCredential := mkCredential { dc_user_id : Z; dc_token_hash : bytes }.

Record MlsDirectory := mkDirectory {
  credentials : list DeviceCredential;
  initialized_accounts : gset Z;
}.

Definition initialized (d : MlsDirectory) (user_id : Z) : bool := bool_decide (user_id ∈ initialized_accounts d).



Definition authenticate_credential `{Primitives} (d : MlsDirectory) (token : bytes) : option Z :=
  dc_user_id <$> List.find (fun c => verify_secret_hash (dc_token_hash c) token) (credentials d).

(** [DynamicUser] ids name themselves when their name is unusable. *)
Definition dynamic_user `{Unicode} (user_id : Z) (username : list Z) : UserConfig :=
  let username := Username.trim username in
  let shown := chars (decimal user_id) in
  {| Identity.user_id := user_id; internal_reference := shown;
     user_name := if Username.is_valid username then username else shown; token_hash := [] |}.

Fixpoint prune_instants (queue : list Z) (now window : Z) : list Z :=
  match queue with
  | [] => []
  | at_ :: rest => if decide (window <= saturating_sub now at_) then prune_instants rest now window else queue
  end.

Definition identity_control_needs_ordering (c : ClientControl) : bool :=
  match c with Authenticate _ _ _ _ | Pair _ _ _ _ _ | OpenPair _ _ _ _ _ => true | _ => false end.

Section auth.
Context {Rx Tx St : Type} `{HashOrder} `{ChatStore St} `{Primitives} `{Write Tx} `{Unicode} `{ClaimsCodec}.
Context (encode_server_control : ServerControl -> bytes) (random : nat -> nat -> option bytes) (now now_ms : Z).
(** The MLS service, and whether the thread of the identity writer runs. *)
Context (mls : MlsDirectory) (writer_runs : bool).

Abbreviation server := (Server Rx Tx St).
Abbreviation client := (ClientConn Rx Tx).
Abbreviation outcome := (option (server * result bytes ())).
Abbreviation disc := (disconnect encode_server_control now).
Abbreviation send := (send_control_to_token encode_server_control disc).
Abbreviation reject := (reject_auth encode_server_control now).
Abbreviation establish := (establish_session encode_server_control now now_ms).

(** ** Names *)

Definition broadcast_username_change (user_id : Z) (s : server) : option server :=
  match representative_sessions s !! user_id with
  | None => Some s
  | Some (_, session) =>
      let c := Presence (session_user_summary s session true) true in
      let tokens := filter (fun t => is_Some (clients s !! t)) (ss_tcp_token <$> hash_values (sessions s)) in
      send_control_to_tokens encode_server_control disc tokens c s
  end.

Definition apply_dynamic_username (user_id : Z) (username : list Z) (s : server) : outcome :=
  let '(names, r) := UsernameRegistry.apply_dynamic_claim (usernames s) user_id username in
  match r with
  | Err e => Some (s, Err (claim_error_text user_id username e))
  | Ok _ => done_with (broadcast_username_change user_id (set_usernames names s))
  end.

(** Only called when the registry has no log, so that nothing is written. *)
Definition claim_dynamic_username (user_id : Z) (username : list Z) (s : server) : outcome :=
  let '(names, r) := UsernameRegistry.claim_dynamic AppendOk (usernames s) user_id username in
  match r with
  | Err e => Some (set_usernames names s, Err (claim_error_text user_id username e))
  | Ok _ => done_with (broadcast_username_change user_id (set_usernames names s))
  end.

Definition install_explicit_username (us : list UserConfig) (u : UserConfig) (s : server) : option server :=
  let s := set_users us s in
  let s := set_usernames (UsernameRegistry.set_explicit (usernames s) (Identity.user_id u) (user_name u)) s in
  broadcast_username_change (Identity.user_id u) s.

Definition persisted_names (s : server) : bool := bool_decide (is_Some (reg_log (usernames s))).

Definition reject_username_taken (token : Z) (s : server) : outcome :=
  reject token ERROR_USERNAME_TAKEN (text "username already in use; choose another") s.

(** ** The identity writer *)

Definition identity_pending (s : server) (token : Z) : bool :=
  match pending_identity s with Some (pending_token, _) => bool_decide (pending_token = token) | None => false end ||
  bool_decide (token ∈ deferred_identity_tokens s).

(** Its channel holds one request. *)
Definition begin_identity_write (token : Z) (write : IdentityWrite) (pending : PendingIdentity) (failure_message : string)
    (s : server) : outcome :=
  match pending_identity s with
  | Some _ => reject token ERROR_INTERNAL (text "identity persistence is busy; retry shortly") s
  | None =>
      if writer_runs && bool_decide (identity_requests s = [])
      then ok (set_pending_identity (Some (token, pending)) (set_identity_requests [(token, write)] s))
      else reject token ERROR_INTERNAL (text failure_message) s
  end.

(** [execute] of the writer: the log of the registry and the file of the explicit
    users after it, and whether it succeeded.  [io] and [written] say how the file
    system answers. *)
Definition execute_write (io : AppendOutcome) (written : bool) (write : IdentityWrite) (log : option bytes)
    (file : list UserConfig) : option bytes * list UserConfig * bool :=
  match write with
  | WriteDynamicUsername user_id username =>
      let '(log', r) := persist_dynamic_claim io (default [] log) user_id username in
      (Some log', file, match r with Ok _ => true | Err _ => false end)
  | WriteUsersToml snapshot => if written then (log, snapshot, true) else (log, file, false)
  end.

(** ** Establishing an authenticated session *)

Definition authenticate_dynamic_user (token user_id : Z) (username : list Z) (receive_files : bool) (limit : Z) (s : server) : outcome :=
  let user := dynamic_user user_id username in
  let e := {| pe_user := user; pe_receive_files := receive_files; pe_file_receive_limit_bytes := limit; pe_announce := true;
              pe_issued_token := None |} in
  if UsernameRegistry.needs_dynamic_claim (usernames s) user_id username then
    if persisted_names s then
      begin_identity_write token (WriteDynamicUsername user_id username) (DynamicAuthentication username e)
        "authentication failed: the server could not persist the username; retry later" s
    else
      '(s, r) ← claim_dynamic_username user_id username s;
      match r with Err e => Some (s, Err e) | Ok _ => establish token e s end
  else establish token e s.

Definition authenticate_explicit_user (token : Z) (user : UserConfig) (username : list Z) (receive_files : bool) (limit : Z)
    (s : server) : outcome :=
  let establish_as (user : UserConfig) :=
    {| pe_user := user; pe_receive_files := receive_files; pe_file_receive_limit_bytes := limit; pe_announce := true;
       pe_issued_token := None |} in
  if decide (username = user_name user) then establish token (establish_as user) s
  else
    match UserStore.prepare_set_user_username (users s) (Identity.user_id user) username with
    | Err _ => establish token (establish_as user) s
    | Ok (updated, us) =>
        if cfg_users_persisted (config s) then
          begin_identity_write token (WriteUsersToml us) (ExplicitRename us (establish_as updated) (establish_as user))
            "authentication failed: the server could not persist the username; retry later" s
        else
          s ← install_explicit_username us updated s;
          establish token (establish_as updated) s
    end.

Definition authenticate_client (token : Z) (username auth_token : bytes) (receive_files : bool) (limit : Z) (s : server) : outcome :=
  let username := Username.trim (chars username) in
  match authenticate_credential mls auth_token with
  | Some user_id =>
      match Username.validate username with
      | Err e => reject token ERROR_PAIRING_INVALID_REQUEST (text "authentication failed: " ++ username_error_text e) s
      | Ok _ =>
          if negb (UsernameRegistry.is_available (usernames s) username (Some user_id)) then reject_username_taken token s
          else
            match List.find (fun u => bool_decide (Identity.user_id u = user_id)) (users s) with
            | Some user => authenticate_explicit_user token user username receive_files limit s
            | None =>
                if negb (is_dynamic_user_id user_id)
                then reject token ERROR_AUTH_REJECTED (text "authentication failed: this account no longer exists on this server") s
                else authenticate_dynamic_user token user_id username receive_files limit s
            end
      end
  | None =>
      if starts_with DYNAMIC_TOKEN_PREFIX auth_token then
        match verify_dynamic_token (cfg_server_identity_seed (config s)) auth_token with
        | Err _ => reject token ERROR_AUTH_REJECTED (text "authentication failed: invalid public bearer token") s
        | Ok claims =>
            let user_id := claim_user_id claims in
            if negb (is_dynamic_user_id user_id)
            then reject token ERROR_AUTH_REJECTED (text "authentication failed: invalid public bearer token") s
            else if negb (cfg_public (config s)) || bool_decide (password_epoch claims <> cfg_password_epoch (config s))
            then reject token ERROR_TOKEN_STALE_EPOCH (text "authentication failed: the public-server credential is no longer current") s
            else if initialized mls user_id
            then reject token ERROR_AUTH_REJECTED (text "authentication failed: use an active MLS device credential") s
            else if negb (Username.is_valid username) || negb (UsernameRegistry.is_available (usernames s) username (Some user_id))
            then reject token ERROR_AUTH_REJECTED (text "authentication failed: invalid username for this account") s
            else authenticate_dynamic_user token user_id username receive_files limit s
        end
      else
        match List.find (fun u => negb (bool_decide (Text.trim (token_hash u) = [])) && verify_secret_hash (token_hash u) auth_token) (users s) with
        | None => reject token ERROR_AUTH_REJECTED (text "authentication failed: the token is not valid for this server") s
        | Some user =>
            match Username.validate username with
            | Err e => reject token ERROR_PAIRING_INVALID_REQUEST (text "authentication failed: " ++ username_error_text e) s
            | Ok _ =>
                if negb (UsernameRegistry.is_available (usernames s) username (Some (Identity.user_id user)))
                then reject_username_taken token s
                else if initialized mls (Identity.user_id user)
                then reject token ERROR_AUTH_REJECTED (text "authentication failed: use an active MLS device credential") s
                else authenticate_explicit_user token user username receive_files limit s
            end
        end
  end.

(** ** Pairing *)

Definition expire_invites (s : server) : server := set_invites (filter (fun p => now < expires_at p.2) (invites s)) s.

Definition pair_client (token : Z) (username pairing_code new_token : bytes) (receive_files : bool) (limit : Z) (s : server) : outcome :=
  let s := expire_invites s in
  match List.find (fun p => verify_secret_hash (pairing_code_hash p.2) pairing_code) (hash_iter (invites s)) with
  | None =>
      reject token ERROR_PAIRING_NOT_ACTIVE
        (text "pairing failed: no active invite matches this join string; the invite may have expired, been replaced, or already been used. Ask the admin to issue a new one") s
  | Some (invite_name, _) =>
      let username := Username.trim (chars username) in
      match Username.validate username with
      | Err e => reject token ERROR_PAIRING_INVALID_REQUEST (text "pairing failed: " ++ username_error_text e) s
      | Ok _ =>
          let hash := hash_secret new_token in
          if existsb (fun u => bool_decide (internal_reference u <> invite_name) && bool_decide (token_hash u = hash)) (users s)
          then reject token ERROR_PAIRING_INVALID_REQUEST
                 (text "pairing failed: the generated token is already in use; retry pairing") s
          else
            let claimant := Identity.user_id <$> List.find (fun u => bool_decide (internal_reference u = invite_name)) (users s) in
            if negb (UsernameRegistry.is_available (usernames s) username claimant) then reject_username_taken token s
            else
              match UserStore.prepare_mark_user_paired (users s) invite_name username hash with
              | Err _ => reject token ERROR_INTERNAL (text "pairing failed: the server could not persist the pairing; retry pairing") s
              | Ok (user, us) =>
                  let e := {| pe_user := user; pe_receive_files := receive_files; pe_file_receive_limit_bytes := limit;
                              pe_announce := false; pe_issued_token := None |} in
                  if cfg_users_persisted (config s) then
                    begin_identity_write token (WriteUsersToml us) (InvitePairing invite_name us e)
                      "pairing failed: the server could not persist the pairing; retry pairing" s
                  else
                    s ← install_explicit_username us user s;
                    establish token e (set_invites (delete invite_name (invites s)) s)
              end
      end
  end.

(** *** Open pairing *)

Definition prune_open_pair_rate_windows (s : server) : server :=
  let s := set_open_pair_global_allocations (prune_instants (open_pair_global_allocations s) now OPEN_PAIR_RATE_WINDOW) s in
  set_open_pair_ip_allocations
    (filter (fun p => p.2 <> []) ((fun q => prune_instants q now OPEN_PAIR_RATE_WINDOW) <$> open_pair_ip_allocations s)) s.

Definition rate_limited (token : Z) (s : server) : option (server * result bytes bool) :=
  '(s, r) ← reject token ERROR_OPEN_PAIR_RATE_LIMITED (text "open pairing is rate limited; retry later") s;
  Some (s, match r with Ok _ => Ok false | Err e => Err e end).

Definition check_open_pair_attempt_rate (token : Z) (s : server) : option (server * result bytes bool) :=
  let s := prune_open_pair_rate_windows s in
  if decide (OPEN_PAIR_GLOBAL_LIMIT <= length (open_pair_global_allocations s))%nat then rate_limited token s
  else Some (set_open_pair_global_allocations (open_pair_global_allocations s ++ [now]) s, Ok true).

Definition check_open_pair_allocation_rate (token : Z) (s : server) : option (server * result bytes bool) :=
  match clients s !! token with
  | None => Some (s, Ok true)
  | Some c =>
      let source_ip := ip (cc_addr c) in
      let s := prune_open_pair_rate_windows s in
      let q := default [] (open_pair_ip_allocations s !! source_ip) in
      if decide (OPEN_PAIR_PER_IP_LIMIT <= length q)%nat then rate_limited token s
      else Some (set_open_pair_ip_allocations (<[source_ip := q ++ [now]]> (open_pair_ip_allocations s)) s, Ok true)
  end.

(** The allocation is over: the token is issued and the session established, once
    the name is claimed. *)
Definition open_pair_as (token user_id : Z) (username : list Z) (receive_files : bool) (limit : Z) (s : server) : outcome :=
  let issued := issue_dynamic_token (random (rng_draws s) 8) (cfg_server_identity_seed (config s))
                  {| claim_user_id := user_id; password_epoch := cfg_password_epoch (config s) |} in
  let s := set_rng_draws (S (rng_draws s)) s in
  match issued with
  | Err e => Some (s, Err (crypto_error_text e))
  | Ok issued =>
      let e := {| pe_user := dynamic_user user_id username; pe_receive_files := receive_files;
                  pe_file_receive_limit_bytes := limit; pe_announce := false; pe_issued_token := Some (IssuedOpenPair issued) |} in
      if UsernameRegistry.needs_dynamic_claim (usernames s) user_id username then
        if persisted_names s then
          begin_identity_write token (WriteDynamicUsername user_id username) (OpenPairing username e)
            "open pairing failed: the server could not persist state; retry later" s
        else
          '(s, r) ← claim_dynamic_username user_id username s;
          match r with
          | Err _ => reject token ERROR_INTERNAL (text "open pairing failed: the server could not persist state; retry later") s
          | Ok _ => establish token e s
          end
      else establish token e s
  end.

(** The user a returning client proves to be: by its former token, when that is of
    the current epoch or the password was given, or by its recovery token. *)
Definition token_user_id (seed : bytes) (epoch : Z) (password_verified : bool) (existing_token : bytes) : option Z :=
  if decide (existing_token = []) then None
  else
    match verify_dynamic_token seed existing_token with
    | Ok claims =>
        if is_dynamic_user_id (claim_user_id claims) && (bool_decide (password_epoch claims = epoch) || password_verified)
        then Some (claim_user_id claims) else None
    | Err _ => None
    end.

Definition recovery_user_id (seed existing_token : bytes) : option Z :=
  if starts_with OPEN_PAIR_RECOVERY_PREFIX existing_token
  then match dynamic_user_id_from_recovery_token seed existing_token with Ok id => Some id | Err _ => None end
  else None.

Definition open_pair_identified (token : Z) (username : list Z) (existing_token : bytes) (password_verified receive_files : bool)
    (limit : Z) (s : server) : outcome :=
  let seed := cfg_server_identity_seed (config s) in
  let by_token := token_user_id seed (cfg_password_epoch (config s)) password_verified existing_token in
  let by_recovery := recovery_user_id seed existing_token in
  if starts_with OPEN_PAIR_RECOVERY_PREFIX existing_token && bool_decide (by_recovery = None)
  then reject token ERROR_PAIRING_INVALID_REQUEST (text "open pairing failed: recovery token is invalid") s
  else
    match from_option Some by_recovery by_token with
    | None => reject token ERROR_PAIRING_INVALID_REQUEST (text "open pairing failed: a recovery token is required") s
    | Some user_id =>
        if negb (UsernameRegistry.is_available (usernames s) username (Some user_id)) then reject_username_taken token s
        else if bool_decide (by_token = None) && negb (UsernameRegistry.contains_user (usernames s) user_id) then
          '(s, r) ← check_open_pair_allocation_rate token s;
          match r with
          | Err e => Some (s, Err e)
          | Ok false => ok s
          | Ok true => open_pair_as token user_id username receive_files limit s
          end
        else open_pair_as token user_id username receive_files limit s
    end.

Definition open_pair_client (token : Z) (username password existing_token : bytes) (receive_files : bool) (limit : Z) (s : server) : outcome :=
  if negb (cfg_public (config s)) then reject token ERROR_PUBLIC_DISABLED (text "open pairing is disabled on this server") s
  else
    '(s, r) ← check_open_pair_attempt_rate token s;
    match r with
    | Err e => Some (s, Err e)
    | Ok false => ok s
    | Ok true =>
        let identify password_verified :=
          let username := Username.trim (chars username) in
          match Username.validate username with
          | Err e => reject token ERROR_PAIRING_INVALID_REQUEST (text "open pairing failed: " ++ username_error_text e) s
          | Ok _ => open_pair_identified token username existing_token password_verified receive_files limit s
          end in
        match cfg_password_hash (config s) with
        | None => identify false
        | Some required_hash =>
            if decide (password = []) then reject token ERROR_PASSWORD_REQUIRED (text "open pairing requires a password") s
            else if negb (verify_secret_hash required_hash password)
            then reject token ERROR_PASSWORD_MISMATCH (text "open pairing password is incorrect") s
            else identify true
        end
    end.

(** [handle_control] of a connection that has shaken hands. *)
Definition handle_auth_control (token : Z) (c : ClientControl) (s : server) : outcome :=
  match c with
  | Authenticate username auth_token receive_files limit => authenticate_client token username auth_token receive_files limit s
  | Pair username pairing_code new_token receive_files limit => pair_client token username pairing_code new_token receive_files limit s
  | OpenPair username password existing_token receive_files limit =>
      open_pair_client token username password existing_token receive_files limit s
  | _ => err "authenticate before sending control messages" s
  end.

(** ** Replies of the identity writer *)

Definition finish_pending_establish (token : Z) (e : PendingEstablish) (s : server) : option server := ignoring (establish token e s).

(** [reject_auth] with its failure ignored. *)
Definition refuse (token : Z) (message : string) (s : server) : option server :=
  ignoring (reject token ERROR_INTERNAL (text message) s).

Definition finish_identity (token : Z) (pending : PendingIdentity) (written : bool) (s : server) : option server :=
  match pending with
  | DynamicAuthentication username e =>
      if written then
        '(s, r) ← apply_dynamic_username (Identity.user_id (pe_user e)) username s;
        match r with
        | Ok _ => finish_pending_establish token e s
        | Err _ => refuse token "authentication failed: identity state conflicted; retry" s
        end
      else refuse token "authentication failed: the server could not persist the username; retry later" s
  | ExplicitRename us updated fallback =>
      if written then
        s ← install_explicit_username us (pe_user updated) s;
        finish_pending_establish token updated s
      else finish_pending_establish token fallback s
  | InvitePairing invite_name us e =>
      if written then
        s ← install_explicit_username us (pe_user e) s;
        finish_pending_establish token e (set_invites (delete invite_name (invites s)) s)
      else refuse token "pairing failed: the server could not persist the pairing; retry pairing" s
  | OpenPairing username e =>
      if written then
        '(s, r) ← apply_dynamic_username (Identity.user_id (pe_user e)) username s;
        match r with
        | Ok _ => finish_pending_establish token e s
        | Err _ => refuse token "open pairing failed: identity state conflicted; retry" s
        end
      else refuse token "open pairing failed: the server could not persist state; retry later" s
  end.

End auth.
