(* ===== verification/ServerVideo.v ===== *)
(** * Screen shares on the server

    The video connections of [Server] of src/crates/server/src/lib.rs: their
    handshake, a publisher's frames, the ring of recent frames a viewer starts
    from, and the queue that fans frames out to the viewers.  A connection whose
    record is refused is dropped; the text of the refusal only goes to the log,
    so the errors here carry none.

    The codec of the hello and the acknowledgement, the capacities the allocator
    gives and the bound on interrupted reads are arguments.  [None] is a panic. *)

From S2P Require Import Prelude Primitives Transport Handshake Auth Media Frame Evented ControlLane Video Net History Usernames Identity.
From S2P Require Import Clock VoiceRelay RoomLog RoomStore ServerState ServerCascade ServerOps ServerConns.

Definition READ_BUDGET_BYTES : nat := LENGTH_PREFIX_LEN + Z.to_nat MAX_FRAME_LEN.
Definition VIDEO_RECORDS_PER_READ : nat := 8.

(** [size_of::<Token>()] and [size_of::<VideoFanout>()]. *)
Definition TOKEN_BYTES : Z := 8.
Definition VIDEO_FANOUT_BYTES : Z := 72.

(** ** Frames *)

(** Whether a published frame is a keyframe, if its header fits its connection. *)
Definition publisher_frame_is_key (plaintext : bytes) (stream_id : Z) : result () bool :=
  match parse_video_frame_header plaintext with
  | Ok (Some header) =>
      if decide (vh_size header <> len plaintext) then Err ()
      else if decide (vh_stream_id header <> stream_id) then Err ()
      else if vh_bootstrap_end header then Err ()
      else Ok (vh_is_key header)
  | _ => Err ()
  end.

Definition set_ring (ring : list SharedVideoFrame) (ring_bytes visible : Z) (v : VideoStream) : VideoStream :=
  {| st_room_id := st_room_id v; st_owner_session := st_owner_session v; st_user_id := st_user_id v;
     st_sender_name := st_sender_name v; st_publish_secret := st_publish_secret v; st_view_secrets := st_view_secrets v;
     st_codec := st_codec v; st_coded_width := st_coded_width v; st_coded_height := st_coded_height v;
     st_extradata := st_extradata v; st_publisher := st_publisher v; st_announced := st_announced v;
     st_subscribers := st_subscribers v; st_ring := ring; st_ring_bytes := ring_bytes; st_ring_visible_bytes := visible |}.

Definition frame_len (f : SharedVideoFrame) : Z := Z.of_nat (SharedVideoFrame.len f).
Definition frame_retained (f : SharedVideoFrame) : Z := Z.of_nat (SharedVideoFrame.retained_bytes f).

(** Beside the stream, whether the frame is cached. *)
Definition cache_frame (data : SharedVideoFrame) (is_key : bool) (v : VideoStream) : VideoStream * bool :=
  let v := if is_key then set_ring [] 0 0 v else v in
  if negb is_key && bool_decide (st_ring v = []) then (v, false)
  else if decide ((VIDEO_RING_MAX_FRAMES <= length (st_ring v))%nat \/
                  VIDEO_RING_MAX_BYTES < saturating_add 64 (st_ring_bytes v) (frame_retained data))
  then (set_ring [] 0 0 v, false)
  else (set_ring (st_ring v ++ [data]) (st_ring_bytes v + frame_retained data) (st_ring_visible_bytes v + frame_len data) v, true).

Definition video_fanout_charge (data : SharedVideoFrame) (subscriber_capacity : nat) : Z :=
  saturating_add 64 (saturating_add 64 (frame_retained data) (Z.min (umax 64) (Z.of_nat subscriber_capacity * TOKEN_BYTES))) VIDEO_FANOUT_BYTES.

(** ** Reading *)

Inductive VideoStep :=
| VideoHandshake (record : bytes)
| VideoPublish (stream_id : Z) (frame : SharedVideoFrame) (is_key : bool)
| SubscriberChatter.

Inductive VideoPump := PumpStep | PumpIdle | PumpBudget | PumpClosed | PumpFailed.

(** Hands the bytes read before the reader was attached over to it.  A call takes
    at least a byte. *)
Fixpoint drain_residual (fuel : nat) (reader : VideoRecordReader) (buf : RecvBuffer)
    : VideoRecordReader * RecvBuffer * result () () :=
  match fuel with
  | O => (reader, buf, Ok ())
  | S fuel =>
      if RecvBuffer.is_empty buf || VideoRecordReader.record_ready reader then (reader, buf, Ok ())
      else
        match VideoRecordReader.accept reader (RecvBuffer.pending buf) with
        | (reader, Ok taken) => drain_residual fuel reader (RecvBuffer.consume buf taken)
        | (reader, Err _) => (reader, buf, Err ())
        end
  end.

Inductive VideoSealOutcome := SealQueued | SealGone | SealFailed | GlobalSaturated | SubscriberBehind.

Definition drop_reason (o : VideoSealOutcome) : bool := match o with SealQueued => false | _ => true end.

Record SubscriberBootstrap := mkBootstrap { sb_end : SharedVideoFrame; sb_charged_bytes : Z }.

Section video.
Context {Rx Tx St : Type} `{HashOrder} `{ChatStore St} `{Primitives} `{SocketSource Rx} `{Write Tx}.
Context (encode_server_control : ServerControl -> bytes) (random : nat -> nat -> option bytes) (now : Z).
Context (hello_from_binary : bytes -> option VideoHello) (ack_to_binary : VideoAck -> bytes).
(** The capacity of a vector made for a number of elements; how many interrupted
    reads of a socket are tried again. *)
Context (with_capacity : nat -> nat) (tries : Rx -> nat).

Abbreviation server := (Server Rx Tx St).
Abbreviation client := (ClientConn Rx Tx).
Abbreviation refusable := (option (server * result () ())).
Abbreviation disc := (disconnect encode_server_control now).
Abbreviation write_client := (write_client encode_server_control now).

(** The frame a decrypted record backs: the plaintext stands where the ciphertext
    stood. *)
Definition frame_of_record (p : RecordProtection) (record plaintext : bytes) : option SharedVideoFrame :=
  let off := match p with RecordAead _ => TRANSPORT_HEADER_LEN | RecordClear => 0%nat end in
  fst <$> SharedVideoFrame.from_record with_capacity
    {| vec_data := take off record ++ plaintext ++ drop (off + length plaintext) record; vec_cap := with_capacity (length record) |}
    off (length plaintext).

(** The part of [video_conn_step] for records that stand in the receive buffer. *)
Definition buffered_record_step (c : client) : result () (client * option VideoStep) :=
  match parse_record (RecvBuffer.pending (cc_read_buf c)) with
  | Err _ => Err ()
  | Ok None => Ok (c, None)
  | Ok (Some (_, total)) =>
      let total := Z.to_nat total in
      let record := slice (RecvBuffer.pending (cc_read_buf c)) VIDEO_LENGTH_PREFIX_LEN total in
      let c := set_read_buf (RecvBuffer.consume (cc_read_buf c) total) c in
      match cc_kind c with
      | VideoKind w =>
          match vc_phase w with
          | VideoAwaitHello | VideoAwaitAuth => Ok (c, Some (VideoHandshake record))
          | VideoStreaming =>
              match vc_role w, vc_stream_id w, vc_record w with
              | Some role, Some stream_id, Some p =>
                  let '(p, r) := RecordProtection.open_next_in_place p CHANNEL_VIDEO record in
                  let c := set_kind (VideoKind (set_video_record (Some p) w)) c in
                  match r with
                  | Err _ => Err ()
                  | Ok plaintext =>
                      match role with
                      | Publisher =>
                          match publisher_frame_is_key plaintext stream_id with
                          | Err _ => Err ()
                          | Ok is_key =>
                              Ok (c, Some (VideoPublish stream_id (SharedVideoFrame.copy_from_slice with_capacity plaintext) is_key))
                          end
                      | Subscriber => Ok (c, Some SubscriberChatter)
                      end
                  end
              | _, _, _ => Err ()
              end
          end
      | _ => Err ()
      end
  end.

(** The part for a publisher's records, which arrive through the reader. *)
Definition published_record_step (c : client) (w : VideoConn) (reader : VideoRecordReader) : option (result () (client * option VideoStep)) :=
  let '(reader, taken) := VideoRecordReader.take_record reader in
  match taken with
  | None => Some (Ok (c, None))
  | Some record =>
      match vc_stream_id w, vc_record w with
      | Some stream_id, Some p =>
          let '(p', r) := RecordProtection.open_next_in_place p CHANNEL_VIDEO record in
          let c := set_kind (VideoKind (set_video_record (Some p') (set_video_reader (Some reader) w))) c in
          match r with
          | Err _ => Some (Err ())
          | Ok plaintext =>
              frame ← frame_of_record p record plaintext;
              match publisher_frame_is_key (SharedVideoFrame.as_slice frame) stream_id with
              | Err _ => Some (Err ())
              | Ok is_key => Some (Ok (c, Some (VideoPublish stream_id frame is_key)))
              end
          end
      | _, _ => Some (Err ())
      end
  end.

Definition video_conn_step (c : client) : option (result () (client * option VideoStep)) :=
  match cc_kind c with
  | VideoKind w =>
      match vc_phase w, vc_reader w with
      | VideoStreaming, Some reader => published_record_step c w reader
      | _, _ => Some (buffered_record_step c)
      end
  | _ => Some (buffered_record_step c)
  end.

(** [None]: the reads were interrupted more often than [tries] allows. *)
Definition pump_video_reader (token : Z) (byte_budget : nat) (s : server) : option (server * VideoPump * nat) :=
  match clients s !! token with
  | None => Some (s, PumpIdle, 0%nat)
  | Some c =>
      if is_closing c then Some (s, PumpIdle, 0%nat)
      else
        match cc_kind c with
        | VideoKind w =>
            match vc_reader w with
            | None => Some (s, PumpStep, 0%nat)
            | Some reader =>
                let '(reader, buf, r) := drain_residual (RecvBuffer.len (cc_read_buf c)) reader (cc_read_buf c) in
                let put reader (c : client) := set_kind (VideoKind (set_video_reader (Some reader) w)) c in
                let c := set_read_buf buf c in
                let store (c : client) := set_clients (<[token := c]> (clients s)) s in
                match r with
                | Err _ => Some (store (put reader c), PumpFailed, 0%nat)
                | Ok _ =>
                    if VideoRecordReader.record_ready reader then Some (store (put reader c), PumpStep, 0%nat)
                    else
                      '(rx, reader, ready, r) ← read_video_record (tries (cc_rx c)) byte_budget (S byte_budget) (cc_rx c) reader (cc_readiness c);
                      let c := set_rx rx (set_readiness ready (put reader c)) in
                      match r with
                      | Err _ => Some (store c, PumpFailed, 0%nat)
                      | Ok o =>
                          let c := if decide (0 < bytes_read o)%nat then set_last_activity now c else c in
                          let pump := if disconnected o then PumpClosed
                                      else if VideoRecordReader.record_ready reader then PumpStep
                                      else if hit_limit o then PumpBudget else PumpIdle in
                          Some (store c, pump, bytes_read o)
                      end
                end
            end
        | _ => Some (s, PumpStep, 0%nat)
        end
  end.

(** ** The handshake of a video connection *)

Definition handle_video_hello (token : Z) (record : bytes) (s : server) : server * result () () :=
  match decode_video_hello hello_from_binary record with
  | None => (s, Err ())
  | Some hello =>
      if decide (hello_version hello <> PROTOCOL_VERSION) then (s, Err ())
      else
        match streams s !! hello_stream_id hello, live_token_for_session s (hello_session_id hello), sessions s !! hello_session_id hello with
        | Some v, Some _, Some x =>
            let in_voice_room := bool_decide (ss_voice_room x = Some (st_room_id v)) in
            let secret :=
              match hello_role hello with
              | Publisher =>
                  if bool_decide (st_owner_session v = hello_session_id hello) && in_voice_room then Some (st_publish_secret v) else None
              | Subscriber => if in_voice_room then st_view_secrets v !! hello_session_id hello else None
              end in
            match secret with
            | None => (s, Err ())
            | Some secret =>
                let '(to_send, to_recv) := derive_video_keys secret VideoServer in
                let p := match session_mode (ss_transport x) with
                         | Encrypted => RecordProtection.aead to_send to_recv
                         | Plaintext => RecordProtection.clear
                         end in
                match clients s !! token with
                | None => (s, Err ())
                | Some c =>
                    match cc_kind c with
                    | VideoKind w =>
                        let w := {| vc_phase := VideoAwaitAuth; vc_session_id := Some (hello_session_id hello);
                                    vc_stream_id := Some (hello_stream_id hello); vc_role := Some (hello_role hello);
                                    vc_record := Some p; vc_reader := vc_reader w |} in
                        (set_clients (<[token := set_kind (VideoKind w) c]> (clients s)) s, Ok ())
                    | _ => (s, Err ())
                    end
                end
            end
        | _, _, _ => (s, Err ())
        end
  end.

(** Whether the connection survived the flush. *)
Definition send_video_ack (token : Z) (ack : VideoAck) (s : server) : option (server * result () bool) :=
  match clients s !! token with
  | None => Some (s, Err ())
  | Some c =>
      match cc_kind c with
      | VideoKind w =>
          match vc_record w with
          | None => Some (s, Err ())
          | Some p =>
              let '(p, r) := RecordProtection.seal_next p CHANNEL_VIDEO (ack_to_binary ack) in
              let c := set_kind (VideoKind (set_video_record (Some p) w)) c in
              match r with
              | Err _ => Some (set_clients (<[token := c]> (clients s)) s, Err ())
              | Ok sealed =>
                  match Video.write_record [] sealed with
                  | (_, Err _) => Some (set_clients (<[token := c]> (clients s)) s, Err ())
                  | (record, Ok _) =>
                      let c' := set_write_buf (WriteQueue.append (cc_write_buf c) record) c in
                      let s := set_clients (<[token := c']> (clients s)) s in
                      let s := set_write_queue_total_bytes (write_queue_total_bytes s + (write_len c' - write_len c)) s in
                      s ← write_client token s;
                      Some (s, Ok (bool_decide (is_Some (clients s !! token))))
                  end
              end
          end
      | _ => Some (s, Err ())
      end
  end.

Definition validate_publisher_attachment (s : server) (token stream_id : Z) : result () () :=
  match streams s !! stream_id with
  | None => Err ()
  | Some v =>
      match st_publisher v with
      | AwaitingConnection _ | Detached _ => Ok ()
      | AwaitingKeyframe existing _ | PublisherLive existing => if decide (existing = token) then Ok () else Err ()
      end
  end.

(** [None] is the [unreachable!]. *)
Definition attach_publisher (token stream_id : Z) (s : server) : refusable :=
  match validate_publisher_attachment s token stream_id with
  | Err e => Some (s, Err e)
  | Ok _ =>
      match streams s !! stream_id with
      | None => Some (s, Err ())
      | Some v =>
          match st_publisher v with
          | AwaitingConnection _ | Detached _ =>
              Some (set_streams (<[stream_id := set_publisher (AwaitingKeyframe token (now + PUBLISHER_ATTACH_GRACE)) v]> (streams s)) s, Ok ())
          | AwaitingKeyframe existing _ | PublisherLive existing => if decide (existing = token) then Some (s, Ok ()) else None
          end
      end
  end.

Definition bootstrap_end_frame (stream_id : Z) : SharedVideoFrame :=
  let data := encode_video_bootstrap_end stream_id in
  SharedVideoFrame.from_vec {| vec_data := data; vec_cap := with_capacity (length data) |}.

Definition prepare_subscriber_bootstrap (s : server) (stream_id : Z) : result () SubscriberBootstrap :=
  match streams s !! stream_id with
  | None => Err ()
  | Some v =>
      if negb (VideoPublisherState.is_live (st_publisher v)) then Err ()
      else if decide (st_ring v = []) then Err ()
      else
        let e := bootstrap_end_frame stream_id in
        let charged := foldl (fun total data => saturating_add 64 total (video_fanout_charge data 1)) 0 (st_ring v ++ [e]) in
        if decide (VIDEO_FANOUT_QUEUE_MAX_BYTES < saturating_add 64 (video_fanout_bytes s) charged) then Err ()
        else Ok {| sb_end := e; sb_charged_bytes := charged |}
  end.

(** [None] is the panic of [expect]. *)
Definition attach_subscriber (token stream_id : Z) (b : SubscriberBootstrap) (s : server) : option server :=
  v ← streams s !! stream_id;
  let v := if decide (token ∈ st_subscribers v) then v else set_subscribers (st_subscribers v ++ [token]) v in
  let s := set_streams (<[stream_id := v]> (streams s)) s in
  let s := set_video_fanout_bytes (video_fanout_bytes s + sb_charged_bytes b) s in
  Some (set_video_fanouts
    (video_fanouts s ++ ((fun data => {| fo_stream_id := stream_id; fo_data := data; fo_subscribers := [token]; fo_next_subscriber := 0;
                                         fo_charged_bytes := video_fanout_charge data 1 |}) <$> st_ring v ++ [sb_end b])) s).

(** The second half of [handle_video_auth], once possession is proven. *)
Definition admit_video_conn (token stream_id : Z) (role : VideoRole) (s : server) : refusable :=
  let reject e := '(s, _) ← send_video_ack token AckRejected s; Some (s, Err e) in
  let accept (attach : server -> refusable) :=
    match clients s !! token with
    | None => Some (s, Err ())
    | Some c =>
        match cc_kind c with
        | VideoKind w =>
            let s := set_clients (<[token := set_kind (VideoKind (set_video_phase VideoStreaming w)) c]> (clients s)) s in
            let s := finish_pre_auth token s in
            '(s, r) ← send_video_ack token AckOk s;
            match r with
            | Err e => Some (s, Err e)
            | Ok false => Some (s, Ok ())
            | Ok true => attach s
            end
        | _ => Some (s, Err ())
        end
    end in
  match role with
  | Publisher =>
      match validate_publisher_attachment s token stream_id with
      | Err e => reject e
      | Ok _ =>
          accept (fun s =>
            '(s, r) ← attach_publisher token stream_id s;
            match r with
            | Err e => Some (s, Err e)
            | Ok _ =>
                Some (update_client token (fun c =>
                        match cc_kind c with
                        | VideoKind w => set_kind (VideoKind (set_video_reader (Some VideoRecordReader.new) w)) c
                        | _ => c
                        end) s, Ok ())
            end)
      end
  | Subscriber =>
      match prepare_subscriber_bootstrap s stream_id with
      | Err e => reject e
      | Ok b => accept (fun s => s ← attach_subscriber token stream_id b s; Some (s, Ok ()))
      end
  end.

Definition handle_video_auth (token : Z) (record : bytes) (s : server) : refusable :=
  match clients s !! token with
  | None => Some (s, Err ())
  | Some c =>
      match cc_kind c with
      | VideoKind w =>
          match vc_session_id w, vc_stream_id w, vc_role w, vc_record w with
          | Some session_id, Some stream_id, Some role, Some p =>
              let '(p, opened) :=
                match p with
                | RecordAead cipher =>
                    let '(cipher, r) := TransportCipher.open_next cipher CHANNEL_VIDEO record in
                    (RecordAead cipher, match r with Ok _ => true | Err _ => false end)
                | RecordClear => (RecordClear, true)
                end in
              let s := set_clients (<[token := set_kind (VideoKind (set_video_record (Some p) w)) c]> (clients s)) s in
              if negb opened then Some (s, Err ())
              else
                match sessions s !! session_id with
                | None => Some (s, Err ())
                | Some x =>
                    let mode := session_mode (ss_transport x) in
                    if bool_decide (mode = Plaintext) &&
                       negb (video_auth_proof_verify (video_auth_key (ss_transport x)) session_id stream_id role mode record)
                    then Some (s, Err ())
                    else admit_video_conn token stream_id role s
                end
          | _, _, _, _ => Some (s, Err ())
          end
      | _ => Some (s, Err ())
      end
  end.

Definition process_video_record (token : Z) (record : bytes) (s : server) : refusable :=
  match cc_kind <$> clients s !! token with
  | Some (VideoKind w) =>
      match vc_phase w with
      | VideoAwaitHello => Some (handle_video_hello token record s)
      | VideoAwaitAuth => handle_video_auth token record s
      | VideoStreaming => Some (s, Err ())
      end
  | _ => Some (s, Err ())
  end.

(** ** Publishing *)

Definition enqueue_video_fanout (stream_id : Z) (data : SharedVideoFrame) (subscribers : list Z) (s : server) : option server :=
  match subscribers with
  | [] => Some s
  | _ =>
      let charged := video_fanout_charge data (with_capacity (length subscribers)) in
      if decide (VIDEO_FANOUT_QUEUE_MAX_BYTES < saturating_add 64 (video_fanout_bytes s) charged) then each disc subscribers s
      else
        let s := set_video_fanout_bytes (video_fanout_bytes s + charged) s in
        Some (set_video_fanouts (video_fanouts s ++ [{| fo_stream_id := stream_id; fo_data := data; fo_subscribers := subscribers;
                                                        fo_next_subscriber := 0; fo_charged_bytes := charged |}]) s)
  end.

Definition publish_video_frame_from (publisher stream_id : Z) (data : SharedVideoFrame) (is_key : bool) (s : server) : refusable :=
  match streams s !! stream_id with
  | None => Some (s, Err ())
  | Some v =>
      let became_live :=
        match st_publisher v with
        | AwaitingKeyframe token _ => if decide (token = publisher) then (if is_key then Ok true else Err ()) else Err ()
        | PublisherLive token => if decide (token = publisher) then Ok false else Err ()
        | AwaitingConnection _ | Detached _ => Err ()
        end in
      match became_live with
      | Err e => Some (s, Err e)
      | Ok became_live =>
          let '(v, cached) := cache_frame data is_key v in
          if became_live && negb cached then Some (set_streams (<[stream_id := v]> (streams s)) s, Err ())
          else
            let v := if (became_live : bool) then set_stream_announced true (set_publisher (PublisherLive publisher) v) else v in
            let s := set_streams (<[stream_id := v]> (streams s)) s in
            s ← enqueue_video_fanout stream_id data (st_subscribers v) s;
            s ← (if (became_live : bool)
                 then announce_share_to_voice_members encode_server_control random now stream_id
                        (st_owner_session <$> streams s !! stream_id) s
                 else Some s);
            Some (s, Ok ())
      end
  end.

(** ** Fanning out *)

Definition seal_video_to_subscriber (token : Z) (data : bytes) (s : server) : server * VideoSealOutcome :=
  match clients s !! token with
  | None => (s, SealGone)
  | Some c =>
      match cc_kind c with
      | VideoKind w =>
          match vc_record w with
          | None => (s, SealFailed)
          | Some p =>
              let sealed_len := RecordProtection.sealed_len p (length data) in
              if decide (MAX_VIDEO_RECORD_LEN < Z.of_nat sealed_len) then (s, SealFailed)
              else
                let queued_len := Z.of_nat VIDEO_LENGTH_PREFIX_LEN + Z.of_nat sealed_len in
                if decide (OUTBOUND_GLOBAL_HIGH_WATER <
                     saturating_add 64 (saturating_add 64 (write_queue_total_bytes s) (pending_control_total_bytes s)) queued_len)
                then (s, GlobalSaturated)
                else
                  let '(p, record, r) := RecordProtection.seal_next_into p CHANNEL_VIDEO data (le_bytes 4 (Z.of_nat sealed_len)) in
                  let c := set_kind (VideoKind (set_video_record (Some p) w)) c in
                  match r with
                  | Err _ => (set_clients (<[token := c]> (clients s)) s, SealFailed)
                  | Ok _ =>
                      let c' := set_write_buf (WriteQueue.append (cc_write_buf c) record) c in
                      let s := set_clients (<[token := c']> (clients s)) s in
                      let s := set_write_queue_total_bytes (write_queue_total_bytes s + (write_len c' - write_len c)) s in
                      let s := queue_client_write token s in
                      (s, if decide (write_len c' <= VIDEO_SUBSCRIBER_HIGH_WATER) then SealQueued else SubscriberBehind)
                  end
          end
      | _ => (s, SealFailed)
      end
  end.

(** One recipient of the fanout at the head of the queue, which is off the queue
    meanwhile.  [None] is the panic of an index out of range. *)
Definition fanout_step (f : VideoFanout) (s : server) : option server :=
  token ← fo_subscribers f !! fo_next_subscriber f;
  let f := {| fo_stream_id := fo_stream_id f; fo_data := fo_data f; fo_subscribers := fo_subscribers f;
              fo_next_subscriber := S (fo_next_subscriber f); fo_charged_bytes := fo_charged_bytes f |} in
  let '(s, outcome) := seal_video_to_subscriber token (SharedVideoFrame.as_slice (fo_data f)) s in
  s ← (if drop_reason outcome then
         let s := set_streams (alter (fun v => set_subscribers (filter (fun other => other <> token) (st_subscribers v)) v)
                                 (fo_stream_id f) (streams s)) s in
         disc token s
       else Some s);
  Some (if decide (fo_next_subscriber f < length (fo_subscribers f))%nat
        then set_video_fanouts (f :: video_fanouts s) s
        else set_video_fanout_bytes (saturating_sub (video_fanout_bytes s) (fo_charged_bytes f)) s).

(** A round takes a finished fanout off the queue or serves a recipient, of whom
    there are at most [VIDEO_FANOUT_BUDGET_RECIPIENTS]. *)
Fixpoint fanout_loop (fuel recipients : nat) (sent : Z) (s : server) : option server :=
  match fuel with
  | O => None
  | S fuel =>
      if decide (VIDEO_FANOUT_BUDGET_RECIPIENTS <= recipients)%nat then Some s
      else
        match video_fanouts s with
        | [] => Some s
        | f :: fs =>
            let popped := set_video_fanouts fs s in
            if decide (length (fo_subscribers f) <= fo_next_subscriber f)%nat
            then fanout_loop fuel recipients sent
                   (set_video_fanout_bytes (saturating_sub (video_fanout_bytes popped) (fo_charged_bytes f)) popped)
            else
              let n := frame_len (fo_data f) in
              if decide ((0 < recipients)%nat /\ VIDEO_FANOUT_BUDGET_BYTES < saturating_add 64 sent n)
              then Some (set_video_fanouts (f :: video_fanouts popped) popped)
              else
                let sent := saturating_add 64 sent n in
                s ← fanout_step f popped;
                if decide (VIDEO_FANOUT_BUDGET_BYTES <= sent) then Some s
                else fanout_loop fuel (S recipients) sent s
        end
  end.

Definition process_video_fanouts (s : server) : option server :=
  fanout_loop (S (length (video_fanouts s) + VIDEO_FANOUT_BUDGET_RECIPIENTS)) 0 0 s.

End video.
