(* ===== verification/ServerLoop.v ===== *)
(** * A pass over one connection

    [read_client] and [read_video_conn] of src/crates/server/src/lib.rs: filling
    the receive buffer, telling what the connection is, and handling its frames one
    by one under the budgets of a pass; the back-pressure that parks an uploader
    while a recipient is behind; and the replies of the identity writer with the
    authentications deferred until then.

    Requests of the MLS layer are not modelled, so no connection waits for it. *)

From S2P Require Import Prelude Primitives Transport Handshake Auth Media Frame Evented ControlLane Video Net History Usernames Identity.
From S2P Require Import Clock VoiceRelay RoomLog RoomStore ServerState ServerCascade ServerOps ServerConns ServerAuth ServerVideo.

Definition CONTROL_STEPS_PER_READ : nat := 64.

(** The replies of the identity writer taken in one pass. *)
Definition IDENTITY_REPLIES : nat := 8.

(** How the environment answers in one pass: the bug report writer at each step,
    and the voice relay's reservation, the poller and the relay's poller when a
    connection is handed over. *)
Record Answers := mkAnswers {
  an_enqueued : nat -> result bool ();
  an_permit : bool;
  an_deregistered : bool;
  an_registered : bool;
}.

Section loop.
Context {Rx Tx St : Type} `{HashOrder} `{ChatStore St} `{Primitives} `{SocketSource Rx} `{Write Tx} `{Unicode} `{ClaimsCodec}.
Context (encode_server_control : ServerControl -> bytes) (encode_server_hello : ServerHello -> bytes).
Context (decode_client_hello : bytes -> option ClientHello) (decode_client_control : bytes -> option ClientControl).
Context (hello_from_binary : bytes -> option VideoHello) (ack_to_binary : VideoAck -> bytes).
Context (random : nat -> nat -> option bytes) (now now_ms : Z) (with_capacity : nat -> nat) (tries : Rx -> nat).
Context (mls : MlsDirectory) (writer_runs : bool) (answers : Answers).

Abbreviation server := (Server Rx Tx St).
Abbreviation client := (ClientConn Rx Tx).
Abbreviation outcome := (option (server * result bytes ())).
Abbreviation disc := (disconnect encode_server_control now).

(** ** Back-pressure *)

Definition upload_recipients_clogged (s : server) (uploader : Z) : bool :=
  existsb (fun p => bool_decide (p.1.1 = uploader) &&
    existsb (fun recipient =>
      match live_token_for_session s recipient ≫= fun token => clients s !! token with
      | Some c => bool_decide (FILE_RELAY_WRITE_SOFT_CAP < write_len c)
      | None => false
      end) (hash_elems (up_recipients p.2))) (hash_iter (active_uploads s)).

Definition relay_clogged_for_reader (s : server) (token : Z) : bool :=
  match clients s !! token with
  | Some c =>
      match cc_kind c, cc_session_id c with
      | ControlConn, Some session_id => upload_recipients_clogged s session_id
      | _, _ => false
      end
  | None => false
  end.

Definition whole_frame_buffered (c : client) : bool :=
  match parse_frame (RecvBuffer.pending (cc_read_buf c)) with Ok (Some _) => true | _ => false end.

Definition requeue_unclogged_uploaders (s : server) : server :=
  let resumed := foldl (fun resumed session_id =>
    match live_token_for_session s session_id with
    | None => resumed
    | Some token =>
        if bool_decide (token ∈ resumed) || bool_decide (token ∈ client_read_set s) then resumed
        else
          match clients s !! token with
          | None => resumed
          | Some c =>
              if negb (cc_readiness c) && negb (whole_frame_buffered c) then resumed
              else if upload_recipients_clogged s session_id then resumed else resumed ++ [token]
          end
    end) [] (fst <$> hash_keys (active_uploads s)) in
  foldl (fun s token => queue_client_read token s) s resumed.

Definition client_read_work_ready (s : server) (token : Z) : bool :=
  match clients s !! token with
  | None => false
  | Some c =>
      if is_closing c || identity_pending s token || relay_clogged_for_reader s token then false
      else
        cc_readiness c ||
        match cc_kind c with
        | VideoKind w =>
            match vc_reader w with
            | Some reader => VideoRecordReader.record_ready reader || negb (RecvBuffer.is_empty (cc_read_buf c))
            | None => match parse_record (RecvBuffer.pending (cc_read_buf c)) with Ok None => false | _ => true end
            end
        | Unidentified => bool_decide (length VIDEO_MAGIC <= RecvBuffer.len (cc_read_buf c))%nat
        | ControlConn => match parse_frame (RecvBuffer.pending (cc_read_buf c)) with Ok None => false | _ => true end
        end
  end.

Definition queue_client_read_if_work_ready (token : Z) (s : server) : server :=
  if client_read_work_ready s token then queue_client_read token s else s.

(** ** Controls *)

(** [handle_control] in every state of the connection. *)
Definition handle_any_control (step : nat) (token : Z) (c : ClientControl) (s : server) : outcome :=
  match cc_state <$> clients s !! token with
  | None => err "unknown client token" s
  | Some AwaitAuth => handle_auth_control encode_server_control random now now_ms mls writer_runs token c s
  | Some Ready => handle_control encode_server_control random now now_ms (an_enqueued answers step) token c s
  | Some AwaitClientHello => err "handshake is not complete" s
  end.

(** [control_conn_step] on the connection's own fields. *)
Definition step_conn (c : client) : result StepError (client * option (ControlStep ClientHello ClientControl)) :=
  match control_conn_step decode_client_hello decode_client_control
          (ControlLane.mkConn (cc_state c) (cc_read_buf c) (cc_control c)) with
  | Err e => Err e
  | Ok (c', step) => Ok (set_control_cipher (ControlLane.control c') (set_read_buf (ControlLane.read_buf c') c), step)
  end.

(** The frames of a pass. *)
Fixpoint control_loop (budget step : nat) (token : Z) (s : server) : option server :=
  match budget with
  | O => Some (queue_client_read_if_work_ready token s)
  | S budget =>
      if relay_clogged_for_reader s token || identity_pending s token then Some s
      else
        match clients s !! token with
        | None => Some s
        | Some c =>
            if is_closing c then Some s
            else
              match step_conn c with
              | Err _ => disc token s
              | Ok (c, None) => Some (set_clients (<[token := c]> (clients s)) s)
              | Ok (c, Some (StepHello hello)) =>
                  let s := set_clients (<[token := c]> (clients s)) s in
                  '(s, r) ← handle_client_hello encode_server_control encode_server_hello random now token hello s;
                  match r with Err _ => disc token s | Ok _ => control_loop budget (S step) token s end
              | Ok (c, Some (StepControl control)) =>
                  let s := set_clients (<[token := c]> (clients s)) s in
                  if bool_decide (is_Some (pending_identity s)) && bool_decide (cc_state c = AwaitAuth) &&
                     identity_control_needs_ordering control
                  then Some (set_deferred_identity_tokens ({[token]} ∪ deferred_identity_tokens s)
                               (set_deferred_identity_controls (deferred_identity_controls s ++ [(token, control)]) s))
                  else
                    '(s, r) ← handle_any_control step token control s;
                    match r with Err _ => disc token s | Ok _ => control_loop budget (S step) token s end
              end
        end
  end.

(** ** Video records *)

Abbreviation pump := (pump_video_reader now tries).
Abbreviation process_record := (process_video_record encode_server_control now hello_from_binary ack_to_binary with_capacity).
Abbreviation publish := (publish_video_frame_from encode_server_control random now with_capacity).

Fixpoint video_loop (budget byte_budget : nat) (token : Z) (s : server) : option server :=
  match budget with
  | O => Some (queue_client_read_if_work_ready token s)
  | S budget =>
      '(s, p, spent) ← pump token byte_budget s;
      let byte_budget := (byte_budget - spent)%nat in
      match p with
      | PumpIdle => Some s
      | PumpBudget => Some (queue_client_read token s)
      | PumpClosed | PumpFailed => disc token s
      | PumpStep =>
          match clients s !! token with
          | None => Some s
          | Some c =>
              if is_closing c then Some s
              else
                r ← video_conn_step with_capacity c;
                match r with
                | Err _ => disc token s
                | Ok (c, None) => Some (set_clients (<[token := c]> (clients s)) s)
                | Ok (c, Some step) =>
                    let s := set_clients (<[token := c]> (clients s)) s in
                    '(s, r) ← match step with
                              | VideoHandshake record => process_record token record s
                              | VideoPublish stream_id frame is_key => publish token stream_id frame is_key s
                              | SubscriberChatter => Some (s, Ok ())
                              end;
                    match r with Err _ => disc token s | Ok _ => video_loop budget byte_budget token s end
                end
          end
      end
  end.

Definition read_video_conn (token : Z) (s : server) : option server := video_loop VIDEO_RECORDS_PER_READ READ_BUDGET_BYTES token s.

(** ** One pass *)

Definition video_reader_attached (c : client) : bool :=
  match cc_kind c with VideoKind w => bool_decide (is_Some (vc_reader w)) | _ => false end.

(** Fills the receive buffer: whether the connection is lost and whether the
    budget ran out.  [None]: more interruptions than [tries] allows. *)
Definition fill_client (token : Z) (s : server) : option (server * bool * bool) :=
  match clients s !! token with
  | None => Some (s, false, false)
  | Some c =>
      if relay_clogged_for_reader s token || video_reader_attached c then Some (s, false, false)
      else
        '(rx, buf, ready, r) ← read_into_buffer (tries (cc_rx c)) READ_BUDGET_BYTES (ByteBudget READ_BUDGET_BYTES) (S READ_BUDGET_BYTES)
                                 (cc_rx c) (cc_read_buf c) (cc_readiness c);
        let c := set_rx rx (set_read_buf buf (set_readiness ready c)) in
        match r with
        | Ok o =>
            let c := if decide (0 < bytes_read o)%nat then set_last_activity now c else c in
            Some (set_clients (<[token := c]> (clients s)) s, disconnected o, hit_limit o)
        | Err _ => Some (set_clients (<[token := c]> (clients s)) s, true, false)
        end
  end.

Definition read_client (token : Z) (s : server) : option server :=
  '(s, lost, limited) ← fill_client token s;
  if (lost : bool) then disc token s
  else
    let s := if (limited : bool) then queue_client_read token s else s in
    '(s, more) ← classify encode_server_control now (an_permit answers) (an_deregistered answers) (an_registered answers) token s;
    if negb more then Some s
    else
      match cc_kind <$> clients s !! token with
      | Some (VideoKind _) => read_video_conn token s
      | _ => control_loop CONTROL_STEPS_PER_READ 0 token s
      end.

(** ** The identity writer *)

Fixpoint resume_deferred (budget : nat) (s : server) : option server :=
  match budget with
  | O => Some s
  | S budget =>
      match pending_identity s, deferred_identity_controls s with
      | None, (token, control) :: rest =>
          let s := set_deferred_identity_controls rest (set_deferred_identity_tokens (deferred_identity_tokens s ∖ {[token]}) s) in
          match clients s !! token with
          | Some c =>
              if bool_decide (cc_state c = AwaitAuth) && negb (is_closing c) then
                '(s, r) ← handle_any_control budget token control s;
                match r with
                | Err _ => s ← disc token s; resume_deferred budget s
                | Ok _ => resume_deferred budget (queue_client_read_if_work_ready token s)
                end
              else resume_deferred budget s
          | None => resume_deferred budget s
          end
      | _, _ => Some s
      end
  end.

(** A control is taken off the queue in each round, and none is added. *)
Definition resume_deferred_identity_controls (s : server) : option server := resume_deferred (length (deferred_identity_controls s)) s.

(** The writer's replies: the connection each is for and whether it was written. *)
Definition drain_identity_replies (replies : list (Z * bool)) (s : server) : option server :=
  s ← each (fun reply s =>
              match pending_identity s with
              | None => Some s
              | Some (token, pending) =>
                  s ← finish_identity encode_server_control now now_ms token pending reply.2 (set_pending_identity None s);
                  Some (queue_client_read_if_work_ready token s)
              end) (take IDENTITY_REPLIES replies) s;
  resume_deferred_identity_controls s.

End loop.
