(* ===== verification/ServerInvariant.v ===== *)
(** * The tables of the control server agree

    The invariant of [Server]: connections and sessions name each other, calls and
    sessions name each other, a share belongs to a member of its call and is
    watched by members only, uploads hold their names, the routes reserved are
    those of the live sessions, links join members of one call, what is queued is
    what is charged, what is queued for a user concerns rooms the user may see, and
    the commands submitted to the voice relay add up to the calls.

    Inside a teardown part of it is suspended: [D] holds the sessions whose
    connection is gone and [L] those that are leaving a call.  Between operations
    both are empty. *)

From S2P Require Import Prelude Primitives Transport Handshake Media Frame Evented ControlLane Video Net History Usernames VoiceRelay.
From S2P Require Import ServerState ServerCascade ServerOps ServerConns ServerVideo.

(** ** Hash order *)

Section hash.
Context `{HashOrder} {K A : Type} `{Countable K}.

Lemma elem_of_hash_iter (m : gmap K A) k a : (k, a) ∈ hash_iter m <-> m !! k = Some a.
Proof. rewrite hash_iter_perm. apply elem_of_map_to_list. Qed.

Lemma elem_of_hash_keys (m : gmap K A) k : k ∈ hash_keys m <-> is_Some (m !! k).
Proof.
  unfold hash_keys. rewrite list_elem_of_fmap. split.
  - intros ([k' a] & -> & Hin%elem_of_hash_iter). by exists a.
  - intros [a Ha]. exists (k, a). by rewrite elem_of_hash_iter.
Qed.

Lemma elem_of_hash_values (m : gmap K A) a : a ∈ hash_values m <-> exists k, m !! k = Some a.
Proof.
  unfold hash_values. rewrite list_elem_of_fmap. split.
  - intros ([k a'] & -> & Hin%elem_of_hash_iter). by exists k.
  - intros [k Ha]. exists (k, a). by rewrite elem_of_hash_iter.
Qed.

End hash.

Lemma elem_of_hash_elems `{HashOrder} {K} `{Countable K} (s : gset K) k : k ∈ hash_elems s <-> k ∈ s.
Proof.
  unfold hash_elems. rewrite elem_of_hash_keys. unfold is_Some. split.
  - intros [u Hu]. by apply lookup_gset_to_gmap_Some in Hu as [].
  - intros. exists (). by apply lookup_gset_to_gmap_Some.
Qed.

(** ** [alter] *)

Lemma alter_some {K A : Type} `{Countable K} (m : gmap K A) k f v : m !! k = Some v -> alter f k m = <[k := f v]> m.
Proof.
  intros Hv. apply map_eq. intros j. destruct (decide (k = j)) as [<-|Hne].
  - by rewrite lookup_alter_eq, lookup_insert_eq, Hv.
  - by rewrite lookup_alter_ne, lookup_insert_ne.
Qed.

Lemma alter_none {K A : Type} `{Countable K} (m : gmap K A) k f : m !! k = None -> alter f k m = m.
Proof.
  intros Hv. apply map_eq. intros j. destruct (decide (k = j)) as [<-|Hne].
  - by rewrite lookup_alter_eq, Hv.
  - by rewrite lookup_alter_ne.
Qed.

(** ** Sums over a map *)

Definition msum {K A : Type} `{Countable K} (f : A -> Z) (m : gmap K A) : Z := map_fold (fun _ v n => f v + n) 0 m.

Section msum.
Context {K A : Type} `{Countable K} (f : A -> Z).
Implicit Type m : gmap K A.

Lemma msum_empty : msum f (∅ : gmap K A) = 0.
Proof. apply map_fold_empty. Qed.

Lemma msum_insert m k v : m !! k = None -> msum f (<[k := v]> m) = f v + msum f m.
Proof. intros. unfold msum. rewrite map_fold_insert_L; [done| |done]. intros. lia. Qed.

Lemma msum_delete m k v : m !! k = Some v -> msum f m = f v + msum f (delete k m).
Proof. intros. unfold msum. rewrite (map_fold_delete_L _ _ k v m); [done| |done]. intros. lia. Qed.

Lemma msum_delete_none m k : m !! k = None -> msum f (delete k m) = msum f m.
Proof. intros. by rewrite delete_id. Qed.

Lemma msum_insert_some m k v w : m !! k = Some v -> msum f (<[k := w]> m) = msum f m - f v + f w.
Proof.
  intros Hk. rewrite <- insert_delete_eq, msum_insert by apply lookup_delete_eq.
  rewrite (msum_delete m k v) by done. lia.
Qed.

Lemma msum_nonneg m : (forall k v, m !! k = Some v -> 0 <= f v) -> 0 <= msum f m.
Proof.
  induction m as [|k v m Hk IH] using map_ind; intros Hf; [by rewrite msum_empty|].
  rewrite msum_insert by done. pose proof (Hf k v (lookup_insert_eq _ _ _)).
  enough (0 <= msum f m) by lia. apply IH. intros k' v' Hv. apply (Hf k'). apply lookup_insert_Some.
  right. split; [congruence|done].
Qed.

Lemma msum_part m k v : (forall k v, m !! k = Some v -> 0 <= f v) -> m !! k = Some v -> f v <= msum f m.
Proof.
  intros Hf Hk. rewrite (msum_delete m k v) by done.
  enough (0 <= msum f (delete k m)) by lia. apply msum_nonneg.
  intros k' v' [_ Hv]%lookup_delete_Some. by eapply Hf.
Qed.

End msum.

(** A sum over a list. *)
Definition lsum {A : Type} (f : A -> Z) (l : list A) : Z := foldr (fun a n => f a + n) 0 l.

Lemma lsum_app {A} (f : A -> Z) l k : lsum f (l ++ k) = lsum f l + lsum f k.
Proof. induction l; simpl; [done|]. rewrite IHl. lia. Qed.

Lemma lsum_nonneg {A} (f : A -> Z) l : Forall (fun a => 0 <= f a) l -> 0 <= lsum f l.
Proof. induction 1; simpl; lia. Qed.

Lemma lsum_filter {A} (f : A -> Z) (P Q : A -> Prop) `{forall a, Decision (P a)} `{forall a, Decision (Q a)} l :
  (forall a, Q a <-> ~ P a) -> lsum f l = lsum f (filter P l) + lsum f (filter Q l).
Proof.
  intros HPQ. induction l as [|a l IH]; [done|]. rewrite !filter_cons. cbn [lsum foldr]. fold (lsum f l). rewrite IH.
  pose proof (HPQ a). destruct (decide (P a)); destruct (decide (Q a)); try tauto; cbn [lsum foldr]; unfold lsum; lia.
Qed.

(** ** What a message speaks of, and who may be told *)

Definition may_see (rs : gmap Z RoomState) (user_id room_id : Z) : Prop :=
  exists room, rs !! room_id = Some room /\ RoomAccess.allows (rm_access room) user_id = true.

(** The rooms a message carries news of.  A refusal that repeats the room number
    of the request carries none. *)
Definition scope (c : ServerControl) : list Z :=
  match c with
  | Authenticated _ _ rooms _ _ _ | OpenPaired _ _ _ rooms _ _ | DeviceLinked _ _ _ _ rooms _ _ => ri_room_id <$> rooms
  | Chat m => [room_id m]
  | VoiceStarted r _ _ _ _ | VoiceStopped r _ _ _ _ | VoiceStateChanged r _ _ | RoomRttSnapshot r _
  | ShareStarted _ r _ _ _ _ _ _ | ShareAvailable r _ _ _ _ _ _ _ _ | ShareEnded r _ | DmOpened r _ => [r]
  | P2pPeer p => [pi_room_id p]
  | FileOffered f _ | UploadFileAccepted _ f => [fm_room_id f]
  | RoomUpserted i => [ri_room_id i]
  | _ => []
  end.

(** ** What the relay has been told *)

Definition route_of (x : Session) : option SessionRoute :=
  room ← ss_voice_room x; stream ← ss_active_stream x; Some {| route_room_id := room; route_stream_id := stream |}.

Section views.
Context {Rx Tx : Type}.

Definition relay_told (v : gmap Z (option SessionRoute)) (c : VoiceCommand Rx Tx) : gmap Z (option SessionRoute) :=
  match c with
  | RegisterSession id _ _ => <[id := None]> v
  | SetRoute id route => alter (fun _ => route) id v
  | RemoveSession id => delete id v
  | _ => v
  end.

Definition relay_view (cs : list (VoiceCommand Rx Tx)) : gmap Z (option SessionRoute) := foldl relay_told ∅ cs.

Lemma relay_view_snoc cs c : relay_view (cs ++ [c]) = relay_told (relay_view cs) c.
Proof. unfold relay_view. by rewrite foldl_app. Qed.

End views.
#[global] Arguments relay_view {Rx Tx} cs : simpl never.

Section invariant.
Context {Rx Tx St : Type} (encode_server_control : ServerControl -> bytes).
Abbreviation server := (Server Rx Tx St).
Abbreviation client := (ClientConn Rx Tx).

Definition allowed_for (rs : gmap Z RoomState) (c : client) (m : ServerControl) : Prop :=
  forall r, r ∈ scope m -> exists u, cc_user_id c = Some u /\ may_see rs u r.

(** ** The clauses *)

Record sessions_ok (D : gset Z) (cs : gmap Z client) (ss : gmap Z Session) : Prop := {
  so_live : forall id x, ss !! id = Some x -> id ∉ D ->
    exists c, cs !! ss_tcp_token x = Some c /\ cc_session_id c = Some id /\ cc_user_id c = Some (ss_user_id x) /\
              cc_kind c = ControlConn;
  so_dying : forall id x, ss !! id = Some x -> id ∈ D -> cs !! ss_tcp_token x = None;
  so_named : forall t c id, cs !! t = Some c -> cc_session_id c = Some id ->
    exists x, ss !! id = Some x /\ ss_tcp_token x = t;
  so_user : forall t c, cs !! t = Some c -> cc_session_id c = None -> cc_user_id c = None;
}.

Record calls_ok (L : gset Z) (rs : gmap Z RoomState) (ss : gmap Z Session) : Prop := {
  ca_listed : forall id x i, ss !! id = Some x -> ss_active_stream x = Some i ->
    exists r room, ss_voice_room x = Some r /\ rs !! r = Some room /\ rm_active_streams room !! i = Some id;
  ca_member : forall r room i id, rs !! r = Some room -> rm_active_streams room !! i = Some id ->
    exists x, ss !! id = Some x /\ ss_active_stream x = Some i /\ ss_voice_room x = Some r;
  ca_allowed : forall id x r, ss !! id = Some x -> ss_voice_room x = Some r -> may_see rs (ss_user_id x) r;
  ca_streams : forall id x r, ss !! id = Some x -> id ∉ L -> ss_voice_room x = Some r -> is_Some (ss_active_stream x);
  ca_ids : forall r room, rs !! r = Some room -> rm_id room = r;
}.

(** A share recorded for a session that went away while it was being started: it
    has no connection and nobody was told of it. *)
Definition orphan (v : VideoStream) : Prop :=
  (exists d, st_publisher v = AwaitingConnection d) /\ st_announced v = false /\ st_subscribers v = [] /\
  st_view_secrets v = ∅.

Record stream_ok (L : gset Z) (cs : gmap Z client) (ss : gmap Z Session) (i : Z) (v : VideoStream) : Prop := {
  vo_owner : (exists x, ss !! st_owner_session v = Some x /\ ss_voice_room x = Some (st_room_id v) /\
                        ss_user_id x = st_user_id v) \/
             ss !! st_owner_session v = None /\ orphan v;
  vo_secrets : forall id k, st_view_secrets v !! id = Some k ->
    exists x, ss !! id = Some x /\ ss_voice_room x = Some (st_room_id v);
  vo_watched : forall t, t ∈ st_subscribers v ->
    exists c w id, cs !! t = Some c /\ cc_kind c = VideoKind w /\ vc_stream_id w = Some i /\ vc_role w = Some Subscriber /\
      vc_session_id w = Some id /\ (id ∈ L \/ is_Some (st_view_secrets v !! id));
  vo_published : forall t, VideoPublisherState.token (st_publisher v) = Some t ->
    exists c w, cs !! t = Some c /\ cc_kind c = VideoKind w /\ vc_stream_id w = Some i /\ vc_role w = Some Publisher /\
      vc_session_id w = Some (st_owner_session v);
  vo_announced : VideoPublisherState.is_live (st_publisher v) = true -> st_announced v = true;
  vo_viewer : forall t c w id, cs !! t = Some c -> cc_kind c = VideoKind w -> vc_stream_id w = Some i ->
    vc_role w = Some Subscriber -> vc_session_id w = Some id -> id ∈ L \/ is_Some (st_view_secrets v !! id);
  vo_owned : forall t c w, cs !! t = Some c -> cc_kind c = VideoKind w -> vc_stream_id w = Some i ->
    vc_role w = Some Publisher -> vc_session_id w = Some (st_owner_session v);
}.

Definition streams_ok (L : gset Z) (cs : gmap Z client) (ss : gmap Z Session) (vs : gmap Z VideoStream) : Prop :=
  forall i v, vs !! i = Some v -> stream_ok L cs ss i v.

Record uploads_ok (rs : gmap Z RoomState) (ss : gmap Z Session) (us : gmap (Z * Z) ServerUpload) (names : gset bytes) : Prop := {
  uo_owner : forall k u, us !! k = Some u -> is_Some (ss !! k.1);
  uo_named : forall k u, us !! k = Some u -> up_file_name u ∈ names;
  uo_names : forall n, n ∈ names -> exists k u, us !! k = Some u /\ up_file_name u = n;
  uo_distinct : forall k k' u u', us !! k = Some u -> us !! k' = Some u' -> up_file_name u = up_file_name u' -> k = k';
  uo_allowed : forall k u id x, us !! k = Some u -> id ∈ up_recipients u -> ss !! id = Some x ->
    may_see rs (ss_user_id x) (up_room_id u);
  uo_cap : forall id, (size (filter (fun p => p.1.1 = id) us) <= MAX_ACTIVE_UPLOADS_PER_SESSION)%nat;
}.

Record routes_ok (routes : gmap Z Z) (ss : gmap Z Session) : Prop := {
  ro_reserved : forall id x, ss !! id = Some x -> routes !! route_id (ss_transport x) = Some id;
  ro_live : forall r id, routes !! r = Some id -> exists x, ss !! id = Some x /\ route_id (ss_transport x) = r;
}.

Record links_ok (L : gset Z) (links : gmap (Z * Z) PeerLink) (ss : gmap Z Session) : Prop := {
  li_ordered : forall a b l, links !! (a, b) = Some l -> a < b;
  li_member : forall a b l id x, links !! (a, b) = Some l -> id = a \/ id = b -> ss !! id = Some x -> id ∉ L ->
    is_Some (ss_voice_room x);
  li_call : forall a b l x y, links !! (a, b) = Some l -> ss !! a = Some x -> ss !! b = Some y -> a ∉ L -> b ∉ L ->
    ss_voice_room x = ss_voice_room y;
}.

(** What a queued control will take on the connection. *)
Definition control_cost (p : RecordProtection) (m : ServerControl) : Z :=
  Z.of_nat LENGTH_PREFIX_LEN + Z.of_nat (RecordProtection.sealed_len p (length (encode_server_control m))).

Definition is_video (c : client) : bool := match cc_kind c with VideoKind _ => true | _ => false end.

Record outbound_ok (cs : gmap Z client) (pend : gmap Z (list ServerControl)) (bs : gmap Z Z) (total wtotal : Z)
    (tokens : list Z) (set : gset Z) : Prop := {
  ob_queued : forall t q, pend !! t = Some q -> q <> [] /\
    exists c p, cs !! t = Some c /\ cc_control c = Some p /\ bs !! t = Some (lsum (control_cost p) q);
  ob_charged : forall t n, bs !! t = Some n -> is_Some (pend !! t);
  ob_total : total = msum id bs;
  ob_written : wtotal = msum write_len cs;
  ob_capped : forall t c, cs !! t = Some c -> is_video c = false ->
    write_len c + default 0 (bs !! t) <= CONTROL_WRITE_HIGH_WATER;
  ob_video : forall t c, cs !! t = Some c -> is_video c = true -> cc_control c = None;
  ob_set : forall t, t ∈ set <-> is_Some (pend !! t);
  ob_tokens : forall t, t ∈ set -> t ∈ tokens;
  ob_stale : forall t, t ∈ tokens -> t ∈ set \/ cs !! t = None;
  ob_nodup : NoDup tokens;
}.

Definition queued_allowed (cs : gmap Z client) (rs : gmap Z RoomState) (pend : gmap Z (list ServerControl)) : Prop :=
  forall t q c m, pend !! t = Some q -> cs !! t = Some c -> m ∈ q -> allowed_for rs c m.

(** How far a connection has come.  It holds an admission slot until it is set up. *)
Definition setting_up (c : client) : Prop :=
  cc_control c = None /\ cc_transport c = None /\ cc_session_id c = None /\ cc_pre_auth c = true /\ write_len c = 0.

(** A video connection names nothing before its hello. *)
Record video_ok (w : VideoConn) : Prop := {
  vk_nameless : vc_phase w = VideoAwaitHello -> vc_stream_id w = None;
  vk_named : vc_phase w <> VideoAwaitHello -> is_Some (vc_session_id w) /\ is_Some (vc_stream_id w) /\ is_Some (vc_role w);
  vk_reader : forall r, vc_reader w = Some r -> reader_wf r;
}.

Definition progress (c : client) : Prop :=
  match cc_kind c with
  | Unidentified => cc_state c = AwaitClientHello /\ setting_up c
  | ControlConn =>
      match cc_state c with
      | AwaitClientHello => setting_up c
      | AwaitAuth => is_Some (cc_control c) /\ cc_session_id c = None /\ cc_pre_auth c = true
      | Ready => is_Some (cc_control c) /\ cc_transport c = None /\ is_Some (cc_session_id c) /\ cc_pre_auth c = false
      end
  | VideoKind w =>
      cc_control c = None /\ cc_transport c = None /\ cc_session_id c = None /\
      cc_pre_auth c = match vc_phase w with VideoStreaming => false | _ => true end /\ video_ok w
  end.

Record conn_ok (c : client) : Prop := {
  co_queue : WriteQueue.wf (cc_write_buf c);
  co_recv : RecvBuffer.wf (cc_read_buf c);
  co_progress : progress c;
}.

Definition conns_ok (cs : gmap Z client) : Prop := map_Forall (fun _ => conn_ok) cs.

Definition holds_slot (c : client) : Z := if cc_pre_auth c then 1 else 0.
Definition holds_slot_of (a : IpAddr) (c : client) : Z := if cc_pre_auth c && bool_decide (ip (cc_addr c) = a) then 1 else 0.

Record slots_ok (cs : gmap Z client) (p : PreAuthLimiter) : Prop := {
  sl_held : Z.of_nat (held_slots p) = msum holds_slot cs;
  sl_per_ip : forall a, Z.of_nat (default O (per_ip p !! a)) = msum (holds_slot_of a) cs;
  sl_positive : forall a n, per_ip p !! a = Some n -> (0 < n)%nat;
  sl_cap : (held_slots p <= MAX_HANDSHAKING)%nat;
  sl_cap_ip : forall a n, per_ip p !! a = Some n -> (n <= MAX_HANDSHAKING_PER_IP)%nat;
  sl_clients : (size cs <= MAX_CLIENTS)%nat;
}.

Record fanouts_ok (vs : gmap Z VideoStream) (fs : list VideoFanout) (bytes : Z) : Prop := {
  fa_bytes : bytes = lsum fo_charged_bytes fs;
  fa_cap : bytes <= VIDEO_FANOUT_QUEUE_MAX_BYTES;
  fa_charged : Forall (fun f => 0 <= fo_charged_bytes f) fs;
  fa_stream : Forall (fun f => is_Some (vs !! fo_stream_id f)) fs;
}.

(** A frame for the stream: published on it, or the mark that ends a fast start. *)
Definition frame_for (i : Z) (f : SharedVideoFrame) : Prop :=
  (exists key, publisher_frame_is_key (SharedVideoFrame.as_slice f) i = Ok key) \/ SharedVideoFrame.as_slice f = encode_video_bootstrap_end i.

Definition viewer_of (i : Z) (c : client) : Prop :=
  exists w, cc_kind c = VideoKind w /\ vc_stream_id w = Some i /\ vc_role w = Some Subscriber.

(** Frames wait only for viewers of their stream, as far as these are still there. *)
Definition fanout_ok (cs : gmap Z client) (nt : Z) (f : VideoFanout) : Prop :=
  frame_for (fo_stream_id f) (fo_data f) /\
  forall t, t ∈ fo_subscribers f -> t < nt /\ forall c, cs !! t = Some c -> viewer_of (fo_stream_id f) c.

Definition relayed_ok (cs : gmap Z client) (fs : list VideoFanout) (nt : Z) : Prop := Forall (fanout_ok cs nt) fs.

(** What a viewer starts from is empty or led by a keyframe. *)
Record ring_ok (i : Z) (v : VideoStream) : Prop := {
  rg_led : match st_ring v with [] => True | f :: _ => publisher_frame_is_key (SharedVideoFrame.as_slice f) i = Ok true end;
  rg_frames : Forall (fun f => exists key, publisher_frame_is_key (SharedVideoFrame.as_slice f) i = Ok key) (st_ring v);
  rg_bytes : st_ring_bytes v = lsum frame_retained (st_ring v);
  rg_visible : st_ring_visible_bytes v = lsum frame_len (st_ring v);
  rg_cap : st_ring_bytes v <= VIDEO_RING_MAX_BYTES;
  rg_len : (length (st_ring v) <= VIDEO_RING_MAX_FRAMES)%nat;
}.

Definition rings_ok (vs : gmap Z VideoStream) : Prop := map_Forall ring_ok vs.

(** Every number in use was handed out. *)
Record ids_ok (cs : gmap Z client) (tokens : list Z) (ss : gmap Z Session) (links : gmap (Z * Z) PeerLink)
    (us : gmap (Z * Z) ServerUpload) (rs : gmap Z RoomState) (vs : gmap Z VideoStream) (nt ns nx : Z) : Prop := {
  id_tokens : forall t c, cs !! t = Some c -> t < nt;
  id_queued : forall t, t ∈ tokens -> t < nt;
  id_sessions : forall i x, ss !! i = Some x -> i < ns;
  id_links : forall a b l, links !! (a, b) = Some l -> a < ns /\ b < ns;
  id_recipients : forall k u i, us !! k = Some u -> i ∈ up_recipients u -> i < ns;
  id_calls : forall r room i id, rs !! r = Some room -> rm_active_streams room !! i = Some id -> i < nx;
  id_streams : forall i v, vs !! i = Some v -> i < nx /\ st_owner_session v < ns;
  id_video : forall t c w i, cs !! t = Some c -> cc_kind c = VideoKind w -> vc_stream_id w = Some i -> i < nx;
}.

(** ** The invariant *)

Record inv (D L : gset Z) (s : server) : Prop := {
  inv_sessions : sessions_ok D (clients s) (sessions s);
  inv_calls : calls_ok L (rooms s) (sessions s);
  inv_streams : streams_ok L (clients s) (sessions s) (streams s);
  inv_uploads : uploads_ok (rooms s) (sessions s) (active_uploads s) (reserved_file_names s);
  inv_routes : routes_ok (reserved_media_routes s) (sessions s);
  inv_links : links_ok L (peer_links s) (sessions s);
  inv_outbound : outbound_ok (clients s) (pending_controls s) (pending_control_bytes s) (pending_control_total_bytes s)
    (write_queue_total_bytes s) (control_send_tokens s) (control_send_set s);
  inv_allowed : queued_allowed (clients s) (rooms s) (pending_controls s);
  inv_slots : slots_ok (clients s) (pre_auth s);
  inv_conns : conns_ok (clients s);
  inv_fanouts : fanouts_ok (streams s) (video_fanouts s) (video_fanout_bytes s);
  inv_relayed : relayed_ok (clients s) (video_fanouts s) (next_token s);
  inv_rings : rings_ok (streams s);
  inv_relay : relay_view (voice_commands s) = route_of <$> sessions s;
  inv_ids : ids_ok (clients s) (control_send_tokens s) (sessions s) (peer_links s) (active_uploads s) (rooms s) (streams s)
    (next_token s) (next_session s) (next_stream s);
}.

End invariant.
