(* ===== verification/ServerTeardown.v ===== *)
(** * A teardown ends, and leaves the tables in order

    Whatever a message or a disconnect sets off, it only takes things away: the
    connections, sessions, shares, uploads and links that are left are the ones
    that were there ([shrinks]).  Each level of the recursion has removed a
    connection first, so it ends; and it gives back the invariant it was started
    with. *)

From S2P Require Import Prelude Primitives Transport Handshake Media Frame Evented Video Net History Usernames VoiceRelay.
From S2P Require Import ServerState ServerCascade ServerInvariant.

(** A state that differs only where the clause does not look. *)
Ltac keep I := first [exact (inv_sessions _ _ _ _ I) | exact (inv_calls _ _ _ _ I) | exact (inv_streams _ _ _ _ I)
  | exact (inv_uploads _ _ _ _ I) | exact (inv_routes _ _ _ _ I) | exact (inv_links _ _ _ _ I)
  | exact (inv_outbound _ _ _ _ I) | exact (inv_allowed _ _ _ _ I) | exact (inv_slots _ _ _ _ I)
  | exact (inv_conns _ _ _ _ I) | exact (inv_fanouts _ _ _ _ I) | exact (inv_relayed _ _ _ _ I)
  | exact (inv_rings _ _ _ _ I) | exact (inv_relay _ _ _ _ I) | exact (inv_ids _ _ _ _ I)].

(** A message about one room. *)
Ltac one_scope := let q := fresh in intros q; cbn; rewrite ?list_elem_of_singleton; by intros ->.

Section teardown.
Context {Rx Tx St : Type} `{HashOrder} (encode_server_control : ServerControl -> bytes) (now : Z).
Abbreviation server := (Server Rx Tx St).
Abbreviation client := (ClientConn Rx Tx).
Abbreviation inv := (inv encode_server_control).

(** ** Taking away *)

(** A session keeps all but its call. *)
Definition same_session (x y : Session) : Prop :=
  exists r a p, y = set_p2p p (set_active_stream a (set_voice_room r x)).

Definition narrowed (v w : VideoStream) : Prop :=
  exists secrets subs pub, w = set_publisher pub (set_subscribers subs (set_view_secrets secrets v)) /\
    secrets ⊆ st_view_secrets v /\ (forall t, t ∈ subs -> t ∈ st_subscribers v) /\
    (pub = st_publisher v \/ exists d, pub = Detached d).

Definition same_room (r q : RoomState) : Prop :=
  exists a, q = set_active_streams a r /\ a ⊆ rm_active_streams r.

(** [X] holds the sessions whose call may have changed. *)
Record shrinks (X : gset Z) (s s' : server) : Prop := {
  sh_clients : clients s' ⊆ clients s;
  sh_sessions : forall id y, sessions s' !! id = Some y ->
    exists x, sessions s !! id = Some x /\ (y = x \/ id ∈ X /\ same_session x y);
  sh_rooms : forall r, option_Forall2 same_room (rooms s !! r) (rooms s' !! r);
  sh_streams : forall i w, streams s' !! i = Some w -> exists v, streams s !! i = Some v /\ narrowed v w;
  sh_uploads : active_uploads s' ⊆ active_uploads s;
  sh_links : peer_links s' ⊆ peer_links s;
  sh_queued : forall t q, pending_controls s !! t = Some q -> is_Some (clients s' !! t) ->
    exists q', pending_controls s' !! t = Some (q ++ q');
  sh_tokens : forall t, clients s !! t = None -> t ∈ control_send_tokens s' -> t ∈ control_send_tokens s;
  sh_rest : (config s', usernames s', pending_identity s', store s', mls_groups s', rng_draws s') =
            (config s, usernames s, pending_identity s, store s, mls_groups s, rng_draws s);
  sh_counters : (next_token s', next_session s', next_stream s', next_connection_id s', next_file_transfer s') =
                (next_token s, next_session s, next_stream s, next_connection_id s, next_file_transfer s);
}.

Lemma same_session_refl x : same_session x x.
Proof. exists (ss_voice_room x), (ss_active_stream x), (ss_p2p x). by destruct x. Qed.

Lemma same_session_trans x y z : same_session x y -> same_session y z -> same_session x z.
Proof. intros (r & a & p & ->) (r' & a' & p' & ->). exists r', a', p'. by destruct x. Qed.

Lemma narrowed_refl v : narrowed v v.
Proof. exists (st_view_secrets v), (st_subscribers v), (st_publisher v). destruct v; cbn. eauto. Qed.

Lemma narrowed_trans u v w : narrowed u v -> narrowed v w -> narrowed u w.
Proof.
  intros (k & b & p & -> & Hk & Hb & Hp) (k' & b' & p' & -> & Hk' & Hb' & Hp').
  exists k', b', p'. cbn in *. split; [by destruct u|]. split; [by trans k|]. split; [by auto|]. naive_solver.
Qed.

Lemma narrowed_fields v w : narrowed v w ->
  st_owner_session w = st_owner_session v /\ st_room_id w = st_room_id v /\ st_user_id w = st_user_id v /\
  st_announced w = st_announced v.
Proof. by intros (k & b & p & -> & _). Qed.

Lemma same_room_refl r : same_room r r.
Proof. exists (rm_active_streams r). by destruct r. Qed.

Lemma same_room_trans a b c : same_room a b -> same_room b c -> same_room a c.
Proof. intros (x & -> & Hx) (y & -> & Hy). exists y. cbn in *. split; [by destruct a|]. by trans x. Qed.

Lemma shrinks_refl X s : shrinks X s s.
Proof.
  split; try done; eauto using narrowed_refl.
  - intros r. destruct (rooms s !! r); constructor. apply same_room_refl.
  - intros t q Hq _. exists []. by rewrite app_nil_r.
Qed.

Lemma shrinks_trans X s1 s2 s3 : shrinks X s1 s2 -> shrinks X s2 s3 -> shrinks X s1 s3.
Proof.
  intros A B. split.
  - by trans (clients s2); [apply B|apply A].
  - intros id z Hz. destruct (sh_sessions _ _ _ B id z Hz) as (y & Hy & HB).
    destruct (sh_sessions _ _ _ A id y Hy) as (x & Hx & HA). exists x. split; [done|].
    destruct HA as [->|[HX HA]], HB as [->|[HX' HB]]; eauto using same_session_trans.
  - intros r. pose proof (sh_rooms _ _ _ A r) as HA. pose proof (sh_rooms _ _ _ B r) as HB.
    destruct HA as [? ? HA|]; inversion HB; subst; constructor. eauto using same_room_trans.
  - intros i w Hw. destruct (sh_streams _ _ _ B i w Hw) as (v & Hv & HB).
    destruct (sh_streams _ _ _ A i v Hv) as (u & Hu & HA). eauto using narrowed_trans.
  - by trans (active_uploads s2); [apply B|apply A].
  - by trans (peer_links s2); [apply B|apply A].
  - intros t q Hq Hc. assert (is_Some (clients s2 !! t)) as Hc2.
    { destruct Hc as [c Hc]. exists c. eapply lookup_weaken; [exact Hc|apply B]. }
    destruct (sh_queued _ _ _ A t q Hq Hc2) as [q2 Hq2]. destruct (sh_queued _ _ _ B t _ Hq2 Hc) as [q3 Hq3].
    exists (q2 ++ q3). by rewrite app_assoc.
  - intros t Ht Hin. apply (sh_tokens _ _ _ A t Ht), (sh_tokens _ _ _ B t); [|done].
    apply eq_None_not_Some. intros [c Hc]. assert (clients s1 !! t = Some c) by (eapply lookup_weaken; [exact Hc|apply A]). congruence.
  - rewrite (sh_rest _ _ _ B). apply A.
  - rewrite (sh_counters _ _ _ B). apply A.
Qed.

Lemma shrinks_weaken X Y s s' : X ⊆ Y -> shrinks X s s' -> shrinks Y s s'.
Proof.
  intros HXY A. split; try apply A. intros id y Hy. destruct (sh_sessions _ _ _ A id y Hy) as (x & Hx & [->|[HX Hs]]); eauto 10.
Qed.

Lemma shrinks_size X s s' : shrinks X s s' -> (size (clients s') <= size (clients s))%nat.
Proof. intros A. apply map_subseteq_size, A. Qed.

Lemma shrinks_client X s s' t c : shrinks X s s' -> clients s' !! t = Some c -> clients s !! t = Some c.
Proof. intros A Hc. eapply lookup_weaken; [exact Hc|apply A]. Qed.

Lemma shrinks_user X s s' id y : shrinks X s s' -> sessions s' !! id = Some y ->
  exists x, sessions s !! id = Some x /\ same_session x y.
Proof.
  intros A Hy. destruct (sh_sessions _ _ _ A id y Hy) as (x & Hx & [->|[_ Hs]]); eauto using same_session_refl.
Qed.

Lemma same_session_fields x y : same_session x y ->
  ss_user_id y = ss_user_id x /\ ss_tcp_token y = ss_tcp_token x /\ ss_transport y = ss_transport x /\
  ss_announced y = ss_announced x.
Proof. intros (r & a & p & ->). by destruct x. Qed.

Lemma may_see_same rs rs' u r : (forall r, option_Forall2 same_room (rs !! r) (rs' !! r)) -> may_see rs u r <-> may_see rs' u r.
Proof.
  intros HR. specialize (HR r). unfold may_see. destruct HR as [a b (x & -> & _)|].
  - split; intros (room & [= <-] & Ha); eexists; split; [reflexivity|by destruct a|reflexivity|by destruct a].
  - split; intros (room & [=] & _).
Qed.

Lemma shrinks_may_see X s s' u r : shrinks X s s' -> may_see (rooms s) u r <-> may_see (rooms s') u r.
Proof. intros A. apply may_see_same, A. Qed.

Lemma relayed_weaken (cs cs' : gmap Z client) fs fs' nt :
  relayed_ok cs fs nt -> cs' ⊆ cs -> (forall f, f ∈ fs' -> f ∈ fs) -> relayed_ok cs' fs' nt.
Proof.
  intros R Hcs Hfs. apply Forall_forall. intros f Hf. destruct (proj1 (Forall_forall _ _) R f (Hfs f Hf)) as [Hd Ht].
  split; [done|]. intros t Hin. destruct (Ht t Hin) as [Hlt Hc]. split; [done|]. intros c Hc'. apply Hc. by eapply lookup_weaken.
Qed.

Lemma narrowed_ring i v w : narrowed v w -> ring_ok i v -> ring_ok i w.
Proof. intros (k & b & p & -> & _) R. split; apply R. Qed.

Lemma rings_narrowed vs vs' :
  rings_ok vs -> (forall i w, vs' !! i = Some w -> exists v, vs !! i = Some v /\ narrowed v w) -> rings_ok vs'.
Proof. intros R Hn i w Hw. destruct (Hn i w Hw) as (v & Hv & Hnw). by eapply narrowed_ring, R. Qed.

(** ** Queueing one message *)

Lemma control_cost_pos p m : 0 < control_cost encode_server_control p m.
Proof. unfold control_cost, LENGTH_PREFIX_LEN. lia. Qed.

Lemma schedule_outbound (cs : gmap Z client) pend bs total wtotal tokens set t (c : client) p m :
  outbound_ok encode_server_control cs pend bs total wtotal tokens set ->
  cs !! t = Some c -> cc_control c = Some p ->
  write_len c + default 0 (bs !! t) + control_cost encode_server_control p m <= CONTROL_WRITE_HIGH_WATER ->
  outbound_ok encode_server_control cs (<[t := default [] (pend !! t) ++ [m]]> pend)
    (<[t := default 0 (bs !! t) + control_cost encode_server_control p m]> bs)
    (total + control_cost encode_server_control p m) wtotal
    (if decide (t ∈ set) then tokens else tokens ++ [t]) ({[t]} ∪ set).
Proof.
  intros B Hc Hp Hcap.
  assert (default 0 (bs !! t) = lsum (control_cost encode_server_control p) (default [] (pend !! t))) as Hsum.
  { destruct (pend !! t) as [q|] eqn:Hq.
    - destruct (ob_queued _ _ _ _ _ _ _ _ B t q Hq) as (_ & c' & p' & Hc' & Hp' & Hb). simplify_eq. by rewrite Hb.
    - destruct (bs !! t) as [n|] eqn:Hn; [|done].
      destruct (ob_charged _ _ _ _ _ _ _ _ B t n Hn) as [? ?]. congruence. }
  split.
  - intros t' q [[<- <-]|[Hne Hq]]%lookup_insert_Some.
    + split; [by destruct (default [] (pend !! t))|]. exists c, p. split_and!; [done..|].
      rewrite lookup_insert_eq, lsum_app, Hsum. f_equal. cbn [lsum foldr]. lia.
    + destruct (ob_queued _ _ _ _ _ _ _ _ B t' q Hq) as (Hne' & c' & p' & Hc' & Hp' & Hb).
      split; [done|]. exists c', p'. by rewrite lookup_insert_ne.
  - intros t' n [[<- <-]|[Hne Hn]]%lookup_insert_Some.
    + rewrite lookup_insert_eq. by eexists.
    + rewrite lookup_insert_ne by done. by eapply ob_charged.
  - rewrite (ob_total _ _ _ _ _ _ _ _ B). destruct (bs !! t) as [n|] eqn:Hn; cbn [default].
    + rewrite (msum_insert_some _ _ _ n) by done. cbn. lia.
    + rewrite msum_insert by done. cbn. lia.
  - apply B.
  - intros t' c' Hc' Hv. destruct (decide (t = t')) as [<-|Hne].
    + simplify_eq. rewrite lookup_insert_eq. cbn. lia.
    + rewrite lookup_insert_ne by done. by apply (ob_capped _ _ _ _ _ _ _ _ B).
  - apply B.
  - intros t'. rewrite elem_of_union, elem_of_singleton, (ob_set _ _ _ _ _ _ _ _ B).
    destruct (decide (t' = t)) as [->|Hne].
    + rewrite lookup_insert_eq. split; [by eexists|by left].
    + rewrite lookup_insert_ne by done. naive_solver.
  - intros t'. rewrite elem_of_union, elem_of_singleton.
    case_decide as Hin.
    + intros [->|Ht]; by apply (ob_tokens _ _ _ _ _ _ _ _ B).
    + rewrite elem_of_app, list_elem_of_singleton. intros [->|Ht]; [by right|left]. by apply (ob_tokens _ _ _ _ _ _ _ _ B).
  - intros t' Ht'. rewrite elem_of_union, elem_of_singleton.
    assert (t' ∈ tokens \/ t' = t) as [Ht| ->].
    { case_decide; [by left|]. by rewrite elem_of_app, list_elem_of_singleton in Ht'. }
    + destruct (ob_stale _ _ _ _ _ _ _ _ B t' Ht); auto.
    + auto.
  - case_decide as Hin; [apply B|]. apply NoDup_app. split_and!; [apply B| |apply NoDup_singleton].
    intros t' Ht'. rewrite list_elem_of_singleton. intros ->.
    destruct (ob_stale _ _ _ _ _ _ _ _ B t Ht'); congruence.
Qed.

Lemma schedule_fields t m n (s : server) :
  let s' := schedule_control t m n s in
  clients s' = clients s /\ sessions s' = sessions s /\ rooms s' = rooms s /\ streams s' = streams s /\
  active_uploads s' = active_uploads s /\ reserved_file_names s' = reserved_file_names s /\
  reserved_media_routes s' = reserved_media_routes s /\ peer_links s' = peer_links s /\
  pending_controls s' = <[t := default [] (pending_controls s !! t) ++ [m]]> (pending_controls s) /\
  pending_control_bytes s' = <[t := default 0 (pending_control_bytes s !! t) + n]> (pending_control_bytes s) /\
  pending_control_total_bytes s' = pending_control_total_bytes s + n /\
  write_queue_total_bytes s' = write_queue_total_bytes s /\
  control_send_tokens s' = (if decide (t ∈ control_send_set s) then control_send_tokens s else control_send_tokens s ++ [t]) /\
  control_send_set s' = {[t]} ∪ control_send_set s /\
  pre_auth s' = pre_auth s /\ video_fanouts s' = video_fanouts s /\ video_fanout_bytes s' = video_fanout_bytes s /\
  voice_commands s' = voice_commands s /\
  (config s', usernames s', pending_identity s', store s', mls_groups s', rng_draws s') =
    (config s, usernames s, pending_identity s, store s, mls_groups s, rng_draws s) /\
  (next_token s', next_session s', next_stream s', next_connection_id s', next_file_transfer s') =
    (next_token s, next_session s, next_stream s, next_connection_id s, next_file_transfer s).
Proof.
  unfold schedule_control. cbn [control_send_set set_pending_controls set_pending_control_total_bytes set_pending_control_bytes].
  case_decide; cbn; split_and!; try done. set_solver.
Qed.

Lemma schedule_inv D L s t (c : client) p m :
  inv D L s -> clients s !! t = Some c -> cc_control c = Some p ->
  write_len c + default 0 (pending_control_bytes s !! t) + control_cost encode_server_control p m <= CONTROL_WRITE_HIGH_WATER ->
  allowed_for (rooms s) c m ->
  inv D L (schedule_control t m (control_cost encode_server_control p m) s) /\
  shrinks ∅ s (schedule_control t m (control_cost encode_server_control p m) s).
Proof.
  intros I Hc Hp Hcap Hall.
  pose proof (schedule_fields t m (control_cost encode_server_control p m) s) as F. cbv zeta in F.
  destruct F as (F1 & F2 & F3 & F4 & F5 & F6 & F7 & F8 & F9 & F10 & F11 & F12 & F13 & F14 & F15 & F16 & F17 & F18 & F19 & F20).
  split.
  - pose proof F20 as [= G1 G2 G3 G4 G5].
    split; rewrite ?F1, ?F2, ?F3, ?F4, ?F5, ?F6, ?F7, ?F8, ?F9, ?F10, ?F11, ?F12, ?F13, ?F14, ?F15, ?F16, ?F17, ?F18, ?G1, ?G2, ?G3;
      try apply I.
    + by apply (schedule_outbound _ _ _ _ _ _ _ _ c); [apply I|..].
    + intros t' q c' m' [[<- <-]|[Hne Hq]]%lookup_insert_Some Hc' Hm.
      * simplify_eq. apply elem_of_app in Hm as [Hm|Hm%list_elem_of_singleton]; [|by subst].
        destruct (pending_controls s !! t) as [q|] eqn:Hq; [|by apply not_elem_of_nil in Hm].
        by eapply (inv_allowed _ _ _ _ I).
      * by eapply (inv_allowed _ _ _ _ I).
    + split; try apply I. intros t' Ht'. assert (t' ∈ control_send_tokens s \/ t' = t) as [Ht| ->].
      { case_decide; [by left|]. by rewrite elem_of_app, list_elem_of_singleton in Ht'. }
      * by eapply id_queued; [apply I|].
      * by eapply (id_tokens _ _ _ _ _ _ _ _ _ _ (inv_ids _ _ _ _ I)).
  - split; rewrite ?F1, ?F2, ?F3, ?F4, ?F5, ?F8, ?F9, ?F13; try done; try apply shrinks_refl; eauto using narrowed_refl.
    + intros t' q Hq _. destruct (decide (t = t')) as [<-|Hne].
      * rewrite lookup_insert_eq, Hq. by eexists.
      * rewrite lookup_insert_ne, Hq by done. exists []. by rewrite app_nil_r.
    + intros t' Ht'. case_decide; [done|]. rewrite elem_of_app, list_elem_of_singleton. intros [|<-]; [done|congruence].
Qed.

(** ** Against a [disconnect] that is known to work *)

(** It gives a result that keeps the invariant and shrinks the state. *)
Definition runs (X D L : gset Z) (s : server) (m : option server) : Prop :=
  exists s', m = Some s' /\ inv D L s' /\ shrinks X s s'.

(** [disc] works on states of fewer than [n] connections. *)
Definition disc_works (n : nat) (disc : Z -> server -> option server) : Prop :=
  forall t D L s, (size (clients s) < n)%nat -> inv D L s ->
  exists s', disc t s = Some s' /\ inv D L s' /\ shrinks ∅ s s' /\ clients s' !! t = None.

Lemma runs_bind X D D' L L' s m f :
  runs X D L s m -> (forall s', inv D L s' -> shrinks X s s' -> runs X D' L' s' (f s')) -> runs X D' L' s (s' ← m; f s').
Proof.
  intros (s1 & -> & I1 & S1) Hf. destruct (Hf s1 I1 S1) as (s2 & E & I2 & S2).
  exists s2. cbn. eauto using shrinks_trans.
Qed.

Lemma runs_step X D D' L L' s s1 m :
  shrinks X s s1 -> inv D L s1 -> (inv D L s1 -> runs X D' L' s1 m) -> runs X D' L' s m.
Proof. intros S1 I1 Hm. destruct (Hm I1) as (s2 & E & I2 & S2). exists s2. eauto using shrinks_trans. Qed.

Lemma runs_weaken X Y D L s m : X ⊆ Y -> runs X D L s m -> runs Y D L s m.
Proof. intros HXY (s' & E & I & S). exists s'. eauto using shrinks_weaken. Qed.

Lemma runs_id X D L s : inv D L s -> runs X D L s (Some s).
Proof. intros. exists s. eauto using shrinks_refl. Qed.

Lemma runs_each {A} X D L (f : A -> server -> option server) l s :
  inv D L s ->
  (forall a s', a ∈ l -> inv D L s' -> shrinks X s s' -> runs X D L s' (f a s')) -> runs X D L s (each f l s).
Proof.
  revert s. induction l as [|a l IH]; intros s I Hf; [by apply runs_id|].
  cbn [each]. eapply runs_bind; [apply Hf; [by left|done|apply shrinks_refl]|].
  intros s' I' S'. apply IH; [done|]. intros b s2 Hb I2 S2. apply Hf; [by right|done|by eapply shrinks_trans].
Qed.

Section knot.
Context (n : nat) (disc : Z -> server -> option server) (Hdisc : disc_works n disc).
Abbreviation small s := (size (clients s) < n)%nat.

Lemma small_shrinks X s s' : shrinks X s s' -> small s -> small s'.
Proof. intros S%shrinks_size Hs. lia. Qed.

Lemma runs_disc t D L s : small s -> inv D L s -> runs ∅ D L s (disc t s).
Proof. intros Hs I. destruct (Hdisc t D L s Hs I) as (s' & E & I' & S' & _). by exists s'. Qed.

(** Whoever is still connected when a message is queued may be told. *)
Definition tellable (s : server) (t : Z) (m : ServerControl) : Prop :=
  forall c : client, clients s !! t = Some c -> allowed_for (rooms s) c m.

Lemma tellable_shrinks X s s' t m : shrinks X s s' -> tellable s t m -> tellable s' t m.
Proof.
  intros S Ht c Hc r Hr. destruct (Ht c (shrinks_client _ _ _ _ _ S Hc) r Hr) as (u & Hu & Hsee).
  exists u. split; [done|]. by apply (shrinks_may_see _ _ _ _ _ S).
Qed.

Lemma saturating_le a b c k : k < umax 64 -> 0 <= c -> saturating_add 64 (saturating_add 64 a b) c <= k -> a + b + c <= k.
Proof. unfold saturating_add. lia. Qed.

Lemma queue_ok D L s t m :
  small s -> inv D L s -> tellable s t m ->
  exists s' r, queue_shared_control_payload encode_server_control disc t m s = Some (s', r) /\
    inv D L s' /\ shrinks ∅ s s'.
Proof.
  intros Hs I Ht. unfold queue_shared_control_payload.
  assert (forall r : result bytes (), exists s' r', Some (s, r) = Some (s', r') /\ inv D L s' /\ shrinks ∅ s s') as Hsame.
  { intros r. exists s, r. eauto using shrinks_refl. }
  assert (forall e : bytes, exists s' r', (s' ← disc t s; Some (s', Err e : result bytes ())) = Some (s', r') /\ inv D L s' /\ shrinks ∅ s s') as Hdrop.
  { intros e. destruct (runs_disc t D L s Hs I) as (s' & -> & I' & S'). cbn. eauto 10. }
  case_decide; [apply Hsame|]. destruct (clients s !! t) as [c|] eqn:Hc; [|apply Hsame].
  destruct (cc_control c) as [p|] eqn:Hp; [|apply Hsame].
  case_decide; [apply Hsame|]. case_decide as Hw; [apply Hdrop|]. case_decide; [apply Hdrop|].
  apply Z.nlt_ge, saturating_le in Hw; [|reflexivity|unfold LENGTH_PREFIX_LEN; lia].
  eexists _, _. split; [reflexivity|]. eapply schedule_inv; eauto.
Qed.

Lemma runs_tell D L s t m : small s -> inv D L s -> tellable s t m -> runs ∅ D L s (tell encode_server_control disc t m s).
Proof.
  intros Hs I Ht. unfold tell, send_control_to_token, ignoring.
  destruct (queue_ok D L s t m Hs I Ht) as (s' & r & -> & I' & S'). by exists s'.
Qed.

Lemma runs_send D L s ts m :
  small s -> inv D L s -> (forall t, t ∈ ts -> tellable s t m) ->
  runs ∅ D L s (send_control_to_tokens encode_server_control disc ts m s).
Proof.
  intros Hs I Ht. apply runs_each; [done|]. intros t s' Hin I' S'.
  apply (runs_tell D L s' t m); [by eapply small_shrinks|done|].
  eapply tellable_shrinks; eauto.
Qed.

Lemma runs_disc_all D L s ts : small s -> inv D L s -> runs ∅ D L s (each disc ts s).
Proof. intros Hs I. apply runs_each; [done|]. intros t s' _ I' S'. apply runs_disc; [by eapply small_shrinks|done]. Qed.

End knot.

(** ** Dropping a connection *)

Lemma outbound_nonneg (cs : gmap Z client) pend bs total wtotal tokens set :
  outbound_ok encode_server_control cs pend bs total wtotal tokens set -> forall t n, bs !! t = Some n -> 0 <= id n.
Proof.
  intros B t n Hn. destruct (ob_charged _ _ _ _ _ _ _ _ B t n Hn) as [q Hq].
  destruct (ob_queued _ _ _ _ _ _ _ _ B t q Hq) as (_ & c & p & _ & _ & Hb). simplify_eq. cbn.
  apply lsum_nonneg, Forall_forall. intros m _. pose proof (control_cost_pos p m). lia.
Qed.

Lemma drop_outbound (cs : gmap Z client) pend bs total wtotal tokens set t c :
  outbound_ok encode_server_control cs pend bs total wtotal tokens set -> cs !! t = Some c ->
  outbound_ok encode_server_control (delete t cs) (delete t pend) (delete t bs)
    (saturating_sub total (default 0 (bs !! t))) (saturating_sub wtotal (write_len c)) tokens (set ∖ {[t]}).
Proof.
  intros B Hc. pose proof (outbound_nonneg _ _ _ _ _ _ _ B) as Hnn.
  split.
  - intros t' q [Hne Hq]%lookup_delete_Some.
    destruct (ob_queued _ _ _ _ _ _ _ _ B t' q Hq) as (Hne' & c' & p' & Hc' & Hp' & Hb).
    split; [done|]. exists c', p'. by rewrite !lookup_delete_ne.
  - intros t' m [Hne Hm]%lookup_delete_Some. rewrite lookup_delete_ne by done. by eapply ob_charged.
  - rewrite (ob_total _ _ _ _ _ _ _ _ B). unfold saturating_sub. destruct (bs !! t) as [m|] eqn:Hm; cbn.
    + pose proof (msum_part id bs t m Hnn Hm). rewrite (msum_delete id bs t m) in * by done. cbn in *. lia.
    + rewrite (msum_delete_none id bs t) by done. pose proof (msum_nonneg id bs Hnn). lia.
  - rewrite (ob_written _ _ _ _ _ _ _ _ B). unfold saturating_sub.
    assert (forall k v, cs !! k = Some v -> 0 <= write_len v) as Hw by (intros; unfold write_len; lia).
    pose proof (msum_part write_len cs t c Hw Hc). rewrite (msum_delete write_len cs t c) in * by done. lia.
  - intros t' c' [Hne Hc']%lookup_delete_Some Hv. rewrite lookup_delete_ne by done. by apply (ob_capped _ _ _ _ _ _ _ _ B).
  - intros t' c' [Hne Hc']%lookup_delete_Some. by apply (ob_video _ _ _ _ _ _ _ _ B t').
  - intros t'. rewrite elem_of_difference, elem_of_singleton, (ob_set _ _ _ _ _ _ _ _ B).
    destruct (decide (t' = t)) as [->|Hne].
    + rewrite lookup_delete_eq. split; [naive_solver|by intros []].
    + rewrite lookup_delete_ne by done. naive_solver.
  - intros t' [Ht' _]%elem_of_difference. by apply (ob_tokens _ _ _ _ _ _ _ _ B).
  - intros t' Ht'. rewrite elem_of_difference, elem_of_singleton. destruct (decide (t' = t)) as [->|Hne].
    + right. apply lookup_delete_eq.
    + rewrite lookup_delete_ne by done. destruct (ob_stale _ _ _ _ _ _ _ _ B t' Ht'); auto.
  - apply B.
Qed.

Lemma drop_slots (cs : gmap Z client) p t c :
  slots_ok cs p -> cs !! t = Some c ->
  slots_ok (delete t cs) (if cc_pre_auth c then PreAuthLimiter.release p (ip (cc_addr c)) else p).
Proof.
  intros B Hc.
  assert (forall f : client -> Z, msum f cs = f c + msum f (delete t cs)) as Hsum by (intros; by apply msum_delete).
  assert (size (delete t cs) <= size cs)%nat by (apply map_subseteq_size, delete_subseteq).
  pose proof (sl_clients _ _ B). pose proof (sl_held _ _ B) as Hheld. rewrite Hsum in Hheld. unfold holds_slot in Hheld at 1.
  assert (0 <= msum holds_slot (delete t cs)) by (apply msum_nonneg; intros ? v _; unfold holds_slot; destruct (cc_pre_auth v); lia).
  destruct (cc_pre_auth c) eqn:Hpre.
  - assert (forall a, Z.of_nat (default O (per_ip p !! a)) =
              (if bool_decide (ip (cc_addr c) = a) then 1 else 0) + msum (holds_slot_of a) (delete t cs)) as Hip.
    { intros a. rewrite (sl_per_ip _ _ B a), Hsum. unfold holds_slot_of at 1. by rewrite Hpre. }
    assert (forall a, 0 <= msum (holds_slot_of a) (delete t cs)) as Hip0.
    { intros a. apply msum_nonneg. intros ? v _. unfold holds_slot_of. destruct (_ && _); lia. }
    pose proof (Hip (ip (cc_addr c))) as Hown. rewrite bool_decide_eq_true_2 in Hown by done.
    pose proof (Hip0 (ip (cc_addr c))).
    destruct (per_ip p !! ip (cc_addr c)) as [k|] eqn:Hk; cbn [default] in Hown; [|cbn in Hown; lia]. cbn in Hown.
    split; cbn [held_slots per_ip PreAuthLimiter.release].
    + lia.
    + intros a. rewrite Hk. specialize (Hip a). destruct (decide (ip (cc_addr c) = a)) as [<-|Hne].
      * rewrite bool_decide_eq_true_2, Hk in Hip by done. cbn in Hip.
        case_decide; [rewrite lookup_delete_eq|rewrite lookup_insert_eq]; cbn; lia.
      * rewrite bool_decide_eq_false_2 in Hip by done.
        case_decide; [rewrite lookup_delete_ne by done|rewrite lookup_insert_ne by done]; lia.
    + intros a m. rewrite Hk. case_decide.
      * intros [_ Hm]%lookup_delete_Some. by eapply sl_positive.
      * intros [[<- <-]|[_ Hm]]%lookup_insert_Some; [lia|]. by eapply sl_positive.
    + pose proof (sl_cap _ _ B). lia.
    + intros a m. rewrite Hk. pose proof (sl_cap_ip _ _ B _ _ Hk). case_decide.
      * intros [_ Hm]%lookup_delete_Some. by eapply sl_cap_ip.
      * intros [[<- <-]|[_ Hm]]%lookup_insert_Some; [lia|]. by eapply sl_cap_ip.
    + lia.
  - split; [lia| |apply B..|lia]. intros a. rewrite (sl_per_ip _ _ B a), Hsum. unfold holds_slot_of at 1.
    rewrite Hpre. cbn. lia.
Qed.

(** What [detach_video_conn] does to its stream. *)
Definition detach1 (role : VideoRole) (t : Z) (v : VideoStream) : VideoStream :=
  match role with
  | Publisher => if decide (VideoPublisherState.token (st_publisher v) = Some t) then set_publisher (Detached now) v else v
  | Subscriber => set_subscribers (filter (fun other => other <> t) (st_subscribers v)) v
  end.

Lemma set_streams_id (s : server) vs : vs = streams s -> set_streams vs s = s.
Proof. intros ->. by destruct s. Qed.

Lemma detach_alter i role t (s : server) : detach_video_conn now i role t s = set_streams (alter (detach1 role t) i (streams s)) s.
Proof.
  unfold detach_video_conn. destruct (streams s !! i) as [v|] eqn:Hv.
  - assert (forall v', <[i := v']> (streams s) = alter (fun _ => v') i (streams s)) as Hins.
    { intros v'. apply map_eq. intros j. destruct (decide (i = j)) as [<-|Hne].
      - by rewrite lookup_insert_eq, lookup_alter_eq, Hv.
      - by rewrite lookup_insert_ne, lookup_alter_ne. }
    assert (forall f, f v = detach1 role t v -> alter (fun _ => f v) i (streams s) = alter (detach1 role t) i (streams s)) as Halt.
    { intros f Hf. apply map_eq. intros j. destruct (decide (i = j)) as [<-|Hne].
      - rewrite !lookup_alter_eq, Hv. cbn. by rewrite Hf.
      - by rewrite !lookup_alter_ne. }
    destruct role; [case_decide as Ht|].
    + rewrite Hins. f_equal. apply (Halt (fun v => set_publisher (Detached now) v)). cbn. by rewrite decide_True.
    + symmetry. apply set_streams_id. rewrite <- (Halt (fun v => v)) by (cbn; by rewrite decide_False).
      rewrite <- Hins. by apply insert_id.
    + rewrite Hins. f_equal. by apply (Halt (fun v => set_subscribers (filter (fun other => other <> t) (st_subscribers v)) v)).
  - symmetry. apply set_streams_id. apply map_eq. intros j. destruct (decide (i = j)) as [<-|Hne].
    + by rewrite lookup_alter_eq, Hv.
    + by rewrite lookup_alter_ne.
Qed.

Lemma detach1_narrowed role t v : narrowed v (detach1 role t v).
Proof.
  destruct role; cbn; [case_decide; [|apply narrowed_refl]|].
  - exists (st_view_secrets v), (st_subscribers v), (Detached now). destruct v; cbn. eauto 10.
  - exists (st_view_secrets v), (filter (fun other => other <> t) (st_subscribers v)), (st_publisher v).
    destruct v; cbn. split_and!; [done..| |by left]. intros t' Ht'. apply list_elem_of_filter in Ht'. tauto.
Qed.

(** The stream a connection takes part in, and how. *)
Definition video_part (c : client) : option (Z * VideoRole) :=
  match cc_kind c with VideoKind w => i ← vc_stream_id w; r ← vc_role w; Some (i, r) | _ => None end.

Definition detached (t : Z) (c : client) (vs : gmap Z VideoStream) : gmap Z VideoStream :=
  match video_part c with Some (i, r) => alter (detach1 r t) i vs | None => vs end.

Lemma stream_ok_drop L (cs : gmap Z client) ss i v v' t c :
  stream_ok L cs ss i v -> cs !! t = Some c ->
  v' = match video_part c with Some (j, r) => if decide (j = i) then detach1 r t v else v | None => v end ->
  stream_ok L (delete t cs) ss i v'.
Proof.
  intros B Hc Hv'.
  assert (narrowed v v' /\ st_view_secrets v' = st_view_secrets v /\ st_subscribers v' ⊆ st_subscribers v /\
          (t ∉ st_subscribers v') /\ (VideoPublisherState.token (st_publisher v') = Some t -> False) /\
          (st_publisher v' = st_publisher v \/ st_publisher v' = Detached now) /\
          (orphan v -> orphan v')) as (HN & Hsec & Hsub & Hnsub & Hnpub & Hpub & Horph).
  { assert (t ∈ st_subscribers v -> video_part c = Some (i, Subscriber)) as Hs.
    { intros Ht. destruct (vo_watched _ _ _ _ _ B t Ht) as (c' & w & id & Hc' & Hk & Hi & Hr & _). simplify_eq.
      unfold video_part. by rewrite Hk, Hi, Hr. }
    assert (VideoPublisherState.token (st_publisher v) = Some t -> video_part c = Some (i, Publisher)) as Hp.
    { intros Ht. destruct (vo_published _ _ _ _ _ B t Ht) as (c' & w & Hc' & Hk & Hi & Hr & _). simplify_eq.
      unfold video_part. by rewrite Hk, Hi, Hr. }
    assert (forall u : VideoStream, u = v -> (forall r, video_part c <> Some (i, r)) ->
      narrowed v u /\ st_view_secrets u = st_view_secrets v /\ st_subscribers u ⊆ st_subscribers v /\
      (t ∉ st_subscribers u) /\ (VideoPublisherState.token (st_publisher u) = Some t -> False) /\
      (st_publisher u = st_publisher v \/ st_publisher u = Detached now) /\ (orphan v -> orphan u)) as Hsame.
    { intros u -> Hno. split_and!; try done; try apply narrowed_refl.
      - intros Ht. exact (Hno _ (Hs Ht)).
      - intros Ht. exact (Hno _ (Hp Ht)).
      - by left. }
    destruct (video_part c) as [[j r]|] eqn:Hr; [|by apply Hsame].
    case_decide as Hj; [|apply Hsame; [done|intros r' [= ? ?]; congruence]].
    subst j v'. split; [apply detach1_narrowed|]. destruct r; cbn.
    + case_decide as Htok; cbn; split_and!; auto; try (intros Ht; by simplify_eq); try done.
      * intros Ht. specialize (Hs Ht). congruence.
      * intros ([d Hd] & _). by rewrite Hd in Htok.
      * intros Ht. specialize (Hs Ht). congruence.
    + split_and!; auto.
      * intros t' Ht'. apply list_elem_of_filter in Ht'. tauto.
      * intros Ht. apply list_elem_of_filter in Ht. tauto.
      * intros Ht. specialize (Hp Ht). congruence.
      * intros (Hd & Ha & Hs' & Hk). unfold orphan. cbn. by rewrite Hs'. }
  destruct HN as (k & b & p & -> & _). cbn in *. split; cbn.
  - destruct (vo_owner _ _ _ _ _ B) as [Ho|[Hn Ho]]; [by left|right; split; [done|by apply Horph]].
  - intros id x Hx. rewrite Hsec in Hx. by eapply vo_secrets.
  - intros t' Ht'. destruct (vo_watched _ _ _ _ _ B t' (Hsub t' Ht')) as (c' & w & id & Hc' & Hk & Hi & Hr & Hid & Hin).
    exists c', w, id. rewrite lookup_delete_ne by (intros ->; by apply Hnsub). rewrite Hsec. auto 10.
  - intros t' Ht'. destruct Hpub as [->| ->]; [|done].
    destruct (vo_published _ _ _ _ _ B t' Ht') as (c' & w & Hc' & Hrest). exists c', w.
    rewrite lookup_delete_ne by (intros ->; by apply Hnpub). auto.
  - destruct Hpub as [->| ->]; [|done]. apply B.
  - intros t' c' w id [_ Hc']%lookup_delete_Some. rewrite Hsec. by eapply (vo_viewer _ _ _ _ _ B).
  - intros t' c' w [_ Hc']%lookup_delete_Some. by eapply (vo_owned _ _ _ _ _ B).
Qed.

Definition dying (c : client) : gset Z := match cc_session_id c with Some id => {[id]} | None => ∅ end.

Lemma forget_eq t (s : server) :
  let s' := forget_token t s in
  s' = set_control_send_set (control_send_set s ∖ {[t]})
        (set_pending_control_total_bytes (if pending_control_bytes s !! t is Some n
           then saturating_sub (pending_control_total_bytes s) n else pending_control_total_bytes s)
        (set_pending_control_bytes (delete t (pending_control_bytes s))
        (set_pending_controls (delete t (pending_controls s))
        (set_deferred_identity_tokens (deferred_identity_tokens s')
        (set_deferred_identity_controls (deferred_identity_controls s') s))))).
Proof.
  cbv zeta. unfold forget_token. destruct s. cbn.
  case_decide; cbn; (case_match eqn:E; [done|]); by rewrite (delete_id _ _ E).
Qed.

Lemma drop_eq t (c : client) (s : server) :
  drop_client now t c s =
    set_streams (detached t c (streams s))
      (set_write_queue_total_bytes (saturating_sub (write_queue_total_bytes s) (write_len c))
         (set_pre_auth (if cc_pre_auth c then PreAuthLimiter.release (pre_auth s) (ip (cc_addr c)) else pre_auth s)
            (set_clients (delete t (clients s)) s))).
Proof.
  unfold drop_client, detached, video_part. destruct (cc_kind c) as [| |w]; cbn.
  3: destruct (vc_stream_id w) as [i|]; [destruct (vc_role w) as [r|]|]; cbn.
  3: rewrite detach_alter; cbn.
  all: destruct s, (cc_pre_auth c); cbn; done.
Qed.

Lemma detached_lookup t c vs i w : detached t c vs !! i = Some w ->
  exists v, vs !! i = Some v /\ w = match video_part c with Some (j, r) => if decide (j = i) then detach1 r t v else v | None => v end.
Proof.
  unfold detached. destruct (video_part c) as [[j r]|]; [|eauto].
  destruct (decide (j = i)) as [->|Hne].
  - rewrite lookup_alter_eq. intros (v & Hv & ->)%fmap_Some. by exists v.
  - rewrite lookup_alter_ne by done. eauto.
Qed.

Lemma drop_sessions D (cs : gmap Z client) ss t c :
  sessions_ok D cs ss -> cs !! t = Some c -> sessions_ok (D ∪ dying c) (delete t cs) ss.
Proof.
  intros B Hc. unfold dying. split.
  - intros id x Hx Hid. destruct (so_live _ _ _ B id x Hx) as (c' & Hc' & Hs & Hrest); [set_solver|].
    exists c'. rewrite lookup_delete_ne; [auto|]. intros Heq. rewrite <- Heq in Hc'. simplify_eq. rewrite Hs in Hid. set_solver.
  - intros id x Hx Hid. destruct (decide (t = ss_tcp_token x)) as [Heq|Hne]; [rewrite <- Heq; apply lookup_delete_eq|].
    rewrite lookup_delete_ne by done. apply elem_of_union in Hid as [Hid|Hid]; [by eapply so_dying|].
    destruct (cc_session_id c) as [j|] eqn:Hj; [|set_solver]. apply elem_of_singleton in Hid as ->.
    destruct (so_named _ _ _ B t c j Hc Hj) as (x' & Hx' & Ht). simplify_eq.
  - intros t' c' id [Hne Hc']%lookup_delete_Some. by eapply so_named.
  - intros t' c' [Hne Hc']%lookup_delete_Some. by eapply so_user.
Qed.

Lemma drop_inv D L s t c :
  inv D L s -> clients s !! t = Some c ->
  inv (D ∪ dying c) L (drop_client now t c (forget_token t s)) /\
  shrinks ∅ s (drop_client now t c (forget_token t s)) /\
  clients (drop_client now t c (forget_token t s)) = delete t (clients s) /\
  sessions (drop_client now t c (forget_token t s)) = sessions s.
Proof.
  intros I Hc. rewrite drop_eq, forget_eq. cbv zeta. split_and!; [| |done..].
  - split; cbn -[saturating_sub]; try apply I.
    + by apply drop_sessions; [apply I|].
    + intros i w Hw. destruct (detached_lookup _ _ _ _ _ Hw) as (v & Hv & Hd).
      eapply stream_ok_drop; [by apply I|done..].
    + pose proof (inv_outbound _ _ _ _ I) as O. pose proof (drop_outbound _ _ _ _ _ _ _ t c O Hc) as B.
      match goal with |- outbound_ok _ _ _ _ ?n _ _ _ =>
        replace n with (saturating_sub (pending_control_total_bytes s) (default 0 (pending_control_bytes s !! t)));
        [exact B|] end.
      destruct (pending_control_bytes s !! t); [done|]. unfold saturating_sub. cbn. rewrite (ob_total _ _ _ _ _ _ _ _ O).
      pose proof (msum_nonneg id _ (outbound_nonneg _ _ _ _ _ _ _ O)). lia.
    + intros t' q c' m Hq Hc'. apply lookup_delete_Some in Hq as [_ Hq], Hc' as [_ Hc']. by eapply (inv_allowed _ _ _ _ I).
    + by apply drop_slots; [apply I|].
    + apply map_Forall_delete, I.
    + pose proof (inv_fanouts _ _ _ _ I) as F. split; try apply F.
      eapply Forall_impl; [exact (fa_stream _ _ _ F)|]. intros f [v Hv]. unfold detached. destruct (video_part c) as [[j r]|]; [|by exists v].
      destruct (decide (j = fo_stream_id f)) as [->|Hne].
      * rewrite lookup_alter_eq, Hv. by eexists.
      * rewrite lookup_alter_ne by done. by exists v.
    + eapply relayed_weaken; [apply I|apply delete_subseteq|done].
    + eapply rings_narrowed; [apply I|]. intros i w Hw. destruct (detached_lookup _ _ _ _ _ Hw) as (v & Hv & ->). exists v. split; [done|].
      destruct (video_part c) as [[j r]|]; [case_decide|]; auto using narrowed_refl, detach1_narrowed.
    + pose proof (inv_ids _ _ _ _ I) as J. split; try apply J.
      * intros t' c' [_ Hc']%lookup_delete_Some. by eapply (id_tokens _ _ _ _ _ _ _ _ _ _ J).
      * intros i w Hw. destruct (detached_lookup _ _ _ _ _ Hw) as (v & Hv & ->).
        destruct (id_streams _ _ _ _ _ _ _ _ _ _ J i v Hv). split; [done|].
        destruct (video_part c) as [[j r]|]; [case_decide; [|done]|done].
        by destruct (narrowed_fields _ _ (detach1_narrowed r t v)) as (-> & _).
      * intros t' c' w i [_ Hc']%lookup_delete_Some. by eapply (id_video _ _ _ _ _ _ _ _ _ _ J).
  - split; cbn -[saturating_sub]; try done; try apply shrinks_refl; eauto.
    + apply delete_subseteq.
    + intros i w Hw. destruct (detached_lookup _ _ _ _ _ Hw) as (v & Hv & ->). exists v. split; [done|].
      destruct (video_part c) as [[j r]|]; [case_decide|]; auto using narrowed_refl, detach1_narrowed.
    + intros t' q Hq [c' [Hne Hc']%lookup_delete_Some]. rewrite lookup_delete_ne by done. exists []. by rewrite app_nil_r.
Qed.

(** ** Taking away an upload, a share, a call, a session *)

Ltac shrunk := split; cbn; try done; try apply shrinks_refl; eauto using narrowed_refl.

Lemma queue_prefix (s : server) : forall t q, pending_controls s !! t = Some q -> is_Some (clients s !! t) ->
  exists q', pending_controls s !! t = Some (q ++ q').
Proof. intros t q Hq _. exists []. by rewrite app_nil_r. Qed.

Lemma remove_upload_inv D L s k u :
  inv D L s -> active_uploads s !! k = Some u ->
  let s' := set_reserved_file_names (reserved_file_names s ∖ {[up_file_name u]}) (set_active_uploads (delete k (active_uploads s)) s) in
  inv D L s' /\ shrinks ∅ s s'.
Proof.
  intros I Hu. cbv zeta. split; [split; cbn; try keep I|shrunk; apply delete_subseteq].
  - pose proof (inv_uploads _ _ _ _ I) as U. split.
    + intros k' u' [_ Hu']%lookup_delete_Some. by eapply (uo_owner _ _ _ _ U).
    + intros k' u' [Hne Hu']%lookup_delete_Some. apply elem_of_difference. split; [by eapply uo_named|].
      rewrite elem_of_singleton. intros Heq. apply Hne. by eapply (uo_distinct _ _ _ _ U k k' u u').
    + intros n [Hn Hne]%elem_of_difference. destruct (uo_names _ _ _ _ U n Hn) as (k' & u' & Hu' & <-).
      exists k', u'. split; [|done]. rewrite lookup_delete_ne; [done|]. intros <-. simplify_eq. set_solver.
    + intros k1 k2 u1 u2 [_ H1]%lookup_delete_Some [_ H2]%lookup_delete_Some. by eapply (uo_distinct _ _ _ _ U).
    + intros k' u' id x [_ Hu']%lookup_delete_Some. by eapply (uo_allowed _ _ _ _ U).
    + intros id. etrans; [|exact (uo_cap _ _ _ _ U id)]. apply map_subseteq_size, map_filter_strong_subseteq_ext.
      intros k' u' [? [_ Hu']%lookup_delete_Some]. done.
  - pose proof (inv_ids _ _ _ _ I) as J. split; try apply J.
    intros k' u' i [_ Hu']%lookup_delete_Some. by eapply (id_recipients _ _ _ _ _ _ _ _ _ _ J).
Qed.

Lemma fold_charges fs k : Forall (fun f => 0 <= fo_charged_bytes f) fs -> lsum fo_charged_bytes fs <= k -> k < umax 64 ->
  foldr (fun f n => saturating_add 64 (fo_charged_bytes f) n) 0 fs = lsum fo_charged_bytes fs.
Proof.
  intros Hf Hk Hu. induction Hf as [|f fs Hf0 Hf IH]; [done|]. cbn [lsum foldr] in *. fold (lsum fo_charged_bytes fs) in *.
  pose proof (lsum_nonneg _ _ Hf). rewrite IH by lia. unfold saturating_add. lia.
Qed.

Lemma remove_stream_inv D L s i v :
  inv D L s -> streams s !! i = Some v ->
  inv D L (purge_video_fanouts i (set_streams (delete i (streams s)) s)) /\
  shrinks ∅ s (purge_video_fanouts i (set_streams (delete i (streams s)) s)).
Proof.
  intros I Hv. unfold purge_video_fanouts. split.
  - split; cbn -[saturating_sub]; try keep I.
    + intros j w [_ Hw]%lookup_delete_Some. by apply (inv_streams _ _ _ _ I).
    + pose proof (inv_fanouts _ _ _ _ I) as F.
      pose proof (lsum_filter fo_charged_bytes (fun f => fo_stream_id f = i) (fun f => fo_stream_id f <> i) (video_fanouts s)
        ltac:(done)) as Hsum.
      pose proof (fa_charged _ _ _ F) as Hc. pose proof (fa_cap _ _ _ F). pose proof (fa_bytes _ _ _ F).
      assert (forall P `{forall x, Decision (P x)}, 0 <= lsum fo_charged_bytes (filter P (video_fanouts s))) as Hnn.
      { intros P HP. apply lsum_nonneg. apply Forall_forall. intros f [_ Hf]%list_elem_of_filter.
        by apply (proj1 (Forall_forall _ _) Hc). }
      pose proof (Hnn (fun f => fo_stream_id f = i) _). pose proof (Hnn (fun f => fo_stream_id f <> i) _).
      split.
      * rewrite (fold_charges _ VIDEO_FANOUT_QUEUE_MAX_BYTES).
        -- unfold saturating_sub. lia.
        -- apply Forall_forall. intros f [_ Hf]%list_elem_of_filter. by apply (proj1 (Forall_forall _ _) Hc).
        -- lia.
        -- done.
      * unfold saturating_sub.
        rewrite (fold_charges _ VIDEO_FANOUT_QUEUE_MAX_BYTES); [lia| |lia|done].
        apply Forall_forall. intros f [_ Hf]%list_elem_of_filter. by apply (proj1 (Forall_forall _ _) Hc).
      * apply Forall_forall. intros f [_ Hf]%list_elem_of_filter. by apply (proj1 (Forall_forall _ _) Hc).
      * apply Forall_forall. intros f [Hne Hf]%list_elem_of_filter. rewrite lookup_delete_ne by done.
        by apply (proj1 (Forall_forall _ _) (fa_stream _ _ _ F)).
    + eapply relayed_weaken; [apply I|done|]. by intros f [_ Hf]%list_elem_of_filter.
    + eapply rings_narrowed; [apply I|]. intros j w [_ Hw]%lookup_delete_Some. eauto using narrowed_refl.
    + pose proof (inv_ids _ _ _ _ I) as J. split; try apply J.
      intros j w [_ Hw]%lookup_delete_Some. by eapply (id_streams _ _ _ _ _ _ _ _ _ _ J).
  - split; cbn -[saturating_sub]; try done; try apply shrinks_refl; eauto.
    intros j w [_ Hw]%lookup_delete_Some. eauto using narrowed_refl.
Qed.

(** A session stops being a viewer; its connections are about to go. *)
Definition revoke1 (id : Z) (v : VideoStream) : VideoStream := set_view_secrets (delete id (st_view_secrets v)) v.

Lemma revoke1_narrowed id v : narrowed v (revoke1 id v).
Proof.
  exists (delete id (st_view_secrets v)), (st_subscribers v), (st_publisher v). destruct v; cbn.
  split_and!; [done|apply delete_subseteq|done|by left].
Qed.

Lemma revoke_inv D L s id :
  inv D L s ->
  inv D ({[id]} ∪ L) (set_streams (revoke1 id <$> streams s) s) /\ shrinks ∅ s (set_streams (revoke1 id <$> streams s) s).
Proof.
  intros I. split.
  - split; cbn; try keep I.
    + pose proof (inv_calls _ _ _ _ I) as C. split; try apply C. intros j x r Hx Hj. eapply (ca_streams _ _ _ C); [done|set_solver].
    + intros i w Hw. rewrite lookup_fmap in Hw. apply fmap_Some in Hw as (v & Hv & ->).
      pose proof (inv_streams _ _ _ _ I i v Hv) as B. split; cbn.
      * destruct (vo_owner _ _ _ _ _ B) as [Ho|(Hn & Hd & Ha & Hs & Hk)]; [by left|right]. split; [done|]. unfold orphan. cbn.
        rewrite Hk. split_and!; done.
      * intros j k [_ Hk]%lookup_delete_Some. by eapply vo_secrets.
      * intros t Ht. destruct (vo_watched _ _ _ _ _ B t Ht) as (c & w & j & Hc & Hk & Hi & Hr & Hj & Hin).
        exists c, w, j. split_and!; try done. destruct (decide (j = id)) as [->|Hne]; [set_solver|].
        rewrite lookup_delete_ne by done. set_solver.
      * apply B.
      * apply B.
      * intros t c w' j Hc Hk Hi Hr Hj. destruct (decide (j = id)) as [->|Hne]; [set_solver|].
        rewrite lookup_delete_ne by done. destruct (vo_viewer _ _ _ _ _ B t c w' j); set_solver.
      * apply B.
    + pose proof (inv_links _ _ _ _ I) as K. split.
      * apply K.
      * intros a b l j x Hl Hj Hx HL. eapply (li_member _ _ _ K); [done..|set_solver].
      * intros a b l x y Hl Hx Hy Ha Hb. eapply (li_call _ _ _ K); [done..|set_solver|set_solver].
    + pose proof (inv_fanouts _ _ _ _ I) as F. split; try apply F.
      eapply Forall_impl; [exact (fa_stream _ _ _ F)|]. intros f [v Hv]. rewrite lookup_fmap, Hv. by eexists.
    + eapply rings_narrowed; [apply I|]. intros i w Hw. rewrite lookup_fmap in Hw. apply fmap_Some in Hw as (v & Hv & ->).
      exists v. eauto using revoke1_narrowed.
    + pose proof (inv_ids _ _ _ _ I) as J. split; try apply J.
      intros i w Hw. rewrite lookup_fmap in Hw. apply fmap_Some in Hw as (v & Hv & ->).
      exact (id_streams _ _ _ _ _ _ _ _ _ _ J i v Hv).
  - shrunk. intros i w Hw. rewrite lookup_fmap in Hw. apply fmap_Some in Hw as (v & Hv & ->).
    exists v. eauto using revoke1_narrowed.
Qed.

(** The invariant with a session changed in nothing that other tables look at. *)
Definition same_keys (x y : Session) : Prop :=
  ss_user_id y = ss_user_id x /\ ss_tcp_token y = ss_tcp_token x /\ ss_transport y = ss_transport x.

Lemma lookup_insert_session (ss : gmap Z Session) id x y j z :
  ss !! id = Some x -> same_keys x y -> <[id := y]> ss !! j = Some z ->
  exists x', ss !! j = Some x' /\ same_keys x' z /\ (j <> id -> z = x').
Proof. intros Hx Hs [[<- <-]|[Hne Hz]]%lookup_insert_Some; [naive_solver|]. exists z. by split_and!. Qed.

Lemma sessions_ok_change D (cs : gmap Z client) ss id x y :
  sessions_ok D cs ss -> ss !! id = Some x -> same_keys x y -> sessions_ok D cs (<[id := y]> ss).
Proof.
  intros B Hx Hs. split.
  - intros j z Hz Hj. destruct (lookup_insert_session _ _ _ _ _ _ Hx Hs Hz) as (x' & Hx' & Hs' & _).
    destruct Hs' as (-> & -> & _). by eapply so_live.
  - intros j z Hz Hj. destruct (lookup_insert_session _ _ _ _ _ _ Hx Hs Hz) as (x' & Hx' & Hs' & _).
    destruct Hs' as (_ & -> & _). by eapply so_dying.
  - intros t c j Hc Hj. destruct (so_named _ _ _ B t c j Hc Hj) as (x' & Hx' & Ht).
    destruct (decide (id = j)) as [<-|Hne].
    + exists y. rewrite lookup_insert_eq. split; [done|]. simplify_eq. by destruct Hs as (_ & -> & _).
    + exists x'. by rewrite lookup_insert_ne.
  - apply B.
Qed.

Lemma uploads_ok_change rs ss us names id x y :
  uploads_ok rs ss us names -> ss !! id = Some x -> same_keys x y -> uploads_ok rs (<[id := y]> ss) us names.
Proof.
  intros B Hx Hs. split; try apply B.
  - intros k u Hu. destruct (uo_owner _ _ _ _ B k u Hu) as [x' Hx']. destruct (decide (id = k.1)) as [<-|Hne].
    + rewrite lookup_insert_eq. by eexists.
    + rewrite lookup_insert_ne by done. by eexists.
  - intros k u j z Hu Hj Hz. destruct (lookup_insert_session _ _ _ _ _ _ Hx Hs Hz) as (x' & Hx' & Hs' & _).
    destruct Hs' as (-> & _). by eapply uo_allowed.
Qed.

Lemma routes_ok_change routes ss id x y :
  routes_ok routes ss -> ss !! id = Some x -> same_keys x y -> routes_ok routes (<[id := y]> ss).
Proof.
  intros B Hx Hs. split.
  - intros j z Hz. destruct (lookup_insert_session _ _ _ _ _ _ Hx Hs Hz) as (x' & Hx' & Hs' & _).
    destruct Hs' as (_ & _ & ->). by eapply ro_reserved.
  - intros r j Hr. destruct (ro_live _ _ B r j Hr) as (x' & Hx' & Ht). destruct (decide (id = j)) as [<-|Hne].
    + exists y. rewrite lookup_insert_eq. simplify_eq. split; [done|]. by destruct Hs as (_ & _ & ->).
    + exists x'. by rewrite lookup_insert_ne.
Qed.

Lemma ids_ok_change cs tokens ss links us rs vs nt ns nx id x y :
  ids_ok (Rx := Rx) (Tx := Tx) cs tokens ss links us rs vs nt ns nx -> ss !! id = Some x ->
  ids_ok cs tokens (<[id := y]> ss) links us rs vs nt ns nx.
Proof.
  intros B Hx. split; try apply B. intros j z [[<- <-]|[Hne Hz]]%lookup_insert_Some; by eapply (id_sessions _ _ _ _ _ _ _ _ _ _ B).
Qed.

Lemma stream_ok_change L (cs : gmap Z client) ss i v id x y :
  stream_ok L cs ss i v -> ss !! id = Some x -> ss_voice_room y = ss_voice_room x -> ss_user_id y = ss_user_id x ->
  stream_ok L cs (<[id := y]> ss) i v.
Proof.
  intros B Hx Hv Hu.
  assert (forall j z, ss !! j = Some z -> exists z', <[id := y]> ss !! j = Some z' /\ ss_voice_room z' = ss_voice_room z /\
            ss_user_id z' = ss_user_id z) as Hl.
  { intros j z Hz. destruct (decide (id = j)) as [<-|Hne].
    - exists y. rewrite lookup_insert_eq. by simplify_eq.
    - exists z. by rewrite lookup_insert_ne. }
  split; try apply B.
  - destruct (vo_owner _ _ _ _ _ B) as [(z & Hz & H1 & H2)|[Hn Ho]].
    2: { right. split; [|done]. rewrite lookup_insert_ne; [done|]. intros Heq. rewrite Heq in *. congruence. }
    left. destruct (Hl _ _ Hz) as (z' & Hz' & H1' & H2'). exists z'. split_and!; [done|congruence|congruence].
  - intros j k Hk. destruct (vo_secrets _ _ _ _ _ B j k Hk) as (z & Hz & H1).
    destruct (Hl _ _ Hz) as (z' & Hz' & H1' & _). exists z'. split; [done|congruence].
Qed.

Lemma links_ok_change L links ss id x y :
  links_ok L links ss -> ss !! id = Some x -> ss_voice_room y = ss_voice_room x -> links_ok L links (<[id := y]> ss).
Proof.
  intros B Hx Hv.
  assert (forall j z, <[id := y]> ss !! j = Some z -> exists z', ss !! j = Some z' /\ ss_voice_room z = ss_voice_room z') as Hl.
  { intros j z [[<- <-]|[Hne Hz]]%lookup_insert_Some; eauto. }
  split.
  - apply B.
  - intros a b l j z Hl' Hj Hz HL. destruct (Hl _ _ Hz) as (z' & Hz' & ->). by eapply li_member.
  - intros a b l z w Hl' Hz Hw Ha Hb. destruct (Hl _ _ Hz) as (z' & Hz' & ->), (Hl _ _ Hw) as (w' & Hw' & ->).
    by eapply li_call.
Qed.

Section same_rooms.
Context (rs rs' : gmap Z RoomState) (HR : forall r, option_Forall2 same_room (rs !! r) (rs' !! r)).

Lemma queued_allowed_rooms (cs : gmap Z client) pend : queued_allowed cs rs pend -> queued_allowed cs rs' pend.
Proof.
  intros Q t q c m Hq Hc Hm r Hr. destruct (Q t q c m Hq Hc Hm r Hr) as (u & Hu & Hs). exists u. split; [done|].
  by apply (may_see_same _ _ _ _ HR).
Qed.

Lemma uploads_ok_rooms ss us names : uploads_ok rs ss us names -> uploads_ok rs' ss us names.
Proof. intros B. split; try apply B. intros. apply (may_see_same _ _ _ _ HR). by eapply uo_allowed. Qed.

Lemma ids_ok_rooms cs tokens ss links us vs nt ns nx :
  ids_ok (Rx := Rx) (Tx := Tx) cs tokens ss links us rs vs nt ns nx -> ids_ok cs tokens ss links us rs' vs nt ns nx.
Proof.
  intros B. split; try apply B. intros r room i id Hroom Hi. specialize (HR r). rewrite Hroom in HR.
  inversion HR as [a b (x & -> & Hx) Ha|]; subst. cbn in Hi. eapply (id_calls _ _ _ _ _ _ _ _ _ _ B r); [done|].
  by eapply lookup_weaken.
Qed.

End same_rooms.

Definition leave_room (i : Z) (r : RoomState) : RoomState := set_active_streams (delete i (rm_active_streams r)) r.

Lemma leave_rooms i room_id rs : forall r, option_Forall2 same_room (rs !! r) ((alter (leave_room i) room_id rs : gmap Z RoomState) !! r).
Proof.
  intros r. destruct (decide (room_id = r)) as [<-|Hne].
  - rewrite lookup_alter_eq. destruct (rs !! room_id) as [room|]; constructor. eexists. split; [done|]. apply delete_subseteq.
  - rewrite lookup_alter_ne by done. destruct (rs !! r); constructor. apply same_room_refl.
Qed.

Lemma stop_calls L rs ss id x i room_id :
  calls_ok L rs ss -> id ∈ L -> ss !! id = Some x -> ss_active_stream x = Some i -> ss_voice_room x = Some room_id ->
  calls_ok L (alter (leave_room i) room_id rs) (<[id := set_active_stream None x]> ss).
Proof.
  intros C HL Hx Ha Hv. split.
  - intros j z i' [[<- <-]|[Hne Hz]]%lookup_insert_Some Hi'; [done|].
    destruct (ca_listed _ _ _ C j z i' Hz Hi') as (r & room & Hr & Hroom & Hact). exists r.
    destruct (decide (room_id = r)) as [<-|Hner].
    + exists (leave_room i room). rewrite lookup_alter_eq, Hroom. split_and!; [done..|]. cbn.
      rewrite lookup_delete_ne; [done|]. intros <-.
      destruct (ca_listed _ _ _ C id x i Hx Ha) as (r' & room' & Hr' & Hroom' & Hact'). simplify_eq.
    + exists room. by rewrite lookup_alter_ne.
  - intros r room i' j Hroom Hi'. destruct (decide (room_id = r)) as [<-|Hner].
    + rewrite lookup_alter_eq in Hroom. apply fmap_Some in Hroom as (room' & Hroom' & ->). cbn in Hi'.
      apply lookup_delete_Some in Hi' as [Hnei Hi'].
      destruct (ca_member _ _ _ C _ _ _ _ Hroom' Hi') as (z & Hz & Hz1 & Hz2). exists z.
      rewrite lookup_insert_ne; [done|]. intros <-. simplify_eq.
    + rewrite lookup_alter_ne in Hroom by done. destruct (ca_member _ _ _ C _ _ _ _ Hroom Hi') as (z & Hz & Hz1 & Hz2).
      exists z. rewrite lookup_insert_ne; [done|]. intros <-. simplify_eq.
  - intros j z r [[<- <-]|[Hne Hz]]%lookup_insert_Some Hr; apply (may_see_same _ _ _ _ (leave_rooms i room_id rs)).
    + by apply (ca_allowed _ _ _ C id x).
    + by eapply (ca_allowed _ _ _ C).
  - intros j z r [[<- <-]|[Hne Hz]]%lookup_insert_Some Hj Hr; [done|]. by eapply (ca_streams _ _ _ C).
  - intros r room Hroom. destruct (decide (room_id = r)) as [<-|Hner].
    + rewrite lookup_alter_eq in Hroom. apply fmap_Some in Hroom as (room' & Hroom' & ->). exact (ca_ids _ _ _ C _ _ Hroom').
    + rewrite lookup_alter_ne in Hroom by done. by apply (ca_ids _ _ _ C).
Qed.

Lemma stop_voice_inv D L s id x i room_id :
  inv D L s -> id ∈ L -> sessions s !! id = Some x -> ss_active_stream x = Some i -> ss_voice_room x = Some room_id ->
  let s' := set_rooms (alter (leave_room i) room_id (rooms s))
              (submit_voice (SetRoute id None) (set_sessions (<[id := set_active_stream None x]> (sessions s)) s)) in
  inv D L s' /\ shrinks {[id]} s s'.
Proof.
  intros I HL Hx Ha Hv. cbv zeta.
  assert (same_session x (set_active_stream None x)) as Hs.
  { exists (ss_voice_room x), None, (ss_p2p x). by destruct x. }
  assert (same_keys x (set_active_stream None x)) as Hk by done.
  pose proof (leave_rooms i room_id (rooms s)) as HR.
  split.
  - split; cbn; try keep I.
    + eapply sessions_ok_change; eauto. apply I.
    + eapply stop_calls; eauto. apply I.
    + intros j v Hj. eapply stream_ok_change; [by apply I|done..].
    + eapply uploads_ok_rooms; [done|]. eapply uploads_ok_change; eauto. apply I.
    + eapply routes_ok_change; eauto. apply I.
    + eapply links_ok_change; eauto. apply I.
    + eapply queued_allowed_rooms; [done|apply I].
    + rewrite relay_view_snoc, (inv_relay _ _ _ _ I). cbn. rewrite fmap_insert. apply map_eq. intros j.
      destruct (decide (id = j)) as [<-|Hne].
      * rewrite lookup_alter_eq, lookup_insert_eq, lookup_fmap, Hx. cbn. unfold route_of. cbn. by rewrite Hv.
      * by rewrite lookup_alter_ne, lookup_insert_ne.
    + eapply ids_ok_rooms; [done|]. eapply ids_ok_change; eauto. apply I.
  - shrunk. intros j y [[<- <-]|[Hne Hy]]%lookup_insert_Some; [exists x|exists y]; [|by auto].
    split; [done|]. right. split; [set_solver|done].
Qed.

(** Nothing of the session is left in the shares. *)
Definition no_share (s : server) (id : Z) : Prop :=
  forall i v, streams s !! i = Some v -> st_owner_session v <> id /\ st_view_secrets v !! id = None.
Definition no_link (s : server) (id : Z) : Prop :=
  forall a b l, peer_links s !! (a, b) = Some l -> a <> id /\ b <> id.
Definition no_viewer (s : server) (id : Z) : Prop :=
  forall t (c : client), clients s !! t = Some c -> ~ is_subscriber_of id c.
Definition no_upload (s : server) (id : Z) : Prop := forall k u, active_uploads s !! k = Some u -> k.1 <> id.
Definition no_call (s : server) (id : Z) : Prop :=
  forall x, sessions s !! id = Some x -> ss_voice_room x = None /\ ss_active_stream x = None.

Lemma no_share_shrinks X s s' id : shrinks X s s' -> no_share s id -> no_share s' id.
Proof.
  intros S Hn i w Hw. destruct (sh_streams _ _ _ S i w Hw) as (v & Hv & k & b & p & -> & Hk & _).
  destruct (Hn i v Hv) as [Ho Hs]. split; [done|]. cbn. by eapply lookup_weaken_None.
Qed.

Lemma no_upload_shrinks X s s' id : shrinks X s s' -> no_upload s id -> no_upload s' id.
Proof. intros S Hn k u Hu. eapply (Hn k u). eapply lookup_weaken; [done|apply S]. Qed.

Lemma no_viewer_shrinks X s s' id : shrinks X s s' -> no_viewer s id -> no_viewer s' id.
Proof. intros S Hn t c Hc. eapply (Hn t c). by eapply shrinks_client. Qed.

Lemma no_link_removed id (s : server) : no_link (remove_peer_links id s) id.
Proof. intros a b l Hl. cbn in Hl. apply map_lookup_filter_Some in Hl as [_ Hl]. exact Hl. Qed.

Lemma remove_links_inv D L s id :
  inv D L s -> inv D L (remove_peer_links id s) /\ shrinks ∅ s (remove_peer_links id s).
Proof.
  intros I. split; [split; cbn; try keep I|shrunk; apply map_filter_subseteq].
  - pose proof (inv_links _ _ _ _ I) as K. split.
    + intros a b l [Hl _]%map_lookup_filter_Some. by eapply (li_ordered _ _ _ K).
    + intros a b l j x [Hl _]%map_lookup_filter_Some. by eapply (li_member _ _ _ K).
    + intros a b l x y [Hl _]%map_lookup_filter_Some. by eapply (li_call _ _ _ K).
  - pose proof (inv_ids _ _ _ _ I) as J. split; try apply J.
    intros a b l [Hl _]%map_lookup_filter_Some. by eapply (id_links _ _ _ _ _ _ _ _ _ _ J).
Qed.

Definition leave_call (x : Session) : Session := set_p2p None (set_voice_room None x).

Lemma leave_keys x : same_keys x (leave_call x).
Proof. done. Qed.

Lemma leave_same x : same_session x (leave_call x).
Proof. exists None, (ss_active_stream x), None. by destruct x. Qed.

Lemma leave_call_inv D L s id x :
  inv D L s -> sessions s !! id = Some x -> ss_active_stream x = None -> no_share s id -> no_link s id ->
  let s' := set_sessions (<[id := leave_call x]> (sessions s)) s in
  inv D L s' /\ shrinks {[id]} s s'.
Proof.
  intros I Hx Ha Hsh Hli. cbv zeta. split.
  - split; cbn; try keep I.
    + eapply sessions_ok_change; eauto using leave_keys. apply I.
    + pose proof (inv_calls _ _ _ _ I) as C. split.
      * intros j z i [[<- <-]|[Hne Hz]]%lookup_insert_Some Hi; [cbn in Hi; congruence|]. by eapply (ca_listed _ _ _ C).
      * intros r room i j Hroom Hi. destruct (ca_member _ _ _ C _ _ _ _ Hroom Hi) as (z & Hz & Hz1 & Hz2). exists z.
        rewrite lookup_insert_ne; [done|]. intros <-. simplify_eq.
      * intros j z r [[<- <-]|[Hne Hz]]%lookup_insert_Some; [done|]. by eapply (ca_allowed _ _ _ C).
      * intros j z r [[<- <-]|[Hne Hz]]%lookup_insert_Some; [done|]. by eapply (ca_streams _ _ _ C).
      * apply C.
    + intros i v Hv. pose proof (inv_streams _ _ _ _ I i v Hv) as B. destruct (Hsh i v Hv) as [Ho Hk]. split; try apply B.
      * destruct (vo_owner _ _ _ _ _ B) as [(z & Hz & Hrest)|Horph]; [left|right].
        -- exists z. by rewrite lookup_insert_ne.
        -- by rewrite lookup_insert_ne.
      * intros j k Hj. destruct (vo_secrets _ _ _ _ _ B j k Hj) as (z & Hz & Hr). exists z.
        rewrite lookup_insert_ne; [done|]. intros <-. congruence.
    + eapply uploads_ok_change; eauto using leave_keys. apply I.
    + eapply routes_ok_change; eauto using leave_keys. apply I.
    + pose proof (inv_links _ _ _ _ I) as K. split.
      * apply K.
      * intros a b l j z Hl Hj. destruct (Hli a b l Hl). rewrite lookup_insert_ne by (intros <-; destruct Hj; congruence).
        by eapply (li_member _ _ _ K).
      * intros a b l z w Hl. destruct (Hli a b l Hl). rewrite !lookup_insert_ne by done. by eapply (li_call _ _ _ K).
    + rewrite (inv_relay _ _ _ _ I), fmap_insert. symmetry. apply insert_id. rewrite lookup_fmap, Hx. cbn.
      unfold route_of. cbn. rewrite Ha. by destruct (ss_voice_room x).
    + eapply ids_ok_change; eauto. apply I.
  - shrunk. intros j y [[<- <-]|[Hne Hy]]%lookup_insert_Some; [exists x|exists y]; [|by auto].
    split; [done|]. right. split; [set_solver|apply leave_same].
Qed.

(** Nothing is suspended for a session that has left. *)
Lemma settle_inv D L s id : inv D ({[id]} ∪ L) s -> no_viewer s id -> no_call s id -> no_link s id -> inv D L s.
Proof.
  intros I Hv Hc Hl. split; try keep I.
  - pose proof (inv_calls _ _ _ _ I) as C. split; try apply C. intros j x r Hx Hj Hr.
    destruct (decide (j = id)) as [->|Hne]; [destruct (Hc x Hx) as [? _]; congruence|].
    eapply (ca_streams _ _ _ C); [done|set_solver|done].
  - intros i v Hi. pose proof (inv_streams _ _ _ _ I i v Hi) as B.
    assert (forall t c w j, clients s !! t = Some c -> cc_kind c = VideoKind w -> vc_stream_id w = Some i ->
              vc_role w = Some Subscriber -> vc_session_id w = Some j -> j ∈ L \/ is_Some (st_view_secrets v !! j)) as Hview.
    { intros t c w j Hcl Hk Hst Hr Hj. destruct (vo_viewer _ _ _ _ _ B t c w j Hcl Hk Hst Hr Hj) as [Hin|Hin]; [left|by right].
      apply elem_of_union in Hin as [Hin%elem_of_singleton|Hin]; [|done]. subst j. exfalso.
      apply (Hv t c Hcl). unfold is_subscriber_of. by rewrite Hk. }
    split; try apply B.
    + intros t Ht. destruct (vo_watched _ _ _ _ _ B t Ht) as (c & w & j & Hcl & Hk & Hst & Hr & Hj & _).
      exists c, w, j. split_and!; try done. by eapply Hview.
    + intros t c w j Hcl Hk Hst Hr Hj. by eapply Hview.
  - pose proof (inv_links _ _ _ _ I) as K. split.
    + apply K.
    + intros a b l j x Hab Hj Hx HL. destruct (Hl a b l Hab). eapply (li_member _ _ _ K); [done..|].
      rewrite elem_of_union, elem_of_singleton. intros [->|?]; [destruct Hj; congruence|done].
    + intros a b l x y Hab Hx Hy Ha Hb. destruct (Hl a b l Hab). eapply (li_call _ _ _ K); [done..|set_solver|set_solver].
Qed.

Definition removed (id : Z) (x : Session) (s : server) : server :=
  set_reserved_media_routes (delete (route_id (ss_transport x)) (reserved_media_routes s))
    (set_sessions (delete id (sessions s)) s).

Lemma remove_session_inv D L s id x :
  inv ({[id]} ∪ D) L s -> sessions s !! id = Some x -> no_share s id -> no_call s id -> no_upload s id ->
  let s' := submit_voice (RemoveSession id) (removed id x s) in
  inv D L s' /\ shrinks ∅ s s'.
Proof.
  intros I Hx Hsh Hca Hup. cbv zeta. destruct (Hca x Hx) as (Hr & Ha).
  pose proof (inv_sessions _ _ _ _ I) as S.
  split.
  - split; cbn; try keep I.
    + split.
      * intros j z [Hne Hz]%lookup_delete_Some Hj. apply (so_live _ _ _ S); [done|set_solver].
      * intros j z [Hne Hz]%lookup_delete_Some Hj. apply (so_dying _ _ _ S j); [done|set_solver].
      * intros t c j Hc Hj. destruct (so_named _ _ _ S t c j Hc Hj) as (z & Hz & Ht). exists z.
        rewrite lookup_delete_ne; [done|]. intros <-. simplify_eq.
        rewrite (so_dying _ _ _ S id x Hx) in Hc; [done|set_solver].
      * apply S.
    + pose proof (inv_calls _ _ _ _ I) as C. split.
      * intros j z i [Hne Hz]%lookup_delete_Some. by eapply (ca_listed _ _ _ C).
      * intros r room i j Hroom Hi. destruct (ca_member _ _ _ C _ _ _ _ Hroom Hi) as (z & Hz & Hz1 & Hz2). exists z.
        rewrite lookup_delete_ne; [done|]. intros <-. simplify_eq.
      * intros j z r [Hne Hz]%lookup_delete_Some. by eapply (ca_allowed _ _ _ C).
      * intros j z r [Hne Hz]%lookup_delete_Some. by eapply (ca_streams _ _ _ C).
      * apply C.
    + intros i v Hv. pose proof (inv_streams _ _ _ _ I i v Hv) as B. destruct (Hsh i v Hv) as [Ho Hk]. split; try apply B.
      * destruct (vo_owner _ _ _ _ _ B) as [(z & Hz & Hrest)|Horph]; [left|right].
        -- exists z. by rewrite lookup_delete_ne.
        -- by rewrite lookup_delete_ne.
      * intros j k Hj. destruct (vo_secrets _ _ _ _ _ B j k Hj) as (z & Hz & Hrm). exists z.
        rewrite lookup_delete_ne; [done|]. intros <-. congruence.
    + pose proof (inv_uploads _ _ _ _ I) as U. split; try apply U.
      * intros k u Hu. rewrite lookup_delete_ne by (apply not_eq_sym; by eapply Hup). by eapply uo_owner.
      * intros k u j z Hu Hj [Hne Hz]%lookup_delete_Some. by eapply uo_allowed.
    + pose proof (inv_routes _ _ _ _ I) as R. split.
      * intros j z [Hne Hz]%lookup_delete_Some. rewrite lookup_delete_ne; [by apply R|].
        intros Heq. apply Hne. pose proof (ro_reserved _ _ R id x Hx). pose proof (ro_reserved _ _ R j z Hz). congruence.
      * intros r j [Hne Hj]%lookup_delete_Some. destruct (ro_live _ _ R r j Hj) as (z & Hz & Ht). exists z.
        rewrite lookup_delete_ne; [done|]. intros <-. congruence.
    + pose proof (inv_links _ _ _ _ I) as K. split.
      * apply K.
      * intros a b l j z Hl Hj [Hne Hz]%lookup_delete_Some. by eapply (li_member _ _ _ K).
      * intros a b l z w Hl [_ Hz]%lookup_delete_Some [_ Hw]%lookup_delete_Some. by eapply (li_call _ _ _ K).
    + rewrite relay_view_snoc, (inv_relay _ _ _ _ I). cbn. by rewrite fmap_delete.
    + pose proof (inv_ids _ _ _ _ I) as J. split; try apply J.
      intros j z [_ Hz]%lookup_delete_Some. by eapply (id_sessions _ _ _ _ _ _ _ _ _ _ J).
  - shrunk. intros j y [_ Hy]%lookup_delete_Some. eauto.
Qed.

Lemma dead_session_inv D L s id :
  inv ({[id]} ∪ D) L s -> sessions s !! id = None ->
  inv D L (submit_voice (RemoveSession id) s) /\ shrinks ∅ s (submit_voice (RemoveSession id) s).
Proof.
  intros I Hx. pose proof (inv_sessions _ _ _ _ I) as S. split; [split; cbn; try keep I|shrunk].
  - split; try apply S.
    + intros j z Hz Hj. apply (so_live _ _ _ S); [done|]. rewrite elem_of_union, elem_of_singleton. intros [->|?]; congruence.
    + intros j z Hz Hj. apply (so_dying _ _ _ S j); [done|set_solver].
  - rewrite relay_view_snoc, (inv_relay _ _ _ _ I). cbn. apply delete_id. by rewrite lookup_fmap, Hx.
Qed.

Lemma bug_reports_inv D L (s : server) rs :
  inv D L s -> inv D L (set_active_bug_reports rs s) /\ shrinks ∅ s (set_active_bug_reports rs s).
Proof. intros I. split; [split; cbn; keep I|shrunk]. Qed.

(** ** Who may be told *)

Lemma live_token_spec (s : server) id t : live_token_for_session s id = Some t <->
  exists x, sessions s !! id = Some x /\ ss_tcp_token x = t /\ is_Some (clients s !! t).
Proof.
  unfold live_token_for_session. destruct (sessions s !! id) as [x|]; cbn; [|naive_solver].
  case_decide; split; [intros [= <-]; eauto|intros (? & [= <-] & <- & _); done|done|intros (? & [= <-] & <- & ?); done].
Qed.

Lemma live_user D L (s : server) id t : inv D L s -> live_token_for_session s id = Some t ->
  exists x (c : client), sessions s !! id = Some x /\ ss_tcp_token x = t /\ clients s !! t = Some c /\
    cc_user_id c = Some (ss_user_id x) /\ cc_session_id c = Some id.
Proof.
  intros I (x & Hx & <- & c & Hc)%live_token_spec. pose proof (inv_sessions _ _ _ _ I) as S.
  destruct (decide (id ∈ D)) as [HD|HD]; [by rewrite (so_dying _ _ _ S id x Hx HD) in Hc|].
  destruct (so_live _ _ _ S id x Hx HD) as (c' & Hc' & Hs & Hu & _). simplify_eq. eauto 10.
Qed.

Lemma tellable_session D L (s : server) id t m :
  inv D L s -> live_token_for_session s id = Some t ->
  (forall x r, sessions s !! id = Some x -> r ∈ scope m -> may_see (rooms s) (ss_user_id x) r) -> tellable s t m.
Proof.
  intros I Hl Hm c Hc r Hr. destruct (live_user _ _ _ _ _ I Hl) as (x & c' & Hx & _ & Hc' & Hu & _). simplify_eq.
  exists (ss_user_id x). eauto.
Qed.

Lemma tellable_unscoped (s : server) t m : scope m = [] -> tellable s t m.
Proof. intros Hm c _ r Hr. rewrite Hm in Hr. by apply not_elem_of_nil in Hr. Qed.

Lemma member_call D L (s : server) r id : inv D L s -> id ∈ voice_member_sessions s r ->
  exists x, sessions s !! id = Some x /\ ss_voice_room x = Some r /\ is_Some (ss_active_stream x).
Proof.
  unfold voice_member_sessions. intros I Hid. destruct (rooms s !! r) as [room|] eqn:Hr; [|by apply not_elem_of_nil in Hid].
  apply elem_of_hash_values in Hid as [i Hi].
  destruct (ca_member _ _ _ (inv_calls _ _ _ _ I) _ _ _ _ Hr Hi) as (x & Hx & Ha & Hv). eauto.
Qed.

Lemma tellable_call D L (s : server) r id x t m :
  inv D L s -> sessions s !! id = Some x -> ss_voice_room x = Some r -> live_token_for_session s id = Some t ->
  (forall q, q ∈ scope m -> q = r) -> tellable s t m.
Proof.
  intros I Hx Hv Hl Hm. eapply tellable_session; [done..|]. intros y q Hy Hq. rewrite (Hm q Hq). simplify_eq.
  by eapply (ca_allowed _ _ _ (inv_calls _ _ _ _ I)).
Qed.

Lemma tellable_members D L (s : server) r (ids : list Z) m :
  inv D L s -> (forall id, id ∈ ids -> id ∈ voice_member_sessions s r) -> (forall q, q ∈ scope m -> q = r) ->
  forall t, t ∈ omap (live_token_for_session s) ids -> tellable s t m.
Proof.
  intros I Hids Hm t Ht. apply list_elem_of_omap in Ht as (id & Hid & Hl).
  destruct (member_call _ _ _ _ _ I (Hids id Hid)) as (x & Hx & Hv & _). by eapply tellable_call.
Qed.

Lemma tellable_room D L (s : server) r ex m :
  inv D L s -> (forall q, q ∈ scope m -> q = r) -> forall t, t ∈ accessible_recipient_tokens s r ex -> tellable s t m.
Proof.
  intros I Hm t Ht. unfold accessible_recipient_tokens in Ht. destruct (rooms s !! r) as [room|] eqn:Hr; [|by apply not_elem_of_nil in Ht].
  apply list_elem_of_filter in Ht as [Hlive Ht]. apply list_elem_of_fmap in Ht as ([id x] & -> & Ht). cbn in *.
  apply list_elem_of_filter in Ht as [Hall Ht]. apply list_elem_of_filter in Ht as [_ Ht%elem_of_hash_iter]. cbn in *.
  apply (tellable_session D L s id); [done|by apply live_token_spec; eauto|].
  intros y q Hy Hq. rewrite (Hm q Hq). simplify_eq. exists room. auto.
Qed.

(** ** The operations of a teardown *)

(** [runs], with what is known at the end. *)
Definition runs_to (X D L : gset Z) (s : server) (m : option server) (Q : server -> Prop) : Prop :=
  exists s', m = Some s' /\ inv D L s' /\ shrinks X s s' /\ Q s'.

Lemma runs_to_runs X D L s m : runs X D L s m -> runs_to X D L s m (fun _ => True).
Proof. intros (s' & E & I & S). by exists s'. Qed.

Lemma runs_of X D L s m Q : runs_to X D L s m Q -> runs X D L s m.
Proof. intros (s' & E & I & S & _). by exists s'. Qed.

Lemma runs_to_bind X D D' L L' s m f Q R :
  runs_to X D L s m Q ->
  (forall s', inv D L s' -> shrinks X s s' -> Q s' -> runs_to X D' L' s' (f s') R) -> runs_to X D' L' s (s' ← m; f s') R.
Proof.
  intros (s1 & -> & I1 & S1 & Q1) Hf. destruct (Hf s1 I1 S1 Q1) as (s2 & E & I2 & S2 & R2).
  exists s2. cbn. eauto using shrinks_trans.
Qed.

Lemma runs_to_step X D D' L L' s s1 m Q :
  shrinks X s s1 -> inv D L s1 -> (inv D L s1 -> runs_to X D' L' s1 m Q) -> runs_to X D' L' s m Q.
Proof. intros S1 I1 Hm. destruct (Hm I1) as (s2 & E & I2 & S2 & HQ). exists s2. eauto using shrinks_trans. Qed.

Lemma runs_to_mono X D L s m (Q R : server -> Prop) :
  runs_to X D L s m Q -> (forall s', inv D L s' -> shrinks X s s' -> Q s' -> R s') -> runs_to X D L s m R.
Proof. intros (s' & E & I & S & HQ) HR. exists s'. auto. Qed.

Lemma runs_to_weaken X Y D L s m Q : X ⊆ Y -> runs_to X D L s m Q -> runs_to Y D L s m Q.
Proof. intros HXY (s' & E & I & S & HQ). exists s'. eauto using shrinks_weaken. Qed.

Lemma runs_to_id X D L s (Q : server -> Prop) : inv D L s -> Q s -> runs_to X D L s (Some s) Q.
Proof. intros. exists s. eauto using shrinks_refl. Qed.

Lemma runs_to_each {A} X D L (f : A -> server -> option server) (Q : A -> server -> Prop) l s :
  inv D L s ->
  (forall a s1 s2, shrinks X s1 s2 -> Q a s1 -> Q a s2) ->
  (forall a s', a ∈ l -> inv D L s' -> shrinks X s s' -> runs_to X D L s' (f a s') (Q a)) ->
  runs_to X D L s (each f l s) (fun s' => forall a, a ∈ l -> Q a s').
Proof.
  intros I HQ. revert s I. induction l as [|a l IH]; intros s I Hf.
  - apply runs_to_id; [done|]. intros a Ha. by apply not_elem_of_nil in Ha.
  - cbn [each]. eapply runs_to_bind; [apply Hf; [by left|done|apply shrinks_refl]|].
    intros s' I' S' Ha. eapply runs_to_mono; [apply IH; [done|]|].
    + intros b s2 Hb I2 S2. apply Hf; [by right|done|by eapply shrinks_trans].
    + intros s2 I2 S2 Hall b [->|Hb]%elem_of_cons; eauto.
Qed.

Lemma shrinks_no_stream X s s' i : shrinks X s s' -> streams s !! i = None -> streams s' !! i = None.
Proof.
  intros S Hi. destruct (streams s' !! i) as [w|] eqn:Hw; [|done].
  destruct (sh_streams _ _ _ S i w Hw) as (v & Hv & _). congruence.
Qed.

Section operations.
Context (n : nat) (disc : Z -> server -> option server) (Hdisc : disc_works n disc).
Abbreviation small s := (size (clients s) < n)%nat.
Abbreviation enc := encode_server_control.

Lemma end_share_ok D L s i :
  small s -> inv D L s -> runs_to ∅ D L s (end_share enc disc i s) (fun s' => streams s' !! i = None).
Proof.
  intros Hs I. unfold end_share. destruct (streams s !! i) as [v|] eqn:Hv; [|by apply runs_to_id].
  destruct (remove_stream_inv D L s i v I Hv) as [I1 S1].
  assert (streams (purge_video_fanouts i (set_streams (delete i (streams s)) s)) !! i = None) as Hnone
    by (cbn; apply lookup_delete_eq).
  eapply runs_to_step; [exact S1|exact I1|intros _].
  set (s1 := purge_video_fanouts i (set_streams (delete i (streams s)) s)) in *.
  assert (voice_member_sessions s1 (st_room_id v) = voice_member_sessions s (st_room_id v)) as Hmem by done.
  eapply (runs_to_mono _ _ _ _ _ (fun _ => True)); [|intros s' _ S' _; by eapply shrinks_no_stream].
  apply runs_to_runs. eapply runs_bind.
  - eapply runs_send; [done|by eapply small_shrinks|done|]. intros t Ht. case_match.
    + eapply tellable_members; [exact I1| |one_scope|exact Ht]. done.
    + apply list_elem_of_In in Ht.
      destruct (live_token_for_session s1 (st_owner_session v)) as [t'|] eqn:Hl; [|by apply list_elem_of_In, not_elem_of_nil in Ht].
      apply list_elem_of_In, list_elem_of_singleton in Ht as ->.
      destruct (vo_owner _ _ _ _ _ (inv_streams _ _ _ _ I i v Hv)) as [(x & Hx & Hr & _)|[Hn _]].
      * eapply (tellable_call D L s1 (st_room_id v) (st_owner_session v) x); [done|exact Hx|exact Hr|done|one_scope].
      * apply live_token_spec in Hl as (x & Hx & _). cbn in Hx. congruence.
  - intros s' I' S'. eapply runs_disc_all; [done|by eapply small_shrinks; [|eapply small_shrinks]|done].
Qed.

Lemma end_shares_ok D L s id :
  small s -> inv D L s ->
  runs_to ∅ D L s (end_shares_for_session enc disc id s)
    (fun s' => forall i v, streams s' !! i = Some v -> st_owner_session v <> id).
Proof.
  intros Hs I. unfold end_shares_for_session. eapply runs_to_mono.
  - apply (runs_to_each ∅ D L _ (fun i s' => streams s' !! i = None)); [done|eauto using shrinks_no_stream|].
    intros i s' _ I' S'. apply end_share_ok; [by eapply small_shrinks|done].
  - cbn. intros s' I' S' Hall i w Hw Ho.
    destruct (sh_streams _ _ _ S' i w Hw) as (v & Hv & HN). rewrite Hall in Hw; [done|].
    apply list_elem_of_fmap. exists (i, v). split; [done|]. apply list_elem_of_filter. cbn.
    split; [by destruct (narrowed_fields _ _ HN) as (<- & _)|by apply elem_of_hash_iter].
Qed.

Lemma revoke_ok D L s id :
  small s -> inv D L s -> runs_to ∅ D ({[id]} ∪ L) s (revoke_share_access_for_session disc id s)
    (fun s' => no_viewer s' id /\ forall i v, streams s' !! i = Some v -> st_view_secrets v !! id = None).
Proof.
  intros Hs I. unfold revoke_share_access_for_session. destruct (revoke_inv D L s id I) as [I1 S1].
  eapply runs_to_step; [exact S1|exact I1|intros _]. eapply runs_to_mono.
  - apply (runs_to_each ∅ D ({[id]} ∪ L) _ (fun t s' => clients s' !! t = None)); [done| |].
    + intros t s1 s2 S12 Ht. by eapply lookup_weaken_None; [|apply S12].
    + intros t s' _ I' S'. destruct (Hdisc t D ({[id]} ∪ L) s') as (s2 & E & I2 & S2 & Ht); [|done|by exists s2].
      by eapply small_shrinks; [|eapply small_shrinks].
  - cbn. intros s' I' S' Hall. split.
    + intros t c Hc Hsub. rewrite Hall in Hc; [done|]. apply list_elem_of_fmap. exists (t, c). split; [done|].
      apply list_elem_of_filter. split; [done|]. apply elem_of_hash_iter. exact (shrinks_client _ _ _ _ _ S' Hc).
    + intros i w Hw. destruct (sh_streams _ _ _ S' i w Hw) as (v & Hv & k & b & p & -> & Hk & _). cbn in *.
      rewrite lookup_fmap in Hv. apply fmap_Some in Hv as (u & Hu & ->). cbn in *.
      eapply lookup_weaken_None; [|exact Hk]. apply lookup_delete_eq.
Qed.

Lemma broadcast_ok D L s r m ex :
  small s -> inv D L s -> (forall q, q ∈ scope m -> q = r) -> runs ∅ D L s (broadcast_control_except enc disc r m ex s).
Proof. intros Hs I Hm. eapply runs_send; [done..|]. by eapply tellable_room. Qed.

Lemma stop_voice_ok D L s id requested ex :
  small s -> inv D L s -> id ∈ L ->
  runs_to {[id]} D L s (stop_voice enc disc id requested ex s)
    (fun s' => requested = None -> forall x, sessions s' !! id = Some x -> ss_active_stream x = None).
Proof.
  intros Hs I HL. unfold stop_voice. destruct (sessions s !! id) as [x|] eqn:Hx.
  2: { apply runs_to_id; [done|]. intros _ x. by rewrite Hx. }
  destruct (ss_active_stream x) as [i|] eqn:Ha.
  2: { apply runs_to_id; [done|]. intros _ y. rewrite Hx. by intros [= <-]. }
  case_match eqn:Hreq; [apply runs_to_id; [done|]; by intros -> |].
  destruct (ca_listed _ _ _ (inv_calls _ _ _ _ I) id x i Hx Ha) as (r & room & Hr & _). rewrite Hr.
  destruct (stop_voice_inv D L s id x i r I HL Hx Ha Hr) as [I1 S1].
  eapply runs_to_step; [exact S1|exact I1|intros _].
  eapply (runs_to_weaken ∅); [set_solver|]. eapply (runs_to_mono _ _ _ _ _ (fun _ => True)).
  - apply runs_to_runs, broadcast_ok; [by eapply small_shrinks|done|one_scope].
  - intros s' I' S' _ _ y Hy. destruct (sh_sessions _ _ _ S' id y Hy) as (z & Hz & [->|[? _]]); [|set_solver].
    cbn in Hz. rewrite lookup_insert_eq in Hz. by simplify_eq.
Qed.

Lemma p2p_gone_ok D L s id r : small s -> inv D L s -> runs ∅ D L s (broadcast_p2p_gone enc disc id r s).
Proof.
  intros Hs I. unfold broadcast_p2p_gone. case_match; [by apply runs_id|]. case_match; [|by apply runs_id].
  eapply runs_send; [done..|]. intros t _. by apply tellable_unscoped.
Qed.

(** [leave_voice] as it is once the session is known. *)
Lemma update_session_known (s : server) id x f :
  sessions s !! id = Some x -> update_session id f s = set_sessions (<[id := f x]> (sessions s)) s.
Proof. intros Hx. unfold update_session. by rewrite (alter_some _ _ _ _ Hx). Qed.

Lemma update_session_unknown (s : server) id f : sessions s !! id = None -> update_session id f s = s.
Proof. intros Hx. unfold update_session. rewrite (alter_none _ _ _ Hx). by destruct s. Qed.

Lemma remove_links_comm id (s : server) ss : remove_peer_links id (set_sessions ss s) = set_sessions ss (remove_peer_links id s).
Proof. by destruct s. Qed.

(** The end of a leave: the session is out of the call and unlinked. *)
Lemma leave_end_ok D L s id :
  inv D ({[id]} ∪ L) s -> no_viewer s id -> no_share s id ->
  (forall x, sessions s !! id = Some x -> ss_active_stream x = None) ->
  let s' := remove_peer_links id (update_session id leave_call s) in
  inv D L s' /\ shrinks {[id]} s s' /\ no_call s' id /\ no_link s' id.
Proof.
  intros I Hv Hsh Ha. cbv zeta. destruct (remove_links_inv D _ s id I) as [I1 S1].
  destruct (sessions s !! id) as [x|] eqn:Hx.
  - rewrite (update_session_known s id x) by done. rewrite remove_links_comm.
    destruct (leave_call_inv D ({[id]} ∪ L) (remove_peer_links id s) id x) as [I2 S2]; [done|done|by apply Ha|done|apply no_link_removed|].
    assert (no_call (set_sessions (<[id:=leave_call x]> (sessions s)) (remove_peer_links id s)) id) as Hc.
    { intros y. cbn. rewrite lookup_insert_eq. intros [= <-]. cbn. auto. }
    split_and!; [|eapply shrinks_trans; [|exact S2]; eapply shrinks_weaken; [|exact S1]; set_solver|done|].
    + eapply settle_inv; [exact I2|done..|]. intros a b l Hl. by eapply (no_link_removed id s).
    + intros a b l Hl. by eapply (no_link_removed id s).
  - rewrite update_session_unknown by done.
    assert (no_call (remove_peer_links id s) id) as Hc by (intros x; cbn; by rewrite Hx).
    split_and!; [|eapply shrinks_weaken; [|exact S1]; set_solver|done|apply no_link_removed].
    eapply settle_inv; [exact I1|done..|apply no_link_removed].
Qed.

Lemma leave_voice_ok D L s id ex :
  small s -> inv D L s ->
  runs_to {[id]} D L s (leave_voice enc disc id ex s)
    (fun s' => no_call s' id /\ (forall i v, streams s' !! i = Some v -> st_view_secrets v !! id = None) /\
               (is_Some (sessions s !! id ≫= ss_voice_room) -> no_share s' id /\ no_link s' id)).
Proof.
  intros Hs I. unfold leave_voice. destruct (sessions s !! id ≫= ss_voice_room) as [r|] eqn:Hr.
  - eapply runs_to_bind; [eapply (runs_to_weaken ∅), end_shares_ok; [set_solver|done..]|]. intros s1 I1 S1 Ho.
    assert (small s1) as Hs1 by by eapply small_shrinks.
    eapply runs_to_bind; [eapply (runs_to_weaken ∅), revoke_ok; [set_solver|done..]|]. intros s2 I2 S2 [Hv Hk].
    assert (small s2) as Hs2 by by eapply small_shrinks.
    eapply runs_to_bind; [eapply stop_voice_ok; [done..|set_solver]|]. intros s3 I3 S3 Ha.
    assert (small s3) as Hs3 by by eapply small_shrinks.
    eapply runs_to_bind.
    { eapply (runs_to_mono _ _ _ _ _ (fun s4 => forall x, sessions s4 !! id = Some x -> sessions s3 !! id = Some x)).
      - eapply (runs_to_weaken ∅); [set_solver|]. eapply (runs_to_mono _ _ _ _ _ (fun _ => True)).
        + apply runs_to_runs, p2p_gone_ok; done.
        + intros s4 _ S4 _ x Hx. destruct (sh_sessions _ _ _ S4 id x Hx) as (y & Hy & [->|[? _]]); [done|set_solver].
      - intros s4 _ _ H4. exact H4. }
    intros s4 I4 S4 Hsame.
    assert (no_share s2 id) as Hn2.
    { intros i v Hi. split; [|by eapply Hk]. destruct (sh_streams _ _ _ S2 i v Hi) as (u & Hu & HN).
      destruct (narrowed_fields _ _ HN) as (-> & _). by eapply Ho. }
    assert (no_share s4 id) as Hn by (eapply no_share_shrinks; [exact S4|]; by eapply no_share_shrinks).
    destruct (leave_end_ok D L s4 id) as (I5 & S5 & Hc & Hl); [done| |done| |].
    + eapply no_viewer_shrinks; [exact S4|]. by eapply no_viewer_shrinks.
    + intros x Hx. by apply Ha, Hsame.
    + exists (remove_peer_links id (update_session id leave_call s4)).
      assert (no_share (remove_peer_links id (update_session id leave_call s4)) id) as Hn5 by by eapply no_share_shrinks.
      split; [reflexivity|]. split; [done|]. split; [done|]. split; [done|]. split; [|done]. intros i v Hi. by apply (Hn5 i v Hi).
  - apply runs_to_id; [done|]. split_and!.
    + intros x Hx. rewrite Hx in Hr. cbn in Hr. split; [done|].
      destruct (ss_active_stream x) as [i|] eqn:Ha; [|done].
      destruct (ca_listed _ _ _ (inv_calls _ _ _ _ I) id x i Hx Ha) as (r & _ & Hv & _). congruence.
    + intros i v Hi. destruct (st_view_secrets v !! id) as [k|] eqn:Hk; [|done].
      destruct (vo_secrets _ _ _ _ _ (inv_streams _ _ _ _ I i v Hi) id k Hk) as (x & Hx & Hv).
      rewrite Hx in Hr. cbn in Hr. congruence.
    + intros [r ?]. done.
Qed.

Lemma send_canceled_ok D L s u reason : small s -> inv D L s -> runs ∅ D L s (send_file_canceled enc disc u reason s).
Proof.
  intros Hs I. apply runs_each; [done|]. intros id s' _ I' S'. case_match; [|by apply runs_id].
  eapply runs_tell; [done|by eapply small_shrinks|done|by apply tellable_unscoped].
Qed.

Lemma cancel_upload_ok D L s id tid reason :
  small s -> inv D L s ->
  runs_to ∅ D L s (cancel_file_upload enc disc id tid reason s) (fun s' => active_uploads s' !! (id, tid) = None).
Proof.
  intros Hs I. unfold cancel_file_upload. destruct (active_uploads s !! (id, tid)) as [u|] eqn:Hu; [|by apply runs_to_id].
  destruct (remove_upload_inv D L s (id, tid) u I Hu) as [I1 S1].
  eapply runs_to_step; [exact S1|exact I1|intros _]. eapply (runs_to_mono _ _ _ _ _ (fun _ => True)).
  - apply runs_to_runs, send_canceled_ok; [by eapply small_shrinks|done].
  - intros s' _ S' _. eapply lookup_weaken_None; [|apply S']. apply lookup_delete_eq.
Qed.

Lemma cancel_uploads_ok D L s id reason :
  small s -> inv D L s -> runs_to ∅ D L s (cancel_uploads_for_session enc disc id reason s) (fun s' => no_upload s' id).
Proof.
  intros Hs I. unfold cancel_uploads_for_session. eapply runs_to_mono.
  - apply (runs_to_each ∅ D L _ (fun tid s' => active_uploads s' !! (id, tid) = None)); [done| |].
    + intros tid s1 s2 S12 Ht. by eapply lookup_weaken_None; [|apply S12].
    + intros tid s' _ I' S'. apply cancel_upload_ok; [by eapply small_shrinks|done].
  - cbn. intros s' I' S' Hall [j tid] u Hu Hj. cbn in Hj. subst j. rewrite Hall in Hu; [done|].
    apply list_elem_of_fmap. exists (id, tid). split; [done|]. apply list_elem_of_filter. split; [done|].
    apply elem_of_hash_keys. exists u. eapply lookup_weaken; [exact Hu|apply S'].
Qed.

Lemma presence_ok D L s id online : small s -> inv D L s -> runs ∅ D L s (broadcast_presence enc disc id online s).
Proof.
  intros Hs I. unfold broadcast_presence. case_match; [|by apply runs_id].
  eapply runs_send; [done..|]. intros t _. by apply tellable_unscoped.
Qed.

Lemma no_call_same s s' id : shrinks ∅ s s' -> no_call s id -> no_call s' id.
Proof.
  intros S Hn y Hy. destruct (sh_sessions _ _ _ S id y Hy) as (x & Hx & [->|[? _]]); [|set_solver]. by apply Hn.
Qed.

(** Nothing is left of a session that was torn down. *)
Definition gone (s : server) (id : Z) : Prop :=
  sessions s !! id = None /\ no_upload s id /\ no_share s id /\ no_link s id.

Lemma teardown_ok D L s id reason :
  small s -> inv ({[id]} ∪ D) L s ->
  exists s', teardown_session enc disc id reason s = Some s' /\ inv D L s' /\ shrinks {[id]} s s' /\ gone s' id.
Proof.
  intros Hs I. unfold teardown_session.
  apply (runs_to_bind {[id]} ({[id]} ∪ D) D L L s _ _ (fun s' => no_upload s' id) (fun s' => gone s' id)).
  { eapply (runs_to_weaken ∅), cancel_uploads_ok; [set_solver|done..]. }
  intros s1 I1 S1 Hu.
  destruct (bug_reports_inv _ _ s1 (filter (fun p => p.1.1 <> id) (active_bug_reports s1)) I1) as [I2 S2].
  eapply runs_to_step; [eapply shrinks_weaken; [|exact S2]; set_solver|exact I2|intros _].
  set (s2 := set_active_bug_reports _ s1) in *.
  assert (small s2) as Hs2 by (eapply small_shrinks; [exact S2|by eapply small_shrinks]).
  eapply runs_to_bind; [eapply (runs_to_weaken ∅), end_shares_ok; [set_solver|done..]|]. intros s3 I3 S3 Ho.
  assert (small s3) as Hs3 by by eapply small_shrinks.
  eapply runs_to_bind; [eapply leave_voice_ok; done|]. intros s4 I4 S4 (Hc & Hk & _).
  assert (small s4) as Hs4 by by eapply small_shrinks.
  assert (no_share s4 id) as Hn4.
  { intros i w Hi. split; [|by eapply Hk]. destruct (sh_streams _ _ _ S4 i w Hi) as (v & Hv & HN).
    destruct (narrowed_fields _ _ HN) as (-> & _). by eapply Ho. }
  assert (no_upload s4 id) as Hu4.
  { eapply no_upload_shrinks; [exact S4|]. eapply no_upload_shrinks; [exact S3|]. by eapply no_upload_shrinks. }
  eapply (runs_to_bind _ _ _ _ _ _ _ _ (fun s5 => no_call s5 id)).
  { eapply (runs_to_weaken ∅); [set_solver|]. eapply (runs_to_mono _ _ _ _ _ (fun _ => True)).
    - apply runs_to_runs. case_match; [by apply presence_ok|by apply runs_id].
    - intros s5 _ S5 _. by eapply no_call_same. }
  intros s5 I5 S5 Hc5.
  assert (no_share s5 id) as Hn5 by by eapply no_share_shrinks.
  assert (no_upload s5 id) as Hu5 by by eapply no_upload_shrinks.
  set (s6 := match sessions s5 !! id with None => s5 | Some x => removed id x s5 end).
  assert (inv D L (submit_voice (RemoveSession id) s6) /\ shrinks ∅ s5 (submit_voice (RemoveSession id) s6) /\
          sessions (submit_voice (RemoveSession id) s6) !! id = None) as (I6 & S6 & Hx6).
  { subst s6. destruct (sessions s5 !! id) as [x|] eqn:Hx.
    - destruct (remove_session_inv D L s5 id x) as [I6 S6]; [done..|]. split_and!; [done..|]. cbn. apply lookup_delete_eq.
    - destruct (dead_session_inv D L s5 id) as [I6 S6]; [done..|]. by split_and!. }
  destruct (remove_links_inv D L _ id I6) as [I7 S7].
  exists (remove_peer_links id (submit_voice (RemoveSession id) s6)). split; [done|]. split; [done|].
  assert (shrinks ∅ s5 (remove_peer_links id (submit_voice (RemoveSession id) s6))) as S57 by by eapply shrinks_trans.
  split; [eapply shrinks_weaken; [|exact S57]; set_solver|].
  split_and!; [done|by eapply no_upload_shrinks|by eapply no_share_shrinks|apply no_link_removed].
Qed.

(** One level of the recursion. *)
Lemma disconnect_body_ok : disc_works (S n) (disconnect_body enc now disc).
Proof.
  intros t D L s Hs I. unfold disconnect_body.
  assert (clients (forget_token t s) = clients s) as -> by by rewrite forget_eq.
  destruct (clients s !! t) as [c|] eqn:Hc.
  - destruct (drop_inv D L s t c I Hc) as (I1 & S1 & Hcl & Hss).
    assert (small (drop_client now t c (forget_token t s))) as Hs1.
    { rewrite Hcl, map_size_delete, Hc. destruct (size (clients s)) eqn:E; [|lia].
      apply map_size_empty_inv in E. by rewrite E in Hc. }
    assert (clients (drop_client now t c (forget_token t s)) !! t = None) as Hnone by (rewrite Hcl; apply lookup_delete_eq).
    unfold dying in I1. destruct (cc_session_id c) as [id|] eqn:Hid.
    + rewrite (union_comm_L D) in I1.
      destruct (teardown_ok D L _ id (ascii_bytes "sender disconnected") Hs1 I1) as (s' & E & I' & S' & Hgone).
      exists s'. split_and!; [done|done| |by eapply lookup_weaken_None; [|apply S']].
      eapply shrinks_trans; [exact S1|]. destruct S'. split; try done.
      intros j y Hy. destruct (sh_sessions0 j y Hy) as (x & Hx & [->|[Hj _]]); [eauto|].
      apply elem_of_singleton in Hj as ->. destruct Hgone as [Hgone _]. congruence.
    + rewrite (right_id_L ∅ (∪) D) in I1. eauto 10.
  - exists (forget_token t s). split; [done|].
    assert (pending_controls s !! t = None) as Hp.
    { destruct (pending_controls s !! t) as [q|] eqn:Hq; [|done].
      destruct (ob_queued _ _ _ _ _ _ _ _ (inv_outbound _ _ _ _ I) t q Hq) as (_ & c & _ & Hc' & _). congruence. }
    assert (pending_control_bytes s !! t = None) as Hb.
    { destruct (pending_control_bytes s !! t) as [k|] eqn:Hk; [|done].
      destruct (ob_charged _ _ _ _ _ _ _ _ (inv_outbound _ _ _ _ I) t k Hk). congruence. }
    assert (t ∉ control_send_set s) as Hset.
    { intros Ht. apply (ob_set _ _ _ _ _ _ _ _ (inv_outbound _ _ _ _ I)) in Ht as [? ?]. congruence. }
    rewrite forget_eq. cbv zeta. rewrite Hb, !delete_id by done.
    rewrite difference_disjoint_L by set_solver.
    split_and!; [split; cbn; keep I|shrunk|done].
Qed.

End operations.

(** ** The knot *)

Lemma disconnect_fuel_ok n : disc_works n (disconnect_fuel encode_server_control now n).
Proof.
  induction n as [|n IH]; [intros t D L s Hs; lia|]. cbn [disconnect_fuel]. by apply disconnect_body_ok.
Qed.

Lemma disconnect_ok n : disc_works n (disconnect encode_server_control now).
Proof. intros t D L s _ I. unfold disconnect. apply disconnect_fuel_ok; [lia|done]. Qed.

(** *** More fuel changes nothing *)

Section monotone.
Context (d1 d2 : Z -> server -> option server).
Context (Hd : forall t s s', d1 t s = Some s' -> d2 t s = Some s').
Abbreviation enc := encode_server_control.

Lemma each_mono {A} (f1 f2 : A -> server -> option server) l s s' :
  (forall a s s', f1 a s = Some s' -> f2 a s = Some s') -> each f1 l s = Some s' -> each f2 l s = Some s'.
Proof.
  intros Hf. revert s. induction l as [|a l IH]; intros s; [done|]. cbn [each].
  intros (s1 & E1 & E2)%bind_Some. rewrite (Hf _ _ _ E1). cbn. by apply IH.
Qed.

Lemma queue_mono t m s r : queue_shared_control_payload enc d1 t m s = Some r -> queue_shared_control_payload enc d2 t m s = Some r.
Proof.
  unfold queue_shared_control_payload. repeat (case_decide || case_match); try done;
    intros (s1 & E1 & E2)%bind_Some; rewrite (Hd _ _ _ E1); done.
Qed.

Lemma tell_mono t m s s' : ignoring (queue_shared_control_payload enc d1 t m s) = Some s' ->
  ignoring (queue_shared_control_payload enc d2 t m s) = Some s'.
Proof. unfold ignoring. intros ([s1 r] & E1 & E2)%bind_Some. by rewrite (queue_mono _ _ _ _ E1). Qed.

Lemma send_mono ts m s s' : send_control_to_tokens enc d1 ts m s = Some s' -> send_control_to_tokens enc d2 ts m s = Some s'.
Proof. apply each_mono. intros. by apply tell_mono. Qed.

Lemma end_share_mono i s s' : end_share enc d1 i s = Some s' -> end_share enc d2 i s = Some s'.
Proof.
  unfold end_share. case_match; [|done]. intros (s1 & E1 & E2)%bind_Some. rewrite (send_mono _ _ _ _ E1). cbn.
  by eapply each_mono.
Qed.

Lemma end_shares_mono id s s' : end_shares_for_session enc d1 id s = Some s' -> end_shares_for_session enc d2 id s = Some s'.
Proof. apply each_mono, end_share_mono. Qed.

Lemma stop_voice_mono id q ex s s' : stop_voice enc d1 id q ex s = Some s' -> stop_voice enc d2 id q ex s = Some s'.
Proof. unfold stop_voice. repeat case_match; try done; apply send_mono. Qed.

Lemma p2p_gone_mono id r s s' : broadcast_p2p_gone enc d1 id r s = Some s' -> broadcast_p2p_gone enc d2 id r s = Some s'.
Proof. unfold broadcast_p2p_gone. repeat case_match; try done; apply send_mono. Qed.

Lemma leave_voice_mono id ex s s' : leave_voice enc d1 id ex s = Some s' -> leave_voice enc d2 id ex s = Some s'.
Proof.
  unfold leave_voice. case_match; [|done]. intros (s1 & E1 & (s2 & E2 & (s3 & E3 & (s4 & E4 & E)%bind_Some)%bind_Some)%bind_Some)%bind_Some.
  rewrite (end_shares_mono _ _ _ E1). cbn [mbind option_bind].
  unfold revoke_share_access_for_session in *. rewrite (each_mono _ _ _ _ _ Hd E2). cbn [mbind option_bind].
  rewrite (stop_voice_mono _ _ _ _ _ E3). cbn [mbind option_bind]. by rewrite (p2p_gone_mono _ _ _ _ E4).
Qed.

Lemma cancel_upload_mono id tid reason s s' :
  cancel_file_upload enc d1 id tid reason s = Some s' -> cancel_file_upload enc d2 id tid reason s = Some s'.
Proof.
  unfold cancel_file_upload, send_file_canceled. case_match; [|done]. apply each_mono. intros a s1 s2. case_match; [|done].
  apply tell_mono.
Qed.

Lemma presence_mono id online s s' :
  broadcast_presence enc d1 id online s = Some s' -> broadcast_presence enc d2 id online s = Some s'.
Proof. unfold broadcast_presence. case_match; [|done]. apply send_mono. Qed.

Lemma teardown_mono id reason s s' : teardown_session enc d1 id reason s = Some s' -> teardown_session enc d2 id reason s = Some s'.
Proof.
  unfold teardown_session, cancel_uploads_for_session.
  intros (s1 & E1 & (s2 & E2 & (s3 & E3 & (s4 & E4 & E)%bind_Some)%bind_Some)%bind_Some)%bind_Some.
  rewrite (each_mono _ (fun tid => cancel_file_upload enc d2 id tid reason) _ _ _ (fun a => cancel_upload_mono id a reason) E1).
  cbn [mbind option_bind]. rewrite (end_shares_mono _ _ _ E2). cbn [mbind option_bind].
  rewrite (leave_voice_mono _ _ _ _ E3). cbn [mbind option_bind].
  destruct (announce_offline s3 id); [|by rewrite E4]. by rewrite (presence_mono _ _ _ _ E4).
Qed.

Lemma disconnect_body_mono t s s' : disconnect_body enc now d1 t s = Some s' -> disconnect_body enc now d2 t s = Some s'.
Proof.
  unfold disconnect_body. destruct (clients (forget_token t s) !! t) as [c|]; [|done].
  destruct (cc_session_id c); [apply teardown_mono|done].
Qed.

End monotone.

Lemma disconnect_fuel_mono n m t (s s' : server) :
  (n <= m)%nat -> disconnect_fuel encode_server_control now n t s = Some s' -> disconnect_fuel encode_server_control now m t s = Some s'.
Proof.
  revert m t s s'. induction n as [|n IH]; intros m t s s' Hm; [done|]. destruct m as [|m]; [lia|]. cbn [disconnect_fuel].
  apply disconnect_body_mono. intros. apply IH; [lia|done].
Qed.

(** Fuel above the number of connections is enough: more gives the same. *)
Lemma disconnect_fuel_enough D L (s : server) t n : inv D L s -> (size (clients s) < n)%nat ->
  disconnect_fuel encode_server_control now n t s = disconnect encode_server_control now t s.
Proof.
  intros I Hn. destruct (disconnect_ok n t D L s Hn I) as (s' & E & _). rewrite E. unfold disconnect in E.
  eapply disconnect_fuel_mono; [|exact E]. lia.
Qed.

End teardown.
