(* ===== verification/ServerNames.v ===== *)
(** * Names of files

    The name a file is offered under is safe to use as a file name and is no other
    active upload's ([sanitize_file_name], [reserve_unique_file_name] of
    src/crates/server/src/lib.rs). *)

From stdpp Require Import pretty.
From S2P Require Import Prelude Text Usernames ServerOps.

(** ** Trimming *)

Section trim.
Context (p : Z -> bool).

Lemma skip_while_suffix l : exists k, l = k ++ skip_while p l.
Proof.
  induction l as [|c l [k IH]]; [by exists []|]. cbn. destruct (p c); [|by exists []]. exists (c :: k). cbn. by rewrite <- IH.
Qed.

Lemma skip_while_head l c : head (skip_while p l) = Some c -> p c = false.
Proof.
  induction l as [|d l IH]; [done|]. cbn [skip_while]. destruct (p d) eqn:Hd; [done|]. cbn. by intros [= <-].
Qed.

Lemma skip_while_all (P : Z -> Prop) l : Forall P l -> Forall P (skip_while p l).
Proof. intros Hl. destruct (skip_while_suffix l) as [k Hk]. rewrite Hk in Hl. by apply Forall_app in Hl as [_ ?]. Qed.

Lemma skip_while_last l : skip_while p l <> [] -> last (skip_while p l) = last l.
Proof.
  intros Hn. destruct (skip_while_suffix l) as [k Hk]. rewrite Hk at 2. rewrite last_app. by destruct (skip_while p l) eqn:E; [|rewrite last_cons; destruct (last l0)].
Qed.

Lemma skip_while_length l : (length (skip_while p l) <= length l)%nat.
Proof. destruct (skip_while_suffix l) as [k Hk]. rewrite Hk at 2. rewrite length_app. lia. Qed.

Lemma trim_all (P : Z -> Prop) l : Forall P l -> Forall P (trim_matches p l).
Proof. intros. apply Forall_reverse, skip_while_all, Forall_reverse, skip_while_all. done. Qed.

Lemma trim_length l : (length (trim_matches p l) <= length l)%nat.
Proof.
  unfold trim_matches. rewrite length_reverse. etrans; [apply skip_while_length|]. rewrite length_reverse. apply skip_while_length.
Qed.

Lemma trim_last l c : last (trim_matches p l) = Some c -> p c = false.
Proof. unfold trim_matches. rewrite last_reverse. apply skip_while_head. Qed.

Lemma trim_head l c : head (trim_matches p l) = Some c -> p c = false.
Proof.
  unfold trim_matches. rewrite head_reverse. intros Hl. apply (skip_while_head l).
  rewrite skip_while_last, last_reverse in Hl; [done|]. intros Hn. by rewrite Hn in Hl.
Qed.

End trim.

(** ** A name that is safe *)

Definition safe_char (c : Z) : Prop :=
  48 <= c <= 57 \/ 65 <= c <= 90 \/ 97 <= c <= 122 \/ c = 46 \/ c = 45 \/ c = 95 \/ c = 32.

(** Letters, digits and a few marks, with no dot or space at either end: not
    empty, no separator, not hidden, not a reference to a directory. *)
Record safe_name (n : bytes) : Prop := {
  sn_chars : Forall (fun b => safe_char (u8 b)) n;
  sn_head : exists b, head n = Some b /\ u8 b <> 46 /\ u8 b <> 32;
  sn_last : exists b, last n = Some b /\ u8 b <> 46 /\ u8 b <> 32;
}.

Lemma file_char_safe c : safe_char (file_name_char c).
Proof. unfold file_name_char, safe_char. case_decide; lia. Qed.

Lemma safe_byte c : safe_char c -> u8 (of_u8 c) = c.
Proof. intros Hc. rewrite u8_of_u8. apply Z.mod_small. unfold safe_char in Hc. lia. Qed.

Lemma sanitize_safe name : safe_name (sanitize_file_name name).
Proof.
  unfold sanitize_file_name. set (p := fun c : Z => bool_decide (c = 32 \/ c = 46)).
  match goal with |- context [trim_matches p ?l] => set (out := trim_matches p l); assert (Forall safe_char l) as Hall end.
  { apply Forall_fmap, Forall_true. intros c. apply file_char_safe. }
  assert (Forall safe_char out) as Hs by by apply trim_all.
  assert (forall c, p c = false -> c <> 46 /\ c <> 32) as Hp by (unfold p; intros c ?%bool_decide_eq_false; lia).
  destruct out as [|c0 l0] eqn:Hout.
  { split; [repeat constructor; vm_compute; intuition congruence|eexists; split; [reflexivity|]; vm_compute; intuition congruence..]. }
  rewrite <- Hout in *. assert (forall c, c ∈ out -> p c = false -> u8 (of_u8 c) <> 46 /\ u8 (of_u8 c) <> 32) as Hb.
  { intros c Hc Hpc. rewrite Forall_forall in Hs. rewrite safe_byte by by apply Hs. by apply Hp. }
  split.
  - apply Forall_fmap. eapply Forall_impl; [exact Hs|]. intros c Hc. cbn. by rewrite safe_byte.
  - exists (of_u8 c0). assert (head out = Some c0) as Hh by by rewrite Hout. split; [by rewrite Hout|].
    apply Hb; [rewrite Hout; left|]. eapply trim_head. exact Hh.
  - destruct (last out) as [c|] eqn:Hl; [|rewrite Hout in Hl; by apply last_None in Hl].
    exists (of_u8 c). split; [by rewrite fmap_last, Hl|]. apply Hb; [by apply last_Some_elem_of|]. eapply trim_last. exact Hl.
Qed.

(** ** Numbered names *)

Lemma rfind_spec c name n i : rfind c name n = Some i -> (i < n)%nat /\ name !! i = Some c.
Proof.
  induction n as [|n IH]; [done|]. cbn. case_decide; [by intros [= <-]; split; [lia|]|]. intros Hi%IH. split; [lia|apply Hi].
Qed.

(** The extension is empty or starts with the dot and goes to the end of the name. *)
Lemma split_extension_spec name stem ext : split_extension name = (stem, ext) ->
  name = stem ++ ext /\ (name <> [] -> stem <> []).
Proof.
  unfold split_extension. destruct (rfind _ _ _) as [i|]; [case_decide as Hi|]; intros [= <- <-].
  - rewrite take_drop. split; [done|]. intros _ Hn. apply (f_equal length) in Hn. rewrite length_take in Hn. cbn in Hn. lia.
  - by rewrite app_nil_r.
  - by rewrite app_nil_r.
Qed.

Lemma ascii_bytes_inj a b : ascii_bytes a = ascii_bytes b -> a = b.
Proof.
  unfold ascii_bytes. intros Hab. rewrite <- (String.string_of_list_byte_of_string a), Hab. apply String.string_of_list_byte_of_string.
Qed.

Lemma numbered_inj stem ext i j : numbered stem ext i = numbered stem ext j -> i = j.
Proof.
  unfold numbered. intros Heq%app_inv_head%app_inv_head%app_inv_tail. apply ascii_bytes_inj in Heq. by apply (inj pretty) in Heq.
Qed.

Lemma pretty_go_spec (P : byte -> Prop) :
  (forall n : N, (n < 10)%N -> P (Ascii.byte_of_ascii (pretty_N_char n))) ->
  forall (k : nat) (n : N) (s : string), (n < 10 ^ N.of_nat k)%N -> Forall P (ascii_bytes s) ->
  Forall P (ascii_bytes (pretty_N_go n s)) /\
  (length (ascii_bytes (pretty_N_go n s)) <= length (ascii_bytes s) + k)%nat.
Proof.
  intros HP k. induction k as [|k IH]; intros n s Hn Hs.
  - assert (n = 0)%N as -> by (cbn in Hn; lia). rewrite pretty_N_go_0. split; [done|lia].
  - destruct (decide (n = 0)%N) as [->|Hz]; [rewrite pretty_N_go_0; split; [done|lia]|]. rewrite pretty_N_go_step by lia.
    destruct (IH (n `div` 10)%N (String (pretty_N_char (n `mod` 10)) s)) as [IH1 IH2].
    + apply N.Div0.div_lt_upper_bound. by rewrite Nat2N.inj_succ, N.pow_succ_r' in Hn.
    + constructor; [|done]. apply HP. apply N.mod_lt. lia.
    + split; [done|]. etrans; [exact IH2|].
      change (length (ascii_bytes (String (pretty_N_char (n `mod` 10)) s))) with (S (length (ascii_bytes s))). lia.
Qed.

Lemma digit_byte (n : N) : (n < 10)%N -> 48 <= u8 (Ascii.byte_of_ascii (pretty_N_char n)) <= 57.
Proof.
  intros Hn. assert (N.to_nat n < 10)%nat as Hk by lia. rewrite <- (N2Nat.id n). revert Hk. generalize (N.to_nat n) as k. clear.
  intros k Hk. do 10 (destruct k as [|k]; [vm_compute; split; discriminate|]). lia.
Qed.

(** Decimal digits, as many as the number has. *)
Lemma pretty_digits (k : nat) (n : N) : (n < 10 ^ N.of_nat k)%N ->
  Forall (fun b => 48 <= u8 b <= 57) (ascii_bytes (pretty n)) /\ (length (ascii_bytes (pretty n)) <= Nat.max 1 k)%nat.
Proof.
  intros Hn. unfold pretty, pretty_N. case_decide; [split; [repeat constructor; vm_compute; discriminate|cbn; lia]|].
  destruct (pretty_go_spec (fun b => 48 <= u8 b <= 57) digit_byte k n EmptyString Hn) as [A B]; [constructor|].
  split; [done|]. change (length (ascii_bytes "")) with 0%nat in B. lia.
Qed.

Lemma pretty_small (n : N) :
  Forall (fun b => 48 <= u8 b <= 57) (ascii_bytes (pretty n)) /\ (length (ascii_bytes (pretty n)) <= S (N.to_nat n))%nat.
Proof.
  destruct (pretty_digits (N.to_nat n) n) as [A B]; [rewrite N2Nat.id; apply N.pow_gt_lin_r; lia|]. split; [done|]. lia.
Qed.

Lemma pretty_nonempty (n : N) : ascii_bytes (pretty n) <> [].
Proof.
  intros Hn. assert (pretty n = EmptyString) as Hp by by apply ascii_bytes_inj.
  unfold pretty, pretty_N in Hp. case_decide as Hz; [done|].
  assert (forall m s, (0 < String.length s)%nat -> (0 < String.length (pretty_N_go m s))%nat) as Hgo.
  { intros m. induction m as [m IH] using (well_founded_induction N.lt_wf_0). intros s Hs.
    destruct (decide (m = 0)%N) as [->|Hm]; [by rewrite pretty_N_go_0|]. rewrite pretty_N_go_step by lia.
    apply IH; [apply N.div_lt; lia|cbn; lia]. }
  rewrite pretty_N_go_step in Hp by lia. specialize (Hgo (n `div` 10)%N (String (pretty_N_char (n `mod` 10)) "") ltac:(cbn; lia)).
  rewrite Hp in Hgo. cbn in Hgo. lia.
Qed.

Lemma numbered_safe stem ext i : safe_name (stem ++ ext) -> stem <> [] -> safe_name (numbered stem ext i).
Proof.
  intros [Hc Hh Hl] Hn. unfold numbered. destruct (pretty_small i) as [Hd _].
  assert (Forall (fun b => safe_char (u8 b)) (ascii_bytes (pretty i))) as Hds.
  { eapply Forall_impl; [exact Hd|]. intros b Hb. unfold safe_char. cbn in Hb. lia. }
  apply Forall_app in Hc as [Hcs Hce]. split.
  - repeat apply Forall_app_2; try done. constructor; [|constructor]. unfold safe_char. change (u8 _) with 45. lia.
  - destruct stem; [done|]. exact Hh.
  - destruct ext as [|e ext].
    + rewrite app_nil_r, !last_app. destruct (last (ascii_bytes (pretty i))) as [d|] eqn:Hld.
      * exists d. split; [done|]. apply last_Some_elem_of in Hld. rewrite Forall_forall in Hd. specialize (Hd d Hld). cbn in Hd. lia.
      * apply last_None in Hld. by apply pretty_nonempty in Hld.
    + destruct Hl as (b & Hb & Hb1). exists b. split; [|done]. rewrite last_app in Hb. rewrite !last_app.
      by destruct (last (e :: ext)) eqn:E; [|apply last_None in E].
Qed.

(** ** Reserving a name *)

Lemma free_name_none fuel reserved stem ext i : free_name fuel reserved stem ext i = None ->
  forall j, (j < N.of_nat fuel)%N -> numbered stem ext (i + j) ∈ reserved.
Proof.
  revert i. induction fuel as [|fuel IH]; intros i Hf j Hj; [lia|]. cbn in Hf. case_decide as Hin; [|done].
  destruct (decide (j = 0)%N) as [->|Hne]; [by rewrite N.add_0_r|].
  replace (i + j)%N with (i + 1 + (j - 1))%N by lia. apply IH; [done|lia].
Qed.

Lemma free_name_some fuel reserved stem ext i n : free_name fuel reserved stem ext i = Some n ->
  n ∉ reserved /\ exists j, (j < N.of_nat fuel)%N /\ n = numbered stem ext (i + j).
Proof.
  revert i. induction fuel as [|fuel IH]; intros i Hf; [done|]. cbn in Hf. case_decide as Hin.
  - destruct (IH _ Hf) as (Hn & j & Hj & ->). split; [done|]. exists (j + 1)%N. split; [lia|]. f_equal. lia.
  - injection Hf as <-. split; [done|]. exists 0%N. split; [lia|]. by rewrite N.add_0_r.
Qed.

(** One number more than there are names in use is enough. *)
Lemma free_name_found reserved stem ext i : is_Some (free_name (S (size reserved)) reserved stem ext i).
Proof.
  destruct (free_name _ _ _ _ _) eqn:Hf; [by eexists|exfalso].
  pose proof (free_name_none _ _ _ _ _ Hf) as Hall.
  set (names := (fun j : nat => numbered stem ext (i + N.of_nat j)) <$> seq 0 (S (size reserved))).
  assert (NoDup names) as Hnd.
  { apply NoDup_fmap_2; [|apply NoDup_seq]. intros a b Hab%numbered_inj. lia. }
  assert (list_to_set names ⊆ reserved) as Hsub.
  { intros n Hn%elem_of_list_to_set. apply list_elem_of_fmap in Hn as (j & -> & Hj%elem_of_seq). apply Hall. lia. }
  apply subseteq_size in Hsub. rewrite size_list_to_set in Hsub by done. unfold names in Hsub. rewrite length_fmap, length_seq in Hsub. lia.
Qed.

Lemma reserve_spec reserved requested : exists name,
  reserve_unique_file_name reserved requested = Some ({[name]} ∪ reserved, name) /\ name ∉ reserved /\ safe_name name /\
  (length name <= length (sanitize_file_name requested) + size reserved + 4)%nat.
Proof.
  unfold reserve_unique_file_name. pose proof (sanitize_safe requested) as Hs. case_decide as Hin.
  2: { eexists. split_and!; [reflexivity|done..|lia]. }
  destruct (split_extension (sanitize_file_name requested)) as [stem ext] eqn:Hsp. apply split_extension_spec in Hsp as [Hsp Hne].
  destruct (free_name_found reserved stem ext 1) as [n Hn]. rewrite Hn. cbn. exists n.
  apply free_name_some in Hn as (Hn & j & Hj & ->).
  assert (stem <> []) as Hst.
  { apply Hne. intros H0. destruct (sn_head _ Hs) as (b & Hb & _). by rewrite H0 in Hb. }
  split_and!; [done|done|apply numbered_safe; [by rewrite <- Hsp|done]|].
  rewrite Hsp. unfold numbered. rewrite !length_app. destruct (pretty_small (1 + j)) as [_ Hd]. cbn [length ascii_bytes]. cbn. lia.
Qed.

(** ** Lengths *)

Lemma decode_length bs : (length (default [] (Utf8.decode bs)) <= length bs)%nat.
Proof.
  unfold Utf8.decode. generalize (length bs) as fuel. intros fuel. revert bs.
  induction fuel as [|fuel IH]; intros bs; [destruct bs; cbn; lia|]. destruct bs as [|b bs]; [cbn; lia|].
  cbn [Utf8.decode_loop]. destruct (_ (b :: bs)) as [n|]; [|cbn; lia]. cbn [mbind option_bind].
  specialize (IH (drop n (b :: bs))). destruct (Utf8.decode_loop fuel _); cbn in IH |- *; lia.
Qed.

Lemma after_slash_length name part : (length (after_slash name part) <= length part + length name)%nat.
Proof.
  revert part. induction name as [|c name IH]; intros part; cbn; [lia|]. etrans; [apply IH|].
  case_decide; [cbn; lia|]. rewrite length_app. cbn. lia.
Qed.

Lemma sanitize_length name : (length (sanitize_file_name name) <= Nat.max 4 (length name))%nat.
Proof.
  unfold sanitize_file_name. set (out := trim_matches _ _).
  assert (length out <= length name)%nat as Ho.
  { unfold out. etrans; [apply trim_length|]. rewrite length_fmap. etrans; [apply trim_length|].
    etrans; [apply after_slash_length|]. cbn. apply decode_length. }
  destruct out; [cbn; lia|]. rewrite length_fmap. lia.
Qed.

Lemma round_div_bounds a b : 0 <= a -> 0 < b -> 0 <= round_div a b <= a / b + 1.
Proof. intros Ha Hb. unfold round_div. pose proof (Z.div_pos a b Ha Hb). case_decide; lia. Qed.

Lemma to_f64_bounds n : is_u 64 n -> 0 <= to_f64 n < 2 ^ 66.
Proof.
  unfold is_u, to_f64. intros Hn. case_decide as He; [lia|]. set (e := Z.log2 n - 52) in *.
  assert (Z.log2 n < 64) by (destruct (decide (n = 0)) as [->|]; [cbn; lia|apply Z.log2_lt_pow2; lia]).
  assert (e <= 11) by (unfold e; lia).
  pose proof (Z.pow_pos_nonneg 2 e ltac:(lia) ltac:(lia)). pose proof (Z.pow_le_mono_r 2 e 11 ltac:(lia) ltac:(lia)).
  pose proof (round_div_bounds n (2 ^ e) ltac:(lia) ltac:(lia)). pose proof (Z.mul_div_le n (2 ^ e) ltac:(lia)). nia.
Qed.

Lemma number_length n k : 0 <= n < 10 ^ Z.of_nat (S k) -> (length (ascii_bytes (pretty (Z.to_N n))) <= S k)%nat.
Proof.
  intros Hn. destruct (pretty_digits (S k) (Z.to_N n)) as [_ Hl]; [|lia].
  apply N2Z.inj_lt. rewrite N2Z.inj_pow, Z2N.id by lia. rewrite nat_N_Z. lia.
Qed.

Lemma with_tenths_length n unit : is_u 64 n -> 1 <= unit -> (length (with_tenths n unit) <= 24)%nat.
Proof.
  intros Hn Hu. pose proof (to_f64_bounds n Hn) as Hf. unfold with_tenths. set (t := round_div _ _).
  assert (0 <= t < 10 * 2 ^ 66 + 1) as Ht.
  { pose proof (round_div_bounds (10 * to_f64 n) unit ltac:(lia) ltac:(lia)) as Hr. fold t in Hr.
    pose proof (Z.div_le_upper_bound (10 * to_f64 n) unit (10 * to_f64 n) ltac:(lia) ltac:(nia)). lia. }
  rewrite !length_app. pose proof (number_length (t / 10) 20) as H1. pose proof (number_length (t mod 10) 0) as H2.
  pose proof (Z.mod_pos_bound t 10 ltac:(lia)). pose proof (Z.div_pos t 10 ltac:(lia) ltac:(lia)).
  pose proof (Z.div_le_upper_bound t 10 (2 ^ 66 + 1) ltac:(lia) ltac:(lia)).
  cbn [Z.of_nat Pos.of_succ_nat Pos.succ] in H1, H2. change (length (ascii_bytes ".")) with 1%nat. lia.
Qed.

Lemma format_bytes_length n : is_u 64 n -> (length (format_bytes n) <= 28)%nat.
Proof.
  intros Hn. unfold format_bytes. case_decide; [|case_decide]; rewrite length_app.
  - pose proof (with_tenths_length n (1024 * 1024) Hn). change (length (ascii_bytes " MiB")) with 4%nat. lia.
  - pose proof (with_tenths_length n 1024 Hn). change (length (ascii_bytes " KiB")) with 4%nat. lia.
  - pose proof (number_length n 3) as Hl. unfold is_u in Hn. change (length (ascii_bytes " B")) with 2%nat.
    cbn [Z.of_nat Pos.of_succ_nat Pos.succ] in Hl. lia.
Qed.
