(* ===== verification/ServerKept.v ===== *)
(** * Requests keep the tables in order

    Every handler of [ServerOps] ends, whatever its arguments, and gives back a
    state that satisfies the invariant.  Of the numbers handed out only those of
    streams can wrap around, after 2^32 calls and shares. *)

From stdpp Require Import pretty.
From S2P Require Import Prelude Primitives Transport Handshake Media Frame Evented Video Net History Usernames VoiceRelay.
From S2P Require Import RoomLog RoomStore ServerState ServerCascade ServerInvariant ServerTeardown ServerOps ServerNames.

(** The store does not fail on a message of an ordinary length. *)
Definition ordinary (m : ChatMessage) : Prop := len (sender_name m) < 2 ^ 32 /\ len (body m) < 2 ^ 32.

Class ChatStoreLaws (St : Type) `{ChatStore St} := {
  store_appends : forall (st : St) r m, ordinary m -> is_Some (store_try_append st r m);
}.

(** A change no table looks at. *)
Ltac unseen I := split; cbn; first [keep I | done | lia | by eauto | (split; cbn; keep I)].

Section kept.
Context {Rx Tx St : Type} `{HashOrder} `{ChatStoreLaws St}.
Context (encode_server_control : ServerControl -> bytes) (random : nat -> nat -> option bytes).
Context (now now_ms : Z).
Abbreviation server := (Server Rx Tx St).
Abbreviation client := (ClientConn Rx Tx).
Abbreviation enc := encode_server_control.
Abbreviation inv := (inv enc ∅ ∅).
Abbreviation disc := (disconnect enc now).

(** ** What a request may change *)

(** [k] streams may have been started. *)
Record kept (k : Z) (s s' : server) : Prop := {
  kp_inv : inv s';
  kp_rooms : forall r, rm_access <$> rooms s' !! r = rm_access <$> rooms s !! r;
  kp_streams : next_stream s <= next_stream s' <= next_stream s + k;
  kp_config : config s' = config s;
  kp_names : usernames s' = usernames s;
  kp_pending : pending_identity s' = pending_identity s;
  kp_next_session : next_session s' = next_session s;
  kp_next_token : next_token s' = next_token s;
  kp_clients : clients s' ⊆ clients s;
  kp_sessions : forall id y, sessions s' !! id = Some y -> exists x, sessions s !! id = Some x /\ same_keys x y;
}.

Lemma same_keys_refl x : same_keys x x.
Proof. done. Qed.

Lemma same_keys_trans x y z : same_keys x y -> same_keys y z -> same_keys x z.
Proof. unfold same_keys. intuition congruence. Qed.

#[local] Hint Resolve same_keys_refl : core.

Lemma kept_refl s : inv s -> kept 0 s s.
Proof. split; try done; eauto. lia. Qed.

Lemma kept_trans a b s1 s2 s3 : kept a s1 s2 -> kept b s2 s3 -> kept (a + b) s1 s3.
Proof.
  intros A B. split.
  - apply B.
  - intros r. rewrite (kp_rooms _ _ _ B). apply A.
  - pose proof (kp_streams _ _ _ A). pose proof (kp_streams _ _ _ B). lia.
  - rewrite (kp_config _ _ _ B). apply A.
  - rewrite (kp_names _ _ _ B). apply A.
  - rewrite (kp_pending _ _ _ B). apply A.
  - rewrite (kp_next_session _ _ _ B). apply A.
  - rewrite (kp_next_token _ _ _ B). apply A.
  - etrans; [apply B|apply A].
  - intros id z Hz. destruct (kp_sessions _ _ _ B id z Hz) as (y & Hy & Hyz), (kp_sessions _ _ _ A id y Hy) as (x & Hx & Hxy).
    eauto using same_keys_trans.
Qed.

Lemma kept_weaken a b s s' : a <= b -> kept a s s' -> kept b s s'.
Proof. intros Hab A. destruct A. split; try done. lia. Qed.

Lemma kept_shrinks X s s' : inv s' -> shrinks X s s' -> kept 0 s s'.
Proof.
  intros I S. pose proof (sh_rest _ _ _ S) as [= R1 R2 R6 R3 R4 R5]. pose proof (sh_counters _ _ _ S) as [= C1 C2 C3 C4 C5].
  split; try done; [|lia|apply S|].
  - intros r. destruct (sh_rooms _ _ _ S r) as [a b (x & -> & _)|]; done.
  - intros id y Hy. destruct (sh_sessions _ _ _ S id y Hy) as (x & Hx & [->|[_ Hxy]]); [by eauto|].
    exists x. split; [done|]. destruct Hxy as (a & b & c & ->). done.
Qed.

Definition same_access (rs rs' : gmap Z RoomState) : Prop := forall r, rm_access <$> rs' !! r = rm_access <$> rs !! r.

Lemma may_see_access rs rs' u r : same_access rs rs' -> may_see rs u r <-> may_see rs' u r.
Proof.
  intros HR. specialize (HR r). unfold may_see.
  destruct (rs !! r) as [a|], (rs' !! r) as [b|]; cbn in HR; simplify_eq; split; intros (room & [= <-] & Ha).
  - exists b. by rewrite HR.
  - exists a. by rewrite <- HR.
Qed.

Lemma kept_may_see k s s' u r : kept k s s' -> may_see (rooms s) u r <-> may_see (rooms s') u r.
Proof. intros K. apply may_see_access. exact (kp_rooms _ _ _ K). Qed.

(** ** Running *)

(** The operation ends in a state that keeps the tables. *)
Definition keeps (k : Z) (s : server) (m : option server) : Prop := exists s', m = Some s' /\ kept k s s'.
Definition keeps_res {A} (k : Z) (s : server) (m : option (server * A)) : Prop := exists s' r, m = Some (s', r) /\ kept k s s'.

Lemma keeps_runs X s m : runs enc X ∅ ∅ s m -> keeps 0 s m.
Proof. intros (s' & E & I & S). exists s'. eauto using kept_shrinks. Qed.

Lemma keeps_bind a b s m f :
  keeps a s m -> (forall s', kept a s s' -> keeps b s' (f s')) -> keeps (a + b) s (s' ← m; f s').
Proof.
  intros (s1 & -> & K1) Hf. destruct (Hf s1 K1) as (s2 & E & K2). exists s2. cbn. eauto using kept_trans.
Qed.

Lemma keeps_res_bind {A} a b s m (f : server -> option (server * A)) :
  keeps a s m -> (forall s', kept a s s' -> keeps_res b s' (f s')) -> keeps_res (a + b) s (s' ← m; f s').
Proof.
  intros (s1 & -> & K1) Hf. destruct (Hf s1 K1) as (s2 & r & E & K2). exists s2, r. cbn. eauto using kept_trans.
Qed.

Lemma keeps_res_then {A B} a b s (m : option (server * A)) (f : server -> A -> option (server * B)) :
  keeps_res a s m -> (forall s' r, kept a s s' -> keeps_res b s' (f s' r)) ->
  keeps_res (a + b) s ('(s', r) ← m; f s' r).
Proof.
  intros (s1 & r & -> & K1) Hf. destruct (Hf s1 r K1) as (s2 & r2 & E & K2). exists s2, r2. cbn. eauto using kept_trans.
Qed.

Lemma keeps_step a b s s1 m : kept a s s1 -> keeps b s1 m -> keeps (a + b) s m.
Proof. intros K1 (s2 & E & K2). exists s2. eauto using kept_trans. Qed.

Lemma keeps_res_step {A} a b s s1 (m : option (server * A)) : kept a s s1 -> keeps_res b s1 m -> keeps_res (a + b) s m.
Proof. intros K1 (s2 & r & E & K2). exists s2, r. eauto using kept_trans. Qed.

Lemma keeps_weaken a b s m : a <= b -> keeps a s m -> keeps b s m.
Proof. intros Hab (s' & E & K). exists s'. eauto using kept_weaken. Qed.

Lemma keeps_res_weaken {A} a b s (m : option (server * A)) : a <= b -> keeps_res a s m -> keeps_res b s m.
Proof. intros Hab (s' & r & E & K). exists s', r. eauto using kept_weaken. Qed.

Lemma keeps_id s : inv s -> keeps 0 s (Some s).
Proof. intros. exists s. eauto using kept_refl. Qed.

Lemma keeps_res_id {A} s (r : A) : inv s -> keeps_res 0 s (Some (s, r)).
Proof. intros. exists s, r. eauto using kept_refl. Qed.

Lemma keeps_done k s (m : option server) : keeps k s m -> keeps_res k s (done_with m).
Proof. intros (s' & -> & K). by exists s', (Ok ()). Qed.

Lemma keeps_each {A} (f : A -> server -> option server) l s :
  inv s -> (forall a s', a ∈ l -> kept 0 s s' -> keeps 0 s' (f a s')) -> keeps 0 s (each f l s).
Proof.
  revert s. induction l as [|a l IH]; intros s I Hf; [by apply keeps_id|]. cbn [each].
  apply (keeps_bind 0 0); [apply Hf; [by left|by apply kept_refl]|].
  intros s' K. apply IH; [apply K|]. intros b s2 Hb K2. apply Hf; [by right|]. by apply (kept_trans 0 0 s s').
Qed.

(** ** Sending *)

Lemma tell_kept s t m : inv s -> tellable s t m -> keeps 0 s (tell enc disc t m s).
Proof.
  intros I Ht. eapply keeps_runs, (runs_tell enc (S (size (clients s)))); [apply disconnect_ok|lia|done|done].
Qed.

Lemma send_kept s t m : inv s -> tellable s t m -> keeps_res 0 s (send_control_to_token enc disc t m s).
Proof.
  intros I Ht.
  destruct (queue_ok enc (S (size (clients s))) disc (disconnect_ok enc now _) ∅ ∅ s t m) as (s' & r & E & I' & S'); [lia|done|done|].
  exists s', r. split; [done|]. by eapply kept_shrinks.
Qed.

Lemma sends_kept s ts m : inv s -> (forall t, t ∈ ts -> tellable s t m) -> keeps 0 s (send_control_to_tokens enc disc ts m s).
Proof.
  intros I Ht. eapply keeps_runs, (runs_send enc (S (size (clients s)))); [apply disconnect_ok|lia|done|done].
Qed.

Lemma broadcast_kept s r m : inv s -> (forall q, q ∈ scope m -> q = r) -> keeps 0 s (broadcast_control enc disc r m s).
Proof.
  intros I Hm. eapply keeps_runs, (broadcast_ok enc (S (size (clients s)))); [apply disconnect_ok|lia|done|done].
Qed.

Lemma disc_kept s t : inv s -> keeps 0 s (disc t s).
Proof. intros I. eapply keeps_runs, (runs_disc enc (S (size (clients s)))); [apply disconnect_ok|lia|done]. Qed.

Lemma tell_unscoped s t m : inv s -> scope m = [] -> keeps 0 s (tell enc disc t m s).
Proof. intros. apply tell_kept; [done|by apply tellable_unscoped]. Qed.

Lemma send_unscoped s t m : inv s -> scope m = [] -> keeps_res 0 s (send_control_to_token enc disc t m s).
Proof. intros. apply send_kept; [done|by apply tellable_unscoped]. Qed.

(** ** Access *)

Lemma check_access_kept (s : server) id r :
  inv s -> exists s', check_room_access enc now id r s = Some (s', room_allows s id r) /\ kept 0 s s' /\
    (room_allows s id r = true -> s' = s).
Proof.
  intros I. unfold check_room_access. destruct (room_allows s id r) eqn:Ha.
  - exists s. cbn. eauto using kept_refl.
  - assert (keeps 0 s match live_token_for_session s id with
                      | Some t => tell enc disc t (Error ERROR_ROOM_NOT_FOUND (ascii_bytes "room not found")) s
                      | None => Some s end) as (s' & E & K).
    { case_match; [by apply tell_unscoped|by apply keeps_id]. }
    exists s'. rewrite E. cbn. by split_and!.
Qed.

Lemma room_allows_see (s : server) id r x : sessions s !! id = Some x -> room_allows s id r = true -> may_see (rooms s) (ss_user_id x) r.
Proof. unfold room_allows. intros ->. case_match; [|done]. intros Ha. eexists. eauto. Qed.

Lemma report_kept k (s : server) token m : keeps_res k s m -> keeps_res k s (report_request_outcome enc now token m).
Proof.
  intros (s' & r & -> & K). unfold report_request_outcome. cbn. destruct r; [by exists s', (Ok ())|].
  apply (keeps_res_weaken (k + 0)); [lia|]. eapply keeps_res_step; [exact K|]. apply send_unscoped; [apply K|done].
Qed.

Lemma report_bug_kept k (s : server) token m : keeps_res k s m -> keeps_res k s (report_bug_outcome enc now token m).
Proof.
  intros (s' & r & -> & K). unfold report_bug_outcome. cbn. destruct r; [by exists s', (Ok ())|].
  apply (keeps_res_weaken (k + 0)); [lia|]. eapply keeps_res_step; [exact K|]. apply send_unscoped; [apply K|done].
Qed.

(** ** Changes no table looks at *)

Lemma set_store_kept (s : server) st : inv s -> kept 0 s (set_store st s).
Proof. intros I. unseen I. Qed.

Lemma set_draws_kept (s : server) n : inv s -> kept 0 s (set_rng_draws n s).
Proof. intros I. unseen I. Qed.

Lemma set_connection_id_kept (s : server) n : inv s -> kept 0 s (set_next_connection_id n s).
Proof. intros I. unseen I. Qed.

Lemma set_transfer_id_kept (s : server) n : inv s -> kept 0 s (set_next_file_transfer n s).
Proof. intros I. unseen I. Qed.

Lemma set_reports_kept (s : server) r : inv s -> kept 0 s (set_active_bug_reports r s).
Proof. intros I. unseen I. Qed.

Lemma set_report_requests_kept (s : server) r p : inv s -> kept 0 s (set_bug_report_requests r (set_pending_bug_reports p s)).
Proof. intros I. unseen I. Qed.

(** ** Chat *)

(** The names of the registry are of an ordinary length. *)
Definition names_ok (s : server) : Prop := forall u, len (username_of s u) < 2 ^ 32.

Lemma names_kept k (s : server) s' : kept k s s' -> names_ok s -> names_ok s'.
Proof. intros K Hn u. unfold username_of. rewrite (kp_names _ _ _ K). apply Hn. Qed.

Lemma reject_busy_kept (s : server) id : inv s -> keeps_res 0 s (reject_durable_history_busy enc now id s).
Proof. intros I. unfold reject_durable_history_busy. case_match; [by apply send_unscoped|by apply keeps_res_id]. Qed.

Lemma reject_mutation_kept (s : server) id r tgt k m : inv s -> keeps_res 0 s (reject_chat_mutation enc now id r tgt k m s).
Proof. intros I. unfold reject_chat_mutation. case_match; [by apply send_unscoped|by apply keeps_res_id]. Qed.

Lemma store_and_broadcast_kept (s : server) id r u name b fl tgt :
  inv s -> len name < 2 ^ 32 -> len b < 2 ^ 32 -> keeps_res 0 s (store_and_broadcast enc now now_ms id r u name b fl tgt s).
Proof.
  intros I Hn Hb. unfold store_and_broadcast. destruct (store_allocate_message_id (store s) r) as [st mid]. cbn [store set_store].
  match goal with |- context [store_try_append st r ?m] => destruct (store_appends st r m) as [[st' res] ->]; [done|] end.
  cbn [mbind option_bind]. apply (keeps_res_step 0 0 s (set_store st' s)); [by apply set_store_kept|].
  assert (inv (set_store st' s)) as I' by (apply (kp_inv 0 s), set_store_kept, I).
  change (set_store st' (set_store st s)) with (set_store st' s).
  case_match; [|by apply reject_busy_kept]. apply keeps_done, broadcast_kept; [done|one_scope].
Qed.

Lemma send_chat_kept (s : server) id r b : inv s -> names_ok s -> len b < 2 ^ 32 -> keeps_res 0 s (send_chat enc now now_ms id r b s).
Proof.
  intros I Hn Hb. unfold send_chat. destruct (sessions s !! id) as [x|]; [|by apply keeps_res_id].
  destruct (check_access_kept s id r I) as (s1 & -> & K1 & Heq). cbn [mbind option_bind].
  destruct (room_allows s id r); [rewrite Heq by done|by exists s1, (Ok ())]. cbn [negb].
  case_match; [case_match; [by apply send_unscoped|by apply keeps_res_id]|]. by apply store_and_broadcast_kept.
Qed.

Lemma mutate_chat_kept (s : server) id r tgt k b :
  inv s -> names_ok s -> len b < 2 ^ 32 -> keeps_res 0 s (mutate_chat enc now now_ms id r tgt k b s).
Proof.
  intros I Hn Hb. unfold mutate_chat. destruct (sessions s !! id) as [x|]; [|by apply keeps_res_id].
  destruct (check_access_kept s id r I) as (s1 & -> & K1 & Heq). cbn [mbind option_bind].
  destruct (room_allows s id r); [rewrite Heq by done|].
  - cbn [negb]. case_match; [by apply reject_mutation_kept|]. case_match; [by apply store_and_broadcast_kept|].
    by apply reject_mutation_kept.
  - apply (keeps_res_step 0 0 s s1); [done|]. apply reject_mutation_kept, K1.
Qed.

(** ** Bug reports *)

Lemma bug_start_kept (s : server) id rid d m n : inv s -> keeps_res 0 s (start_bug_report id rid d m n s).
Proof.
  intros I. unfold start_bug_report. repeat (case_match || case_decide); try by apply keeps_res_id.
  all: eexists _, _; (split; [reflexivity|]); by apply set_reports_kept.
Qed.

Lemma bug_chunk_kept (s : server) id rid o d : inv s -> keeps_res 0 s (receive_bug_report_chunk id rid o d s).
Proof.
  intros I. unfold receive_bug_report_chunk. repeat (case_match || case_decide); try by apply keeps_res_id.
  all: eexists _, _; (split; [reflexivity|]); by apply set_reports_kept.
Qed.

Lemma bug_complete_kept (s : server) e id rid : inv s -> keeps_res 0 s (complete_bug_report e id rid s).
Proof.
  intros I. unfold complete_bug_report. destruct (active_bug_reports s !! (id, rid)); [|by apply keeps_res_id].
  match goal with |- context [set_active_bug_reports ?r s] => pose proof (set_reports_kept s r I) as K end.
  apply (keeps_res_step 0 0 _ _ _ K). pose proof (kp_inv _ _ _ K) as I'.
  case_decide; [by apply keeps_res_id|]. case_match; [by apply keeps_res_id|]. destruct e; [|by apply keeps_res_id].
  eexists _, _. split; [reflexivity|]. by apply set_report_requests_kept.
Qed.

(** ** Changing a session *)

(** The call of the session stays what it is. *)
Definition same_call (x y : Session) : Prop :=
  same_keys x y /\ ss_voice_room y = ss_voice_room x /\ ss_active_stream y = ss_active_stream x.

Lemma calls_ok_change L rs ss id x y :
  calls_ok L rs ss -> ss !! id = Some x -> same_call x y -> calls_ok L rs (<[id := y]> ss).
Proof.
  intros C Hx [(Hu & _ & _) [Hv Ha]]. split.
  - intros j z i [[<- <-]|[Hne Hz]]%lookup_insert_Some Hi; [|by eapply (ca_listed _ _ _ C)].
    rewrite Hv. rewrite Ha in Hi. by eapply (ca_listed _ _ _ C).
  - intros r room i j Hroom Hi. destruct (ca_member _ _ _ C _ _ _ _ Hroom Hi) as (z & Hz & Hz1 & Hz2).
    destruct (decide (id = j)) as [<-|Hne].
    + exists y. rewrite lookup_insert_eq. simplify_eq. split_and!; congruence.
    + exists z. by rewrite lookup_insert_ne.
  - intros j z r [[<- <-]|[Hne Hz]]%lookup_insert_Some Hr; [|by eapply (ca_allowed _ _ _ C)].
    rewrite Hu. rewrite Hv in Hr. by eapply (ca_allowed _ _ _ C).
  - intros j z r [[<- <-]|[Hne Hz]]%lookup_insert_Some Hj Hr; [|by eapply (ca_streams _ _ _ C)].
    rewrite Ha. rewrite Hv in Hr. by eapply (ca_streams _ _ _ C).
  - apply C.
Qed.

Lemma insert_session_keys (ss : gmap Z Session) id x y :
  ss !! id = Some x -> same_keys x y ->
  forall j z, <[id := y]> ss !! j = Some z -> exists x', ss !! j = Some x' /\ same_keys x' z.
Proof. intros Hx Hk j z Hz. destruct (lookup_insert_session _ _ _ _ _ _ Hx Hk Hz) as (x' & ? & ? & _). eauto. Qed.

Lemma change_session_kept (s : server) id x y :
  inv s -> sessions s !! id = Some x -> same_call x y -> kept 0 s (set_sessions (<[id := y]> (sessions s)) s).
Proof.
  intros I Hx Hc. pose proof Hc as [Hk [Hv Ha]].
  split; cbn; try done; [|lia|by eapply insert_session_keys]. split; cbn; try keep I.
  - eapply sessions_ok_change; eauto. apply I.
  - eapply calls_ok_change; eauto. apply I.
  - intros j v Hj. eapply stream_ok_change; [by apply I|done..|apply Hk].
  - eapply uploads_ok_change; eauto. apply I.
  - eapply routes_ok_change; eauto. apply I.
  - eapply links_ok_change; eauto. apply I.
  - rewrite (inv_relay _ _ _ _ I), fmap_insert. symmetry. apply insert_id. rewrite lookup_fmap, Hx. cbn.
    unfold route_of. by rewrite Hv, Ha.
  - eapply ids_ok_change; eauto. apply I.
Qed.

Lemma update_session_kept (s : server) id f :
  inv s -> (forall x, same_call x (f x)) -> kept 0 s (update_session id f s).
Proof.
  intros I Hf. destruct (sessions s !! id) as [x|] eqn:Hx.
  - rewrite (update_session_known s id x) by done. by eapply change_session_kept.
  - rewrite update_session_unknown by done. by apply kept_refl.
Qed.

Lemma set_voice_state_kept (s : server) id state : inv s -> keeps 0 s (set_voice_state enc now id state s).
Proof.
  intros I. unfold set_voice_state. destruct (sessions s !! id) as [x|] eqn:Hx; [|by apply keeps_id].
  case_decide; [by apply keeps_id|].
  pose proof (change_session_kept s id x (ServerState.set_voice_state state x) I Hx) as K.
  assert (kept 0 s (set_sessions (<[id:=ServerState.set_voice_state state x]> (sessions s)) s)) as K1 by by apply K.
  apply (keeps_step 0 0 _ _ _ K1). pose proof (kp_inv _ _ _ K1) as I1.
  case_match; [|by apply keeps_id]. apply broadcast_kept; [done|one_scope].
Qed.

(** ** Entering a call *)

Definition join_room (i id : Z) (r : RoomState) : RoomState := set_active_streams (<[i := id]> (rm_active_streams r)) r.
Definition enter (r i : Z) (x : Session) : Session := set_active_stream (Some i) (set_voice_room (Some r) x).

Lemma join_access i id r rs : same_access rs (alter (join_room i id) r rs).
Proof.
  intros q. destruct (decide (r = q)) as [<-|Hne]; [rewrite lookup_alter_eq|by rewrite lookup_alter_ne].
  by destruct (rs !! r).
Qed.

Lemma queued_allowed_access rs rs' (cs : gmap Z client) pend :
  same_access rs rs' -> queued_allowed cs rs pend -> queued_allowed cs rs' pend.
Proof.
  intros HR Q t q c m Hq Hc Hm r Hr. destruct (Q t q c m Hq Hc Hm r Hr) as (u & Hu & Hs). exists u. split; [done|].
  by apply (may_see_access _ _ _ _ HR).
Qed.

Lemma uploads_ok_access rs rs' ss us names : same_access rs rs' -> uploads_ok rs ss us names -> uploads_ok rs' ss us names.
Proof. intros HR B. split; try apply B. intros. apply (may_see_access _ _ _ _ HR). by eapply uo_allowed. Qed.

Lemma lookup_join i id r rs q room : (alter (join_room i id) r rs : gmap Z RoomState) !! q = Some room ->
  exists old, rs !! q = Some old /\ rm_id room = rm_id old /\
    (room = old /\ q <> r \/ q = r /\ rm_active_streams room = <[i := id]> (rm_active_streams old)).
Proof.
  destruct (decide (r = q)) as [<-|Hne].
  - rewrite lookup_alter_eq. intros (old & Hold & ->)%fmap_Some. exists old. cbn. auto.
  - rewrite lookup_alter_ne by done. intros Hr. exists room. auto.
Qed.

Lemma enter_calls rs ss id x r i :
  calls_ok ∅ rs ss -> ss !! id = Some x -> ss_voice_room x = None -> may_see rs (ss_user_id x) r ->
  (forall q room, rs !! q = Some room -> rm_active_streams room !! i = None) ->
  calls_ok ∅ (alter (join_room i id) r rs) (<[id := enter r i x]> ss).
Proof.
  intros C Hx Hv Hsee Hi. split.
  - intros j z i' [[<- <-]|[Hne Hz]]%lookup_insert_Some Hi'.
    + cbn in Hi'. injection Hi' as <-. destruct Hsee as (room & Hroom & _). exists r, (join_room i id room).
      rewrite lookup_alter_eq, Hroom. split_and!; [done..|]. apply lookup_insert_eq.
    + destruct (ca_listed _ _ _ C j z i' Hz Hi') as (q & room & Hq & Hroom & Hact). exists q.
      destruct (decide (r = q)) as [<-|Hner].
      * exists (join_room i id room). rewrite lookup_alter_eq, Hroom. split_and!; [done..|]. cbn.
        rewrite lookup_insert_ne; [done|]. intros <-. by rewrite (Hi _ _ Hroom) in Hact.
      * exists room. by rewrite lookup_alter_ne.
  - intros q room i' j (old & Hold & _ & [[-> Hne]|[-> Heq]])%lookup_join Hi'.
    2: rewrite Heq in Hi'; apply lookup_insert_Some in Hi' as [[<- <-]|[Hne Hi']].
    2: { exists (enter r i x). by rewrite lookup_insert_eq. }
    all: destruct (ca_member _ _ _ C _ _ _ _ Hold Hi') as (z & Hz & Hz1 & Hz2); exists z;
      rewrite lookup_insert_ne; [done|intros <-; simplify_eq].
  - intros j z q [[<- <-]|[Hne Hz]]%lookup_insert_Some Hq; apply (may_see_access _ _ _ _ (join_access i id r rs)).
    + cbn in Hq. by injection Hq as <-.
    + by eapply (ca_allowed _ _ _ C).
  - intros j z q [[<- <-]|[Hne Hz]]%lookup_insert_Some Hj Hq; [by eexists|]. by eapply (ca_streams _ _ _ C).
  - intros q room (old & Hold & -> & _)%lookup_join. by apply (ca_ids _ _ _ C).
Qed.

Lemma enter_streams (cs : gmap Z client) ss vs id x y :
  streams_ok ∅ cs ss vs -> ss !! id = Some x -> ss_voice_room x = None -> streams_ok ∅ cs (<[id := y]> ss) vs.
Proof.
  intros V Hx Hv i v Hi. pose proof (V i v Hi) as B. split; try apply B.
  - destruct (vo_owner _ _ _ _ _ B) as [(z & Hz & Hrest)|[Hn Ho]]; [left|right].
    + exists z. rewrite lookup_insert_ne; [done|]. intros Heq. rewrite Heq in *. simplify_eq. destruct Hrest. congruence.
    + rewrite lookup_insert_ne; [done|]. intros Heq. rewrite Heq in *. congruence.
  - intros j k Hk. destruct (vo_secrets _ _ _ _ _ B j k Hk) as (z & Hz & Hzr). exists z.
    rewrite lookup_insert_ne; [done|]. intros <-. simplify_eq.
Qed.

Lemma enter_links links ss id x y :
  links_ok ∅ links ss -> ss !! id = Some x -> ss_voice_room x = None -> is_Some (ss_voice_room y) ->
  links_ok ∅ links (<[id := y]> ss).
Proof.
  intros K Hx Hv Hy.
  assert (forall a b l, links !! (a, b) = Some l -> id <> a /\ id <> b) as Hno.
  { intros a b l Hl. split; intros <-; destruct (li_member _ _ _ K _ _ _ id x Hl ltac:(auto) Hx ltac:(set_solver)); congruence. }
  split; [apply K|..].
  - intros a b l j z Hl Hj. destruct (Hno _ _ _ Hl). rewrite lookup_insert_ne by (intros <-; destruct Hj; congruence).
    by eapply (li_member _ _ _ K).
  - intros a b l z w Hl. destruct (Hno _ _ _ Hl). rewrite !lookup_insert_ne by done. by eapply (li_call _ _ _ K).
Qed.

Lemma next_id_small w i : 0 <= w -> 0 <= i < 2 ^ w - 1 -> next_id w i = i + 1.
Proof. intros Hw Hi. unfold next_id. rewrite wrap_small by (unfold is_u; lia). lia. Qed.

(** There is room for [k] more streams. *)
Definition has_room (k : Z) (s : server) : Prop := 0 <= next_stream s /\ next_stream s + k < 2 ^ 32.

Lemma has_room_kept a b (s s' : server) : kept a s s' -> has_room (a + b) s -> has_room b s'.
Proof. intros K [Hp Hr]. pose proof (kp_streams _ _ _ K). unfold has_room. lia. Qed.

(** The state of a session that enters a call with a stream of its own. *)
Definition entered (id r : Z) (x : Session) (s : server) : server :=
  let i := next_stream s in
  submit_voice (SetRoute id (Some {| route_room_id := r; route_stream_id := i |}))
    (set_rooms (alter (join_room i id) r (rooms s))
       (set_sessions (<[id := enter r i x]> (sessions s)) (set_next_stream (i + 1) s))).

Lemma entered_kept (s : server) id r x :
  inv s -> sessions s !! id = Some x -> ss_voice_room x = None -> may_see (rooms s) (ss_user_id x) r ->
  kept 1 s (entered id r x s).
Proof.
  intros I Hx Hv Hsee. unfold entered. set (i := next_stream s). pose proof (inv_ids _ _ _ _ I) as J.
  pose proof (join_access i id r (rooms s)) as HR.
  assert (same_keys x (enter r i x)) as Hk by done.
  split; cbn; try done; [|fold i; lia|by eapply insert_session_keys]. split; cbn; try keep I.
  - eapply sessions_ok_change; eauto. apply I.
  - apply enter_calls; try done; [apply I|]. intros q room Hroom. destruct (rm_active_streams room !! i) eqn:Hi; [|done].
    pose proof (id_calls _ _ _ _ _ _ _ _ _ _ J q room i _ Hroom Hi). lia.
  - eapply enter_streams; [apply I|done..].
  - eapply uploads_ok_access; [done|]. eapply uploads_ok_change; eauto. apply I.
  - eapply routes_ok_change; eauto. apply I.
  - eapply enter_links; [apply I|done..].
  - eapply queued_allowed_access; [done|apply I].
  - rewrite relay_view_snoc, (inv_relay _ _ _ _ I). cbn. rewrite fmap_insert. apply map_eq. intros j.
    destruct (decide (id = j)) as [<-|Hne].
    + by rewrite lookup_alter_eq, lookup_insert_eq, lookup_fmap, Hx.
    + by rewrite lookup_alter_ne, lookup_insert_ne.
  - assert (ids_ok (clients s) (control_send_tokens s) (<[id := enter r i x]> (sessions s)) (peer_links s) (active_uploads s)
              (rooms s) (streams s) (next_token s) (next_session s) (next_stream s)) as J' by by eapply ids_ok_change.
    split; try apply J'.
    + intros q room i' j (old & Hold & _ & [[-> Hne]|[-> Heq]])%lookup_join Hi'.
      * pose proof (id_calls _ _ _ _ _ _ _ _ _ _ J q old i' j Hold Hi'). lia.
      * rewrite Heq in Hi'. apply lookup_insert_Some in Hi' as [[<- <-]|[Hne Hi']]; [lia|].
        pose proof (id_calls _ _ _ _ _ _ _ _ _ _ J r old i' j Hold Hi'). lia.
    + intros i' v Hi'. destruct (id_streams _ _ _ _ _ _ _ _ _ _ J i' v Hi'). lia.
    + intros t c w j Hc Hk' Hj. pose proof (id_video _ _ _ _ _ _ _ _ _ _ J t c w j Hc Hk' Hj). lia.
Qed.

Lemma ensure_fresh (s : server) id r x :
  sessions s !! id = Some x -> ss_active_stream x = None -> has_room 1 s ->
  let '(s', res) := ensure_voice_stream id r (update_session id (set_voice_room (Some r)) s) in
  res = Ok (ss_user_id x, next_stream s) /\
  submit_voice (SetRoute id (Some {| route_room_id := r; route_stream_id := next_stream s |})) s' = entered id r x s.
Proof.
  intros Hx Ha [Hp Hr]. rewrite (update_session_known s id x) by done. unfold ensure_voice_stream.
  cbn [sessions set_sessions]. rewrite lookup_insert_eq. cbn [ss_voice_room ss_active_stream ss_user_id set_voice_room].
  rewrite decide_False by (intros Hn; by apply Hn). rewrite Ha. cbn [next_stream set_sessions]. split; [done|].
  rewrite next_id_small by lia. unfold update_session, entered.
  cbn [sessions rooms set_sessions set_next_stream set_rooms]. rewrite alter_insert_eq. done.
Qed.

(** A session already in the call. *)
Lemma rejoin_kept (s : server) id x r i :
  inv s -> sessions s !! id = Some x -> ss_voice_room x = Some r -> ss_active_stream x = Some i ->
  kept 0 s (submit_voice (SetRoute id (Some {| route_room_id := r; route_stream_id := i |})) s).
Proof.
  intros I Hx Hv Ha. split; cbn; try done; [|lia|by eauto]. split; cbn; try keep I.
  rewrite relay_view_snoc, (inv_relay _ _ _ _ I). cbn. apply map_eq. intros j. destruct (decide (id = j)) as [<-|Hne].
  - rewrite lookup_alter_eq, lookup_fmap, Hx. cbn. unfold route_of. by rewrite Hv, Ha.
  - by rewrite lookup_alter_ne.
Qed.

(** ** Granting a view of a share *)

Lemma replace_stream_kept (s : server) i v w :
  inv s -> streams s !! i = Some v -> stream_ok ∅ (clients s) (sessions s) i w -> st_owner_session w = st_owner_session v -> ring_ok i w ->
  kept 0 s (set_streams (<[i := w]> (streams s)) s).
Proof.
  intros I Hi Hw Ho Hring. split; cbn; try done; [|lia|by eauto]. split; cbn; try keep I.
  - intros j u [[<- <-]|[Hne Hu]]%lookup_insert_Some; [done|by apply I].
  - pose proof (inv_fanouts _ _ _ _ I) as F. split; try apply F.
    eapply Forall_impl; [exact (fa_stream _ _ _ F)|]. intros f [u Hu]. cbn.
    destruct (decide (i = fo_stream_id f)) as [<-|Hne]; [rewrite lookup_insert_eq|rewrite lookup_insert_ne by done]; by eexists.
  - by apply map_Forall_insert_2; [|apply I].
  - pose proof (inv_ids _ _ _ _ I) as J. split; try apply J.
    intros j u [[<- <-]|[Hne Hu]]%lookup_insert_Some; [|by apply (id_streams _ _ _ _ _ _ _ _ _ _ J)].
    rewrite Ho. by apply (id_streams _ _ _ _ _ _ _ _ _ _ J).
Qed.

Lemma grant_ok (s : server) i v id x k :
  inv s -> streams s !! i = Some v -> VideoPublisherState.is_live (st_publisher v) = true ->
  sessions s !! id = Some x -> ss_voice_room x = Some (st_room_id v) ->
  stream_ok ∅ (clients s) (sessions s) i (set_view_secrets (<[id := k]> (st_view_secrets v)) v).
Proof.
  intros I Hi Hl Hx Hv. pose proof (inv_streams _ _ _ _ I i v Hi) as B.
  assert (forall j, j ∈ (∅ : gset Z) \/ is_Some (st_view_secrets v !! j) ->
            j ∈ (∅ : gset Z) \/ is_Some (<[id := k]> (st_view_secrets v) !! j)) as Hmore.
  { intros j [Hin|Hin]; [by left|right].
    destruct (decide (id = j)) as [<-|Hne]; [rewrite lookup_insert_eq; by eexists|by rewrite lookup_insert_ne]. }
  split; try apply B; cbn.
  - destruct (vo_owner _ _ _ _ _ B) as [Ho|[_ ([d Hd] & _)]]; [by left|]. by rewrite Hd in Hl.
  - intros j k' [[<- <-]|[Hne Hk]]%lookup_insert_Some; [by eauto|]. by eapply (vo_secrets _ _ _ _ _ B).
  - intros t Ht. destruct (vo_watched _ _ _ _ _ B t Ht) as (c & w & j & Hc & Hkd & Hs & Hr & Hj & Hin).
    exists c, w, j. split_and!; try done. by apply Hmore.
  - intros t c w j Hc Hkd Hs Hr Hj. by eapply Hmore, (vo_viewer _ _ _ _ _ B).
Qed.

Lemma share_available_kept (s : server) i id :
  inv s -> let '(s', res) := share_available_for_session random i id s in
  kept 0 s s' /\ clients s' = clients s /\ sessions s' = sessions s /\
  (forall c, res = Ok c -> exists x r, sessions s !! id = Some x /\ ss_voice_room x = Some r /\ scope c = [r]).
Proof.
  intros I. unfold share_available_for_session.
  assert (forall e : bytes, kept 0 s s /\ clients s = clients s /\ sessions s = sessions s /\
    (forall c, Err e = Ok c -> exists x r, sessions s !! id = Some x /\ ss_voice_room x = Some r /\ scope c = [r])) as Hno.
  { intros e. split_and!; [by apply kept_refl|done..]. }
  destruct (streams s !! i) as [v|] eqn:Hi; [|apply Hno].
  destruct (VideoPublisherState.is_live (st_publisher v)) eqn:Hl; [cbn [negb]|apply Hno].
  destruct (decide (st_owner_session v = id)); [apply Hno|].
  destruct (decide _) as [|Hv]; [apply Hno|]. apply dec_stable in Hv.
  destruct (sessions s !! id) as [x|] eqn:Hx; [|done]. cbn in Hv.
  destruct (st_view_secrets v !! id) as [k|].
  - cbn beta iota. split_and!; [by apply kept_refl|done..|]. intros c [= <-]. eauto.
  - unfold random_secret, draw. cbn. destruct (random (rng_draws s) KEY_LEN) as [k|]; cbn.
    + split_and!; [|done..|intros c [= <-]; eauto].
      apply (kept_trans 0 0 s (set_rng_draws (S (rng_draws s)) s)); [by apply set_draws_kept|].
      apply (replace_stream_kept (set_rng_draws (S (rng_draws s)) s) i v); [|done| |done|].
      * apply (kp_inv 0 s), set_draws_kept, I.
      * exact (grant_ok s i v id x k I Hi Hl Hx Hv).
      * pose proof (inv_rings _ _ _ _ I i v Hi) as G. split; apply G.
    + split_and!; [by apply set_draws_kept|done..].
Qed.

Lemma send_share_kept (s : server) i id : inv s -> keeps 0 s (send_share_available_to_session enc random now i id s).
Proof.
  intros I. unfold send_share_available_to_session. destruct (live_token_for_session s id) as [t|] eqn:Ht; [|by apply keeps_id].
  pose proof (share_available_kept s i id I) as Hs.
  destruct (share_available_for_session random i id s) as [s1 res]. destruct Hs as (K & Hc & Hss & Hres).
  apply (keeps_step 0 0 _ _ _ K). pose proof (kp_inv _ _ _ K) as I1. destruct res as [c|e]; [|by apply keeps_id].
  destruct (Hres c eq_refl) as (x & r & Hx & Hv & Hsc).
  apply tell_kept; [done|]. eapply (tellable_call _ _ _ _ r id x); [done|by rewrite Hss|done| |].
  - unfold live_token_for_session. by rewrite Hss, Hc.
  - intros q. rewrite Hsc. by intros ->%list_elem_of_singleton.
Qed.

(** ** Joining a call *)

Lemma tellable_kept k (s s' : server) t m : kept k s s' -> tellable s t m -> tellable s' t m.
Proof.
  intros K Ht c Hc r Hr. destruct (Ht c (lookup_weaken _ _ _ _ Hc (kp_clients _ _ _ K)) r Hr) as (u & Hu & Hs).
  exists u. split; [done|]. by apply (kept_may_see _ _ _ _ _ K).
Qed.

Lemma existing_kept (s : server) r id t :
  inv s -> (forall m, (forall q, q ∈ scope m -> q = r) -> tellable s t m) ->
  keeps 0 s (send_existing_voice_streams_to_token enc now r id t s).
Proof.
  intros I Ht. unfold send_existing_voice_streams_to_token. apply keeps_each; [done|]. intros [i j] s' _ K. cbn.
  pose proof (kp_inv _ _ _ K). case_match; [|by apply keeps_id]. apply tell_kept; [done|].
  apply (tellable_kept _ _ _ _ _ K), Ht. one_scope.
Qed.

Lemma replay_kept (s : server) r id : inv s -> keeps 0 s (replay_voice_room_shares enc random now r id s).
Proof. intros I. apply keeps_each; [done|]. intros i s' _ K. apply send_share_kept, K. Qed.

Lemma join_failed_kept (s : server) id r e : inv s -> keeps 0 s (send_voice_join_failed enc now id r e s).
Proof. intros I. unfold send_voice_join_failed. case_match; [by apply tell_unscoped|by apply keeps_id]. Qed.

(** What follows once the route is set. *)
Lemma welcome_kept (s : server) id r x u i b :
  inv s -> sessions s !! id = Some x -> ss_voice_room x = Some r ->
  keeps 0 s (s ← broadcast_control enc disc r (VoiceStarted r id u i b) s;
             s ← match live_token_for_session s id with
                 | Some token => send_existing_voice_streams_to_token enc now r id token s
                 | None => Some s
                 end;
             s ← replay_voice_room_shares enc random now r id s;
             let state := match sessions s !! id with Some x => ss_voice_state x | None => Live end in
             broadcast_control enc disc r (VoiceStateChanged r u state) s).
Proof.
  intros I Hx Hv. apply (keeps_bind 0 0); [apply broadcast_kept; [done|one_scope]|]. intros s1 K1. pose proof (kp_inv _ _ _ K1) as I1.
  apply (keeps_bind 0 0).
  { destruct (live_token_for_session s1 id) as [t|] eqn:Ht; [|by apply keeps_id]. apply existing_kept; [done|].
    intros m Hm. eapply tellable_session; [done..|]. intros y q Hy Hq. rewrite (Hm q Hq).
    destruct (kp_sessions _ _ _ K1 id y Hy) as (x' & Hx' & (-> & _)). simplify_eq.
    apply (kept_may_see _ _ _ _ _ K1). by eapply (ca_allowed _ _ _ (inv_calls _ _ _ _ I)). }
  intros s2 K2. pose proof (kp_inv _ _ _ K2) as I2. apply (keeps_bind 0 0); [by apply replay_kept|]. intros s3 K3.
  apply broadcast_kept; [apply K3|one_scope].
Qed.

Lemma enter_fresh_kept (s : server) id r x :
  inv s -> sessions s !! id = Some x -> ss_voice_room x = None -> may_see (rooms s) (ss_user_id x) r -> has_room 1 s ->
  keeps 1 s (enter_call enc random now id r false (update_session id (set_voice_room (Some r)) s)).
Proof.
  intros I Hx Hv Hsee Hroom.
  assert (ss_active_stream x = None) as Ha.
  { destruct (ss_active_stream x) as [i|] eqn:Ha; [|done].
    destruct (ca_listed _ _ _ (inv_calls _ _ _ _ I) id x i Hx Ha) as (q & _ & Hq & _). congruence. }
  pose proof (ensure_fresh s id r x Hx Ha Hroom) as He. unfold enter_call.
  destruct (ensure_voice_stream id r _) as [s' res]. destruct He as [-> He]. cbv zeta. rewrite He.
  pose proof (entered_kept s id r x I Hx Hv Hsee) as K. apply (keeps_step 1 0 _ _ _ K).
  apply welcome_kept with (x := enter r (next_stream s) x); [apply K| |done]. cbn. apply lookup_insert_eq.
Qed.

Lemma enter_again_kept (s : server) id r x :
  inv s -> sessions s !! id = Some x -> ss_voice_room x = Some r ->
  keeps 0 s (enter_call enc random now id r true (update_session id (set_voice_room (Some r)) s)).
Proof.
  intros I Hx Hv. destruct (ca_streams _ _ _ (inv_calls _ _ _ _ I) id x r Hx ltac:(set_solver) Hv) as [i Ha].
  assert (update_session id (set_voice_room (Some r)) s = s) as ->.
  { rewrite (update_session_known s id x) by done. rewrite insert_id; [by destruct s|]. rewrite Hx. f_equal.
    destruct x; cbn in *. by subst. }
  unfold enter_call, ensure_voice_stream. rewrite Hx, Hv, decide_False, Ha by (intros Hn; by apply Hn).
  eexists. split; [reflexivity|]. by eapply rejoin_kept.
Qed.

Lemma join_voice_kept (s : server) id r : inv s -> has_room 1 s -> keeps 1 s (join_voice enc random now id r s).
Proof.
  intros I Hroom. unfold join_voice. destruct (room_allows s id r) eqn:Hall; cbn [negb].
  2: { apply (keeps_weaken 0); [lia|]. by apply join_failed_kept. }
  destruct (sessions s !! id) as [x|] eqn:Hx; [|unfold room_allows in Hall; by rewrite Hx in Hall].
  pose proof (room_allows_see s id r x Hx Hall) as Hsee. cbn [mbind option_bind].
  destruct (ss_voice_room x) as [p|] eqn:Hv; [destruct (bool_decide (p <> r)) eqn:Hp|].
  - destruct (leave_voice_ok enc (S (size (clients s))) disc (disconnect_ok enc now _) ∅ ∅ s id None) as
      (s1 & -> & I1 & S1 & Hc & _); [lia|done|]. cbn [mbind option_bind].
    pose proof (kept_shrinks _ _ _ I1 S1) as K1. destruct (is_live_session s1 id) eqn:Hl; cbn [andb negb].
    2: { apply (keeps_weaken 0); [lia|]. by exists s1. }
    apply bool_decide_eq_true in Hl as [t (y & Hy & _)%live_token_spec].
    destruct (Hc y Hy) as [Hy1 _]. rewrite Hy. cbn [mbind option_bind]. rewrite Hy1.
    destruct (kp_sessions _ _ _ K1 id y Hy) as (x' & Hx' & (Hu & _)). simplify_eq.
    apply (keeps_step 0 1 _ _ _ K1). rewrite bool_decide_false by done. apply enter_fresh_kept with (x := y); try done.
    + rewrite Hu. by apply (kept_may_see _ _ _ _ _ K1).
    + by apply (has_room_kept 0 1 s).
  - apply bool_decide_eq_false, dec_stable in Hp. subst p. cbn [andb mbind option_bind]. rewrite Hx. cbn [mbind option_bind].
    rewrite Hv, bool_decide_true by done. apply (keeps_weaken 0); [lia|]. by eapply enter_again_kept.
  - cbn [andb mbind option_bind]. rewrite Hx. cbn [mbind option_bind]. rewrite Hv, bool_decide_false by done.
    by eapply enter_fresh_kept.
Qed.

(** ** Peer-to-peer links *)

(** The sessions that are left are as they were. *)
Definition same_sessions (s s' : server) : Prop :=
  (forall j y, sessions s' !! j = Some y -> sessions s !! j = Some y) /\ next_session s' = next_session s.

Lemma same_sessions_trans s1 s2 s3 : same_sessions s1 s2 -> same_sessions s2 s3 -> same_sessions s1 s3.
Proof. intros [A1 A2] [B1 B2]. split; [by eauto|congruence]. Qed.

Lemma same_sessions_shrinks (s s' : server) : shrinks ∅ s s' -> same_sessions s s'.
Proof.
  intros S. pose proof (sh_counters _ _ _ S) as [= _ Hn _ _ _]. split; [|done]. intros j y Hy.
  destruct (sh_sessions _ _ _ S j y Hy) as (x & Hx & [->|[? _]]); [done|set_solver].
Qed.

Lemma send_settled (s : server) t m : inv s -> tellable s t m ->
  exists s' r, send_control_to_token enc disc t m s = Some (s', r) /\ kept 0 s s' /\ same_sessions s s'.
Proof.
  intros I Ht.
  destruct (queue_ok enc (S (size (clients s))) disc (disconnect_ok enc now _) ∅ ∅ s t m) as (s' & r & E & I' & S'); [lia|done|done|].
  exists s', r. split_and!; [done|by eapply kept_shrinks|by apply same_sessions_shrinks].
Qed.

(** A session that, when it is still there, is in the call. *)
Definition in_call (s : server) (r id : Z) : Prop :=
  id < next_session s /\ forall x, sessions s !! id = Some x -> ss_voice_room x = Some r.

Lemma in_call_settled (s s' : server) r id : same_sessions s s' -> in_call s r id -> in_call s' r id.
Proof. intros [A1 A2] [Hn Hc]. split; [lia|]. intros x Hx. by apply Hc, A1. Qed.

Lemma insert_link_kept (s : server) r a b l :
  inv s -> a <> b -> in_call s r a -> in_call s r b ->
  kept 0 s (set_peer_links (<[ordered_pair a b := l]> (peer_links s)) s).
Proof.
  intros I Hab [Ha Hca] [Hb Hcb]. split; cbn; try done; [|lia|by eauto].
  assert (exists c d, ordered_pair a b = (c, d) /\ c < d /\ in_call s r c /\ in_call s r d) as (c & d & -> & Hcd & [Hc Hcc] & [Hd Hcd']).
  { unfold ordered_pair. case_decide; [exists a, b|exists b, a]; unfold in_call; split_and!; try done; lia. }
  split; cbn; try keep I.
  - pose proof (inv_links _ _ _ _ I) as K. split.
    + intros e f l' [[[= <- <-] <-]|[Hne Hl]]%lookup_insert_Some; [done|]. by eapply (li_ordered _ _ _ K).
    + intros e f l' j x [[[= <- <-] <-]|[Hne Hl]]%lookup_insert_Some Hj Hx HL; [|by eapply (li_member _ _ _ K)].
      exists r. destruct Hj as [-> | ->]; auto.
    + intros e f l' x y [[[= <- <-] <-]|[Hne Hl]]%lookup_insert_Some Hx Hy; [|by eapply (li_call _ _ _ K)].
      intros _ _. by rewrite (Hcc x Hx), (Hcd' y Hy).
  - pose proof (inv_ids _ _ _ _ I) as J. split; try apply J.
    intros e f l' [[[= <- <-] <-]|[Hne Hl]]%lookup_insert_Some; [done|]. by eapply (id_links _ _ _ _ _ _ _ _ _ _ J).
Qed.

Lemma random_key_draws (s : server) : exists n res, random_key random s = (set_rng_draws n s, res).
Proof. unfold random_key, draw. case_match; [case_match|]; by eexists _, _. Qed.

Lemma new_link_kept (s : server) : inv s ->
  let '(s', _) := new_peer_link random s in
  kept 0 s s' /\ sessions s' = sessions s /\ next_session s' = next_session s.
Proof.
  intros I. unfold new_peer_link. set (s0 := set_next_connection_id _ s).
  assert (forall n, kept 0 s (set_rng_draws n s0) /\ sessions (set_rng_draws n s0) = sessions s /\
            next_session (set_rng_draws n s0) = next_session s) as Hn.
  { intros n. split; [|done]. apply (kept_trans 0 0 s s0); [by apply set_connection_id_kept|].
    apply set_draws_kept, (kp_inv 0 s), set_connection_id_kept, I. }
  destruct (random_key_draws s0) as (n1 & r1 & ->). destruct r1; [|apply Hn].
  destruct (random_key_draws (set_rng_draws n1 s0)) as (n2 & r2 & ->). destruct r2; [|apply (Hn n2)].
  destruct (random_key_draws (set_rng_draws n2 (set_rng_draws n1 s0))) as (n3 & r3 & ->). destruct r3; apply (Hn n3).
Qed.

Lemma link_for_kept (s : server) r a b : inv s -> a <> b -> in_call s r a -> in_call s r b ->
  let '(s', _) := link_for random (ordered_pair a b) s in kept 0 s s' /\ same_sessions s s'.
Proof.
  intros I Hab Ha Hb. unfold link_for. destruct (peer_links s !! _); [by split; [apply kept_refl|]|].
  pose proof (new_link_kept s I) as Hn. destruct (new_peer_link random s) as [s1 res]. destruct Hn as (K & Hss & Hns).
  assert (same_sessions s s1) as HS by (split; [by rewrite Hss|done]). destruct res as [l|e]; [|by split].
  split; [|exact HS]. apply (kept_trans 0 0 _ _ _ K). apply (insert_link_kept s1 r); [apply K|done|by eapply in_call_settled..].
Qed.

Lemma peer_info_tellable (s : server) r a b l info t : inv s -> in_call s r a -> p2p_peer_info s a b l = Ok info ->
  live_token_for_session s a = Some t -> tellable s t (P2pPeer info).
Proof.
  unfold p2p_peer_info. intros I [_ Hc] Hi Ht. destruct (sessions s !! a) as [x|] eqn:Hx; [|done].
  eapply (tellable_call _ _ _ _ r a x); [done|done|by apply Hc|done|]. intros q. cbn.
  destruct (sessions s !! b) as [y|]; [|done]. destruct (ss_p2p y); [|done].
  destruct (decide _); injection Hi as <-; cbn; rewrite (Hc x eq_refl); by intros ->%list_elem_of_singleton.
Qed.

Lemma pair_kept (s : server) r a b : inv s -> a <> b -> in_call s r a -> in_call s r b ->
  exists s' res, send_p2p_pair enc random now a b s = Some (s', res) /\ kept 0 s s' /\ same_sessions s s'.
Proof.
  intros I Hab Ha Hb. unfold send_p2p_pair. pose proof (link_for_kept s r a b I Hab Ha Hb) as Hl.
  destruct (link_for random (ordered_pair a b) s) as [s1 link]. destruct Hl as [K1 S1]. pose proof (kp_inv _ _ _ K1) as I1.
  assert (forall e : result bytes (), exists s' res, Some (s1, e) = Some (s', res) /\ kept 0 s s' /\ same_sessions s s') as Hsame by eauto.
  destruct link as [l|]; [|apply Hsame].
  destruct (p2p_peer_info s1 a b l) as [ai|] eqn:Hai; [|apply Hsame].
  destruct (p2p_peer_info s1 b a l) as [bi|] eqn:Hbi; [|apply Hsame].
  destruct (live_token_for_session s1 a) as [ta|] eqn:Hta; [|apply Hsame].
  destruct (live_token_for_session s1 b) as [tb|] eqn:Htb; [|apply Hsame].
  destruct (send_settled s1 ta (P2pPeer ai) I1) as (s2 & res & -> & K2 & S2).
  { apply (peer_info_tellable s1 r a b l); [done|by apply (in_call_settled s)|done..]. }
  pose proof (kept_trans 0 0 _ _ _ K1 K2) as K12. pose proof (same_sessions_trans _ _ _ S1 S2) as S12. cbn [mbind option_bind].
  destruct res as [u|e]; [|by eauto]. case_match; [by eexists _, _|].
  destruct (send_settled s2 tb (P2pPeer bi)) as (s3 & res3 & -> & K3 & S3); [apply K2| |].
  { apply (tellable_kept _ _ _ _ _ K2), (peer_info_tellable s1 r b a l); [done|by apply (in_call_settled s)|done..]. }
  exists s3, res3. split_and!; [done|by apply (kept_trans 0 0 _ _ _ K12)|by eapply same_sessions_trans].
Qed.

Lemma pair_with_kept peers : forall (s : server) r id,
  inv s -> in_call s r id -> Forall (fun p => p <> id /\ in_call s r p) peers ->
  keeps_res 0 s (pair_with enc random now id peers s).
Proof.
  induction peers as [|p peers IH]; intros s r id I Hid Hp; [by apply keeps_res_id|]. cbn [pair_with].
  apply Forall_cons in Hp as [[Hne Hp] Hps]. case_match; [by apply keeps_res_id|].
  destruct (pair_kept s r id p I) as (s1 & res & -> & K1 & S1); [done..|]. cbn [mbind option_bind].
  destruct res as [u|e]; [|by exists s1, (Err e)]. apply (keeps_res_step 0 0 _ _ _ K1).
  apply (IH s1 r); [apply K1|by eapply in_call_settled|].
  eapply Forall_impl; [exact Hps|]. intros q [? ?]. split; [done|by eapply in_call_settled].
Qed.

Lemma same_call_p2p x p : same_call x (set_p2p p x).
Proof. done. Qed.

Lemma remove_links_kept (s : server) id : inv s -> kept 0 s (remove_peer_links id s).
Proof. intros I. destruct (remove_links_inv enc ∅ ∅ s id I). by eapply kept_shrinks. Qed.

Lemma p2p_gone_kept (s : server) id r : inv s -> keeps 0 s (broadcast_p2p_gone enc disc id r s).
Proof. intros I. eapply keeps_runs, (p2p_gone_ok enc (S (size (clients s)))); [apply disconnect_ok|lia|done]. Qed.

Lemma publish_p2p_kept (s : server) id r g n t c : inv s -> keeps_res 0 s (publish_p2p enc random now id r g n t c s).
Proof.
  intros I. unfold publish_p2p. pose proof (update_session_kept s id (set_p2p None) I (fun x => same_call_p2p x None)) as K.
  pose proof (kp_inv _ _ _ K) as I1. destruct (cfg_p2p (config s)); cbn [negb].
  2: { eexists _, _. split; [reflexivity|]. apply (kept_trans 0 0 _ _ _ K). by apply remove_links_kept. }
  destruct c as [|c0 c].
  - apply (keeps_res_step 0 0 _ _ _ K). apply (keeps_res_bind 0 0); [by apply p2p_gone_kept|]. intros s2 K2.
    eexists _, _. split; [reflexivity|]. apply remove_links_kept, K2.
  - destruct (decide _) as [|Hv]; [by apply keeps_res_id|]. apply dec_stable in Hv. cbv zeta.
    match goal with |- context [update_session id ?f s] => pose proof (update_session_kept s id f I (fun x => same_call_p2p x _)) as K2;
      set (s2 := update_session id f s) in * end.
    clear K I1. pose proof (kp_inv _ _ _ K2) as I2. apply (keeps_res_step 0 0 _ _ _ K2).
    assert (forall j x, sessions s2 !! j = Some x -> j < next_session s2) as Hlt.
    { apply (id_sessions _ _ _ _ _ _ _ _ _ _ (inv_ids _ _ _ _ I2)). }
    destruct (sessions s !! id) as [x|] eqn:Hx; [|done]. cbn in Hv. apply (pair_with_kept _ s2 r).
    + done.
    + unfold s2. rewrite (update_session_known s id x) by done. split.
      * cbn. by eapply (id_sessions _ _ _ _ _ _ _ _ _ _ (inv_ids _ _ _ _ I)).
      * intros y. cbn. rewrite lookup_insert_eq. by intros [= <-].
    + apply Forall_forall. intros p (_ & (_ & (Hne & Hm)%list_elem_of_filter)%list_elem_of_filter)%list_elem_of_filter.
      split; [done|]. destruct (member_call _ _ _ _ _ _ I2 Hm) as (y & Hy & Hr & _). split; [by eapply Hlt|].
      intros z Hz. simplify_eq. done.
Qed.

(** ** Shares of an owner *)

Lemma insert_stream_kept (s : server) v :
  inv s -> stream_ok ∅ (clients s) (sessions s) (next_stream s) v -> st_owner_session v < next_session s -> ring_ok (next_stream s) v ->
  kept 1 s (set_streams (<[next_stream s := v]> (streams s)) (set_next_stream (next_stream s + 1) s)).
Proof.
  intros I Hv Ho Hring. split; cbn; try done; [|lia|by eauto]. split; cbn; try keep I.
  - intros i w [[<- <-]|[Hne Hw]]%lookup_insert_Some; [done|by apply I].
  - pose proof (inv_fanouts _ _ _ _ I) as F. split; try apply F.
    eapply Forall_impl; [exact (fa_stream _ _ _ F)|]. intros f [u Hu]. cbn.
    destruct (decide (next_stream s = fo_stream_id f)) as [->|Hne]; [rewrite lookup_insert_eq|rewrite lookup_insert_ne by done]; by eexists.
  - by apply map_Forall_insert_2; [|apply I].
  - pose proof (inv_ids _ _ _ _ I) as J. split; try apply J.
    + intros q room i j Hroom Hi. pose proof (id_calls _ _ _ _ _ _ _ _ _ _ J q room i j Hroom Hi). lia.
    + intros i w [[<- <-]|[Hne Hw]]%lookup_insert_Some; [lia|]. destruct (id_streams _ _ _ _ _ _ _ _ _ _ J i w Hw). lia.
    + intros t c w j Hc Hk Hj. pose proof (id_video _ _ _ _ _ _ _ _ _ _ J t c w j Hc Hk Hj). lia.
Qed.

Lemma new_stream_ok (cs : gmap Z client) ss i v :
  (exists x, ss !! st_owner_session v = Some x /\ ss_voice_room x = Some (st_room_id v) /\ ss_user_id x = st_user_id v) \/
  ss !! st_owner_session v = None ->
  (forall t c w, cs !! t = Some c -> cc_kind c = VideoKind w -> vc_stream_id w <> Some i) ->
  orphan v -> stream_ok ∅ cs ss i v.
Proof.
  intros Hown Hno Ho. pose proof Ho as ((d & Hd) & Ha & Hs & Hk). split.
  - destruct Hown; auto.
  - intros id k. by rewrite Hk.
  - intros t. rewrite Hs. by intros ?%not_elem_of_nil.
  - intros t. by rewrite Hd.
  - by rewrite Hd.
  - intros t c w id Hc Hkd Hi. by destruct (Hno t c w Hc Hkd).
  - intros t c w Hc Hkd Hi. by destruct (Hno t c w Hc Hkd).
Qed.

Lemma start_share_kept (s : server) id a r codec w h ex :
  inv s -> has_room 1 s -> keeps_res 1 s (start_share enc random now id a r codec w h ex s).
Proof.
  intros I Hroom. unfold start_share.
  assert (forall e : bytes, keeps_res 1 s (Some (s, Err e : result bytes ()))) as Hsame.
  { intros e. apply (keeps_res_weaken 0); [lia|by apply keeps_res_id]. }
  destruct (sessions s !! id) as [x|] eqn:Hx; [|apply Hsame].
  destruct (decide _) as [|Hv]; [apply Hsame|]. apply dec_stable in Hv.
  destruct (end_shares_ok enc (S (size (clients s))) disc (disconnect_ok enc now _) ∅ ∅ s id) as (s1 & -> & I1 & S1 & _); [lia|done|].
  cbn [mbind option_bind]. pose proof (kept_shrinks _ _ _ I1 S1) as K1. destruct (same_sessions_shrinks _ _ S1) as [Hsub Hns].
  unfold random_secret, draw. cbn [fst snd]. set (s2 := set_rng_draws _ s1).
  assert (kept 0 s s2) as K2 by (apply (kept_trans 0 0 _ _ _ K1); by apply set_draws_kept).
  destruct (random (rng_draws s1) KEY_LEN) as [key|]; cbn [ok_or].
  2: { eexists _, _. split; [reflexivity|]. apply (kept_weaken 0); [lia|done]. }
  apply (keeps_res_step 0 1 _ _ _ K2). pose proof (kp_inv _ _ _ K2) as I2.
  pose proof (has_room_kept 0 1 _ _ K2 Hroom) as [Hp Hr]. rewrite next_id_small by lia. cbv zeta.
  match goal with |- context [<[next_stream s2 := ?v]> _] => set (v0 := v) end.
  assert (forall y, sessions s2 !! id = Some y -> y = x) as Hsess by (intros y Hy%Hsub; simplify_eq; done).
  assert (kept 1 s2 (set_streams (<[next_stream s2 := v0]> (streams s2)) (set_next_stream (next_stream s2 + 1) s2))) as K3.
  { apply insert_stream_kept; [done| | |by split; cbn; try done; lia].
    - apply new_stream_ok.
      + destruct (sessions s2 !! id) as [y|] eqn:Hy; [left|by right]. exists y. by rewrite (Hsess y eq_refl) in Hy |- *.
      + intros t c w' Hc Hk Hi. pose proof (id_video _ _ _ _ _ _ _ _ _ _ (inv_ids _ _ _ _ I2) t c w' _ Hc Hk Hi). lia.
      + split_and!; try done. by eexists.
    - cbn. rewrite Hns. by eapply (id_sessions _ _ _ _ _ _ _ _ _ _ (inv_ids _ _ _ _ I)). }
  apply (keeps_res_step 1 0 _ _ _ K3). pose proof (kp_inv _ _ _ K3) as I3.
  destruct (live_token_for_session _ id) as [t|] eqn:Ht; [|by apply keeps_res_id].
  apply send_kept; [done|]. pose proof Ht as (y & Hy & _)%live_token_spec. pose proof (Hsess y Hy) as Hyx.
  eapply (tellable_call _ _ _ _ r id y); [done|done|by rewrite Hyx|done|one_scope].
Qed.

Lemma handle_start_share_kept (s : server) token id a r codec w h ex :
  inv s -> has_room 1 s -> keeps_res 1 s (handle_start_share enc random now token id a r codec w h ex s).
Proof.
  intros I Hroom. unfold handle_start_share. apply (keeps_res_then 1 0); [by apply start_share_kept|]. intros s1 res K.
  pose proof (kp_inv _ _ _ K). destruct res; [by apply keeps_res_id|by apply send_unscoped].
Qed.

Lemma stop_share_kept (s : server) id i : inv s -> keeps_res 0 s (stop_share enc now id i s).
Proof.
  intros I. unfold stop_share. case_match; [|by apply keeps_res_id]. case_decide; [|by apply keeps_res_id].
  destruct (end_share_ok enc (S (size (clients s))) disc (disconnect_ok enc now _) ∅ ∅ s i) as (s1 & -> & I1 & S1 & _); [lia|done|].
  eexists _, _. split; [reflexivity|]. by eapply kept_shrinks.
Qed.

(** ** How many names there can be *)

Lemma split_size {A : Type} (us : gmap (Z * Z) A) id :
  size us = (size (filter (fun p => p.1.1 = id) us) + size (filter (fun p => p.1.1 <> id) us))%nat.
Proof.
  rewrite <- map_size_disj_union by apply map_disjoint_filter_complement. by rewrite map_filter_union_complement.
Qed.

Lemma owned_size {A B : Type} (us : gmap (Z * Z) A) (ss : gmap Z B) n :
  (forall k u, us !! k = Some u -> is_Some (ss !! k.1)) ->
  (forall id, (size (filter (fun p => p.1.1 = id) us) <= n)%nat) -> (size us <= size ss * n)%nat.
Proof.
  revert us. induction ss as [|id x ss Hid IH] using map_ind; intros us Ho Hn.
  - destruct (decide (us = ∅)) as [->|Hne]; [rewrite map_size_empty; lia|].
    apply map_choose in Hne as (k & u & Hu). destruct (Ho k u Hu) as [? Hk]. by rewrite lookup_empty in Hk.
  - rewrite map_size_insert_None by done. rewrite (split_size us id). specialize (IH (filter (fun p => p.1.1 <> id) us)).
    assert (size (filter (fun p => p.1.1 <> id) us) <= size ss * n)%nat as Hle; [|specialize (Hn id); lia]. apply IH.
    + intros k u [Hu Hk]%map_lookup_filter_Some. destruct (Ho k u Hu) as [y Hy]. exists y.
      rewrite lookup_insert_ne in Hy; [done|]. intros Heq. apply Hk. cbn. by rewrite <- Heq.
    + intros j. etrans; [|exact (Hn j)]. apply map_subseteq_size, map_filter_strong_subseteq_ext.
      intros k u [? [Hu _]%map_lookup_filter_Some]. done.
Qed.

Lemma sessions_size (s : server) : inv s -> (size (sessions s) <= size (clients s))%nat.
Proof.
  intros I. pose proof (inv_sessions _ _ _ _ I) as S. set (ts := (fun p => ss_tcp_token p.2) <$> map_to_list (sessions s)).
  assert (NoDup ts) as Hnd.
  { apply NoDup_fmap_2_strong; [|apply NoDup_map_to_list].
    intros [i x] [j y] Hx%elem_of_map_to_list Hy%elem_of_map_to_list Heq. cbn in Heq.
    destruct (so_live _ _ _ S i x Hx ltac:(set_solver)) as (c & Hc & Hi & _), (so_live _ _ _ S j y Hy ltac:(set_solver)) as (d & Hd & Hj & _).
    rewrite Heq in Hc. simplify_eq. done. }
  assert (list_to_set ts ⊆ dom (clients s)) as Hsub.
  { intros t Ht%elem_of_list_to_set. apply list_elem_of_fmap in Ht as ([i x] & -> & Hx%elem_of_map_to_list). apply elem_of_dom.
    destruct (so_live _ _ _ S i x Hx ltac:(set_solver)) as (c & Hc & _). by exists c. }
  apply subseteq_size in Hsub. rewrite size_list_to_set, size_dom in Hsub by done. unfold ts in Hsub.
  by rewrite length_fmap, length_map_to_list in Hsub.
Qed.

Lemma names_size (s : server) : inv s ->
  (size (reserved_file_names s) <= MAX_CLIENTS * MAX_ACTIVE_UPLOADS_PER_SESSION)%nat.
Proof.
  intros I. pose proof (inv_uploads _ _ _ _ I) as U. pose proof (sessions_size s I) as Hs.
  pose proof (sl_clients _ _ (inv_slots _ _ _ _ I)) as Hc.
  pose proof (owned_size (active_uploads s) (sessions s) _ (uo_owner _ _ _ _ U) (uo_cap _ _ _ _ U)) as Hu.
  assert (size (reserved_file_names s) <= size (active_uploads s))%nat as Hn; [|unfold MAX_CLIENTS in *; nia].
  set (ns := (fun p => up_file_name p.2) <$> map_to_list (active_uploads s)).
  assert (NoDup ns) as Hnd.
  { apply NoDup_fmap_2_strong; [|apply NoDup_map_to_list].
    intros [i x] [j y] Hx%elem_of_map_to_list Hy%elem_of_map_to_list Heq. cbn in Heq.
    pose proof (uo_distinct _ _ _ _ U _ _ _ _ Hx Hy Heq). simplify_eq. done. }
  assert (reserved_file_names s ⊆ list_to_set ns) as Hsub.
  { intros n Hn. destruct (uo_names _ _ _ _ U n Hn) as (k & u & Hu' & <-). apply elem_of_list_to_set, list_elem_of_fmap.
    exists (k, u). by rewrite elem_of_map_to_list. }
  apply subseteq_size in Hsub. rewrite size_list_to_set in Hsub by done. unfold ns in Hsub.
  by rewrite length_fmap, length_map_to_list in Hsub.
Qed.

(** ** Uploads *)

(** The session, when it is still there, may see the room. *)
Definition sees (s : server) (r id : Z) : Prop := forall x, sessions s !! id = Some x -> may_see (rooms s) (ss_user_id x) r.
Definition recipients_ok (s : server) (r : Z) (R : gset Z) : Prop := forall id, id ∈ R -> id < next_session s /\ sees s r id.

Lemma sees_kept k (s s' : server) r id : kept k s s' -> sees s r id -> sees s' r id.
Proof.
  intros K Hs y Hy. destruct (kp_sessions _ _ _ K id y Hy) as (x & Hx & (-> & _)). by apply (kept_may_see _ _ _ _ _ K), Hs.
Qed.

Lemma recipients_kept k (s s' : server) r R : kept k s s' -> recipients_ok s r R -> recipients_ok s' r R.
Proof. intros K HR id Hid. rewrite (kp_next_session _ _ _ K). destruct (HR id Hid). eauto using sees_kept. Qed.

Lemma recipients_subset (s : server) r (R R' : gset Z) : R' ⊆ R -> recipients_ok s r R -> recipients_ok s r R'.
Proof. intros Hs HR id Hid. by apply HR, Hs. Qed.

Lemma recipients_of (s : server) key u : inv s -> active_uploads s !! key = Some u -> recipients_ok s (up_room_id u) (up_recipients u).
Proof.
  intros I Hu id Hid. split.
  - by eapply (id_recipients _ _ _ _ _ _ _ _ _ _ (inv_ids _ _ _ _ I)).
  - intros x Hx. by eapply (uo_allowed _ _ _ _ (inv_uploads _ _ _ _ I)).
Qed.

Lemma uploads_cap_insert (us : gmap (Z * Z) ServerUpload) key u id :
  us !! key = None -> (id = key.1 -> size (filter (fun p => p.1.1 = id) us) < MAX_ACTIVE_UPLOADS_PER_SESSION)%nat ->
  (size (filter (fun p => p.1.1 = id) us) <= MAX_ACTIVE_UPLOADS_PER_SESSION)%nat ->
  (size (filter (fun p => p.1.1 = id) (<[key := u]> us)) <= MAX_ACTIVE_UPLOADS_PER_SESSION)%nat.
Proof.
  intros Hk Hlt Hle. destruct (decide (key.1 = id)) as [Heq|Hne].
  - rewrite map_filter_insert_True by done. rewrite map_size_insert_None; [specialize (Hlt (eq_sym Heq)); lia|].
    apply map_lookup_filter_None. by left.
  - rewrite map_filter_insert_not by (intros ? ?; cbn in *; congruence). done.
Qed.

Lemma insert_upload_kept (s : server) key u :
  inv s -> active_uploads s !! key = None -> is_Some (sessions s !! key.1) -> up_file_name u ∉ reserved_file_names s ->
  (size (filter (fun p => p.1.1 = key.1) (active_uploads s)) < MAX_ACTIVE_UPLOADS_PER_SESSION)%nat ->
  recipients_ok s (up_room_id u) (up_recipients u) ->
  kept 0 s (set_active_uploads (<[key := u]> (active_uploads s))
              (set_reserved_file_names ({[up_file_name u]} ∪ reserved_file_names s) s)).
Proof.
  intros I Hk Hown Hn Hcap HR. split; cbn; try done; [|lia|by eauto]. split; cbn; try keep I.
  - pose proof (inv_uploads _ _ _ _ I) as U. split.
    + intros k w [[<- <-]|[Hne Hw]]%lookup_insert_Some; [done|]. by eapply (uo_owner _ _ _ _ U).
    + intros k w [[<- <-]|[Hne Hw]]%lookup_insert_Some; [set_solver|]. apply elem_of_union_r. by eapply (uo_named _ _ _ _ U).
    + intros n [->%elem_of_singleton|Hin]%elem_of_union; [exists key, u; by rewrite lookup_insert_eq|].
      destruct (uo_names _ _ _ _ U n Hin) as (k & w & Hw & <-). exists k, w. rewrite lookup_insert_ne by congruence. done.
    + intros k1 k2 u1 u2 [[<- <-]|[Hne1 Hu1]]%lookup_insert_Some [[<- <-]|[Hne2 Hu2]]%lookup_insert_Some Heq; try done.
      * destruct Hn. rewrite Heq. by eapply (uo_named _ _ _ _ U).
      * destruct Hn. rewrite <- Heq. by eapply (uo_named _ _ _ _ U).
      * by eapply (uo_distinct _ _ _ _ U).
    + intros k w id x [[<- <-]|[Hne Hw]]%lookup_insert_Some Hid Hx; [by eapply HR|]. by eapply (uo_allowed _ _ _ _ U).
    + intros id. apply uploads_cap_insert; [done|by intros ->|apply U].
  - pose proof (inv_ids _ _ _ _ I) as J. split; try apply J.
    intros k w id [[<- <-]|[Hne Hw]]%lookup_insert_Some Hid; [by apply HR|]. by eapply (id_recipients _ _ _ _ _ _ _ _ _ _ J).
Qed.

Lemma change_upload_kept (s : server) key u w :
  inv s -> active_uploads s !! key = Some u -> up_file_name w = up_file_name u -> recipients_ok s (up_room_id w) (up_recipients w) ->
  kept 0 s (set_active_uploads (<[key := w]> (active_uploads s)) s).
Proof.
  intros I Hu Hn HR. split; cbn; try done; [|lia|by eauto]. split; cbn; try keep I.
  - pose proof (inv_uploads _ _ _ _ I) as U. split.
    + intros k v [[<- <-]|[Hne Hv]]%lookup_insert_Some; by eapply (uo_owner _ _ _ _ U).
    + intros k v [[<- <-]|[Hne Hv]]%lookup_insert_Some; [rewrite Hn|]; by eapply (uo_named _ _ _ _ U).
    + intros n Hin. destruct (uo_names _ _ _ _ U n Hin) as (k & v & Hv & <-). destruct (decide (key = k)) as [<-|Hne].
      * exists key, w. rewrite lookup_insert_eq. by simplify_eq.
      * exists k, v. by rewrite lookup_insert_ne.
    + intros k1 k2 u1 u2 [[<- <-]|[Hne1 Hu1]]%lookup_insert_Some [[<- <-]|[Hne2 Hu2]]%lookup_insert_Some Heq; try done;
        rewrite ?Hn in Heq; by eapply (uo_distinct _ _ _ _ U).
    + intros k v id x [[<- <-]|[Hne Hv]]%lookup_insert_Some Hid Hx; [by eapply HR|]. by eapply (uo_allowed _ _ _ _ U).
    + intros id. etrans; [|exact (uo_cap _ _ _ _ U id)]. apply Nat.eq_le_incl. rewrite <- !size_dom. f_equal. apply set_eq. intros k.
      rewrite !elem_of_dom. unfold is_Some. setoid_rewrite map_lookup_filter_Some. cbn.
      destruct (decide (key = k)) as [<-|Hne]; [rewrite lookup_insert_eq, Hu; naive_solver|by rewrite lookup_insert_ne].
  - pose proof (inv_ids _ _ _ _ I) as J. split; try apply J.
    intros k v id [[<- <-]|[Hne Hv]]%lookup_insert_Some Hid; [by apply HR|]. by eapply (id_recipients _ _ _ _ _ _ _ _ _ _ J).
Qed.

Lemma alter_upload_kept (s : server) key f :
  inv s -> (forall u, active_uploads s !! key = Some u ->
              up_file_name (f u) = up_file_name u /\ recipients_ok s (up_room_id (f u)) (up_recipients (f u))) ->
  kept 0 s (set_active_uploads (alter f key (active_uploads s)) s).
Proof.
  intros I Hf. destruct (active_uploads s !! key) as [u|] eqn:Hu.
  - destruct (Hf u eq_refl) as [Hn HR]. rewrite (alter_some _ _ _ _ Hu). by eapply change_upload_kept.
  - rewrite (alter_none _ _ _ Hu). replace (set_active_uploads (active_uploads s) s) with s by by destruct s. by apply kept_refl.
Qed.

Lemma notify_declined_kept (s : server) key reason : inv s -> keeps 0 s (notify_upload_declined enc now key reason s).
Proof.
  intros I. unfold notify_upload_declined. destruct (active_uploads s !! key); [|by apply keeps_id].
  case_match; [by apply keeps_id|]. case_match; [|by apply keeps_id].
  apply (keeps_bind 0 0); [by apply tell_unscoped|]. intros s1 K. pose proof (kp_inv _ _ _ K) as I1.
  eexists. split; [reflexivity|]. apply alter_upload_kept; [done|]. intros w Hw. split; [done|]. cbn. by eapply recipients_of.
Qed.

Lemma relay_chunk_kept c l : forall (s : server) gone, inv s -> scope c = [] -> keeps_res 0 s (relay_chunk enc now c l gone s).
Proof.
  induction l as [|r l IH]; intros s gone I Hc; [by apply keeps_res_id|]. cbn [relay_chunk].
  case_match; [|by apply IH]. apply (keeps_res_bind 0 0); [by apply tell_unscoped|]. intros s1 K. apply IH; [apply K|done].
Qed.

Lemma receive_chunk_kept (s : server) id tid o d : inv s -> keeps_res 0 s (receive_file_chunk enc now id tid o d s).
Proof.
  intros I. unfold receive_file_chunk. case_decide; [by apply keeps_res_id|].
  destruct (active_uploads s !! (id, tid)) as [u|] eqn:Hu; [|by apply keeps_res_id]. case_decide; [by apply keeps_res_id|].
  case_decide; [by apply keeps_res_id|]. cbv zeta.
  match goal with |- context [<[(id, tid) := ?w]> _] => assert (kept 0 s (set_active_uploads (<[(id, tid) := w]> (active_uploads s)) s)) as K end.
  { eapply change_upload_kept; [done..|]. cbn. by eapply recipients_of. }
  apply (keeps_res_step 0 0 _ _ _ K). pose proof (kp_inv _ _ _ K) as I1. case_decide; [by apply keeps_done, notify_declined_kept|].
  apply (keeps_res_then 0 0); [by apply relay_chunk_kept|]. intros s2 gone K2. pose proof (kp_inv _ _ _ K2) as I2.
  match goal with |- context [alter ?f (id, tid) _] => assert (kept 0 s2 (set_active_uploads (alter f (id, tid) (active_uploads s2)) s2)) as K3 end.
  { apply alter_upload_kept; [done|]. intros w Hw. split; [done|]. cbn.
    eapply recipients_subset; [|by eapply recipients_of]. set_solver. }
  apply (keeps_res_step 0 0 _ _ _ K3), keeps_done, notify_declined_kept, K3.
Qed.

Lemma remove_upload_kept (s : server) key u :
  inv s -> active_uploads s !! key = Some u ->
  kept 0 s (set_reserved_file_names (reserved_file_names s ∖ {[up_file_name u]})
              (set_active_uploads (delete key (active_uploads s)) s)).
Proof. intros I Hu. destruct (remove_upload_inv enc ∅ ∅ s key u I Hu) as [I1 S1]. by eapply kept_shrinks. Qed.

Lemma send_canceled_kept (s : server) u reason : inv s -> keeps 0 s (send_file_canceled enc disc u reason s).
Proof. intros I. eapply keeps_runs, (send_canceled_ok enc (S (size (clients s)))); [apply disconnect_ok|lia|done]. Qed.

Lemma cancel_kept (s : server) id tid reason : inv s -> keeps 0 s (cancel_file_upload enc disc id tid reason s).
Proof.
  intros I. unfold cancel_file_upload. destruct (active_uploads s !! (id, tid)) as [u|] eqn:Hu; [|by apply keeps_id].
  pose proof (remove_upload_kept s _ u I Hu) as K. apply (keeps_step 0 0 _ _ _ K). apply send_canceled_kept, K.
Qed.

Lemma complete_kept (s : server) id tid : inv s -> keeps_res 0 s (complete_file_upload enc now id tid s).
Proof.
  intros I. unfold complete_file_upload. destruct (active_uploads s !! (id, tid)) as [u|] eqn:Hu; [|by apply keeps_res_id].
  pose proof (remove_upload_kept s _ u I Hu) as K. cbv zeta. apply (keeps_res_step 0 0 _ _ _ K). pose proof (kp_inv _ _ _ K) as I1.
  case_match.
  - apply (keeps_res_bind 0 0); [by apply send_canceled_kept|]. intros s2 K2. apply keeps_res_id, K2.
  - apply keeps_done, sends_kept; [done|]. intros t _. by apply tellable_unscoped.
Qed.

Lemma skip_kept (s : server) id tid : inv s -> keeps 0 s (skip_file_download enc now id tid s).
Proof.
  intros I. unfold skip_file_download. destruct (filter _ _) as [|[key u] l] eqn:Hf; [by apply keeps_id|].
  case_decide; [|by apply keeps_id].
  assert ((key, u) ∈ filter (fun p => up_server_transfer_id p.2 = tid) (hash_iter (active_uploads s))) as Hin by (rewrite Hf; left).
  apply list_elem_of_filter in Hin as [_ Hu%elem_of_hash_iter].
  match goal with |- context [<[key := ?w]> _] => assert (kept 0 s (set_active_uploads (<[key := w]> (active_uploads s)) s)) as K end.
  { eapply change_upload_kept; [done..|]. cbn. eapply recipients_subset; [|by eapply recipients_of]. set_solver. }
  apply (keeps_step 0 0 _ _ _ K), notify_declined_kept, K.
Qed.

(** Nothing is added to the uploads. *)
Definition tidy (s s' : server) : Prop := kept 0 s s' /\ active_uploads s' ⊆ active_uploads s.

Lemma tidy_refl s : inv s -> tidy s s.
Proof. split; [by apply kept_refl|done]. Qed.

Lemma tidy_trans s1 s2 s3 : tidy s1 s2 -> tidy s2 s3 -> tidy s1 s3.
Proof. intros [A1 A2] [B1 B2]. split; [by apply (kept_trans 0 0 _ _ _ A1)|by etrans]. Qed.

Lemma tidy_shrinks X (s s' : server) : inv s' -> shrinks X s s' -> tidy s s'.
Proof. intros I S. split; [by eapply kept_shrinks|apply S]. Qed.

Lemma send_tidy (s : server) t m : inv s -> tellable s t m ->
  exists s' r, send_control_to_token enc disc t m s = Some (s', r) /\ tidy s s'.
Proof.
  intros I Ht.
  destruct (queue_ok enc (S (size (clients s))) disc (disconnect_ok enc now _) ∅ ∅ s t m) as (s' & r & E & I' & S'); [lia|done|done|].
  exists s', r. split; [done|by eapply tidy_shrinks].
Qed.

Lemma offer_kept file members : forall (s : server) R,
  inv s -> (forall m, m ∈ members -> sees s (fm_room_id file) m) ->
  exists s' R', offer_file enc now file members R s = Some (s', R') /\ tidy s s' /\ R' ⊆ R.
Proof.
  induction members as [|m members IH]; intros s R I Hm; [exists s, R; by eauto using tidy_refl|]. cbn [offer_file].
  destruct (live_token_for_session s m) as [t|] eqn:Ht.
  2: { apply IH; [done|]. intros q Hq. apply Hm. by right. }
  destruct (send_tidy s t (FileOffered file (bool_decide (m ∈ R))) I) as (s1 & r & E & T1).
  { eapply tellable_session; [done..|]. intros x q Hx ->%list_elem_of_singleton. apply (Hm m); [by left|done]. }
  unfold tell, ignoring. rewrite E. cbn [mbind option_bind].
  match goal with |- context [offer_file enc now file members ?R1 s1] => destruct (IH s1 R1) as (s2 & R2 & -> & T2 & HR) end.
  - apply T1.
  - intros q Hq. eapply sees_kept; [apply T1|]. apply Hm. by right.
  - exists s2, R2. split_and!; [done|by eapply tidy_trans|]. etrans; [exact HR|]. case_match; set_solver.
Qed.

Lemma record_kept (s : server) id tid r m (sealed : bool) :
  inv s -> ordinary m -> room_id m = r ->
  exists s' stored,
    (if sealed then Some (s, true)
     else '(st, res) ← store_try_append (store s) r m;
          let s := set_store st s in
          match res with
          | Err _ => s ← cancel_file_upload enc disc id tid (ascii_bytes "durable history is busy; retry shortly") s; Some (s, false)
          | Ok _ => s ← broadcast_control enc disc r (Chat m) s; Some (s, true)
          end) = Some (s', stored) /\ kept 0 s s' /\ (stored = true -> active_uploads s' ⊆ active_uploads s).
Proof.
  intros I Hm Hr. destruct sealed; [exists s, true; by eauto using kept_refl|].
  destruct (store_appends (store s) r m Hm) as [[st res] ->]. cbn [mbind option_bind]. cbv zeta.
  pose proof (set_store_kept s st I) as K. pose proof (kp_inv _ _ _ K) as I1. destruct res as [n|e].
  - unfold broadcast_control. destruct (broadcast_ok enc (S (size (clients (set_store st s)))) disc (disconnect_ok enc now _) ∅ ∅ (set_store st s) r (Chat m) None)
      as (s2 & -> & I2 & S2); [lia|done|cbn; rewrite Hr; intros q; by rewrite list_elem_of_singleton|].
    cbn [mbind option_bind]. exists s2, true. split; [done|]. split; [|intros _; apply (sh_uploads _ _ _ S2)].
    apply (kept_trans 0 0 _ _ _ K). by eapply kept_shrinks.
  - destruct (cancel_kept (set_store st s) id tid (ascii_bytes "durable history is busy; retry shortly") I1) as (s2 & -> & K2).
    cbn [mbind option_bind]. exists s2, false. split; [done|]. split; [by apply (kept_trans 0 0 _ _ _ K)|done].
Qed.

Lemma announce_upload_kept (s : server) id tid t file m members R sealed :
  inv s -> tellable s t (UploadFileAccepted tid file) -> ordinary m -> room_id m = fm_room_id file ->
  (forall j, j ∈ members -> sees s (fm_room_id file) j) -> recipients_ok s (fm_room_id file) R ->
  (forall u, active_uploads s !! (id, tid) = Some u -> up_room_id u = fm_room_id file) ->
  keeps_res 0 s (announce_upload enc now id tid t file m members R sealed s).
Proof.
  intros I Ht Hm Hr Hmem HR Hup. unfold announce_upload. destruct (send_tidy s t _ I Ht) as (s1 & acc & -> & [K1 U1]).
  cbn [mbind option_bind]. apply (keeps_res_step 0 0 _ _ _ K1). pose proof (kp_inv _ _ _ K1) as I1. case_match.
  { apply (keeps_res_bind 0 0); [by apply cancel_kept|]. intros s2 K2. apply keeps_res_id, K2. }
  pose proof (record_kept s1 id tid (fm_room_id file) m sealed I1 Hm Hr) as Hrec. cbn [mbind option_bind] in Hrec.
  destruct Hrec as (s2 & stored & -> & K2 & U2). cbn [mbind option_bind].
  apply (keeps_res_step 0 0 _ _ _ K2). pose proof (kp_inv _ _ _ K2) as I2.
  destruct stored; cbn [negb orb]; [|by apply keeps_res_id]. case_match; [by apply keeps_res_id|].
  pose proof (kept_trans 0 0 _ _ _ K1 K2) as K12.
  match goal with |- context [offer_file enc now file members ?R1 s2] =>
    destruct (offer_kept file members s2 R1 I2) as (s3 & R3 & -> & [K3 U3] & HR3) end.
  { intros j Hj. by eapply sees_kept, Hmem. }
  cbn [mbind option_bind]. apply (keeps_res_step 0 0 _ _ _ K3). pose proof (kp_inv _ _ _ K3) as I3.
  assert (kept 0 s3 (set_active_uploads (alter (set_recipients R3) (id, tid) (active_uploads s3)) s3)) as K4.
  { apply alter_upload_kept; [done|]. intros u Hu. split; [done|]. cbn. rewrite (Hup u).
    - eapply recipients_subset; [|eapply recipients_kept; [exact K3|eapply recipients_kept; [exact K12|exact HR]]]. set_solver.
    - eapply lookup_weaken; [exact Hu|]. etrans; [exact U3|]. etrans; [by apply U2|done]. }
  cbv zeta. apply (keeps_res_step 0 0 _ _ _ K4). pose proof (kp_inv _ _ _ K4) as I4.
  destruct members; [by apply keeps_res_id|by apply keeps_done, notify_declined_kept].
Qed.

Lemma hash_keys_count (us : gmap (Z * Z) ServerUpload) id :
  length (filter (fun k => k.1 = id) (hash_keys us)) = size (filter (fun p => p.1.1 = id) us).
Proof.
  assert (list_to_set (filter (fun k => k.1 = id) (hash_keys us)) = dom (filter (fun p => p.1.1 = id) us)) as Hd.
  { apply set_eq. intros k. rewrite elem_of_list_to_set, list_elem_of_filter, elem_of_hash_keys, elem_of_dom. unfold is_Some.
    setoid_rewrite map_lookup_filter_Some. cbn. naive_solver. }
  rewrite <- size_dom, <- Hd, size_list_to_set; [done|]. apply NoDup_filter. unfold hash_keys.
  rewrite hash_iter_perm. apply NoDup_fst_map_to_list.
Qed.

Lemma upload_refusal_none (s : server) id r tid n e m :
  upload_refusal s id r tid n e m = None ->
  active_uploads s !! (id, tid) = None /\
  (size (filter (fun p => p.1.1 = id) (active_uploads s)) < MAX_ACTIVE_UPLOADS_PER_SESSION)%nat.
Proof.
  unfold upload_refusal. rewrite hash_keys_count. cbv zeta.
  do 4 (lazymatch goal with |- (if ?b then _ else _) = None -> _ => destruct b; [done|] end).
  case_decide as Hk; [done|]. case_decide; [done|]. intros _. split; [|lia]. by apply eq_None_not_Some.
Qed.

Lemma file_message_ordinary (s : server) requested name n u f d tf :
  inv s -> names_ok s -> len requested < 2 ^ 31 -> is_u 64 n ->
  (length name <= length (sanitize_file_name requested) + size (reserved_file_names s) + 4)%nat ->
  ordinary {| message_id := d; room_id := f; sender := u; sender_name := username_of s u; timestamp_ms := now_ms;
              body := ascii_bytes "sent file `" ++ name ++ ascii_bytes "` (" ++ format_bytes n ++ ascii_bytes ")";
              file_transfer_id := Some tf; flags := 0; target := None |}.
Proof.
  intros I Hn Hreq Hu Hname. split; [apply Hn|]. cbn [body]. pose proof (names_size s I) as Hsz. unfold MAX_CLIENTS, MAX_ACTIVE_UPLOADS_PER_SESSION in Hsz.
  pose proof (sanitize_length requested). pose proof (format_bytes_length n Hu). unfold len in *.
  rewrite !length_app. change (length (ascii_bytes "sent file `")) with 11%nat. change (length (ascii_bytes "` (")) with 3%nat.
  change (length (ascii_bytes ")")) with 1%nat. lia.
Qed.

Lemma start_upload_kept (s : server) id r tid name n e m :
  inv s -> names_ok s -> len name < 2 ^ 31 -> is_u 64 n -> keeps_res 0 s (start_file_upload enc now now_ms id r tid name n e m s).
Proof.
  intros I Hnames Hname Hn. unfold start_file_upload.
  destruct (upload_refusal s id r tid n e m) eqn:Href; [by apply keeps_res_id|]. apply upload_refusal_none in Href as [Hkey Hcap].
  destruct (sessions s !! id) as [x|] eqn:Hx; [|by apply keeps_res_id].
  destruct (check_access_kept s id r I) as (s1 & -> & K1 & Heq). cbn [mbind option_bind].
  destruct (room_allows s id r) eqn:Hall; [rewrite Heq by done|by exists s1, (Ok ())]. clear s1 K1 Heq. cbn [negb].
  destruct (live_token_for_session s id) as [t|] eqn:Ht; [|by apply keeps_res_id].
  cbv zeta. match goal with |- context [if ?b then err _ s else _] => destruct b; [by apply keeps_res_id|] end.
  destruct (reserve_spec (reserved_file_names s) (sanitize_file_name name)) as (fname & -> & Hfresh & _ & Hlen).
  cbn [mbind option_bind]. cbn [store next_file_transfer set_next_file_transfer set_reserved_file_names].
  destruct (store_allocate_message_id (store s) r) as [st mid].
  pose proof (room_allows_see s id r x Hx Hall) as (room & Hroom & _). rewrite Hroom.
  set (ids := (filter _ (hash_iter (sessions s))).*1).
  assert (forall j, j ∈ ids -> j < next_session s /\ sees s r j) as Hids.
  { intros j Hj. apply list_elem_of_fmap in Hj as ([j' y] & -> & (Ha & Hy%elem_of_hash_iter)%list_elem_of_filter). cbn in *.
    split; [by eapply (id_sessions _ _ _ _ _ _ _ _ _ _ (inv_ids _ _ _ _ I))|]. intros z Hz. simplify_eq. by exists room. }
  set (s0 := set_store st (set_next_file_transfer (next_id 64 (next_file_transfer s)) s)).
  assert (kept 0 s s0) as K0.
  { pose proof (set_transfer_id_kept s (next_id 64 (next_file_transfer s)) I) as K. apply (kept_trans 0 0 _ _ _ K), set_store_kept, K. }
  match goal with |- context [<[(id, tid) := ?w]> _] => set (u := w) end.
  pose proof (insert_upload_kept s0 (id, tid) u (kp_inv _ _ _ K0) Hkey) as K.
  assert (recipients_ok s r (up_recipients u)) as HR.
  { intros j Hj. cbn in Hj. apply elem_of_list_to_set, list_elem_of_filter in Hj as [_ [_ Hj]%list_elem_of_filter]. by apply Hids. }
  assert (kept 0 s0 (set_active_uploads (<[(id, tid) := u]> (active_uploads s0))
            (set_reserved_file_names ({[fname]} ∪ reserved_file_names s0) s0))) as K2.
  { apply K; [by exists x|done|done|exact HR]. }
  clear K. apply (keeps_res_step 0 0 s (set_active_uploads (<[(id, tid) := u]> (active_uploads s0))
            (set_reserved_file_names ({[fname]} ∪ reserved_file_names s0) s0))); [by apply (kept_trans 0 0 _ _ _ K0)|].
  apply announce_upload_kept; [apply K2| | |done| |exact HR|].
  - refine (tellable_session enc ∅ ∅ s id t _ I Ht _). intros y q Hy ->%list_elem_of_singleton. simplify_eq. by eapply room_allows_see.
  - apply (file_message_ordinary s (sanitize_file_name name)); try done. unfold len in *. pose proof (sanitize_length name). lia.
  - intros j [_ Hj]%list_elem_of_filter. by apply Hids.
  - intros w. cbn. rewrite lookup_insert_eq. by intros [= <-].
Qed.

(** ** Any request *)

(** The texts of a request are of lengths a frame can carry. *)
Definition request_sized (c : ClientControl) : Prop :=
  match c with
  | SendChat _ b | EditChat _ _ b => len b < 2 ^ 32
  | UploadFileStart _ _ name size _ _ => len name < 2 ^ 31 /\ is_u 64 size
  | _ => True
  end.

Lemma session_control_kept (s : server) q token id c :
  inv s -> names_ok s -> has_room 1 s -> request_sized c ->
  keeps_res 1 s (handle_session_control enc random now now_ms q token id c s).
Proof.
  intros I Hn Hr Hc.
  assert (forall m : option (server * result bytes ()), keeps_res 0 s m -> keeps_res 1 s m) as Hw by (intros; by apply (keeps_res_weaken 0)).
  destruct c; cbn [handle_session_control].
  all: try (apply Hw; by apply keeps_res_id).
  - apply Hw. by apply send_chat_kept.
  - by apply Hw, keeps_done, set_voice_state_kept.
  - by apply Hw, report_kept, publish_p2p_kept.
  - apply Hw. destruct Hc. by apply start_upload_kept.
  - by apply Hw, receive_chunk_kept.
  - by apply Hw, complete_kept.
  - by apply Hw, keeps_done, cancel_kept.
  - by apply handle_start_share_kept.
  - by apply Hw, report_kept, stop_share_kept.
  - by apply Hw, send_unscoped.
  - by apply Hw, report_bug_kept, bug_start_kept.
  - by apply Hw, report_bug_kept, bug_chunk_kept.
  - by apply Hw, report_bug_kept, bug_complete_kept.
  - by apply keeps_done, join_voice_kept.
  - apply Hw, keeps_done.
    destruct (leave_voice_ok enc (S (size (clients s))) disc (disconnect_ok enc now _) ∅ ∅ s id None) as (s1 & E & I1 & S1 & _); [lia|done|].
    exists s1. split; [done|]. by eapply kept_shrinks.
  - by apply Hw, keeps_done, skip_kept.
  - apply Hw. by apply mutate_chat_kept.
  - apply Hw. by apply mutate_chat_kept.
Qed.

Lemma receive_control_kept (s : server) q token c :
  inv s -> names_ok s -> has_room 1 s -> request_sized c -> keeps 1 s (receive_control enc random now now_ms q token c s).
Proof.
  intros I Hn Hr Hc. unfold receive_control, handle_control. destruct (session_for_token s token) as [id|e].
  - destruct (session_control_kept s q token id c I Hn Hr Hc) as (s1 & res & -> & K). cbn [mbind option_bind].
    destruct res; [by exists s1|]. apply (keeps_step 1 0 _ _ _ K), disc_kept, K.
  - cbn [mbind option_bind]. apply (keeps_weaken 0); [lia|]. by apply disc_kept.
Qed.

End kept.
