(* ===== verification/ServerConnsInv.v ===== *)
(** * Connections keep the tables in order

    The operations of [ServerConns] end and keep the invariant, however much a
    socket takes of what it is offered; with them the accounting of what is queued
    is exact: sealing a message moves its charge from the connection's pending
    bytes to its write queue. *)

From stdpp Require Import sorting.
From S2P Require Import Prelude Primitives Transport Handshake Auth Media Frame Evented ControlLane Video Net History Usernames Identity.
From S2P Require Import VoiceRelay RoomLog RoomStore ServerState ServerCascade ServerInvariant ServerTeardown ServerOps ServerConns ServerNames ServerKept.

Section conns_inv.
Context {Rx Tx St : Type} `{HashOrder} `{ChatStoreLaws St} `{PrimitiveLaws} `{StreamWriter Tx}.
Context (encode_server_control : ServerControl -> bytes) (encode_server_hello : ServerHello -> bytes).
Context (random : nat -> nat -> option bytes) (now now_ms : Z) `{Unicode} (newcomer : Z -> Z -> Prop).
Abbreviation server := (Server Rx Tx St).
Abbreviation client := (ClientConn Rx Tx).
Abbreviation enc := encode_server_control.
Abbreviation inv := (inv enc ∅ ∅).
Abbreviation disc := (disconnect enc now).

(** ** Changing a connection *)

(** The stream a video connection is for, with its role and session. *)
Definition attached (c : client) : option (Z * option VideoRole * option Z) :=
  match cc_kind c with VideoKind w => i ← vc_stream_id w; Some (i, vc_role w, vc_session_id w) | _ => None end.

Lemma attached_spec (c c' : client) w i : attached c' = attached c -> cc_kind c' = VideoKind w -> vc_stream_id w = Some i ->
  exists w', cc_kind c = VideoKind w' /\ vc_stream_id w' = Some i /\ vc_role w' = vc_role w /\ vc_session_id w' = vc_session_id w.
Proof.
  unfold attached. intros Ha Hk Hi. rewrite Hk, Hi in Ha. cbn in Ha. destruct (cc_kind c) as [| |w']; try done.
  destruct (vc_stream_id w') as [j|] eqn:Hj; [|done]. cbn in Ha. simplify_eq. exists w'. by rewrite Hj.
Qed.

Definition same_seal (p p' : RecordProtection) : Prop := forall n, RecordProtection.sealed_len p' n = RecordProtection.sealed_len p n.

Lemma same_seal_cost p p' q : same_seal p p' -> lsum (control_cost enc p') q = lsum (control_cost enc p) q.
Proof. intros Hs. unfold control_cost. induction q as [|m q IH]; [done|]. cbn [lsum foldr]. unfold lsum in *. rewrite IH, Hs. done. Qed.

(** A connection stays what it has been found to be. *)
Definition told (c c' : client) : Prop :=
  (cc_kind c = ControlConn -> cc_kind c' = ControlConn) /\ (is_video c = true -> is_video c' = true).

Lemma told_same (c c' : client) : cc_kind c' = cc_kind c -> told c c'.
Proof. unfold told, is_video. by intros ->. Qed.

(** What the other tables see of a connection stays. *)
Record same_conn (c c' : client) : Prop := {
  sc_session : cc_session_id c' = cc_session_id c;
  sc_user : cc_user_id c' = cc_user_id c;
  sc_kind : is_Some (cc_session_id c) -> cc_kind c' = cc_kind c;
  sc_slot : cc_pre_auth c' = cc_pre_auth c;
  sc_addr : cc_addr c' = cc_addr c;
  sc_control : forall p, cc_control c = Some p -> exists p', cc_control c' = Some p' /\ same_seal p p';
  sc_video : is_video c' = true -> cc_control c' = None;
  sc_attached : attached c' = attached c;
  sc_told : told c c';
}.

Section change.
Context (t : Z) (c c' : client).

Lemma change_sessions (cs : gmap Z client) ss :
  cc_session_id c' = cc_session_id c -> cc_user_id c' = cc_user_id c -> (is_Some (cc_session_id c) -> cc_kind c' = cc_kind c) ->
  cs !! t = Some c -> sessions_ok ∅ cs ss -> sessions_ok ∅ (<[t := c']> cs) ss.
Proof.
  intros Hsess Huser Hkind Hc B. split.
  - intros id x Hx HD. destruct (so_live _ _ _ B id x Hx HD) as (d & Hd & Hs & Hu & Hk).
    destruct (decide (t = ss_tcp_token x)) as [Heq|Hne]; [|exists d; by rewrite lookup_insert_ne].
    rewrite <- Heq in *. simplify_eq. exists c'. rewrite lookup_insert_eq, Hsess, Huser.
    split_and!; try done. rewrite Hkind; [done|by rewrite Hs].
  - set_solver.
  - intros t' d id [[<- <-]|[Hne Hd]]%lookup_insert_Some Hs; [|by eapply (so_named _ _ _ B)].
    rewrite Hsess in Hs. by eapply (so_named _ _ _ B).
  - intros t' d [[<- <-]|[Hne Hd]]%lookup_insert_Some Hs; [|by eapply (so_user _ _ _ B)].
    rewrite Hsess in Hs. rewrite Huser. by eapply (so_user _ _ _ B).
Qed.

Lemma change_streams (cs : gmap Z client) ss vs :
  attached c' = attached c -> cs !! t = Some c -> streams_ok ∅ cs ss vs -> streams_ok ∅ (<[t := c']> cs) ss vs.
Proof.
  intros Hat Hc V i v Hi. pose proof (V i v Hi) as B.
  assert (forall t' d w, <[t := c']> cs !! t' = Some d -> cc_kind d = VideoKind w -> vc_stream_id w = Some i ->
    exists d' w', cs !! t' = Some d' /\ cc_kind d' = VideoKind w' /\ vc_stream_id w' = Some i /\ vc_role w' = vc_role w /\
      vc_session_id w' = vc_session_id w) as Hback.
  { intros t' d w [[<- <-]|[Hne Hd]]%lookup_insert_Some Hk Hs; [|by eauto 10].
    destruct (attached_spec c c' w i Hat Hk Hs) as (w' & ?). eauto. }
  assert (forall t' d w, cs !! t' = Some d -> cc_kind d = VideoKind w -> vc_stream_id w = Some i ->
    exists d' w', <[t := c']> cs !! t' = Some d' /\ cc_kind d' = VideoKind w' /\ vc_stream_id w' = Some i /\ vc_role w' = vc_role w /\
      vc_session_id w' = vc_session_id w) as Hforth.
  { intros t' d w Hd Hk Hs. destruct (decide (t = t')) as [<-|Hne]; [|exists d, w; by rewrite lookup_insert_ne].
    simplify_eq. destruct (attached_spec c' c w i (eq_sym Hat) Hk Hs) as (w' & ?).
    exists c', w'. by rewrite lookup_insert_eq. }
  split; try apply B.
  - intros t' Ht. destruct (vo_watched _ _ _ _ _ B t' Ht) as (d & w & id & Hd & Hk & Hs & Hr & Hid & Hin).
    destruct (Hforth t' d w Hd Hk Hs) as (d' & w' & Hd' & Hk' & Hs' & Hr' & Hid'). exists d', w', id. split_and!; congruence || done.
  - intros t' Ht. destruct (vo_published _ _ _ _ _ B t' Ht) as (d & w & Hd & Hk & Hs & Hr & Hid).
    destruct (Hforth t' d w Hd Hk Hs) as (d' & w' & Hd' & Hk' & Hs' & Hr' & Hid'). exists d', w'. split_and!; congruence || done.
  - intros t' d w id Hd Hk Hs Hr Hid. destruct (Hback t' d w Hd Hk Hs) as (d' & w' & Hd' & Hk' & Hs' & Hr' & Hid').
    eapply (vo_viewer _ _ _ _ _ B); [exact Hd'|exact Hk'|done|congruence|congruence].
  - intros t' d w Hd Hk Hs Hr. destruct (Hback t' d w Hd Hk Hs) as (d' & w' & Hd' & Hk' & Hs' & Hr' & Hid').
    rewrite <- Hid'. eapply (vo_owned _ _ _ _ _ B); [exact Hd'|exact Hk'|done|congruence].
Qed.

Lemma change_outbound (cs : gmap Z client) pend bs total wtotal tokens set :
  (forall p, cc_control c = Some p -> exists p', cc_control c' = Some p' /\ same_seal p p') ->
  (is_video c' = true -> cc_control c' = None) ->
  cs !! t = Some c -> outbound_ok enc cs pend bs total wtotal tokens set ->
  (is_video c' = false -> write_len c' + default 0 (bs !! t) <= CONTROL_WRITE_HIGH_WATER) ->
  outbound_ok enc (<[t := c']> cs) pend bs total (wtotal + (write_len c' - write_len c)) tokens set.
Proof.
  intros Hctl Hvid Hc O Hcap. split; try apply O.
  - intros t' q Hq. destruct (ob_queued _ _ _ _ _ _ _ _ O t' q Hq) as (Hne & d & p & Hd & Hp & Hb). split; [done|].
    destruct (decide (t = t')) as [<-|Hnt]; [|exists d, p; by rewrite lookup_insert_ne]. simplify_eq.
    destruct (Hctl p Hp) as (p' & Hp' & Hs). exists c', p'. rewrite lookup_insert_eq, (same_seal_cost _ _ _ Hs). done.
  - rewrite (msum_insert_some _ _ _ _ _ Hc), (ob_written _ _ _ _ _ _ _ _ O). lia.
  - intros t' d [[<- <-]|[Hne Hd]]%lookup_insert_Some Hv; [by apply Hcap|]. by apply (ob_capped _ _ _ _ _ _ _ _ O).
  - intros t' d [[<- <-]|[Hne Hd]]%lookup_insert_Some Hv; [by apply Hvid|]. by eapply (ob_video _ _ _ _ _ _ _ _ O).
  - intros t' Ht. destruct (ob_stale _ _ _ _ _ _ _ _ O t' Ht) as [?|Hn]; [by left|right].
    rewrite lookup_insert_ne; [done|]. intros <-. congruence.
Qed.

Lemma change_slots (cs : gmap Z client) p :
  same_conn c c' -> cs !! t = Some c -> slots_ok cs p -> slots_ok (<[t := c']> cs) p.
Proof.
  intros Hsame Hc S. split; try apply S.
  - rewrite (msum_insert_some _ _ _ _ _ Hc), (sl_held _ _ S). unfold holds_slot. rewrite (sc_slot _ _ Hsame). lia.
  - intros a. rewrite (msum_insert_some _ _ _ _ _ Hc), (sl_per_ip _ _ S). unfold holds_slot_of.
    rewrite (sc_slot _ _ Hsame), (sc_addr _ _ Hsame). lia.
  - rewrite map_size_insert_Some by (by eexists). apply S.
Qed.

Lemma change_ids (cs : gmap Z client) tokens ss links us rs vs nt ns nx :
  attached c' = attached c -> cs !! t = Some c -> ids_ok cs tokens ss links us rs vs nt ns nx -> ids_ok (<[t := c']> cs) tokens ss links us rs vs nt ns nx.
Proof.
  intros Hat Hc J. split; try apply J.
  - intros t' d [[<- <-]|[Hne Hd]]%lookup_insert_Some; by eapply (id_tokens _ _ _ _ _ _ _ _ _ _ J).
  - intros t' d w i [[<- <-]|[Hne Hd]]%lookup_insert_Some Hk Hi; [|by eapply (id_video _ _ _ _ _ _ _ _ _ _ J)].
    destruct (attached_spec c c' w i Hat Hk Hi) as (w' & Hk' & Hi' & _).
    by eapply (id_video _ _ _ _ _ _ _ _ _ _ J).
Qed.

Lemma change_relayed (cs : gmap Z client) fs nt :
  attached c' = attached c -> cs !! t = Some c -> relayed_ok cs fs nt -> relayed_ok (<[t := c']> cs) fs nt.
Proof.
  intros Hat Hc R. eapply Forall_impl; [exact R|]. intros f [Hd Hv]. split; [done|]. intros t' Ht'. destruct (Hv t' Ht') as [Hlt Hview].
  split; [done|]. intros d [[<- <-]|[Hne Hd']]%lookup_insert_Some; [|by apply Hview].
  destruct (Hview c Hc) as (w & Hk & Hi & Hr). destruct (attached_spec c' c w _ (eq_sym Hat) Hk Hi) as (w' & Hk' & Hi' & Hr' & _).
  exists w'. by rewrite Hr'.
Qed.

End change.

(** The state with the connection replaced and the bytes counted. *)
Definition replaced (t : Z) (c c' : client) (s : server) : server :=
  set_write_queue_total_bytes (write_queue_total_bytes s + (write_len c' - write_len c)) (set_clients (<[t := c']> (clients s)) s).

Lemma replaced_inv (s : server) t c c' :
  inv s -> clients s !! t = Some c -> same_conn c c' -> conn_ok c' ->
  (is_video c' = false -> write_len c' + default 0 (pending_control_bytes s !! t) <= CONTROL_WRITE_HIGH_WATER) ->
  inv (replaced t c c' s).
Proof.
  intros I Hc Hs Hok Hcap. split; cbn; try keep I.
  - by eapply change_sessions; [apply Hs..|done|apply I].
  - by eapply change_streams; [apply Hs|done|apply I].
  - by eapply change_outbound; [apply Hs|apply Hs|done|apply I|].
  - intros t' q d m Hq [[<- <-]|[Hne Hd]]%lookup_insert_Some Hm r Hr; [|by eapply (inv_allowed _ _ _ _ I)].
    rewrite (sc_user _ _ Hs). by eapply (inv_allowed _ _ _ _ I).
  - by eapply change_slots; [| |apply I].
  - apply map_Forall_insert_2; [done|apply I].
  - by eapply change_relayed; [apply Hs|done|apply I].
  - by eapply change_ids; [apply Hs|done|apply I].
Qed.

(** ** What an operation may change *)

(** As [kept], but connections may come, and sessions: those of a user and a
    connection that satisfy [newcomer].  The names may change. *)
Definition no_strangers (ss ss' : gmap Z Session) : Prop := forall id y, ss' !! id = Some y ->
  newcomer (ss_user_id y) (ss_tcp_token y) \/
  exists x, ss !! id = Some x /\ ss_user_id x = ss_user_id y /\ ss_tcp_token x = ss_tcp_token y.

Lemma no_strangers_refl ss : no_strangers ss ss.
Proof. intros id y Hy. right. eauto. Qed.

Lemma no_strangers_trans s1 s2 s3 : no_strangers s1 s2 -> no_strangers s2 s3 -> no_strangers s1 s3.
Proof.
  intros A B id z Hz. destruct (B id z Hz) as [?|(y & Hy & Hu & Ht)]; [by left|]. rewrite <- Hu, <- Ht. by apply A.
Qed.

#[local] Hint Resolve no_strangers_refl : core.

(** Connections stay what they are once they have been told apart. *)
Definition kinds_kept (cs : gmap Z client) (n : Z) (cs' : gmap Z client) (n' : Z) : Prop :=
  n <= n' /\ forall t d, cs' !! t = Some d -> n <= t \/ exists c, cs !! t = Some c /\ told c d.

Lemma kinds_refl cs n : kinds_kept cs n cs n.
Proof. split; [lia|]. intros t d Hd. right. exists d. by split. Qed.

Lemma kinds_trans cs1 n1 cs2 n2 cs3 n3 : kinds_kept cs1 n1 cs2 n2 -> kinds_kept cs2 n2 cs3 n3 -> kinds_kept cs1 n1 cs3 n3.
Proof.
  intros [Hn A] [Hm B]. split; [lia|]. intros t d Hd. destruct (B t d Hd) as [Hb|(c & Hc & Hcd)]; [left; lia|].
  destruct (A t c Hc) as [Ha|(b & Hb & Hbc)]; [by left|]. right. exists b. split; [done|]. unfold told in *. naive_solver.
Qed.

Lemma kinds_subset cs n cs' n' : cs' ⊆ cs -> n <= n' -> kinds_kept cs n cs' n'.
Proof. intros Hs Hn. split; [done|]. intros t d Hd. right. exists d. split; [by eapply lookup_weaken|done]. Qed.

Lemma kinds_insert cs n n' t c c' : cs !! t = Some c -> told c c' -> n <= n' -> kinds_kept cs n (<[t := c']> cs) n'.
Proof. intros Hc Hk Hn. split; [done|]. intros t' d [[<- <-]|[_ Hd]]%lookup_insert_Some; right; [by eauto|]. exists d. by split. Qed.

Lemma kinds_new cs n c : kinds_kept cs n (<[n := c]> cs) (n + 1).
Proof. split; [lia|]. intros t d [[<- <-]|[_ Hd]]%lookup_insert_Some; [left; lia|right]. exists d. by split. Qed.

(** What waits for the identity writer: whoever it is for has proven who it is, and
    an explicit name is still free for it. *)
Definition claim_ok (names : UsernameRegistry) (t : Z) (p : PendingIdentity) : Prop :=
  match p with
  | DynamicAuthentication name e | OpenPairing name e => newcomer (Identity.user_id (pe_user e)) t /\ Forall Utf8.scalar name
  | ExplicitRename _ e fallback =>
      newcomer (Identity.user_id (pe_user e)) t /\ newcomer (Identity.user_id (pe_user fallback)) t /\
      name_ok (user_name (pe_user e)) /\ UsernameRegistry.is_available names (user_name (pe_user e)) (Some (Identity.user_id (pe_user e))) = true
  | InvitePairing _ _ e =>
      newcomer (Identity.user_id (pe_user e)) t /\
      name_ok (user_name (pe_user e)) /\ UsernameRegistry.is_available names (user_name (pe_user e)) (Some (Identity.user_id (pe_user e))) = true
  end.

Definition names_fine (s : server) : Prop :=
  registry_wf (usernames s) /\ forall t p, pending_identity s = Some (t, p) -> claim_ok (usernames s) t p.

Record moved (k : Z) (s s' : server) : Prop := {
  mv_inv : inv s';
  mv_rooms : same_access (rooms s) (rooms s');
  mv_streams : next_stream s <= next_stream s' <= next_stream s + k;
  mv_config : config s' = config s;
  mv_names : names_fine s -> names_fine s';
  mv_sessions : no_strangers (sessions s) (sessions s');
  mv_kinds : kinds_kept (clients s) (next_token s) (clients s') (next_token s');
}.

#[local] Hint Resolve kinds_refl : core.

Lemma moved_kept k s s' : kept enc k s s' -> moved k s s'.
Proof.
  intros K. split; [apply K|exact (kp_rooms _ _ _ _ K)|apply K|apply K|by unfold names_fine; rewrite (kp_names _ _ _ _ K), (kp_pending _ _ _ _ K)| |].
  - intros id y Hy. right. destruct (kp_sessions _ _ _ _ K id y Hy) as (x & Hx & Hk). exists x. split; [done|]. by destruct Hk as (? & ? & _).
  - apply kinds_subset; [apply K|]. by rewrite (kp_next_token _ _ _ _ K).
Qed.

Lemma moved_refl s : inv s -> moved 0 s s.
Proof. intros I. by apply moved_kept, kept_refl. Qed.

Lemma moved_trans a b s1 s2 s3 : moved a s1 s2 -> moved b s2 s3 -> moved (a + b) s1 s3.
Proof.
  intros A B. split.
  - apply B.
  - intros r. rewrite (mv_rooms _ _ _ B). apply A.
  - pose proof (mv_streams _ _ _ A). pose proof (mv_streams _ _ _ B). lia.
  - rewrite (mv_config _ _ _ B). apply A.
  - intros W. by apply (mv_names _ _ _ B), A.
  - by apply (no_strangers_trans _ (sessions s2)); [apply A|apply B].
  - exact (kinds_trans _ _ _ _ _ _ (mv_kinds _ _ _ A) (mv_kinds _ _ _ B)).
Qed.

Definition moves (k : Z) (s : server) (m : option server) : Prop := exists s', m = Some s' /\ moved k s s'.
Definition moves_res {A} (k : Z) (s : server) (m : option (server * A)) : Prop := exists s' r, m = Some (s', r) /\ moved k s s'.

Lemma moves_kept k s m : keeps enc k s m -> moves k s m.
Proof. intros (s' & E & K). exists s'. eauto using moved_kept. Qed.

Lemma moves_res_kept {A} k s (m : option (server * A)) : keeps_res enc k s m -> moves_res k s m.
Proof. intros (s' & r & E & K). exists s', r. eauto using moved_kept. Qed.

Lemma moves_step a b s s1 m : moved a s s1 -> moves b s1 m -> moves (a + b) s m.
Proof. intros K1 (s2 & E & K2). exists s2. eauto using moved_trans. Qed.

Lemma moves_res_step {A} a b s s1 (m : option (server * A)) : moved a s s1 -> moves_res b s1 m -> moves_res (a + b) s m.
Proof. intros K1 (s2 & r & E & K2). exists s2, r. eauto using moved_trans. Qed.

Lemma moves_bind a b s m f :
  moves a s m -> (forall s', moved a s s' -> moves b s' (f s')) -> moves (a + b) s (s' ← m; f s').
Proof. intros (s1 & -> & K1) Hf. destruct (Hf s1 K1) as (s2 & E & K2). exists s2. cbn. eauto using moved_trans. Qed.

Lemma moves_res_then {A B} a b s (m : option (server * A)) (f : server -> A -> option (server * B)) :
  moves_res a s m -> (forall s' r, moved a s s' -> moves_res b s' (f s' r)) -> moves_res (a + b) s ('(s', r) ← m; f s' r).
Proof. intros (s1 & r & -> & K1) Hf. destruct (Hf s1 r K1) as (s2 & r2 & E & K2). exists s2, r2. cbn. eauto using moved_trans. Qed.

Lemma moves_done k s (m : option server) : moves k s m -> moves_res k s (done_with m).
Proof. intros (s' & -> & K). by exists s', (Ok ()). Qed.

Lemma moves_id s : inv s -> moves 0 s (Some s).
Proof. intros. exists s. eauto using moved_refl. Qed.

Lemma moves_res_id {A} s (r : A) : inv s -> moves_res 0 s (Some (s, r)).
Proof. intros. exists s, r. eauto using moved_refl. Qed.

Lemma moves_each {A} (f : A -> server -> option server) l s :
  inv s -> (forall a s', a ∈ l -> moved 0 s s' -> moves 0 s' (f a s')) -> moves 0 s (each f l s).
Proof.
  revert s. induction l as [|a l IH]; intros s I Hf; [by apply moves_id|]. cbn [each].
  apply (moves_bind 0 0); [apply Hf; [by left|by apply moved_refl]|].
  intros s' K. apply IH; [apply K|]. intros b s2 Hb K2. apply Hf; [by right|]. by apply (moved_trans 0 0 s s').
Qed.

Lemma queue_write_moved (s : server) t : inv s -> moved 0 s (queue_client_write t s).
Proof. intros I. unfold queue_client_write. case_decide; [by apply moved_refl|unseen I]. Qed.

Lemma queue_read_moved (s : server) t : inv s -> moved 0 s (queue_client_read t s).
Proof. intros I. unfold queue_client_read. case_decide; [by apply moved_refl|unseen I]. Qed.

Lemma draws_moved (s : server) n : inv s -> moved 0 s (set_rng_draws n s).
Proof. intros I. by apply moved_kept, set_draws_kept. Qed.

Lemma disc_moves (s : server) t : inv s -> moves 0 s (disc t s).
Proof. intros I. by apply moves_kept, disc_kept. Qed.

Lemma replaced_moved (s : server) t c c' :
  inv s -> clients s !! t = Some c -> same_conn c c' -> conn_ok c' ->
  (is_video c' = false -> write_len c' + default 0 (pending_control_bytes s !! t) <= CONTROL_WRITE_HIGH_WATER) ->
  moved 0 s (replaced t c c' s).
Proof. intros I Hc Hs Hok Hcap. split; try done; [by apply replaced_inv|cbn; lia|]. apply (kinds_insert _ _ _ _ c); [done|apply Hs|cbn; lia]. Qed.

(** ** Writing to the socket *)

Lemma write_loop_shrinks n : forall (tx : Tx) q o, WriteQueue.wf q ->
  let '(_, q', _) := write_loop n tx q o in WriteQueue.wf q' /\ (WriteQueue.len q' <= WriteQueue.len q)%nat.
Proof.
  induction n as [|n IH]; intros tx q o Hq; cbn [write_loop]; [done|]. destruct (WriteQueue.is_empty q); [done|].
  destruct (write tx (WriteQueue.pending q)) as [tx1 [[|m]|e]] eqn:Hw; [done| |destruct e; try done; by apply IH].
  apply write_ok in Hw as [Hm _]. rewrite <- write_queue_len in Hm.
  destruct (write_queue_consume q (S m) Hq Hm) as [Hq1 Hp1].
  match goal with |- context [write_loop n tx1 ?q1 ?o1] => specialize (IH tx1 q1 o1 Hq1); destruct (write_loop n tx1 q1 o1) as [[tx2 q2] r] end.
  destruct IH as [Hq2 Hl2]. split; [done|]. etrans; [exact Hl2|]. rewrite !write_queue_len, Hp1, length_drop. lia.
Qed.

Lemma write_shrinks (tx : Tx) q n : WriteQueue.wf q ->
  let '(_, q', _) := write_queue_to tx q n in WriteQueue.wf q' /\ (WriteQueue.len q' <= WriteQueue.len q)%nat.
Proof.
  intros Hq. unfold write_queue_to. match goal with |- context [write_loop n tx q ?o] => pose proof (write_loop_shrinks n tx q o Hq) as Hl;
    destruct (write_loop n tx q o) as [[tx' q'] [o'|e]] end; done.
Qed.

(** Changes that leave the lengths, the phase and the identity of a connection. *)
Lemma same_conn_buffers (c c' : client) :
  cc_session_id c' = cc_session_id c -> cc_user_id c' = cc_user_id c -> cc_kind c' = cc_kind c -> cc_pre_auth c' = cc_pre_auth c ->
  cc_addr c' = cc_addr c -> cc_control c' = cc_control c -> (is_video c = true -> cc_control c = None) -> same_conn c c'.
Proof.
  intros Hs Hu Hk Hp Ha Hc Hv. split; try done.
  - intros p Hcp. exists p. split; [congruence|done].
  - unfold is_video in *. rewrite Hk, Hc. done.
  - unfold attached. by rewrite Hk.
  - by apply told_same.
Qed.

Lemma video_silent (s : server) t c : inv s -> clients s !! t = Some c -> is_video c = true -> cc_control c = None.
Proof. intros I Hc. by eapply (ob_video _ _ _ _ _ _ _ _ (inv_outbound _ _ _ _ I)). Qed.

Lemma written_progress (c c' : client) :
  cc_kind c' = cc_kind c -> cc_state c' = cc_state c -> cc_control c' = cc_control c -> cc_transport c' = cc_transport c ->
  cc_session_id c' = cc_session_id c -> cc_pre_auth c' = cc_pre_auth c -> 0 <= write_len c' <= write_len c ->
  progress c -> progress c'.
Proof.
  unfold progress, setting_up. intros -> -> -> -> -> -> Hw Hp. destruct (cc_kind c); [|destruct (cc_state c)|]; intuition lia.
Qed.

(** Writing loses the connection or leaves the shares alone. *)
Definition untouched (t : Z) (s s' : server) : Prop :=
  (streams s', sessions s', video_fanouts s', video_fanout_bytes s') = (streams s, sessions s, video_fanouts s, video_fanout_bytes s) /\
  forall c, clients s !! t = Some c -> exists d, clients s' !! t = Some d /\ cc_kind d = cc_kind c.

Lemma write_client_result (s : server) t : inv s ->
  exists s', write_client enc now t s = Some s' /\ moved 0 s s' /\ (clients s' !! t = None \/ untouched t s s').
Proof.
  intros I. unfold write_client. destruct (clients s !! t) as [c|] eqn:Hc; [|exists s; split_and!; [done|by apply moved_refl|by left]].
  pose proof (inv_conns _ _ _ _ I t c Hc) as Hok. cbn in Hok.
  pose proof (write_shrinks (cc_tx c) (cc_write_buf c) TCP_WRITE_ATTEMPTS (co_queue _ Hok)) as Hw.
  destruct (write_queue_to (cc_tx c) (cc_write_buf c) TCP_WRITE_ATTEMPTS) as [[tx q] r]. destruct Hw as [Hq Hl].
  set (c1 := set_tx tx (set_write_buf q c)).
  assert (exists c2 b1 b2, match r with
    | Ok o => (if decide (0 < bytes_written o)%nat then set_last_activity now c1 else c1, wrote_zero o, write_hit_limit o)
    | Err _ => (c1, true, false) end = (c2, b1, b2) /\ (c2 = c1 \/ c2 = set_last_activity now c1)) as (c2 & b1 & b2 & -> & Hc2).
  { destruct r; [case_decide|]; eauto 10. }
  cbv zeta.
  assert (write_len c2 = Z.of_nat (WriteQueue.len q)) as Hl2 by (by destruct Hc2 as [-> | ->]).
  assert (0 <= write_len c2 <= write_len c) as Hlen by (rewrite Hl2; unfold write_len; lia).
  assert (moved 0 s (replaced t c c2 s)) as K.
  { apply replaced_moved; [done|done|..].
    - apply same_conn_buffers; try (by destruct Hc2 as [-> | ->]). by eapply video_silent.
    - split; [by destruct Hc2 as [-> | ->]|by destruct Hc2 as [-> | ->]; apply Hok|].
      eapply written_progress; [..|apply Hok]; try (by destruct Hc2 as [-> | ->]); exact Hlen.
    - intros Hv. assert (is_video c = false) as Hv' by (by destruct Hc2 as [-> | ->]).
      pose proof (ob_capped _ _ _ _ _ _ _ _ (inv_outbound _ _ _ _ I) t c Hc Hv'). lia. }
  assert (saturating_sub (write_queue_total_bytes s) (write_len c - write_len c2) = write_queue_total_bytes s + (write_len c2 - write_len c)) as ->.
  { unfold saturating_sub. rewrite (ob_written _ _ _ _ _ _ _ _ (inv_outbound _ _ _ _ I)).
    pose proof (msum_part write_len (clients s) t c (fun _ _ _ => ltac:(unfold write_len; lia)) Hc). lia. }
  pose proof (mv_inv _ _ _ K) as I1. fold (replaced t c c2 s).
  assert (untouched t s (replaced t c c2 s)) as Hun.
  { split; [done|]. intros c0 Hc0. rewrite Hc in Hc0. injection Hc0 as <-. exists c2. split; [apply lookup_insert_eq|]. by destruct Hc2 as [-> | ->]. }
  match goal with |- context [if ?b then disc t _ else _] => destruct b end.
  - destruct (disconnect_ok enc now _ t ∅ ∅ (replaced t c c2 s) (Nat.lt_succ_diag_r _) I1) as (s' & E & I' & S' & Hgone).
    exists s'. split; [done|]. split; [|by left]. apply (moved_trans 0 0 _ _ _ K). by apply moved_kept, (kept_shrinks enc ∅).
  - destruct b2; eexists; (split; [reflexivity|]); [|by split; [|right]]. split; [apply (moved_trans 0 0 _ _ _ K); by apply queue_write_moved|right].
    unfold queue_client_write. by case_decide.
Qed.

Lemma write_client_moves (s : server) t : inv s -> moves 0 s (write_client enc now t s).
Proof. intros I. destruct (write_client_result s t I) as (s' & E & K & _). by exists s'. Qed.

(** ** Admission *)

Lemma new_conn_ok rx tx addr : conn_ok (new_client now rx tx addr : client).
Proof. split; [unfold WriteQueue.wf; cbn; lia|unfold RecvBuffer.wf; cbn; lia|]. cbn. unfold setting_up. by split_and!. Qed.

Lemma fresh_token (s : server) : inv s -> clients s !! next_token s = None.
Proof.
  intros I. destruct (clients s !! next_token s) as [c|] eqn:Hc; [|done].
  pose proof (id_tokens _ _ _ _ _ _ _ _ _ _ (inv_ids _ _ _ _ I) _ c Hc). lia.
Qed.

Lemma admit_slots (cs : gmap Z client) p p' a rx tx addr t :
  slots_ok cs p -> ip addr = a -> PreAuthLimiter.admits p a = (p', Ok ()) -> (size cs < MAX_CLIENTS)%nat -> cs !! t = None ->
  slots_ok (<[t := new_client now rx tx addr]> cs) p'.
Proof.
  intros S Ha. unfold PreAuthLimiter.admits. case_decide as Hh; [done|]. case_decide as Hn; [done|]. intros [= <-] Hs Ht. split; cbn [held_slots per_ip].
  - rewrite msum_insert, <- (sl_held _ _ S) by done. replace (holds_slot _) with 1 by done. lia.
  - intros b. rewrite msum_insert, <- (sl_per_ip _ _ S) by done.
    replace (holds_slot_of b _) with (if bool_decide (a = b) then 1 else 0) by (unfold holds_slot_of; cbn; by rewrite Ha).
    destruct (decide (a = b)) as [<-|Hne].
    + rewrite lookup_insert_eq, bool_decide_true by done. destruct (per_ip p !! a); cbn [default id]; unfold default; cbn [id]; lia.
    + rewrite lookup_insert_ne, bool_decide_false by done. lia.
  - intros b n [[<- <-]|[Hne Hb]]%lookup_insert_Some; [lia|]. by eapply (sl_positive _ _ S).
  - lia.
  - intros b n [[<- <-]|[Hne Hb]]%lookup_insert_Some; [lia|]. by eapply (sl_cap_ip _ _ S).
  - rewrite map_size_insert_None by done. lia.
Qed.

Lemma accepted_inv (s : server) rx tx addr p :
  inv s -> slots_ok (<[next_token s := new_client now rx tx addr]> (clients s)) p ->
  inv (set_clients (<[next_token s := new_client now rx tx addr]> (clients s)) (set_next_token (next_token s + 1) (set_pre_auth p s))).
Proof.
  intros I Hslots. pose proof (fresh_token s I) as Ht. set (t := next_token s) in *. set (c := new_client now rx tx addr : client) in *.
  assert (forall t' d, clients s !! t' = Some d -> <[t := c]> (clients s) !! t' = Some d) as Hkeep.
  { intros t' d Hd. rewrite lookup_insert_ne; [done|]. intros <-. congruence. }
  split; cbn; try keep I.
  - pose proof (inv_sessions _ _ _ _ I) as B. split.
    + intros id x Hx HD. destruct (so_live _ _ _ B id x Hx HD) as (d & Hd & Hrest). exists d. auto.
    + set_solver.
    + intros t' d id [[<- <-]|[Hne Hd]]%lookup_insert_Some Hs; [done|]. by eapply (so_named _ _ _ B).
    + intros t' d [[<- <-]|[Hne Hd]]%lookup_insert_Some Hs; [done|]. by eapply (so_user _ _ _ B).
  - intros i v Hi. pose proof (inv_streams _ _ _ _ I i v Hi) as B. split; try apply B.
    + intros t' Ht'. destruct (vo_watched _ _ _ _ _ B t' Ht') as (d & w & id & Hd & Hrest). exists d, w, id. auto.
    + intros t' Ht'. destruct (vo_published _ _ _ _ _ B t' Ht') as (d & w & Hd & Hrest). exists d, w. auto.
    + intros t' d w id [[<- <-]|[Hne Hd]]%lookup_insert_Some Hk; [done|]. by eapply (vo_viewer _ _ _ _ _ B).
    + intros t' d w [[<- <-]|[Hne Hd]]%lookup_insert_Some Hk; [done|]. by eapply (vo_owned _ _ _ _ _ B).
  - pose proof (inv_outbound _ _ _ _ I) as O. split; try apply O.
    + intros t' q Hq. destruct (ob_queued _ _ _ _ _ _ _ _ O t' q Hq) as (Hne & d & p' & Hd & Hrest). split; [done|]. exists d, p'. auto.
    + rewrite msum_insert by done. rewrite (ob_written _ _ _ _ _ _ _ _ O). done.
    + intros t' d [[<- <-]|[Hne Hd]]%lookup_insert_Some Hv; [|by apply (ob_capped _ _ _ _ _ _ _ _ O)].
      destruct (pending_control_bytes s !! t) as [n|] eqn:Hn; [|done].
      destruct (ob_charged _ _ _ _ _ _ _ _ O t n Hn) as [q Hq].
      destruct (ob_queued _ _ _ _ _ _ _ _ O t q Hq) as (_ & d & p' & Hd & _). congruence.
    + intros t' d [[<- <-]|[Hne Hd]]%lookup_insert_Some Hv; [done|]. by eapply (ob_video _ _ _ _ _ _ _ _ O).
    + intros t' Ht'. destruct (ob_stale _ _ _ _ _ _ _ _ O t' Ht') as [?|Hn]; [by left|right].
      pose proof (id_queued _ _ _ _ _ _ _ _ _ _ (inv_ids _ _ _ _ I) t' Ht'). rewrite lookup_insert_ne; [done|lia].
  - intros t' q d m Hq [[<- <-]|[Hne Hd]]%lookup_insert_Some Hm; [|by eapply (inv_allowed _ _ _ _ I)].
    destruct (ob_queued _ _ _ _ _ _ _ _ (inv_outbound _ _ _ _ I) t q Hq) as (_ & d & p' & Hd & _). congruence.
  - exact Hslots.
  - apply map_Forall_insert_2; [apply new_conn_ok|apply I].
  - eapply Forall_impl; [exact (inv_relayed _ _ _ _ I)|]. intros f [Hd Hv]. split; [done|]. intros t' Ht'. destruct (Hv t' Ht') as [Hlt Hview].
    split; [lia|]. intros d [[<- <-]|[Hne Hd']]%lookup_insert_Some; [lia|by apply Hview].
  - pose proof (inv_ids _ _ _ _ I) as J. split; try apply J.
    + intros t' d [[<- <-]|[Hne Hd]]%lookup_insert_Some; [lia|]. pose proof (id_tokens _ _ _ _ _ _ _ _ _ _ J t' d Hd). lia.
    + intros t' Ht'. pose proof (id_queued _ _ _ _ _ _ _ _ _ _ J t' Ht'). lia.
    + intros t' d w i [[<- <-]|[Hne Hd]]%lookup_insert_Some Hk; [done|]. by eapply (id_video _ _ _ _ _ _ _ _ _ _ J).
Qed.

Lemma slots_moved (s : server) p n : inv s -> slots_ok (clients s) p -> next_token s <= n -> moved 0 s (set_next_token n (set_pre_auth p s)).
Proof.
  intros I Hs Hn. split; cbn; try done; [|lia|by apply kinds_subset]. split; cbn; try keep I; [done|..].
  { eapply Forall_impl; [exact (inv_relayed _ _ _ _ I)|]. intros f [Hd Hv]. split; [done|]. intros t Ht. destruct (Hv t Ht). split; [lia|done]. }
  pose proof (inv_ids _ _ _ _ I) as J. split; try apply J.
  - intros t d Hd. pose proof (id_tokens _ _ _ _ _ _ _ _ _ _ J t d Hd). lia.
  - intros t Ht. pose proof (id_queued _ _ _ _ _ _ _ _ _ _ J t Ht). lia.
Qed.

Lemma refused_slots (cs : gmap Z client) p a :
  slots_ok cs p -> slots_ok cs (PreAuthLimiter.refusals_to_report p a).1.
Proof. intros S. unfold PreAuthLimiter.refusals_to_report. case_match; split; apply S. Qed.

Lemma admit_release (cs : gmap Z client) p p' a :
  slots_ok cs p -> PreAuthLimiter.admits p a = (p', Ok ()) -> slots_ok cs (PreAuthLimiter.release p' a).
Proof.
  intros S. unfold PreAuthLimiter.admits. case_decide as Hh; [done|]. case_decide as Hn; [done|]. intros [= <-]. unfold PreAuthLimiter.release.
  cbn [held_slots per_ip]. rewrite lookup_insert_eq. split; cbn [held_slots per_ip].
  - rewrite <- (sl_held _ _ S). lia.
  - intros b. rewrite <- (sl_per_ip _ _ S). destruct (decide (a = b)) as [<-|Hne].
    + case_decide; [rewrite lookup_delete_eq|rewrite lookup_insert_eq]; cbn; lia.
    + case_decide; [rewrite lookup_delete_ne, lookup_insert_ne by done|rewrite !lookup_insert_ne by done]; done.
  - intros b n Hb. case_decide.
    + apply lookup_delete_Some in Hb as [? Hb]. rewrite lookup_insert_ne in Hb by done. by eapply (sl_positive _ _ S).
    + apply lookup_insert_Some in Hb as [[<- <-]|[Hne Hb]]; [lia|]. rewrite lookup_insert_ne in Hb by done. by eapply (sl_positive _ _ S).
  - pose proof (sl_cap _ _ S). lia.
  - intros b n Hb. case_decide.
    + apply lookup_delete_Some in Hb as [? Hb]. rewrite lookup_insert_ne in Hb by done. by eapply (sl_cap_ip _ _ S).
    + apply lookup_insert_Some in Hb as [[<- <-]|[Hne Hb]]; [lia|]. rewrite lookup_insert_ne in Hb by done. by eapply (sl_cap_ip _ _ S).
  - apply S.
Qed.

Lemma accept_moved (s : server) rx tx addr b : inv s -> moved 0 s (accept_client now rx tx addr b s).1.
Proof.
  intros I. pose proof (inv_slots _ _ _ _ I) as S. unfold accept_client. case_decide as Hfull; [by apply moved_refl|].
  destruct (PreAuthLimiter.admits (pre_auth s) (ip addr)) as [p [[]|e]] eqn:Ha.
  - destruct b; cbn.
    + split; cbn; try done; [|lia|apply kinds_new]. apply (accepted_inv s rx tx addr p I).
      eapply admit_slots; [done..|lia|by apply fresh_token].
    + apply (slots_moved s (PreAuthLimiter.release p (ip addr)) (next_token s + 1) I); [by eapply admit_release|lia].
  - cbn. assert (p = pre_auth s) as ->.
    { unfold PreAuthLimiter.admits in Ha. case_decide; [by simplify_eq|]. case_decide as Hn; [|done]. injection Ha as <- _.
      destruct (per_ip (pre_auth s) !! ip addr) as [n|] eqn:Hl; [|unfold MAX_HANDSHAKING_PER_IP in Hn; cbn in Hn; lia].
      cbn. rewrite insert_id by done. by destruct (pre_auth s). }
    pose proof (slots_moved s (PreAuthLimiter.refusals_to_report (pre_auth s) now).1 (next_token s) I (refused_slots _ _ _ S)) as K.
    replace (set_next_token (next_token s) (set_pre_auth (PreAuthLimiter.refusals_to_report (pre_auth s) now).1 s)) with
      (set_pre_auth (PreAuthLimiter.refusals_to_report (pre_auth s) now).1 s) in K by by destruct s. apply K. lia.
Qed.

(** ** Giving a connection away, promoting it *)

Lemma nothing_queued (s : server) t c : inv s -> clients s !! t = Some c -> cc_control c = None ->
  pending_controls s !! t = None /\ pending_control_bytes s !! t = None /\ t ∉ control_send_set s.
Proof.
  intros I Hc Hn. pose proof (inv_outbound _ _ _ _ I) as O.
  assert (pending_controls s !! t = None) as Hp.
  { destruct (pending_controls s !! t) as [q|] eqn:Hq; [|done].
    destruct (ob_queued _ _ _ _ _ _ _ _ O t q Hq) as (_ & d & p & Hd & Hdp & _). congruence. }
  split_and!; [done| |].
  - destruct (pending_control_bytes s !! t) as [n|] eqn:Hb; [|done].
    destruct (ob_charged _ _ _ _ _ _ _ _ O t n Hb) as [q Hq]. congruence.
  - intros Ht%(ob_set _ _ _ _ _ _ _ _ O). rewrite Hp in Ht. by destruct Ht.
Qed.

Lemma written_nonneg (s : server) : inv s -> 0 <= write_queue_total_bytes s.
Proof.
  intros I. rewrite (ob_written _ _ _ _ _ _ _ _ (inv_outbound _ _ _ _ I)). apply msum_nonneg. intros. unfold write_len. lia.
Qed.

Lemma handed_over_inv (s : server) t c :
  inv s -> clients s !! t = Some c -> cc_kind c = Unidentified -> setting_up c ->
  inv (set_pre_auth (PreAuthLimiter.release (pre_auth s) (ip (cc_addr c))) (set_clients (delete t (clients s)) s)).
Proof.
  intros I Hc Hk (Hn & _ & Hs & Hp & Hw). destruct (nothing_queued s t c I Hc Hn) as (Hq & Hb & Ht).
  destruct (drop_inv enc now ∅ ∅ s t c I Hc) as (I' & _). rewrite drop_eq, forget_eq in I'. cbv zeta in I'.
  unfold dying in I'. rewrite Hs, (union_empty_r_L ∅), Hp, Hw, Hb in I'. unfold detached, video_part in I'. rewrite Hk in I'.
  cbn -[saturating_sub] in I'. rewrite (delete_id _ _ Hq), (delete_id _ _ Hb) in I'.
  replace (control_send_set s ∖ {[t]}) with (control_send_set s) in I' by set_solver.
  replace (saturating_sub (write_queue_total_bytes s) 0) with (write_queue_total_bytes s) in I'
    by (pose proof (written_nonneg s I); unfold saturating_sub; lia).
  split; cbn; apply I'.
Qed.

Lemma voice_submitted_inv (s : server) rx tx addr buf b : inv s -> inv (submit_voice (AttachTcp rx tx addr buf b) s).
Proof. intros I. split; cbn; try keep I. rewrite relay_view_snoc. cbn. apply I. Qed.

Lemma attach_voice_moves (s : server) t c p d b :
  inv s -> clients s !! t = Some c -> cc_kind c = Unidentified -> moves 0 s (attach_voice_tcp_conn enc now p d b t s).
Proof.
  intros I Hc Hk. unfold attach_voice_tcp_conn. destruct p; cbn [negb]; [|by apply disc_moves]. rewrite Hc.
  pose proof (inv_conns _ _ _ _ I t c Hc) as Hok. pose proof (co_progress _ Hok) as Hpr. unfold progress in Hpr. rewrite Hk in Hpr.
  destruct Hpr as [_ Hset]. pose proof Hset as (_ & _ & _ & Hslot & _). cbn in Hslot |- *. rewrite Hslot.
  pose proof (handed_over_inv s t c I Hc Hk Hset) as I1.
  eexists. split; [reflexivity|]. split; cbn; [|by destruct d|destruct d; cbn; lia|by destruct d|by destruct d|by destruct d|destruct d; apply kinds_subset; (apply delete_subseteq || cbn; lia)].
  destruct d; [by apply voice_submitted_inv|done].
Qed.

Lemma same_kind_conn (c c' : client) :
  cc_session_id c = None -> cc_session_id c' = None -> cc_user_id c' = cc_user_id c -> cc_pre_auth c' = cc_pre_auth c ->
  cc_addr c' = cc_addr c -> cc_control c = None -> (is_video c' = true -> cc_control c' = None) -> attached c' = attached c ->
  told c c' -> same_conn c c'.
Proof.
  intros Hs Hs' Hu Hp Ha Hc Hv Hat Ht. split; try done; [congruence| |].
  - rewrite Hs. by intros [? ?].
  - intros p. by rewrite Hc.
Qed.

Lemma insert_replaced (s : server) t c c' : write_len c' = write_len c -> set_clients (<[t := c']> (clients s)) s = replaced t c c' s.
Proof. intros Hl. unfold replaced. replace (write_queue_total_bytes s + (write_len c' - write_len c)) with (write_queue_total_bytes s) by lia. by destruct s. Qed.

Lemma unqueued_cap (s : server) t c (c' : client) : inv s -> clients s !! t = Some c -> cc_control c = None ->
  write_len c' <= CONTROL_WRITE_HIGH_WATER -> write_len c' + default 0 (pending_control_bytes s !! t) <= CONTROL_WRITE_HIGH_WATER.
Proof. intros I Hc Hn Hw. destruct (nothing_queued s t c I Hc Hn) as (_ & -> & _). cbn. lia. Qed.

Lemma classify_moves (s : server) t p d b : inv s -> moves_res 0 s (classify enc now p d b t s).
Proof.
  intros I. unfold classify. destruct (clients s !! t) as [c|] eqn:Hc; [|by apply moves_res_id].
  destruct (cc_kind c) eqn:Hk; [|by apply moves_res_id..]. case_decide as Hlen; [by apply moves_res_id|].
  pose proof (inv_conns _ _ _ _ I t c Hc) as Hok. pose proof (co_progress _ Hok) as Hpr. unfold progress in Hpr. rewrite Hk in Hpr.
  destruct Hpr as [Hst Hset]. pose proof Hset as (Hn & Htr & Hs & Hslot & Hw).
  assert (forall n, (n <= RecvBuffer.len (cc_read_buf c))%nat -> RecvBuffer.wf (RecvBuffer.consume (cc_read_buf c) n)) as Hrecv.
  { intros n Hn'. destruct (recv_consume (cc_read_buf c) n (co_recv _ Hok) Hn'). done. }
  assert (forall c', write_len c' = write_len c -> same_conn c c' -> conn_ok c' -> moved 0 s (set_clients (<[t := c']> (clients s)) s)) as Hmove.
  { intros c' Hl Hsame Hok'. rewrite (insert_replaced s t c c' Hl). apply replaced_moved; try done.
    intros _. apply (unqueued_cap s t c c'); try done. rewrite Hl, Hw. done. }
  assert (forall c', told c c') as Htold by (intros c'; unfold told, is_video; by rewrite Hk).
  case_match; [|case_match].
  - eexists _, _. split; [reflexivity|]. apply Hmove; [done|by apply same_kind_conn; try done; try apply Htold; unfold attached; rewrite Hk|].
    split; [apply Hok|apply Hrecv; lia|]. unfold progress. cbn. by rewrite Hn, Htr, Hs, Hslot.
  - set (c1 := set_read_buf (RecvBuffer.consume (cc_read_buf c) (length VOICE_TCP_MAGIC)) c).
    assert (moved 0 s (set_clients (<[t := c1]> (clients s)) s)) as K.
    { apply Hmove; [done|by apply same_kind_conn; try done; try apply Htold; unfold attached; cbn; rewrite Hk|].
      split; [apply Hok|apply Hrecv; change (length VOICE_TCP_MAGIC) with (length VIDEO_MAGIC); lia|]. unfold progress. cbn. by rewrite Hk. }
    apply (moves_res_step 0 0 _ _ _ K). destruct (attach_voice_moves (set_clients (<[t := c1]> (clients s)) s) t c1 p d b) as (s2 & -> & K2).
    + apply K.
    + cbn. apply lookup_insert_eq.
    + cbn. done.
    + eexists _, _. split; [reflexivity|done].
  - eexists _, _. split; [reflexivity|]. apply Hmove; [done|by apply same_kind_conn; try done; try apply Htold; unfold attached; rewrite Hk|].
    split; [apply Hok|apply Hok|]. unfold progress. cbn. by rewrite Hst.
Qed.

(** ** The handshake *)

Lemma write_len_append (c : client) bs : WriteQueue.wf (cc_write_buf c) ->
  WriteQueue.wf (WriteQueue.append (cc_write_buf c) bs) /\
  write_len (set_write_buf (WriteQueue.append (cc_write_buf c) bs) c) = write_len c + len bs.
Proof.
  intros Hq. destruct (write_queue_append (cc_write_buf c) bs Hq) as [Hq' Hp']. split; [done|].
  unfold write_len, len. cbn [cc_write_buf set_write_buf]. rewrite !write_queue_len, Hp', length_app. lia.
Qed.

Lemma encode_frame_len payload out out' : encode_frame payload out = (out', Ok ()) ->
  exists f, out' = out ++ f /\ len f = 4 + len payload /\ len payload <= MAX_FRAME_LEN.
Proof.
  unfold encode_frame. case_decide as Hm; [done|]. case_decide; [|done]. intros [= <-]. eexists. split; [reflexivity|].
  split; [|lia]. unfold len. cbn [length]. lia.
Qed.

(** A connection that waits for the client's hello. *)
Definition expects_hello (s : server) (t : Z) : Prop :=
  forall c, clients s !! t = Some c -> cc_kind c = ControlConn /\ cc_state c = AwaitClientHello.

Lemma hello_moves (s : server) t hello :
  inv s -> expects_hello s t -> moves_res 0 s (handle_client_hello enc encode_server_hello random now t hello s).
Proof.
  intros I He. unfold handle_client_hello. case_match; [by apply moves_done, disc_moves|]. cbv zeta.
  pose proof (draws_moved s (rng_draws s + 2) I) as K. pose proof (mv_inv _ _ _ K) as I1. apply (moves_res_step 0 0 _ _ _ K).
  destruct (respond_to_client_hello _ _ _ _ _) as [resp|e]; [|by apply moves_res_id].
  destruct (clients (set_rng_draws (rng_draws s + 2) s) !! t) as [c|] eqn:Hc; [|by apply moves_res_id].
  destruct (encode_frame (encode_server_hello (srv_hello resp)) []) as [buf [[]|e]] eqn:Hf; [|by apply moves_res_id].
  apply encode_frame_len in Hf as (f & -> & Hfl & Hfm). cbn [app].
  destruct (He c Hc) as [Hk Hst]. pose proof (inv_conns _ _ _ _ I t c Hc) as Hok. pose proof (co_progress _ Hok) as Hpr.
  unfold progress in Hpr. rewrite Hk, Hst in Hpr. destruct Hpr as (Hn & Htr & Hs & Hslot & Hw).
  destruct (write_len_append c f (co_queue _ Hok)) as [Hq Hwl].
  set (c1 := set_write_buf _ c) in *. set (c2 := set_conn_state _ _).
  assert (write_len c2 = write_len c1) as Hl2 by done.
  assert (moved 0 (set_rng_draws (rng_draws s + 2) s) (replaced t c c2 (set_rng_draws (rng_draws s + 2) s))) as K2.
  { apply replaced_moved; [done|done|..].
    - apply same_kind_conn; try done; unfold is_video, attached; cbn; by rewrite Hk.
    - split; [done|apply Hok|]. unfold progress. cbn. rewrite Hk. split_and!; [by eexists|done..].
    - intros _. eapply unqueued_cap; [done..|]. rewrite Hl2, Hwl, Hw. unfold MAX_FRAME_LEN in Hfm. unfold CONTROL_WRITE_HIGH_WATER. lia. }
  apply (moves_res_step 0 0 _ _ _ K2), moves_done, write_client_moves, K2.
Qed.

(** ** Establishing a session *)

Lemma promote_slots (cs : gmap Z client) p t c c' :
  slots_ok cs p -> cs !! t = Some c -> cc_pre_auth c = true -> cc_pre_auth c' = false ->
  slots_ok (<[t := c']> cs) (PreAuthLimiter.release p (ip (cc_addr c))).
Proof.
  intros S Hc Hp Hp'. pose proof (drop_slots cs p t c S Hc) as B. rewrite Hp in B.
  assert (delete t cs !! t = None) as Hn by apply lookup_delete_eq.
  split; try apply B; rewrite <- (insert_delete_eq cs t c').
  - rewrite msum_insert by done. replace (holds_slot c') with 0 by (unfold holds_slot; by rewrite Hp'). apply B.
  - intros a. rewrite msum_insert by done. replace (holds_slot_of a c') with 0 by (unfold holds_slot_of; by rewrite Hp'). apply B.
  - rewrite map_size_insert_None by done. rewrite map_size_delete_Some by (by eexists). pose proof (sl_clients _ _ S).
    assert (size cs <> 0)%nat by (intros Hz%map_size_empty_iff; by rewrite Hz in Hc). lia.
Qed.

(** Where a connection that holds a transport is in its setup. *)
Lemma transport_ready (c : client) tr : conn_ok c -> cc_transport c = Some tr ->
  cc_kind c = ControlConn /\ cc_state c = AwaitAuth /\ is_Some (cc_control c) /\ cc_session_id c = None /\ cc_pre_auth c = true.
Proof.
  intros Hok Ht. pose proof (co_progress _ Hok) as Hp. unfold progress, setting_up in Hp.
  destruct (cc_kind c); [|destruct (cc_state c)|]; intuition congruence.
Qed.

Lemma fresh_session (s : server) : inv s -> sessions s !! next_session s = None.
Proof.
  intros I. destruct (sessions s !! next_session s) as [x|] eqn:Hx; [|done].
  pose proof (id_sessions _ _ _ _ _ _ _ _ _ _ (inv_ids _ _ _ _ I) _ x Hx). lia.
Qed.

(** The connection of a session that was established on it. *)
Definition ready (u id : Z) (c : client) : client :=
  set_conn_pre_auth false (set_conn_user (Some u) (set_conn_session (Some id) (set_conn_state Ready (set_transport None c)))).

Definition established (t : Z) (c : client) (x : Session) (s : server) : server :=
  let id := next_session s in
  set_pre_auth (PreAuthLimiter.release (pre_auth s) (ip (cc_addr c)))
    (set_clients (<[t := ready (ss_user_id x) id c]> (clients s))
       (set_sessions (<[id := x]> (sessions s))
          (submit_voice (RegisterSession id (ss_user_id x) (MediaProtection.from_transport (ss_transport x)))
             (set_reserved_media_routes (<[route_id (ss_transport x) := id]> (reserved_media_routes s))
                (set_next_session (id + 1) s))))).

Section established.
Context (s : server) (t : Z) (c : client) (x : Session) (I : inv s) (Hc : clients s !! t = Some c).
Context (Ht : ss_tcp_token x = t) (Hv : ss_voice_room x = None) (Ha : ss_active_stream x = None).
Context (Hs : cc_session_id c = None) (Hk : cc_kind c = ControlConn).
Abbreviation id := (next_session s).
Abbreviation ss := (<[id := x]> (sessions s)).

Lemma established_sessions : sessions_ok ∅ (<[t := ready (ss_user_id x) id c]> (clients s)) ss.
Proof.
  pose proof (inv_sessions _ _ _ _ I) as B. pose proof (fresh_session s I) as Hid. split.
  - intros j y [[<- <-]|[Hne Hy]]%lookup_insert_Some HD.
    + exists (ready (ss_user_id x) id c). by rewrite Ht, lookup_insert_eq.
    + destruct (so_live _ _ _ B j y Hy HD) as (d & Hd & Hrest). exists d. rewrite lookup_insert_ne; [done|].
      intros Heq. rewrite <- Heq in Hd. destruct Hrest as [Hj _]. congruence.
  - set_solver.
  - intros t' d j [[<- <-]|[Hne Hd]]%lookup_insert_Some Hj.
    + cbn in Hj. injection Hj as <-. exists x. by rewrite lookup_insert_eq.
    + destruct (so_named _ _ _ B t' d j Hd Hj) as (y & Hy & Hty). exists y. rewrite lookup_insert_ne; [done|congruence].
  - intros t' d [[<- <-]|[Hne Hd]]%lookup_insert_Some Hj; [done|]. by eapply (so_user _ _ _ B).
Qed.

Lemma established_calls : calls_ok ∅ (rooms s) ss.
Proof.
  pose proof (inv_calls _ _ _ _ I) as C. pose proof (fresh_session s I) as Hid. split.
  - intros j y i [[<- <-]|[Hne Hy]]%lookup_insert_Some Hi; [congruence|]. by eapply (ca_listed _ _ _ C).
  - intros r room i j Hroom Hi. destruct (ca_member _ _ _ C _ _ _ _ Hroom Hi) as (y & Hy & Hrest). exists y.
    rewrite lookup_insert_ne; [done|congruence].
  - intros j y r [[<- <-]|[Hne Hy]]%lookup_insert_Some Hr; [congruence|]. by eapply (ca_allowed _ _ _ C).
  - intros j y r [[<- <-]|[Hne Hy]]%lookup_insert_Some HL Hr; [congruence|]. by eapply (ca_streams _ _ _ C).
  - apply C.
Qed.

Lemma established_streams (cs : gmap Z client) : streams_ok ∅ cs (sessions s) (streams s) -> streams_ok ∅ cs ss (streams s).
Proof.
  intros V i v Hi. pose proof (V i v Hi) as B. pose proof (fresh_session s I) as Hid. split; try apply B.
  - destruct (vo_owner _ _ _ _ _ B) as [(y & Hy & Hrest)|[Hn Ho]]; [left; exists y|right].
    + rewrite lookup_insert_ne; [done|congruence].
    + destruct (id_streams _ _ _ _ _ _ _ _ _ _ (inv_ids _ _ _ _ I) i v Hi). rewrite lookup_insert_ne; [done|lia].
  - intros j k Hk'. destruct (vo_secrets _ _ _ _ _ B j k Hk') as (y & Hy & Hr). exists y. rewrite lookup_insert_ne; [done|congruence].
Qed.

Lemma established_rest :
  reserved_media_routes s !! route_id (ss_transport x) = None ->
  uploads_ok (rooms s) ss (active_uploads s) (reserved_file_names s) /\
  routes_ok (<[route_id (ss_transport x) := id]> (reserved_media_routes s)) ss /\
  links_ok ∅ (peer_links s) ss.
Proof.
  intros Hroute. pose proof (fresh_session s I) as Hid. pose proof (inv_ids _ _ _ _ I) as J. split_and!.
  - pose proof (inv_uploads _ _ _ _ I) as U. split; try apply U.
    + intros k u Hu. destruct (uo_owner _ _ _ _ U k u Hu) as [y Hy]. exists y. rewrite lookup_insert_ne; [done|congruence].
    + intros k u j y Hu Hj [[<- <-]|[Hne Hy]]%lookup_insert_Some; [|by eapply (uo_allowed _ _ _ _ U)].
      pose proof (id_recipients _ _ _ _ _ _ _ _ _ _ J k u _ Hu Hj). lia.
  - pose proof (inv_routes _ _ _ _ I) as R. split.
    + intros j y [[<- <-]|[Hne Hy]]%lookup_insert_Some; [apply lookup_insert_eq|].
      pose proof (ro_reserved _ _ R j y Hy). rewrite lookup_insert_ne; [done|congruence].
    + intros r j [[<- <-]|[Hne Hr]]%lookup_insert_Some; [exists x; by rewrite lookup_insert_eq|].
      destruct (ro_live _ _ R r j Hr) as (y & Hy & Hyr). exists y. rewrite lookup_insert_ne; [done|congruence].
  - pose proof (inv_links _ _ _ _ I) as K.
    assert (forall a b l, peer_links s !! (a, b) = Some l -> id <> a /\ id <> b) as Hno.
    { intros a b l Hl. destruct (id_links _ _ _ _ _ _ _ _ _ _ J a b l Hl). lia. }
    split; [apply K|..].
    + intros a b l j y Hl Hj. destruct (Hno a b l Hl). rewrite lookup_insert_ne by (destruct Hj; congruence). by eapply (li_member _ _ _ K).
    + intros a b l y z Hl. destruct (Hno a b l Hl). rewrite !lookup_insert_ne by done. by eapply (li_call _ _ _ K).
Qed.

Lemma established_moved :
  cc_state c = AwaitAuth -> is_Some (cc_control c) -> cc_pre_auth c = true ->
  reserved_media_routes s !! route_id (ss_transport x) = None -> newcomer (ss_user_id x) (ss_tcp_token x) -> moved 0 s (established t c x s).
Proof.
  intros Hst Hctl Hp Hroute Hnew. destruct (established_rest Hroute) as (U & R & K). pose proof (inv_conns _ _ _ _ I t c Hc) as Hok. cbn in Hok.
  assert (attached (ready (ss_user_id x) id c) = attached c) as Hat by done.
  split; cbn; try done; [|lia| |].
  2: { intros j y [[<- <-]|[Hne Hy]]%lookup_insert_Some; [by left|right; by eauto]. }
  split; cbn; try done; try keep I.
  - apply established_sessions.
  - apply established_calls.
  - apply established_streams. by eapply change_streams; [..|apply I].
  - replace (write_queue_total_bytes s) with (write_queue_total_bytes s + (write_len (ready (ss_user_id x) id c) - write_len c)).
    2: { replace (write_len (ready (ss_user_id x) id c)) with (write_len c) by done. lia. }
    eapply change_outbound; [|by apply (video_silent s t c)|done|apply I|].
    + intros p Hpc. by exists p.
    + intros Hvid. by apply (ob_capped _ _ _ _ _ _ _ _ (inv_outbound _ _ _ _ I) t c Hc).
  - intros t' q d m Hq [[<- <-]|[Hne Hd]]%lookup_insert_Some Hm r Hr; [|by eapply (inv_allowed _ _ _ _ I)].
    destruct (inv_allowed _ _ _ _ I t q c m Hq Hc Hm r Hr) as (u & Hu & _).
    rewrite (so_user _ _ _ (inv_sessions _ _ _ _ I) t c Hc Hs) in Hu. done.
  - by apply promote_slots; [apply I|..].
  - apply map_Forall_insert_2; [|apply I]. split; [apply Hok|apply Hok|]. unfold progress. cbn. rewrite Hk. by split_and!.
  - by eapply change_relayed; [..|apply I].
  - rewrite relay_view_snoc, (inv_relay _ _ _ _ I). cbn. rewrite fmap_insert. f_equal. unfold route_of. by rewrite Hv.
  - pose proof (change_ids t c (ready (ss_user_id x) id c) _ _ _ _ _ _ _ _ _ _ Hat Hc (inv_ids _ _ _ _ I)) as J. split; try apply J.
    + intros j y [[<- <-]|[Hne Hy]]%lookup_insert_Some; [lia|]. pose proof (id_sessions _ _ _ _ _ _ _ _ _ _ J j y Hy). lia.
    + intros a b l Hl. pose proof (id_links _ _ _ _ _ _ _ _ _ _ J a b l Hl). lia.
    + intros k u j Hu Hj. pose proof (id_recipients _ _ _ _ _ _ _ _ _ _ J k u j Hu Hj). lia.
    + intros i v Hi. destruct (id_streams _ _ _ _ _ _ _ _ _ _ J i v Hi). lia.
  - apply (kinds_insert _ _ _ _ c); [done|done|lia].
Qed.

End established.

Lemma room_infos_visible (s : server) u r : inv s -> r ∈ ri_room_id <$> accessible_room_infos s u -> may_see (rooms s) u r.
Proof.
  intros I Hr. unfold accessible_room_infos in Hr. rewrite <- list_fmap_compose in Hr.
  apply list_elem_of_fmap in Hr as (room & -> & Hroom). cbn. rewrite merge_sort_Permutation in Hroom.
  apply list_elem_of_filter in Hroom as [Ha Hroom]. apply elem_of_hash_values in Hroom as [k Hk].
  rewrite (ca_ids _ _ _ (inv_calls _ _ _ _ I) k room Hk). by exists room.
Qed.

Lemma next_session_moved (s : server) n : inv s -> next_session s <= n -> moved 0 s (set_next_session n s).
Proof.
  intros I Hn. split; cbn; try done; [|lia]. split; cbn; try keep I. pose proof (inv_ids _ _ _ _ I) as J. split; try apply J.
  - intros j y Hy. pose proof (id_sessions _ _ _ _ _ _ _ _ _ _ J j y Hy). lia.
  - intros a b l Hl. pose proof (id_links _ _ _ _ _ _ _ _ _ _ J a b l Hl). lia.
  - intros k u j Hu Hj. pose proof (id_recipients _ _ _ _ _ _ _ _ _ _ J k u j Hu Hj). lia.
  - intros i v Hi. destruct (id_streams _ _ _ _ _ _ _ _ _ _ J i v Hi). lia.
Qed.

(** A change of what only the connection itself uses. *)
Lemma same_write_moved (s : server) t c c' :
  inv s -> clients s !! t = Some c -> same_conn c c' -> conn_ok c' -> write_len c' = write_len c -> is_video c' = is_video c ->
  moved 0 s (set_clients (<[t := c']> (clients s)) s).
Proof.
  intros I Hc Hs Hok Hl Hv. rewrite (insert_replaced s t c c' Hl). apply replaced_moved; try done. rewrite Hv, Hl. intros Hvid.
  by apply (ob_capped _ _ _ _ _ _ _ _ (inv_outbound _ _ _ _ I) t c Hc).
Qed.

Lemma route_taken (s : server) r id : inv s -> sessions s !! id = None ->
  match register_media_route r id s with
  | (s', Ok _) => reserved_media_routes s !! r = None /\ s' = set_reserved_media_routes (<[r := id]> (reserved_media_routes s)) s
  | (s', Err _) => s' = s
  end.
Proof.
  intros I Hid. unfold register_media_route. destruct (reserved_media_routes s !! r) as [j|] eqn:Hr; [|done].
  destruct (ro_live _ _ (inv_routes _ _ _ _ I) r j Hr) as (y & Hy & _).
  rewrite bool_decide_true by congruence. rewrite bool_decide_true by by eexists. done.
Qed.

Lemma presence_moves (s : server) id b : inv s -> moves 0 s (broadcast_presence enc disc id b s).
Proof. intros I. eapply moves_kept, keeps_runs, (presence_ok enc (S (size (clients s)))); [apply disconnect_ok|lia|done]. Qed.

Lemma establish_moves (s : server) t e : inv s -> newcomer (Identity.user_id (pe_user e)) t -> moves_res 0 s (establish_session enc now now_ms t e s).
Proof.
  intros I Hnew. unfold establish_session. cbv zeta. set (s0 := set_next_session (next_session s + 1) s).
  set (u := Identity.user_id (pe_user e)). set (id := next_session s).
  pose proof (next_session_moved s (next_session s + 1) I ltac:(lia)) as K0. fold s0 in K0. pose proof (mv_inv _ _ _ K0) as I0.
  destruct (clients s0 !! t ≫= cc_transport) as [tr|] eqn:Htr; [|apply (moves_res_step 0 0 _ _ _ K0); by apply moves_res_id].
  apply bind_Some in Htr as (c & Hc & Htr). change (clients s !! t = Some c) in Hc.
  pose proof (inv_conns _ _ _ _ I t c Hc) as Hok. cbn in Hok.
  destruct (transport_ready c tr Hok Htr) as (Hk & Hst & Hctl & Hs & Hp).
  set (s1 := update_client t (set_transport None) s0).
  assert (s1 = set_clients (<[t := set_transport None c]> (clients s0)) s0) as Hs1.
  { unfold s1, update_client. by rewrite (alter_some _ _ _ c). }
  assert (moved 0 s s1) as K1.
  { apply (moved_trans 0 0 _ _ _ K0). rewrite Hs1. apply (same_write_moved s0 t c); try done.
    - apply same_conn_buffers; try done. by eapply video_silent.
    - split; [apply Hok|apply Hok|]. pose proof (co_progress _ Hok) as Hpr. unfold progress in Hpr |- *. cbn. by rewrite Hk, Hst in *. }
  assert (sessions s1 !! id = None) as Hid by (rewrite Hs1; apply (fresh_session s I)).
  pose proof (route_taken s1 (route_id tr) id (mv_inv _ _ _ K1) Hid) as Hroute.
  destruct (register_media_route (route_id tr) id s1) as [s2 [[]|e']].
  2: { subst s2. eexists _, _. split; [reflexivity|done]. }
  destruct Hroute as [Hfree ->]. rewrite Hs1 in Hfree.
  match goal with |- context [<[id := ?y]> _] => set (x := y) end.
  assert (finish_pre_auth t (update_client t (fun c => set_conn_user (Some u) (set_conn_session (Some id) (set_conn_state Ready c)))
    (set_sessions (<[id := x]> (sessions (submit_voice (RegisterSession id u (MediaProtection.from_transport tr))
       (set_reserved_media_routes (<[route_id tr := id]> (reserved_media_routes s1)) s1))))
       (submit_voice (RegisterSession id u (MediaProtection.from_transport tr))
          (set_reserved_media_routes (<[route_id tr := id]> (reserved_media_routes s1)) s1)))) = established t c x s) as ->.
  { rewrite Hs1. unfold update_client, finish_pre_auth. cbn [clients set_clients set_sessions submit_voice set_voice_commands set_reserved_media_routes].
    rewrite alter_insert_eq. cbn [clients set_clients]. rewrite lookup_insert_eq.
    change (cc_pre_auth (set_conn_user _ _)) with (cc_pre_auth c). rewrite Hp. cbn [clients set_clients pre_auth]. rewrite insert_insert_eq. done. }
  assert (moved 0 s (established t c x s)) as K2 by (by apply established_moved).
  pose proof (mv_inv _ _ _ K2) as I2. apply (moves_res_step 0 0 _ _ _ K2). set (s3 := established t c x s) in *.
  match goal with |- context [send_control_to_token enc disc t ?m s3] => set (m0 := m) end.
  assert (tellable s3 t m0) as Htell.
  { assert (sessions s3 !! id = Some x) as Hx by apply lookup_insert_eq.
    eapply (tellable_session enc ∅ ∅ s3 id); [done|apply live_token_spec; exists x; split_and!; [done|done|exists (ready u id c); apply lookup_insert_eq]|].
    intros y r Hy Hr. rewrite Hx in Hy. injection Hy as <-. apply (room_infos_visible s3 u r I2).
    unfold m0 in Hr. destruct (pe_issued_token e) as [[]|]; exact Hr. }
  apply (moves_res_then 0 0); [apply moves_res_kept; by apply send_kept|]. intros s4 r K4. pose proof (mv_inv _ _ _ K4).
  destruct r; [|by apply moves_res_id]. case_match; [by apply moves_done, presence_moves|by apply moves_res_id].
Qed.

Lemma update_client_known (s : server) t c f : clients s !! t = Some c -> update_client t f s = set_clients (<[t := f c]> (clients s)) s.
Proof. intros Hc. unfold update_client. by rewrite (alter_some _ _ _ _ Hc). Qed.

Lemma update_client_unknown (s : server) t f : clients s !! t = None -> update_client t f s = s.
Proof. intros Hc. unfold update_client. rewrite (alter_none _ _ _ Hc). by destruct s. Qed.

(** Fields no table looks at. *)
Lemma touch_moved (s : server) t (f : client -> client) :
  inv s -> (forall c, exists cl la rd rx, f c = set_rx rx (set_readiness rd (set_close cl (set_last_activity la c)))) -> moved 0 s (update_client t f s).
Proof.
  intros I Hf. destruct (clients s !! t) as [c|] eqn:Hc; [|rewrite update_client_unknown by done; by apply moved_refl].
  rewrite (update_client_known s t c) by done. pose proof (inv_conns _ _ _ _ I t c Hc) as Hok. cbn in Hok.
  destruct (Hf c) as (cl & la & rd & rx & ->). apply (same_write_moved s t c); try done.
  - apply same_conn_buffers; try done. by eapply video_silent.
  - split; apply Hok.
Qed.

Lemma reject_moves (s : server) t code m : inv s -> moves_res 0 s (reject_auth enc now t code m s).
Proof.
  intros I. unfold reject_auth. apply (moves_res_then 0 0); [by apply moves_res_kept, send_unscoped|]. intros s1 r K.
  pose proof (mv_inv _ _ _ K) as I1. destruct r; [|by apply moves_res_id].
  assert (moved 0 s1 (update_client t (begin_graceful_close now) s1)) as K2.
  { apply touch_moved; [done|]. intros c. unfold begin_graceful_close. destruct (cc_close c) eqn:Hcl.
    - exists (Draining (now + CLOSE_FLUSH_GRACE)), (cc_last_activity c), (cc_readiness c), (cc_rx c). by destruct c.
    - exists (cc_close c), (cc_last_activity c), (cc_readiness c), (cc_rx c). by destruct c. }
  apply (moves_res_step 0 0 _ _ _ K2), moves_done, write_client_moves, K2.
Qed.

End conns_inv.
