(* ===== verification/ServerSends.v ===== *)
(** * Sealing, sweeping and reporting keep the tables in order

    [process_control_sends] ends within its budget and moves the charge of each
    message it seals from the connection's pending bytes to its write queue; the
    periodic sweeps and the reports of the voice relay keep the tables in order. *)

From S2P Require Import Prelude Primitives Transport Handshake Auth Media Frame Evented ControlLane Video Net History Usernames Identity.
From S2P Require Import VoiceRelay RoomLog RoomStore ServerState ServerCascade ServerInvariant ServerTeardown ServerOps ServerConns ServerNames ServerKept ServerConnsInv.

Section sends.
Context {Rx Tx St : Type} `{HashOrder} `{ChatStoreLaws St} `{PrimitiveLaws} `{StreamWriter Tx}.
Context (encode_server_control : ServerControl -> bytes) (encode_server_hello : ServerHello -> bytes).
Context (random : nat -> nat -> option bytes) (now now_ms : Z) `{Unicode} (newcomer : Z -> Z -> Prop).
Abbreviation server := (Server Rx Tx St).
Abbreviation client := (ClientConn Rx Tx).
Abbreviation enc := encode_server_control.
Abbreviation inv := (inv enc ∅ ∅).
Abbreviation moved := (moved enc newcomer).
Abbreviation moves := (moves enc newcomer).
Abbreviation moves_res := (moves_res enc newcomer).
Abbreviation disc := (disconnect enc now).

#[local] Hint Resolve no_strangers_refl kinds_refl : core.

(** ** Sealing *)

Lemma seal_same p ch m out : same_seal p (RecordProtection.seal_next_into p ch m out).1.1.
Proof.
  intros n. destruct p as [c|]; [|done]. cbn. by destruct (TransportCipher.seal_next_into c ch m out) as [[c' out'] r].
Qed.

(** The outbound tables as one. *)
Definition outbound_set (cs : gmap Z client) pend bs total wtotal tokens set (s : server) : server :=
  set_clients cs (set_pending_controls pend (set_pending_control_bytes bs (set_pending_control_total_bytes total
    (set_write_queue_total_bytes wtotal (set_control_send_tokens tokens (set_control_send_set set s)))))).

Lemma outbound_inv (s : server) t c c' pend bs total wtotal tokens set :
  inv s -> clients s !! t = Some c -> same_conn c c' -> conn_ok c' ->
  (forall t' q m, pend !! t' = Some q -> m ∈ q -> exists q0, pending_controls s !! t' = Some q0 /\ m ∈ q0) ->
  (forall t', t' ∈ tokens -> t' ∈ control_send_tokens s) ->
  outbound_ok enc (<[t := c']> (clients s)) pend bs total wtotal tokens set ->
  inv (outbound_set (<[t := c']> (clients s)) pend bs total wtotal tokens set s).
Proof.
  intros I Hc Hs Hok Hpend Htok O. split; cbn; try keep I.
  - by eapply change_sessions; [apply Hs..|done|apply I].
  - by eapply change_streams; [apply Hs|done|apply I].
  - exact O.
  - intros t' q d m Hq Hd Hm r Hr. destruct (Hpend t' q m Hq Hm) as (q0 & Hq0 & Hm0).
    apply lookup_insert_Some in Hd as [[<- <-]|[Hne Hd]]; [rewrite (sc_user _ _ Hs)|]; by eapply (inv_allowed _ _ _ _ I).
  - by eapply change_slots; [| |apply I].
  - apply map_Forall_insert_2; [done|apply I].
  - by eapply change_relayed; [apply Hs|done|apply I].
  - pose proof (change_ids t c c' _ _ _ _ _ _ _ _ _ _ (sc_attached _ _ Hs) Hc (inv_ids _ _ _ _ I)) as J. split; try apply J.
    intros t' Ht'. by apply (id_queued _ _ _ _ _ _ _ _ _ _ J), Htok.
Qed.

Section sealing.
Context (cs : gmap Z client) (pend : gmap Z (list ServerControl)) (bs : gmap Z Z) (total wtotal : Z) (ts : list Z) (set : gset Z).
Context (t : Z) (c : client) (p : RecordProtection) (m : ServerControl) (q : list ServerControl).
Context (O : outbound_ok enc cs pend bs total wtotal (t :: ts) set) (Hq : pend !! t = Some (m :: q)).
Context (Hc : cs !! t = Some c) (Hp : cc_control c = Some p) (c' : client) (p' : RecordProtection).
Context (Hp' : cc_control c' = Some p') (Hs : same_seal p p') (Hv : is_video c' = is_video c).

Lemma sealing_charge : bs !! t = Some (control_cost enc p m + lsum (control_cost enc p) q).
Proof. destruct (ob_queued _ _ _ _ _ _ _ _ O t _ Hq) as (_ & d & p0 & Hd & Hp0 & ->). simplify_eq. done. Qed.

Lemma sealing_total : control_cost enc p m + lsum (control_cost enc p) q <= total.
Proof.
  rewrite (ob_total _ _ _ _ _ _ _ _ O). apply (msum_part id bs t); [apply (outbound_nonneg _ _ _ _ _ _ _ _ O)|apply sealing_charge].
Qed.

Lemma sealing_scheduled : t ∈ set /\ t ∉ ts.
Proof. split; [apply (ob_set _ _ _ _ _ _ _ _ O); by eexists|]. by apply (NoDup_cons_1_1 t ts), (ob_nodup _ _ _ _ _ _ _ _ O). Qed.

Lemma others_queued t' q' : t <> t' -> pend !! t' = Some q' -> q' <> [] /\
  exists d p0, <[t := c']> cs !! t' = Some d /\ cc_control d = Some p0 /\ bs !! t' = Some (lsum (control_cost enc p0) q').
Proof.
  intros Hne Hq'. destruct (ob_queued _ _ _ _ _ _ _ _ O t' q' Hq') as (? & d & p0 & Hd & ?). split; [done|]. exists d, p0.
  by rewrite lookup_insert_ne.
Qed.

Lemma others_silent t' d : <[t := c']> cs !! t' = Some d -> is_video d = true -> cc_control d = None.
Proof.
  intros [[<- <-]|[Hne Hd]]%lookup_insert_Some Hvid; [|by eapply (ob_video _ _ _ _ _ _ _ _ O)].
  rewrite Hv in Hvid. pose proof (ob_video _ _ _ _ _ _ _ _ O t c Hc Hvid). congruence.
Qed.

(** A message sealed with more waiting behind it. *)
Lemma sealed_more :
  q <> [] -> write_len c' = write_len c + control_cost enc p m ->
  outbound_ok enc (<[t := c']> cs) (<[t := q]> pend) (<[t := lsum (control_cost enc p) q]> bs)
    (total - control_cost enc p m) (wtotal + (write_len c' - write_len c)) (ts ++ [t]) ({[t]} ∪ (set ∖ {[t]})).
Proof.
  intros Hne Hl. destruct sealing_scheduled as [Hset Hts]. pose proof sealing_charge as Hb.
  split.
  - intros t' q' [[<- <-]|[Hnt Hq']]%lookup_insert_Some.
    + split; [done|]. exists c', p'. rewrite !lookup_insert_eq, (same_seal_cost _ _ _ _ Hs). done.
    + rewrite (lookup_insert_ne bs) by done. by apply others_queued.
  - intros t' n [[<- <-]|[Hnt Hn]]%lookup_insert_Some; [rewrite lookup_insert_eq; by eexists|].
    rewrite lookup_insert_ne by done. by eapply (ob_charged _ _ _ _ _ _ _ _ O).
  - rewrite (msum_insert_some _ _ _ _ _ Hb), (ob_total _ _ _ _ _ _ _ _ O). cbn. lia.
  - rewrite (msum_insert_some _ _ _ _ _ Hc), (ob_written _ _ _ _ _ _ _ _ O). lia.
  - intros t' d [[<- <-]|[Hnt Hd]]%lookup_insert_Some Hvid.
    + rewrite lookup_insert_eq. cbn. rewrite Hv in Hvid. pose proof (ob_capped _ _ _ _ _ _ _ _ O t c Hc Hvid) as Hcap.
      rewrite Hb in Hcap. cbn in Hcap. lia.
    + rewrite lookup_insert_ne by done. by apply (ob_capped _ _ _ _ _ _ _ _ O).
  - apply others_silent.
  - intros t'. destruct (decide (t = t')) as [<-|Hnt]; [rewrite lookup_insert_eq; split; [by eexists|set_solver]|].
    rewrite lookup_insert_ne, <- (ob_set _ _ _ _ _ _ _ _ O) by done. set_solver.
  - intros t' Ht'. pose proof (ob_tokens _ _ _ _ _ _ _ _ O t'). set_solver.
  - intros t' Ht'. destruct (decide (t = t')) as [<-|Hnt]; [left; set_solver|]. rewrite lookup_insert_ne by done.
    destruct (ob_stale _ _ _ _ _ _ _ _ O t'); [set_solver|left; set_solver|by right].
  - rewrite Permutation_app_comm. apply (ob_nodup _ _ _ _ _ _ _ _ O).
Qed.

(** The connection's last message taken, sealed ([k] is its cost) or not: nothing
    is charged to the connection any more. *)
Lemma unqueued k wt :
  (is_video c' = false -> write_len c' <= CONTROL_WRITE_HIGH_WATER) -> k = control_cost enc p m + lsum (control_cost enc p) q ->
  wt = wtotal + (write_len c' - write_len c) ->
  outbound_ok enc (<[t := c']> cs) (delete t pend) (delete t bs) (total - k) wt ts (set ∖ {[t]}).
Proof.
  intros Hcap -> ->. destruct sealing_scheduled as [Hset Hts]. pose proof sealing_charge as Hb.
  split.
  - intros t' q' [Hnt Hq']%lookup_delete_Some. rewrite (lookup_delete_ne bs) by done. by apply others_queued.
  - intros t' n [Hnt Hn]%lookup_delete_Some. rewrite lookup_delete_ne by done. by eapply (ob_charged _ _ _ _ _ _ _ _ O).
  - rewrite (ob_total _ _ _ _ _ _ _ _ O), (msum_delete id bs t _ Hb). cbn. lia.
  - rewrite (msum_insert_some _ _ _ _ _ Hc), (ob_written _ _ _ _ _ _ _ _ O). lia.
  - intros t' d [[<- <-]|[Hnt Hd]]%lookup_insert_Some Hvid; [rewrite lookup_delete_eq; cbn; specialize (Hcap Hvid); lia|].
    rewrite lookup_delete_ne by done. by apply (ob_capped _ _ _ _ _ _ _ _ O).
  - apply others_silent.
  - intros t'. destruct (decide (t = t')) as [<-|Hnt]; [rewrite lookup_delete_eq; split; [set_solver|by intros []]|].
    rewrite lookup_delete_ne, <- (ob_set _ _ _ _ _ _ _ _ O) by done. set_solver.
  - intros t' Ht'. pose proof (ob_tokens _ _ _ _ _ _ _ _ O t'). set_solver.
  - intros t' Ht'. assert (t <> t') by congruence. rewrite lookup_insert_ne by done.
    destruct (ob_stale _ _ _ _ _ _ _ _ O t'); [set_solver|left; set_solver|by right].
  - by eapply NoDup_cons_1_2, (ob_nodup _ _ _ _ _ _ _ _ O).
Qed.

End sealing.

(** The connection after a seal; [q] is its write queue. *)
Definition resealed (p' : RecordProtection) (q : WriteQueue) (c : client) : client := set_write_buf q (set_control_cipher (Some p') c).

Lemma resealed_conn (c : client) p p' q :
  conn_ok c -> cc_control c = Some p -> same_seal p p' -> WriteQueue.wf q ->
  same_conn c (resealed p' q c) /\ conn_ok (resealed p' q c) /\ is_video (resealed p' q c) = is_video c.
Proof.
  intros Hok Hp Hs Hq. pose proof (co_progress _ Hok) as Hpr. unfold progress, setting_up in Hpr. split_and!; [split; try done| |done].
  - intros p0 Hp0. rewrite Hp in Hp0. injection Hp0 as <-. by exists p'.
  - unfold is_video. cbn. destruct (cc_kind c); [done..|]. destruct Hpr as (Hn & _). congruence.
  - split; [done|apply Hok|]. unfold progress, setting_up. cbn.
    destruct (cc_kind c); [destruct Hpr as (_ & ? & _); congruence| |destruct Hpr; congruence].
    destruct (cc_state c); [destruct Hpr; congruence| |]; naive_solver.
Qed.

Lemma queue_write_outbound (s : server) t pend bs :
  set_pending_control_bytes bs (set_pending_controls pend (queue_client_write t s)) =
  queue_client_write t (set_pending_control_bytes bs (set_pending_controls pend s)).
Proof. unfold queue_client_write. cbn. by case_decide. Qed.

Lemma queue_write_tokens (s : server) t ts set :
  set_control_send_tokens ts (set_control_send_set set (queue_client_write t s)) =
  queue_client_write t (set_control_send_tokens ts (set_control_send_set set s)).
Proof. unfold queue_client_write. cbn. by case_decide. Qed.

Lemma queue_write_fields (s : server) t :
  clients (queue_client_write t s) = clients s /\ pending_controls (queue_client_write t s) = pending_controls s /\
  pending_control_bytes (queue_client_write t s) = pending_control_bytes s /\
  control_send_set (queue_client_write t s) = control_send_set s /\
  control_send_tokens (queue_client_write t s) = control_send_tokens s.
Proof. unfold queue_client_write. by case_decide. Qed.

(** A disconnect forgets the token first, so what is queued for it does not matter. *)
Lemma forget_idemp t (s : server) : forget_token t (forget_token t s) = forget_token t s.
Proof.
  unfold forget_token at 1. rewrite decide_False.
  2: { unfold forget_token. case_decide; case_match; cbn; set_solver. }
  set (s1 := forget_token t s).
  assert (pending_controls s1 !! t = None) as Hp by (unfold s1; rewrite forget_eq; apply lookup_delete_eq).
  assert (pending_control_bytes s1 !! t = None) as Hb by (unfold s1; rewrite forget_eq; apply lookup_delete_eq).
  assert (control_send_set s1 ∖ {[t]} = control_send_set s1) as Hs by (unfold s1; rewrite forget_eq; cbn; set_solver).
  cbn [pending_control_bytes set_pending_controls]. rewrite Hb. cbn [control_send_set set_pending_controls]. rewrite Hs, (delete_id _ _ Hp). by destruct s1.
Qed.

Lemma disconnect_forgotten t (s : server) : disc t (forget_token t s) = disc t s.
Proof.
  unfold disconnect. replace (size (clients (forget_token t s))) with (size (clients s)) by (by rewrite forget_eq).
  cbn [disconnect_fuel]. unfold disconnect_body. by rewrite forget_idemp.
Qed.

(** ** One scheduled message *)

(** The tokens the loop may still meet. *)
Definition work (s : server) : gset Z := list_to_set (control_send_tokens s) ∪ dom (clients s).

Lemma work_shrinks (s s' : server) : shrinks ∅ s s' -> work s' ⊆ work s.
Proof.
  intros Hs t. unfold work. rewrite !elem_of_union, !elem_of_list_to_set, !elem_of_dom. intros [Ht|[c Hc]].
  - destruct (clients s !! t) as [c|] eqn:Hc; [right; by eexists|left]. by apply (sh_tokens _ _ _ Hs).
  - right. exists c. by eapply shrinks_client.
Qed.

Lemma disc_work (s : server) t : inv s -> exists s', disc t s = Some s' /\ moved 0 s s' /\ work s' ⊆ work s.
Proof.
  intros I. destruct (disconnect_ok enc now (S (size (clients s))) t ∅ ∅ s ltac:(lia) I) as (s' & E & I' & Hs & _).
  exists s'. split; [done|]. split; [|by apply work_shrinks]. destruct (disc_moves enc now newcomer s t I) as (s2 & E2 & K). congruence.
Qed.

(** The state with the first token and its first message taken off. *)
Definition popped (t : Z) (ts : list Z) (q : list ServerControl) (s : server) : server :=
  set_pending_controls (<[t := q]> (pending_controls s)) (set_control_send_set (control_send_set s ∖ {[t]}) (set_control_send_tokens ts s)).

Lemma seal_queue p m c : conn_ok c ->
  let '(p', frame, r) := RecordProtection.seal_next_into p CHANNEL_CONTROL (enc m)
    (le_bytes 4 (Z.of_nat (RecordProtection.sealed_len p (length (enc m))))) in
  let c' := resealed p' (WriteQueue.append (cc_write_buf c) frame) c : client in
  same_seal p p' /\ (r = Ok () -> WriteQueue.wf (cc_write_buf c') /\ write_len c' = write_len c + control_cost enc p m).
Proof.
  intros Hok. match goal with |- context [RecordProtection.seal_next_into ?a ?b ?d ?e] =>
    pose proof (seal_same a b d e) as Hs; destruct (RecordProtection.seal_next_into a b d e) as [[p' frame] r] eqn:Hseal end.
  cbn zeta. split; [exact Hs|]. intros ->. apply seal_next_into_appends in Hseal as (tail & -> & Htail).
  destruct (write_queue_append (cc_write_buf c)
    (le_bytes 4 (Z.of_nat (RecordProtection.sealed_len p (length (enc m)))) ++ tail) (co_queue _ Hok)) as [Hwf Hpend].
  split; [exact Hwf|]. unfold write_len, resealed, control_cost. cbn [cc_write_buf set_write_buf].
  rewrite !write_queue_len, Hpend, !length_app, Htail, length_le_bytes. unfold LENGTH_PREFIX_LEN. lia.
Qed.

Lemma seal_now_eq (s : server) t c p m : clients s !! t = Some c -> cc_control c = Some p ->
  seal_control_payload_now t (enc m) s =
  let '(p', frame, r) := RecordProtection.seal_next_into p CHANNEL_CONTROL (enc m)
    (le_bytes 4 (Z.of_nat (RecordProtection.sealed_len p (length (enc m))))) in
  match r with
  | Err e => (set_clients (<[t := resealed p' (cc_write_buf c) c]> (clients s)) s, Err (crypto_error_text e))
  | Ok _ => (queue_client_write t (replaced t c (resealed p' (WriteQueue.append (cc_write_buf c) frame) c) s), Ok ())
  end.
Proof.
  intros Hc Hp. unfold seal_control_payload_now. rewrite Hc, Hp. by destruct (RecordProtection.seal_next_into _ _ _ _) as [[p' frame] [[]|e]].
Qed.

Lemma queued_after t (s : server) : t ∉ control_send_set s ->
  let after (s : server) :=
    if has_pending s t then set_control_send_tokens (control_send_tokens s ++ [t]) (set_control_send_set ({[t]} ∪ control_send_set s) s)
    else set_pending_control_bytes (delete t (pending_control_bytes s)) (set_pending_controls (delete t (pending_controls s)) s) in
  let s1 := queue_client_write t s in
  (if has_pending s1 t
   then (if decide (t ∈ control_send_set s1) then s1
         else set_control_send_tokens (control_send_tokens s1 ++ [t]) (set_control_send_set ({[t]} ∪ control_send_set s1) s1))
   else set_pending_control_bytes (delete t (pending_control_bytes s1)) (set_pending_controls (delete t (pending_controls s1)) s1)) =
  queue_client_write t (after s).
Proof.
  intros Ht after s1. subst after s1. cbn beta. destruct (queue_write_fields s t) as (F1 & F2 & F3 & F4 & F5). unfold has_pending.
  rewrite F2, F3, F4, F5, decide_False, queue_write_outbound, queue_write_tokens by done. by destruct (pending_controls s !! t) as [[]|].
Qed.

Lemma work_queue_write t (s : server) : work (queue_client_write t s) = work s.
Proof. destruct (queue_write_fields s t) as (F1 & _ & _ & _ & F5). unfold work. by rewrite F1, F5. Qed.

(** The state in which a message is sealed: it is charged to the connection no more. *)
Definition uncharged (t : Z) (ts : list Z) (q : list ServerControl) (k : Z) (s : server) : server :=
  set_pending_control_total_bytes (saturating_sub (pending_control_total_bytes s) k)
    (set_pending_control_bytes (alter (fun n => saturating_sub n k) t (pending_control_bytes s)) (popped t ts q s)).

Section scheduled.
Context (s : server) (t : Z) (ts : list Z) (m : ServerControl) (q : list ServerControl) (I : inv s).
Context (Htok : control_send_tokens s = t :: ts) (Hq : pending_controls s !! t = Some (m :: q)).
Context (c : client) (p : RecordProtection) (Hc : clients s !! t = Some c) (Hp : cc_control c = Some p).

Lemma scheduled_outbound : outbound_ok enc (clients s) (pending_controls s) (pending_control_bytes s) (pending_control_total_bytes s)
  (write_queue_total_bytes s) (t :: ts) (control_send_set s).
Proof. rewrite <- Htok. apply I. Qed.

Lemma scheduled_charge : pending_control_bytes s !! t = Some (control_cost enc p m + lsum (control_cost enc p) q) /\
  0 <= lsum (control_cost enc p) q /\ 0 < control_cost enc p m /\ control_cost enc p m + lsum (control_cost enc p) q <= pending_control_total_bytes s.
Proof.
  split_and!; [by eapply sealing_charge; [apply scheduled_outbound|..]| |apply control_cost_pos|by eapply sealing_total; [apply scheduled_outbound|..]].
  apply lsum_nonneg, Forall_forall. intros m' _. pose proof (control_cost_pos enc p m'). lia.
Qed.

Lemma uncharged_bytes k : alter (fun n => saturating_sub n k) t (pending_control_bytes s) =
  <[t := saturating_sub (control_cost enc p m + lsum (control_cost enc p) q) k]> (pending_control_bytes s).
Proof. apply (alter_some _ t (fun n => saturating_sub n k)), scheduled_charge. Qed.

Lemma work_kept (s' : server) : (forall t', t' ∈ control_send_tokens s' -> t' ∈ t :: ts) -> dom (clients s') = dom (clients s) -> work s' ⊆ work s.
Proof. intros Ht Hd. unfold work. rewrite Hd, Htok. set_solver. Qed.

Lemma dom_known (c' : client) : dom (<[t := c']> (clients s)) = dom (clients s).
Proof. apply dom_insert_lookup_L. by eexists. Qed.

(** A failed seal. *)
Definition failed (p' : RecordProtection) : server :=
  let s1 := uncharged t ts q (control_cost enc p m) s in set_clients (<[t := resealed p' (cc_write_buf c) c]> (clients s1)) s1.

Lemma failed_moves p' : same_seal p p' -> exists s', disc t (failed p') = Some s' /\ moved 0 s s' /\ work s' ⊆ work s.
Proof.
  intros Hs. pose proof (inv_conns _ _ _ _ I t c Hc) as Hok. cbn in Hok. destruct scheduled_charge as (Hb & Hnn & Hpos & Htot).
  destruct (resealed_conn c p p' (cc_write_buf c) Hok Hp Hs (co_queue _ Hok)) as (Hsame & Hok' & Hv).
  rewrite <- disconnect_forgotten. unfold failed. cbn zeta. set (c' := resealed p' (cc_write_buf c) c) in *.
  match goal with |- context [forget_token t ?x] => set (s1 := x); set (s2 := forget_token t s1) end.
  assert (inv s2) as I2.
  { unfold s2. rewrite forget_eq. fold s2. unfold s1, uncharged.
    assert (outbound_ok enc (<[t := c']> (clients s)) (delete t (pending_controls s)) (delete t (pending_control_bytes s))
      (pending_control_total_bytes s - (control_cost enc p m + lsum (control_cost enc p) q)) (write_queue_total_bytes s) ts (control_send_set s ∖ {[t]})) as O.
    { eapply unqueued; [apply scheduled_outbound|done..| |done|unfold c', resealed, write_len; cbn; lia].
      intros Hvid. rewrite Hv in Hvid. pose proof (ob_capped _ _ _ _ _ _ _ _ scheduled_outbound t c Hc Hvid) as Hcap.
      rewrite Hb in Hcap. unfold c', resealed, write_len in *. cbn in *. lia. }
    pose proof (outbound_inv s t c c' _ _ _ _ _ _ I Hc Hsame Hok'
      ltac:(intros t' q' m' [_ Hq']%lookup_delete_Some Hm'; eauto) ltac:(intros t' Ht'; rewrite Htok; by right) O) as I2.
    cbn [pending_control_bytes pending_control_total_bytes pending_controls control_send_set set_clients set_pending_control_total_bytes
      set_pending_control_bytes popped set_pending_controls set_control_send_set set_control_send_tokens].
    rewrite uncharged_bytes, lookup_insert_eq, !delete_insert_eq. unfold saturating_sub.
    replace (Z.max 0 _) with (pending_control_total_bytes s - (control_cost enc p m + lsum (control_cost enc p) q)) by lia.
    replace (control_send_set s ∖ {[t]} ∖ {[t]}) with (control_send_set s ∖ {[t]}) by set_solver.
    split; apply I2. }
  destruct (disc_work s2 t I2) as (s3 & E & K & Hw). exists s3. split; [done|]. split.
  - apply (moved_trans enc newcomer 0 0 s s2 s3); [|exact K]. split; [exact I2|..]; unfold s2; rewrite forget_eq; cbn; try done; [lia|].
    apply (kinds_insert _ _ _ _ c); [done|apply Hsame|lia].
  - etrans; [exact Hw|]. apply work_kept; unfold s2; rewrite forget_eq; [by right|apply dom_known].
Qed.

(** A seal that worked, with the bookkeeping after it. *)
Lemma sealed_moves p' b : same_seal p p' -> let c' := resealed p' b c : client in
  WriteQueue.wf b -> write_len c' = write_len c + control_cost enc p m ->
  let s1 := replaced t c c' (uncharged t ts q (control_cost enc p m) s) in
  let s2 := if has_pending s1 t
            then set_control_send_tokens (control_send_tokens s1 ++ [t]) (set_control_send_set ({[t]} ∪ control_send_set s1) s1)
            else set_pending_control_bytes (delete t (pending_control_bytes s1)) (set_pending_controls (delete t (pending_controls s1)) s1) in
  moved 0 s s2 /\ work s2 ⊆ work s.
Proof.
  intros Hs c' Hb Hl s1 s2. pose proof (inv_conns _ _ _ _ I t c Hc) as Hok. cbn in Hok. destruct scheduled_charge as (Hch & Hnn & Hpos & Htot).
  destruct (resealed_conn c p p' b Hok Hp Hs Hb) as (Hsame & Hok' & Hv). fold c' in Hsame, Hok', Hv.
  assert (has_pending s1 t = bool_decide (q <> [])) as Hpend.
  { unfold has_pending, s1, replaced, uncharged, popped. cbn [pending_controls set_write_queue_total_bytes set_clients
      set_pending_control_total_bytes set_pending_control_bytes set_pending_controls]. rewrite lookup_insert_eq. by destruct q. }
  assert (saturating_sub (pending_control_total_bytes s) (control_cost enc p m) = pending_control_total_bytes s - control_cost enc p m) as Hsub
    by (unfold saturating_sub; lia).
  assert (saturating_sub (control_cost enc p m + lsum (control_cost enc p) q) (control_cost enc p m) = lsum (control_cost enc p) q) as Hsub2
    by (unfold saturating_sub; lia).
  assert (forall ts' : list Z, (forall t', t' ∈ ts' -> t' ∈ t :: ts) -> forall t', t' ∈ ts' -> t' ∈ control_send_tokens s) as Hin by (rewrite Htok; auto).
  unfold s2. rewrite Hpend. destruct (decide (q = [])) as [Eq|Hne].
  - rewrite bool_decide_false by auto. rewrite Eq in Hch, Hsub2. cbn [lsum foldr] in Hch, Hsub2. split; [|apply work_kept; [by right|apply dom_known]].
    split; cbn; try done; [|lia|by apply (kinds_insert _ _ _ _ c)]. unfold s1, replaced, uncharged, popped. cbn [pending_controls pending_control_bytes set_write_queue_total_bytes set_clients
      set_pending_control_total_bytes set_pending_control_bytes set_pending_controls].
    rewrite uncharged_bytes, !delete_insert_eq, Hsub.
    assert (outbound_ok enc (<[t := c']> (clients s)) (delete t (pending_controls s)) (delete t (pending_control_bytes s))
      (pending_control_total_bytes s - control_cost enc p m) (write_queue_total_bytes s + (write_len c' - write_len c)) ts
      (control_send_set s ∖ {[t]})) as O.
    { eapply unqueued; [apply scheduled_outbound|done..| |rewrite Eq; cbn; lia|done]. intros Hvid. rewrite Hv in Hvid.
      pose proof (ob_capped _ _ _ _ _ _ _ _ scheduled_outbound t c Hc Hvid) as Hcap. rewrite Hch in Hcap. cbn in Hcap. lia. }
    pose proof (outbound_inv s t c c' _ _ _ _ _ _ I Hc Hsame Hok'
      ltac:(intros t' q' m' [_ Hq']%lookup_delete_Some Hm'; eauto) ltac:(apply Hin; by right) O) as I2. split; apply I2.
  - rewrite bool_decide_true by done. split; [|apply work_kept; [cbn; set_solver|apply dom_known]].
    split; cbn; try done; [|lia|by apply (kinds_insert _ _ _ _ c)]. unfold s1, replaced, uncharged, popped. cbn [pending_controls pending_control_bytes set_write_queue_total_bytes set_clients
      set_pending_control_total_bytes set_pending_control_bytes set_pending_controls].
    rewrite uncharged_bytes, Hsub, Hsub2.
    pose proof (sealed_more _ _ _ _ _ _ _ t c p m q scheduled_outbound Hq Hc Hp c' p' eq_refl Hs Hv Hne Hl) as O.
    assert (forall t' q' m', <[t := q]> (pending_controls s) !! t' = Some q' -> m' ∈ q' ->
      exists q0, pending_controls s !! t' = Some q0 /\ m' ∈ q0) as Hsub'.
    { intros t' q' m' [[<- <-]|[Hnt Hq']]%lookup_insert_Some Hm'; [|by eauto]. exists (m :: q). split; [done|by right]. }
    pose proof (outbound_inv s t c c' _ _ _ _ _ _ I Hc Hsame Hok' Hsub' ltac:(apply (Hin (ts ++ [t])); set_solver) O) as I2. split; apply I2.
Qed.

Lemma send_scheduled_eq : send_scheduled enc now t m (popped t ts q s) =
  let '(s1, r) := seal_control_payload_now t (enc m) (uncharged t ts q (control_cost enc p m) s) in
  match r with
  | Err _ => s2 ← disc t s1; Some (s2, false)
  | Ok _ => Some (if has_pending s1 t
                  then (if decide (t ∈ control_send_set s1) then s1
                        else set_control_send_tokens (control_send_tokens s1 ++ [t]) (set_control_send_set ({[t]} ∪ control_send_set s1) s1))
                  else set_pending_control_bytes (delete t (pending_control_bytes s1)) (set_pending_controls (delete t (pending_controls s1)) s1), true)
  end.
Proof.
  unfold send_scheduled. replace (clients (popped t ts q s) !! t ≫= cc_control) with (Some p); [reflexivity|].
  unfold popped. cbn [clients set_pending_controls set_control_send_set set_control_send_tokens]. by rewrite Hc.
Qed.

Lemma uncharged_client : clients (uncharged t ts q (control_cost enc p m) s) !! t = Some c.
Proof. exact Hc. Qed.

Lemma unscheduled (c' : client) : t ∉ control_send_set (replaced t c c' (uncharged t ts q (control_cost enc p m) s)).
Proof. change (t ∉ (control_send_set s ∖ {[t]})). set_solver. Qed.

Lemma scheduled_moves : exists s' b, send_scheduled enc now t m (popped t ts q s) = Some (s', b) /\ moved 0 s s' /\ work s' ⊆ work s.
Proof.
  pose proof (inv_conns _ _ _ _ I t c Hc) as Hok. cbn in Hok.
  rewrite send_scheduled_eq, (seal_now_eq (uncharged t ts q (control_cost enc p m) s) t c p m uncharged_client Hp). pose proof (seal_queue p m c Hok) as Hseal.
  destruct (RecordProtection.seal_next_into _ _ _ _) as [[p' frame] r]. cbn zeta in Hseal. destruct Hseal as [Hs Hw].
  destruct r as [[]|e].
  - destruct (Hw eq_refl) as [Hwf Hl].
    assert (Hmv := sealed_moves p' (WriteQueue.append (cc_write_buf c) frame) Hs Hwf Hl). cbn zeta in Hmv.
    eexists _, true. split; [reflexivity|]. rewrite (queued_after _ _ (unscheduled _)). destruct Hmv as [K Hwk].
    split; [|by rewrite work_queue_write]. eapply (moved_trans enc newcomer 0 0); [exact K|]. by apply queue_write_moved, K.
  - destruct (failed_moves p' Hs) as (s' & E & K & Hwk). exists s', false. split; [|done]. fold (failed p'). by rewrite E.
Qed.

End scheduled.

(** ** The loop *)

(** A token whose connection is gone leaves the queue. *)
Lemma stale_moved (s : server) t ts :
  inv s -> control_send_tokens s = t :: ts -> (forall m q, pending_controls s !! t <> Some (m :: q)) ->
  let s' := set_control_send_set (control_send_set s ∖ {[t]}) (set_control_send_tokens ts s) in
  let s' := set_pending_control_bytes (delete t (pending_control_bytes s')) (set_pending_controls (delete t (pending_controls s')) s') in
  moved 0 s s' /\ (size (work s') < size (work s))%nat.
Proof.
  intros I Htok Hq. pose proof (inv_outbound _ _ _ _ I) as O. rewrite Htok in O. cbn zeta.
  assert (pending_controls s !! t = None) as Hn.
  { destruct (pending_controls s !! t) as [[|m q]|] eqn:E; [|naive_solver|done]. by destruct (ob_queued _ _ _ _ _ _ _ _ O t _ E). }
  assert (t ∉ control_send_set s) as Hset by (rewrite (ob_set _ _ _ _ _ _ _ _ O), Hn; by intros []).
  assert (pending_control_bytes s !! t = None) as Hb.
  { apply eq_None_not_Some. intros [n E]. destruct (ob_charged _ _ _ _ _ _ _ _ O t n E). congruence. }
  assert (clients s !! t = None) as Hc by (destruct (ob_stale _ _ _ _ _ _ _ _ O t); [by left|done|done]).
  pose proof (ob_nodup _ _ _ _ _ _ _ _ O) as [Hts Hnd]%NoDup_cons.
  cbn [pending_controls pending_control_bytes control_send_set set_control_send_set set_control_send_tokens set_pending_controls].
  rewrite !delete_id by done. replace (control_send_set s ∖ {[t]}) with (control_send_set s) by set_solver.
  split; [|apply subset_size; unfold work; cbn [control_send_tokens clients set_pending_control_bytes set_pending_controls set_control_send_set
    set_control_send_tokens]; rewrite Htok; apply not_elem_of_dom in Hc; set_solver].
  split; cbn; try done; [|lia]. split; cbn; try keep I.
  - split; try apply O; [|intros t' Ht'; by apply (ob_stale _ _ _ _ _ _ _ _ O); right|done].
    intros t' Ht'. pose proof (ob_tokens _ _ _ _ _ _ _ _ O t' Ht') as [->|]%elem_of_cons; done.
  - pose proof (inv_ids _ _ _ _ I) as J. split; try apply J. intros t' Ht'. apply (id_queued _ _ _ _ _ _ _ _ _ _ J). rewrite Htok. by right.
Qed.

Lemma put_back (s : server) t ts m q :
  inv s -> control_send_tokens s = t :: ts -> pending_controls s !! t = Some (m :: q) ->
  let s' := popped t ts q s in
  let s' := set_pending_controls (<[t := m :: q]> (pending_controls s')) s' in
  set_control_send_tokens (t :: control_send_tokens s') (set_control_send_set ({[t]} ∪ control_send_set s') s') = s.
Proof.
  intros I Htok Hq. pose proof (inv_outbound _ _ _ _ I) as O.
  assert (t ∈ control_send_set s) as Hset by (apply (ob_set _ _ _ _ _ _ _ _ O); by eexists).
  unfold popped. cbn zeta. cbn [pending_controls control_send_set control_send_tokens set_pending_controls set_control_send_set set_control_send_tokens].
  rewrite insert_insert_eq, (insert_id _ _ _ Hq), <- Htok. replace ({[t]} ∪ control_send_set s ∖ {[t]}) with (control_send_set s).
  - by destruct s.
  - apply set_eq. intros x. destruct (decide (x = t)); set_solver.
Qed.

Lemma send_loop_moves fuel : forall records sealed (s : server),
  inv s -> (size (work s) + (CONTROL_SEAL_BUDGET_RECORDS - records) < fuel)%nat -> moves 0 s (send_loop enc now fuel records sealed s).
Proof.
  induction fuel as [|fuel IH]; intros records sealed s I Hf; [lia|]. cbn [send_loop].
  case_decide as Hr; [by apply moves_id|]. destruct (control_send_tokens s) as [|t ts] eqn:Htok; [by apply moves_id|].
  cbn [pending_controls set_control_send_set set_control_send_tokens].
  destruct (pending_controls s !! t) as [[|m q]|] eqn:Hq.
  1, 3: destruct (stale_moved s t ts I Htok ltac:(by intros ? ? E; rewrite Hq in E)) as [K Hw]; apply (moves_step enc newcomer 0 0 _ _ _ K), IH; [apply K|];
    match goal with |- context [work ?x] => change (size (work x) < size (work s))%nat in Hw end; lia.
  fold (popped t ts q s). case_decide as Hbud.
  { rewrite (put_back s t ts m q I Htok Hq). by apply moves_id. }
  destruct (ob_queued _ _ _ _ _ _ _ _ (inv_outbound _ _ _ _ I) t _ Hq) as (_ & c & p & Hc & Hp & _).
  destruct (scheduled_moves s t ts m q I Htok Hq c p Hc Hp) as (s' & b & E & K & Hw). rewrite E. cbn [mbind option_bind].
  apply (moves_step enc newcomer 0 0 _ _ _ K). match goal with |- context [if ?x then _ else _] => destruct x end; [by apply moves_id, K|].
  apply IH; [apply K|]. pose proof (subseteq_size _ _ Hw). lia.
Qed.

(** It always gives a result. *)
Lemma process_sends_moves (s : server) : inv s -> moves 0 s (process_control_sends enc now s).
Proof.
  intros I. apply send_loop_moves; [done|]. unfold work. rewrite size_union_alt.
  rewrite (size_list_to_set (C := gset Z)) by apply (inv_outbound _ _ _ _ I). rewrite <- (size_dom (clients s)).
  assert (size (dom (clients s) ∖ list_to_set (control_send_tokens s)) <= size (dom (clients s)))%nat by (apply subseteq_size; set_solver). lia.
Qed.

(** ** Sweeps *)

Lemma disc_all_moves (s : server) ts : inv s -> moves 0 s (each disc ts s).
Proof. intros I. apply moves_each; [done|]. intros t s' _ K. apply disc_moves, K. Qed.

Lemma flush_moves (s : server) : inv s -> moves 0 s (flush_disconnects enc now s).
Proof. intros I. by apply disc_all_moves. Qed.

(** Timers are in none of the tables. *)
Ltac timer I := split; [split; cbn; keep I|cbn; first [done|lia|by intros r]..].

Lemma idle_moves (s : server) : inv s -> moves 0 s (sweep_idle_connections enc now s).
Proof.
  intros I. unfold sweep_idle_connections. case_decide; [by apply moves_id|].
  assert (moved 0 s (set_next_idle_sweep_at (now + IDLE_SWEEP_INTERVAL) s)) as K by timer I.
  apply (moves_step enc newcomer 0 0 _ _ _ K), disc_all_moves, K.
Qed.

Lemma orphans_moves (s : server) : inv s -> moves 0 s (sweep_orphaned_shares enc now s).
Proof.
  intros I. unfold sweep_orphaned_shares. case_decide; [by apply moves_id|].
  assert (moved 0 s (set_next_share_sweep_at (now + SHARE_SWEEP_INTERVAL) s)) as K by timer I.
  apply (moves_step enc newcomer 0 0 _ _ _ K), moves_each; [apply K|]. intros i s' _ K'. pose proof (mv_inv _ _ _ _ _ K') as I'.
  eapply moves_kept, keeps_runs, runs_of, (end_share_ok enc (S (size (clients s')))); [apply disconnect_ok|lia|done].
Qed.

(** No reservation outlives its session, so that the sweep finds nothing to remove. *)
Lemma routes_swept (s : server) : inv s ->
  filter (fun p => is_Some (sessions s !! p.2)) (reserved_media_routes s) = reserved_media_routes s.
Proof.
  intros I. apply map_filter_id. intros r id Hr. destruct (ro_live _ _ (inv_routes _ _ _ _ I) r id Hr) as (x & Hx & _). by exists x.
Qed.

Lemma sweep_routes_moved (s : server) : inv s ->
  moved 0 s (sweep_stale_media_routes now s) /\ reserved_media_routes (sweep_stale_media_routes now s) = reserved_media_routes s.
Proof.
  intros I. unfold sweep_stale_media_routes. match goal with |- context [if ?b then _ else _] => destruct b end; [split; [by apply moved_refl|done]|].
  cbn zeta. cbn [sessions reserved_media_routes set_next_media_sweep_at]. rewrite routes_swept by done. split; [timer I|done].
Qed.

Lemma rtt_moves (s : server) : inv s -> moves 0 s (poll_room_rtt_snapshots enc now s).
Proof.
  intros I. unfold poll_room_rtt_snapshots. case_decide; [by apply moves_id|].
  assert (moved 0 s (set_next_rtt_snapshot_at (now + RTT_SNAPSHOT_INTERVAL) s)) as K by timer I.
  apply (moves_step enc newcomer 0 0 _ _ _ K), moves_each; [apply K|]. intros r s' _ K'. pose proof (mv_inv _ _ _ _ _ K') as I'.
  apply moves_kept, sends_kept; [done|]. apply (tellable_members enc ∅ ∅ s' r); [done|done|]. intros q Hq. cbn in Hq. by apply list_elem_of_singleton in Hq.
Qed.

(** ** Reports of the voice relay *)

Lemma bound_moves (s : server) p : inv s -> moves 0 s (session_udp_bound enc now p s).
Proof.
  intros I. unfold session_udp_bound. destruct (live_token_for_session s p.1) as [t|]; [|by apply moves_id].
  apply (moves_bind enc newcomer 0 0); [by apply moves_kept, tell_unscoped|]. intros s' K. pose proof (mv_inv _ _ _ _ _ K).
  match goal with |- context [if ?b then _ else _] => destruct b end; [by apply moves_kept, tell_unscoped|by apply moves_id].
Qed.

Lemma probed_moves (s : server) p : inv s -> moves 0 s (session_probed enc now p s).
Proof.
  intros I. unfold session_probed. destruct (live_token_for_session s p.1.1) as [t|]; [by apply moves_kept, tell_unscoped|by apply moves_id].
Qed.

Lemma active_moves (s : server) p : inv s -> moves 0 s (session_active p s).
Proof.
  intros I. unfold session_active. destruct (sessions s !! p.1) as [x|]; [|by apply moves_id]. eexists. split; [reflexivity|].
  match goal with |- context [update_client ?t ?f s] => assert (moved 0 s (update_client t f s)) as K end.
  { apply touch_moved; [done|]. intros c. exists (cc_close c), (Z.max (cc_last_activity c) (act_last_activity p.2)), (cc_readiness c), (cc_rx c).
    by destruct c. }
  apply (moved_trans enc newcomer 0 0 _ _ _ K), moved_kept, update_session_kept; [apply K|]. intros y. by destruct y.
Qed.

Lemma moves_res_bind {A : Type} a b s (m : option server) (f : server -> option (server * A)) :
  moves a s m -> (forall s', moved a s s' -> moves_res b s' (f s')) -> moves_res (a + b) s (s' ← m; f s').
Proof. intros (s1 & -> & K1) Hf. apply (moves_res_step enc newcomer a b s s1); [done|]. by apply Hf. Qed.

Lemma voice_events_moves (s : server) events : inv s -> moves_res 0 s (drain_voice_events enc now events s).
Proof.
  intros I. unfold drain_voice_events. destruct (failure events); [by apply moves_res_id|].
  apply (moves_res_bind 0 0); [apply moves_each; [done|]; intros p s' _ K; apply bound_moves, K|]. intros s1 K1. pose proof (mv_inv _ _ _ _ _ K1) as I1.
  apply (moves_res_bind 0 0).
  { destruct (cfg_p2p (config s1)); [|by apply moves_id]. apply moves_each; [done|]. intros p s' _ K. apply probed_moves, K. }
  intros s2 K2. pose proof (mv_inv _ _ _ _ _ K2) as I2.
  apply (moves_res_bind 0 0); [apply moves_each; [done|]; intros p s' _ K; apply active_moves, K|]. intros s3 K3. apply moves_res_id, K3.
Qed.

End sends.
