(* ===== verification/ServerVideoInv.v ===== *)
(** * Screen shares keep the tables in order

    The operations of [ServerVideo] end, never panic and keep the invariant: in
    particular a viewer's connection is one of a member of the call, its fast start
    is led by a keyframe, and frames wait only for viewers of their stream. *)

From stdpp Require Import sorting.
From S2P Require Import Prelude Primitives Transport Handshake Auth Media Frame Evented ControlLane Video Net History Usernames Identity.
From S2P Require Import Clock VoiceRelay RoomLog RoomStore ServerState ServerCascade ServerOps ServerConns ServerAuth ServerVideo ServerLoop.
From S2P Require Import ServerInvariant ServerTeardown ServerNames ServerKept ServerConnsInv ServerSends.

Section video_inv.
Context {Rx Tx St : Type} `{HashOrder} `{ChatStoreLaws St} `{PrimitiveLaws} `{StreamSocket Rx} `{StreamWriter Tx}.
Context (encode_server_control : ServerControl -> bytes) (hello_from_binary : bytes -> option VideoHello) (ack_to_binary : VideoAck -> bytes).
Context (random : nat -> nat -> option bytes) (now : Z) `{Unicode} (newcomer : Z -> Z -> Prop).
Context (with_capacity : nat -> nat) (tries : Rx -> nat).
Context (Htries : forall rx : Rx, (patience rx < tries rx)%nat).
Abbreviation server := (Server Rx Tx St).
Abbreviation client := (ClientConn Rx Tx).
Abbreviation enc := encode_server_control.
Abbreviation inv := (inv enc ∅ ∅).
Abbreviation moved := (moved enc newcomer).
Abbreviation moves := (moves enc newcomer).
Abbreviation moves_res := (moves_res enc newcomer).
Abbreviation disc := (disconnect enc now).

#[local] Hint Resolve no_strangers_refl kinds_refl : core.

(** ** Changing a video connection *)

(** What a disconnect sees of a connection. *)
Definition same_hold (c c' : client) : Prop :=
  cc_session_id c' = cc_session_id c /\ cc_pre_auth c' = cc_pre_auth c /\ cc_addr c' = cc_addr c /\ cc_write_buf c' = cc_write_buf c /\
  video_part c' = video_part c.

Lemma drop_replaced t (c c' : client) (s : server) :
  clients s !! t = Some c -> same_hold c c' ->
  drop_client now t c' (forget_token t (set_clients (<[t := c']> (clients s)) s)) = drop_client now t c (forget_token t s).
Proof.
  intros Hc (Hs & Hp & Ha & Hw & Hv). rewrite !drop_eq. unfold detached, write_len. rewrite Hp, Ha, Hw, Hv.
  replace (forget_token t (set_clients (<[t := c']> (clients s)) s)) with (set_clients (<[t := c']> (clients s)) (forget_token t s)).
  2: { unfold forget_token. cbn. case_decide; cbn; by case_match. }
  replace (clients (forget_token t s)) with (clients s) by (by rewrite forget_eq). cbn. rewrite delete_insert_eq. done.
Qed.

Lemma disc_replaced (s : server) t c c' :
  clients s !! t = Some c -> same_hold c c' -> disc t (set_clients (<[t := c']> (clients s)) s) = disc t s.
Proof.
  intros Hc Hh. unfold disconnect. cbn [clients set_clients]. rewrite map_size_insert_Some by by eexists. cbn [disconnect_fuel].
  unfold disconnect_body. replace (clients (forget_token t (set_clients (<[t := c']> (clients s)) s))) with (<[t := c']> (clients s)) by (by rewrite forget_eq).
  replace (clients (forget_token t s)) with (clients s) by (by rewrite forget_eq).
  rewrite lookup_insert_eq, Hc. cbv zeta. rewrite (drop_replaced t c c' s Hc Hh). by destruct Hh as (-> & _).
Qed.

Definition same_video (w w' : VideoConn) : Prop :=
  vc_phase w' = vc_phase w /\ vc_session_id w' = vc_session_id w /\ vc_stream_id w' = vc_stream_id w /\ vc_role w' = vc_role w.

(** The connection but for its socket, buffers and keys. *)
Definition rest_of (c : client) := (cc_session_id c, cc_user_id c, cc_pre_auth c, cc_addr c, cc_control c, cc_transport c).

Lemma video_part_of (c : client) w : cc_kind c = VideoKind w -> video_part c = (i ← vc_stream_id w; r ← vc_role w; Some (i, r)).
Proof. unfold video_part. by intros ->. Qed.

Lemma same_video_hold (c c' : client) w w' :
  cc_kind c = VideoKind w -> cc_kind c' = VideoKind w' -> same_video w w' -> rest_of c' = rest_of c -> cc_write_buf c' = cc_write_buf c -> same_hold c c'.
Proof.
  intros Hk Hk' (Hp & Hs & Hi & Hr) [= E1 E2 E3 E4 E5 E6] Hw. split_and!; try done. rewrite (video_part_of c w), (video_part_of c' w') by done.
  by rewrite Hi, Hr.
Qed.

Section replace.
Context (s : server) (t : Z) (c c' : client) (w w' : VideoConn) (I : inv s) (Hc : clients s !! t = Some c).
Context (Hk : cc_kind c = VideoKind w) (Hk' : cc_kind c' = VideoKind w') (Hsame : same_video w w') (Hrest : rest_of c' = rest_of c).
Context (Hreader : forall r, vc_reader w' = Some r -> reader_wf r) (Hbuf : RecvBuffer.wf (cc_read_buf c')) (Hq : WriteQueue.wf (cc_write_buf c')).

Lemma video_conn_ok : video_ok w /\ cc_control c = None.
Proof.
  pose proof (inv_conns _ _ _ _ I t c Hc) as Hok. cbn in Hok. pose proof (co_progress _ Hok) as Hpr. unfold progress in Hpr.
  rewrite Hk in Hpr. by destruct Hpr as (? & _ & _ & _ & ?).
Qed.

Lemma same_video_conn : same_conn c c' /\ conn_ok c'.
Proof.
  pose proof Hrest as [= E1 E2 E3 E4 E5 E6]. pose proof Hsame as (Hph & Hs & Hi & Hr). destruct video_conn_ok as [Hok Hctl].
  pose proof (inv_conns _ _ _ _ I t c Hc) as Hco. cbn in Hco. pose proof (co_progress _ Hco) as Hpr. unfold progress in Hpr. rewrite Hk in Hpr.
  split; split; try done.
  - intros [id Hid]. destruct Hpr as (_ & _ & Hn & _). congruence.
  - intros p Hp. congruence.
  - intros _. congruence.
  - unfold attached. by rewrite Hk, Hk', Hs, Hi, Hr.
  - unfold told, is_video. by rewrite Hk, Hk'.
  - unfold progress. rewrite Hk', E1, E3, E5, E6, Hph. destruct Hpr as (? & ? & ? & ? & _). split_and!; try done.
    split; rewrite ?Hph, ?Hs, ?Hi, ?Hr; try done; apply Hok.
Qed.

Lemma video_replaced_moved : moved 0 s (replaced t c c' s).
Proof.
  destruct same_video_conn. apply replaced_moved; try done. unfold is_video. by rewrite Hk'.
Qed.

Lemma video_same_moved : cc_write_buf c' = cc_write_buf c -> moved 0 s (set_clients (<[t := c']> (clients s)) s).
Proof.
  intros Hw. rewrite (insert_replaced s t c c'); [apply video_replaced_moved|]. unfold write_len. by rewrite Hw.
Qed.

End replace.

(** ** Reading *)

Lemma drain_residual_ok fuel : forall reader buf, reader_wf reader -> RecvBuffer.wf buf ->
  let '(reader', buf', r) := drain_residual fuel reader buf in
  RecvBuffer.wf buf' /\ (r = Ok () -> reader_wf reader').
Proof.
  induction fuel as [|fuel IH]; intros reader buf Hr Hb; [done|]. cbn [drain_residual].
  destruct (RecvBuffer.is_empty buf) eqn:He; [done|]. destruct (VideoRecordReader.record_ready reader) eqn:Hrd; [done|]. cbn [orb].
  assert (RecvBuffer.pending buf <> []) as Hne.
  { unfold RecvBuffer.is_empty in He. apply bool_decide_eq_false in He. intros Hp. apply (f_equal length) in Hp.
    unfold RecvBuffer.pending, RecvBuffer.wf in *. rewrite length_drop in Hp. cbn in Hp. lia. }
  pose proof (Video.accept_ok reader (RecvBuffer.pending buf) Hr Hrd Hne) as Ha.
  destruct (VideoRecordReader.accept reader (RecvBuffer.pending buf)) as [reader1 [k|e]]; [|done].
  destruct Ha as (Hk & Hr1 & _). apply IH; [done|]. apply recv_consume; [done|]. rewrite recv_len. lia.
Qed.

(** The pump ends; it leaves the connection alone but for its buffers, or says
    that it is lost. *)
Lemma pump_moves (s : server) t n : inv s ->
  exists s' p k, pump_video_reader now tries t n s = Some (s', p, k) /\
    match p with
    | PumpFailed => disc t s' = disc t s
    | _ => moved 0 s s'
    end.
Proof.
  intros I. unfold pump_video_reader. destruct (clients s !! t) as [c|] eqn:Hc; [|eexists _, _, _; split; [reflexivity|]; by apply moved_refl].
  destruct (is_closing c); [eexists _, _, _; split; [reflexivity|]; by apply moved_refl|].
  destruct (cc_kind c) as [| |w] eqn:Hk; try (eexists _, _, _; split; [reflexivity|]; by apply moved_refl).
  destruct (vc_reader w) as [reader|] eqn:Hrd; [|eexists _, _, _; split; [reflexivity|]; by apply moved_refl].
  pose proof (inv_conns _ _ _ _ I t c Hc) as Hok. cbn in Hok. destruct (video_conn_ok s t c w I Hc Hk) as [Hw _].
  pose proof (drain_residual_ok (RecvBuffer.len (cc_read_buf c)) reader (cc_read_buf c) (vk_reader _ Hw _ Hrd) (co_recv _ Hok)) as Hd.
  destruct (drain_residual _ reader (cc_read_buf c)) as [[reader1 buf] r]. destruct Hd as [Hbuf Hr1].
  destruct r as [[]|[]].
  2: { eexists _, _, _. split; [reflexivity|]. apply (disc_replaced s t c); [done|].
       by apply (same_video_hold c _ w (set_video_reader (Some reader1) w)). }
  specialize (Hr1 eq_refl). destruct (VideoRecordReader.record_ready reader1).
  { eexists _, _, _. split; [reflexivity|]. apply (video_same_moved s t c _ w (set_video_reader (Some reader1) w)); try done; [|apply Hok].
    by intros r [= <-]. }
  destruct (read_video_record_ok (tries (cc_rx c)) n (S n) (cc_rx c) reader1 (cc_readiness c) (Htries _) Hr1 ltac:(lia))
    as (rx & reader2 & ready & res & E & _ & Hres). cbn [cc_rx set_read_buf cc_readiness]. rewrite E. cbn [mbind option_bind].
  destruct res as [o|e].
  - destruct Hres as (Hr2 & _). set (c1 := set_rx rx (set_readiness ready _)).
    assert (moved 0 s (set_clients (<[t := if decide (0 < bytes_read o)%nat then set_last_activity now c1 else c1]> (clients s)) s)) as K.
    { destruct (decide (0 < bytes_read o)%nat);
        (apply (video_same_moved s t c _ w (set_video_reader (Some reader2) w)); try done; [by intros r [= <-]|apply Hok]). }
    eexists _, _, _. split; [reflexivity|]. destruct (disconnected o), (VideoRecordReader.record_ready reader2), (hit_limit o); exact K.
  - eexists _, _, _. split; [reflexivity|]. apply (disc_replaced s t c); [done|].
    by apply (same_video_hold c _ w (set_video_reader (Some reader2) w)).
Qed.

(** ** One record *)

Lemma open_in_place_length p ch record p' plain :
  RecordProtection.open_next_in_place p ch record = (p', Ok plain) ->
  (match p with RecordAead _ => TRANSPORT_HEADER_LEN | RecordClear => 0%nat end + length plain <= length record)%nat.
Proof.
  rewrite record_open_in_place. destruct p as [c|]; cbn [RecordProtection.open_next]; [|intros [= _ <-]; lia].
  unfold TransportCipher.open_next, open_with_key. case_decide as Hl; [done|].
  destruct (open_body_in_place _ _ _ _) as [[[n k] body]|e] eqn:E; [|done]. cbn.
  destruct (TransportCipher.check_recv_counter c n) as [c' [[]|e]]; [|done]. cbn. intros [= _ <-].
  rewrite length_take. unfold open_body_in_place in E. case_decide; [done|]. case_decide; [done|]. destruct (unbound_key _); [|done].
  destruct (aead_open _ _ _ _) as [plain|] eqn:Eo; [|done]. apply aead_open_length in Eo. rewrite length_drop in Eo. injection E as <- <- <-.
  unfold TRANSPORT_HEADER_LEN, TAG_LEN in *. lia.
Qed.

Lemma parse_record_total b p n : parse_record b = Ok (Some (p, n)) -> (Z.to_nat n <= length b)%nat.
Proof.
  rewrite parse_record_frame. destruct (parse_frame_with_limit b MAX_VIDEO_RECORD_LEN) as [[[q k]|]|] eqn:E; cbn; try done.
  intros [= <- <-]. apply parse_frame_some in E as (rest & -> & -> & _). rewrite length_app.
  pose proof (len_framed q). pose proof (len_nonneg q). unfold len in *. lia.
Qed.

Lemma slice_all {A : Type} (l : list A) : slice l 0 (0 + length l) = l.
Proof. unfold slice. rewrite Nat.sub_0_r. cbn. by rewrite take_ge. Qed.

Lemma frame_of_record_ok p ch record p' plain :
  RecordProtection.open_next_in_place p ch record = (p', Ok plain) ->
  exists f, frame_of_record with_capacity p record plain = Some f /\ SharedVideoFrame.as_slice f = plain.
Proof.
  intros Ho. pose proof (open_in_place_length _ _ _ _ _ Ho) as Hl. unfold frame_of_record, SharedVideoFrame.from_record.
  set (off := match p with RecordAead _ => TRANSPORT_HEADER_LEN | RecordClear => 0%nat end) in *. cbn [vec_data vec_cap].
  rewrite decide_True by (rewrite !length_app, length_take, length_drop; lia).
  assert (slice (take off record ++ plain ++ drop (off + length plain) record) off (off + length plain) = plain) as Hs.
  { apply slice_mid; [rewrite length_take; lia|done]. }
  case_match; eexists; (split; [reflexivity|]); cbn; unfold SharedVideoFrame.as_slice; cbn; [done|].
  rewrite Hs. apply slice_all.
Qed.

Lemma taken_wf r r' record : reader_wf r -> VideoRecordReader.take_record r = (r', Some record) -> reader_wf r'.
Proof.
  intros [Hp _]. unfold VideoRecordReader.take_record. destruct (VideoRecordReader.record_ready r); cbn; [|done]. intros [= <- _].
  split; cbn; [done|]. split; [lia|done].
Qed.

(** A step on the connection: its buffers and keys, and of a published frame that
    it is one of the connection's stream. *)
Definition stepped (c : client) (w : VideoConn) (c' : client) (step : option VideoStep) : Prop :=
  (exists w', cc_kind c' = VideoKind w' /\ same_video w w' /\ rest_of c' = rest_of c /\ (forall r, vc_reader w' = Some r -> reader_wf r) /\
     RecvBuffer.wf (cc_read_buf c') /\ cc_write_buf c' = cc_write_buf c) /\
  match step with
  | Some (VideoPublish i f key) => publisher_frame_is_key (SharedVideoFrame.as_slice f) i = Ok key
  | _ => True
  end.

Lemma buffered_step (s : server) t c w p total :
  inv s -> clients s !! t = Some c -> cc_kind c = VideoKind w -> parse_record (RecvBuffer.pending (cc_read_buf c)) = Ok (Some (p, total)) ->
  RecvBuffer.wf (RecvBuffer.consume (cc_read_buf c) (Z.to_nat total)).
Proof.
  intros I Hc Hk Hp. pose proof (inv_conns _ _ _ _ I t c Hc) as Hok. cbn in Hok. apply recv_consume; [apply Hok|]. rewrite recv_len.
  by eapply parse_record_total.
Qed.

Lemma buffered_ok (s : server) t c w : inv s -> clients s !! t = Some c -> cc_kind c = VideoKind w ->
  match buffered_record_step with_capacity c with Err _ => True | Ok (c', step) => stepped c w c' step end.
Proof.
  intros I Hc Hk. pose proof (inv_conns _ _ _ _ I t c Hc) as Hok. cbn in Hok. destruct (video_conn_ok s t c w I Hc Hk) as [Hw _].
  unfold buffered_record_step. destruct (parse_record _) as [[[p total]|]|] eqn:Hp; [| |done].
  2: { split; [|done]. exists w. split_and!; try done; [apply Hw|apply Hok]. }
  pose proof (buffered_step s t c w p total I Hc Hk Hp) as Hbuf. cbv zeta. cbn [cc_kind set_read_buf]. rewrite Hk.
  set (c1 := set_read_buf _ c).
  assert (forall w' step, same_video w w' -> vc_reader w' = vc_reader w -> match step with Some (VideoPublish i f key) =>
    publisher_frame_is_key (SharedVideoFrame.as_slice f) i = Ok key | _ => True end -> stepped c w (set_kind (VideoKind w') c1) step) as Hstep.
  { intros w' step Hs Hr Hx. split; [|done]. exists w'. split_and!; try done. rewrite Hr. apply Hw. }
  assert (stepped c w c1 (Some (VideoHandshake (slice (RecvBuffer.pending (cc_read_buf c)) VIDEO_LENGTH_PREFIX_LEN (Z.to_nat total))))) as Hhand.
  { split; [|done]. exists w. split_and!; try done. apply Hw. }
  destruct (vc_phase w) eqn:Hph; [exact Hhand|exact Hhand|].
  destruct (vc_role w) as [role|]; [|done]. destruct (vc_stream_id w) as [i|] eqn:Hi; [|done]. destruct (vc_record w) as [p1|]; [|done].
  destruct (RecordProtection.open_next_in_place _ _ _) as [p2 [plain|e]]; [|done].
  destruct role; [|by apply Hstep]. destruct (publisher_frame_is_key plain i) as [key|] eqn:Hkey; [|done]. apply Hstep; [done|done|].
  unfold SharedVideoFrame.copy_from_slice, SharedVideoFrame.from_vec, SharedVideoFrame.as_slice. cbn [sf_buf sf_off sf_len vec_data].
  by rewrite slice_all.
Qed.

Lemma step_ok (s : server) t c w : inv s -> clients s !! t = Some c -> cc_kind c = VideoKind w ->
  exists r, video_conn_step with_capacity c = Some r /\ match r with Err _ => True | Ok (c', step) => stepped c w c' step end.
Proof.
  intros I Hc Hk. pose proof (inv_conns _ _ _ _ I t c Hc) as Hok. cbn in Hok. destruct (video_conn_ok s t c w I Hc Hk) as [Hw _].
  pose proof (buffered_ok s t c w I Hc Hk) as Hb. unfold video_conn_step. rewrite Hk.
  destruct (vc_phase w); [by eexists|by eexists|]. destruct (vc_reader w) as [reader|] eqn:Hrd; [|by eexists]. clear Hb.
  unfold published_record_step. destruct (VideoRecordReader.take_record reader) as [reader1 [record|]] eqn:Ht.
  2: { eexists. split; [reflexivity|]. split; [|done]. exists w. split_and!; try done; [apply Hw|apply Hok]. }
  pose proof (taken_wf _ _ _ (vk_reader _ Hw _ Hrd) Ht) as Hr1.
  destruct (vc_stream_id w) as [i|] eqn:Hi; [|by eexists]. destruct (vc_record w) as [p|]; [|by eexists].
  destruct (RecordProtection.open_next_in_place p CHANNEL_VIDEO record) as [p2 [plain|e]] eqn:Ho; [|by eexists].
  destruct (frame_of_record_ok _ _ _ _ _ Ho) as (f & -> & Hf). cbn [mbind option_bind].
  destruct (publisher_frame_is_key _ i) as [key|] eqn:Hkey; [|by eexists]. eexists. split; [reflexivity|]. split; [|done].
  eexists. split; [reflexivity|]. split_and!; try done; [by intros r [= <-]|apply Hok].
Qed.

(** ** The hello *)

Section named.
Context (s : server) (t : Z) (c : client) (w w' : VideoConn) (i id : Z) (v : VideoStream) (role : VideoRole) (I : inv s).
Context (Hc : clients s !! t = Some c) (Hk : cc_kind c = VideoKind w) (Hfirst : vc_phase w = VideoAwaitHello).
Context (Hv : streams s !! i = Some v) (Hph : vc_phase w' = VideoAwaitAuth) (Hid : vc_session_id w' = Some id) (Hi : vc_stream_id w' = Some i)
  (Hr : vc_role w' = Some role) (Hrd : vc_reader w' = vc_reader w).
Context (Hrole : match role with Subscriber => is_Some (st_view_secrets v !! id) | Publisher => st_owner_session v = id end).

Let c' : client := set_kind (VideoKind w') c.

Lemma nameless : vc_stream_id w = None.
Proof. by apply (vk_nameless _ (proj1 (video_conn_ok s t c w I Hc Hk))). Qed.

Lemma named_others t' d w0 j :
  t <> t' -> clients s !! t' = Some d -> cc_kind d = VideoKind w0 -> vc_stream_id w0 = Some j -> <[t := c']> (clients s) !! t' = Some d.
Proof. intros Hne Hd _ _. by rewrite lookup_insert_ne. Qed.

Lemma named_streams : streams_ok ∅ (<[t := c']> (clients s)) (sessions s) (streams s).
Proof.
  intros j u Hj. pose proof (inv_streams _ _ _ _ I j u Hj) as B. pose proof nameless as Hn.
  assert (forall t' d w0, clients s !! t' = Some d -> cc_kind d = VideoKind w0 -> vc_stream_id w0 = Some j -> t <> t') as Hne.
  { intros t' d w0 Hd Hkd Hs <-. rewrite Hc in Hd. injection Hd as <-. rewrite Hk in Hkd. injection Hkd as <-. congruence. }
  split; try apply B.
  - intros t' Ht'. destruct (vo_watched _ _ _ _ _ B t' Ht') as (d & w0 & id0 & Hd & Hkd & Hs & Hrest).
    exists d, w0, id0. rewrite lookup_insert_ne by (eapply Hne; eassumption). split_and!; (assumption || apply Hrest).
  - intros t' Ht'. destruct (vo_published _ _ _ _ _ B t' Ht') as (d & w0 & Hd & Hkd & Hs & Hrest).
    exists d, w0. rewrite lookup_insert_ne by (eapply Hne; eassumption). split_and!; (assumption || apply Hrest).
  - intros t' d w0 id0 [[<- <-]|[Hnt Hd]]%lookup_insert_Some Hkd Hs Hrl Hsid; [|by eapply (vo_viewer _ _ _ _ _ B)].
    cbn in Hkd. injection Hkd as <-. simplify_eq. by right.
  - intros t' d w0 [[<- <-]|[Hnt Hd]]%lookup_insert_Some Hkd Hs Hrl; [|by eapply (vo_owned _ _ _ _ _ B)].
    cbn in Hkd. injection Hkd as <-. simplify_eq. done.
Qed.

Lemma named_relayed : relayed_ok (<[t := c']> (clients s)) (video_fanouts s) (next_token s).
Proof.
  eapply Forall_impl; [exact (inv_relayed _ _ _ _ I)|]. intros f [Hd Hview]. split; [done|]. intros t' Ht'. destruct (Hview t' Ht') as [Hlt Hx].
  split; [done|]. intros d [[<- <-]|[Hnt Hd']]%lookup_insert_Some; [|by apply Hx].
  destruct (Hx c Hc) as (w0 & Hk0 & Hs0 & _). rewrite Hk in Hk0. injection Hk0 as <-. pose proof nameless. congruence.
Qed.

Lemma named_moved : moved 0 s (set_clients (<[t := c']> (clients s)) s).
Proof.
  pose proof (inv_conns _ _ _ _ I t c Hc) as Hok. cbn in Hok. pose proof (co_progress _ Hok) as Hpr. unfold progress in Hpr. rewrite Hk, Hfirst in Hpr.
  destruct Hpr as (Hctl & Htr & Hsess & Hpre & Hvok). split; cbn; try done; [|lia|]. 2: { apply (kinds_insert _ _ _ _ c); [done| |done]. unfold told, is_video. by rewrite Hk. } split; cbn; try keep I.
  - pose proof (inv_sessions _ _ _ _ I) as B. split.
    + intros j x Hx HD. destruct (so_live _ _ _ B j x Hx HD) as (d & Hd & Hs & Hrest). exists d. rewrite lookup_insert_ne; [done|].
      intros Heq. rewrite <- Heq in Hd. congruence.
    + set_solver.
    + intros t' d j [[<- <-]|[Hnt Hd]]%lookup_insert_Some Hs; [cbn in Hs; congruence|by eapply (so_named _ _ _ B)].
    + intros t' d [[<- <-]|[Hnt Hd]]%lookup_insert_Some Hs; [|by eapply (so_user _ _ _ B)]. by eapply (so_user _ _ _ B t c).
  - apply named_streams.
  - replace (write_queue_total_bytes s) with (write_queue_total_bytes s + (write_len c' - write_len c)) by (change (write_len c') with (write_len c); lia).
    eapply change_outbound; [..|apply I|]; try done. intros p Hp. congruence.
  - intros t' q d m Hq [[<- <-]|[Hnt Hd]]%lookup_insert_Some Hm r Hrr; [|by eapply (inv_allowed _ _ _ _ I)]. by eapply (inv_allowed _ _ _ _ I t q c).
  - pose proof (inv_slots _ _ _ _ I) as S. split; try apply S.
    + rewrite (msum_insert_some _ _ _ _ _ Hc), (sl_held _ _ S). change (holds_slot c') with (holds_slot c). lia.
    + intros a. rewrite (msum_insert_some _ _ _ _ _ Hc), (sl_per_ip _ _ S). change (holds_slot_of a c') with (holds_slot_of a c). lia.
    + rewrite map_size_insert_Some by (by eexists). apply S.
  - apply map_Forall_insert_2; [|apply I]. split; [apply Hok|apply Hok|]. unfold progress. cbn. rewrite Hph. split_and!; try done.
    split; rewrite ?Hph, ?Hrd; [done| |apply Hvok]. intros _. rewrite Hid, Hi, Hr. split_and!; by eexists.
  - apply named_relayed.
  - pose proof (inv_ids _ _ _ _ I) as J. split; try apply J.
    + intros t' d [[<- <-]|[Hnt Hd]]%lookup_insert_Some; by eapply (id_tokens _ _ _ _ _ _ _ _ _ _ J).
    + intros t' d w0 j [[<- <-]|[Hnt Hd]]%lookup_insert_Some Hkd Hs; [|by eapply (id_video _ _ _ _ _ _ _ _ _ _ J)].
      cbn in Hkd. injection Hkd as <-. simplify_eq. by apply (id_streams _ _ _ _ _ _ _ _ _ _ J i v).
Qed.

End named.

Lemma video_hello_moved (s : server) t c w record : inv s -> clients s !! t = Some c -> cc_kind c = VideoKind w -> vc_phase w = VideoAwaitHello ->
  moved 0 s (handle_video_hello hello_from_binary t record s).1.
Proof.
  intros I Hc Hk Hfirst. unfold handle_video_hello. destruct (decode_video_hello _ _) as [h|]; [|by apply moved_refl].
  case_decide; [by apply moved_refl|]. destruct (streams s !! hello_stream_id h) as [v|] eqn:Hv; [|by apply moved_refl].
  destruct (live_token_for_session s (hello_session_id h)) as [tk|] eqn:Hlive; [|by apply moved_refl].
  destruct (sessions s !! hello_session_id h) as [x|] eqn:Hx; [|by apply moved_refl]. cbv zeta.
  match goal with |- context [match ?m with Some secret => _ | None => (s, Err ()) end] => destruct m as [secret|] eqn:Hsec end; [|by apply moved_refl].
  destruct (derive_video_keys secret VideoServer) as [k1 k2]. rewrite Hc, Hk. cbn [fst].
  eapply (named_moved s t c w _ (hello_stream_id h) (hello_session_id h) v (hello_role h)); try done.
  destruct (hello_role h).
  - destruct (bool_decide (st_owner_session v = hello_session_id h)) eqn:Ho; [|done]. by apply bool_decide_eq_true in Ho.
  - destruct (bool_decide _); [|done]. by eexists.
Qed.

(** ** Answering *)

(** Answering loses the connection or changes nothing but its keys and buffers. *)
Definition answered (t : Z) (s s' : server) : Prop :=
  (streams s', sessions s', video_fanouts s', video_fanout_bytes s') = (streams s, sessions s, video_fanouts s, video_fanout_bytes s) /\
  forall c w, clients s !! t = Some c -> cc_kind c = VideoKind w ->
    exists d w', clients s' !! t = Some d /\ cc_kind d = VideoKind w' /\ same_video w w' /\ (vc_reader w = None -> vc_reader w' = None).

Lemma append_wf q bs : WriteQueue.wf q -> WriteQueue.wf (WriteQueue.append q bs).
Proof. intros Hq. by apply write_queue_append. Qed.

Lemma ack_result (s : server) t ack : inv s ->
  exists s' r, send_video_ack enc now ack_to_binary t ack s = Some (s', r) /\ moved 0 s s' /\ (r = Ok true -> answered t s s').
Proof.
  intros I. unfold send_video_ack. assert (exists s' (r : result () bool), Some (s, Err ()) = Some (s', r) /\ moved 0 s s' /\ (r = Ok true -> answered t s s')) as Hfail.
  { eexists _, _. split; [reflexivity|]. split; [by apply moved_refl|done]. }
  destruct (clients s !! t) as [c|] eqn:Hc; [|done]. destruct (cc_kind c) as [| |w] eqn:Hk; try done. destruct (vc_record w) as [p|]; [|done].
  pose proof (inv_conns _ _ _ _ I t c Hc) as Hok. cbn in Hok. destruct (video_conn_ok s t c w I Hc Hk) as [Hw _].
  destruct (RecordProtection.seal_next p CHANNEL_VIDEO (ack_to_binary ack)) as [p1 r].
  set (w1 := set_video_record (Some p1) w). set (c1 := set_kind (VideoKind w1) c).
  assert (moved 0 s (set_clients (<[t := c1]> (clients s)) s)) as K1.
  { apply (video_same_moved s t c c1 w w1 I Hc Hk); try done; [apply Hw|apply Hok|apply Hok]. }
  destruct r as [sealed|]; [|eexists _, _; by split].
  destruct (Video.write_record [] sealed) as [record [[]|]]; [|eexists _, _; by split].
  set (c2 := set_write_buf (WriteQueue.append (cc_write_buf c1) record) c1).
  assert (moved 0 s (replaced t c c2 s)) as K2.
  { apply (video_replaced_moved s t c c2 w w1 I Hc Hk); try done; [apply Hw|apply Hok|apply append_wf, Hok]. }
  cbv zeta. cbn [write_queue_total_bytes set_clients]. change (write_len c1) with (write_len c). fold (replaced t c c2 s).
  destruct (write_client_result enc now newcomer (replaced t c c2 s) t (mv_inv _ _ _ _ _ K2)) as (s3 & -> & K3 & Hun). cbn [mbind option_bind].
  eexists _, _. split; [reflexivity|]. split; [by apply (moved_trans enc newcomer 0 0 _ _ _ K2)|].
  intros [= Hlive%bool_decide_eq_true]. destruct Hun as [Hn|[Hrest Hkinds]]; [rewrite Hn in Hlive; by destruct Hlive|].
  split; [done|]. intros c0 w0 Hc0 Hk0. rewrite Hc in Hc0. injection Hc0 as <-. rewrite Hk in Hk0. injection Hk0 as <-.
  destruct (Hkinds c2) as (d & Hd & Hkd); [apply lookup_insert_eq|]. exists d, w1. by split_and!.
Qed.

(** ** Attaching a publisher *)

Lemma stream_changed (s : server) i v v' : inv s -> streams s !! i = Some v -> stream_ok ∅ (clients s) (sessions s) i v' -> ring_ok i v' ->
  st_owner_session v' = st_owner_session v -> moved 0 s (set_streams (<[i := v']> (streams s)) s).
Proof.
  intros I Hv B R Ho. split; cbn; try done; [|lia]. split; cbn; try keep I.
  - intros j u [[<- <-]|[Hne Hu]]%lookup_insert_Some; [done|by apply (inv_streams _ _ _ _ I)].
  - pose proof (inv_fanouts _ _ _ _ I) as F. split; try apply F. eapply Forall_impl; [exact (fa_stream _ _ _ F)|]. cbn. intros f Hf.
    apply lookup_insert_is_Some'. by right.
  - apply map_Forall_insert_2; [done|apply I].
  - pose proof (inv_ids _ _ _ _ I) as J. split; try apply J. intros j u [[<- <-]|[Hne Hu]]%lookup_insert_Some; [|by eapply (id_streams _ _ _ _ _ _ _ _ _ _ J)].
    rewrite Ho. exact (id_streams _ _ _ _ _ _ _ _ _ _ J i v Hv).
Qed.

(** A stream that is attached to has an owner who is there. *)
Lemma set_publisher_moved (s : server) i v p t c w : inv s -> streams s !! i = Some v -> VideoPublisherState.is_live p = false ->
  VideoPublisherState.token p = Some t -> clients s !! t = Some c -> cc_kind c = VideoKind w -> vc_stream_id w = Some i -> vc_role w = Some Publisher ->
  is_Some (sessions s !! st_owner_session v) -> moved 0 s (set_streams (<[i := set_publisher p v]> (streams s)) s).
Proof.
  intros I Hv Hl Hp Hc Hk Hi Hr [x0 Hx0]. pose proof (inv_streams _ _ _ _ I i v Hv) as B.
  apply (stream_changed s i v); try done; [|pose proof (inv_rings _ _ _ _ I i v Hv) as R; split; apply R].
  split; cbn; try apply B; try done.
  - destruct (vo_owner _ _ _ _ _ B) as [Ho|[Hn _]]; [by left|congruence].
  - intros t' Ht'. rewrite Hp in Ht'. injection Ht' as <-. exists c, w. split_and!; try done. by apply (vo_owned _ _ _ _ _ B t c).
  - by rewrite Hl.
Qed.

Lemma attach_publisher_ok (s : server) t i c w : inv s -> clients s !! t = Some c -> cc_kind c = VideoKind w -> vc_stream_id w = Some i ->
  vc_role w = Some Publisher -> (forall id, vc_session_id w = Some id -> is_Some (sessions s !! id)) ->
  exists s' r, attach_publisher now t i s = Some (s', r) /\ moved 0 s s' /\ clients s' = clients s.
Proof.
  intros I Hc Hk Hi Hr Hs. unfold attach_publisher. assert (exists s' (r : result () ()), Some (s, r) = Some (s', r) /\ moved 0 s s' /\ clients s' = clients s) as Hsame.
  { eexists _, (Ok ()). split; [reflexivity|]. split; [by apply moved_refl|done]. }
  unfold validate_publisher_attachment. destruct (streams s !! i) as [v|] eqn:Hv; [|eexists _, _; split; [reflexivity|]; split; [by apply moved_refl|done]].
  pose proof (inv_streams _ _ _ _ I i v Hv) as B. pose proof (Hs _ (vo_owned _ _ _ _ _ B t c w Hc Hk Hi Hr)) as Hown.
  assert (forall d, moved 0 s (set_streams (<[i := set_publisher (AwaitingKeyframe t d) v]> (streams s)) s)) as K.
  { intros d. by apply (set_publisher_moved s i v (AwaitingKeyframe t d) t c w). }
  destruct (st_publisher v) eqn:Hp; try (eexists _, _; split; [reflexivity|]; split; [by apply K|done]).
  all: case_decide as Heq; (eexists _, _; split; [rewrite ?Hp, ?decide_True by done; reflexivity|]; split; [by apply moved_refl|done]).
Qed.

Lemma reader_attached (s : server) t : inv s -> (forall c, clients s !! t = Some c -> is_video c = true) ->
  moved 0 s (update_client t (fun c => match cc_kind c with
    | VideoKind w => set_kind (VideoKind (set_video_reader (Some VideoRecordReader.new) w)) c | _ => c end) s).
Proof.
  intros I Hv. destruct (clients s !! t) as [c|] eqn:Hc; [|by rewrite update_client_unknown; [apply moved_refl|]].
  rewrite (update_client_known s t c) by done. specialize (Hv c eq_refl). unfold is_video in Hv. destruct (cc_kind c) as [| |w] eqn:Hk; try done.
  pose proof (inv_conns _ _ _ _ I t c Hc) as Hok. cbn in Hok.
  apply (video_same_moved s t c _ w (set_video_reader (Some VideoRecordReader.new) w) I Hc Hk); try done; [|apply Hok..].
  intros r [= <-]. apply reader_new_wf.
Qed.

(** ** Waiting frames *)

Lemma fanouts_added (s : server) fs k : inv s -> k = lsum fo_charged_bytes fs -> video_fanout_bytes s + k <= VIDEO_FANOUT_QUEUE_MAX_BYTES ->
  Forall (fun f => 0 <= fo_charged_bytes f) fs -> Forall (fun f => is_Some (streams s !! fo_stream_id f)) fs ->
  Forall (fanout_ok (clients s) (next_token s)) fs ->
  moved 0 s (set_video_fanouts (video_fanouts s ++ fs) (set_video_fanout_bytes (video_fanout_bytes s + k) s)).
Proof.
  intros I Hk Hcap Hpos Hst Hok. pose proof (inv_fanouts _ _ _ _ I) as F.
  assert (fanouts_ok (streams s) (video_fanouts s ++ fs) (video_fanout_bytes s + k)) as F'.
  { split; [rewrite lsum_app, <- (fa_bytes _ _ _ F); lia|done|apply Forall_app; split; [apply F|done]|apply Forall_app; split; [apply F|done]]. }
  assert (relayed_ok (clients s) (video_fanouts s ++ fs) (next_token s)) as R' by (apply Forall_app; split; [apply I|done]).
  clear Hk Hpos Hst Hok F Hcap. split; cbn; try done; [|lia]. split; cbn; first [keep I|done].
Qed.

Lemma charge_nonneg f n : 0 <= video_fanout_charge f n.
Proof. unfold video_fanout_charge, saturating_add, frame_retained, umax, TOKEN_BYTES, VIDEO_FANOUT_BYTES. lia. Qed.

(** The sum of the charges, when it does not saturate. *)
Lemma charges_sum l : forall a, 0 <= a <= umax 64 -> let total := foldl (fun total data => saturating_add 64 total (video_fanout_charge data 1)) a l in
  a <= total /\ (total < umax 64 -> total = a + lsum (fun f => video_fanout_charge f 1) l).
Proof.
  induction l as [|f l IH]; intros a Ha; cbn [foldl lsum foldr]; [split; [lia|cbn; lia]|]. pose proof (charge_nonneg f 1) as Hf.
  assert (a <= saturating_add 64 a (video_fanout_charge f 1) <= umax 64) as Hs by (unfold saturating_add; lia).
  destruct (IH (saturating_add 64 a (video_fanout_charge f 1))) as [Hle Hsum]; [lia|]. cbv zeta. split; [lia|]. intros Hlt.
  rewrite (Hsum Hlt). assert (saturating_add 64 a (video_fanout_charge f 1) < umax 64) as Hx by lia. unfold saturating_add in Hx |- *. fold (lsum (fun f => video_fanout_charge f 1) l). lia.
Qed.

(** ** Attaching a viewer *)

Definition bootstrap_for (s : server) (i : Z) (b : SubscriberBootstrap) : Prop :=
  exists v, streams s !! i = Some v /\ SharedVideoFrame.as_slice (sb_end b) = encode_video_bootstrap_end i /\
    sb_charged_bytes b = lsum (fun f => video_fanout_charge f 1) (st_ring v ++ [sb_end b]) /\
    video_fanout_bytes s + sb_charged_bytes b <= VIDEO_FANOUT_QUEUE_MAX_BYTES.

Lemma fanout_bytes_nonneg (s : server) : inv s -> 0 <= video_fanout_bytes s.
Proof. intros I. rewrite (fa_bytes _ _ _ (inv_fanouts _ _ _ _ I)). apply lsum_nonneg, (inv_fanouts _ _ _ _ I). Qed.

Lemma from_vec_slice data cap : SharedVideoFrame.as_slice (SharedVideoFrame.from_vec {| vec_data := data; vec_cap := cap |}) = data.
Proof. unfold SharedVideoFrame.as_slice, SharedVideoFrame.from_vec. cbn. apply slice_all. Qed.

Lemma prepare_ok (s : server) i b : inv s -> prepare_subscriber_bootstrap with_capacity s i = Ok b -> bootstrap_for s i b.
Proof.
  intros I. unfold prepare_subscriber_bootstrap. destruct (streams s !! i) as [v|] eqn:Hv; [|done]. destruct (negb _); [done|]. case_decide; [done|].
  cbv zeta. case_decide as Hcap; [done|]. intros [= <-]. exists v. pose proof (fanout_bytes_nonneg s I) as Hnn.
  destruct (charges_sum (st_ring v ++ [bootstrap_end_frame with_capacity i]) 0) as [Hpos Hsum]; [unfold umax; lia|]. cbn [sb_end sb_charged_bytes].
  set (total := foldl _ _ _) in *. unfold saturating_add, umax, VIDEO_FANOUT_QUEUE_MAX_BYTES in *.
  split_and!; [done|apply from_vec_slice|lia|lia].
Qed.

(** The viewer at [t] watches stream [i]. *)
Definition watching (s : server) (t i : Z) : Prop :=
  exists c w, clients s !! t = Some c /\ cc_kind c = VideoKind w /\ vc_stream_id w = Some i /\ vc_role w = Some Subscriber /\ is_Some (vc_session_id w).

Lemma subscribed_moved (s : server) t i v : inv s -> watching s t i -> streams s !! i = Some v ->
  moved 0 s (set_streams (<[i := set_subscribers (st_subscribers v ++ [t]) v]> (streams s)) s).
Proof.
  intros I (c & w & Hc & Hk & Hi & Hr & id & Hid) Hv. pose proof (inv_streams _ _ _ _ I i v Hv) as B.
  pose proof (vo_viewer _ _ _ _ _ B t c w id Hc Hk Hi Hr Hid) as Hsec.
  apply (stream_changed s i v); try done; [|pose proof (inv_rings _ _ _ _ I i v Hv) as R; split; apply R].
  split; cbn; try apply B.
  - destruct (vo_owner _ _ _ _ _ B) as [Ho|[_ (_ & _ & _ & Hnone)]]; [by left|]. rewrite Hnone in Hsec. destruct Hsec as [?|[? ?]]; [set_solver|done].
  - intros t' [Ht'|Ht']%elem_of_app; [by apply (vo_watched _ _ _ _ _ B)|]. apply list_elem_of_singleton in Ht' as ->. by exists c, w, id.
Qed.

Lemma attach_subscriber_moves (s : server) t i b : inv s -> watching s t i -> bootstrap_for s i b -> moves 0 s (attach_subscriber t i b s).
Proof.
  intros I Hw (v & Hv & Hend & Hsum & Hcap). unfold attach_subscriber. rewrite Hv. cbn [mbind option_bind]. eexists. split; [reflexivity|]. cbv zeta.
  set (v1 := if decide (t ∈ st_subscribers v) then v else set_subscribers (st_subscribers v ++ [t]) v).
  assert (st_ring v1 = st_ring v) as Hring by (unfold v1; by case_decide).
  assert (moved 0 s (set_streams (<[i := v1]> (streams s)) s)) as K.
  { unfold v1. case_decide; [|by apply subscribed_moved]. rewrite insert_id by done. destruct s. by apply moved_refl. }
  apply (moved_trans enc newcomer 0 0 _ _ _ K). pose proof (mv_inv _ _ _ _ _ K) as I1. destruct Hw as (c & w & Hc & Hk & Hi & Hr & Hid).
  rewrite Hring. set (s1 := set_streams (<[i := v1]> (streams s)) s) in *.
  change (video_fanouts (set_video_fanout_bytes _ s1)) with (video_fanouts s1). apply fanouts_added; [done| |exact Hcap|..].
  - rewrite Hsum. generalize (st_ring v ++ [sb_end b]). intros l. induction l as [|f l IH]; [done|]. unfold lsum in *. cbn in *. by rewrite IH.
  - apply Forall_fmap, Forall_true. intros f. cbn. apply charge_nonneg.
  - apply Forall_fmap, Forall_true. intros f. cbn. rewrite lookup_insert_eq. by eexists.
  - apply Forall_fmap, Forall_app. assert (forall f, frame_for i f -> fanout_ok (clients s1) (next_token s1)
      {| fo_stream_id := i; fo_data := f; fo_subscribers := [t]; fo_next_subscriber := 0; fo_charged_bytes := video_fanout_charge f 1 |}) as Hfan.
    { intros f Hf. split; [done|]. cbn. intros t' Ht'. apply list_elem_of_singleton in Ht' as ->. split; [by eapply (id_tokens _ _ _ _ _ _ _ _ _ _ (inv_ids _ _ _ _ I))|].
      intros d Hd. rewrite Hc in Hd. injection Hd as <-. by exists w. }
    split; [|constructor; [apply Hfan; by right|constructor]]. eapply Forall_impl; [exact (rg_frames _ _ (inv_rings _ _ _ _ I i v Hv))|].
    intros f Hf. apply Hfan. by left.
Qed.

(** ** The proof of possession *)

(** A video connection that has proven itself: it streams and gives its slot back. *)
Lemma streaming_moved (s : server) t c w : inv s -> clients s !! t = Some c -> cc_kind c = VideoKind w -> vc_phase w = VideoAwaitAuth ->
  moved 0 s (finish_pre_auth t (set_clients (<[t := set_kind (VideoKind (set_video_phase VideoStreaming w)) c]> (clients s)) s)).
Proof.
  intros I Hc Hk Hph. pose proof (inv_conns _ _ _ _ I t c Hc) as Hok. cbn in Hok. destruct (video_conn_ok s t c w I Hc Hk) as [Hw Hctl].
  pose proof (co_progress _ Hok) as Hpr. unfold progress in Hpr. rewrite Hk, Hph in Hpr. destruct Hpr as (_ & Htr & Hsess & Hpre & _).
  unfold finish_pre_auth. cbn [clients set_clients]. rewrite lookup_insert_eq.
  change (cc_pre_auth (set_kind (VideoKind (set_video_phase VideoStreaming w)) c)) with (cc_pre_auth c). rewrite Hpre, insert_insert_eq.
  set (c' := set_conn_pre_auth false (set_kind (VideoKind (set_video_phase VideoStreaming w)) c)).
  assert (attached c' = attached c) as Hat by (unfold attached; cbn; by rewrite Hk).
  split; cbn; try done; [|lia|]. 2: { apply (kinds_insert _ _ _ _ c); [done| |done]. unfold told, is_video. by rewrite Hk. }
  split; cbn; try keep I.
  - eapply (change_sessions t c); [done|done| |done|apply I]. rewrite Hsess. by intros [? ?].
  - by eapply change_streams; [|done|apply I].
  - replace (write_queue_total_bytes s) with (write_queue_total_bytes s + (write_len c' - write_len c)) by (change (write_len c') with (write_len c); lia).
    eapply change_outbound; [..|apply I|]; try done. intros p Hp. congruence.
  - intros t' q d m Hq [[<- <-]|[Hnt Hd]]%lookup_insert_Some Hm r Hrr; [|by eapply (inv_allowed _ _ _ _ I)]. by eapply (inv_allowed _ _ _ _ I t q c).
  - by apply promote_slots; [apply I|..].
  - apply map_Forall_insert_2; [|apply I]. split; [apply Hok|apply Hok|]. unfold progress. cbn. split_and!; try done.
    split; cbn; [done| |apply Hw]. intros _. apply (vk_named _ Hw). by rewrite Hph.
  - by eapply change_relayed; [|done|apply I].
  - by eapply change_ids; [|done|apply I].
Qed.

(** A refusal that is announced. *)
Lemma reject_video_moves {E : Type} (s : server) t (e : E) : inv s ->
  moves_res 0 s ('(s1, _) ← send_video_ack enc now ack_to_binary t AckRejected s; Some (s1, Err (A := ()) e)).
Proof. intros I. destruct (ack_result s t AckRejected I) as (s1 & r & -> & K & _). cbn. by eexists _, _. Qed.

(** An acceptance, with what is attached after it if the connection is still there. *)
Lemma accept_video_moves (s : server) t c w (attach : server -> option (server * result () ())) : inv s ->
  clients s !! t = Some c -> cc_kind c = VideoKind w -> vc_phase w = VideoAwaitAuth ->
  (forall s1, moved 0 s s1 ->
    (streams s1, sessions s1, video_fanouts s1, video_fanout_bytes s1) = (streams s, sessions s, video_fanouts s, video_fanout_bytes s) ->
    (exists d w1, clients s1 !! t = Some d /\ cc_kind d = VideoKind w1 /\ vc_session_id w1 = vc_session_id w /\ vc_stream_id w1 = vc_stream_id w /\
      vc_role w1 = vc_role w) -> moves_res 0 s1 (attach s1)) ->
  moves_res 0 s ('(s1, r) ← send_video_ack enc now ack_to_binary t AckOk
      (finish_pre_auth t (set_clients (<[t := set_kind (VideoKind (set_video_phase VideoStreaming w)) c]> (clients s)) s));
    match r with Err e => Some (s1, Err e) | Ok false => Some (s1, Ok ()) | Ok true => attach s1 end).
Proof.
  intros I Hc Hk Hph Hattach. pose proof (streaming_moved s t c w I Hc Hk Hph) as K. set (c1 := set_kind _ c) in *.
  set (s1 := finish_pre_auth t _) in *. destruct (ack_result s1 t AckOk (mv_inv _ _ _ _ _ K)) as (s2 & r & -> & K2 & Hans). cbn [mbind option_bind].
  pose proof (moved_trans enc newcomer 0 0 _ _ _ K K2) as K12. cbn in K12.
  apply (moves_res_step enc newcomer 0 0 _ _ _ K12). pose proof (mv_inv _ _ _ _ _ K12) as I2.
  destruct r as [[]|e]; [|by apply moves_res_id..]. destruct (Hans eq_refl) as [Hrest Hconn].
  assert ((streams s1, sessions s1, video_fanouts s1, video_fanout_bytes s1) = (streams s, sessions s, video_fanouts s, video_fanout_bytes s)
    /\ exists d, clients s1 !! t = Some d /\ cc_kind d = VideoKind (set_video_phase VideoStreaming w)) as [Hsame (d & Hd & Hkd)].
  { unfold s1, finish_pre_auth. cbn [clients set_clients]. rewrite lookup_insert_eq. destruct (cc_pre_auth c1); (split; [done|]); eexists;
      cbn [clients set_clients set_pre_auth]; (split; [apply lookup_insert_eq|done]). }
  apply Hattach; [done|by rewrite Hrest|]. destruct (Hconn d _ Hd Hkd) as (d2 & w2 & Hd2 & Hk2 & (_ & Hs & Hi & Hr) & _).
  exists d2, w2. by split_and!.
Qed.

Lemma admit_video_moves (s : server) t c w i role id : inv s -> clients s !! t = Some c -> cc_kind c = VideoKind w -> vc_phase w = VideoAwaitAuth ->
  vc_stream_id w = Some i -> vc_role w = Some role -> vc_session_id w = Some id -> is_Some (sessions s !! id) ->
  moves_res 0 s (admit_video_conn enc now ack_to_binary with_capacity t i role s).
Proof.
  intros I Hc Hk Hph Hi Hr Hid Hs. unfold admit_video_conn. cbv zeta. destruct role.
  - destruct (validate_publisher_attachment s t i); [|by apply reject_video_moves]. rewrite Hc, Hk.
    apply (accept_video_moves s t c w); try done. intros s1 K Hsame (d & w1 & Hd & Hkd & Hs1 & Hi1 & Hr1). injection Hsame as _ Hses _ _.
    destruct (attach_publisher_ok s1 t i d w1 (mv_inv _ _ _ _ _ K) Hd Hkd) as (s2 & r & -> & K2 & Hcl);
      [congruence|congruence|intros id' Hid'; rewrite Hs1, Hid in Hid'; injection Hid' as <-; by rewrite Hses|].
    cbn [mbind option_bind]. apply (moves_res_step enc newcomer 0 0 _ _ _ K2). destruct r; [|apply moves_res_id, K2].
    eexists _, _. split; [reflexivity|]. apply reader_attached; [apply K2|]. rewrite Hcl. intros d' Hd'. rewrite Hd in Hd'. injection Hd' as <-.
    unfold is_video. by rewrite Hkd.
  - destruct (prepare_subscriber_bootstrap with_capacity s i) as [b|] eqn:Hb; [|by apply reject_video_moves]. rewrite Hc, Hk.
    apply (prepare_ok s i b I) in Hb. apply (accept_video_moves s t c w); try done.
    intros s1 K Hsame (d & w1 & Hd & Hkd & Hs1 & Hi1 & Hr1). injection Hsame as Hstr _ _ Hby.
    destruct (attach_subscriber_moves s1 t i b (mv_inv _ _ _ _ _ K)) as (s2 & -> & K2).
    + exists d, w1. split_and!; try congruence. rewrite Hs1, Hid. by eexists.
    + unfold bootstrap_for. by rewrite Hstr, Hby.
    + cbn. by eexists _, _.
Qed.

Lemma video_auth_moves (s : server) t c w record : inv s -> clients s !! t = Some c -> cc_kind c = VideoKind w -> vc_phase w = VideoAwaitAuth ->
  moves_res 0 s (handle_video_auth enc now ack_to_binary with_capacity t record s).
Proof.
  intros I Hc Hk Hph. unfold handle_video_auth. rewrite Hc, Hk.
  destruct (vc_session_id w) as [id|] eqn:Hid; [|by apply moves_res_id]. destruct (vc_stream_id w) as [i|] eqn:Hi; [|by apply moves_res_id].
  destruct (vc_role w) as [role|] eqn:Hr; [|by apply moves_res_id]. destruct (vc_record w) as [p|]; [|by apply moves_res_id].
  match goal with |- context [let '(p0, o) := ?m in _] => destruct m as [p1 opened] end.
  set (w1 := set_video_record (Some p1) w). set (c1 := set_kind (VideoKind w1) c).
  pose proof (inv_conns _ _ _ _ I t c Hc) as Hok. cbn in Hok. destruct (video_conn_ok s t c w I Hc Hk) as [Hw _].
  assert (moved 0 s (set_clients (<[t := c1]> (clients s)) s)) as K.
  { apply (video_same_moved s t c c1 w w1 I Hc Hk); try done; [apply Hw|apply Hok|apply Hok]. }
  pose proof (mv_inv _ _ _ _ _ K) as I1. apply (moves_res_step enc newcomer 0 0 _ _ _ K). cbv zeta.
  destruct opened; cbn [negb]; [|by apply moves_res_id]. cbn [sessions set_clients]. destruct (sessions s !! id) as [x|] eqn:Hx; [|by apply moves_res_id].
  destruct (_ && _); [by apply moves_res_id|]. apply (admit_video_moves _ t c1 w1 i role id); try done; first [apply lookup_insert_eq|by eexists].
Qed.

Lemma video_record_moves (s : server) t record : inv s ->
  moves_res 0 s (process_video_record enc now hello_from_binary ack_to_binary with_capacity t record s).
Proof.
  intros I. unfold process_video_record. destruct (clients s !! t) as [c|] eqn:Hc; cbn; [|by apply moves_res_id].
  destruct (cc_kind c) as [| |w] eqn:Hk; try (by apply moves_res_id). destruct (vc_phase w) eqn:Hph; [| |by apply moves_res_id].
  - pose proof (video_hello_moved s t c w record I Hc Hk Hph) as K. destruct (handle_video_hello hello_from_binary t record s) as [s1 r]. by eexists _, _.
  - by apply (video_auth_moves s t c w).
Qed.

(** ** Publishing *)

Lemma retained_nonneg f : 0 <= frame_retained f.
Proof. unfold frame_retained. lia. Qed.

Lemma ring_cleared i v : ring_ok i (set_ring [] 0 0 v).
Proof. split; cbn; try done; try constructor; unfold VIDEO_RING_MAX_BYTES, VIDEO_RING_MAX_FRAMES, MAX_VIDEO_RECORD_LEN; lia. Qed.

(** A frame is kept behind a keyframe, or nothing is. *)
Lemma cache_ok i v f key : ring_ok i v -> publisher_frame_is_key (SharedVideoFrame.as_slice f) i = Ok key -> ring_ok i (cache_frame f key v).1.
Proof.
  intros R Hf. unfold cache_frame. cbv zeta. set (v0 := if key then set_ring [] 0 0 v else v).
  assert (ring_ok i v0) as R0 by (unfold v0; destruct key; [apply ring_cleared|done]).
  destruct (negb key && bool_decide (st_ring v0 = [])) eqn:Hlost; [done|]. case_decide as Hfull; [apply ring_cleared|].
  cbn [fst]. assert (~ (VIDEO_RING_MAX_FRAMES <= length (st_ring v0))%nat) as Hlen by tauto. assert (~ VIDEO_RING_MAX_BYTES < saturating_add 64 (st_ring_bytes v0) (frame_retained f)) as Hbytes by tauto. clear Hfull. pose proof (retained_nonneg f). pose proof (rg_cap _ _ R0) as Hcap.
  split; cbn [st_ring st_ring_bytes st_ring_visible_bytes set_ring].
  - pose proof (rg_led _ _ R0) as Hled. destruct (st_ring v0) as [|g l] eqn:Hring; cbn; [|done].
    rewrite bool_decide_true, andb_true_r in Hlost by done. apply negb_false_iff in Hlost. by subst key.
  - apply Forall_app. split; [apply R0|]. constructor; [by eexists|constructor].
  - rewrite lsum_app, (rg_bytes _ _ R0). change (lsum frame_retained [f]) with (frame_retained f + 0). lia.
  - rewrite lsum_app, (rg_visible _ _ R0). change (lsum frame_len [f]) with (frame_len f + 0). lia.
  - unfold saturating_add, umax, VIDEO_RING_MAX_BYTES, MAX_VIDEO_RECORD_LEN in *. lia.
  - rewrite length_app. cbn. lia.
Qed.

Lemma enqueue_moves (s : server) i f subs : inv s -> frame_for i f -> is_Some (streams s !! i) ->
  (forall t, t ∈ subs -> t < next_token s /\ forall c, clients s !! t = Some c -> viewer_of i c) ->
  moves 0 s (enqueue_video_fanout enc now with_capacity i f subs s).
Proof.
  intros I Hf Hi Hsubs. unfold enqueue_video_fanout. destruct subs as [|t0 subs0] eqn:Hs; [by apply moves_id|]. rewrite <- Hs in *. cbv zeta.
  case_decide as Hcap; [by apply disc_all_moves|]. eexists. split; [reflexivity|].
  pose proof (charge_nonneg f (with_capacity (length subs))) as Hc. pose proof (fanout_bytes_nonneg s I) as Hnn.
  change (video_fanouts (set_video_fanout_bytes _ s)) with (video_fanouts s).
  apply fanouts_added; [done|cbn; lia| |apply Forall_singleton; done|apply Forall_singleton; done|apply Forall_singleton; by split].
  unfold saturating_add, umax, VIDEO_FANOUT_QUEUE_MAX_BYTES in *. lia.
Qed.

Lemma announce_moves (s : server) i ex : inv s -> moves 0 s (announce_share_to_voice_members enc random now i ex s).
Proof.
  intros I. unfold announce_share_to_voice_members. destruct (streams s !! i) as [v|]; [|by apply moves_id].
  apply moves_each; [done|]. intros id s1 _ K1. apply moves_kept, send_share_kept, K1.
Qed.

(** What caching a frame leaves of a stream. *)
Lemma cache_frame_rest f key v : exists r a b, (cache_frame f key v).1 = set_ring r a b v.
Proof.
  unfold cache_frame. cbv zeta. destruct key; cbn [negb andb].
  - case_decide; cbn [fst]; eexists _, _, _; by destruct v.
  - case_bool_decide; [exists (st_ring v), (st_ring_bytes v), (st_ring_visible_bytes v); by destruct v|]. case_decide; by eexists _, _, _.
Qed.

Lemma published_stream (s : server) t i v r a b (live : bool) : inv s -> streams s !! i = Some v ->
  (if live then VideoPublisherState.token (st_publisher v) = Some t else True) ->
  ring_ok i (set_ring r a b v) ->
  moved 0 s (set_streams (<[i := if live then set_stream_announced true (set_publisher (PublisherLive t) (set_ring r a b v)) else set_ring r a b v]> (streams s)) s).
Proof.
  intros I Hv Hp R. pose proof (inv_streams _ _ _ _ I i v Hv) as B. apply (stream_changed s i v); try done.
  - destruct live; split; cbn; try apply B; try done.
    + destruct (vo_owner _ _ _ _ _ B) as [Ho|[_ ((d & Hd) & _)]]; [by left|]. by rewrite Hd in Hp.
    + intros t' [= <-]. by apply (vo_published _ _ _ _ _ B).
  - destruct live; split; apply R.
  - by destruct live.
Qed.

Lemma publish_moves (s : server) t i f key : inv s -> publisher_frame_is_key (SharedVideoFrame.as_slice f) i = Ok key ->
  moves_res 0 s (publish_video_frame_from enc random now with_capacity t i f key s).
Proof.
  intros I Hf. unfold publish_video_frame_from. destruct (streams s !! i) as [v|] eqn:Hv; [|by apply moves_res_id]. cbv zeta.
  match goal with |- context [match ?m with Ok _ => _ | Err _ => _ end] => destruct m as [live|e] eqn:Hlive end; [|by apply moves_res_id].
  assert (if live then VideoPublisherState.token (st_publisher v) = Some t else True) as Hp.
  { destruct live; [|done]. destruct (st_publisher v); try done; case_decide; try done. cbn. congruence. }
  pose proof (cache_ok i v f key (inv_rings _ _ _ _ I i v Hv) Hf) as R. destruct (cache_frame_rest f key v) as (r & a & b & Hcache).
  destruct (cache_frame f key v) as [v1 cached]. cbn [fst] in R, Hcache. subst v1.
  destruct (live && negb cached).
  { eexists _, _. split; [reflexivity|]. by apply (published_stream s t i v r a b false). }
  pose proof (published_stream s t i v r a b live I Hv Hp R) as K. clear Hp.
  set (v2 := if live then _ else set_ring r a b v) in *.
  apply (moves_res_step enc newcomer 0 0 _ _ _ K). pose proof (mv_inv _ _ _ _ _ K) as I1. set (s1 := set_streams _ s) in *.
  assert (streams s1 !! i = Some v2) as Hv2 by apply lookup_insert_eq. clear Hlive R K.
  apply (moves_res_bind enc newcomer 0 0).
  - apply enqueue_moves; [done|left; by eexists|by eexists|]. intros t' Ht'.
    destruct (vo_watched _ _ _ _ _ (inv_streams _ _ _ _ I1 i v2 Hv2) t' Ht') as (c & w & id & Hc & Hk & Hi & Hr & _).
    split; [by eapply (id_tokens _ _ _ _ _ _ _ _ _ _ (inv_ids _ _ _ _ I1))|]. intros d Hd. rewrite Hc in Hd. injection Hd as <-. by exists w.
  - intros s2 K2. pose proof (mv_inv _ _ _ _ _ K2) as I2. apply (moves_res_bind enc newcomer 0 0); [destruct live; [by apply announce_moves|by apply moves_id]|].
    intros s3 K3. apply moves_res_id, K3.
Qed.

(** ** Fanning out *)

(** Sealing for a viewer does not look at the queue. *)
Lemma seal_fanouts (s : server) t d fs :
  seal_video_to_subscriber t d (set_video_fanouts fs s) = let '(s', o) := seal_video_to_subscriber t d s in (set_video_fanouts fs s', o).
Proof.
  unfold seal_video_to_subscriber. change (clients (set_video_fanouts fs s)) with (clients s). destruct (clients s !! t) as [c|]; [|done].
  destruct (cc_kind c) as [| |w]; try done. destruct (vc_record w) as [p|]; [|done]. cbv zeta. case_decide; [done|].
  change (write_queue_total_bytes (set_video_fanouts fs s)) with (write_queue_total_bytes s).
  change (pending_control_total_bytes (set_video_fanouts fs s)) with (pending_control_total_bytes s). case_decide; [done|].
  destruct (RecordProtection.seal_next_into p CHANNEL_VIDEO d _) as [[p1 record] r]. destruct r; [|done].
  unfold queue_client_write. cbn. by case_decide.
Qed.

Lemma seal_moved (s : server) t d : inv s -> let s' := (seal_video_to_subscriber t d s).1 in
  moved 0 s s' /\ (streams s', video_fanouts s', video_fanout_bytes s') = (streams s, video_fanouts s, video_fanout_bytes s) /\
  (forall c', clients s' !! t = Some c' -> exists c, clients s !! t = Some c /\ cc_session_id c' = cc_session_id c).
Proof.
  intros I. cbv zeta. unfold seal_video_to_subscriber.
  assert (forall o : VideoSealOutcome, let s' := (s, o).1 in moved 0 s s' /\ (streams s', video_fanouts s', video_fanout_bytes s') = (streams s, video_fanouts s, video_fanout_bytes s) /\
    (forall c', clients s' !! t = Some c' -> exists c, clients s !! t = Some c /\ cc_session_id c' = cc_session_id c)) as Hsame.
  { intros o. cbn. split; [by apply moved_refl|]. split; [done|]. by eauto. }
  destruct (clients s !! t) as [c|] eqn:Hc; [|apply Hsame]. destruct (cc_kind c) as [| |w] eqn:Hk; try (apply Hsame).
  destruct (vc_record w) as [p|]; [|apply Hsame]. cbv zeta. case_decide; [apply Hsame|]. case_decide; [apply Hsame|].
  pose proof (inv_conns _ _ _ _ I t c Hc) as Hok. cbn in Hok. destruct (video_conn_ok s t c w I Hc Hk) as [Hw _].
  destruct (RecordProtection.seal_next_into p CHANNEL_VIDEO d _) as [[p1 record] r].
  set (w1 := set_video_record (Some p1) w). set (c1 := set_kind (VideoKind w1) c). destruct r.
  - set (c2 := set_write_buf (WriteQueue.append (cc_write_buf c1) record) c1).
    assert (moved 0 s (replaced t c c2 s)) as K.
    { apply (video_replaced_moved s t c c2 w w1 I Hc Hk); try done; [apply Hw|apply Hok|apply append_wf, Hok]. }
    cbn [write_queue_total_bytes set_clients]. change (write_len c1) with (write_len c). fold (replaced t c c2 s). cbn [fst].
    split; [apply (moved_trans enc newcomer 0 0 _ _ _ K), queue_write_moved, K|]. unfold queue_client_write.
    split; [by case_decide|]. intros c' Hc'. exists c. split; [done|]. assert (clients (replaced t c c2 s) !! t = Some c') as Hc2 by (by case_decide).
    cbn in Hc2. rewrite lookup_insert_eq in Hc2. by injection Hc2 as <-.
  - cbn [fst]. split; [|split; [done|]].
    + apply (video_same_moved s t c c1 w w1 I Hc Hk); try done; [apply Hw|apply Hok|apply Hok].
    + intros c' Hc'. cbn in Hc'. rewrite lookup_insert_eq in Hc'. injection Hc' as <-. by exists c.
Qed.

(** Dropping a viewer. *)
Lemma disc_viewer (s : server) t : (forall c, clients s !! t = Some c -> cc_session_id c = None) ->
  disc t s = Some match clients s !! t with Some c => drop_client now t c (forget_token t s) | None => forget_token t s end.
Proof.
  intros Hs. unfold disconnect. cbn [disconnect_fuel]. unfold disconnect_body.
  replace (clients (forget_token t s)) with (clients s) by (by rewrite forget_eq). destruct (clients s !! t) as [c|] eqn:Hc; [|done].
  cbv zeta. by rewrite (Hs c eq_refl).
Qed.

Lemma forget_fanouts (s : server) t fs : forget_token t (set_video_fanouts fs s) = set_video_fanouts fs (forget_token t s).
Proof. unfold forget_token. cbn. case_decide; cbn; by case_match. Qed.

Lemma disc_viewer_fanouts (s : server) t fs s' : (forall c, clients s !! t = Some c -> cc_session_id c = None) -> disc t s = Some s' ->
  disc t (set_video_fanouts fs s) = Some (set_video_fanouts fs s') /\ video_fanouts s' = video_fanouts s /\ video_fanout_bytes s' = video_fanout_bytes s.
Proof.
  intros Hs E. rewrite (disc_viewer s t Hs) in E. injection E as <-. rewrite (disc_viewer (set_video_fanouts fs s) t Hs).
  change (clients (set_video_fanouts fs s)) with (clients s). rewrite forget_fanouts. destruct (clients s !! t) as [c|].
  - rewrite !drop_eq. split; [done|]. by rewrite forget_eq.
  - split; [done|]. by rewrite forget_eq.
Qed.

Lemma unsubscribed_moved (s : server) t i : inv s ->
  moved 0 s (set_streams (alter (fun v => set_subscribers (filter (fun other => other <> t) (st_subscribers v)) v) i (streams s)) s).
Proof.
  intros I. destruct (streams s !! i) as [v|] eqn:Hv; [|rewrite alter_none by done; destruct s; by apply moved_refl].
  rewrite (alter_some _ _ _ v Hv). pose proof (inv_streams _ _ _ _ I i v Hv) as B.
  apply (stream_changed s i v); try done; [|pose proof (inv_rings _ _ _ _ I i v Hv) as R; split; apply R].
  split; cbn; try apply B.
  - destruct (vo_owner _ _ _ _ _ B) as [Ho|[Hn (? & ? & Hsub & ?)]]; [by left|right]. split; [done|]. split_and!; try done. cbn. by rewrite Hsub.
  - intros t' [_ Ht']%list_elem_of_filter. by apply (vo_watched _ _ _ _ _ B).
Qed.

(** The frame at the head of the queue moves on, or leaves it. *)
Section head.
Context (s : server) (f : VideoFanout) (fs : list VideoFanout) (I : inv s) (Hq : video_fanouts s = f :: fs).

Lemma head_fanouts : video_fanout_bytes s = fo_charged_bytes f + lsum fo_charged_bytes fs /\ 0 <= fo_charged_bytes f /\ 0 <= lsum fo_charged_bytes fs.
Proof.
  pose proof (inv_fanouts _ _ _ _ I) as F. rewrite Hq in F. pose proof (fa_bytes _ _ _ F) as Hb. pose proof (fa_charged _ _ _ F) as Hc.
  apply Forall_cons in Hc as [Hc1 Hc2]. split; [done|]. split; [done|]. by apply lsum_nonneg.
Qed.

Lemma head_left : moved 0 s (set_video_fanout_bytes (saturating_sub (video_fanout_bytes s) (fo_charged_bytes f)) (set_video_fanouts fs s)).
Proof.
  destruct head_fanouts as (Hb & Hc & Hr). pose proof (inv_fanouts _ _ _ _ I) as F. rewrite Hq in F.
  assert (fanouts_ok (streams s) fs (saturating_sub (video_fanout_bytes s) (fo_charged_bytes f))) as F'.
  { split; [unfold saturating_sub; lia|pose proof (fa_cap _ _ _ F); unfold saturating_sub, VIDEO_FANOUT_QUEUE_MAX_BYTES in *; lia|..].
    - pose proof (fa_charged _ _ _ F) as X. by inversion X.
    - pose proof (fa_stream _ _ _ F) as X. by inversion X. }
  assert (relayed_ok (clients s) fs (next_token s)) as R' by (pose proof (inv_relayed _ _ _ _ I) as X; rewrite Hq in X; by inversion X).
  clear Hb Hc Hr F. split; cbn; try done; [|lia]. split; cbn; first [keep I|done].
Qed.

Lemma head_advanced g : fo_stream_id g = fo_stream_id f -> fo_data g = fo_data f -> fo_subscribers g = fo_subscribers f ->
  fo_charged_bytes g = fo_charged_bytes f -> moved 0 s (set_video_fanouts (g :: fs) s).
Proof.
  intros Hi Hd Hs Hc. pose proof (inv_fanouts _ _ _ _ I) as F. pose proof (inv_relayed _ _ _ _ I) as R. rewrite Hq in F, R.
  assert (fanouts_ok (streams s) (g :: fs) (video_fanout_bytes s)) as F'.
  { split; [rewrite (fa_bytes _ _ _ F); cbn; by rewrite Hc|apply F|..].
    - pose proof (fa_charged _ _ _ F) as X. inversion X; subst. constructor; [by rewrite Hc|done].
    - pose proof (fa_stream _ _ _ F) as X. inversion X; subst. constructor; [by rewrite Hi|done]. }
  assert (relayed_ok (clients s) (g :: fs) (next_token s)) as R'.
  { inversion R as [|? ? [A B] Hrest]; subst. constructor; [|done]. split; [by rewrite Hi, Hd|]. by rewrite Hi, Hs. }
  clear Hi Hd Hs Hc F R. split; cbn; try done; [|lia]. split; cbn; first [keep I|done].
Qed.

(** The subscribers of a waiting frame are viewers. *)
Lemma head_viewer t c : t ∈ fo_subscribers f -> clients s !! t = Some c -> cc_session_id c = None.
Proof.
  intros Ht Hc. pose proof (inv_relayed _ _ _ _ I) as R. rewrite Hq in R. inversion R as [|? ? [_ Hv] _]; subst.
  destruct (Hv t Ht) as [_ Hx]. destruct (Hx c Hc) as (w & Hk & _). pose proof (co_progress _ (inv_conns _ _ _ _ I t c Hc)) as Hpr.
  unfold progress in Hpr. rewrite Hk in Hpr. tauto.
Qed.

End head.

(** After a recipient has been served. *)
Definition served (f : VideoFanout) (s : server) : server :=
  let f := {| fo_stream_id := fo_stream_id f; fo_data := fo_data f; fo_subscribers := fo_subscribers f;
              fo_next_subscriber := S (fo_next_subscriber f); fo_charged_bytes := fo_charged_bytes f |} in
  if decide (fo_next_subscriber f < length (fo_subscribers f))%nat then set_video_fanouts (f :: video_fanouts s) s
  else set_video_fanout_bytes (saturating_sub (video_fanout_bytes s) (fo_charged_bytes f)) s.

Lemma served_moved (s : server) f fs : inv s -> video_fanouts s = f :: fs ->
  moved 0 s (served f (set_video_fanouts fs s)) /\ (length (video_fanouts (served f (set_video_fanouts fs s))) <= S (length fs))%nat.
Proof.
  intros I Hq. unfold served. cbv zeta. cbn [fo_next_subscriber fo_subscribers fo_charged_bytes]. case_decide.
  - split; [|cbn; lia]. by apply (head_advanced s f fs I Hq).
  - split; [|cbn; lia]. by apply (head_left s f fs I Hq).
Qed.

Lemma fanout_step_moves (s : server) f fs : inv s -> video_fanouts s = f :: fs -> (fo_next_subscriber f < length (fo_subscribers f))%nat ->
  exists s', fanout_step enc now f (set_video_fanouts fs s) = Some s' /\ moved 0 s s' /\ (length (video_fanouts s') <= length (video_fanouts s))%nat.
Proof.
  intros I Hq Hn. unfold fanout_step. apply lookup_lt_is_Some_2 in Hn as [t Ht]. rewrite Ht. cbn [mbind option_bind fo_data]. apply list_elem_of_lookup_2 in Ht.
  rewrite seal_fanouts. pose proof (seal_moved s t (SharedVideoFrame.as_slice (fo_data f)) I) as (K1 & Hsame & Hsess).
  destruct (seal_video_to_subscriber t (SharedVideoFrame.as_slice (fo_data f)) s) as [s1 o]. cbn [fst] in *. injection Hsame as Hstr Hfan Hby.
  assert (forall s2, moved 0 s s2 -> video_fanouts s2 = f :: fs ->
    exists s', Some (served f (set_video_fanouts fs s2)) = Some s' /\ moved 0 s s' /\ (length (video_fanouts s') <= length (video_fanouts s))%nat) as Hend.
  { intros s2 K2 Hq2. destruct (served_moved s2 f fs (mv_inv _ _ _ _ _ K2) Hq2) as [K3 Hl]. eexists. split; [done|]. split; [by apply (moved_trans enc newcomer 0 0 _ _ _ K2)|].
    rewrite Hq. exact Hl. }
  rewrite Hq in Hfan. destruct (drop_reason o); [|exact (Hend s1 K1 Hfan)].
  pose proof (unsubscribed_moved s1 t (fo_stream_id f) (mv_inv _ _ _ _ _ K1)) as K2. cbn [fo_stream_id streams set_video_fanouts].
  set (s2 := set_streams _ s1) in *.
  assert (forall c, clients s2 !! t = Some c -> cc_session_id c = None) as Hnone.
  { intros c' Hc'. destruct (Hsess c' Hc') as (c & Hc & ->). by apply (head_viewer s f fs I Hq t). }
  destruct (disc_moves enc now newcomer s2 t (mv_inv _ _ _ _ _ K2)) as (s3 & E & K3).
  destruct (disc_viewer_fanouts s2 t fs s3 Hnone E) as (E2 & Hf3 & Hb3).
  change (set_streams (alter (fun v => set_subscribers (filter (fun other => other <> t) (st_subscribers v)) v) (fo_stream_id f) (streams s1)) (set_video_fanouts fs s1))
    with (set_video_fanouts fs s2). rewrite E2. cbn [mbind option_bind].
  apply Hend; [|by rewrite Hf3]. apply (moved_trans enc newcomer 0 0 _ _ _ K1). by apply (moved_trans enc newcomer 0 0 _ _ _ K2).
Qed.

Lemma fanout_loop_moves fuel : forall recipients sent (s : server), inv s ->
  (length (video_fanouts s) + (VIDEO_FANOUT_BUDGET_RECIPIENTS - recipients) < fuel)%nat -> moves 0 s (fanout_loop enc now fuel recipients sent s).
Proof.
  induction fuel as [|fuel IH]; intros recipients sent s I Hf; [lia|]. cbn [fanout_loop]. case_decide as Hr; [by apply moves_id|].
  destruct (video_fanouts s) as [|f fs] eqn:Hq; [by apply moves_id|]. cbv zeta. cbn [length] in Hf. case_decide as Hdone.
  { pose proof (head_left s f fs I Hq) as K. apply (moves_step enc newcomer 0 0 _ _ _ K). apply IH; [apply K|cbn [video_fanouts set_video_fanout_bytes set_video_fanouts]; lia]. }
  case_decide.
  { eexists. split; [reflexivity|]. change (moved 0 s (set_video_fanouts (f :: fs) s)). by apply (head_advanced s f fs I Hq). }
  destruct (fanout_step_moves s f fs I Hq) as (s1 & -> & K & Hl); [lia|]. cbn [mbind option_bind]. apply (moves_step enc newcomer 0 0 _ _ _ K).
  case_decide; [apply moves_id, K|]. apply IH; [apply K|]. rewrite Hq in Hl. cbn [length] in Hl. lia.
Qed.

Lemma fanouts_moves (s : server) : inv s -> moves 0 s (process_video_fanouts enc now s).
Proof. intros I. apply fanout_loop_moves; [done|lia]. Qed.

End video_inv.
