(* ===== verification/ServerAuthInv.v ===== *)
(** * Sessions need credentials

    Every way to authenticate ends and keeps the server's tables in order, and a
    session is established only for a user whose credential the connection has
    presented ([vouched]): also when the identity writer has to be waited for. *)

From stdpp Require Import sorting pretty.
From S2P Require Import Prelude Primitives Text Transport Handshake Auth Media Frame Evented ControlLane Video Net History Usernames Identity.
From S2P Require Import Clock VoiceRelay RoomLog RoomStore ServerState ServerCascade ServerInvariant ServerTeardown ServerOps ServerConns ServerAuth.
From S2P Require Import ServerNames ServerKept ServerConnsInv ServerSends.

Section vouched.
Context {Rx Tx St : Type} `{HashOrder} `{Primitives} `{ClaimsCodec} (mls : MlsDirectory) (now : Z).

(** What proves that a connection acts for a user. *)
Definition vouched (s : Server Rx Tx St) (c : ClientControl) (u : Z) : Prop :=
  let seed := cfg_server_identity_seed (config s) in
  let epoch := cfg_password_epoch (config s) in
  match c with
  | Authenticate _ auth_token _ _ =>
      authenticate_credential mls auth_token = Some u \/
      authenticate_credential mls auth_token = None /\ initialized mls u = false /\
      ((exists claims, verify_dynamic_token seed auth_token = Ok claims /\ claim_user_id claims = u /\
         is_dynamic_user_id u = true /\ cfg_public (config s) = true /\ password_epoch claims = epoch) \/
       (exists user, user ∈ users s /\ Identity.user_id user = u /\ Text.trim (token_hash user) <> [] /\
         verify_secret_hash (token_hash user) auth_token = true))
  | Pair _ pairing_code _ _ _ =>
      exists name invite, invites s !! name = Some invite /\ now < expires_at invite /\
        verify_secret_hash (pairing_code_hash invite) pairing_code = true /\
        ((exists user, user ∈ users s /\ internal_reference user = name /\ Identity.user_id user = u) \/
         (forall user, user ∈ users s -> internal_reference user <> name /\ Identity.user_id user < u))
  | OpenPair _ password existing_token _ _ =>
      cfg_public (config s) = true /\
      (forall hash, cfg_password_hash (config s) = Some hash -> verify_secret_hash hash password = true) /\
      (dynamic_user_id_from_recovery_token seed existing_token = Ok u \/
       exists claims, verify_dynamic_token seed existing_token = Ok claims /\ claim_user_id claims = u /\ is_dynamic_user_id u = true /\
         (password_epoch claims = epoch \/ is_Some (cfg_password_hash (config s))))
  | _ => False
  end.

End vouched.

Section auth_inv.
Context {Rx Tx St : Type} `{HashOrder} `{ChatStoreLaws St} `{PrimitiveLaws} `{StreamWriter Tx} `{Unicode} `{ClaimsCodec}.
Context (encode_server_control : ServerControl -> bytes) (random : nat -> nat -> option bytes) (now now_ms : Z).
Context (mls : MlsDirectory) (writer_runs : bool) (newcomer : Z -> Z -> Prop).
Abbreviation server := (Server Rx Tx St).
Abbreviation client := (ClientConn Rx Tx).
Abbreviation enc := encode_server_control.
Abbreviation inv := (inv enc ∅ ∅).
Abbreviation moved := (moved enc newcomer).
Abbreviation moves := (moves enc newcomer).
Abbreviation moves_res := (moves_res enc newcomer).
Abbreviation names_fine := (names_fine newcomer).
Abbreviation claim_ok := (claim_ok newcomer).
Abbreviation disc := (disconnect enc now).

#[local] Hint Resolve no_strangers_refl kinds_refl : core.

(** ** Names *)

Lemma renamed_moved (s : server) names : inv s -> (names_fine s -> names_fine (set_usernames names s)) -> moved 0 s (set_usernames names s).
Proof. intros I Hn. unseen I. Qed.

Lemma users_moved (s : server) us : inv s -> moved 0 s (set_users us s).
Proof. intros I. unseen I. Qed.

Lemma invites_moved (s : server) m : inv s -> moved 0 s (set_invites m s).
Proof. intros I. unseen I. Qed.

Lemma allocations_moved (s : server) l m : inv s -> moved 0 s (set_open_pair_ip_allocations m (set_open_pair_global_allocations l s)).
Proof. intros I. unseen I. Qed.

Lemma username_change_moves (s : server) u : inv s -> moves 0 s (broadcast_username_change enc now u s).
Proof.
  intros I. unfold broadcast_username_change. destruct (representative_sessions s !! u) as [[k x]|]; [|by apply moves_id].
  apply moves_kept, sends_kept; [done|]. intros t _. by apply tellable_unscoped.
Qed.

Lemma first_scalar bs n : utf8_first bs = Some n -> Utf8.scalar (Utf8.decode_char (take n bs)).
Proof.
  unfold utf8_first, continuation, Utf8.scalar. destruct bs as [|a bs]; [done|]. pose proof (u8_range a) as Ha.
  repeat case_decide; (try done); intros E;
    repeat match type of E with context [match ?l with [] => _ | _ :: _ => _ end] => destruct l as [|? ?]; try done end;
    repeat match type of E with context [if ?b then _ else _] => destruct b eqn:?; try done end;
    injection E as <-; unfold Utf8.decode_char; cbn [firstn fmap list_fmap map]; rewrite ?take_0; cbn [fmap list_fmap map];
    repeat match goal with Hb : (_ && _)%bool = true |- _ => apply andb_true_iff in Hb as [? ?] end;
    repeat match goal with Hb : bool_decide _ = true |- _ => apply bool_decide_eq_true in Hb end; repeat case_decide; lia.
Qed.

Lemma decode_scalar fuel : forall bs s, Utf8.decode_loop fuel bs = Some s -> Forall Utf8.scalar s.
Proof.
  induction fuel as [|fuel IH]; intros [|b bs] s E; cbn [Utf8.decode_loop] in E; try (by injection E as <-); try done.
  apply bind_Some in E as (n & Hn & E). apply bind_Some in E as (rest & Hr & E). injection E as <-.
  constructor; [by apply first_scalar|by eapply IH].
Qed.

Lemma chars_scalar b : Forall Utf8.scalar (chars b).
Proof. unfold chars, Utf8.decode. destruct (Utf8.decode_loop _ _) eqn:E; [by eapply decode_scalar|done]. Qed.

(** ** Claiming a name *)


Lemma dynamic_claim_wf r u n : registry_wf r -> Forall Utf8.scalar n -> registry_wf (UsernameRegistry.apply_dynamic_claim r u n).1.
Proof.
  intros W Hs. unfold UsernameRegistry.apply_dynamic_claim. case_decide; [done|]. destruct (Username.validate n) as [[]|] eqn:Hv; [|done].
  cbv zeta. destruct (UsernameRegistry.is_available r (Username.trim n) (Some u)) eqn:Ha; [|done]. apply set_in_memory_wf; [done| |done]. by apply name_ok_trim.
Qed.

Lemma volatile_claim_wf r u n : reg_log r = None -> registry_wf r -> Forall Utf8.scalar n -> registry_wf (UsernameRegistry.claim_dynamic AppendOk r u n).1.
Proof.
  intros Hl W Hs. unfold UsernameRegistry.claim_dynamic. case_decide; [done|]. destruct (Username.validate n) as [[]|] eqn:Hv; [|done].
  cbv zeta. destruct (negb _); [done|]. case_decide; [done|]. rewrite Hl. by apply dynamic_claim_wf, trim_scalar.
Qed.

Lemma unowned_available r n u : UsernameRegistry.is_available r n None = true -> UsernameRegistry.is_available r n (Some u) = true.
Proof. unfold UsernameRegistry.is_available. by destruct (UsernameRegistry.owner_of r n). Qed.

Lemma idle_names (s : server) names : pending_identity s = None -> registry_wf names -> names_fine (set_usernames names s).
Proof. intros Hp W. split; [done|]. cbn. by rewrite Hp. Qed.

Lemma claim_moves (s : server) u name : inv s -> pending_identity s = None -> persisted_names s = false -> Forall Utf8.scalar name ->
  moves_res 0 s (claim_dynamic_username enc now u name s).
Proof.
  intros I Hp Hl Hs. unfold claim_dynamic_username. apply bool_decide_eq_false in Hl. apply eq_None_not_Some in Hl.
  pose proof (fun W => volatile_claim_wf (usernames s) u name Hl W Hs) as W.
  destruct (UsernameRegistry.claim_dynamic AppendOk (usernames s) u name) as [names r]. cbn [fst] in W.
  assert (moved 0 s (set_usernames names s)) as K.
  { apply renamed_moved; [done|]. intros [Wn _]. apply idle_names; auto. }
  destruct r; [|by eexists _, _]. apply (moves_res_step enc newcomer 0 0 _ _ _ K), moves_done, username_change_moves, K.
Qed.

Lemma apply_moves (s : server) u name : inv s -> pending_identity s = None -> Forall Utf8.scalar name ->
  moves_res 0 s (apply_dynamic_username enc now u name s).
Proof.
  intros I Hp Hs. unfold apply_dynamic_username. pose proof (fun W => dynamic_claim_wf (usernames s) u name W Hs) as W.
  destruct (UsernameRegistry.apply_dynamic_claim (usernames s) u name) as [names r]. cbn [fst] in W.
  destruct r; [|by apply moves_res_id].
  assert (moved 0 s (set_usernames names s)) as K.
  { apply renamed_moved; [done|]. intros [Wn _]. apply idle_names; auto. }
  apply (moves_res_step enc newcomer 0 0 _ _ _ K), moves_done, username_change_moves, K.
Qed.

Lemma install_moves (s : server) us u : inv s -> pending_identity s = None -> name_ok (user_name u) ->
  UsernameRegistry.is_available (usernames s) (user_name u) (Some (Identity.user_id u)) = true -> moves 0 s (install_explicit_username enc now us u s).
Proof.
  intros I Hp Hn Ha. unfold install_explicit_username. cbv zeta. pose proof (users_moved s us I) as K.
  apply (moves_step enc newcomer 0 0 _ _ _ K).
  assert (moved 0 (set_users us s) (set_usernames (UsernameRegistry.set_explicit (usernames (set_users us s)) (Identity.user_id u) (user_name u)) (set_users us s))) as K1.
  { apply renamed_moved; [apply K|]. intros [Wn _]. apply idle_names; [done|]. by apply set_in_memory_wf. }
  apply (moves_step enc newcomer 0 0 _ _ _ K1), username_change_moves, K1.
Qed.

(** ** Establishing *)

Abbreviation rejects := (reject_moves enc now newcomer).
Abbreviation establishes := (establish_moves enc now now_ms newcomer).

Lemma begin_moves (s : server) t w p msg : inv s -> (names_fine s -> claim_ok (usernames s) t p) ->
  moves_res 0 s (begin_identity_write enc now writer_runs t w p msg s).
Proof.
  intros I Hp. unfold begin_identity_write. destruct (pending_identity s) as [q|] eqn:Hq; [by apply rejects|].
  destruct (_ && _); [|by apply rejects]. eexists _, _. split; [reflexivity|].
  assert (names_fine s -> names_fine (set_pending_identity (Some (t, p)) (set_identity_requests [(t, w)] s))) as Hn.
  { intros Hn. split; [apply Hn|]. cbn. intros t' p' [= <- <-]. by apply Hp. }
  clear Hp. unseen I.
Qed.

Lemma dynamic_moves (s : server) t u name files limit : inv s -> pending_identity s = None -> Forall Utf8.scalar name -> newcomer u t ->
  moves_res 0 s (authenticate_dynamic_user enc now now_ms writer_runs t u name files limit s).
Proof.
  intros I Hp Hs Hn. unfold authenticate_dynamic_user. cbv zeta. destruct (UsernameRegistry.needs_dynamic_claim _ _ _); [|by apply establishes].
  destruct (persisted_names s) eqn:Hl; [by apply begin_moves|].
  apply (moves_res_then enc newcomer 0 0); [by apply claim_moves|]. intros s1 r K. destruct r; [apply establishes; [apply K|done]|apply moves_res_id, K].
Qed.

Lemma rename_spec us u name updated us' : Forall Utf8.scalar name -> UserStore.prepare_set_user_username us u name = Ok (updated, us') ->
  Identity.user_id updated = u /\ user_name updated = Username.trim name /\ name_ok (user_name updated).
Proof.
  intros Hs. unfold UserStore.prepare_set_user_username. destruct (Username.validate name) as [[]|] eqn:Hv; [|done]. cbv zeta.
  destruct (list_find _ us) as [[i x]|] eqn:Hf; [|done]. apply list_find_Some in Hf as (_ & Hu & _). intros [= <- <-]. cbn.
  split; [done|]. split; [done|]. by apply name_ok_trim.
Qed.

Lemma explicit_moves (s : server) t user name files limit : inv s -> pending_identity s = None -> Forall Utf8.scalar name -> Username.trim name = name ->
  UsernameRegistry.is_available (usernames s) name (Some (Identity.user_id user)) = true -> newcomer (Identity.user_id user) t ->
  moves_res 0 s (authenticate_explicit_user enc now now_ms writer_runs t user name files limit s).
Proof.
  intros I Hp Hs Ht Ha Hn. unfold authenticate_explicit_user. cbv zeta. case_decide; [by apply establishes|].
  destruct (UserStore.prepare_set_user_username _ _ _) as [[updated us]|] eqn:E; [|by apply establishes].
  destruct (rename_spec _ _ _ _ _ Hs E) as (Hu & Hname & Hok). rewrite Ht in Hname.
  destruct (cfg_users_persisted (config s)).
  - apply begin_moves; [done|]. intros _. cbn. rewrite Hu. split_and!; try done. by rewrite Hname.
  - apply (moves_res_bind enc newcomer 0 0); [apply install_moves; try done; by rewrite Hname, Hu|].
    intros s1 K. apply establishes; [apply K|]. cbn. by rewrite Hu.
Qed.

Lemma found {A : Type} (p : A -> bool) l x : List.find p l = Some x -> x ∈ l /\ p x = true.
Proof. intros E. apply List.find_some in E as [Hin Hp]. split; [by apply list_elem_of_In|done]. Qed.

Lemma authenticate_moves (s : server) t name token files limit : inv s -> pending_identity s = None ->
  (forall u, vouched mls now s (Authenticate name token files limit) u -> newcomer u t) ->
  moves_res 0 s (authenticate_client enc now now_ms mls writer_runs t name token files limit s).
Proof.
  intros I Hp Hv. pose proof (trim_scalar _ (chars_scalar name)) as Hs. pose proof (trim_trim (chars name)) as Ht.
  unfold authenticate_client. cbv zeta. unfold vouched in Hv. set (n := Username.trim (chars name)) in *.
  destruct (authenticate_credential mls token) as [u|].
  - destruct (Username.validate n); [|by apply rejects].
    destruct (UsernameRegistry.is_available _ _ _) eqn:Ha; cbn [negb]; [|by apply rejects].
    destruct (List.find _ _) as [user|] eqn:Hf.
    + apply found in Hf as [_ Hu%bool_decide_eq_true]. subst u. apply explicit_moves; try done. apply Hv. by left.
    + destruct (negb _); [by apply rejects|]. apply dynamic_moves; try done. apply Hv. by left.
  - destruct (starts_with _ _).
    + destruct (verify_dynamic_token _ _) as [claims|] eqn:Hc; [|by apply rejects].
      destruct (is_dynamic_user_id _) eqn:Hd; cbn [negb]; [|by apply rejects].
      destruct (negb (cfg_public _) || _) eqn:He; [by apply rejects|]. apply orb_false_iff in He as [Hpub%negb_false_iff Hep%bool_decide_eq_false].
      apply dec_stable in Hep. destruct (initialized mls _) eqn:Hi; [by apply rejects|]. destruct (_ || _); [by apply rejects|].
      apply dynamic_moves; try done. apply Hv. right. split; [done|]. split; [done|]. left. by exists claims.
    + destruct (List.find _ _) as [user|] eqn:Hf; [|by apply rejects].
      apply found in Hf as [Hin [Hh%negb_true_iff%bool_decide_eq_false Hok]%andb_true_iff].
      destruct (Username.validate n); [|by apply rejects].
      destruct (UsernameRegistry.is_available _ _ _) eqn:Ha; cbn [negb]; [|by apply rejects].
      destruct (initialized mls _) eqn:Hi; [by apply rejects|]. apply explicit_moves; try done.
      apply Hv. right. split; [done|]. split; [done|]. right. by exists user.
Qed.

(** ** Pairing *)

Lemma find_list_find {A : Type} (P : A -> Prop) `{forall a, Decision (P a)} l :
  List.find (fun a => bool_decide (P a)) l = snd <$> list_find P l.
Proof.
  induction l as [|a l IH]; [done|]. cbn. destruct (decide (P a)) as [Ha|Ha].
  - by rewrite bool_decide_true.
  - rewrite bool_decide_false by done. rewrite IH. by destruct (list_find P l) as [[]|].
Qed.

Lemma max_bound l u : u ∈ l -> u <= foldr Z.max 0 l.
Proof. induction l as [|a l IH]; [by intros ?%elem_of_nil|]. intros [->|Hu]%elem_of_cons; cbn; [lia|]. specialize (IH Hu). lia. Qed.

Lemma pairing_spec us reference name hash user us' : Forall Utf8.scalar name ->
  UserStore.prepare_mark_user_paired us reference name hash = Ok (user, us') ->
  user_name user = Username.trim name /\ name_ok (user_name user) /\
  match List.find (fun u => bool_decide (internal_reference u = reference)) us with
  | Some u => Identity.user_id user = Identity.user_id u
  | None => forall u, u ∈ us -> Identity.user_id u < Identity.user_id user
  end.
Proof.
  intros Hs. unfold UserStore.prepare_mark_user_paired. destruct (Username.validate name) as [[]|] eqn:Hv; [|done]. cbv zeta.
  rewrite find_list_find. destruct (list_find _ us) as [[i x]|]; cbn [fmap option_fmap option_map snd].
  - intros [= <- <-]. cbn. split; [done|]. split; [by apply name_ok_trim|done].
  - unfold ok_or, checked_add. intros E. repeat case_decide; try done. cbn in E. case_decide; [done|]. injection E as <- <-. cbn.
    split; [done|]. split; [by apply name_ok_trim|]. intros u Hu. apply (list_elem_of_fmap_2 Identity.user_id), max_bound in Hu. lia.
Qed.

Lemma pair_moves (s : server) t name code new_token files limit : inv s -> pending_identity s = None ->
  (forall u, vouched mls now s (Pair name code new_token files limit) u -> newcomer u t) ->
  moves_res 0 s (pair_client enc now now_ms writer_runs t name code new_token files limit s).
Proof.
  intros I Hp Hv. pose proof (trim_scalar _ (chars_scalar name)) as Hs. pose proof (trim_trim (chars name)) as Ht.
  unfold pair_client. cbv zeta. set (s0 := expire_invites now s).
  assert (moved 0 s s0) as K by (by apply invites_moved). pose proof (mv_inv _ _ _ _ _ K) as I0.
  apply (moves_res_step enc newcomer 0 0 _ _ _ K). unfold vouched in Hv.
  destruct (List.find _ (hash_iter _)) as [[invite_name invite]|] eqn:Hf; [|by apply rejects].
  apply found in Hf as [Hin Hcode]. apply elem_of_hash_iter in Hin. cbn [invites s0 expire_invites set_invites] in Hin.
  apply map_lookup_filter_Some in Hin as [Hin Hfresh]. cbn in Hfresh, Hcode.
  set (n := Username.trim (chars name)) in *. destruct (Username.validate n); [|by apply rejects].
  destruct (existsb _ _); [by apply rejects|].
  destruct (UsernameRegistry.is_available _ _ _) eqn:Ha; cbn [negb]; [|by apply rejects].
  destruct (UserStore.prepare_mark_user_paired _ _ _ _) as [[user us]|] eqn:E; [|by apply rejects].
  destruct (pairing_spec _ _ _ _ _ _ Hs E) as (Hname & Hok & Hid). rewrite Ht in Hname.
  assert (newcomer (Identity.user_id user) t) as Hn.
  { apply Hv. exists invite_name, invite. split_and!; try done.
    change (users s0) with (users s) in Hid. destruct (List.find _ (users s)) as [u|] eqn:Hu.
    - left. apply found in Hu as [Hu1 Hu2%bool_decide_eq_true]. by exists u.
    - right. intros u Hu3. split; [|by apply Hid]. pose proof (List.find_none _ _ Hu u (proj1 (list_elem_of_In _ _) Hu3)) as Hf.
      by apply bool_decide_eq_false in Hf. }
  assert (UsernameRegistry.is_available (usernames s0) (user_name user) (Some (Identity.user_id user)) = true) as Hav.
  { rewrite Hname. destruct (List.find _ (users s0)) as [u|]; cbn in Ha; [by rewrite Hid|by apply unowned_available]. }
  destruct (cfg_users_persisted (config s0)).
  - apply begin_moves; [done|]. intros _. by split_and!.
  - apply (moves_res_bind enc newcomer 0 0); [by apply install_moves|]. intros s1 K1.
    apply (moves_res_step enc newcomer 0 0 _ _ _ (invites_moved s1 (delete invite_name (invites s1)) (mv_inv _ _ _ _ _ K1))). apply establishes; [|done].
    apply invites_moved, K1.
Qed.

(** ** Open pairing *)

(** A rate check passes, or the connection has been told. *)
Definition passes (s : server) (m : option (server * result bytes bool)) : Prop :=
  exists s1 r, m = Some (s1, r) /\ moved 0 s s1 /\ (r = Ok true -> pending_identity s1 = pending_identity s).

Lemma limited_passes (s s0 : server) t : moved 0 s s0 -> passes s (rate_limited enc now t s0).
Proof.
  intros K. unfold rate_limited. destruct (rejects s0 t ERROR_OPEN_PAIR_RATE_LIMITED (text "open pairing is rate limited; retry later") (mv_inv _ _ _ _ _ K))
    as (s1 & r & -> & K1). cbn. eexists _, _. split; [done|]. split; [by apply (moved_trans enc newcomer 0 0 _ _ _ K)|by destruct r].
Qed.

Lemma attempt_passes (s : server) t : inv s -> passes s (check_open_pair_attempt_rate enc now t s).
Proof.
  intros I. unfold check_open_pair_attempt_rate. cbv zeta. pose proof (allocations_moved s) as K. unfold prune_open_pair_rate_windows in *.
  case_decide; [by apply limited_passes, K|]. eexists _, _. split; [done|]. split; [|done]. unseen I.
Qed.

Lemma allocation_passes (s : server) t : inv s -> passes s (check_open_pair_allocation_rate enc now t s).
Proof.
  intros I. unfold check_open_pair_allocation_rate. destruct (clients s !! t) as [c|].
  2: { eexists _, _. split; [done|]. split; [by apply moved_refl|done]. }
  cbv zeta. pose proof (allocations_moved s) as K. unfold prune_open_pair_rate_windows in *.
  case_decide; [by apply limited_passes, K|]. eexists _, _. split; [done|]. split; [|done]. unseen I.
Qed.

Lemma after_check (s : server) m (f : server -> option (server * result bytes ())) : passes s m ->
  (forall s1, moved 0 s s1 -> pending_identity s1 = pending_identity s -> moves_res 0 s1 (f s1)) ->
  moves_res 0 s ('(s1, r) ← m; match r with Err e => Some (s1, Err e) | Ok false => ok s1 | Ok true => f s1 end).
Proof.
  intros (s1 & r & -> & K & Hp) Hf. cbn. apply (moves_res_step enc newcomer 0 0 _ _ _ K).
  destruct r as [[]|e]; [by apply Hf; [|apply Hp]|apply moves_res_id, K..].
Qed.

Lemma open_pair_as_moves (s : server) t u name files limit : inv s -> pending_identity s = None -> Forall Utf8.scalar name -> newcomer u t ->
  moves_res 0 s (open_pair_as enc random now now_ms writer_runs t u name files limit s).
Proof.
  intros I Hp Hs Hn. unfold open_pair_as. cbv zeta. pose proof (draws_moved enc newcomer s (S (rng_draws s)) I) as K.
  pose proof (mv_inv _ _ _ _ _ K) as I1. apply (moves_res_step enc newcomer 0 0 _ _ _ K).
  destruct (issue_dynamic_token _ _ _) as [token|]; [|by apply moves_res_id].
  destruct (UsernameRegistry.needs_dynamic_claim _ _ _); [|by apply establishes].
  destruct (persisted_names _) eqn:Hl; [by apply begin_moves|].
  apply (moves_res_then enc newcomer 0 0); [by apply claim_moves|]. intros s1 r K1.
  destruct r; [apply establishes; [apply K1|done]|apply rejects, K1].
Qed.

Lemma returning_spec seed epoch b existing u : from_option Some (recovery_user_id seed existing) (token_user_id seed epoch b existing) = Some u ->
  dynamic_user_id_from_recovery_token seed existing = Ok u \/
  exists claims, verify_dynamic_token seed existing = Ok claims /\ claim_user_id claims = u /\ is_dynamic_user_id u = true /\
    (password_epoch claims = epoch \/ b = true).
Proof.
  unfold token_user_id, recovery_user_id. case_decide; cbn.
  { destruct (starts_with _ _); [|done]. destruct (dynamic_user_id_from_recovery_token seed existing); [|done]. intros [= ->]. by left. }
  destruct (verify_dynamic_token seed existing) as [claims|].
  - destruct (is_dynamic_user_id (claim_user_id claims)) eqn:Hd; cbn [andb].
    + destruct (_ || b) eqn:He; cbn.
      * intros [= <-]. right. exists claims. split_and!; try done. apply orb_true_iff in He as [He%bool_decide_eq_true|He]; by auto.
      * destruct (starts_with _ _); [|done]. destruct (dynamic_user_id_from_recovery_token seed existing); [|done]. intros [= ->]. by left.
    + cbn. destruct (starts_with _ _); [|done]. destruct (dynamic_user_id_from_recovery_token seed existing); [|done]. intros [= ->]. by left.
  - cbn. destruct (starts_with _ _); [|done]. destruct (dynamic_user_id_from_recovery_token seed existing); [|done]. intros [= ->]. by left.
Qed.

Lemma identified_moves (s : server) t name existing b files limit : inv s -> pending_identity s = None -> Forall Utf8.scalar name ->
  (forall u, from_option Some (recovery_user_id (cfg_server_identity_seed (config s)) existing)
               (token_user_id (cfg_server_identity_seed (config s)) (cfg_password_epoch (config s)) b existing) = Some u -> newcomer u t) ->
  moves_res 0 s (open_pair_identified enc random now now_ms writer_runs t name existing b files limit s).
Proof.
  intros I Hp Hs Hv. unfold open_pair_identified. cbv zeta. destruct (_ && _); [by apply rejects|].
  destruct (from_option _ _ _) as [u|]; [|by apply rejects]. specialize (Hv u eq_refl).
  destruct (negb _); [by apply rejects|]. destruct (_ && _); [|by apply open_pair_as_moves].
  apply after_check; [by apply allocation_passes|]. intros s1 K Hp1. apply open_pair_as_moves; [apply K|congruence|done..].
Qed.

Lemma open_pair_moves (s : server) t name password existing files limit : inv s -> pending_identity s = None ->
  (forall u, vouched mls now s (OpenPair name password existing files limit) u -> newcomer u t) ->
  moves_res 0 s (open_pair_client enc random now now_ms writer_runs t name password existing files limit s).
Proof.
  intros I Hp Hv. unfold open_pair_client. destruct (cfg_public (config s)) eqn:Hpub; cbn [negb]; [|by apply rejects].
  apply after_check; [by apply attempt_passes|]. intros s1 K Hp1. pose proof (mv_inv _ _ _ _ _ K) as I1. pose proof (mv_config _ _ _ _ _ K) as Hcfg.
  unfold vouched in Hv. rewrite Hp in Hp1. rewrite <- Hcfg in Hv, Hpub. clear K Hcfg.
  assert (forall b, (b = true -> is_Some (cfg_password_hash (config s1))) ->
    (forall hash, cfg_password_hash (config s1) = Some hash -> verify_secret_hash hash password = true) ->
    moves_res 0 s1 (match Username.validate (Username.trim (chars name)) with
      | Err e => reject_auth enc now t ERROR_PAIRING_INVALID_REQUEST (text "open pairing failed: " ++ username_error_text e) s1
      | Ok _ => open_pair_identified enc random now now_ms writer_runs t (Username.trim (chars name)) existing b files limit s1 end)) as Hgo.
  { intros b Hb Hpw. destruct (Username.validate _); [|by apply rejects].
    apply identified_moves; [done|done|by apply trim_scalar, chars_scalar|]. intros u Hu. apply Hv. split; [done|]. split; [done|].
    apply returning_spec in Hu as [Hr|(claims & Hc & Hid & Hd & He)]; [by left|right]. exists claims. split_and!; try done. destruct He; by auto. }
  destruct (cfg_password_hash (config s1)) as [hash|] eqn:Hh; [|by apply Hgo].
  case_decide; [by apply rejects|]. destruct (verify_secret_hash hash password) eqn:Hok; cbn [negb]; [|by apply rejects].
  apply Hgo; [by eexists|]. by intros ? [= <-].
Qed.

(** ** Requests and replies *)

Lemma auth_moves (s : server) t c : inv s -> (identity_control_needs_ordering c = true -> pending_identity s = None) -> (forall u, vouched mls now s c u -> newcomer u t) ->
  moves_res 0 s (handle_auth_control enc random now now_ms mls writer_runs t c s).
Proof.
  intros I Hp Hv. destruct c; try (by apply moves_res_id).
  - apply authenticate_moves; auto.
  - apply pair_moves; auto.
  - apply open_pair_moves; auto.
Qed.

Lemma finish_establish_moves (s : server) t e : inv s -> newcomer (Identity.user_id (pe_user e)) t ->
  moves 0 s (finish_pending_establish enc now now_ms t e s).
Proof. intros I Hn. destruct (establishes s t e I Hn) as (s1 & r & E & K). exists s1. unfold finish_pending_establish. by rewrite E. Qed.

Lemma refuse_moves (s : server) t m : inv s -> moves 0 s (refuse enc now t m s).
Proof. intros I. destruct (rejects s t ERROR_INTERNAL (text m) I) as (s1 & r & E & K). exists s1. unfold refuse. by rewrite E. Qed.

Lemma finish_moves (s : server) t p written : inv s -> pending_identity s = None -> claim_ok (usernames s) t p ->
  moves 0 s (finish_identity enc now now_ms t p written s).
Proof.
  intros I Hp Hc. unfold finish_identity. destruct p as [name e|us e fallback|invite us e|name e]; cbn [ServerConnsInv.claim_ok] in Hc.
  - destruct Hc as [Hn Hs]. destruct written; [|by apply refuse_moves].
    destruct (apply_moves s (Identity.user_id (pe_user e)) name I Hp Hs) as (s1 & r & -> & K). cbn [mbind option_bind].
    apply (moves_step enc newcomer 0 0 _ _ _ K). destruct r; [apply finish_establish_moves; [apply K|done]|apply refuse_moves, K].
  - destruct Hc as (Hn & Hf & Hok & Ha). destruct written; [|by apply finish_establish_moves].
    apply (moves_bind enc newcomer 0 0); [by apply install_moves|]. intros s1 K. apply finish_establish_moves; [apply K|done].
  - destruct Hc as (Hn & Hok & Ha). destruct written; [|by apply refuse_moves].
    apply (moves_bind enc newcomer 0 0); [by apply install_moves|]. intros s1 K.
    apply (moves_step enc newcomer 0 0 _ _ _ (invites_moved s1 (delete invite (invites s1)) (mv_inv _ _ _ _ _ K))).
    apply finish_establish_moves; [apply invites_moved, K|done].
  - destruct Hc as [Hn Hs]. destruct written; [|by apply refuse_moves].
    destruct (apply_moves s (Identity.user_id (pe_user e)) name I Hp Hs) as (s1 & r & -> & K). cbn [mbind option_bind].
    apply (moves_step enc newcomer 0 0 _ _ _ K). destruct r; [apply finish_establish_moves; [apply K|done]|apply refuse_moves, K].
Qed.

(** Taking what is pending off. *)
Lemma taken_moved (s : server) : inv s -> moved 0 s (set_pending_identity None s).
Proof.
  intros I. assert (names_fine s -> names_fine (set_pending_identity None s)) as Hn by (intros [W _]; split; [done|]; done).
  unseen I.
Qed.

End auth_inv.
