(* ===== verification/ServerLoopInv.v ===== *)
(** * A pass over a connection keeps the tables in order

    [read_client] of a control connection ends, whatever bytes have arrived and in
    whatever pieces, and keeps the invariant; so does taking the replies of the
    identity writer, with the authentications deferred until then. *)

From stdpp Require Import sorting pretty.
From S2P Require Import Prelude Primitives Text Transport Handshake Auth Media Frame Evented ControlLane Video Net History Usernames Identity.
From S2P Require Import Clock VoiceRelay RoomLog RoomStore ServerState ServerCascade ServerOps ServerConns ServerAuth ServerVideo ServerLoop.
From S2P Require Import ServerInvariant ServerTeardown ServerNames ServerKept ServerConnsInv ServerSends ServerVideoInv ServerAuthInv.

(** Whoever passes: for what does not depend on who may have a session. *)
Definition anyone (u t : Z) : Prop := True.

(** The codec of requests, of which is used that the texts of a decoded request
    are no longer than what they were decoded from, and its sizes 64-bit. *)
Class ControlCodec (decode_client_control : bytes -> option ClientControl) : Prop := {
  decoded_text : forall b c, decode_client_control b = Some c ->
    match c with
    | SendChat _ x | EditChat _ _ x => len x <= len b
    | UploadFileStart _ _ name size _ _ => len name <= len b /\ is_u 64 size
    | _ => True
    end;
}.

Section loop_inv.
Context {Rx Tx St : Type} `{HashOrder} `{ChatStoreLaws St} `{PrimitiveLaws} `{StreamSocket Rx} `{StreamWriter Tx} `{Unicode} `{ClaimsCodec}.
Context (encode_server_control : ServerControl -> bytes) (encode_server_hello : ServerHello -> bytes).
Context (decode_client_hello : bytes -> option ClientHello) (decode_client_control : bytes -> option ClientControl) `{!ControlCodec decode_client_control}.
Context (hello_from_binary : bytes -> option VideoHello) (ack_to_binary : VideoAck -> bytes).
Context (random : nat -> nat -> option bytes) (now now_ms : Z) (with_capacity : nat -> nat) (tries : Rx -> nat).
Context (Htries : forall rx : Rx, (patience rx < tries rx)%nat).
Context (mls : MlsDirectory) (writer_runs : bool) (answers : Answers).
Abbreviation server := (Server Rx Tx St).
Abbreviation client := (ClientConn Rx Tx).
Abbreviation enc := encode_server_control.
Abbreviation inv := (inv enc ∅ ∅).
Abbreviation moved := (moved enc anyone).
Abbreviation moves := (moves enc anyone).
Abbreviation moves_res := (moves_res enc anyone).
Abbreviation names_fine := (names_fine anyone).
Abbreviation disc := (disconnect enc now).

#[local] Hint Resolve no_strangers_refl kinds_refl : core.

(** ** Names, counters *)

Lemma registry_short (s : server) : registry_wf (usernames s) -> names_ok s.
Proof.
  intros W u. unfold username_of, UsernameRegistry.username_for. destruct (by_user (usernames s) !! u) as [n|] eqn:Hn; [|reflexivity].
  pose proof (name_ok_len n (rw_names _ W u n Hn)). unfold len. cbn [default from_option id]. lia.
Qed.

Lemma fine_short (s : server) : names_fine s -> names_ok s.
Proof. intros [W _]. by apply registry_short. Qed.

Lemma room_moved a b (s s' : server) : moved a s s' -> has_room (a + b) s -> has_room b s'.
Proof. intros K [Hp Hr]. pose proof (mv_streams _ _ _ _ _ K). unfold has_room. lia. Qed.

Lemma room_less a b (s : server) : a <= b -> has_room b s -> has_room a s.
Proof. unfold has_room. lia. Qed.

Lemma moved_weaken a b (s s' : server) : a <= b -> moved a s s' -> moved b s s'.
Proof. intros Hab K. destruct K. split; try done. lia. Qed.

Lemma moves_weaken a b (s : server) m : a <= b -> moves a s m -> moves b s m.
Proof. intros Hab (s' & E & K). exists s'. split; [done|by eapply moved_weaken]. Qed.

Lemma moves_res_weaken {A : Type} a b (s : server) (m : option (server * A)) : a <= b -> moves_res a s m -> moves_res b s m.
Proof. intros Hab (s' & r & E & K). exists s', r. split; [done|by eapply moved_weaken]. Qed.

(** ** One frame *)

Lemma same_seal_opened p ch f : same_seal p (RecordProtection.open_next_in_place p ch f).1.
Proof.
  intros n. destruct p as [c|]; [|done]. cbn. by destruct (TransportCipher.open_next_in_place c ch f).
Qed.

(** What taking a frame off the receive buffer leaves of a connection. *)
Record frame_taken (c c' : client) (step : option (ControlStep ClientHello ClientControl)) : Prop := {
  ft_conn : same_conn c c';
  ft_ok : conn_ok c';
  ft_write : write_len c' = write_len c;
  ft_kind : cc_kind c' = cc_kind c;
  ft_state : cc_state c' = cc_state c;
  ft_step : match step with
            | Some (StepHello _) => cc_state c = AwaitClientHello
            | Some (StepControl x) => request_sized x
            | None => True
            end;
}.

Lemma control_sized p p' f plain c : len f <= MAX_FRAME_LEN -> RecordProtection.open_next_in_place p CHANNEL_CONTROL f = (p', Ok plain) ->
  decode_client_control plain = Some c -> request_sized c.
Proof.
  intros Hf Ho Hd. apply open_in_place_length in Ho. apply decoded_text in Hd. unfold len, MAX_FRAME_LEN in *.
  assert (len plain <= 256 * 1024) by (unfold len; destruct p; lia). unfold request_sized. destruct c; try done; unfold len in *; first [lia|destruct Hd; split; [lia|done]].
Qed.

Lemma same_conn_frame (c c' : client) :
  cc_session_id c' = cc_session_id c -> cc_user_id c' = cc_user_id c -> cc_kind c' = cc_kind c -> cc_pre_auth c' = cc_pre_auth c ->
  cc_addr c' = cc_addr c -> (forall p, cc_control c = Some p -> exists p', cc_control c' = Some p' /\ same_seal p p') ->
  cc_kind c = ControlConn -> same_conn c c'.
Proof.
  intros Hs Hu Hk Hp Ha Hc Hctl. split; try done.
  - unfold is_video. by rewrite Hk, Hctl.
  - unfold attached. by rewrite Hk.
  - by apply told_same.
Qed.

Lemma kept_seal (c : client) p : cc_control c = Some p -> exists p', cc_control c = Some p' /\ same_seal p p'.
Proof. intros Hp. by exists p. Qed.

Lemma step_taken (c c' : client) step : conn_ok c -> cc_kind c = ControlConn ->
  step_conn decode_client_hello decode_client_control c = Ok (c', step) -> frame_taken c c' step.
Proof.
  intros Hok Hk. unfold step_conn, control_conn_step. cbn [ControlLane.read_buf ControlLane.conn_state ControlLane.control].
  destruct (parse_frame (RecvBuffer.pending (cc_read_buf c))) as [[[payload total]|]|e] eqn:Hp; [| |done].
  2: { intros [= <- <-]. split; try done; [apply same_conn_frame; try done; exact (kept_seal c)|]. by destruct c. }
  apply parse_frame_some in Hp as (rest & Hb & Ht & Hlen).
  assert (RecvBuffer.wf (RecvBuffer.consume (cc_read_buf c) (Z.to_nat total))) as Hrecv.
  { apply recv_consume; [apply Hok|]. rewrite recv_len, Hb, length_app. unfold framed. rewrite length_app, length_le_bytes. unfold len in *. lia. }
  assert (len (slice (RecvBuffer.pending (cc_read_buf c)) LENGTH_PREFIX_LEN (Z.to_nat total)) <= MAX_FRAME_LEN) as Hslice.
  { unfold slice, len. rewrite length_take. unfold LENGTH_PREFIX_LEN, len in *. lia. }
  destruct (cc_state c) eqn:Hst.
  - destruct (decode_client_hello _) as [hello|]; [|done]. cbn. intros [= <- <-].
    split; try done; [apply same_conn_frame; try done; exact (kept_seal c)|]. split; [apply Hok|done|]. pose proof (co_progress _ Hok) as Hpr.
    unfold progress in *. cbn. by rewrite Hk, Hst in *.
  - destruct (cc_control c) as [p|] eqn:Hc; [|done]. cbn [ok_or mbind result_bind].
    destruct (RecordProtection.open_next_in_place p CHANNEL_CONTROL _) as [p' r] eqn:Ho. destruct r as [plain|]; [|done].
    cbn [map_err mbind result_bind]. destruct (decode_client_control plain) as [x|] eqn:Hx; [|done]. cbn. intros [= <- <-].
    pose proof (f_equal fst Ho) as Hp'. cbn in Hp'.
    split; try done; [apply same_conn_frame; try done| |by eapply control_sized].
    + intros q Hq. exists p'. split; [done|]. rewrite Hc in Hq. injection Hq as <-. rewrite <- Hp'. apply same_seal_opened.
    + split; [apply Hok|done|]. pose proof (co_progress _ Hok) as Hpr. unfold progress in *. cbn. rewrite Hk, Hst in *.
      destruct Hpr as (_ & ? & ?). split; [by eexists|done].
  - destruct (cc_control c) as [p|] eqn:Hc; [|done]. cbn [ok_or mbind result_bind].
    destruct (RecordProtection.open_next_in_place p CHANNEL_CONTROL _) as [p' r] eqn:Ho. destruct r as [plain|]; [|done].
    cbn [map_err mbind result_bind]. destruct (decode_client_control plain) as [x|] eqn:Hx; [|done]. cbn. intros [= <- <-].
    pose proof (f_equal fst Ho) as Hp'. cbn in Hp'.
    split; try done; [apply same_conn_frame; try done| |by eapply control_sized].
    + intros q Hq. exists p'. split; [done|]. rewrite Hc in Hq. injection Hq as <-. rewrite <- Hp'. apply same_seal_opened.
    + split; [apply Hok|done|]. pose proof (co_progress _ Hok) as Hpr. unfold progress in *. cbn. rewrite Hk, Hst in *.
      destruct Hpr as (_ & ? & ? & ?). by split_and!.
Qed.

(** ** Requests *)

Definition told_control (s : server) (t : Z) : Prop := forall c, clients s !! t = Some c -> cc_kind c = ControlConn.

Lemma known_token (s : server) t c : inv s -> clients s !! t = Some c -> t < next_token s.
Proof. intros I Hc. by eapply (id_tokens _ _ _ _ _ _ _ _ _ _ (inv_ids _ _ _ _ I)). Qed.

Lemma told_moved k (s s' : server) t : moved k s s' -> t < next_token s -> told_control s t -> told_control s' t.
Proof.
  intros K Ht Hs d Hd. destruct (mv_kinds _ _ _ _ _ K) as [_ Hk]. destruct (Hk t d Hd) as [Hn|(c & Hc & Htold & _)]; [lia|]. by apply Htold, Hs.
Qed.

Lemma session_moves (s : server) q t c : inv s -> names_fine s -> has_room 1 s -> request_sized c ->
  moves_res 1 s (handle_control enc random now now_ms q t c s).
Proof.
  intros I Hn Hr Hc. unfold handle_control. destruct (session_for_token s t) as [id|e].
  - apply moves_res_kept, session_control_kept; try done. by apply fine_short.
  - apply (moves_res_weaken 0); [lia|]. by apply moves_res_id.
Qed.

Abbreviation any_control := (handle_any_control enc random now now_ms mls writer_runs answers).

Lemma any_control_moves (s : server) n t c : inv s -> names_fine s -> has_room 1 s -> request_sized c ->
  (identity_control_needs_ordering c = true -> cc_state <$> clients s !! t = Some AwaitAuth -> pending_identity s = None) ->
  moves_res 1 s (any_control n t c s).
Proof.
  intros I Hn Hr Hc Hp. unfold handle_any_control. destruct (clients s !! t) as [d|]; cbn [fmap option_fmap option_map].
  2: { apply (moves_res_weaken 0); [lia|]. by apply moves_res_id. }
  destruct (cc_state d) eqn:Hst.
  - apply (moves_res_weaken 0); [lia|]. by apply moves_res_id.
  - apply (moves_res_weaken 0); [lia|]. apply auth_moves; [done| |done]. intros Ho. apply Hp; [done|]. cbn. by rewrite Hst.
  - by apply session_moves.
Qed.

Lemma requeue_moved (s : server) t : inv s -> moved 0 s (queue_client_read_if_work_ready t s).
Proof. intros I. unfold queue_client_read_if_work_ready. case_match; [by apply queue_read_moved|by apply moved_refl]. Qed.

Lemma deferred_moved (s : server) ts cs : inv s -> moved 0 s (set_deferred_identity_tokens ts (set_deferred_identity_controls cs s)).
Proof. intros I. unseen I. Qed.

(** ** The frames of a pass *)

Abbreviation loop := (control_loop enc encode_server_hello decode_client_hello decode_client_control random now now_ms mls writer_runs answers).

Lemma frame_moved (s : server) t c c' step : inv s -> clients s !! t = Some c -> frame_taken c c' step ->
  moved 0 s (set_clients (<[t := c']> (clients s)) s).
Proof.
  intros I Hc F. rewrite (insert_replaced s t c c' (ft_write _ _ _ F)). apply replaced_moved; try apply F; try done.
  intros Hv. rewrite (ft_write _ _ _ F). apply (ob_capped _ _ _ _ _ _ _ _ (inv_outbound _ _ _ _ I) t c Hc).
  unfold is_video in *. by rewrite <- (ft_kind _ _ _ F).
Qed.

(** The next round, when a handler has succeeded; otherwise the connection goes. *)
Lemma next_round {A E : Type} a b (s : server) t m (f : server -> option server) :
  moves_res a s m -> (forall s1, moved a s s1 -> moves b s1 (f s1)) -> 0 <= b ->
  moves (a + b) s ('(s1, r) ← m; match r : result E A with Err _ => disc t s1 | Ok _ => f s1 end).
Proof.
  intros (s1 & r & -> & K) Hf Hb. cbn. apply (moves_step enc anyone a b _ _ _ K). destruct r; [by apply Hf|].
  apply (moves_weaken 0); [done|]. apply disc_moves, K.
Qed.

Lemma control_loop_moves budget : forall step (s : server) t, inv s -> names_fine s -> has_room (Z.of_nat budget) s -> told_control s t ->
  moves (Z.of_nat budget) s (loop budget step t s).
Proof.
  induction budget as [|budget IH]; intros step s t I Hn Hr Ht; cbn [control_loop].
  { eexists. split; [reflexivity|]. by apply requeue_moved. }
  assert (moves (Z.of_nat (S budget)) s (Some s)) as Hstop by (apply (moves_weaken 0); [lia|by apply moves_id]).
  destruct (_ || _); [done|]. destruct (clients s !! t) as [c|] eqn:Hc; [|done]. destruct (is_closing c); [done|].
  pose proof (Ht c Hc) as Hk. pose proof (known_token s t c I Hc) as Hlt.
  destruct (step_conn decode_client_hello decode_client_control c) as [[c' step']|e] eqn:Hstep.
  2: { apply (moves_weaken 0); [lia|]. by apply disc_moves. }
  pose proof (step_taken c c' step' (inv_conns _ _ _ _ I t c Hc) Hk Hstep) as F. pose proof (frame_moved s t c c' step' I Hc F) as K.
  pose proof (mv_inv _ _ _ _ _ K) as I1. set (s1 := set_clients (<[t := c']> (clients s)) s) in *.
  assert (clients s1 !! t = Some c') as Hc1 by apply lookup_insert_eq.
  assert (names_fine s1) as Hn1 by by apply (mv_names _ _ _ _ _ K). assert (told_control s1 t) as Ht1 by (by eapply told_moved).
  assert (has_room (1 + Z.of_nat budget) s1) as Hr1 by (apply (room_moved 0 (1 + Z.of_nat budget) s); [done|]; by replace (0 + (1 + Z.of_nat budget)) with (Z.of_nat (S budget)) by lia).
  assert (forall s2, moved 1 s1 s2 -> moves (Z.of_nat budget) s2 (loop budget (S step) t s2)) as Hnext.
  { intros s2 K2. apply IH; [apply K2|by apply (mv_names _ _ _ _ _ K2)|by eapply room_moved|]. eapply told_moved; [exact K2| |done].
    destruct (mv_kinds _ _ _ _ _ K) as [? _]. change (next_token s1) with (next_token s) in *. lia. }
  replace (Z.of_nat (S budget)) with (0 + (1 + Z.of_nat budget)) by lia.
  destruct step' as [[hello|x]|].
  - apply (moves_step enc anyone _ _ _ _ _ K). apply next_round; [|exact Hnext|lia]. apply (moves_res_weaken 0); [lia|]. apply hello_moves; [done|].
    intros d Hd. rewrite Hc1 in Hd. injection Hd as <-. split; [by apply Ht1|]. rewrite (ft_state _ _ _ F). apply (ft_step _ _ _ F).
  - destruct (bool_decide _ && _ && _) eqn:Hdefer.
    + apply (moves_step enc anyone _ _ _ _ _ K). apply (moves_weaken 0); [lia|]. eexists. split; [reflexivity|]. by apply deferred_moved.
    + apply (moves_step enc anyone _ _ _ _ _ K). apply next_round; [|exact Hnext|lia].
      apply any_control_moves; try done; [by eapply room_less; [|exact Hr1]; lia|apply (ft_step _ _ _ F)|].
      intros Hid Hst. rewrite Hc1 in Hst. cbn in Hst. injection Hst as Hst. rewrite Hid, andb_true_r, (bool_decide_true _ Hst), andb_true_r in Hdefer.
      apply bool_decide_eq_false in Hdefer. by apply eq_None_not_Some.
  - apply (moves_weaken 0); [lia|]. by exists s1.
Qed.

(** ** Video records *)

Definition told_video (s : server) (t : Z) : Prop := forall c, clients s !! t = Some c -> is_video c = true.

Lemma told_video_moved k (s s' : server) t : moved k s s' -> t < next_token s -> told_video s t -> told_video s' t.
Proof.
  intros K Ht Hs d Hd. destruct (mv_kinds _ _ _ _ _ K) as [_ Hk]. destruct (Hk t d Hd) as [Hn|(c & Hc & _ & Htold)]; [lia|]. by apply Htold, Hs.
Qed.

Lemma video_stepped (s : server) t c w c' step : inv s -> clients s !! t = Some c -> cc_kind c = VideoKind w -> stepped c w c' step ->
  moved 0 s (set_clients (<[t := c']> (clients s)) s).
Proof.
  intros I Hc Hk [(w' & Hk' & Hsame & Hrest & Hreader & Hbuf & Hw) _]. pose proof (inv_conns _ _ _ _ I t c Hc) as Hok. cbn in Hok.
  apply (video_same_moved enc anyone s t c c' w w' I Hc Hk Hk' Hsame Hrest Hreader Hbuf); [rewrite Hw; apply Hok|done].
Qed.

Abbreviation vloop := (video_loop enc hello_from_binary ack_to_binary random now with_capacity tries).

Lemma video_loop_moves budget : forall bytes_left (s : server) t, inv s -> told_video s t -> t < next_token s -> moves 0 s (vloop budget bytes_left t s).
Proof.
  induction budget as [|budget IH]; intros bytes_left s t I Ht Hlt; cbn [video_loop].
  { eexists. split; [reflexivity|]. by apply requeue_moved. }
  destruct (pump_moves enc now anyone tries Htries s t bytes_left I) as (s1 & p & k & -> & K). cbn [mbind option_bind].
  destruct p.
  2: by exists s1.
  2: { apply (moves_step enc anyone 0 0 _ _ _ K). eexists. split; [reflexivity|]. apply queue_read_moved, K. }
  2: { apply (moves_step enc anyone 0 0 _ _ _ K). apply disc_moves, K. }
  2: { rewrite K. by apply disc_moves. }
  apply (moves_step enc anyone 0 0 _ _ _ K). pose proof (mv_inv _ _ _ _ _ K) as I1. pose proof (told_video_moved 0 s s1 t K Hlt Ht) as Ht1.
  destruct (mv_kinds _ _ _ _ _ K) as [Hnt _]. destruct (clients s1 !! t) as [c|] eqn:Hc; [|by apply moves_id]. destruct (is_closing c); [by apply moves_id|].
  pose proof (Ht1 c Hc) as Hv. unfold is_video in Hv. destruct (cc_kind c) as [| |w] eqn:Hk; try done.
  destruct (step_ok enc with_capacity s1 t c w I1 Hc Hk) as (r & -> & Hstep). cbn [mbind option_bind]. destruct r as [[c' step]|e]; [|by apply disc_moves].
  pose proof (video_stepped s1 t c w c' step I1 Hc Hk Hstep) as K2. pose proof (mv_inv _ _ _ _ _ K2) as I2.
  destruct step as [step|]; [|by eexists]. cbv zeta. apply (moves_step enc anyone 0 0 _ _ _ K2). set (s2 := set_clients _ s1) in *.
  assert (told_video s2 t) as Ht2 by (eapply told_video_moved; [exact K2|lia|done]).
  apply (next_round 0 0); [|intros s3 K3; apply IH; [apply K3|eapply told_video_moved; [exact K3| |done]|]|done].
  - destruct step; [by eapply video_record_moves|eapply publish_moves; [done|apply Hstep]|by apply moves_res_id].
  - change (next_token s2) with (next_token s1). lia.
  - destruct (mv_kinds _ _ _ _ _ K3) as [Hn3 _]. change (next_token s2) with (next_token s1) in Hn3. lia.
Qed.

(** ** One pass *)

Lemma filled_conn (s : server) t (c c' : client) : inv s -> clients s !! t = Some c -> RecvBuffer.wf (cc_read_buf c') ->
  (exists rx buf ready, c' = set_rx rx (set_read_buf buf (set_readiness ready c)) \/
     c' = set_last_activity now (set_rx rx (set_read_buf buf (set_readiness ready c)))) ->
  moved 0 s (set_clients (<[t := c']> (clients s)) s).
Proof.
  intros I Hc Hbuf (rx & buf & ready & Hc'). pose proof (inv_conns _ _ _ _ I t c Hc) as Hok. cbn in Hok.
  apply (same_write_moved enc anyone s t c c' I Hc); try (by destruct Hc' as [-> | ->]).
  - apply same_conn_buffers; try (by destruct Hc' as [-> | ->]). by eapply video_silent.
  - split; [|done|]; destruct Hc' as [-> | ->]; apply Hok.
Qed.

Lemma read_budget_positive : (0 < READ_BUDGET_BYTES)%nat.
Proof. unfold READ_BUDGET_BYTES, LENGTH_PREFIX_LEN. generalize (Z.to_nat MAX_FRAME_LEN). lia. Qed.

Lemma fill_moves (s : server) t : inv s -> exists s' lost limited, fill_client now tries t s = Some (s', lost, limited) /\ moved 0 s s'.
Proof.
  intros I. unfold fill_client. destruct (clients s !! t) as [c|] eqn:Hc; [|eexists _, _, _; split; [reflexivity|]; by apply moved_refl].
  destruct (_ || _); [eexists _, _, _; split; [reflexivity|]; by apply moved_refl|].
  pose proof (inv_conns _ _ _ _ I t c Hc) as Hok. cbn in Hok.
  destruct (read_into_buffer_ok (tries (cc_rx c)) READ_BUDGET_BYTES (S READ_BUDGET_BYTES) (ByteBudget READ_BUDGET_BYTES) (cc_rx c) (cc_read_buf c) (cc_readiness c))
    as (rx & buf & ready & r & E & Hbuf & _); [apply Htries|apply read_budget_positive|apply Hok|cbn [read_limit_remaining]; generalize READ_BUDGET_BYTES; lia|].
  rewrite E. cbn [mbind option_bind]. destruct r as [o|e]; eexists _, _, _; (split; [reflexivity|]).
  - apply (filled_conn s t c); [done|done|by case_decide|]. exists rx, buf, ready. case_decide; [by right|by left].
  - apply (filled_conn s t c); [done|done|done|]. exists rx, buf, ready. by left.
Qed.

(** After classification a connection is a control or a video connection. *)
Lemma classify_told (s s' : server) t p d b : classify enc now p d b t s = Some (s', true) ->
  forall c, clients s' !! t = Some c -> cc_kind c <> Unidentified.
Proof.
  unfold classify. destruct (clients s !! t) as [c|] eqn:Hc; [|intros [= <-] c' Hc'; congruence].
  destruct (cc_kind c) eqn:Hk; [|intros [= <-] c' Hc'; congruence..]. case_decide; [done|]. case_match; [|case_match].
  - intros [= <-] c' Hc'. cbn in Hc'. rewrite lookup_insert_eq in Hc'. by injection Hc' as <-.
  - by destruct (attach_voice_tcp_conn _ _ _ _ _ _ _).
  - intros [= <-] c' Hc'. cbn in Hc'. rewrite lookup_insert_eq in Hc'. by injection Hc' as <-.
Qed.

Abbreviation read := (read_client enc encode_server_hello decode_client_hello decode_client_control hello_from_binary ack_to_binary random now now_ms
  with_capacity tries mls writer_runs answers).

(** The streams a pass may start. *)
Definition PASS_STREAMS : Z := Z.of_nat CONTROL_STEPS_PER_READ.

Lemma read_moves (s : server) t : inv s -> names_fine s -> has_room PASS_STREAMS s -> moves PASS_STREAMS s (read t s).
Proof.
  intros I Hn Hr. unfold read_client. destruct (fill_moves s t I) as (s1 & lost & limited & -> & K1). cbn [mbind option_bind].
  replace PASS_STREAMS with (0 + PASS_STREAMS) by lia. apply (moves_step enc anyone 0 PASS_STREAMS _ _ _ K1). pose proof (mv_inv _ _ _ _ _ K1) as I1.
  destruct lost; [apply (moves_weaken 0); [done|by apply disc_moves]|]. cbv zeta.
  set (s2 := if limited then queue_client_read t s1 else s1).
  assert (moved 0 s1 s2) as K2 by (unfold s2; destruct limited; [by apply queue_read_moved|by apply moved_refl]).
  replace PASS_STREAMS with (0 + PASS_STREAMS) by lia. apply (moves_step enc anyone 0 PASS_STREAMS _ _ _ K2). pose proof (mv_inv _ _ _ _ _ K2) as I2.
  destruct (classify_moves enc now anyone s2 t (an_permit answers) (an_deregistered answers) (an_registered answers) I2) as (s3 & more & E & K3).
  rewrite E. cbn [mbind option_bind]. replace PASS_STREAMS with (0 + PASS_STREAMS) by lia. apply (moves_step enc anyone 0 PASS_STREAMS _ _ _ K3). pose proof (mv_inv _ _ _ _ _ K3) as I3.
  pose proof (moved_trans enc anyone 0 0 _ _ _ K1 (moved_trans enc anyone 0 0 _ _ _ K2 K3)) as K. cbn in K.
  destruct more; cbn [negb]; [|apply (moves_weaken 0); [done|by apply moves_id]]. pose proof (classify_told _ _ _ _ _ _ E) as Hk.
  assert (told_control s3 t -> moves PASS_STREAMS s3 (loop CONTROL_STEPS_PER_READ 0 t s3)) as Hctl.
  { intros Ht. apply control_loop_moves; [done|by apply (mv_names _ _ _ _ _ K)| |done]. by eapply room_moved. }
  destruct (clients s3 !! t) as [c|] eqn:Hc; cbn [fmap option_fmap option_map]; [|apply Hctl; intros c Hc'; congruence].
  specialize (Hk c eq_refl). destruct (cc_kind c) as [| |w] eqn:Hkind; [done|apply Hctl; intros c' Hc'; congruence|].
  apply (moves_weaken 0); [done|]. apply video_loop_moves; [done| |by eapply known_token]. intros c' Hc'. rewrite Hc in Hc'. injection Hc' as <-.
  unfold is_video. by rewrite Hkind.
Qed.

(** ** The identity writer's replies *)

(** A deferred control is handled when nothing is pending, as an authentication. *)
Lemma resume_moves budget : forall (s : server), inv s -> moves 0 s (resume_deferred enc random now now_ms mls writer_runs answers budget s).
Proof.
  induction budget as [|budget IH]; intros s I; cbn [resume_deferred]; [by apply moves_id|].
  destruct (pending_identity s) as [p|] eqn:Hp; [by apply moves_id|]. destruct (deferred_identity_controls s) as [|[t x] rest]; [by apply moves_id|].
  cbv zeta. match goal with |- context [set_deferred_identity_controls rest ?a] => set (s1 := set_deferred_identity_controls rest a) end.
  assert (moved 0 s s1) as K1 by (unfold s1; unseen I). apply (moves_step enc anyone 0 0 _ _ _ K1). pose proof (mv_inv _ _ _ _ _ K1) as I1.
  destruct (clients s1 !! t) as [c|] eqn:Hc; [|by apply IH]. destruct (bool_decide (cc_state c = AwaitAuth) && negb (is_closing c)) eqn:Hst; [|by apply IH].
  apply andb_true_iff in Hst as [Hst%bool_decide_eq_true _].
  assert (moves_res 0 s1 (any_control budget t x s1)) as Ha.
  { unfold handle_any_control. rewrite Hc. cbn [fmap option_fmap option_map]. rewrite Hst. by apply auth_moves. }
  destruct Ha as (s2 & r & -> & K2). cbn [mbind option_bind]. apply (moves_step enc anyone 0 0 _ _ _ K2). pose proof (mv_inv _ _ _ _ _ K2) as I2. destruct r.
  - apply (moves_step enc anyone 0 0 _ _ _ (requeue_moved s2 t I2)). apply IH, requeue_moved, I2.
  - apply (moves_bind enc anyone 0 0); [by apply disc_moves|]. intros s3 K3. apply IH, K3.
Qed.

Lemma reply_moves (s : server) (written : bool) : inv s -> names_fine s -> moves 0 s (match pending_identity s with
    | None => Some s
    | Some (t, p) => s1 ← finish_identity enc now now_ms t p written (set_pending_identity None s); Some (queue_client_read_if_work_ready t s1)
    end).
Proof.
  intros I Hn. destruct (pending_identity s) as [[t p]|] eqn:Hp; [|by apply moves_id].
  pose proof (taken_moved enc anyone s I) as K. apply (moves_step enc anyone 0 0 _ _ _ K).
  apply (moves_bind enc anyone 0 0); [apply finish_moves; [apply K|done|by apply Hn]|]. intros s1 K1. eexists. split; [reflexivity|]. apply requeue_moved, K1.
Qed.

Lemma replies_moves (s : server) replies : inv s -> names_fine s ->
  moves 0 s (drain_identity_replies enc random now now_ms mls writer_runs answers replies s).
Proof.
  intros I Hn. unfold drain_identity_replies. apply (moves_bind enc anyone 0 0); [|intros s1 K1; apply resume_moves, K1].
  apply moves_each; [done|]. intros [t written] s1 _ K1. apply reply_moves; [apply K1|by apply (mv_names _ _ _ _ _ K1)].
Qed.

End loop_inv.
