(* ===== verification/ServerRun.v ===== *)
(** * The server's event loop

    [Server::new], [LoopWork] and a pass of [run] of src/crates/server/src/lib.rs:
    marking what the poll reports, accepting, reading the connections whose turn it
    is, sealing and fanning out under their budgets, writing, the replies of the
    voice relay and of the identity writer, new invites, and the sweeps.

    What a pass meets is its input: the events of the poll, the sockets the
    listeners hand out, the replies of the worker threads that are ready, and the
    instants at which its stages read the clock.  The stages of the MLS layer, of
    histories, direct messages and bug reports, and the loop's statistics are left
    out. *)

From stdpp Require Import sorting pretty.
From S2P Require Import Prelude Primitives Text Transport Handshake Auth Media Frame Evented ControlLane Video Net History Usernames Identity.
From S2P Require Import Clock VoiceRelay Resident RoomLog RoomStore ServerState ServerCascade ServerOps ServerConns ServerAuth ServerVideo ServerLoop.
From S2P Require Import ServerInvariant ServerTeardown ServerNames ServerKept ServerConnsInv ServerSends ServerVideoInv ServerAuthInv ServerLoopInv.

Definition ACCEPT_BUDGET : nat := 64.
Definition CLIENT_READS_PER_PASS : nat := 64.
Definition CLIENT_WRITES_PER_PASS : nat := 64.
Definition INVITE_TTL : Z := from_secs (24 * 60 * 60).

(** What one pass meets.  [pi_now] is the clock: the stage and the turn in it. *)
Record PassInput {Rx Tx : Type} := mkPass {
  pi_events : list (Z * bool * bool);
  pi_accepted : list (Rx * Tx * SocketAddr * bool);
  pi_voice : option VoiceEventBatch;
  pi_identity : option (list (Z * bool));
  pi_invites : list (list Z);
  pi_answers : Answers;
  pi_mls : MlsDirectory;
  pi_writer_runs : bool;
  pi_now : nat -> nat -> Z;
  pi_now_ms : Z;
}.
Arguments PassInput : clear implicits.

Section run.
Context {Rx Tx St : Type} `{HashOrder} `{ChatStore St} `{Primitives} `{SocketSource Rx} `{Write Tx} `{Unicode} `{ClaimsCodec}.
Context (encode_server_control : ServerControl -> bytes) (encode_server_hello : ServerHello -> bytes).
Context (decode_client_hello : bytes -> option ClientHello) (decode_client_control : bytes -> option ClientControl).
Context (hello_from_binary : bytes -> option VideoHello) (ack_to_binary : VideoAck -> bytes).
(** [encode_invite_ticket] of a ticket with the given pairing code *)
Context (encode_invite_ticket : bytes -> result bytes bytes).
Context (random : nat -> nat -> option bytes) (with_capacity : nat -> nat) (tries : Rx -> nat).

Abbreviation server := (Server Rx Tx St).
Abbreviation client := (ClientConn Rx Tx).
Abbreviation enc := encode_server_control.

(** ** A new server *)

Definition new_server (cfg : ServerConfig) (names : UsernameRegistry) (us : list UserConfig) (rs : gmap Z RoomState) (st : St)
    (groups : gset Z) (now : Z) : server :=
  {| config := cfg; usernames := names; deferred_identity_controls := []; deferred_identity_tokens := ∅; voice_commands := [];
     users := us; pending_identity := None; identity_requests := []; invites := ∅; open_pair_global_allocations := [];
     open_pair_ip_allocations := ∅; clients := ∅; pre_auth := PreAuthLimiter.new; pending_controls := ∅; pending_control_bytes := ∅;
     pending_control_total_bytes := 0; write_queue_total_bytes := 0; control_send_tokens := []; control_send_set := ∅; sessions := ∅;
     reserved_media_routes := ∅; peer_links := ∅; rooms := rs; streams := ∅; video_fanouts := []; video_fanout_bytes := 0;
     next_token := FIRST_CLIENT; next_session := 1; next_stream := 1; next_connection_id := 1; next_file_transfer := 1;
     active_uploads := ∅; active_bug_reports := ∅; pending_bug_reports := ∅; bug_report_requests := []; reserved_file_names := ∅;
     store := st; mls_groups := groups; rng_draws := 0; next_media_sweep_at := None; next_rtt_snapshot_at := now + RTT_SNAPSHOT_INTERVAL;
     next_idle_sweep_at := now + IDLE_SWEEP_INTERVAL; next_share_sweep_at := now + SHARE_SWEEP_INTERVAL;
     client_writes := []; client_write_set := ∅; client_reads := []; client_read_set := ∅ |}.

(** ** The queues of the loop *)

Definition pop_client_read (s : server) : server * option Z :=
  match client_reads s with
  | [] => (s, None)
  | token :: rest => (set_client_reads rest (set_client_read_set (client_read_set s ∖ {[token]}) s), Some token)
  end.

Definition pop_client_write (s : server) : server * option Z :=
  match client_writes s with
  | [] => (s, None)
  | token :: rest => (set_client_writes rest (set_client_write_set (client_write_set s ∖ {[token]}) s), Some token)
  end.

(** An event of the poll on a connection. *)
Definition polled (event : Z * bool * bool) (s : server) : server :=
  let '(token, readable, writable) := event in
  let s := if (readable : bool) then queue_client_read token (update_client token (set_readiness true) s) else s in
  if (writable : bool) && match clients s !! token with Some c => negb (WriteQueue.is_empty (cc_write_buf c)) | None => false end
  then queue_client_write token s else s.

(** ** The stages *)

(** [accept_clients]; [Err]: the loop ends. *)
Fixpoint accept_all (now : nat -> Z) (turn : nat) (l : list (Rx * Tx * SocketAddr * bool)) (s : server) : server * result () () :=
  match l with
  | [] => (s, Ok ())
  | (rx, tx, addr, registered) :: l =>
      match accept_client (now turn) rx tx addr registered s with
      | (s, Err e) => (s, Err e)
      | (s, Ok _) => accept_all now (S turn) l s
      end
  end.

Fixpoint read_batch (p : PassInput Rx Tx) (n turn : nat) (s : server) : option server :=
  match n with
  | O => Some s
  | S n =>
      match pop_client_read s with
      | (s, None) => read_batch p n (S turn) s
      | (s, Some token) =>
          s ← read_client enc encode_server_hello decode_client_hello decode_client_control hello_from_binary ack_to_binary random
                (pi_now p 1%nat turn) (pi_now_ms p) with_capacity tries (pi_mls p) (pi_writer_runs p) (pi_answers p) token s;
          read_batch p n (S turn) s
      end
  end.

Fixpoint write_batch (now : nat -> Z) (n turn : nat) (s : server) : option server :=
  match n with
  | O => Some s
  | S n =>
      match pop_client_write s with
      | (s, None) => write_batch now n (S turn) s
      | (s, Some token) => s ← write_client enc (now turn) token s; write_batch now n (S turn) s
      end
  end.

(** [create_invite]; the join string goes to the operator. *)
Definition create_invite (now : Z) (user_name : list Z) (s : server) : server * result bytes bytes :=
  let s := expire_invites now s in
  let user_name := str_trim user_name in
  if decide (user_name = []) then (s, Err (text "invite user is empty"))
  else if decide (512 < length (Utf8.encode user_name))%nat then (s, Err (text "invite user exceeds maximum length"))
  else if existsb is_control user_name then (s, Err (text "invite user contains control characters"))
  else
    let '(s, secret) := draw random 32 s in
    match secret with
    | None => (s, Err (text "failed to generate invite secret"))
    | Some secret =>
        let pairing_code := encode_hex secret in
        match encode_invite_ticket pairing_code with
        | Err e => (s, Err e)
        | Ok join_string =>
            (set_invites (<[user_name := {| pairing_code_hash := hash_secret pairing_code; expires_at := now + INVITE_TTL |}]> (invites s)) s,
             Ok join_string)
        end
    end.

Definition sweeps (now : Z) (s : server) : option server :=
  s ← sweep_idle_connections enc now s;
  s ← sweep_orphaned_shares enc now s;
  poll_room_rtt_snapshots enc now (sweep_stale_media_routes now s).

(** One pass of [run]: [Err] when the loop ends. *)
Definition pass (p : PassInput Rx Tx) (s : server) : option (server * result bytes ()) :=
  let s := foldl (fun s event => polled event s) s (pi_events p) in
  match accept_all (pi_now p 0%nat) 0 (take ACCEPT_BUDGET (pi_accepted p)) s with
  | (s, Err _) => Some (s, Err [])
  | (s, Ok _) =>
      s ← read_batch p (Nat.min (length (client_reads s)) CLIENT_READS_PER_PASS) 0 s;
      s ← process_control_sends enc (pi_now p 2 0)%nat s;
      s ← process_video_fanouts enc (pi_now p 3 0)%nat s;
      s ← write_batch (pi_now p 4%nat) (Nat.min (length (client_writes s)) CLIENT_WRITES_PER_PASS) 0 s;
      let s := requeue_unclogged_uploaders s in
      '(s, r) ← match pi_voice p with Some events => drain_voice_events enc (pi_now p 5 0)%nat events s | None => Some (s, Ok ()) end;
      match r with
      | Err e => Some (s, Err e)
      | Ok _ =>
          s ← match pi_identity p with
              | Some replies => drain_identity_replies enc random (pi_now p 6 0)%nat (pi_now_ms p) (pi_mls p) (pi_writer_runs p) (pi_answers p) replies s
              | None => Some s
              end;
          let s := foldl (fun s name => (create_invite (pi_now p 7 0)%nat name s).1) s (pi_invites p) in
          s ← flush_disconnects enc (pi_now p 8 0)%nat s;
          s ← sweeps (pi_now p 9 0)%nat s;
          ok s
      end
  end.

(** Passes one after the other, until the loop ends. *)
Fixpoint run (ps : list (PassInput Rx Tx)) (s : server) : option (server * result bytes ()) :=
  match ps with
  | [] => ok s
  | p :: ps =>
      '(s, r) ← pass p s;
      match r with Ok _ => run ps s | Err e => Some (s, Err e) end
  end.

End run.

(** ** The room store behind the server *)

Lemma write_message_some m out : ordinary m -> is_Some (write_message m out).
Proof.
  intros [Hn Hb]. unfold write_message. cbv zeta. unfold write_str. rewrite decide_True by lia. cbn [mbind option_bind]. rewrite decide_True by lia. by eexists.
Qed.

Lemma appended_some h m : ordinary m -> exists h' r, ResidentHistory.append_message h m = Some (h', r) /\ res_entries h' <> [].
Proof.
  intros Hm. unfold ResidentHistory.append_message. destruct (write_message_some m (res_bytes h) Hm) as [bs ->]. cbn [mbind option_bind].
  eexists _, _. split; [reflexivity|]. cbn. by destruct (res_entries h).
Qed.

(** The store takes every message of ordinary size, whatever its files do. *)
#[export] Instance room_store_laws (io : LogIo) : @ChatStoreLaws _ (room_store_chat io).
Proof.
  constructor. intros [st dirs] room m Hm. cbn. unfold RoomStore.try_append.
  destruct (RoomStore.rooms st !! room) as [[|h limit|r]|]; [done| | |done].
  - destruct (appended_some h m Hm) as (h' & r & -> & _). done.
  - destruct (appended_some (dr_history r) m Hm) as (h' & [start n] & -> & Hne). cbn [mbind option_bind].
    assert (is_Some (ResidentHistory.rollback_append h' start)) as [h2 Hroll] by (unfold ResidentHistory.rollback_append; by destruct (res_entries h')).
    destruct (log_writer st) as [queue|]; destruct (dr_file r); try case_decide; try (rewrite Hroll; done); try done.
    all: by destruct (RoomStore.append_direct _ _ _ _ _ _).
Qed.

(** ** Every pass ends and keeps the tables in order *)

Section passes.
Context {Rx Tx St : Type} `{HashOrder} `{ChatStoreLaws St} `{PrimitiveLaws} `{StreamSocket Rx} `{StreamWriter Tx} `{Unicode} `{ClaimsCodec}.
Context (encode_server_control : ServerControl -> bytes) (encode_server_hello : ServerHello -> bytes).
Context (decode_client_hello : bytes -> option ClientHello) (decode_client_control : bytes -> option ClientControl) `{!ControlCodec decode_client_control}.
Context (hello_from_binary : bytes -> option VideoHello) (ack_to_binary : VideoAck -> bytes).
Context (encode_invite_ticket : bytes -> result bytes bytes).
Context (random : nat -> nat -> option bytes) (with_capacity : nat -> nat) (tries : Rx -> nat).
Context (Htries : forall rx : Rx, (patience rx < tries rx)%nat).
Abbreviation server := (Server Rx Tx St).
Abbreviation client := (ClientConn Rx Tx).
Abbreviation enc := encode_server_control.
Abbreviation inv := (inv enc ∅ ∅).
Abbreviation moved := (moved enc anyone).
Abbreviation moves := (moves enc anyone).
Abbreviation moves_res := (moves_res enc anyone).
Abbreviation names_fine := (names_fine anyone).

#[local] Hint Resolve no_strangers_refl kinds_refl : core.

Lemma pop_read_moved (s : server) : inv s -> moved 0 s (pop_client_read s).1.
Proof. intros I. unfold pop_client_read. destruct (client_reads s); [by apply moved_refl|cbn; unseen I]. Qed.

Lemma pop_write_moved (s : server) : inv s -> moved 0 s (pop_client_write s).1.
Proof. intros I. unfold pop_client_write. destruct (client_writes s); [by apply moved_refl|cbn; unseen I]. Qed.

Lemma foldl_moved {A : Type} (f : server -> A -> server) : (forall s a, inv s -> moved 0 s (f s a)) ->
  forall l s, inv s -> moved 0 s (foldl f s l).
Proof.
  intros Hf l. induction l as [|a l IH]; intros s I; cbn; [by apply moved_refl|].
  apply (moved_trans enc anyone 0 0 _ _ _ (Hf s a I)), IH, (Hf s a I).
Qed.

Lemma polled_moved (s : server) e : inv s -> moved 0 s (polled e s).
Proof.
  intros I. destruct e as [[t readable] writable]. unfold polled. cbv zeta.
  set (s1 := if readable then _ else s). assert (moved 0 s s1) as K.
  { unfold s1. destruct readable; [|by apply moved_refl].
    assert (moved 0 s (update_client t (set_readiness true) s)) as K1 by
      (apply touch_moved; [done|]; intros c; exists (cc_close c), (cc_last_activity c), true, (cc_rx c); by destruct c).
    apply (moved_trans enc anyone 0 0 _ _ _ K1), queue_read_moved, K1. }
  destruct (_ && _); [|done]. apply (moved_trans enc anyone 0 0 _ _ _ K), queue_write_moved, K.
Qed.

Lemma accept_all_moved now l : forall turn (s : server), inv s -> moved 0 s (accept_all now turn l s).1.
Proof.
  induction l as [|[[[rx tx] addr] registered] l IH]; intros turn s I; cbn [accept_all]; [by apply moved_refl|].
  pose proof (accept_moved enc (now turn) anyone s rx tx addr registered I) as K.
  destruct (accept_client (now turn) rx tx addr registered s) as [s1 [r|r]]; cbn [fst] in K |- *; [|done].
  apply (moved_trans enc anyone 0 0 _ _ _ K), IH, K.
Qed.

Lemma uploaders_moved (s : server) : inv s -> moved 0 s (requeue_unclogged_uploaders s).
Proof. intros I. unfold requeue_unclogged_uploaders. cbv zeta. apply foldl_moved; [|done]. intros s1 t I1. by apply queue_read_moved. Qed.

Lemma create_invite_moved now name (s : server) : inv s -> moved 0 s (create_invite encode_invite_ticket random now name s).1.
Proof.
  intros I. unfold create_invite. cbv zeta. set (s0 := expire_invites now s). assert (moved 0 s s0) as K by (by apply invites_moved).
  case_decide; [done|]. case_decide; [done|]. destruct (existsb _ _); [done|]. unfold draw.
  assert (moved 0 s (set_rng_draws (S (rng_draws s0)) s0)) as K1 by (apply (moved_trans enc anyone 0 0 _ _ _ K), draws_moved, K).
  destruct (random (rng_draws s0) 32) as [secret|]; [|done]. destruct (encode_invite_ticket _); [|done].
  cbn [fst]. apply (moved_trans enc anyone 0 0 _ _ _ K1), invites_moved, K1.
Qed.

Lemma write_batch_moves now n : forall turn (s : server), inv s -> moves 0 s (write_batch enc now n turn s).
Proof.
  induction n as [|n IH]; intros turn s I; cbn [write_batch]; [by apply moves_id|].
  pose proof (pop_write_moved s I) as K. destruct (pop_client_write s) as [s1 [t|]]; cbn [fst] in K; apply (moves_step enc anyone 0 0 _ _ _ K).
  - apply (moves_bind enc anyone 0 0); [apply write_client_moves, K|]. intros s2 K2. apply IH, K2.
  - apply IH, K.
Qed.

Lemma sweeps_moves now (s : server) : inv s -> moves 0 s (sweeps enc now s).
Proof.
  intros I. unfold sweeps. apply (moves_bind enc anyone 0 0); [by apply idle_moves|]. intros s1 K1.
  apply (moves_bind enc anyone 0 0); [apply orphans_moves, K1|]. intros s2 K2.
  destruct (sweep_routes_moved enc now anyone s2 (mv_inv _ _ _ _ _ K2)) as [K3 _]. apply (moves_step enc anyone 0 0 _ _ _ K3), rtt_moves, K3.
Qed.

Abbreviation read_batch := (read_batch enc encode_server_hello decode_client_hello decode_client_control hello_from_binary ack_to_binary
  random with_capacity tries).
Abbreviation pass := (pass enc encode_server_hello decode_client_hello decode_client_control hello_from_binary ack_to_binary
  encode_invite_ticket random with_capacity tries).
Abbreviation run := (run enc encode_server_hello decode_client_hello decode_client_control hello_from_binary ack_to_binary
  encode_invite_ticket random with_capacity tries).

Lemma has_room_moved a b (s s' : server) : moved a s s' -> has_room (a + b) s -> has_room b s'.
Proof. intros K [Hp Hr]. pose proof (mv_streams _ _ _ _ _ K). unfold has_room. lia. Qed.

Lemma has_room_less a b (s : server) : a <= b -> has_room b s -> has_room a s.
Proof. unfold has_room. lia. Qed.

Lemma read_batch_moves p n : forall turn (s : server),
  inv s -> names_fine s -> has_room (Z.of_nat n * PASS_STREAMS) s -> moves (Z.of_nat n * PASS_STREAMS) s (read_batch p n turn s).
Proof.
  induction n as [|n IH]; intros turn s I Hn Hr; cbn [ServerRun.read_batch]; [by apply moves_id|].
  assert (0 <= PASS_STREAMS) as Hpos by done.
  pose proof (pop_read_moved s I) as K. destruct (pop_client_read s) as [s1 [t|]]; cbn [fst] in K.
  - replace (Z.of_nat (S n) * PASS_STREAMS) with (0 + (PASS_STREAMS + Z.of_nat n * PASS_STREAMS)) in * by lia.
    apply (moves_step enc anyone 0 _ _ _ _ K). apply (has_room_moved 0 _ _ _ K) in Hr.
    apply (moves_bind enc anyone PASS_STREAMS).
    + apply read_moves; [done|exact Htries|apply K|by apply (mv_names _ _ _ _ _ K)|]. eapply has_room_less; [|exact Hr]. nia.
    + intros s2 K2. apply IH; [apply K2|by apply (mv_names _ _ _ _ _ K2), (mv_names _ _ _ _ _ K)|by apply (has_room_moved PASS_STREAMS _ _ _ K2)].
  - apply (moves_weaken enc (0 + Z.of_nat n * PASS_STREAMS)); [nia|]. apply (moves_step enc anyone 0 _ _ _ _ K).
    apply IH; [apply K|by apply (mv_names _ _ _ _ _ K)|]. apply (has_room_moved 0 _ _ _ K). eapply has_room_less; [|exact Hr]. nia.
Qed.

(** How many streams one pass can start. *)
Definition PASS_BUDGET : Z := Z.of_nat CLIENT_READS_PER_PASS * PASS_STREAMS.

Lemma pass_moves p (s : server) : inv s -> names_fine s -> has_room PASS_BUDGET s -> moves_res PASS_BUDGET s (pass p s).
Proof.
  intros I Hn Hr. unfold ServerRun.pass. cbv zeta. assert (0 <= PASS_STREAMS) as Hpos by done.
  set (s1 := foldl _ s (pi_events p)). assert (moved 0 s s1) as K1 by (apply foldl_moved; [|done]; intros; by apply polled_moved).
  pose proof (accept_all_moved (pi_now p 0%nat) (take ACCEPT_BUDGET (pi_accepted p)) 0%nat s1 (mv_inv _ _ _ _ _ K1)) as K2.
  destruct (accept_all (pi_now p 0%nat) 0 (take ACCEPT_BUDGET (pi_accepted p)) s1) as [s2 [r|r]]; cbn [fst] in K2.
  2:{ apply (moves_res_weaken enc (0 + 0)); [done|]. apply (moves_res_step enc anyone 0 0 _ _ _ K1). exists s2, (Err []). done. }
  assert (moved 0 s s2) as K by exact (moved_trans enc anyone 0 0 _ _ _ K1 K2).
  replace PASS_BUDGET with (0 + (PASS_BUDGET + 0)) by lia. apply (moves_res_step enc anyone 0 _ _ _ _ K).
  apply (moves_res_bind enc anyone PASS_BUDGET 0).
  { set (n := Nat.min _ _). apply (moves_weaken enc (Z.of_nat n * PASS_STREAMS)); [unfold n, PASS_BUDGET; nia|].
    apply read_batch_moves; [apply K|by apply (mv_names _ _ _ _ _ K)|].
    apply (has_room_moved 0 _ _ _ K). eapply has_room_less; [|exact Hr]. unfold n, PASS_BUDGET. nia. }
  intros s3 K3. pose proof (mv_inv _ _ _ _ _ K3) as I3. assert (names_fine s3) as N3 by (by apply (mv_names _ _ _ _ _ K3), (mv_names _ _ _ _ _ K)).
  clear K1 K2 K K3. apply (moves_res_bind enc anyone 0 0); [by apply (process_sends_moves enc _ 0)|]. intros s4 K4. pose proof (mv_inv _ _ _ _ _ K4) as I4.
  apply (moves_res_bind enc anyone 0 0); [by apply fanouts_moves|]. intros s5 K5. pose proof (mv_inv _ _ _ _ _ K5) as I5.
  apply (moves_res_bind enc anyone 0 0); [by apply write_batch_moves|]. intros s6 K6. pose proof (mv_inv _ _ _ _ _ K6) as I6.
  pose proof (uploaders_moved s6 I6) as K7. apply (moves_res_step enc anyone 0 0 _ _ _ K7). pose proof (mv_inv _ _ _ _ _ K7) as I7.
  set (s7 := requeue_unclogged_uploaders s6) in *. clearbody s7.
  assert (names_fine s7) as N7 by (by apply (mv_names _ _ _ _ _ K7), (mv_names _ _ _ _ _ K6), (mv_names _ _ _ _ _ K5), (mv_names _ _ _ _ _ K4)).
  apply (moves_res_then enc anyone 0 0); [destruct (pi_voice p); [by apply voice_events_moves|by apply moves_res_id]|].
  intros s8 [r8|e8] K8; [|apply moves_res_id, K8]. pose proof (mv_inv _ _ _ _ _ K8) as I8.
  apply (moves_res_bind enc anyone 0 0).
  { destruct (pi_identity p); [|by apply moves_id]. apply replies_moves; [done|]. by apply (mv_names _ _ _ _ _ K8). }
  intros s9 K9. pose proof (mv_inv _ _ _ _ _ K9) as I9. set (s10 := foldl _ s9 (pi_invites p)).
  assert (moved 0 s9 s10) as K10 by (apply foldl_moved; [|done]; intros; by apply create_invite_moved).
  apply (moves_res_step enc anyone 0 0 _ _ _ K10). pose proof (mv_inv _ _ _ _ _ K10) as I10. clearbody s10.
  apply (moves_res_bind enc anyone 0 0); [by apply flush_moves|]. intros s11 K11.
  apply (moves_res_bind enc anyone 0 0); [apply sweeps_moves, K11|]. intros s12 K12. apply moves_res_id, K12.
Qed.

Lemma run_moves ps : forall (s : server),
  inv s -> names_fine s -> has_room (Z.of_nat (length ps) * PASS_BUDGET) s ->
  moves_res (Z.of_nat (length ps) * PASS_BUDGET) s (run ps s).
Proof.
  assert (0 <= PASS_BUDGET) as Hpos by done.
  induction ps as [|p ps IH]; intros s I Hn Hr; cbn [ServerRun.run length] in *; [by apply moves_res_id|].
  replace (Z.of_nat (S (length ps)) * PASS_BUDGET) with (PASS_BUDGET + Z.of_nat (length ps) * PASS_BUDGET) in * by lia.
  apply (moves_res_then enc anyone PASS_BUDGET).
  - apply pass_moves; [done|done|]. eapply has_room_less; [|exact Hr]. nia.
  - intros s1 [r|e] K.
    + apply IH; [apply K|by apply (mv_names _ _ _ _ _ K)|by apply (has_room_moved PASS_BUDGET _ _ _ K)].
    + apply (moves_res_weaken enc 0); [nia|]. apply moves_res_id, K.
Qed.

End passes.
