(* ===== verification/ServerClaims.v ===== *)
(** * What the server promises

    The invariant of [ServerInvariant], kept by every pass of the loop
    ([ServerRun]), read as the promises of src/crates/server/src/lib.rs: the loop
    ends no pass in a panic and keeps its tables in order and its bounds, news of
    a room reach only those who may see it, a session is opened only for a proven
    credential, and a lost connection leaves nothing behind. *)

From stdpp Require Import sorting pretty.
From S2P Require Import Prelude Primitives Text Transport Handshake Auth Media Frame Evented ControlLane Video Net History Usernames Identity.
From S2P Require Import Clock VoiceRelay Resident RoomLog RoomState RoomStore ServerState ServerCascade ServerOps ServerConns ServerAuth ServerVideo ServerLoop.
From S2P Require Import ServerInvariant ServerTeardown ServerNames ServerKept ServerConnsInv ServerSends ServerVideoInv ServerAuthInv ServerLoopInv ServerRun.

Section claims.
Context {Rx Tx St : Type} `{HashOrder} `{ChatStoreLaws St} `{PrimitiveLaws} `{StreamSocket Rx} `{StreamWriter Tx} `{Unicode} `{ClaimsCodec}.
Context (encode_server_control : ServerControl -> bytes) (encode_server_hello : ServerHello -> bytes).
Context (decode_client_hello : bytes -> option ClientHello) (decode_client_control : bytes -> option ClientControl) `{!ControlCodec decode_client_control}.
Context (hello_from_binary : bytes -> option VideoHello) (ack_to_binary : VideoAck -> bytes).
Context (encode_invite_ticket : bytes -> result bytes bytes).
Context (random : nat -> nat -> option bytes) (with_capacity : nat -> nat) (tries : Rx -> nat).
Context (Htries : forall rx : Rx, (patience rx < tries rx)%nat).
Abbreviation server := (Server Rx Tx St).
Abbreviation client := (ClientConn Rx Tx).
Abbreviation enc := encode_server_control.
Abbreviation inv := (inv enc ∅ ∅).
Abbreviation run := (run enc encode_server_hello decode_client_hello decode_client_control hello_from_binary ack_to_binary
  encode_invite_ticket random with_capacity tries).

(** The rooms a server starts with: nobody is in a call. *)
Definition quiet (rs : gmap Z RoomState) : Prop :=
  forall r room, rs !! r = Some room -> rm_id room = r /\ rm_active_streams room = ∅.

Lemma new_server_inv cfg names us rs (st : St) groups now : quiet rs -> inv (new_server cfg names us rs st groups now : server).
Proof.
  intros Hq. assert (forall r room i id, rs !! r = Some room -> rm_active_streams room !! i = Some id -> False) as Hnone.
  { intros r room i id Hr Hi. destruct (Hq r room Hr) as [_ E]. by rewrite E in Hi. }
  split; cbn.
  - split; cbn; by intros.
  - split; cbn; try by intros.
    + intros r room i id Hr Hi. by destruct (Hnone r room i id Hr Hi).
    + intros r room Hr. by destruct (Hq r room Hr).
  - by intros i v.
  - split; cbn; try by intros. intros id. rewrite map_filter_empty, map_size_empty. lia.
  - split; cbn; by intros.
  - split; cbn; by intros.
  - split; cbn; try by intros.
    + intros t. split; [by intros ?%elem_of_empty|by intros [? ?]].
    + intros t Ht. by apply elem_of_nil in Ht.
    + constructor.
  - by intros t q.
  - split; cbn; try by intros; try apply Nat.le_0_l.
  - apply map_Forall_empty.
  - split; cbn; try by constructor. done.
  - by constructor.
  - apply map_Forall_empty.
  - by rewrite fmap_empty.
  - split; cbn; try by intros.
    + intros t Ht. by apply elem_of_nil in Ht.
    + intros r room i id Hr Hi. by destruct (Hnone r room i id Hr Hi).
Qed.

Lemma started_moves cfg names us rs (st : St) groups now ps : quiet rs -> registry_wf names ->
  1 + Z.of_nat (length ps) * PASS_BUDGET < 2 ^ 32 ->
  exists (s : server) r, run ps (new_server cfg names us rs st groups now) = Some (s, r) /\ inv s /\ same_access rs (rooms s).
Proof.
  intros Hq W Hn. pose proof (new_server_inv cfg names us rs st groups now Hq) as I.
  destruct (run_moves enc encode_server_hello decode_client_hello decode_client_control hello_from_binary ack_to_binary encode_invite_ticket
    random with_capacity tries Htries ps _ I) as (s & r & E & K); [by split|split; [done|exact Hn]|].
  exists s, r. split; [exact E|]. split; [apply K|]. exact (mv_rooms _ _ _ _ _ K).
Qed.

(** ** Who learns of a room *)

(** What waits for a connection, and what a session takes part in, concern rooms
    its user may see. *)
Record discreet (rs : gmap Z RoomState) (s : server) : Prop := {
  dc_queued : forall t c q m r, clients s !! t = Some c -> pending_controls s !! t = Some q -> m ∈ q -> r ∈ scope m ->
    exists id x, cc_session_id c = Some id /\ sessions s !! id = Some x /\ ss_tcp_token x = t /\ may_see rs (ss_user_id x) r;
  dc_calls : forall r room i id, rooms s !! r = Some room -> rm_active_streams room !! i = Some id ->
    exists x, sessions s !! id = Some x /\ may_see rs (ss_user_id x) r;
  dc_uploads : forall k u id x, active_uploads s !! k = Some u -> id ∈ up_recipients u -> sessions s !! id = Some x ->
    may_see rs (ss_user_id x) (up_room_id u);
  dc_secrets : forall i v id key, streams s !! i = Some v -> st_view_secrets v !! id = Some key ->
    exists x, sessions s !! id = Some x /\ ss_voice_room x = Some (st_room_id v) /\ may_see rs (ss_user_id x) (st_room_id v);
  dc_frames : forall f t c, f ∈ video_fanouts s -> t ∈ fo_subscribers f -> clients s !! t = Some c ->
    exists v w id x, streams s !! fo_stream_id f = Some v /\ cc_kind c = VideoKind w /\ vc_session_id w = Some id /\
      sessions s !! id = Some x /\ ss_voice_room x = Some (st_room_id v) /\ may_see rs (ss_user_id x) (st_room_id v);
}.

Lemma viewer_session (s : server) i v t c : inv s -> streams s !! i = Some v -> clients s !! t = Some c -> viewer_of i c ->
  exists w id, cc_kind c = VideoKind w /\ vc_session_id w = Some id /\ is_Some (st_view_secrets v !! id).
Proof.
  intros I Hv Hc (w & Hk & Hi & Hr). pose proof (co_progress _ (inv_conns _ _ _ _ I t c Hc)) as P. unfold progress in P. rewrite Hk in P.
  destruct P as (_ & _ & _ & _ & [Hless Hnamed _]).
  assert (vc_phase w <> VideoAwaitHello) as [[id Hid] _]%Hnamed by (intros E%Hless; congruence).
  exists w, id. split_and!; [done..|].
  destruct (vo_viewer _ _ _ _ _ (inv_streams _ _ _ _ I i v Hv) t c w id Hc Hk Hi Hr Hid) as [[]%not_elem_of_empty|?]; done.
Qed.

Lemma inv_discreet rs (s : server) : inv s -> same_access rs (rooms s) -> discreet rs s.
Proof.
  intros I Hrs. assert (forall id x r, sessions s !! id = Some x -> ss_voice_room x = Some r -> may_see rs (ss_user_id x) r) as Hcall.
  { intros id x r Hx Hr. apply (may_see_access _ _ _ _ Hrs). exact (ca_allowed _ _ _ (inv_calls _ _ _ _ I) id x r Hx Hr). }
  assert (forall i v id, streams s !! i = Some v -> is_Some (st_view_secrets v !! id) ->
    exists x, sessions s !! id = Some x /\ ss_voice_room x = Some (st_room_id v) /\ may_see rs (ss_user_id x) (st_room_id v)) as Hsec.
  { intros i v id Hv [key Hk]. destruct (vo_secrets _ _ _ _ _ (inv_streams _ _ _ _ I i v Hv) id key Hk) as (x & Hx & Hr). eauto. }
  split.
  - intros t c q m r Hc Hq Hm Hr. destruct (inv_allowed _ _ _ _ I t q c m Hq Hc Hm r Hr) as (u & Hu & Hsee).
    pose proof (inv_sessions _ _ _ _ I) as S. destruct (cc_session_id c) as [id|] eqn:Hid.
    + destruct (so_named _ _ _ S t c id Hc Hid) as (x & Hx & Ht). exists id, x. split_and!; [done..|]. apply (may_see_access _ _ _ _ Hrs).
      destruct (so_live _ _ _ S id x Hx) as (c' & Hc' & _ & Hu' & _); [apply not_elem_of_empty|]. simplify_eq. congruence.
    + pose proof (so_user _ _ _ S t c Hc Hid). congruence.
  - intros r room i id Hr Hi. destruct (ca_member _ _ _ (inv_calls _ _ _ _ I) r room i id Hr Hi) as (x & Hx & _ & Hv). eauto.
  - intros k u id x Hu Hid Hx. apply (may_see_access _ _ _ _ Hrs). exact (uo_allowed _ _ _ _ (inv_uploads _ _ _ _ I) k u id x Hu Hid Hx).
  - intros i v id key Hv Hk. apply (Hsec i v id Hv). by eexists.
  - intros f t c Hf Ht Hc. pose proof (proj1 (Forall_forall _ _) (inv_relayed _ _ _ _ I) f Hf) as [_ Hview].
    destruct (Hview t Ht) as [_ Hvc]. destruct (proj1 (Forall_forall _ _) (fa_stream _ _ _ (inv_fanouts _ _ _ _ I)) f Hf) as [v Hv].
    destruct (viewer_session s _ v t c I Hv Hc (Hvc c Hc)) as (w & id & Hk & Hid & Hsome).
    destruct (Hsec _ v id Hv Hsome) as (x & Hx & Hr & Hsee). by exists v, w, id, x.
Qed.

(** C2: a server started with its rooms empty runs any number of passes, up to four
    billion streams, whatever the connections send, in whatever pieces, and whatever
    the workers and the clock answer: no pass panics or fails to end.  The tables
    agree ([ServerInvariant.inv]): connections and sessions name each other, as do
    calls and members; shares belong to the call and have viewers in it; uploads
    hold distinct names; the routes reserved, and those the voice relay was told,
    are the live sessions'; queues are charged exactly and below the high-water
    mark; admission slots are those of connections being set up.  And rooms stay
    private ([discreet]): by the access they were configured with, every queued
    message that speaks of a room waits for a session whose user may see it; so
    may every member of a call and every recipient of a file; the secret to watch a
    share and its frames are only for members of its call. *)
Theorem server_keeps_order cfg names us rs (st : St) groups now ps : quiet rs -> registry_wf names ->
  1 + Z.of_nat (length ps) * PASS_BUDGET < 2 ^ 32 ->
  exists (s : server) r, run ps (new_server cfg names us rs st groups now) = Some (s, r) /\ inv s /\ discreet rs s.
Proof.
  intros Hq W Hn. destruct (started_moves cfg names us rs st groups now ps Hq W Hn) as (s & r & E & I & Hrs).
  exists s, r. split; [exact E|]. split; [exact I|by apply inv_discreet].
Qed.

(** ** Messages arrive *)

Definition fits (m : ServerControl) : Prop := Z.of_nat (length (enc m)) <= MAX_CONTROL_PAYLOAD_BYTES.

(** Told, behind what was waiting, unless the connection had to be dropped. *)
Definition delivered (m : ServerControl) (s s' : server) (t : Z) : Prop :=
  fits m -> clients s' !! t = None \/ exists q, pending_controls s' !! t = Some (default [] (pending_controls s !! t) ++ q) /\ m ∈ q.

Lemma delivered_shrinks m X (s s1 s2 : server) t : shrinks X s1 s2 -> delivered m s s1 t -> delivered m s s2 t.
Proof.
  intros S Hd Hf. destruct (clients s2 !! t) as [c|] eqn:Hc; [right|by left].
  destruct (Hd Hf) as [Hn|(q & Hq & Hm)]; [by rewrite (lookup_weaken_None _ _ _ Hn (sh_clients _ _ _ S)) in Hc|].
  destruct (sh_queued _ _ _ S t _ Hq) as [q' Hq']; [by eexists|]. exists (q ++ q'). rewrite app_assoc. split; [done|]. apply elem_of_app. by left.
Qed.

(** A connection with a session takes control messages. *)
Definition listens (s : server) (t : Z) : Prop := forall c, clients s !! t = Some c -> is_Some (cc_control c).

Lemma session_listens (s : server) id x : inv s -> sessions s !! id = Some x -> listens s (ss_tcp_token x).
Proof.
  intros I Hx c Hc. destruct (so_live _ _ _ (inv_sessions _ _ _ _ I) id x Hx) as (c' & Hc' & Hid & _ & Hk); [apply not_elem_of_empty|].
  simplify_eq. pose proof (co_progress _ (inv_conns _ _ _ _ I _ c Hc)) as P. unfold progress, setting_up in P. rewrite Hk in P.
  destruct (cc_state c); naive_solver.
Qed.

Lemma queue_delivers now (s0 s : server) t m : inv s -> tellable s t m -> listens s t ->
  (forall c, clients s !! t = Some c -> exists q, default [] (pending_controls s !! t) = default [] (pending_controls s0 !! t) ++ q) ->
  exists s' r, queue_shared_control_payload enc (disconnect enc now) t m s = Some (s', r) /\ inv s' /\ shrinks ∅ s s' /\ delivered m s0 s' t.
Proof.
  intros I Ht Hl Hq. destruct (queue_ok enc (S (size (clients s))) _ (disconnect_ok enc now _) ∅ ∅ s t m) as (s' & r & E & I' & S'); [lia|done..|].
  exists s', r. split_and!; [done..|]. intros Hf. unfold fits in Hf. unfold queue_shared_control_payload in E. rewrite decide_False in E by lia.
  destruct (clients s !! t) as [c|] eqn:Hc; [|left; exact (lookup_weaken_None _ _ _ Hc (sh_clients _ _ _ S'))].
  destruct (Hl c Hc) as [p Hp]. rewrite Hp in E.
  assert (RecordProtection.sealed_len p (length (enc m)) <= 28 + length (enc m))%nat as Hs.
  { destruct p; cbn; unfold TRANSPORT_HEADER_LEN, TAG_LEN; lia. }
  unfold MAX_CONTROL_PAYLOAD_BYTES in Hf. rewrite decide_False in E by (unfold MAX_FRAME_LEN; lia).
  destruct (disconnect_ok enc now (S (size (clients s))) t ∅ ∅ s) as (s1 & E1 & _ & _ & Hnone); [lia|done|]. rewrite E1 in E.
  repeat case_decide; cbn [mbind option_bind] in E; injection E as <- <-; [by left..|]. right.
  destruct (Hq c eq_refl) as [q Hq1]. exists (q ++ [m]). split; [|apply elem_of_app; right; by apply list_elem_of_singleton].
  unfold schedule_control. case_decide; cbn; rewrite lookup_insert_eq, Hq1, app_assoc; done.
Qed.

Lemma still_queued (s s' : server) t c : shrinks ∅ s s' -> clients s' !! t = Some c ->
  exists q, default [] (pending_controls s' !! t) = default [] (pending_controls s !! t) ++ q.
Proof.
  intros S Hc. destruct (pending_controls s !! t) as [q|] eqn:Hq; [|by eexists].
  destruct (sh_queued _ _ _ S t q Hq) as [q' ->]; [by eexists|]. by exists q'.
Qed.

Lemma send_delivers now ts (s : server) m : inv s -> (forall t, t ∈ ts -> tellable s t m /\ listens s t) ->
  exists s', send_control_to_tokens enc (disconnect enc now) ts m s = Some s' /\ inv s' /\ shrinks ∅ s s' /\ forall t, t ∈ ts -> delivered m s s' t.
Proof.
  intros I Hts. apply (runs_to_each enc ∅ ∅ ∅ _ (fun t s' => delivered m s s' t)); [done| |].
  - intros t s1 s2 S. by apply (delivered_shrinks m ∅).
  - intros t s1 Hin I1 S1. destruct (Hts t Hin) as [Ht Hl].
    destruct (queue_delivers now s s1 t m I1) as (s2 & r & E & I2 & S2 & D2).
    + by apply (tellable_shrinks ∅ s).
    + intros c Hc. apply Hl. exact (lookup_weaken _ _ _ _ Hc (sh_clients _ _ _ S1)).
    + intros c Hc. by eapply still_queued.
    + exists s2. unfold compose, ignoring. rewrite E. by split_and!.
Qed.

Lemma shrinks_store X (s s' : server) : shrinks X s s' -> store s' = store s.
Proof. intros S. by pose proof (sh_rest _ _ _ S) as [= ? ? ? ? ? ?]. Qed.

(** A session is told something that speaks of no room. *)
Lemma answer_delivers now (s : server) id x m : inv s -> sessions s !! id = Some x -> scope m = [] ->
  exists s' r, queue_shared_control_payload enc (disconnect enc now) (ss_tcp_token x) m s = Some (s', r) /\ inv s' /\ store s' = store s /\
    delivered m s s' (ss_tcp_token x).
Proof.
  intros I Hx Hm. destruct (queue_delivers now s s (ss_tcp_token x) m I) as (s' & r & E & I' & S' & D).
  - by apply tellable_unscoped.
  - by eapply session_listens.
  - intros c Hc. exists []. by rewrite app_nil_r.
  - exists s', r. split_and!; [done..|by eapply shrinks_store|done].
Qed.

Lemma session_live (s : server) id x : inv s -> sessions s !! id = Some x -> live_token_for_session s id = Some (ss_tcp_token x).
Proof.
  intros I Hx. apply live_token_spec. exists x. destruct (so_live _ _ _ (inv_sessions _ _ _ _ I) id x Hx) as (c & Hc & _); [apply not_elem_of_empty|].
  split_and!; [done..|by eexists].
Qed.

Lemma broadcast_delivers now (s : server) r m : inv s -> (forall q, q ∈ scope m -> q = r) ->
  exists s', broadcast_control enc (disconnect enc now) r m s = Some s' /\ inv s' /\ store s' = store s /\
    forall id x, sessions s !! id = Some x -> may_see (rooms s) (ss_user_id x) r -> delivered m s s' (ss_tcp_token x).
Proof.
  intros I Hm. destruct (send_delivers now (accessible_recipient_tokens s r None) s m I) as (s' & E & I' & S' & D).
  - intros t Ht. split; [by eapply tellable_room|]. unfold accessible_recipient_tokens in Ht.
    destruct (rooms s !! r) as [room|]; [|by apply not_elem_of_nil in Ht].
    apply list_elem_of_filter in Ht as [_ Ht]. apply list_elem_of_fmap in Ht as ([id x] & -> & Ht).
    apply list_elem_of_filter in Ht as [_ Ht]. apply list_elem_of_filter in Ht as [_ Ht]. apply elem_of_hash_iter in Ht. by eapply session_listens.
  - exists s'. split; [exact E|]. split_and!; [done|by eapply shrinks_store|]. intros id x Hx (room & Hr & Ha). apply D.
    unfold accessible_recipient_tokens. rewrite Hr. apply list_elem_of_filter. split.
    { destruct (so_live _ _ _ (inv_sessions _ _ _ _ I) id x Hx) as (c & Hc & _); [apply not_elem_of_empty|by eexists]. }
    apply list_elem_of_fmap. exists (id, x). split; [done|]. apply list_elem_of_filter. split; [done|]. apply list_elem_of_filter.
    split; [done|]. by apply elem_of_hash_iter.
Qed.

Definition busy : ServerControl := Error ERROR_REQUEST_REJECTED (text "durable history is busy; retry shortly").
Definition not_found : ServerControl := Error ERROR_ROOM_NOT_FOUND (text "room not found").

(** C12: a chat message always gets an answer.  For a room its sender may not see
    nothing is stored and the sender is told there is none; for an encrypted room
    nothing is stored and the sender is told why.  Otherwise it is stored, under
    the number the room hands out and its sender's name and user; when the store
    takes it, it is queued for every session whose user may see the room, the
    sender's too, behind what was already waiting for it, unless the connection
    had to be dropped because its queue was full; when the store refuses it, the
    sender is told to retry.  (Of a message too long for a frame nobody is told.) *)
Theorem chat_reaches_the_room now now_ms (s : server) id x r b st mid :
  inv s -> registry_wf (usernames s) -> sessions s !! id = Some x -> len b < 2 ^ 32 -> store_allocate_message_id (store s) r = (st, mid) ->
  let m := {| message_id := mid; room_id := r; sender := ss_user_id x; sender_name := username_of s (ss_user_id x);
              timestamp_ms := now_ms; body := b; file_transfer_id := None; flags := 0; target := None |} in
  exists s' out, send_chat enc now now_ms id r b s = Some (s', out) /\ inv s' /\
    match room_allows s id r, ordinary_chat_policy_error s r with
    | false, _ => store s' = store s /\ delivered not_found s s' (ss_tcp_token x)
    | true, Some e => store s' = store s /\ delivered (Error ERROR_REQUEST_REJECTED e) s s' (ss_tcp_token x)
    | true, None => exists res, store_try_append st r m = Some (store s', res) /\
        match res with
        | Ok _ => out = Ok () /\ forall id' y, sessions s !! id' = Some y -> may_see (rooms s) (ss_user_id y) r -> delivered (Chat m) s s' (ss_tcp_token y)
        | Err _ => delivered busy s s' (ss_tcp_token x)
        end
    end.
Proof.
  intros I W Hx Hb Hst m. unfold send_chat. rewrite Hx. cbv zeta. unfold check_room_access.
  destruct (room_allows s id r); cbn [negb mbind option_bind].
  2:{ rewrite (session_live s id x I Hx). destruct (answer_delivers now s id x not_found I Hx eq_refl) as (s' & o & E & I' & Hs & D).
      exists s', (Ok ()). unfold tell, send_control_to_token, ignoring, not_found in *. rewrite E. by split_and!. }
  destruct (ordinary_chat_policy_error s r) as [e|].
  { rewrite (session_live s id x I Hx). destruct (answer_delivers now s id x (Error ERROR_REQUEST_REJECTED e) I Hx eq_refl) as (s' & o & E & I' & Hs & D).
    exists s', o. by split_and!. }
  unfold store_and_broadcast. rewrite Hst. cbn [store set_store].
  destruct (store_appends st r m) as [[st' res] Hres].
  { split; [by apply (registry_short s)|exact Hb]. }
  fold m. rewrite Hres. assert (scope (Chat m) = [r]) as Hsc by done. clearbody m. cbn [mbind option_bind]. change (set_store st' (set_store st s)) with (set_store st' s).
  assert (inv (set_store st' s)) as I1 by (apply (kp_inv enc 0 s), set_store_kept, I).
  destruct res as [n|e].
  - destruct (broadcast_delivers now (set_store st' s) r (Chat m) I1) as (s' & E & I' & Hs & D); [rewrite Hsc; set_solver|].
    exists s', (Ok ()). unfold done_with. rewrite E. cbn [mbind option_bind]. split_and!; [done..|]. exists (Ok n). rewrite Hs. by split_and!.
  - unfold reject_durable_history_busy. rewrite (session_live (set_store st' s) id x I1 Hx).
    destruct (answer_delivers now (set_store st' s) id x busy I1 Hx eq_refl) as (s' & o & E & I' & Hs & D).
    exists s', o. split; [exact E|]. split; [done|]. exists (Err e). rewrite Hs. by split.
Qed.

(** ** Who gets a session *)

(** The sessions of [s'] are sessions of [s], of the same user and connection, or
    belong to connection [t] and a user for whom the request vouches. *)
Definition opened_for (mls : MlsDirectory) (now : Z) (asked : server) (t : Z) (c : ClientControl) (s s' : server) : Prop :=
  forall id y, sessions s' !! id = Some y ->
    (ss_tcp_token y = t /\ vouched mls now asked c (ss_user_id y)) \/
    exists x, sessions s !! id = Some x /\ ss_user_id x = ss_user_id y /\ ss_tcp_token x = ss_tcp_token y.

Lemma strangers_opened mls now (asked s s' : server) t c :
  no_strangers (fun u t' => t' = t /\ vouched mls now asked c u) (sessions s) (sessions s') -> opened_for mls now asked t c s s'.
Proof. intros Hs id y Hy. by apply Hs. Qed.

(** C32: a request to authenticate, pair or join an open server always ends, keeps
    the tables in order, and opens a session only for the asking connection and a
    user for whom it vouches: by a device credential, by a stored or dynamic token
    of a user without devices (of the current password epoch), by an unexpired
    invite code, or, on a public server and with its password if it has one, by a
    recovery token or a former token.  Any other request opens none.  When the name
    has to be written first, the same holds of the writer's reply, at any later
    instant and whatever happened to the rest of the server meanwhile. *)
Theorem session_needs_credential mls now now_ms writer_runs t c (s : server) :
  inv s -> registry_wf (usernames s) -> pending_identity s = None ->
  exists s' r, handle_auth_control enc random now now_ms mls writer_runs t c s = Some (s', r) /\ inv s' /\
    opened_for mls now s t c s s' /\
    forall t' p written now' now_ms' (s1 : server), pending_identity s' = Some (t', p) -> inv s1 -> usernames s1 = usernames s' ->
      exists s2, finish_identity enc now' now_ms' t' p written (set_pending_identity None s1) = Some s2 /\ inv s2 /\
        opened_for mls now s t c s1 s2.
Proof.
  intros I W Hp. set (newcomer u t' := t' = t /\ vouched mls now s c u).
  destruct (auth_moves enc random now now_ms mls writer_runs newcomer s t c I) as (s' & r & E & K); [done|by split|].
  exists s', r. split; [exact E|]. split; [apply K|]. split; [apply strangers_opened, K|].
  intros t' p written now' now_ms' s1 Hp' I1 Hn.
  assert (names_fine newcomer s') as [_ Hc] by (apply (mv_names _ _ _ _ _ K); split; [done|by rewrite Hp]).
  specialize (Hc t' p Hp'). rewrite <- Hn in Hc.
  pose proof (taken_moved enc newcomer s1 I1) as K1.
  destruct (finish_moves enc now' now_ms' newcomer (set_pending_identity None s1) t' p written (mv_inv _ _ _ _ _ K1) eq_refl Hc) as (s2 & E2 & K2).
  exists s2. split; [exact E2|]. split; [apply K2|]. apply strangers_opened, (moved_trans enc newcomer 0 0 _ _ _ K1 K2).
Qed.

(** ** The end of a connection *)

(** What is left of a session when its connection is lost: nothing. *)
Definition forgotten (s s' : server) (t : Z) : Prop :=
  clients s' !! t = None /\
  forall c id, clients s !! t = Some c -> cc_session_id c = Some id ->
    gone s' id /\ relay_view (voice_commands s') !! id = None /\
    (forall i v, streams s' !! i = Some v -> st_view_secrets v !! id = None) /\
    (forall r room i, rooms s' !! r = Some room -> rm_active_streams room !! i <> Some id) /\
    (forall r, reserved_media_routes s' !! r <> Some id).

Lemma disconnect_gone now (s : server) t c id : inv s -> clients s !! t = Some c -> cc_session_id c = Some id ->
  exists s', disconnect enc now t s = Some s' /\ gone s' id.
Proof.
  intros I Hc Hid. unfold disconnect. cbn [disconnect_fuel]. unfold disconnect_body.
  assert (clients (forget_token t s) = clients s) as -> by by rewrite forget_eq. rewrite Hc, Hid.
  destruct (drop_inv enc now ∅ ∅ s t c I Hc) as (I1 & S1 & Hcl & Hss). unfold dying in I1. rewrite Hid in I1.
  rewrite (union_comm_L ∅) in I1.
  assert (size (clients (drop_client now t c (forget_token t s))) < size (clients s))%nat as Hs.
  { rewrite Hcl, map_size_delete, Hc. destruct (size (clients s)) eqn:E; [|lia]. apply map_size_empty_inv in E. by rewrite E in Hc. }
  destruct (teardown_ok enc _ _ (disconnect_fuel_ok enc now _) ∅ ∅ _ id (ascii_bytes "sender disconnected") Hs I1) as (s' & E & _ & _ & Hgone).
  by exists s'.
Qed.

(** C37: losing a connection ends, however many other connections it brings down:
    those whose queue is full when they are told, and those that this in turn
    brings down.  More depth changes nothing.  The connection and its session are
    gone, with its uploads, shares, call, peer links, viewing rights and media
    route; every session that is left is as it was, nothing but what was there is
    left of the tables, what was queued for a connection that is left is still in
    front of its queue, and the tables agree. *)
Theorem lost_connection_leaves_nothing now (s : server) t : inv s ->
  exists s', disconnect enc now t s = Some s' /\ inv s' /\ forgotten s s' t /\
    clients s' ⊆ clients s /\ sessions s' ⊆ sessions s /\ active_uploads s' ⊆ active_uploads s /\ peer_links s' ⊆ peer_links s /\
    (forall t' q, pending_controls s !! t' = Some q -> is_Some (clients s' !! t') -> exists q', pending_controls s' !! t' = Some (q ++ q')) /\
    forall n, (size (clients s) < n)%nat -> disconnect_fuel enc now n t s = Some s'.
Proof.
  intros I. destruct (disconnect_ok enc now (S (size (clients s))) t ∅ ∅ s) as (s' & E & I' & S' & Hnone); [lia|done|].
  exists s'. split; [exact E|]. split; [exact I'|]. split_and!; try apply S'.
  - split; [exact Hnone|]. intros c id Hc Hid. destruct (disconnect_gone now s t c id I Hc Hid) as (s1 & E1 & Hgone). simplify_eq.
    destruct Hgone as (Hx & Hgone). split_and!; [by split| | | |].
    + by rewrite (inv_relay _ _ _ _ I'), lookup_fmap, Hx.
    + intros i v Hv. destruct (st_view_secrets v !! id) as [key|] eqn:Hk; [|done].
      destruct (vo_secrets _ _ _ _ _ (inv_streams _ _ _ _ I' i v Hv) id key Hk) as (x & Hx' & _). congruence.
    + intros r room i Hr Hi. destruct (ca_member _ _ _ (inv_calls _ _ _ _ I') r room i id Hr Hi) as (x & Hx' & _). congruence.
    + intros r Hr. destruct (ro_live _ _ (inv_routes _ _ _ _ I') r id Hr) as (x & Hx' & _). congruence.
  - apply map_subseteq_spec. intros id y Hy. destruct (sh_sessions _ _ _ S' id y Hy) as (x & Hx & [->|[[]%not_elem_of_empty _]]). done.
  - intros n Hn. by rewrite (disconnect_fuel_enough enc now ∅ ∅ s t n I Hn).
Qed.

End claims.
